(* ===== verification/_CoqProject ===== *)
-Q . S2P
Prelude.v
RustStr.v
Orders.v
Allocation.v
Backorder.v
Picking.v
Packing.v
OutboundLoad.v
Shipping.v
Gf256.v
ReedSolomon.v
LinearBarcode.v
Gs1.v
QrReader.v
Qr.v
Idempotency.v
Outbox.v
Delivery.v
DeliveryFacts.v
DeliveryGuarantees.v
Worker.v
WorkerGuarantees.v
OrderHolds.v
Lifecycle.v
CellTypes.v
CellDb.v
CellInvariant.v
CellFacts.v
CellHistory.v
CellProgress.v
CellGuards.v
CellGuarantees.v
EdgeTypes.v
EdgeStore.v
EdgeInvariant.v
EdgeStoreFacts.v
EdgeEngine.v
EdgeEngineFacts.v
EdgeGuarantees.v
StockTypes.v
StockDb.v
StockJournal.v
StockHandlers.v
StockCommands.v
StockInvariant.v
StockFacts.v
StockPosting.v
StockMoves.v
StockCommitments.v
StockWorks.v
StockTotals.v
StockGuarantees.v
WorkTasks.v
Configuration.v
Replenishment.v
ReplenishmentPolicy.v
ReplenishmentDb.v
ReplenishmentFacts.v
ReplenishmentPlanning.v
ReplenishmentWork.v
ReplenishmentGuarantees.v
StockHistory.v
CycleCount.v
CountPolicy.v
CycleCountDb.v
CycleCountWork.v
CycleCountTasks.v
CycleCountInvariant.v
CycleCountFacts.v
CycleCountPosting.v
CycleCountCases.v
CycleCountConfirm.v
CycleCountDecide.v
CycleCountGuarantees.v
CycleCountScenario.v
