(* ===== verification/Prelude.v ===== *)
(** * Wareboxes: a verification library

    Wareboxes is a warehouse management system: a Rust workspace with a pure
    domain crate ([crates/domain]), the handlers that run its rules inside
    PostgreSQL transactions ([crates/api], [crates/persistence-postgres]), a worker
    that delivers the events those transactions record ([crates/worker],
    [apps/worker]), and an agent that runs beside the machines of one facility
    ([apps/edge-agent]). This library translates the parts that carry the system's
    own logic into definitions that evaluate, and proves what makes them correct.

    ** Parts

    - The common ground. This file: [Result] and the [?] operator, checked and
      saturating machine arithmetic, stable sorting by a three-way comparison, lists,
      tactics and hints. [RustStr]: strings as sequences of Unicode scalar values,
      [trim], UTF-8 lengths.
    - The life of a fulfillment order, one file for each module of [crates/domain/src]:
      [Orders] ([order.rs] and the release, cancellation and amendment modules),
      [Allocation], [Backorder], [Picking], [Packing], [OutboundLoad], [Shipping]
      (with the departure handler of [crates/api/src/repo/shipping/departure.rs]).
      Quantities are [i64], counters [u32] or [u64], both [Z] with the source's checked
      or unchecked arithmetic spelled out. [Lifecycle] puts the status changes of all of
      them into one step relation, which takes more steps than the program (what a
      handler reads besides the status is any value), so it serves safety only.
    - Commands and their rows. [Idempotency]: the fingerprint of a command, replay,
      and the commit that writes effect and result together. [Outbox]: [enqueue] with
      event keys and aggregate sequences. [OrderHolds]: the two hold handlers of
      [crates/api/src/repo/orders.rs] over their rows, run under the replay protocol,
      with their outbox events.
    - Delivery of events. [Delivery]: claims with leases and fencing versions, reports,
      dead letters, replay, discard, purge, each handler as a function of the tables.
      [DeliveryFacts] carries the invariant and [DeliveryGuarantees] the theorems.
      [Worker]: one pass of the runner through the class [OutboxStore], the interface
      the runner's theorems are proved against; [WorkerGuarantees] instantiates it with
      the PostgreSQL store, whose calls are those of [Delivery].
    - The edge agent. [EdgeTypes]: commands with their validation. [EdgeStore]: the
      methods of the SQLite store. [EdgeInvariant] and [EdgeStoreFacts]: the step
      relation over all of them and the invariant. [EdgeEngine]: the loop that drives
      devices through the class [Adapters]; [EdgeEngineFacts] relates a pass to the
      store's steps by a small weakest-precondition calculus; [EdgeGuarantees] has the
      theorems.
    - The control plane. [CellTypes]: data cells and moves of a tenant between cells
      ([crates/domain/src/data_cell.rs], [data_cell_move.rs]). [CellDb]: the handlers of
      [crates/api/src/repo/data_cells] and [tenant_cell_moves] over their tables, with
      the database functions that they call. [CellInvariant], [CellFacts]: histories,
      the slots of a cell, the invariant and its preservation by every handler.
      [CellHistory]: what a history shows of a move. [CellProgress]: the commands that
      cannot be refused. [CellGuards]: the three triggers of the schema that check what
      the registry of cells writes. [CellGuarantees] has the theorems.
    - Inventory. [StockTypes]: the rows of the inventory tables. [StockDb]: the triggers
      and constraints the schema puts on them ([migrations/postgres]). [StockJournal]: the
      journal ([crates/api/src/repo/inventory_journal.rs]) and the statements of the
      handlers, each with the triggers it fires. [StockHandlers]: receipts, moves, splits,
      status changes, reservations, allocations, holds and batches ([inventory.rs],
      [inventory_allocation.rs], [inventory_hold.rs], [inventory_status_change.rs]).
      [StockCommands]: the commands under the replay protocol and the step relation, in
      which the rest of the system may change the rows that the handlers only read. A
      flag [guards] says whether the checks of the schema that repeat those of the
      handlers are run. [StockInvariant] states the invariant, [StockFacts] and
      [StockPosting] follow the life of a journal transaction, with a small relational
      logic for runs with and without guards; [StockMoves], [StockCommitments] and
      [StockWorks] apply it to the handlers, [StockTotals] adds up,
      [StockGuarantees] has the theorems, and [StockHistory] shows that the journal only
      grows.
    - Work. [WorkTasks]: the rows of warehouse work of every kind, and the handlers that
      assign, start, abort, cancel and release it ([crates/api/src/repo/tasks.rs],
      [tasks/leasing.rs], [tasks/execution.rs]).
    - Decision rules and replenishment. [Configuration]: versions of decision rules and
      the rule in force for an owner and a facility ([crates/domain/src/configuration.rs]).
      [Replenishment]: policies, the states of work, the plan of a pick face and the
      selection of reserves ([replenishment.rs]). [ReplenishmentPolicy]: the effective
      policy with its evidence ([crates/application/src/replenishment_decision_policy.rs]).
      [ReplenishmentDb]: the handler [plan_policy] of [crates/api/src/repo/replenishment]
      over the tables of [StockTypes] and its own, with the triggers on what it writes.
      [ReplenishmentFacts], [ReplenishmentPlanning] and [ReplenishmentWork] relate what
      the handler and the triggers compute; [ReplenishmentGuarantees] has the theorems.
    - Cycle counts. [CycleCount]: tolerances and what becomes of a variance
      ([crates/domain/src/cycle_count.rs]). [CountPolicy]: the tolerance in force with its
      evidence ([crates/application/src/count_decision_policy.rs]). [CycleCountDb]: the rows
      of counts, cases and decisions, the statements on them and their triggers.
      [CycleCountWork]: confirmation and decision
      ([crates/api/src/repo/tasks/cycle_count.rs], [cycle_count_control.rs] and its
      [decision.rs]). [CycleCountTasks]: policies, planning, claims ([policy.rs],
      [cycle_count_claim.rs], [cycle_count_claim_lifecycle.rs]), and the step relation of
      counts, work and stock together, in which [stock_step] is that of [StockCommands] and
      other kinds of work may do what they like to their own rows. [CycleCountInvariant]
      states the invariant, with the phases in which a confirmation suspends parts of it;
      [CycleCountFacts] has the handlers of tasks, [CycleCountPosting] the journal entry of a
      variance, [CycleCountCases] the statements on cases, [CycleCountConfirm] and
      [CycleCountDecide] the two handlers as records of what they did.
      [CycleCountGuarantees] has the theorems and [CycleCountScenario] a tenant at work.
    - Bar codes ([crates/barcodes/src/lib.rs]). [LinearBarcode] (Code 128-B, UPC-A),
      [Gs1] (GS1-128), [Gf256] and [ReedSolomon] (the error correction), [Qr]. [QrReader]
      is a specification: a scanner after ISO/IEC 18004 that shares no definition with
      the encoder.

    ** What the theorems show

    - Stock and demand: planning conserves the demanded quantity and takes stock in
      rotation order, whatever the order of the query; a backorder split, a short
      shipment and a pick shortage conserve demand line by line; every guard has its
      error.
    - Counted progress: the counters of a load satisfy the load's own validity check in
      every reachable state, so the unchecked increments cannot overflow, and a load can
      always be driven to departure; departures in increments partition the cartons of
      a shipment and complete it.
    - Orders: along any history of handlers a shipped order was packed and was never
      released from a terminal state; the hold rows, the order
      status, the activity log and the outbox agree.
    - Commands: a command has its effect once however often it is sent, and a key cannot
      be used for a different request.
    - Events: those of one ordering key are delivered in order; leases exclude each
      other; a worker that lost its lease cannot report; no event is stuck; the journal
      matches the counters; a pass of the worker accounts for all it claimed.
    - Devices: no blind replay, quarantine outside automatic mode, one execution at a
      time, revoked executions cannot commit, records are immutable, resubmission
      replays; the engine refines the store's step relation.
    - Data cells: a cell never promises more slots than it has; a tenant is in one place
      and in one move at a time; between the freeze of a move and its end no write of
      the tenant is accepted, and what is cut over was validated after the freeze; a
      planned move can be completed and a cut-over undone, whatever happened meanwhile,
      with evidence that is not behind the move's last checkpoint, which the database
      asks for; the triggers on cells and their events accept what the handlers of the
      registry write.
    - Inventory: the balances agree with the journal at every position and every journal
      transaction conserves; reserved and held columns are the sums of the active
      allocations and holds and never exceed the stock on hand, nor reservations the
      demand; cancelling a reservation
      releases each of its allocations and nothing else; rows refer to one another as the schema means; the
      redundant guards of the schema never decide; excess demand is refused, with the
      wrong error where the handler's sum wraps.
    - Replenishment: a plan fills the pick face in rotation order and not above its level;
      the effective policy always resolves, to the rule that the domain would pick, with
      valid thresholds; the result of a plan passes the application's own check. The
      checks of the database repeat the handler's verdict, except that they refuse it when
      the projected stock is above the minimum and below the target; and one reserve
      balance without free stock, of a batch that is not deleted and in a location in
      use, stops the whole plan.
    - Cycle counts: the stock of a batch is what was received of it plus the variances that
      counts posted and supervisors approved; a confirmation posts exactly the variances
      within the tolerance of the rule or policy in force, or that the case froze, and opens or continues a case for the others; a balance has one open
      case and one live count; a case uses up no more recounts than its policy grants.
      A recount that is cancelled as a task strands its case, and a rule that changes
      between two counts makes the second one impossible to confirm.
    - Bar codes: what the encoders print reads back as what was asked for. The readers
      are specifications, written from the bars alone; the one of QR symbols also checks
      every function module, both copies of the format information, the syndromes and
      the padding.

    ** Bounds and fuel

    [gf_multiply] runs its loop 8 times, once per bit of a byte, as the source does.
    [gs1_loop] is given the length of its input, and consumes at least one character a
    turn. The QR column walk is given the size of the symbol. The Code 128 theorems ask
    for at most 9000 characters, below which the [u32] sum of the checksum cannot
    overflow. Tenant discovery is proved to end after as many pages as the tenants need,
    and [claim_loop] runs [batch_size] times, the source's bound. [hex_digits] prints at
    most 16 digits, and a [u64] half has 8. Nothing else uses fuel.

    ** Conventions

    A handler is the function from the rows it reads to the rows it leaves or an error;
    a failed transaction leaves the rows as they were. Isolation is the database's: the
    handlers lock what they read, so histories are sequences of handler runs, and a row
    locked elsewhere that a claim skips is an argument. Clocks, random identifiers,
    SHA-256, JSON codecs, device adapters and publishers are arguments; a theorem that
    relies on one of them says what it assumes. Instants are integers.

    ** Not modelled

    Reading queries, the decoding of rows, HTTP routes and their JSON types, the user
    interfaces, SQL schemas, HTTP clients and the composition of the binaries: input and
    output around the rules above. Of [work_tasks], the triggers of labor and of work
    orchestration, and the handlers of the kinds of work other than item counts and
    replenishment plans, are left out. Of the triggers on moves of tenants, those that
    repeat what the handlers check or compare instants and actors (on the rows of moves,
    their events, fences and proofs of routing, and the deferred ones on evidence and
    state) are left out; the one on validations, which asks for more than its handler, is
    part of the handler. Stock and counts write to one outbox, which the
    model keeps as two, since their event keys differ. Of the handlers, only those named here are
    translated; the inventory movements of picking, packing and departures are not, and
    neither are the domain modules for which there is no file. *)

From stdpp Require Export base tactics list numbers strings gmap sorting.
From Stdlib Require Export ZArith Lia.

Declare Scope rust_scope.
Delimit Scope rust_scope with rust.
#[global] Open Scope Z_scope.

(** ** Fallible code: [Result<T, E>] *)

Inductive result (A E : Type) : Type :=
| Ok (a : A)
| Err (e : E).
Arguments Ok {A E} a.
Arguments Err {A E} e.

Definition rbind {A B E} (r : result A E) (k : A → result B E) : result B E :=
  match r with Ok a => k a | Err e => Err e end.

Definition rmap {A B E} (f : A → B) (r : result A E) : result B E :=
  match r with Ok a => Ok (f a) | Err e => Err e end.

Definition map_err {A E F} (f : E → F) (r : result A E) : result A F :=
  match r with Ok a => Ok a | Err e => Err (f e) end.

Definition ok_or {A E} (o : option A) (e : E) : result A E :=
  match o with Some a => Ok a | None => Err e end.

(** [iter().map(f).collect::<Result<Vec<_>, _>>()]: the first error wins. *)
Fixpoint rmapM {A B E} (f : A → result B E) (l : list A) : result (list B) E :=
  match l with
  | [] => Ok []
  | x :: l => rbind (f x) (fun y => rbind (rmapM f l) (fun ys => Ok (y :: ys)))
  end.

(** A [for] loop whose body may fail: [for x in l { f(x)?; }]. *)
Fixpoint rfold {A B E} (f : B → A → result A E) (l : list B) (a : A) : result A E :=
  match l with
  | [] => Ok a
  | x :: l => rbind (f x a) (rfold f l)
  end.

(** [ensure b e] is [if !b { return Err(e) }]. *)
Definition ensure {E} (b : bool) (e : E) : result unit E :=
  if b then Ok tt else Err e.

Definition is_ok {A E} (r : result A E) : bool :=
  match r with Ok _ => true | Err _ => false end.

Notation "'let?' x := e 'in' k" := (rbind e (fun x => k))
  (at level 10, x pattern, e at level 200, k at level 200,
   format "'[v' 'let?'  x  :=  e  'in' '/' k ']'") : rust_scope.
Notation "'check' b 'else' e 'in' k" := (if b then k else Err e)
  (at level 10, b at level 200, e at level 200, k at level 200,
   format "'[v' 'check'  b  'else'  e  'in' '/' k ']'") : rust_scope.
#[global] Open Scope rust_scope.

#[global] Instance result_eq_dec {A E} `{EqDecision A, EqDecision E} :
  EqDecision (result A E).
Proof. solve_decision. Defined.

(** ** Machine integers, as [Z] with their width written out *)

Definition i64_min : Z := -9223372036854775808.
Definition i64_max : Z := 9223372036854775807.
Definition i32_max : Z := 2147483647.
Definition u32_max : Z := 4294967295.
Definition u64_max : Z := 18446744073709551615.
Definition i128_max : Z := 170141183460469231731687303715884105727.
Definition i128_min : Z := -170141183460469231731687303715884105728.

Definition in_i64 (z : Z) : Prop := i64_min ≤ z ≤ i64_max.
Definition in_u32 (z : Z) : Prop := 0 ≤ z ≤ u32_max.
Definition in_u64 (z : Z) : Prop := 0 ≤ z ≤ u64_max.
Definition pos_i64 (z : Z) : Prop := 0 < z ≤ i64_max.
Definition nonneg_i64 (z : Z) : Prop := 0 ≤ z ≤ i64_max.

Definition checked (lo hi z : Z) : option Z :=
  if (lo <=? z) && (z <=? hi) then Some z else None.

Definition i64_checked_add (a b : Z) : option Z := checked i64_min i64_max (a + b).
Definition i64_checked_sub (a b : Z) : option Z := checked i64_min i64_max (a - b).
Definition i64_checked_mul (a b : Z) : option Z := checked i64_min i64_max (a * b).
Definition u32_checked_add (a b : Z) : option Z := checked 0 u32_max (a + b).
Definition u32_checked_sub (a b : Z) : option Z := checked 0 u32_max (a - b).
Definition i128_checked_add (a b : Z) : option Z := checked i128_min i128_max (a + b).
Definition i128_checked_mul (a b : Z) : option Z := checked i128_min i128_max (a * b).

(** Unchecked [+] and [-] of the release profile wrap around in two's
    complement. *)
Definition wrap_i64 (z : Z) : Z :=
  (z + 9223372036854775808) mod 18446744073709551616 - 9223372036854775808.
Definition i64_add (a b : Z) : Z := wrap_i64 (a + b).
Definition i64_sub (a b : Z) : Z := wrap_i64 (a - b).

Definition u32_wrap (z : Z) : Z := z mod 4294967296.

(** [saturating_sub] on an unsigned type. *)
Definition saturating_sub (a b : Z) : Z := Z.max 0 (a - b).

(** The positive-integer newtypes ([AllocationQuantity], [OrderRevision], the
    [positive_id!] family, ...) are represented by the integer they carry. *)
Definition positive_new {E} (mk_err : Z → E) (value : Z) : result Z E :=
  if 0 <? value then Ok value else Err (mk_err value).

Definition nonnegative_new {E} (mk_err : Z → E) (value : Z) : result Z E :=
  if 0 <=? value then Ok value else Err (mk_err value).

(** [checked_next] of every revision newtype. *)
Definition revision_checked_next (revision : Z) : option Z := i64_checked_add revision 1.

(** ** Loops that reject a repeated key

    [for x in xs { if !seen.insert(key(x)) { return Err(..) } }] over a
    [HashSet]: the first element whose key was seen before it. *)
Fixpoint first_repeat {A K} `{Countable K} (key : A → K) (seen : gset K)
    (xs : list A) : option A :=
  match xs with
  | [] => None
  | x :: xs =>
      if decide (key x ∈ seen) then Some x
      else first_repeat key ({[key x]} ∪ seen) xs
  end.

(** ** Orders given by a comparison function *)

Definition then_with (c d : comparison) : comparison :=
  match c with Eq => d | _ => c end.

Class OrdCmp {A : Type} (cmp : A → A → comparison) : Prop := {
  cmp_sym x y : cmp y x = CompOpp (cmp x y);
  cmp_le_trans x y z : cmp x y ≠ Gt → cmp y z ≠ Gt → cmp x z ≠ Gt;
}.

Arguments cmp_sym {A} cmp {_} x y.
Arguments cmp_le_trans {A} cmp {_} x y z _ _.

Definition cmp_le {A} (cmp : A → A → comparison) (x y : A) : Prop := cmp x y ≠ Gt.

(** [slice::sort_by]: a stable sort, as insertion sort (an element is placed
    before the elements it is equal to, so equal elements keep their order). *)
Fixpoint insert_by {A} (cmp : A → A → comparison) (x : A) (l : list A) : list A :=
  match l with
  | [] => [x]
  | y :: l' => match cmp x y with
               | Gt => y :: insert_by cmp x l'
               | _ => x :: y :: l'
               end
  end.

Definition sort_by {A} (cmp : A → A → comparison) (l : list A) : list A :=
  foldr (insert_by cmp) [] l.

(** The lexicographic order of slices and of strings by their bytes. *)
Fixpoint list_compare {A} (cmp : A → A → comparison) (l1 l2 : list A) : comparison :=
  match l1, l2 with
  | [], [] => Eq
  | [], _ :: _ => Lt
  | _ :: _, [] => Gt
  | x :: l1, y :: l2 => then_with (cmp x y) (list_compare cmp l1 l2)
  end.

Definition zsum (l : list Z) : Z := foldr Z.add 0 l.

(** [SELECT COUNT( * ) .. WHERE f] over a table. *)
Definition count_rows `{Countable K} {A} (f : K → A → bool) (m : gmap K A) : Z :=
  Z.of_nat (length (List.filter (fun '(k, x) => f k x) (map_to_list m))).

(** [SELECT SUM(f) ..] over a table. *)
Definition sum_rows `{Countable K} {A} (f : K → A → Z) (m : gmap K A) : Z :=
  zsum ((fun '(k, x) => f k x) <$> map_to_list m).

(** [GROUP BY]: the keys of a list of rows with the sum of each. *)
Definition sum_by {K} `{EqDecision K} (k : K) (l : list (K * Z)) : Z :=
  zsum (snd <$> List.filter (fun r => bool_decide (r.1 = k)) l).
Definition group_by {K} `{EqDecision K} (l : list (K * Z)) : list (K * Z) :=
  (fun k => (k, sum_by k l)) <$> remove_dups (fst <$> l).

(** ** Stored names of an enumeration: [as_str] and [parse] *)

(** A Rust [match value { "a" => Some(A), ..., _ => None }]. *)
Fixpoint str_match {T} (value : string) (arms : list (string * T)) : option T :=
  match arms with
  | [] => None
  | (name, t) :: arms => if String.eqb value name then Some t else str_match value arms
  end.

(** The contract of an [as_str]/[parse] pair: [parse] accepts exactly the names
    that [as_str] writes, each as the value it was written for. *)
Class StoredName (T : Type) := {
  as_str : T → string;
  parse : string → option T;
  parse_spec s t : parse s = Some t ↔ s = as_str t;
}.

(** ** Automation *)

Create HintDb rust.

(** Turn boolean tests in the context and the goal into propositions. *)
Ltac bool_to_prop :=
  repeat match goal with
  | H : (_ && _) = true |- _ => apply andb_true_iff in H as [? ?]
  | H : (_ && _) = false |- _ => apply andb_false_iff in H
  | H : (_ || _) = true |- _ => apply orb_true_iff in H
  | H : (_ || _) = false |- _ => apply orb_false_iff in H as [? ?]
  | H : negb _ = true |- _ => apply negb_true_iff in H
  | H : negb _ = false |- _ => apply negb_false_iff in H
  | H : (_ <? _) = true |- _ => apply Z.ltb_lt in H
  | H : (_ <? _) = false |- _ => apply Z.ltb_ge in H
  | H : (_ <=? _) = true |- _ => apply Z.leb_le in H
  | H : (_ <=? _) = false |- _ => apply Z.leb_gt in H
  | H : (_ =? _) = true |- _ => apply Z.eqb_eq in H
  | H : (_ =? _) = false |- _ => apply Z.eqb_neq in H
  | H : bool_decide _ = true |- _ => apply bool_decide_eq_true_1 in H
  | H : bool_decide _ = false |- _ => apply bool_decide_eq_false_1 in H
  | H : _ ∨ _ |- _ =>
      progress rewrite ?bool_decide_eq_true, ?bool_decide_eq_false, ?Z.ltb_lt, ?Z.ltb_ge,
        ?Z.leb_le, ?Z.leb_gt, ?Z.eqb_eq, ?Z.eqb_neq, ?negb_true_iff, ?negb_false_iff,
        ?andb_true_iff, ?orb_true_iff, ?andb_false_iff, ?orb_false_iff in H
  end.

(** Follow the branches of a successful (or failing) run recorded in [H]. *)
Ltac run H :=
  repeat (unfold rbind, rmap, map_err, ok_or, ensure in H; cbn beta iota zeta in H;
    match type of H with
    | context [match ?x with _ => _ end] =>
        lazymatch x with
        | context [match _ with _ => _ end] => fail
        | _ => let E := fresh "E" in destruct x eqn:E; try discriminate H
        end
    end);
  simplify_eq; bool_to_prop.

Ltac unfold_ranges :=
  unfold in_i64, in_u32, in_u64, pos_i64, nonneg_i64, i64_min, i64_max, u32_max,
    u64_max, i128_min, i128_max in *.

Ltac range_lia := unfold_ranges; lia.

(** The law of a [StoredName] instance, from the finite list of arms. *)
Ltac solve_stored_name :=
  intros s t; split;
  [ lazymatch goal with |- ?f _ = _ → _ => unfold f end;
    cbn [str_match]; intros Hparse;
    repeat match type of Hparse with
    | (if String.eqb ?a ?b then _ else _) = _ =>
        destruct (String.eqb_spec a b); [simplify_eq; reflexivity|]
    end; discriminate Hparse
  | intros ->; destruct t; reflexivity ].

(** ** Generic lemmas *)

Lemma checked_Some lo hi z r : checked lo hi z = Some r ↔ r = z ∧ lo ≤ z ≤ hi.
Proof.
  unfold checked. destruct (lo <=? z) eqn:?, (z <=? hi) eqn:?; cbn; bool_to_prop;
    split; intros; destruct_and?; simplify_eq; auto; lia.
Qed.

Lemma checked_in lo hi z : lo ≤ z ≤ hi → checked lo hi z = Some z.
Proof. intros. by apply checked_Some. Qed.

Lemma checked_None lo hi z : checked lo hi z = None ↔ z < lo ∨ hi < z.
Proof.
  unfold checked. destruct (lo <=? z) eqn:?, (z <=? hi) eqn:?; cbn; bool_to_prop;
    split; intros; simplify_eq; auto; lia.
Qed.

Lemma wrap_i64_id z : in_i64 z → wrap_i64 z = z.
Proof. unfold wrap_i64. intros. rewrite Z.mod_small; range_lia. Qed.

(** The sum of two non-negative [i64] that overflows wraps to a negative one. *)
Lemma wrap_i64_over z :
  i64_max < z ≤ i64_max + i64_max → wrap_i64 z = z - 18446744073709551616.
Proof.
  intros. unfold wrap_i64.
  rewrite <-(Z.mod_unique (z + 9223372036854775808) 18446744073709551616 1
    (z + 9223372036854775808 - 18446744073709551616)); range_lia.
Qed.

Lemma wrap_i64_range z : in_i64 (wrap_i64 z).
Proof.
  unfold wrap_i64, in_i64, i64_min, i64_max.
  pose proof (Z.mod_pos_bound (z + 9223372036854775808) 18446744073709551616). lia.
Qed.

Lemma u32_wrap_id z : in_u32 z → u32_wrap z = z.
Proof. intros. unfold u32_wrap. apply Z.mod_small. range_lia. Qed.

Lemma positive_new_ok {E} (mk : Z → E) v r :
  positive_new mk v = Ok r ↔ r = v ∧ 0 < v.
Proof.
  unfold positive_new. destruct (0 <? v) eqn:?; bool_to_prop; split; intros;
    destruct_and?; simplify_eq; auto; lia.
Qed.

Lemma revision_checked_next_spec r n :
  revision_checked_next r = Some n → n = r + 1 ∧ n ≤ i64_max.
Proof. unfold revision_checked_next. intros [-> ?]%checked_Some. lia. Qed.

Lemma rbind_ok {A B E} (r : result A E) (k : A → result B E) b :
  rbind r k = Ok b ↔ ∃ a, r = Ok a ∧ k a = Ok b.
Proof. destruct r; cbn; naive_solver. Qed.

(** The state a successful call leaves behind. *)
Definition state_after {A B E} (x : result (A * B) E) (d : A) : A :=
  match x with Ok (a, _) => a | Err _ => d end.

Lemma state_after_ok {A B E} (x : result (A * B) E) d :
  is_ok x = true → ∃ b, x = Ok (state_after x d, b).
Proof. destruct x as [[a b]|e]; [by exists b|done]. Qed.

Lemma state_after_answer {A B E} (x : result (A * B) E) d b :
  rmap snd x = Ok b → x = Ok (state_after x d, b).
Proof. destruct x as [[a b']|e]; [by intros [= ->]|done]. Qed.

Lemma rmapM_ok {A B E} (f : A → result B E) l out :
  rmapM f l = Ok out ↔ Forall2 (fun x y => f x = Ok y) l out.
Proof.
  revert out. induction l as [|x l IH]; intros out; cbn.
  - split; [by intros [= <-]|by intros ->%Forall2_nil_inv_l].
  - rewrite rbind_ok. setoid_rewrite rbind_ok. split.
    + intros (y & Hy & ys & Hys%IH & [= <-]). by constructor.
    + intros (y & ys & Hy & Hys%IH & ->)%Forall2_cons_inv_l. eauto 10.
Qed.

Lemma rfold_app {A B E} (f : B → A → result A E) l1 l2 a :
  rfold f (l1 ++ l2) a = rbind (rfold f l1 a) (rfold f l2).
Proof. revert a. induction l1 as [|x l1 IH]; intros a; cbn; [done|]. destruct (f x a); [apply IH|done]. Qed.

(** An invariant of the loop, indexed by the elements that are still to come. *)
Lemma rfold_inv {A B E} (f : B → A → result A E) (P : list B → A → Prop) l a b :
  (∀ x l a a', f x a = Ok a' → P (x :: l) a → P l a') → rfold f l a = Ok b → P l a → P [] b.
Proof.
  intros Hstep. revert a. induction l as [|x l IH]; intros a; cbn.
  - by intros [= <-].
  - intros (a' & Hx & Hl)%rbind_ok HP. by eapply IH, Hstep.
Qed.

(** ... and a loop whose body succeeds under the invariant succeeds. *)
Lemma rfold_total {A B E} (f : B → A → result A E) (P : list B → A → Prop) l a :
  (∀ x l a, P (x :: l) a → ∃ a', f x a = Ok a' ∧ P l a') → P l a →
  ∃ b, rfold f l a = Ok b ∧ P [] b.
Proof.
  intros Hstep. revert a. induction l as [|x l IH]; intros a HP; cbn; [by exists a|].
  destruct (Hstep x l a HP) as (a' & -> & HP'). by apply IH.
Qed.

(** Two bodies that agree under an invariant make the same loop. *)
Lemma rfold_same {A B E} (f g : B → A → result A E) (P : list B → A → Prop) l a :
  (∀ x l a, P (x :: l) a → f x a = g x a ∧ ∀ a', g x a = Ok a' → P l a') → P l a →
  rfold f l a = rfold g l a.
Proof.
  intros Hstep. revert a. induction l as [|x l IH]; intros a HP; cbn; [done|].
  destruct (Hstep x l a HP) as [-> Hn]. destruct (g x a) as [a'|]; [|done]. by apply IH, Hn.
Qed.

Lemma list_nil_or_snoc {A} (l : list A) : l = [] ∨ ∃ l' x, l = l' ++ [x].
Proof. induction l using rev_ind; eauto. Qed.

Lemma NoDup_fmap_inj_on {A B} (f : A → B) l x y :
  NoDup (f <$> l) → x ∈ l → y ∈ l → f x = f y → x = y.
Proof.
  induction l as [|z l IH]; cbn; [set_solver|]. rewrite NoDup_cons. intros [Hz Hl] Hx Hy E.
  apply elem_of_cons in Hx as [->|Hx], Hy as [->|Hy]; try done; [| |by apply IH].
  - destruct Hz. rewrite E. by apply list_elem_of_fmap_2.
  - destruct Hz. rewrite <-E. by apply list_elem_of_fmap_2.
Qed.

(** *** [List.filter] with a boolean test *)

Lemma elem_of_filter_bool {A} (f : A → bool) l x : x ∈ List.filter f l ↔ x ∈ l ∧ f x = true.
Proof. by rewrite !list_elem_of_In, filter_In. Qed.

Lemma NoDup_filter_bool {A B} (f : A → bool) (g : A → B) l :
  NoDup (g <$> l) → NoDup (g <$> List.filter f l).
Proof.
  induction l as [|x l IH]; cbn; [done|]. rewrite NoDup_cons. intros [Hx Hl].
  destruct (f x); cbn; [|auto]. apply NoDup_cons. split; [|auto].
  intros (y & Hy & Hin)%list_elem_of_fmap. apply elem_of_filter_bool in Hin as [Hin _].
  apply Hx. rewrite Hy. by apply list_elem_of_fmap_2.
Qed.

#[export] Instance filter_bool_perm {A} (f : A → bool) : Proper ((≡ₚ) ==> (≡ₚ)) (List.filter f).
Proof.
  induction 1 as [|x l l' _ IH|x y l|l1 l2 l3 _ IH1 _ IH2]; cbn; [done| | |by etrans].
  - destruct (f x); by rewrite IH.
  - destruct (f x), (f y); try done. constructor.
Qed.

Lemma lookup_foldr_delete_Some `{Countable K} {A} (l : list K) (m : gmap K A) i x :
  foldr delete m l !! i = Some x ↔ (i ∉ l) ∧ m !! i = Some x.
Proof.
  induction l as [|j l IH]; cbn; [set_solver|]. rewrite lookup_delete_Some, IH. set_solver.
Qed.

(** *** Counting rows *)

Section count_rows_facts.
Context `{Countable K} {A : Type} (f : K → A → bool).

Lemma count_rows_insert_new m k x :
  m !! k = None → count_rows f (<[k := x]> m) = count_rows f m + (if f k x then 1 else 0).
Proof.
  intros Hk. unfold count_rows. rewrite map_to_list_insert by done. cbn.
  destruct (f k x); cbn; lia.
Qed.

Lemma count_rows_delete m k x :
  m !! k = Some x → count_rows f m = count_rows f (delete k m) + (if f k x then 1 else 0).
Proof.
  intros Hk. rewrite <-(insert_delete_id m k x Hk) at 1.
  apply count_rows_insert_new, lookup_delete_eq.
Qed.

Lemma count_rows_insert m k x y :
  m !! k = Some y → count_rows f (<[k := x]> m) =
    count_rows f m + (if f k x then 1 else 0) - (if f k y then 1 else 0).
Proof.
  intros Hk. rewrite <-insert_delete_eq, count_rows_insert_new by apply lookup_delete_eq.
  rewrite (count_rows_delete m k y Hk). lia.
Qed.

Lemma count_rows_empty : count_rows f ∅ = 0.
Proof. unfold count_rows. by rewrite map_to_list_empty. Qed.

Lemma count_rows_nonneg m : 0 ≤ count_rows f m.
Proof. unfold count_rows. lia. Qed.

Lemma count_rows_zero m : count_rows f m = 0 → ∀ k x, m !! k = Some x → f k x = false.
Proof.
  intros Hz k x Hk. pose proof (count_rows_delete m k x Hk) as E.
  pose proof (count_rows_nonneg (delete k m)). destruct (f k x); [lia|done].
Qed.
End count_rows_facts.

Lemma count_rows_ext `{Countable K} {A} (f g : K → A → bool) m :
  (∀ k x, m !! k = Some x → f k x = g k x) → count_rows f m = count_rows g m.
Proof.
  induction m as [|k x m Hk IH] using map_ind; intros E; [by rewrite !count_rows_empty|].
  rewrite !count_rows_insert_new by done. rewrite (E k x) by apply lookup_insert_eq.
  rewrite IH; [done|]. intros i y Hi. apply E. by rewrite lookup_insert_ne by congruence.
Qed.

Lemma count_rows_none `{Countable K} {A} (f : K → A → bool) m :
  (∀ k x, m !! k = Some x → f k x = false) → count_rows f m = 0.
Proof.
  induction m as [|k x m Hk IH] using map_ind; intros E; [apply count_rows_empty|].
  rewrite count_rows_insert_new, (E k x) by (done || apply lookup_insert_eq).
  rewrite IH; [done|]. intros i y Hi. apply E. rewrite lookup_insert_ne; [done|congruence].
Qed.

Lemma count_rows_or `{Countable K} {A} (f g : K → A → bool) m :
  (∀ k x, f k x = true → g k x = false) →
  count_rows (fun k x => f k x || g k x) m = count_rows f m + count_rows g m.
Proof.
  intros Hd. induction m as [|k x m Hk IH] using map_ind; [by rewrite !count_rows_empty|].
  rewrite !count_rows_insert_new, IH by done. specialize (Hd k x). destruct (f k x), (g k x); cbn; lia || naive_solver.
Qed.

(** *** Repeated keys *)

Section first_repeat_facts.
Context {A K : Type} `{Countable K} (key : A → K).

Lemma first_repeat_None seen xs :
  first_repeat key seen xs = None ↔
  NoDup (key <$> xs) ∧ ∀ x, x ∈ xs → key x ∉ seen.
Proof.
  revert seen. induction xs as [|x xs IH]; intros seen; cbn.
  - split; [|done]. intros _. split; [constructor|set_solver].
  - case_decide; [set_solver|]. rewrite IH, NoDup_cons. set_solver.
Qed.

Lemma first_repeat_Some seen xs x :
  first_repeat key seen xs = Some x →
  ∃ pre post, xs = pre ++ x :: post ∧ first_repeat key seen pre = None ∧
              (key x ∈ seen ∨ key x ∈ key <$> pre).
Proof.
  revert seen. induction xs as [|y xs IH]; intros seen; cbn; [done|].
  case_decide as Hy; intros Heq.
  - simplify_eq. exists [], xs. auto.
  - apply IH in Heq as (pre & post & -> & Hpre & Hin).
    exists (y :: pre), post. cbn. rewrite decide_False by done. set_solver.
Qed.
End first_repeat_facts.

(** *** Comparison orders *)

Section cmp_facts.
Context {A : Type} (cmp : A → A → comparison) `{!OrdCmp cmp}.

Lemma cmp_refl x : cmp x x = Eq.
Proof. pose proof (cmp_sym cmp x x). destruct (cmp x x); done. Qed.

Lemma cmp_le_refl x : cmp_le cmp x x.
Proof. unfold cmp_le. by rewrite cmp_refl. Qed.

Lemma cmp_le_total x y : cmp_le cmp x y ∨ cmp_le cmp y x.
Proof. unfold cmp_le. rewrite (cmp_sym cmp x y). destruct (cmp x y); auto. Qed.

Lemma cmp_le_antisym x y : cmp_le cmp x y → cmp_le cmp y x → cmp x y = Eq.
Proof. unfold cmp_le. rewrite (cmp_sym cmp x y). destruct (cmp x y); done. Qed.

#[global] Instance cmp_le_transitive : Transitive (cmp_le cmp).
Proof. intros x y z. exact (cmp_le_trans cmp x y z). Qed.

Lemma cmp_eq_between x y z :
  cmp x z = Eq → cmp_le cmp x y → cmp_le cmp y z → cmp x y = Eq ∧ cmp y z = Eq.
Proof.
  intros E Hxy Hyz.
  assert (Hzx : cmp_le cmp z x) by (unfold cmp_le; by rewrite (cmp_sym cmp x z), E).
  split; apply cmp_le_antisym; try done; by etrans.
Qed.

Lemma insert_by_perm x l : insert_by cmp x l ≡ₚ x :: l.
Proof.
  induction l as [|y l IH]; cbn; [done|].
  destruct (cmp x y); [done|done|]. rewrite IH. constructor.
Qed.

Lemma sort_by_perm l : sort_by cmp l ≡ₚ l.
Proof. induction l as [|x l IH]; cbn; [done|]. by rewrite insert_by_perm, IH. Qed.

Lemma insert_by_sorted x l :
  StronglySorted (cmp_le cmp) l → StronglySorted (cmp_le cmp) (insert_by cmp x l).
Proof.
  induction 1 as [|y l Hl IH Hy]; cbn; [by repeat constructor|].
  destruct (cmp x y) eqn:E; constructor; try (by constructor).
  1-2: assert (cmp_le cmp x y) by (unfold cmp_le; by rewrite E);
    constructor; [done|]; eapply Forall_impl; [exact Hy|]; intros z ?; by etrans.
  - done.
  - rewrite insert_by_perm. constructor; [|done].
    unfold cmp_le. by rewrite (cmp_sym cmp x y), E.
Qed.

Lemma sort_by_sorted l : StronglySorted (cmp_le cmp) (sort_by cmp l).
Proof. induction l; cbn; [constructor|]. by apply insert_by_sorted. Qed.

(** Two sorted arrangements of the same elements agree when elements that
    compare equal are equal: a total tie-break makes sorting canonical. *)
Lemma sorted_perm_unique l1 l2 :
  (∀ x y, x ∈ l1 → y ∈ l1 → cmp x y = Eq → x = y) →
  StronglySorted (cmp_le cmp) l1 → StronglySorted (cmp_le cmp) l2 →
  l1 ≡ₚ l2 → l1 = l2.
Proof.
  intros Huniq Hs1. revert l2 Huniq.
  induction Hs1 as [|x l1 Hs1 IH Hx]; intros l2 Huniq Hs2 Hp.
  - symmetry. by apply Permutation_nil.
  - destruct Hs2 as [|y l2 Hs2 Hy]; [by apply Permutation_nil_r in Hp|].
    assert (x = y) as ->.
    { assert (Hyx : y ∈ x :: l1) by (rewrite Hp; set_solver).
      assert (Hxy : x ∈ y :: l2) by (rewrite <-Hp; set_solver).
      rewrite Forall_forall in Hx, Hy. apply elem_of_cons in Hyx as [->|Hyx]; [done|].
      apply elem_of_cons in Hxy as [->|Hxy]; [done|].
      apply Huniq; [set_solver|set_solver|]. apply cmp_le_antisym; auto. }
    f_equal. apply IH; [|done|].
    + intros a b Ha Hb. apply Huniq; set_solver.
    + by apply Permutation_cons_inv in Hp.
Qed.

Lemma sort_by_perm_invariant l1 l2 :
  (∀ x y, x ∈ l1 → y ∈ l1 → cmp x y = Eq → x = y) →
  l1 ≡ₚ l2 → sort_by cmp l1 = sort_by cmp l2.
Proof.
  intros Hu Hp. apply sorted_perm_unique.
  - intros x y. rewrite !sort_by_perm. apply Hu.
  - apply sort_by_sorted.
  - apply sort_by_sorted.
  - by rewrite !sort_by_perm.
Qed.
End cmp_facts.

#[export] Instance Zcompare_ord : OrdCmp Z.compare.
Proof.
  split; [intros; apply Z.compare_antisym|].
  intros x y z ? ?. apply Z.compare_le_iff. transitivity y; by apply Z.compare_le_iff.
Qed.

#[export] Instance list_compare_ord {A} (cmp : A → A → comparison) `{!OrdCmp cmp} :
  OrdCmp (list_compare cmp).
Proof.
  split.
  - intros x. induction x as [|a x IH]; intros [|b y]; cbn; try done.
    rewrite (cmp_sym cmp a b), IH. by destruct (cmp a b).
  - intros x. induction x as [|a x IH]; intros [|b y] [|c z]; cbn; try done.
    intros Hxy Hyz. assert (Hc : cmp a c ≠ Gt).
    { apply (cmp_le_trans cmp a b c); intros E; by rewrite E in *. }
    destruct (cmp a c) eqn:Eac; cbn; [|done|done].
    destruct (cmp_eq_between cmp a b c) as [E1 E2]; [done| | |].
    1-2: intros E; by rewrite E in *.
    rewrite E1 in Hxy. rewrite E2 in Hyz. by apply (IH y z).
Qed.

#[export] Instance cmp_on_ord {A B} (f : A → B) (cmp : B → B → comparison) `{!OrdCmp cmp} :
  OrdCmp (fun x y => cmp (f x) (f y)).
Proof. split; [intros; apply (cmp_sym cmp)|]. intros x y z. apply (cmp_le_trans cmp). Qed.

#[export] Instance then_with_ord {A} (c d : A → A → comparison) `{!OrdCmp c, !OrdCmp d} :
  OrdCmp (fun x y => then_with (c x y) (d x y)).
Proof.
  split.
  - intros x y. rewrite (cmp_sym c x y), (cmp_sym d x y).
    by destruct (c x y).
  - intros x y z Hxy Hyz.
    assert (Hc : c x z ≠ Gt).
    { apply (cmp_le_trans c x y z); intros E; rewrite E in *; done. }
    destruct (c x z) eqn:Exz; cbn; [|done|done].
    destruct (cmp_eq_between c x y z) as [E1 E2]; [done| | |].
    1-2: intros E; by rewrite E in *.
    rewrite E1 in Hxy. rewrite E2 in Hyz. cbn in *. by apply (cmp_le_trans d x y z).
Qed.

(** *** Sums *)

Lemma zsum_cons x l : zsum (x :: l) = x + zsum l.
Proof. done. Qed.

Lemma zsum_app l1 l2 : zsum (l1 ++ l2) = zsum l1 + zsum l2.
Proof. unfold zsum. induction l1; cbn in *; lia. Qed.

Lemma zsum_perm l1 l2 : l1 ≡ₚ l2 → zsum l1 = zsum l2.
Proof. unfold zsum. induction 1; cbn; lia. Qed.

#[export] Instance zsum_proper : Proper ((≡ₚ) ==> (=)) zsum.
Proof. intros l1 l2. apply zsum_perm. Qed.

Lemma zsum_nonneg l : Forall (fun x => 0 ≤ x) l → 0 ≤ zsum l.
Proof. unfold zsum. induction 1; cbn; lia. Qed.

(** *** Sums over a table *)

Section sum_rows_facts.
Context `{Countable K} {A : Type} (f : K → A → Z).

Lemma sum_rows_empty : sum_rows f ∅ = 0.
Proof. unfold sum_rows. by rewrite map_to_list_empty. Qed.

Lemma sum_rows_insert_new m k x :
  m !! k = None → sum_rows f (<[k := x]> m) = sum_rows f m + f k x.
Proof.
  intros Hk. unfold sum_rows. rewrite map_to_list_insert by done.
  rewrite fmap_cons, zsum_cons, Z.add_comm. reflexivity.
Qed.

Lemma sum_rows_delete m k x :
  m !! k = Some x → sum_rows f m = sum_rows f (delete k m) + f k x.
Proof.
  intros Hk. rewrite <-(insert_delete_id m k x Hk) at 1.
  apply sum_rows_insert_new, lookup_delete_eq.
Qed.

Lemma sum_rows_insert m k x y :
  m !! k = Some y → sum_rows f (<[k := x]> m) = sum_rows f m + f k x - f k y.
Proof.
  intros Hk. rewrite <-insert_delete_eq, sum_rows_insert_new by apply lookup_delete_eq.
  rewrite (sum_rows_delete m k y Hk). lia.
Qed.

Lemma sum_rows_nonneg m : (∀ k x, m !! k = Some x → 0 ≤ f k x) → 0 ≤ sum_rows f m.
Proof.
  intros Hf. apply zsum_nonneg. apply Forall_fmap, Forall_forall. intros [k x] Hx.
  by apply Hf, elem_of_map_to_list.
Qed.

(** One row is at most the whole, when no row is negative. *)
Lemma sum_rows_le m k x :
  (∀ k x, m !! k = Some x → 0 ≤ f k x) → m !! k = Some x → f k x ≤ sum_rows f m.
Proof.
  intros Hf Hk. rewrite (sum_rows_delete m k x Hk).
  assert (0 ≤ sum_rows f (delete k m)); [|lia].
  apply sum_rows_nonneg. intros i y [_ Hi]%lookup_delete_Some. by apply (Hf i).
Qed.
End sum_rows_facts.

Lemma sum_rows_ext `{Countable K} {A} (f g : K → A → Z) m :
  (∀ k x, m !! k = Some x → f k x = g k x) → sum_rows f m = sum_rows g m.
Proof.
  induction m as [|k x m Hk IH] using map_ind; intros E; [by rewrite !sum_rows_empty|].
  rewrite !sum_rows_insert_new by done. rewrite (E k x) by apply lookup_insert_eq.
  rewrite IH; [done|]. intros i y Hi. apply E. by rewrite lookup_insert_ne by congruence.
Qed.

Lemma sum_rows_zero `{Countable K} {A} (f : K → A → Z) m :
  (∀ k x, m !! k = Some x → f k x = 0) → sum_rows f m = 0.
Proof.
  intros Hz. rewrite (sum_rows_ext f (fun _ _ => 0)) by done.
  induction m as [|k x m Hk IH] using map_ind; [by rewrite sum_rows_empty|].
  rewrite sum_rows_insert_new by done. rewrite IH; [lia|].
  intros i y Hi. apply (Hz i). by rewrite lookup_insert_ne by congruence.
Qed.

Lemma sum_by_app {K} `{EqDecision K} (k : K) l1 l2 :
  sum_by k (l1 ++ l2) = sum_by k l1 + sum_by k l2.
Proof. unfold sum_by. by rewrite List.filter_app, fmap_app, zsum_app. Qed.

Lemma sum_by_cons {K} `{EqDecision K} (k : K) r l :
  sum_by k (r :: l) = (if bool_decide (r.1 = k) then r.2 else 0) + sum_by k l.
Proof. unfold sum_by. cbn [List.filter]. by case_bool_decide; cbn; rewrite ?zsum_cons. Qed.

Lemma sum_by_nil {K} `{EqDecision K} (k : K) : sum_by k [] = 0.
Proof. done. Qed.

Lemma sum_by_split {K} `{EqDecision K} (k k' : K) (l : list (K * Z)) :
  sum_by k' (List.filter (fun r => negb (bool_decide (r.1 = k))) l) =
  if bool_decide (k' = k) then 0 else sum_by k' l.
Proof.
  induction l as [|[k0 q] l IH]; cbn [List.filter fst]; [by case_bool_decide|].
  destruct (decide (k0 = k)) as [->|Hne].
  - rewrite (bool_decide_true (k = k)) by done. cbn [negb]. rewrite IH, sum_by_cons. cbn [fst snd].
    repeat case_bool_decide; congruence || lia.
  - rewrite (bool_decide_false (k0 = k)) by done. cbn [negb]. rewrite !sum_by_cons, IH. cbn [fst snd].
    repeat case_bool_decide; subst; congruence || lia.
Qed.

Lemma sum_by_part {K K'} `{EqDecision K, EqDecision K'} (f : K → K') (k : K) (j : K') (l : list (K * Z)) :
  sum_by j ((fun r => (f r.1, r.2)) <$> l) =
  (if bool_decide (f k = j) then sum_by k l else 0) +
  sum_by j ((fun r => (f r.1, r.2)) <$> List.filter (fun r => negb (bool_decide (r.1 = k))) l).
Proof.
  induction l as [|[k0 q] l IH]; cbn [fmap list_fmap List.filter]; [by case_bool_decide|].
  rewrite !sum_by_cons, IH. cbn [fst snd]. destruct (decide (k0 = k)) as [->|Hne].
  - rewrite (bool_decide_true (k = k)) by done. cbn [negb]. case_bool_decide; lia.
  - rewrite (bool_decide_false (k0 = k)) by done. cbn [negb fmap list_fmap]. rewrite sum_by_cons. cbn [fst snd].
    repeat case_bool_decide; lia.
Qed.

(** Sums that vanish for every key vanish for every coarser key. *)
Lemma sum_by_coarser {K K'} `{EqDecision K, EqDecision K'} (f : K → K') (l : list (K * Z)) :
  (∀ k, sum_by k l = 0) → ∀ j, sum_by j ((fun r => (f r.1, r.2)) <$> l) = 0.
Proof.
  remember (length l) as n eqn:Hn. assert (Hle : (length l ≤ n)%nat) by lia. clear Hn.
  revert l Hle. induction n as [|n IH]; intros l Hle Hz j.
  { by destruct l; [|cbn in Hle; lia]. }
  destruct l as [|[k q] l]; [done|]. rewrite (sum_by_part f k j), Hz, IH.
  - by case_bool_decide.
  - cbn [List.filter fst]. rewrite bool_decide_true by done. cbn [negb].
    pose proof (List.filter_length_le (fun r => negb (bool_decide (r.1 = k))) l). cbn in Hle. lia.
  - intros k'. rewrite sum_by_split, Hz. by case_bool_decide.
Qed.

Lemma sum_by_map {A K} `{EqDecision K} (key : A → K) (q : A → Z) (k : K) (l : list A) :
  sum_by k ((fun x => (key x, q x)) <$> l) =
  zsum ((fun x => if bool_decide (key x = k) then q x else 0) <$> l).
Proof.
  induction l as [|x l IH]; [done|]. rewrite !fmap_cons, sum_by_cons, zsum_cons, IH. done.
Qed.

Lemma sum_by_opp {A K} `{EqDecision K} (key : A → K) (q : A → Z) (k : K) (l : list A) :
  sum_by k ((fun x => (key x, - q x)) <$> l) = - sum_by k ((fun x => (key x, q x)) <$> l).
Proof.
  induction l as [|x l IH]; [done|]. rewrite !fmap_cons, !sum_by_cons, IH. cbn [fst snd].
  case_bool_decide; lia.
Qed.

Lemma zsum_filter {A} (c : A → bool) (q : A → Z) (l : list A) :
  zsum (q <$> l) = zsum (q <$> List.filter c l) + zsum (q <$> List.filter (fun x => negb (c x)) l).
Proof.
  induction l as [|x l IH]; [done|]. cbn [List.filter]. rewrite fmap_cons, zsum_cons, IH.
  destruct (c x); cbn [negb]; rewrite fmap_cons, zsum_cons; lia.
Qed.

Lemma zsum_ext {A} (f h : A → Z) l : (∀ x, x ∈ l → f x = h x) → zsum (f <$> l) = zsum (h <$> l).
Proof.
  intros E. f_equal. apply list_fmap_ext. intros i x Hi. by apply E, (list_elem_of_lookup_2 _ i).
Qed.

Lemma zsum_where {A} (f : A → Z) (c : A → bool) l :
  zsum (f <$> List.filter c l) = zsum ((fun x => if c x then f x else 0) <$> l).
Proof.
  induction l as [|x l IH]; [done|]. cbn [List.filter]. rewrite fmap_cons, zsum_cons, <-IH.
  destruct (c x); [by rewrite fmap_cons, zsum_cons|lia].
Qed.

Lemma zsum_zero {A} (f : A → Z) l : (∀ x, x ∈ l → f x = 0) → zsum (f <$> l) = 0.
Proof.
  intros E. rewrite (zsum_ext f (fun _ => 0)) by done. clear E. induction l as [|x l IH]; [done|].
  by rewrite fmap_cons, zsum_cons, IH.
Qed.

Create Rewrite HintDb zsum.
#[export] Hint Rewrite @zsum_cons @zsum_app @sum_by_app @sum_by_cons @sum_by_nil : zsum.
#[export] Hint Resolve cmp_le_refl zsum_nonneg wrap_i64_range : rust.

(** *** Stored names *)

Lemma parse_as_str `{StoredName T} t : parse (as_str t) = Some t.
Proof. by apply parse_spec. Qed.

#[export] Instance as_str_inj `{StoredName T} : Inj (=) (=) (as_str (T:=T)).
Proof. intros t u E. apply (inj Some). rewrite <-!parse_as_str. by rewrite E. Qed.
