(* ===== verification/RustStr.v ===== *)
(** * Free text

    A Rust [String] is modelled by its sequence of Unicode scalar values, the
    view [chars()] gives. The file holds the parts of [str] and [char] the
    sources use: [trim], [is_empty], [chars().count()], [char::is_whitespace],
    [char::is_control], the ASCII tests and the UTF-8 bytes ([as_bytes],
    [len]), and the laws of [trim] that the validated text types rely on. *)

From stdpp Require Import pretty.
From S2P Require Import Prelude.

Abbreviation rchar := Z (only parsing).
Abbreviation rstr := (list Z) (only parsing).

(** A literal of the source. *)
Definition lit (s : string) : rstr :=
  (fun c => Z.of_N (Ascii.N_of_ascii c)) <$> String.list_ascii_of_string s.

Definition is_char (c : rchar) : Prop :=
  0 ≤ c ≤ 55295 ∨ 57344 ≤ c ≤ 1114111.

#[global] Instance is_char_dec c : Decision (is_char c).
Proof. unfold is_char. apply _. Defined.

(** [char::is_whitespace]: the Unicode property White_Space. *)
Definition is_whitespace (c : rchar) : bool :=
  ((9 <=? c) && (c <=? 13)) || (c =? 32) || (c =? 133) || (c =? 160) || (c =? 5760)
  || ((8192 <=? c) && (c <=? 8202)) || (c =? 8232) || (c =? 8233) || (c =? 8239)
  || (c =? 8287) || (c =? 12288).

(** [char::is_control]: the general category Cc. *)
Definition is_control (c : rchar) : bool :=
  ((0 <=? c) && (c <=? 31)) || ((127 <=? c) && (c <=? 159)).

Definition is_ascii (c : rchar) : bool := (0 <=? c) && (c <=? 127).
Definition is_ascii_control (c : rchar) : bool :=
  ((0 <=? c) && (c <=? 31)) || (c =? 127).
Definition is_ascii_digit (c : rchar) : bool := (48 <=? c) && (c <=? 57).
Definition is_ascii_lowercase (c : rchar) : bool := (97 <=? c) && (c <=? 122).
Definition is_ascii_uppercase (c : rchar) : bool := (65 <=? c) && (c <=? 90).
Definition is_ascii_alphanumeric (c : rchar) : bool :=
  is_ascii_digit c || is_ascii_lowercase c || is_ascii_uppercase c.
(** [u8::is_ascii_hexdigit] *)
Definition is_ascii_hexdigit (b : Z) : bool :=
  is_ascii_digit b || ((65 <=? b) && (b <=? 70)) || ((97 <=? b) && (b <=? 102)).
(** [u8::is_ascii_whitespace]: space, tab, line feed, form feed, return. *)
Definition is_ascii_whitespace (c : Z) : bool :=
  (c =? 32) || (c =? 9) || (c =? 10) || (c =? 12) || (c =? 13).
Definition to_ascii_lowercase (c : rchar) : rchar :=
  if is_ascii_uppercase c then c + 32 else c.

Fixpoint trim_start (s : rstr) : rstr :=
  match s with
  | [] => []
  | c :: s' => if is_whitespace c then trim_start s' else s
  end.
Definition trim_end (s : rstr) : rstr := reverse (trim_start (reverse s)).
Definition trim (s : rstr) : rstr := trim_end (trim_start s).

Definition chars_count (s : rstr) : Z := Z.of_nat (length s).

(** UTF-8. *)
Definition utf8_char (c : rchar) : list Z :=
  if c <? 128 then [c]
  else if c <? 2048 then [192 + c / 64; 128 + c mod 64]
  else if c <? 65536 then [224 + c / 4096; 128 + (c / 64) mod 64; 128 + c mod 64]
  else [240 + c / 262144; 128 + (c / 4096) mod 64; 128 + (c / 64) mod 64; 128 + c mod 64].
Definition as_bytes (s : rstr) : list Z := s ≫= utf8_char.
Definition str_len (s : rstr) : Z := Z.of_nat (length (as_bytes s)).

(** [value.is_empty() || value.trim() != value]. *)
Definition is_blank_or_untrimmed (value : rstr) : bool :=
  bool_decide (value = []) || negb (bool_decide (trim value = value)).

(** [str::split_once]: the text before the first [c], and the text after it. *)
Fixpoint split_once (c : Z) (s : rstr) : option (rstr * rstr) :=
  match s with
  | [] => None
  | d :: s => if d =? c then Some ([], s)
              else match split_once c s with Some (a, b) => Some (d :: a, b) | None => None end
  end.

(** ** Laws *)

Definition head_visible (s : rstr) : Prop :=
  match s with [] => True | c :: _ => is_whitespace c = false end.

Lemma trim_start_visible s : head_visible (trim_start s).
Proof.
  induction s as [|c s IH]; cbn; [done|]. destruct (is_whitespace c) eqn:E; done.
Qed.

Lemma trim_start_id s : head_visible s → trim_start s = s.
Proof. destruct s; cbn; [done|]. by intros ->. Qed.

Lemma trim_start_suffix s : trim_start s `suffix_of` s.
Proof.
  induction s as [|c s IH]; cbn [trim_start]; [reflexivity|].
  destruct (is_whitespace c); [by apply suffix_cons_r|reflexivity].
Qed.

Lemma trim_end_prefix s : trim_end s `prefix_of` s.
Proof.
  unfold trim_end. rewrite <-(reverse_involutive s) at 2.
  destruct (trim_start_suffix (reverse s)) as [k E]. rewrite E at 2.
  rewrite reverse_app. by exists (reverse k).
Qed.

Lemma head_visible_prefix s t : s `prefix_of` t → head_visible t → head_visible s.
Proof. intros [k ->]. by destruct s. Qed.

Lemma trim_visible s : head_visible (trim s) ∧ head_visible (reverse (trim s)).
Proof.
  unfold trim, trim_end. rewrite reverse_involutive. split.
  - eapply head_visible_prefix; [apply trim_end_prefix|]. apply trim_start_visible.
  - apply trim_start_visible.
Qed.

Lemma trim_fixed s : trim s = s ↔ head_visible s ∧ head_visible (reverse s).
Proof.
  split.
  - intros <-. apply trim_visible.
  - intros [H1 H2]. unfold trim, trim_end.
    rewrite (trim_start_id s) by done. rewrite trim_start_id by done.
    apply reverse_involutive.
Qed.

Lemma trim_idemp s : trim (trim s) = trim s.
Proof. apply trim_fixed, trim_visible. Qed.

(** A visible character keeps a text from being blank. *)
Lemma trim_visible_char (s : rstr) c : c ∈ s → is_whitespace c = false → trim s ≠ [].
Proof.
  intros Hc Hv. assert (Hstart : ∀ l : rstr, c ∈ l → c ∈ trim_start l).
  { induction l as [|x l IH]; cbn; [done|]. intros [->|H]%elem_of_cons; [by rewrite Hv; left|].
    destruct (is_whitespace x); [auto|by right]. }
  assert (Hin : c ∈ trim s); [|by intros E; rewrite E in Hin; apply elem_of_nil in Hin].
  unfold trim, trim_end. rewrite elem_of_reverse. apply Hstart. rewrite elem_of_reverse. by apply Hstart.
Qed.

Lemma trim_length s : (length (trim s) ≤ length s)%nat.
Proof.
  etrans; [apply prefix_length, trim_end_prefix|]. apply suffix_length, trim_start_suffix.
Qed.

Lemma is_blank_or_untrimmed_false s :
  is_blank_or_untrimmed s = false ↔ s ≠ [] ∧ trim s = s.
Proof.
  unfold is_blank_or_untrimmed.
  destruct (bool_decide_reflect (s = [])), (bool_decide_reflect (trim s = s)); cbn;
    naive_solver.
Qed.

Lemma utf8_char_length c : (1 ≤ length (utf8_char c))%nat.
Proof. unfold utf8_char. repeat case_match; cbn; lia. Qed.

Lemma str_len_cons c s : str_len (c :: s) = Z.of_nat (length (utf8_char c)) + str_len s.
Proof. unfold str_len, as_bytes. cbn. rewrite length_app. lia. Qed.

Lemma str_len_nonneg s : 0 ≤ str_len s.
Proof. unfold str_len. lia. Qed.

Lemma split_once_app c a b : Forall (fun d => d ≠ c) a → split_once c (a ++ c :: b) = Some (a, b).
Proof.
  induction 1 as [|d a Hd _ IH]; cbn; [by rewrite Z.eqb_refl|].
  by rewrite (proj2 (Z.eqb_neq _ _)), IH.
Qed.

Lemma split_once_length c s a b : split_once c s = Some (a, b) → (length b < length s)%nat.
Proof.
  revert a b. induction s as [|d s IH]; intros a b; cbn; [done|]. destruct (d =? c).
  - intros [= <- <-]. lia.
  - destruct (split_once c s) as [[a' b']|]; [|done]. intros [= <- <-].
    specialize (IH _ _ eq_refl). lia.
Qed.

(** ** Keys built with [format!]

    A key is text, a number, a separator and more text; decimal numbers do not
    contain the separator, so the parts can be read back. *)

Lemma split_once_unique (c : Z) (a b a' b' : rstr) :
  Forall (fun d => d ≠ c) a → Forall (fun d => d ≠ c) a' → a ++ c :: b = a' ++ c :: b' →
  a = a' ∧ b = b'.
Proof.
  intros Ha Ha' E. pose proof (split_once_app c a b Ha) as H.
  rewrite E, (split_once_app c a' b' Ha') in H. by simplify_eq.
Qed.

Lemma lit_app s t : lit (s +:+ t) = lit s ++ lit t.
Proof.
  induction s as [|a s IH]; [done|].
  change (String a s +:+ t) with (String a (s +:+ t)).
  change (Z.of_N (Ascii.N_of_ascii a) :: lit (s +:+ t) = (Z.of_N (Ascii.N_of_ascii a) :: lit s) ++ lit t).
  by rewrite IH.
Qed.

#[global] Instance lit_inj : Inj (=) (=) lit.
Proof.
  unfold lit. intros s. induction s as [|a s IH]; intros [|b t]; cbn; try done. intros [= E1 E2].
  f_equal; [|by apply IH]. rewrite <-(Ascii.ascii_N_embedding a), <-(Ascii.ascii_N_embedding b).
  f_equal. lia.
Qed.

Definition decimal_char (c : Z) : Prop := c = 45 ∨ 48 ≤ c ≤ 57.

Lemma pretty_N_char_decimal n : Forall decimal_char (lit (String (pretty_N_char n) EmptyString)).
Proof. unfold pretty_N_char. repeat case_match; cbn; constructor; try done; unfold decimal_char; cbn; lia. Qed.

Lemma pretty_N_go_decimal x s :
  Forall decimal_char (lit s) → Forall decimal_char (lit (pretty_N_go x s)).
Proof.
  revert s. induction (N.lt_wf_0 x) as [x _ IH]; intros s Hs.
  destruct (decide (x = 0)%N) as [->|Hx]; [by rewrite pretty_N_go_0|].
  rewrite pretty_N_go_step by lia. apply IH; [apply N.div_lt; lia|].
  change (String ?c ?t) with (String c EmptyString +:+ t). rewrite lit_app, Forall_app.
  split; [apply pretty_N_char_decimal|done].
Qed.

Lemma pretty_N_decimal (x : N) : Forall decimal_char (lit (pretty x)).
Proof.
  unfold pretty, pretty_N. case_decide; [|apply pretty_N_go_decimal; constructor].
  cbn. constructor; [unfold decimal_char; lia|done].
Qed.

Lemma pretty_Z_decimal (z : Z) : Forall decimal_char (lit (pretty z)).
Proof.
  unfold pretty, pretty_Z. destruct z; cbn.
  - constructor; [unfold decimal_char; lia|done].
  - apply pretty_N_decimal.
  - constructor; [by left|]. apply pretty_N_decimal.
Qed.

Lemma pretty_Z_no_colon (z : Z) : Forall (fun c => c ≠ 58) (lit (pretty z)).
Proof. eapply Forall_impl; [apply pretty_Z_decimal|]. intros x [->|?]; lia. Qed.

Lemma pretty_N_go_keeps x s c : c ∈ lit s → c ∈ lit (pretty_N_go x s).
Proof.
  revert s. induction (N.lt_wf_0 x) as [x _ IH]; intros s Hs.
  destruct (decide (x = 0)%N) as [->|Hx]; [by rewrite pretty_N_go_0|].
  rewrite pretty_N_go_step by lia. apply IH; [apply N.div_lt; lia|]. cbn. by apply elem_of_cons; right.
Qed.

Lemma pretty_Z_nonempty (z : Z) : lit (pretty z) ≠ [].
Proof.
  unfold pretty, pretty_Z. destruct z as [|p|p]; [done| |done].
  change (lit (if decide (N.pos p = 0)%N then "0" else pretty_N_go (N.pos p) "") ≠ []).
  rewrite decide_False by done. rewrite pretty_N_go_step by lia. intros E.
  assert (Z.of_N (Ascii.N_of_ascii (pretty_N_char (N.pos p `mod` 10))) ∈ @nil Z) as Hin; [|by apply elem_of_nil in Hin].
  rewrite <-E. apply pretty_N_go_keeps. cbn. apply elem_of_cons. by left.
Qed.

Lemma trim_pretty_Z (z : Z) : trim (lit (pretty z)) ≠ [].
Proof.
  pose proof (pretty_Z_decimal z) as Hd. destruct (lit (pretty z)) as [|c s] eqn:E; [by apply pretty_Z_nonempty in E|].
  apply Forall_cons in Hd as [Hc _]. apply (trim_visible_char _ c); [apply elem_of_cons; by left|].
  unfold is_whitespace. destruct Hc as [->|Hc]; [done|]. repeat first [rewrite (proj2 (Z.eqb_neq _ _)) by lia |
    rewrite (proj2 (Z.leb_gt _ _)) by lia ]; rewrite ?andb_false_r; done || (cbn; lia).
Qed.

Lemma as_bytes_ascii (s : rstr) : Forall (fun c => 0 ≤ c < 128) s → as_bytes s = s.
Proof.
  unfold as_bytes. induction 1 as [|c s Hc _ IH]; cbn; [done|].
  rewrite IH. unfold utf8_char. by rewrite (proj2 (Z.ltb_lt _ _)) by lia.
Qed.

Lemma str_len_ascii (s : rstr) : Forall (fun c => 0 ≤ c < 128) s → str_len s = Z.of_nat (length s).
Proof. intros H. unfold str_len. by rewrite as_bytes_ascii. Qed.
