(* ===== verification/Orders.v ===== *)
(** * Fulfillment orders ([crates/domain/src/order.rs] and its companions)

    Creation of an order (validated text, destination, demand lines), the order
    status with its hold transitions, waveless release ([order_release.rs]),
    cancellation before physical execution ([order_cancellation.rs]), and the
    two optimistic amendments ([order_amendment.rs],
    [order_line_amendment.rs]). *)

From S2P Require Import Prelude.
From S2P Require Import RustStr.

(** ** Status *)

Inductive OrderStatus :=
| AwaitingPacking | AwaitingShipment | Shipped | Cancelled | Held | Packing
| Processing | Open | Void.

#[global] Instance OrderStatus_eq_dec : EqDecision OrderStatus.
Proof. solve_decision. Defined.

Definition OrderStatus_ALL : list OrderStatus :=
  [AwaitingPacking; AwaitingShipment; Shipped; Cancelled; Held; Packing; Processing;
   Open; Void].

Definition OrderStatus_as_str (self : OrderStatus) : string :=
  match self with
  | AwaitingPacking => "awaiting packing"
  | AwaitingShipment => "awaiting shipment"
  | Shipped => "shipped"
  | Cancelled => "cancelled"
  | Held => "held"
  | Packing => "packing"
  | Processing => "processing"
  | Open => "open"
  | Void => "void"
  end.

Definition OrderStatus_parse (value : string) : option OrderStatus :=
  str_match value
    [("awaiting packing", AwaitingPacking); ("awaiting shipment", AwaitingShipment);
     ("shipped", Shipped); ("cancelled", Cancelled); ("held", Held);
     ("packing", Packing); ("processing", Processing); ("open", Open); ("void", Void)].

Definition OrderStatus_is_mutable (self : OrderStatus) : bool :=
  match self with Cancelled | Held | Open | Void => true | _ => false end.

Inductive OrderHoldTransitionError := OrderNotHoldable | OrderNotHeld.

Definition place_hold (self : OrderStatus) : result OrderStatus OrderHoldTransitionError :=
  match self with
  | Open | Held => Ok Held
  | _ => Err OrderNotHoldable
  end.

Definition release_hold (self : OrderStatus) (active_holds_remaining : bool) :
    result OrderStatus OrderHoldTransitionError :=
  match self with
  | Held => if active_holds_remaining then Ok Held else Ok Open
  | _ => Err OrderNotHeld
  end.

Inductive OrderHoldReason :=
| AddressReview | ComplianceReview | CustomerRequest | InventoryShortage | PaymentReview
| HoldOther.

Definition OrderHoldReason_as_str (self : OrderHoldReason) : string :=
  match self with
  | AddressReview => "address_review"
  | ComplianceReview => "compliance_review"
  | CustomerRequest => "customer_request"
  | InventoryShortage => "inventory_shortage"
  | PaymentReview => "payment_review"
  | HoldOther => "other"
  end.

Definition OrderHoldReason_parse (value : string) : option OrderHoldReason :=
  str_match value
    [("address_review", AddressReview); ("compliance_review", ComplianceReview);
     ("customer_request", CustomerRequest); ("inventory_shortage", InventoryShortage);
     ("payment_review", PaymentReview); ("other", HoldOther)].

(** ** Release and cancellation *)

Inductive OrderReleaseError := OrderNotOpen (status : OrderStatus).

Definition release_order (status : OrderStatus) : result OrderStatus OrderReleaseError :=
  match status with
  | Open => Ok Processing
  | _ => Err (OrderNotOpen status)
  end.

Inductive OrderCancellationReason :=
| ClientRequest | DuplicateOrder | DataCorrection | InventoryUnavailable
| FulfillmentException | CancelOther.

Definition OrderCancellationReason_as_str (self : OrderCancellationReason) : string :=
  match self with
  | ClientRequest => "client_request"
  | DuplicateOrder => "duplicate_order"
  | DataCorrection => "data_correction"
  | InventoryUnavailable => "inventory_unavailable"
  | FulfillmentException => "fulfillment_exception"
  | CancelOther => "other"
  end.

Definition OrderCancellationReason_parse (value : string) : option OrderCancellationReason :=
  str_match value
    [("client_request", ClientRequest); ("duplicate_order", DuplicateOrder);
     ("data_correction", DataCorrection); ("inventory_unavailable", InventoryUnavailable);
     ("fulfillment_exception", FulfillmentException); ("other", CancelOther)].

Definition OrderCancellationReason_requires_note (self : OrderCancellationReason) : bool :=
  match self with CancelOther => true | _ => false end.

Definition MAX_CANCELLATION_NOTE_LENGTH : Z := 1000.

Inductive OrderCancellationError :=
| InvalidNote
| NoteTooLong (maximum : Z)
| NoteRequired.

Definition CancellationNote_new (value : rstr) : result rstr OrderCancellationError :=
  check negb (is_blank_or_untrimmed value) else InvalidNote in
  check negb (MAX_CANCELLATION_NOTE_LENGTH <? chars_count value)
    else NoteTooLong MAX_CANCELLATION_NOTE_LENGTH in
  Ok value.

Record OrderCancellationDetails := MkOrderCancellationDetails {
  cancellation_reason : OrderCancellationReason;
  cancellation_note : option rstr;
}.

Definition OrderCancellationDetails_new (reason : OrderCancellationReason)
    (note : option rstr) : result OrderCancellationDetails OrderCancellationError :=
  if OrderCancellationReason_requires_note reason && negb (bool_decide (is_Some note))
  then Err NoteRequired
  else Ok (MkOrderCancellationDetails reason note).

Inductive OrderCancellationExecution :=
| Unreleased
| ReleasedUnclaimed (pending_pick_tasks : Z)
| ReleasedRestored (pending_pick_tasks reversed_pick_confirmations : Z)
| Started.

Inductive OrderCancellationTransitionError :=
| OrderNotCancellable (status : OrderStatus)
| InvalidReleaseWork
| PhysicalExecutionStarted.

Definition cancel_order_before_physical_execution (status : OrderStatus)
    (execution : OrderCancellationExecution) :
    result OrderStatus OrderCancellationTransitionError :=
  match status, execution with
  | (Open | Held), Unreleased => Ok Cancelled
  | Processing, ReleasedUnclaimed pending_pick_tasks =>
      if 0 <? pending_pick_tasks then Ok Cancelled else Err InvalidReleaseWork
  | Processing, ReleasedRestored pending_pick_tasks reversed_pick_confirmations =>
      if (0 <? pending_pick_tasks) && (0 <? reversed_pick_confirmations)
      then Ok Cancelled else Err InvalidReleaseWork
  | Processing, Started => Err PhysicalExecutionStarted
  | Processing, Unreleased => Err InvalidReleaseWork
  | _, _ => Err (OrderNotCancellable status)
  end.

(** ** Creation *)

Inductive OrderCreationField :=
| FOrderKey | FLineKey | FRequestedUom | FDestinationRecipientName | FDestinationCompany
| FDestinationPhone | FDestinationEmail | FDestinationLine1 | FDestinationLine2
| FDestinationCity | FDestinationRegion | FDestinationPostalCode | FDestinationCountry.

Inductive OrderCreationError :=
| InvalidText (field : OrderCreationField)
| TextTooLong (field : OrderCreationField) (maximum : Z)
| InvalidItemId (value : Z)
| InvalidOrderQuantity (value : Z)
| MissingDemandLines
| DuplicateLineKey (line_key : rstr).

Definition MAX_ORDER_KEY_LENGTH : Z := 200.
Definition MAX_ORDER_LINE_KEY_LENGTH : Z := 200.
Definition MAX_REQUESTED_UOM_LENGTH : Z := 32.
Definition MAX_DESTINATION_ADDRESS_LINE_LENGTH : Z := 200.
Definition MAX_DESTINATION_RECIPIENT_NAME_LENGTH : Z := 200.
Definition MAX_DESTINATION_COMPANY_LENGTH : Z := 200.
Definition MAX_DESTINATION_PHONE_LENGTH : Z := 64.
Definition MAX_DESTINATION_EMAIL_LENGTH : Z := 254.
Definition MAX_DESTINATION_CITY_LENGTH : Z := 100.
Definition MAX_DESTINATION_REGION_LENGTH : Z := 100.
Definition MAX_DESTINATION_POSTAL_CODE_LENGTH : Z := 32.
Definition MAX_DESTINATION_COUNTRY_LENGTH : Z := 100.

Definition validate_required_text (value : rstr) (field : OrderCreationField)
    (maximum : Z) : result unit OrderCreationError :=
  check negb (is_blank_or_untrimmed value) else InvalidText field in
  check negb (maximum <? chars_count value) else TextTooLong field maximum in
  Ok tt.

Definition validate_optional_text (value : option rstr) (field : OrderCreationField)
    (maximum : Z) : result unit OrderCreationError :=
  match value with
  | Some value => validate_required_text value field maximum
  | None => Ok tt
  end.

Definition OrderKey_new (value : rstr) : result rstr OrderCreationError :=
  let? _ := validate_required_text value FOrderKey MAX_ORDER_KEY_LENGTH in Ok value.

Definition OrderLineKey_new (value : rstr) : result rstr OrderCreationError :=
  let? _ := validate_required_text value FLineKey MAX_ORDER_LINE_KEY_LENGTH in Ok value.

Definition RequestedUom_new (value : rstr) : result rstr OrderCreationError :=
  let? _ := validate_required_text value FRequestedUom MAX_REQUESTED_UOM_LENGTH in Ok value.

Definition OrderQuantity_new (value : Z) : result Z OrderCreationError :=
  positive_new InvalidOrderQuantity value.

Definition CatalogItemId_new (value : Z) : result Z OrderCreationError :=
  positive_new InvalidItemId value.

Record ShippingRecipient := MkRecipient {
  recipient_name : rstr;
  recipient_company : option rstr;
  recipient_phone : option rstr;
  recipient_email : option rstr;
}.

Definition ShippingRecipient_new (name : rstr) (company phone email : option rstr) :
    result ShippingRecipient OrderCreationError :=
  let? _ := validate_required_text name FDestinationRecipientName
              MAX_DESTINATION_RECIPIENT_NAME_LENGTH in
  let? _ := validate_optional_text company FDestinationCompany
              MAX_DESTINATION_COMPANY_LENGTH in
  let? _ := validate_optional_text phone FDestinationPhone MAX_DESTINATION_PHONE_LENGTH in
  let? _ := validate_optional_text email FDestinationEmail MAX_DESTINATION_EMAIL_LENGTH in
  Ok (MkRecipient name company phone email).

Record ShippingDestination := MkDestination {
  dest_recipient : ShippingRecipient;
  dest_line1 : rstr;
  dest_line2 : option rstr;
  dest_city : rstr;
  dest_region : rstr;
  dest_postal_code : rstr;
  dest_country : rstr;
}.

Definition ShippingDestination_new (recipient : ShippingRecipient) (line1 : rstr)
    (line2 : option rstr) (city region postal_code country : rstr) :
    result ShippingDestination OrderCreationError :=
  let? _ := validate_required_text line1 FDestinationLine1
              MAX_DESTINATION_ADDRESS_LINE_LENGTH in
  let? _ := validate_optional_text line2 FDestinationLine2
              MAX_DESTINATION_ADDRESS_LINE_LENGTH in
  let? _ := validate_required_text city FDestinationCity MAX_DESTINATION_CITY_LENGTH in
  let? _ := validate_required_text region FDestinationRegion
              MAX_DESTINATION_REGION_LENGTH in
  let? _ := validate_required_text postal_code FDestinationPostalCode
              MAX_DESTINATION_POSTAL_CODE_LENGTH in
  let? _ := validate_required_text country FDestinationCountry
              MAX_DESTINATION_COUNTRY_LENGTH in
  Ok (MkDestination recipient line1 line2 city region postal_code country).

Record FulfillmentOrderDemandLine := MkDemandLine {
  line_key : rstr;
  line_item_id : Z;
  line_quantity : Z;
  line_requested_uom : rstr;
}.

#[global] Instance ShippingRecipient_eq_dec : EqDecision ShippingRecipient.
Proof. solve_decision. Defined.
#[global] Instance ShippingDestination_eq_dec : EqDecision ShippingDestination.
Proof. solve_decision. Defined.
#[global] Instance FulfillmentOrderDemandLine_eq_dec : EqDecision FulfillmentOrderDemandLine.
Proof. solve_decision. Defined.

Section orders.
Context {Timestamp : Type} `{EqDecision Timestamp}.

Record NewFulfillmentOrder := MkNewOrder {
  order_inventory_owner_id : Z;
  order_key : rstr;
  order_rush : bool;
  order_ship_by : option Timestamp;
  order_destination : ShippingDestination;
  order_demand_lines : list FulfillmentOrderDemandLine;
}.

Definition NewFulfillmentOrder_new (inventory_owner_id : Z) (key : rstr) (rush : bool)
    (ship_by : option Timestamp) (destination : ShippingDestination)
    (demand_lines : list FulfillmentOrderDemandLine) :
    result NewFulfillmentOrder OrderCreationError :=
  match demand_lines with
  | [] => Err MissingDemandLines
  | _ =>
      match first_repeat line_key ∅ demand_lines with
      | Some line => Err (DuplicateLineKey (line_key line))
      | None => Ok (MkNewOrder inventory_owner_id key rush ship_by destination demand_lines)
      end
  end.

Definition initial_status (self : NewFulfillmentOrder) : OrderStatus := Open.

(** *** Amendments *)

Record FulfillmentOrderHeader := MkHeader {
  header_rush : bool;
  header_ship_by : option Timestamp;
  header_destination : ShippingDestination;
}.

#[export] Instance FulfillmentOrderHeader_eq_dec : EqDecision FulfillmentOrderHeader.
Proof. solve_decision. Defined.

Inductive OrderAmendmentError :=
| AmendInvalidOrderStatus | AmendNoChanges | AmendRevisionOverflow.

(** The transition carries only the next order revision. *)
Definition amend_fulfillment_order (status : OrderStatus) (revision : Z)
    (current requested : FulfillmentOrderHeader) : result Z OrderAmendmentError :=
  check bool_decide (status = Open) || bool_decide (status = Held)
    else AmendInvalidOrderStatus in
  check negb (bool_decide (current = requested)) else AmendNoChanges in
  ok_or (revision_checked_next revision) AmendRevisionOverflow.

End orders.

Inductive OrderLineAmendmentError :=
| LinesInvalidOrderStatus
| LinesMissingDemandLines
| LinesDuplicateLineKey (line_key : rstr)
| LinesNoChanges
| LinesRevisionOverflow.

Definition replace_fulfillment_order_lines (status : OrderStatus) (revision : Z)
    (current requested : list FulfillmentOrderDemandLine) :
    result Z OrderLineAmendmentError :=
  check bool_decide (status = Open) || bool_decide (status = Held)
    else LinesInvalidOrderStatus in
  match requested with
  | [] => Err LinesMissingDemandLines
  | _ =>
      match first_repeat line_key ∅ requested with
      | Some line => Err (LinesDuplicateLineKey (line_key line))
      | None =>
          check negb (bool_decide (current = requested)) else LinesNoChanges in
          ok_or (revision_checked_next revision) LinesRevisionOverflow
      end
  end.

(** ** Stored names *)

#[export] Instance OrderStatus_name : StoredName OrderStatus.
Proof.
  refine {| as_str := OrderStatus_as_str; parse := OrderStatus_parse |}.
  solve_stored_name.
Defined.

#[export] Instance OrderHoldReason_name : StoredName OrderHoldReason.
Proof.
  refine {| as_str := OrderHoldReason_as_str; parse := OrderHoldReason_parse |}.
  solve_stored_name.
Defined.

#[export] Instance OrderCancellationReason_name : StoredName OrderCancellationReason.
Proof.
  refine {| as_str := OrderCancellationReason_as_str;
            parse := OrderCancellationReason_parse |}.
  solve_stored_name.
Defined.

(** ** Validated text *)

Definition valid_text (maximum : Z) (s : rstr) : Prop :=
  s ≠ [] ∧ trim s = s ∧ chars_count s ≤ maximum.

Definition valid_optional_text (maximum : Z) (o : option rstr) : Prop :=
  ∀ s, o = Some s → valid_text maximum s.

Lemma validate_required_text_ok value field maximum u :
  validate_required_text value field maximum = Ok u ↔ valid_text maximum value.
Proof.
  destruct u. unfold validate_required_text, valid_text.
  destruct (is_blank_or_untrimmed value) eqn:E; cbn.
  - split; [done|]. intros (? & ? & _).
    assert (is_blank_or_untrimmed value = false) by by apply is_blank_or_untrimmed_false.
    congruence.
  - apply is_blank_or_untrimmed_false in E as [? ?].
    destruct (Z.ltb_spec maximum (chars_count value)); cbn; naive_solver lia.
Qed.

Lemma validate_optional_text_ok value field maximum u :
  validate_optional_text value field maximum = Ok u ↔ valid_optional_text maximum value.
Proof.
  destruct u, value as [v|]; cbn.
  - rewrite validate_required_text_ok. unfold valid_optional_text. naive_solver.
  - unfold valid_optional_text. naive_solver.
Qed.

Lemma rbind_unit_ok {B E} (r : result unit E) (k : result B E) b :
  (let? _ := r in k) = Ok b ↔ r = Ok tt ∧ k = Ok b.
Proof. rewrite rbind_ok. split; [intros ([] & ?); done|eauto]. Qed.

Definition valid_recipient (r : ShippingRecipient) : Prop :=
  valid_text MAX_DESTINATION_RECIPIENT_NAME_LENGTH (recipient_name r) ∧
  valid_optional_text MAX_DESTINATION_COMPANY_LENGTH (recipient_company r) ∧
  valid_optional_text MAX_DESTINATION_PHONE_LENGTH (recipient_phone r) ∧
  valid_optional_text MAX_DESTINATION_EMAIL_LENGTH (recipient_email r).

Definition valid_address (d : ShippingDestination) : Prop :=
  valid_text MAX_DESTINATION_ADDRESS_LINE_LENGTH (dest_line1 d) ∧
  valid_optional_text MAX_DESTINATION_ADDRESS_LINE_LENGTH (dest_line2 d) ∧
  valid_text MAX_DESTINATION_CITY_LENGTH (dest_city d) ∧
  valid_text MAX_DESTINATION_REGION_LENGTH (dest_region d) ∧
  valid_text MAX_DESTINATION_POSTAL_CODE_LENGTH (dest_postal_code d) ∧
  valid_text MAX_DESTINATION_COUNTRY_LENGTH (dest_country d).

(** An order's recipient and destination are accepted exactly when every
    part is trimmed, nonblank and within its limit, and what is accepted is
    what was given. *)
Theorem destination_accepted_iff_valid name company phone email line1 line2 city region
    postal_code country recipient destination :
  (ShippingRecipient_new name company phone email = Ok recipient ↔
     recipient = MkRecipient name company phone email ∧ valid_recipient recipient) ∧
  (ShippingDestination_new recipient line1 line2 city region postal_code country =
     Ok destination ↔
     destination = MkDestination recipient line1 line2 city region postal_code country ∧
     valid_address destination).
Proof.
  unfold ShippingRecipient_new, ShippingDestination_new.
  rewrite !rbind_unit_ok, !validate_required_text_ok, !validate_optional_text_ok.
  unfold valid_recipient, valid_address.
  split; split; intros; destruct_and?; simplify_eq; cbn in *; by split_and!.
Qed.

(** A new order is accepted exactly when it has a demand line and no two
    lines share a key; it is stored as given; and a rejection names the missing
    lines or the key of the first line that repeats an earlier one. *)
Theorem new_order_accepted_iff {Timestamp : Type} owner key rush
    (ship_by : option Timestamp) destination lines :
  match NewFulfillmentOrder_new owner key rush ship_by destination lines with
  | Ok o => o = MkNewOrder owner key rush ship_by destination lines ∧
            lines ≠ [] ∧ NoDup (line_key <$> lines)
  | Err MissingDemandLines => lines = []
  | Err (DuplicateLineKey k) =>
      ∃ pre l post, lines = pre ++ l :: post ∧ k = line_key l ∧
        NoDup (line_key <$> pre) ∧ k ∈ line_key <$> pre
  | Err _ => False
  end.
Proof.
  unfold NewFulfillmentOrder_new. destruct lines as [|l lines]; [done|].
  destruct (first_repeat line_key ∅ (l :: lines)) as [d|] eqn:E.
  - apply first_repeat_Some in E as (pre & post & -> & Hpre & Hin).
    apply first_repeat_None in Hpre as [Hnd _].
    destruct Hin as [Hin|Hin]; [set_solver|]. eauto 10.
  - by apply first_repeat_None in E as [? _].
Qed.

(** An amendment of the header or of the lines is only possible on an open or
    held order, changes something, and moves the revision by exactly one. *)
Lemma amend_fulfillment_order_ok {Timestamp} `{EqDecision Timestamp} status revision
    (current requested : @FulfillmentOrderHeader Timestamp) next :
  amend_fulfillment_order status revision current requested = Ok next →
  (status = Open ∨ status = Held) ∧ current ≠ requested ∧ next = revision + 1 ∧
  next ≤ i64_max.
Proof.
  unfold amend_fulfillment_order. intros H. run H.
  apply revision_checked_next_spec in E1. naive_solver.
Qed.

Lemma replace_fulfillment_order_lines_ok status revision current requested next :
  replace_fulfillment_order_lines status revision current requested = Ok next →
  (status = Open ∨ status = Held) ∧ requested ≠ [] ∧ NoDup (line_key <$> requested) ∧
  current ≠ requested ∧ next = revision + 1 ∧ next ≤ i64_max.
Proof.
  unfold replace_fulfillment_order_lines. intros H. destruct requested; run H.
  apply first_repeat_None in E0 as [? _]. apply revision_checked_next_spec in E2.
  naive_solver.
Qed.
