(* ===== verification/Allocation.v ===== *)
(** * Allocation planning ([crates/domain/src/allocation.rs])

    The pure planner that selects stock for one demand quantity: candidates are
    rejected on a repeated balance, sorted by the rotation strategy (FIFO or
    FEFO) and consumed greedily. Also the order-level readiness test and the
    quantity and revision newtypes. Instants ([Timestamp], a [chrono] type) are
    a parameter with a total comparison, the only operation the planner uses. *)

From S2P Require Import Prelude.
From S2P Require Import Orders.

(** ** Data *)

Inductive AllocationStrategy := Fifo | Fefo.

Inductive AllocationExecutionStage := PickSource | Staged | Packed.

Definition AllocationStrategy_as_str (self : AllocationStrategy) : string :=
  match self with Fifo => "fifo" | Fefo => "fefo" end.

Definition AllocationStrategy_parse (value : string) : option AllocationStrategy :=
  str_match value [("fifo", Fifo); ("fefo", Fefo)].

Definition AllocationExecutionStage_as_str (self : AllocationExecutionStage) : string :=
  match self with PickSource => "pick_source" | Staged => "staged" | Packed => "packed" end.

Definition AllocationExecutionStage_parse (value : string) : option AllocationExecutionStage :=
  str_match value [("pick_source", PickSource); ("staged", Staged); ("packed", Packed)].

Inductive AllocationPlanError :=
| InvalidQuantity (value : Z)
| InvalidRevision (value : Z)
| DuplicateInventoryBalance (inventory_balance_id : Z).

(** [AllocationQuantity::new] and [OrderRevision::new]. *)
Definition AllocationQuantity_new (value : Z) : result Z AllocationPlanError :=
  positive_new InvalidQuantity value.

Definition OrderRevision_new (value : Z) : result Z AllocationPlanError :=
  positive_new InvalidRevision value.

Definition OrderRevision_checked_next (self : Z) : option Z := revision_checked_next self.

Inductive AllocationOutcome := FullyAllocated | PartiallyAllocated | NotAllocated.

Definition AllocationOutcome_as_str (self : AllocationOutcome) : string :=
  match self with
  | FullyAllocated => "fully_allocated"
  | PartiallyAllocated => "partially_allocated"
  | NotAllocated => "not_allocated"
  end.

Inductive AllocationShortageReason := NoEligibleInventory | InsufficientEligibleInventory.

Definition AllocationShortageReason_as_str (self : AllocationShortageReason) : string :=
  match self with
  | NoEligibleInventory => "no_eligible_inventory"
  | InsufficientEligibleInventory => "insufficient_eligible_inventory"
  end.

Inductive OrderAllocationBlockReason := ActiveHold | OrderStatusNotAllocatable.

Inductive OrderAllocationReadiness :=
| Ready
| AlreadyFullyAllocated
| Blocked (reason : OrderAllocationBlockReason).

Definition assess_order_allocation_readiness (status : OrderStatus)
    (active_hold_count remaining_quantity : Z) : OrderAllocationReadiness :=
  if (0 <? active_hold_count) || bool_decide (status = Held) then Blocked ActiveHold
  else match status with
       | Open => if remaining_quantity =? 0 then AlreadyFullyAllocated else Ready
       | Processing | AwaitingPacking | Packing | AwaitingShipment =>
           if remaining_quantity =? 0 then AlreadyFullyAllocated
           else Blocked OrderStatusNotAllocatable
       | _ => Blocked OrderStatusNotAllocatable
       end.

(** ** The planner *)

Section planner.
Context {Timestamp : Type} (ts_cmp : Timestamp → Timestamp → comparison).

Record AllocationCandidate := MkCandidate {
  c_inventory_balance_id : Z;
  c_item_batch_id : Z;
  c_location_id : Z;
  c_license_plate_id : option Z;
  c_lot : option string;
  c_serial : option string;
  c_expiration : option Timestamp;
  c_received_at : Timestamp;
  c_available_quantity : Z;
}.

Record PlannedAllocation := MkPlanned {
  p_inventory_balance_id : Z;
  p_item_batch_id : Z;
  p_location_id : Z;
  p_license_plate_id : option Z;
  p_lot : option string;
  p_serial : option string;
  p_expiration : option Timestamp;
  p_quantity : Z;
}.

Record AllocationPlan := MkPlan {
  demand_quantity : Z;
  allocated_quantity : Z;
  shortage_quantity : Z;
  outcome : AllocationOutcome;
  shortage_reason : option AllocationShortageReason;
  allocations : list PlannedAllocation;
}.

Definition compare_expiration (left right : option Timestamp) : comparison :=
  match left, right with
  | Some l, Some r => ts_cmp l r
  | Some _, None => Lt
  | None, Some _ => Gt
  | None, None => Eq
  end.

Definition compare_fifo_candidates (left right : AllocationCandidate) : comparison :=
  then_with (ts_cmp (c_received_at left) (c_received_at right))
    (c_inventory_balance_id left ?= c_inventory_balance_id right).

Definition compare_fefo_candidates (left right : AllocationCandidate) : comparison :=
  then_with
    (then_with (compare_expiration (c_expiration left) (c_expiration right))
       (ts_cmp (c_received_at left) (c_received_at right)))
    (c_inventory_balance_id left ?= c_inventory_balance_id right).

Definition compare_candidates (strategy : AllocationStrategy) :
    AllocationCandidate → AllocationCandidate → comparison :=
  match strategy with
  | Fifo => compare_fifo_candidates
  | Fefo => compare_fefo_candidates
  end.

Definition planned_of (c : AllocationCandidate) (selected : Z) : PlannedAllocation :=
  {| p_inventory_balance_id := c_inventory_balance_id c;
     p_item_batch_id := c_item_batch_id c;
     p_location_id := c_location_id c;
     p_license_plate_id := c_license_plate_id c;
     p_lot := c_lot c;
     p_serial := c_serial c;
     p_expiration := c_expiration c;
     p_quantity := selected |}.

(** The consuming loop: what remains of the demand and the allocations pushed. *)
Fixpoint allocate_loop (remaining : Z) (candidates : list AllocationCandidate) :
    Z * list PlannedAllocation :=
  match candidates with
  | [] => (remaining, [])
  | candidate :: rest =>
      if remaining =? 0 then (remaining, [])
      else
        let selected := Z.min remaining (c_available_quantity candidate) in
        let '(remaining', tail) := allocate_loop (i64_sub remaining selected) rest in
        (remaining', planned_of candidate selected :: tail)
  end.

Definition plan_outcome (remaining allocated : Z) :
    AllocationOutcome * option AllocationShortageReason :=
  if remaining =? 0 then (FullyAllocated, None)
  else if allocated =? 0 then (NotAllocated, Some NoEligibleInventory)
  else (PartiallyAllocated, Some InsufficientEligibleInventory).

Definition plan_allocation (strategy : AllocationStrategy) (demand : Z)
    (candidates : list AllocationCandidate) : result AllocationPlan AllocationPlanError :=
  match first_repeat c_inventory_balance_id ∅ candidates with
  | Some candidate => Err (DuplicateInventoryBalance (c_inventory_balance_id candidate))
  | None =>
      let sorted := sort_by (compare_candidates strategy) candidates in
      let '(remaining, allocs) := allocate_loop demand sorted in
      let allocated := i64_sub demand remaining in
      let '(out, reason) := plan_outcome remaining allocated in
      Ok {| demand_quantity := demand;
            allocated_quantity := allocated;
            shortage_quantity := remaining;
            outcome := out;
            shortage_reason := reason;
            allocations := allocs |}
  end.

Definition plan_fefo_allocation (demand : Z) (candidates : list AllocationCandidate) :
    result AllocationPlan AllocationPlanError :=
  plan_allocation Fefo demand candidates.

End planner.

Arguments AllocationCandidate : clear implicits.
Arguments PlannedAllocation : clear implicits.
Arguments AllocationPlan : clear implicits.

(** ** Stored names *)

#[export] Instance AllocationStrategy_name : StoredName AllocationStrategy.
Proof.
  refine {| as_str := AllocationStrategy_as_str; parse := AllocationStrategy_parse |}.
  solve_stored_name.
Defined.

#[export] Instance AllocationExecutionStage_name : StoredName AllocationExecutionStage.
Proof.
  refine {| as_str := AllocationExecutionStage_as_str;
            parse := AllocationExecutionStage_parse |}.
  solve_stored_name.
Defined.

(** ** The rotation orders are total, with the balance id as the last tie-break *)

Section planner_facts.
Context {Timestamp : Type} (ts_cmp : Timestamp → Timestamp → comparison) `{!OrdCmp ts_cmp}.

Abbreviation candidate := (AllocationCandidate Timestamp).
Abbreviation planned := (PlannedAllocation Timestamp).

#[export] Instance compare_expiration_ord : OrdCmp (compare_expiration ts_cmp).
Proof.
  split.
  - intros [x|] [y|]; cbn; try done. apply (cmp_sym ts_cmp).
  - intros [x|] [y|] [z|]; cbn; try done. apply (cmp_le_trans ts_cmp).
Qed.

#[export] Instance compare_candidates_ord strategy : OrdCmp (compare_candidates ts_cmp strategy).
Proof.
  destruct strategy.
  - exact (then_with_ord (fun x y => ts_cmp (c_received_at x) (c_received_at y))
             (fun x y => c_inventory_balance_id x ?= c_inventory_balance_id y)).
  - exact (then_with_ord
             (fun x y => then_with (compare_expiration ts_cmp (c_expiration x) (c_expiration y))
                           (ts_cmp (c_received_at x) (c_received_at y)))
             (fun x y => c_inventory_balance_id x ?= c_inventory_balance_id y)).
Qed.

Lemma compare_candidates_eq_id strategy (x y : candidate) :
  compare_candidates ts_cmp strategy x y = Eq →
  c_inventory_balance_id x = c_inventory_balance_id y.
Proof.
  intros E. apply Z.compare_eq_iff.
  destruct strategy; cbn in E; unfold compare_fifo_candidates, compare_fefo_candidates in E;
    repeat match type of E with
    | context [then_with ?a _] => destruct a eqn:?; cbn in E; try done
    end.
Qed.

Lemma candidate_id_inj (cs : list candidate) x y :
  NoDup (c_inventory_balance_id <$> cs) → x ∈ cs → y ∈ cs →
  c_inventory_balance_id x = c_inventory_balance_id y → x = y.
Proof.
  intros Hnd [i Hi]%list_elem_of_lookup [j Hj]%list_elem_of_lookup E.
  assert (i = j) as ->; [|congruence].
  eapply (NoDup_lookup (c_inventory_balance_id <$> cs)); [done|..];
    rewrite list_lookup_fmap; [by rewrite Hi|]. rewrite Hj. cbn. by rewrite E.
Qed.

(** Distinct balances never compare equal, so sorting has one possible result. *)
Lemma compare_candidates_separates strategy (cs : list candidate) x y :
  NoDup (c_inventory_balance_id <$> cs) → x ∈ cs → y ∈ cs →
  compare_candidates ts_cmp strategy x y = Eq → x = y.
Proof.
  intros Hnd Hx Hy E%compare_candidates_eq_id. by apply (candidate_id_inj cs).
Qed.

(** ** The greedy loop against its reference definition *)

Definition supply (cs : list candidate) : Z := zsum (c_available_quantity <$> cs).

(** What the candidate after [before] units of stock receives of the demand. *)
Definition share (demand before available : Z) : Z :=
  Z.max 0 (Z.min available (demand - before)).

Fixpoint reference_plan (demand before : Z) (cs : list candidate) : list planned :=
  match cs with
  | [] => []
  | c :: rest =>
      let q := share demand before (c_available_quantity c) in
      (if 0 <? q then [planned_of c q] else [])
      ++ reference_plan demand (before + c_available_quantity c) rest
  end.

Definition positive_stock (cs : list candidate) : Prop :=
  Forall (fun c => 0 < c_available_quantity c) cs.

Lemma supply_nonneg cs : positive_stock cs → 0 ≤ supply cs.
Proof. unfold supply, zsum. induction 1; cbn in *; lia. Qed.

Lemma reference_plan_exhausted demand before cs :
  positive_stock cs → demand ≤ before → reference_plan demand before cs = [].
Proof.
  intros Hpos. revert before. induction Hpos as [|c cs Hc _ IH]; intros before Hb; cbn; [done|].
  replace (share demand before (c_available_quantity c)) with 0 by (unfold share; lia).
  cbn. apply IH. lia.
Qed.

Lemma allocate_loop_reference demand before cs :
  positive_stock cs → 0 ≤ before ≤ demand → demand ≤ i64_max →
  allocate_loop (demand - before) cs =
    (Z.max 0 (demand - before - supply cs), reference_plan demand before cs).
Proof.
  intros Hpos. revert before. induction Hpos as [|c cs Hc Hpos IH]; intros before Hb Hmax.
  - cbn. f_equal. cbn. lia.
  - pose proof (supply_nonneg cs Hpos) as Hs. cbn [allocate_loop reference_plan].
    assert (Hsup : supply (c :: cs) = c_available_quantity c + supply cs) by done.
    destruct (Z.eqb_spec (demand - before) 0) as [E|E].
    + rewrite reference_plan_exhausted by (done || lia).
      replace (share demand before (c_available_quantity c)) with 0 by (unfold share; lia).
      rewrite Hsup. cbn [Z.ltb Z.compare app]. f_equal. lia.
    + rewrite Hsup. set (q := Z.min (demand - before) (c_available_quantity c)).
      replace (share demand before (c_available_quantity c)) with q by (unfold share; lia).
      rewrite (proj2 (Z.ltb_lt 0 q)) by lia.
      unfold i64_sub. rewrite wrap_i64_id by range_lia.
      destruct (Z.le_gt_cases (demand - before) (c_available_quantity c)) as [Hle|Hgt].
      * replace (demand - before - q) with (demand - demand) by lia.
        rewrite (IH demand) by lia.
        rewrite !reference_plan_exhausted by (done || lia). f_equal. lia.
      * replace (demand - before - q) with (demand - (before + c_available_quantity c)) by lia.
        rewrite IH by lia. cbn [app]. f_equal. lia.
Qed.

Lemma planned_of_quantity (c : candidate) q : p_quantity (planned_of c q) = q.
Proof. done. Qed.

Lemma reference_plan_total demand before cs :
  positive_stock cs → 0 ≤ before →
  zsum (p_quantity <$> reference_plan demand before cs) =
    Z.max 0 (Z.min (supply cs) (demand - before)).
Proof.
  intros Hpos. revert before. induction Hpos as [|c cs Hc Hpos IH]; intros before Hb; cbn [reference_plan].
  - cbn. lia.
  - pose proof (supply_nonneg cs Hpos).
    rewrite fmap_app, zsum_app, IH by lia.
    assert (supply (c :: cs) = c_available_quantity c + supply cs) as -> by done.
    destruct (0 <? share _ _ _) eqn:E; bool_to_prop; cbn; unfold share in *; lia.
Qed.

(** Every planned line is a positive share of a candidate, in rotation order. *)
Lemma reference_plan_lines demand before cs p :
  positive_stock cs → 0 ≤ before →
  p ∈ reference_plan demand before cs →
  ∃ pre c post, cs = pre ++ c :: post ∧
    p = planned_of c (p_quantity p) ∧
    0 < p_quantity p ≤ c_available_quantity c ∧
    p_quantity p = Z.min (c_available_quantity c) (demand - before - supply pre).
Proof.
  intros Hpos. revert before. induction Hpos as [|c cs Hc Hpos IH]; intros before Hb Hp;
    cbn [reference_plan] in Hp; [set_solver|].
  apply elem_of_app in Hp as [Hp|Hp].
  - destruct (0 <? _) eqn:E; bool_to_prop; [|set_solver].
    apply list_elem_of_singleton in Hp as ->.
    exists [], c, cs. cbn -[Z.min]. unfold supply, share in *. cbn -[Z.min] in *.
    split_and!; [done|done|lia|lia|lia].
  - apply IH in Hp as (pre & d & post & -> & Hd & Hq & Heq); [|lia].
    exists (c :: pre), d, post. split_and!; [done|done|lia|lia|].
    rewrite Heq. unfold supply. cbn -[Z.min zsum]. rewrite zsum_cons. lia.
Qed.

Lemma reference_plan_ids demand before cs :
  p_inventory_balance_id <$> reference_plan demand before cs `sublist_of`
  c_inventory_balance_id <$> cs.
Proof.
  revert before. induction cs as [|c cs IH]; intros before; cbn; [done|].
  destruct (0 <? _); cbn; [by constructor|by apply sublist_cons].
Qed.
Lemma reference_plan_mem demand before pre c post :
  positive_stock (pre ++ c :: post) →
  0 < share demand (before + supply pre) (c_available_quantity c) →
  planned_of c (share demand (before + supply pre) (c_available_quantity c)) ∈
    reference_plan demand before (pre ++ c :: post).
Proof.
  revert before. induction pre as [|d pre IH]; intros before Hpos Hs; cbn [app reference_plan].
  - change (supply []) with 0 in *. rewrite Z.add_0_r in *.
    rewrite (proj2 (Z.ltb_lt _ _) Hs). set_solver.
  - apply Forall_cons in Hpos as [Hd Hpos].
    change (supply (d :: pre)) with (c_available_quantity d + supply pre) in *.
    rewrite Z.add_assoc in *. apply elem_of_app. right. by apply IH.
Qed.

(** A plan that is returned is the reference plan over the sorted candidates. *)
Lemma plan_allocation_unfold strategy demand (cs : list candidate) :
  pos_i64 demand → positive_stock cs → NoDup (c_inventory_balance_id <$> cs) →
  let sorted := sort_by (compare_candidates ts_cmp strategy) cs in
  let remaining := Z.max 0 (demand - supply cs) in
  plan_allocation ts_cmp strategy demand cs =
    Ok {| demand_quantity := demand;
          allocated_quantity := demand - remaining;
          shortage_quantity := remaining;
          outcome := (plan_outcome remaining (demand - remaining)).1;
          shortage_reason := (plan_outcome remaining (demand - remaining)).2;
          allocations := reference_plan demand 0 sorted |}.
Proof.
  intros Hd Hpos Hnd sorted remaining. unfold plan_allocation.
  rewrite (proj2 (first_repeat_None _ _ _)) by set_solver.
  assert (Hperm : sorted ≡ₚ cs) by apply sort_by_perm.
  assert (Hpos' : positive_stock sorted) by (unfold positive_stock; by rewrite Hperm).
  pose proof (supply_nonneg cs Hpos).
  assert (Hsup : supply sorted = supply cs)
    by (apply zsum_perm; by rewrite Hperm).
  fold sorted. replace demand with (demand - 0) at 1 by lia.
  rewrite allocate_loop_reference by (done || range_lia).
  rewrite Hsup, Z.sub_0_r. fold remaining. unfold i64_sub.
  rewrite wrap_i64_id by (unfold remaining; range_lia).
  by destruct (plan_outcome remaining (demand - remaining)).
Qed.

Lemma plan_allocation_ok_nodup strategy demand (cs : list candidate) p :
  plan_allocation ts_cmp strategy demand cs = Ok p → NoDup (c_inventory_balance_id <$> cs).
Proof.
  unfold plan_allocation. destruct (first_repeat _ _ _) eqn:E; [done|]. intros _.
  by apply first_repeat_None in E as [? _].
Qed.

Definition plan_well_formed (demand : Z) (cs : list candidate)
    (p : AllocationPlan Timestamp) : Prop :=
  demand_quantity p = demand ∧
  allocated_quantity p = Z.min demand (supply cs) ∧
  shortage_quantity p = demand - allocated_quantity p ∧
  zsum (p_quantity <$> allocations p) = allocated_quantity p ∧
  NoDup (p_inventory_balance_id <$> allocations p) ∧
  (∀ a, a ∈ allocations p → ∃ c, c ∈ cs ∧ a = planned_of c (p_quantity a) ∧
     0 < p_quantity a ≤ c_available_quantity c) ∧
  (outcome p, shortage_reason p) =
    (if bool_decide (demand ≤ supply cs) then (FullyAllocated, None)
     else if bool_decide (cs = []) then (NotAllocated, Some NoEligibleInventory)
     else (PartiallyAllocated, Some InsufficientEligibleInventory)).

Lemma plan_outcome_spec demand (cs : list candidate) :
  0 < demand → positive_stock cs →
  let remaining := Z.max 0 (demand - supply cs) in
  plan_outcome remaining (demand - remaining) =
    (if bool_decide (demand ≤ supply cs) then (FullyAllocated, None)
     else if bool_decide (cs = []) then (NotAllocated, Some NoEligibleInventory)
     else (PartiallyAllocated, Some InsufficientEligibleInventory)).
Proof.
  intros Hd Hpos remaining. unfold plan_outcome, remaining.
  pose proof (supply_nonneg cs Hpos).
  case_bool_decide; [by rewrite (proj2 (Z.eqb_eq _ _)) by lia|].
  rewrite (proj2 (Z.eqb_neq _ _)) by lia. case_bool_decide as Hcs.
  - subst cs. change (supply []) with 0 in *. by rewrite (proj2 (Z.eqb_eq _ _)) by lia.
  - destruct Hpos as [|c cs' Hc Hpos]; [done|].
    pose proof (supply_nonneg cs' Hpos).
    change (supply (c :: cs')) with (c_available_quantity c + supply cs') in *.
    by rewrite (proj2 (Z.eqb_neq _ _)) by lia.
Qed.

(** C1. Conservation of the planner: a returned plan allocates exactly the
    smaller of the demand and the eligible supply, the shortage is the rest,
    the planned lines add up to the allocated quantity, no balance is used
    twice, every line is a positive part of one candidate's stock that keeps
    the candidate's batch, location, plate, lot, serial and expiration, and
    the outcome and shortage reason are the ones these quantities call for. *)
Theorem plan_allocation_conserves strategy demand (cs : list candidate) p :
  pos_i64 demand → positive_stock cs →
  plan_allocation ts_cmp strategy demand cs = Ok p →
  plan_well_formed demand cs p.
Proof.
  intros Hd Hpos Hp. pose proof (plan_allocation_ok_nodup _ _ _ _ Hp) as Hnd.
  rewrite plan_allocation_unfold in Hp by done. simplify_eq Hp. intros <-.
  assert (Hperm : sort_by (compare_candidates ts_cmp strategy) cs ≡ₚ cs) by apply sort_by_perm.
  set (sorted := sort_by _ cs) in *.
  assert (Hpos' : positive_stock sorted) by (unfold positive_stock; by rewrite Hperm).
  assert (Hsup : supply sorted = supply cs) by (apply zsum_perm; by rewrite Hperm).
  pose proof (supply_nonneg cs Hpos).
  split_and!; cbn [demand_quantity allocated_quantity shortage_quantity allocations
    outcome shortage_reason]; [done|range_lia|lia| | | |].
  - rewrite reference_plan_total, Hsup by (done || lia). range_lia.
  - eapply sublist_NoDup; [|apply reference_plan_ids]. by rewrite Hperm.
  - intros a Ha. apply reference_plan_lines in Ha as (pre & c & post & E & Hac & Hq & _);
      [|done|lia].
    exists c. split_and!; [|done|lia|lia]. rewrite <-Hperm, E. set_solver.
  - rewrite <-surjective_pairing. apply plan_outcome_spec; [range_lia|done].
Qed.

(** C2. Rotation discipline: when one candidate comes strictly before another
    in the strategy's order and the later one is drawn on, the earlier one has
    been planned for all of its available stock. *)
Theorem plan_allocation_rotation strategy demand (cs : list candidate) p x y a :
  pos_i64 demand → positive_stock cs →
  plan_allocation ts_cmp strategy demand cs = Ok p →
  x ∈ cs → y ∈ cs → compare_candidates ts_cmp strategy x y = Lt →
  a ∈ allocations p → p_inventory_balance_id a = c_inventory_balance_id y →
  planned_of x (c_available_quantity x) ∈ allocations p.
Proof.
  intros Hd Hpos Hp Hx Hy Hxy Ha Hid.
  pose proof (plan_allocation_ok_nodup _ _ _ _ Hp) as Hnd.
  rewrite plan_allocation_unfold in Hp by done. simplify_eq Hp. intros <-.
  cbn [allocations] in *.
  assert (Hperm : sort_by (compare_candidates ts_cmp strategy) cs ≡ₚ cs) by apply sort_by_perm.
  pose proof (sort_by_sorted (compare_candidates ts_cmp strategy) cs) as Hsorted.
  set (sorted := sort_by _ cs) in *.
  assert (Hpos' : positive_stock sorted) by (unfold positive_stock; by rewrite Hperm).
  apply reference_plan_lines in Ha as (pre & c & post & E & Hac & Hq & Heq); [|done|lia].
  assert (c = y) as ->.
  { apply (candidate_id_inj cs); [done| |done|by rewrite <-Hid, Hac].
    rewrite <-Hperm, E. set_solver. }
  assert (Hxpre : x ∈ pre).
  { rewrite <-Hperm, E in Hx. rewrite E in Hsorted.
    apply elem_of_app in Hx as [?|[->|Hx]%elem_of_cons]; [done| |].
    - by rewrite (cmp_refl _ y) in Hxy.
    - apply StronglySorted_app_1_r, StronglySorted_cons in Hsorted as [Hle _].
      rewrite Forall_forall in Hle. specialize (Hle x Hx). unfold cmp_le in Hle.
      by rewrite (cmp_sym _ x y), Hxy in Hle. }
  apply list_elem_of_split in Hxpre as (pre1 & pre2 & ->).
  assert (Hsum : supply (pre1 ++ x :: pre2) =
            supply pre1 + c_available_quantity x + supply pre2).
  { unfold supply. rewrite fmap_app, zsum_app. cbn -[zsum]. rewrite zsum_cons. lia. }
  assert (Hpos2 : positive_stock (pre1 ++ x :: pre2 ++ y :: post)).
  { rewrite E in Hpos'. by rewrite <-app_assoc in Hpos'. }
  assert (positive_stock pre2 ∧ 0 < c_available_quantity x) as [Hpre2 Hxpos].
  { unfold positive_stock in *. decompose_Forall. done. }
  pose proof (supply_nonneg pre2 Hpre2).
  assert (Hshare : share demand (0 + supply pre1) (c_available_quantity x) =
            c_available_quantity x) by (unfold share; lia).
  rewrite E, <-app_assoc. cbn [app]. rewrite <-Hshare at 1.
  apply reference_plan_mem; [done|lia].
Qed.

(** The plan depends on the set of candidates and not on the order in
    which the repository returns them. *)
Theorem plan_allocation_permutation strategy demand (cs cs' : list candidate) p :
  pos_i64 demand → positive_stock cs → cs ≡ₚ cs' →
  plan_allocation ts_cmp strategy demand cs = Ok p →
  plan_allocation ts_cmp strategy demand cs' = Ok p.
Proof.
  intros Hd Hpos Hperm Hp. pose proof (plan_allocation_ok_nodup _ _ _ _ Hp) as Hnd.
  rewrite plan_allocation_unfold in Hp by done. rewrite <-Hp.
  rewrite plan_allocation_unfold; [|done|..].
  - assert (supply cs' = supply cs) as -> by (apply zsum_perm; by rewrite Hperm).
    do 2 f_equal. f_equal. symmetry. apply sort_by_perm_invariant; [apply _| |done].
    intros x y Hx Hy. by apply (compare_candidates_separates strategy cs).
  - unfold positive_stock. by rewrite <-Hperm.
  - by rewrite <-Hperm.
Qed.

(** The planner fails exactly when a balance is offered twice, and then it
    names the balance of the first candidate that repeats an earlier one. *)
Theorem plan_allocation_duplicates strategy demand (cs : list candidate) :
  (∀ e, plan_allocation ts_cmp strategy demand cs = Err e →
     ∃ pre c post, cs = pre ++ c :: post ∧ NoDup (c_inventory_balance_id <$> pre) ∧
       c_inventory_balance_id c ∈ c_inventory_balance_id <$> pre ∧
       e = DuplicateInventoryBalance (c_inventory_balance_id c)) ∧
  (is_ok (plan_allocation ts_cmp strategy demand cs) = true ↔
     NoDup (c_inventory_balance_id <$> cs)).
Proof.
  unfold plan_allocation.
  destruct (first_repeat c_inventory_balance_id ∅ cs) as [c|] eqn:E; cbn [is_ok].
  - apply first_repeat_Some in E as (pre & post & -> & Hpre & Hc).
    apply first_repeat_None in Hpre as [Hnd _]. destruct Hc as [Hc|Hc]; [set_solver|]. split.
    + intros e [= <-]. eauto 10.
    + split; [done|]. rewrite fmap_app, fmap_cons. intros Hnd2.
      apply NoDup_app in Hnd2 as (_ & Hdis & _). set_solver.
  - apply first_repeat_None in E as [Hnd _].
    destruct (allocate_loop _ _), (plan_outcome _ _). cbn. naive_solver.
Qed.
End planner_facts.

(** ** Witnesses *)

Definition sample_candidate (balance : Z) (expiration : option Z) (received quantity : Z) :
    AllocationCandidate Z :=
  MkCandidate balance (balance + 100) (balance + 200) None (Some "LOT") None expiration
    received quantity.

Definition sample_candidates : list (AllocationCandidate Z) :=
  [sample_candidate 1 None 1 5; sample_candidate 2 (Some 20) 3 4;
   sample_candidate 3 (Some 10) 2 3; sample_candidate 4 (Some 20) 2 6].

Definition sample_plan : AllocationPlan Z :=
  MkPlan 10 10 0 FullyAllocated None
    [planned_of (sample_candidate 3 (Some 10) 2 3) 3;
     planned_of (sample_candidate 4 (Some 20) 2 6) 6;
     planned_of (sample_candidate 2 (Some 20) 3 4) 1].

Lemma sample_positive : positive_stock sample_candidates.
Proof. unfold positive_stock, sample_candidates. repeat constructor. Qed.

Lemma sample_plan_runs :
  plan_allocation Z.compare Fefo 10 sample_candidates = Ok sample_plan.
Proof. vm_compute. reflexivity. Qed.

Lemma plan_allocation_conserves_witness : plan_well_formed 10 sample_candidates sample_plan.
Proof.
  apply (plan_allocation_conserves Z.compare Fefo 10 sample_candidates sample_plan).
  - range_lia.
  - exact sample_positive.
  - exact sample_plan_runs.
Defined.

Lemma plan_allocation_rotation_witness :
  planned_of (sample_candidate 4 (Some 20) 2 6) 6 ∈ allocations sample_plan.
Proof.
  apply (plan_allocation_rotation Z.compare Fefo 10 sample_candidates sample_plan
    (sample_candidate 4 (Some 20) 2 6) (sample_candidate 2 (Some 20) 3 4)
    (planned_of (sample_candidate 2 (Some 20) 3 4) 1)).
  - range_lia.
  - exact sample_positive.
  - exact sample_plan_runs.
  - unfold sample_candidates. set_solver.
  - unfold sample_candidates. set_solver.
  - reflexivity.
  - unfold sample_plan. cbn. set_solver.
  - reflexivity.
Defined.

Lemma plan_allocation_permutation_witness :
  plan_allocation Z.compare Fefo 10 (reverse sample_candidates) = Ok sample_plan.
Proof.
  apply (plan_allocation_permutation Z.compare Fefo 10 sample_candidates).
  - range_lia.
  - exact sample_positive.
  - symmetry. apply reverse_Permutation.
  - exact sample_plan_runs.
Defined.

Lemma plan_allocation_duplicates_witness :
  is_ok (plan_allocation Z.compare Fefo 10 sample_candidates) = true ∧
  ¬ (is_ok (plan_allocation Z.compare Fefo 10
       (sample_candidates ++ [sample_candidate 3 None 9 9])) = true).
Proof.
  split.
  - apply (plan_allocation_duplicates Z.compare Fefo 10 sample_candidates).
    apply (bool_decide_unpack (NoDup _)). vm_compute. exact I.
  - rewrite (proj2 (plan_allocation_duplicates Z.compare Fefo 10 _)).
    intros Hn. apply (bool_decide_pack (NoDup _)) in Hn. vm_compute in Hn. exact Hn.
Defined.
