(* ===== verification/Backorder.v ===== *)
(** * Backorder splits ([crates/domain/src/backorder.rs])

    Splitting the current allocation shortage of an open order into a child
    backorder: the fold over the line snapshots with its running [i64] totals,
    every guard and every checked addition, and the note, reason and policy
    types around it. *)

From S2P Require Import Prelude.
From S2P Require Import RustStr.
From S2P Require Import Orders.
From S2P Require Import Allocation.

(** ** Data *)

Inductive BackorderPolicyMode := Block | SplitShortage.

#[global] Instance BackorderPolicyMode_eq_dec : EqDecision BackorderPolicyMode.
Proof. solve_decision. Defined.

Definition BackorderPolicyMode_as_str (self : BackorderPolicyMode) : string :=
  match self with Block => "block" | SplitShortage => "split_shortage" end.

Definition BackorderPolicyMode_parse (value : string) : option BackorderPolicyMode :=
  str_match value [("block", Block); ("split_shortage", SplitShortage)].

Inductive BackorderReason :=
| BoInventoryUnavailable | BoClientRequested | BoServiceLevel | BoOther.

#[global] Instance BackorderReason_eq_dec : EqDecision BackorderReason.
Proof. solve_decision. Defined.

Definition BackorderReason_as_str (self : BackorderReason) : string :=
  match self with
  | BoInventoryUnavailable => "inventory_unavailable"
  | BoClientRequested => "client_requested"
  | BoServiceLevel => "service_level"
  | BoOther => "other"
  end.

Definition BackorderReason_parse (value : string) : option BackorderReason :=
  str_match value
    [("inventory_unavailable", BoInventoryUnavailable);
     ("client_requested", BoClientRequested);
     ("service_level", BoServiceLevel); ("other", BoOther)].

Inductive BackorderError :=
| BoInvalidRevision (value : Z)
| BoInvalidNote
| BoOtherRequiresNote
| BoOrderNotOpen (status : OrderStatus)
| PolicyBlocksSplit
| MissingLines
| InvalidLineState (order_line_id : Z)
| NoShortage
| ZeroEffectiveDemand
| QuantityOverflow
| RevisionOverflow.

Definition MAX_BACKORDER_NOTE_LENGTH : Z := 500.

Definition BackorderNote_new (value : rstr) : result rstr BackorderError :=
  if is_blank_or_untrimmed value || (MAX_BACKORDER_NOTE_LENGTH <? chars_count value)
     || existsb is_control value
  then Err BoInvalidNote else Ok value.

Record BackorderDetails := MkBackorderDetails {
  backorder_reason : BackorderReason;
  backorder_note : option rstr;
}.

Definition BackorderDetails_new (reason : BackorderReason) (note : option rstr) :
    result BackorderDetails BackorderError :=
  if bool_decide (reason = BoOther) && negb (bool_decide (is_Some note))
  then Err BoOtherRequiresNote
  else Ok (MkBackorderDetails reason note).

Definition BackorderPolicyRevision_new (value : Z) : result Z BackorderError :=
  positive_new BoInvalidRevision value.

Definition BackorderPolicyRevision_checked_next (self : Z) : option Z :=
  revision_checked_next self.

Record BackorderLineSnapshot := MkSnapshot {
  s_order_line_id : Z;
  s_original_quantity : Z;
  s_previously_backordered_quantity : Z;
  s_effective_quantity : Z;
  s_allocated_quantity : Z;
}.

Definition shortage_quantity_of (self : BackorderLineSnapshot) : option Z :=
  i64_checked_sub (s_effective_quantity self) (s_allocated_quantity self).

Record BackorderSplitLineTransition := MkLineTransition {
  t_order_line_id : Z;
  t_original_quantity : Z;
  t_allocated_quantity : Z;
  t_previously_backordered_quantity : Z;
  t_newly_backordered_quantity : Z;
  t_resulting_backordered_quantity : Z;
  t_resulting_effective_quantity : Z;
}.

Record BackorderSplitTransition := MkSplit {
  parent_revision : Z;
  child_revision : Z;
  split_original_quantity : Z;
  split_allocated_quantity : Z;
  split_previously_backordered_quantity : Z;
  split_newly_backordered_quantity : Z;
  parent_effective_quantity : Z;
  split_lines : list BackorderSplitLineTransition;
}.

(** The mutable locals of the loop. *)
Record SplitTotals := MkTotals {
  seen : gset Z;
  transitions : list BackorderSplitLineTransition;
  original_total : Z;
  allocated_total : Z;
  parent_effective_total : Z;
  previous_backorder_total : Z;
  new_backorder_total : Z;
}.

Definition initial_totals : SplitTotals := MkTotals ∅ [] 0 0 0 0 0.

(** The guard of the loop body. The sum of the previously backordered and the
    effective quantity is the source's unchecked [+]. *)
Definition invalid_line (seen : gset Z) (line : BackorderLineSnapshot) : bool :=
  bool_decide (s_order_line_id line ∈ seen)
  || (s_original_quantity line <=? 0)
  || (s_previously_backordered_quantity line <? 0)
  || (s_effective_quantity line <=? 0)
  || (s_allocated_quantity line <? 0)
  || negb (i64_add (s_previously_backordered_quantity line) (s_effective_quantity line)
           =? s_original_quantity line)
  || (s_effective_quantity line <? s_allocated_quantity line).

(** One iteration of the loop over the lines. *)
Definition split_line (t : SplitTotals) (line : BackorderLineSnapshot) :
    result SplitTotals BackorderError :=
  check negb (invalid_line (seen t) line) else InvalidLineState (s_order_line_id line) in
  let? shortage := ok_or (shortage_quantity_of line) QuantityOverflow in
  let? effective_total := ok_or (i64_checked_add (parent_effective_total t)
                                   (s_allocated_quantity line)) QuantityOverflow in
  if shortage =? 0 then
    Ok (MkTotals ({[s_order_line_id line]} ∪ seen t) (transitions t) (original_total t)
          (allocated_total t) effective_total (previous_backorder_total t)
          (new_backorder_total t))
  else
    let? resulting := ok_or (i64_checked_add (s_previously_backordered_quantity line)
                               shortage) QuantityOverflow in
    let? original := ok_or (i64_checked_add (original_total t)
                              (s_original_quantity line)) QuantityOverflow in
    let? allocated := ok_or (i64_checked_add (allocated_total t)
                               (s_allocated_quantity line)) QuantityOverflow in
    let? previous := ok_or (i64_checked_add (previous_backorder_total t)
                              (s_previously_backordered_quantity line)) QuantityOverflow in
    let? new_total := ok_or (i64_checked_add (new_backorder_total t) shortage)
                        QuantityOverflow in
    Ok (MkTotals ({[s_order_line_id line]} ∪ seen t)
          (transitions t ++
             [MkLineTransition (s_order_line_id line) (s_original_quantity line)
                (s_allocated_quantity line) (s_previously_backordered_quantity line)
                shortage resulting (s_allocated_quantity line)])
          original allocated effective_total previous new_total).

Fixpoint split_loop (t : SplitTotals) (lines : list BackorderLineSnapshot) :
    result SplitTotals BackorderError :=
  match lines with
  | [] => Ok t
  | line :: rest => let? t' := split_line t line in split_loop t' rest
  end.

Definition split_current_allocation_shortage (status : OrderStatus) (revision : Z)
    (policy : BackorderPolicyMode) (lines : list BackorderLineSnapshot) :
    result BackorderSplitTransition BackorderError :=
  check bool_decide (status = Open) else BoOrderNotOpen status in
  check bool_decide (policy = SplitShortage) else PolicyBlocksSplit in
  check negb (bool_decide (lines = [])) else MissingLines in
  let? t := split_loop initial_totals lines in
  check negb (new_backorder_total t <=? 0) else NoShortage in
  check negb (parent_effective_total t <=? 0) else ZeroEffectiveDemand in
  let? next := ok_or (OrderRevision_checked_next revision) RevisionOverflow in
  let? child := map_err (fun _ => RevisionOverflow) (OrderRevision_new 1) in
  Ok {| parent_revision := next;
        child_revision := child;
        split_original_quantity := original_total t;
        split_allocated_quantity := allocated_total t;
        split_previously_backordered_quantity := previous_backorder_total t;
        split_newly_backordered_quantity := new_backorder_total t;
        parent_effective_quantity := parent_effective_total t;
        split_lines := transitions t |}.

(** ** Stored names *)

#[export] Instance BackorderPolicyMode_name : StoredName BackorderPolicyMode.
Proof.
  refine {| as_str := BackorderPolicyMode_as_str; parse := BackorderPolicyMode_parse |}.
  solve_stored_name.
Defined.

#[export] Instance BackorderReason_name : StoredName BackorderReason.
Proof.
  refine {| as_str := BackorderReason_as_str; parse := BackorderReason_parse |}.
  solve_stored_name.
Defined.

(** ** The specification of a split, over unbounded integers *)

Definition snapshot_in_range (l : BackorderLineSnapshot) : Prop :=
  in_i64 (s_original_quantity l) ∧ in_i64 (s_previously_backordered_quantity l) ∧
  in_i64 (s_effective_quantity l) ∧ in_i64 (s_allocated_quantity l).

(** The quantities of a line are consistent: what was ordered is what was
    backordered before plus what is still effective, and the allocation covers
    no more than the effective demand. *)
Definition line_consistent (l : BackorderLineSnapshot) : Prop :=
  0 < s_original_quantity l ∧ 0 ≤ s_previously_backordered_quantity l ∧
  0 < s_effective_quantity l ∧ 0 ≤ s_allocated_quantity l ≤ s_effective_quantity l ∧
  s_previously_backordered_quantity l + s_effective_quantity l = s_original_quantity l.

Definition short (l : BackorderLineSnapshot) : Z :=
  s_effective_quantity l - s_allocated_quantity l.

Definition transition_of (l : BackorderLineSnapshot) : BackorderSplitLineTransition :=
  MkLineTransition (s_order_line_id l) (s_original_quantity l) (s_allocated_quantity l)
    (s_previously_backordered_quantity l) (short l)
    (s_previously_backordered_quantity l + short l) (s_allocated_quantity l).

Definition short_lines (lines : list BackorderLineSnapshot) : list BackorderLineSnapshot :=
  filter (fun l => short l ≠ 0) lines.

Definition total (f : BackorderLineSnapshot → Z) (lines : list BackorderLineSnapshot) : Z :=
  zsum (f <$> lines).

(** The loop without its guards and overflow checks. *)
Definition accumulate (t : SplitTotals) (lines : list BackorderLineSnapshot) : SplitTotals :=
  MkTotals (list_to_set (s_order_line_id <$> lines) ∪ seen t)
    (transitions t ++ (transition_of <$> short_lines lines))
    (original_total t + total s_original_quantity (short_lines lines))
    (allocated_total t + total s_allocated_quantity (short_lines lines))
    (parent_effective_total t + total s_allocated_quantity lines)
    (previous_backorder_total t + total s_previously_backordered_quantity (short_lines lines))
    (new_backorder_total t + total short (short_lines lines)).

Lemma total_nil f : total f [] = 0.
Proof. done. Qed.

Lemma total_cons f l lines : total f (l :: lines) = f l + total f lines.
Proof. done. Qed.

Lemma total_app f l1 l2 : total f (l1 ++ l2) = total f l1 + total f l2.
Proof. unfold total. by rewrite fmap_app, zsum_app. Qed.

Lemma short_lines_cons l lines :
  short_lines (l :: lines) =
    (if bool_decide (short l = 0) then [] else [l]) ++ short_lines lines.
Proof.
  unfold short_lines. rewrite filter_cons.
  case_bool_decide; case_decide; cbn; done.
Qed.

Lemma short_lines_single l :
  short_lines [l] = (if bool_decide (short l = 0) then [] else [l]).
Proof. rewrite short_lines_cons. apply app_nil_r. Qed.

Ltac unfold_accumulate :=
  unfold accumulate; cbn [seen transitions original_total allocated_total
    parent_effective_total previous_backorder_total new_backorder_total].

Lemma accumulate_nil t : accumulate t [] = t.
Proof.
  destruct t. unfold_accumulate. change (short_lines []) with (@nil BackorderLineSnapshot).
  rewrite !total_nil, !Z.add_0_r, app_nil_r. f_equal. set_solver.
Qed.

Lemma accumulate_cons t l lines :
  accumulate (accumulate t [l]) lines = accumulate t (l :: lines).
Proof.
  unfold_accumulate. rewrite short_lines_single, (short_lines_cons l).
  rewrite !total_app, !fmap_app, !(total_cons _ l), total_nil.
  f_equal; [set_solver|by rewrite app_assoc|lia..].
Qed.

(** The guard accepts exactly the consistent lines that are new: an overflowing
    unchecked sum is negative and cannot equal a positive original quantity. *)
Lemma invalid_line_false sn l :
  snapshot_in_range l →
  (invalid_line sn l = false ↔ (s_order_line_id l ∉ sn) ∧ line_consistent l).
Proof.
  intros (Ho & Hp & He & Ha). unfold invalid_line, line_consistent.
  rewrite !orb_false_iff, bool_decide_eq_false, negb_false_iff, Z.eqb_eq,
    !Z.leb_gt, !Z.ltb_ge.
  unfold i64_add. split; intros; destruct_and?; split_and!; try done; try lia.
  - destruct (Z.le_gt_cases (s_previously_backordered_quantity l + s_effective_quantity l)
                i64_max).
    + rewrite wrap_i64_id in * by range_lia. done.
    + rewrite wrap_i64_over in * by range_lia. range_lia.
  - rewrite wrap_i64_id by range_lia. done.
Qed.

Lemma split_line_ok t l t' :
  snapshot_in_range l → split_line t l = Ok t' →
  (s_order_line_id l ∉ seen t) ∧ line_consistent l ∧ t' = accumulate t [l].
Proof.
  intros Hr H. unfold split_line in H.
  destruct (invalid_line (seen t) l) eqn:Einv; [done|]. cbn [negb] in H.
  apply invalid_line_false in Einv as [Hnew Hc]; [|done]. split_and!; [done..|].
  unfold shortage_quantity_of, i64_checked_sub, i64_checked_add in H.
  unfold_accumulate. rewrite short_lines_single. fold (short l) in H.
  run H; repeat match goal with
    | E : checked _ _ _ = Some _ |- _ => apply checked_Some in E as [-> ?] end;
    cbn [fmap list_fmap list_to_set union_list foldr];
    case_bool_decide; try lia; cbn [fmap list_fmap]; rewrite ?total_cons, ?total_nil;
    unfold transition_of;
    f_equal; try lia; rewrite ?app_nil_r; try done; set_solver.
Qed.

Lemma split_line_complete t l :
  snapshot_in_range l → s_order_line_id l ∉ seen t → line_consistent l →
  in_i64 (original_total (accumulate t [l])) → in_i64 (allocated_total (accumulate t [l])) →
  in_i64 (parent_effective_total (accumulate t [l])) →
  in_i64 (previous_backorder_total (accumulate t [l])) →
  in_i64 (new_backorder_total (accumulate t [l])) →
  split_line t l = Ok (accumulate t [l]).
Proof.
  intros Hr Hnew Hc.
  assert (Hinv : invalid_line (seen t) l = false) by by apply invalid_line_false.
  unfold_accumulate. rewrite !short_lines_single, total_cons, total_nil.
  intros Ho Ha He Hp Hn. unfold split_line. rewrite Hinv. cbn [negb].
  unfold shortage_quantity_of, i64_checked_sub, i64_checked_add. fold (short l).
  destruct Hr as (? & ? & ? & ?), Hc as (? & ? & ? & ? & ?).
  assert (Hs : 0 ≤ short l ≤ i64_max) by (unfold short; range_lia).
  assert (Hr2 : s_previously_backordered_quantity l + short l ≤ i64_max)
    by (unfold short; range_lia).
  unfold ok_or, rbind. rewrite !checked_in by range_lia.
  destruct (Z.eqb_spec (short l) 0) as [E|E]; case_bool_decide; try lia.
  - rewrite total_nil in *. do 2 f_equal; cbn; try lia; rewrite ?app_nil_r; try done; set_solver.
  - rewrite !total_cons, !total_nil in *. rewrite !checked_in by range_lia.
    do 2 f_equal; cbn; try lia; try done; set_solver.
Qed.

Lemma split_loop_ok t lines t' :
  Forall snapshot_in_range lines → split_loop t lines = Ok t' →
  Forall line_consistent lines ∧ NoDup (s_order_line_id <$> lines) ∧
  t' = accumulate t lines.
Proof.
  intros Hr. assert (Hgen : ∀ t, split_loop t lines = Ok t' →
    Forall line_consistent lines ∧ NoDup (s_order_line_id <$> lines) ∧
    t' = accumulate t lines ∧ ∀ l, l ∈ lines → s_order_line_id l ∉ seen t).
  { clear t. induction Hr as [|l lines Hl Hr IH]; intros t H.
    - simplify_eq/=. rewrite accumulate_nil. split_and!; [done|constructor|done|set_solver].
    - cbn [split_loop] in H. apply rbind_ok in H as (t1 & H1 & H2).
      apply split_line_ok in H1 as (Hnew & Hc & ->); [|done].
      apply IH in H2 as (Hcs & Hnd & -> & Hdis). rewrite accumulate_cons.
      split_and!; [by constructor| |done|set_solver].
      apply NoDup_cons. split; [|done].
      intros (l' & E & Hl')%list_elem_of_fmap. apply (Hdis l' Hl').
      rewrite <-E. unfold_accumulate. set_solver. }
  intros H. apply Hgen in H. naive_solver.
Qed.

Lemma total_bound f lines :
  Forall line_consistent lines →
  (∀ l, line_consistent l → 0 ≤ f l ≤ s_original_quantity l) →
  0 ≤ total f (short_lines lines) ≤ total s_original_quantity lines ∧
  0 ≤ total f lines ≤ total s_original_quantity lines.
Proof.
  intros Hc Hf. induction Hc as [|l lines Hl Hc IH]; [done|].
  rewrite short_lines_cons, total_app, !total_cons. specialize (Hf l Hl).
  case_bool_decide; rewrite ?total_cons, ?total_nil; lia.
Qed.

Lemma split_loop_complete t lines bound :
  Forall snapshot_in_range lines → Forall line_consistent lines →
  NoDup (s_order_line_id <$> lines) → (∀ l, l ∈ lines → s_order_line_id l ∉ seen t) →
  0 ≤ original_total t ≤ bound → 0 ≤ allocated_total t ≤ bound →
  0 ≤ parent_effective_total t ≤ bound → 0 ≤ previous_backorder_total t ≤ bound →
  0 ≤ new_backorder_total t ≤ bound →
  bound + total s_original_quantity lines ≤ i64_max →
  split_loop t lines = Ok (accumulate t lines).
Proof.
  intros Hr. revert t bound. induction Hr as [|l lines Hl Hr IH];
    intros t bound Hc Hnd Hdis Ho Ha He Hp Hn Hb.
  - by rewrite accumulate_nil.
  - apply Forall_cons in Hc as [Hcl Hc].
    rewrite fmap_cons, NoDup_cons in Hnd. destruct Hnd as [Hnew Hnd].
    rewrite total_cons in Hb.
    destruct (total_bound s_original_quantity lines Hc) as [_ Hrest].
    { intros ? (? & ?); lia. }
    assert (Hstep : ∀ f, 0 ≤ f l ≤ s_original_quantity l →
      0 ≤ total f (short_lines [l]) ≤ s_original_quantity l).
    { intros f Hf. rewrite short_lines_single.
      case_bool_decide; rewrite ?total_cons, ?total_nil; destruct Hcl; lia. }
    pose proof Hcl as (? & ? & ? & ? & ?).
    assert (Hs1 := Hstep s_original_quantity ltac:(lia)).
    assert (Hs2 := Hstep s_allocated_quantity ltac:(lia)).
    assert (Hs3 := Hstep s_previously_backordered_quantity ltac:(lia)).
    assert (Hs4 := Hstep short ltac:(unfold short; lia)).
    assert (Hs5 : total s_allocated_quantity [l] = s_allocated_quantity l)
      by (rewrite total_cons, total_nil; lia).
    assert (E : split_line t l = Ok (accumulate t [l])).
    { apply split_line_complete; unfold_accumulate; try done; try range_lia. set_solver. }
    cbn [split_loop]. rewrite E. cbn [rbind].
    rewrite <-(accumulate_cons t l lines).
    apply (IH _ (bound + s_original_quantity l)); unfold_accumulate; try done; try lia.
    set_solver.
Qed.

(** C3. Conservation of a backorder split. When the split succeeds: the lines
    are consistent and distinct; a transition is made for exactly the lines
    with a shortage, in order; on each of them what was ordered is what stays
    effective plus what is now backordered; each reported total (original,
    allocated, previously and newly backordered) is the sum of that column over
    those lines, the parent's effective quantity is what all the lines have
    allocated, and the totals balance; the demand that was effective before is
    the demand the parent keeps plus the demand that is newly backordered, both
    positive; and the revision moves by one while the child starts at one. *)
Theorem split_conserves_demand status revision policy lines tr :
  Forall snapshot_in_range lines →
  split_current_allocation_shortage status revision policy lines = Ok tr →
  Forall line_consistent lines ∧ NoDup (s_order_line_id <$> lines) ∧
  split_lines tr = transition_of <$> short_lines lines ∧
  Forall (fun t => t_previously_backordered_quantity t + t_newly_backordered_quantity t
                     = t_resulting_backordered_quantity t ∧
                   t_resulting_backordered_quantity t + t_resulting_effective_quantity t
                     = t_original_quantity t ∧ 0 < t_newly_backordered_quantity t)
    (split_lines tr) ∧
  split_original_quantity tr = total s_original_quantity (short_lines lines) ∧
  split_allocated_quantity tr = total s_allocated_quantity (short_lines lines) ∧
  split_previously_backordered_quantity tr
    = total s_previously_backordered_quantity (short_lines lines) ∧
  split_newly_backordered_quantity tr = total short (short_lines lines) ∧
  parent_effective_quantity tr = total s_allocated_quantity lines ∧
  split_original_quantity tr = split_allocated_quantity tr
    + split_previously_backordered_quantity tr + split_newly_backordered_quantity tr ∧
  split_newly_backordered_quantity tr = zsum (t_newly_backordered_quantity <$> split_lines tr) ∧
  total s_effective_quantity lines =
    parent_effective_quantity tr + split_newly_backordered_quantity tr ∧
  0 < parent_effective_quantity tr ∧ 0 < split_newly_backordered_quantity tr ∧
  parent_revision tr = revision + 1 ∧ child_revision tr = 1.
Proof.
  intros Hr H. unfold split_current_allocation_shortage in H.
  destruct (bool_decide (status = Open)); [|done].
  destruct (bool_decide (policy = SplitShortage)); [|done].
  destruct (negb (bool_decide (lines = []))); [|done].
  apply rbind_ok in H as (t & Hloop & H).
  apply split_loop_ok in Hloop as (Hc & Hnd & ->); [|done].
  unfold accumulate, initial_totals in H. cbn [seen transitions original_total
    allocated_total parent_effective_total previous_backorder_total new_backorder_total] in H.
  run H. match goal with E : OrderRevision_checked_next _ = Some _ |- _ =>
    apply revision_checked_next_spec in E as [-> _] end.
  cbn [split_lines split_original_quantity split_allocated_quantity
    split_previously_backordered_quantity split_newly_backordered_quantity
    parent_effective_quantity parent_revision child_revision app] in *.
  assert (Hsums : total s_effective_quantity lines = total s_allocated_quantity lines
      + total short (short_lines lines) ∧
    total s_original_quantity (short_lines lines) =
      total s_allocated_quantity (short_lines lines)
      + total s_previously_backordered_quantity (short_lines lines)
      + total short (short_lines lines)).
  { clear -Hc. induction Hc as [|l lines (? & ? & ? & ? & ?) Hc IH]; [done|].
    rewrite short_lines_cons, !total_app, !total_cons.
    case_bool_decide; rewrite ?total_cons, ?total_nil; unfold short in *; lia. }
  split_and!; try done; try lia.
  - apply Forall_fmap, Forall_forall. intros l [Hs Hl]%list_elem_of_filter. cbn.
    rewrite Forall_forall in Hc. destruct (Hc l Hl) as (? & ? & ? & ? & ?).
    unfold short in *. lia.
  - unfold total. by rewrite <-list_fmap_compose.
  - match goal with E : OrderRevision_new 1 = Ok _ |- _ => by vm_compute in E; simplify_eq end.
Qed.

(** C4. The split returns a result whenever it should: an open order under the
    splitting policy, with consistent and distinct lines, some shortage, some
    allocation, and an ordered total and a revision within range. *)
Theorem split_succeeds revision lines :
  Forall snapshot_in_range lines → Forall line_consistent lines →
  NoDup (s_order_line_id <$> lines) →
  total s_original_quantity lines ≤ i64_max →
  short_lines lines ≠ [] → 0 < total s_allocated_quantity lines →
  pos_i64 revision → revision < i64_max →
  is_ok (split_current_allocation_shortage Open revision SplitShortage lines) = true.
Proof.
  intros Hr Hc Hnd Hmax Hshort Halloc Hrev Hrev'.
  unfold split_current_allocation_shortage. rewrite !bool_decide_true by done.
  rewrite bool_decide_false by (by intros ->). cbn [negb].
  rewrite (split_loop_complete _ _ 0) by (cbn; done || set_solver || lia). cbn [rbind].
  unfold_accumulate. unfold initial_totals.
  cbn [new_backorder_total parent_effective_total].
  assert (Hs : 0 < total short (short_lines lines)).
  { destruct (short_lines lines) as [|l ls] eqn:E; [done|].
    assert (Hpos : Forall (fun l => 0 < short l) (l :: ls)).
    { rewrite <-E. apply Forall_forall. intros x [Hx Hin]%list_elem_of_filter.
      rewrite Forall_forall in Hc. destruct (Hc x Hin) as (? & ? & ? & ? & ?).
      unfold short in *. lia. }
    apply Forall_cons in Hpos as [Hl Hls]. rewrite total_cons.
    assert (0 ≤ total short ls); [|lia]. clear -Hls.
    induction Hls; [done|]. rewrite total_cons. lia. }
  rewrite (proj2 (Z.leb_gt _ 0)) by lia. rewrite (proj2 (Z.leb_gt _ 0)) by lia. cbn [negb].
  unfold OrderRevision_checked_next, revision_checked_next, i64_checked_add.
  by rewrite checked_in by range_lia.
Qed.

(** ** Witnesses *)

Definition sample_lines : list BackorderLineSnapshot :=
  [MkSnapshot 1 10 0 10 6; MkSnapshot 2 5 1 4 4].

Definition sample_split : BackorderSplitTransition :=
  MkSplit 5 1 10 6 0 4 10 [MkLineTransition 1 10 6 0 4 4 6].

Lemma sample_lines_in_range : Forall snapshot_in_range sample_lines.
Proof.
  repeat (apply Forall_cons_2; [unfold snapshot_in_range; cbn; range_lia|]). apply Forall_nil_2.
Qed.

Lemma split_conserves_demand_witness :
  split_original_quantity sample_split = 10 ∧ split_allocated_quantity sample_split = 6 ∧
  total s_effective_quantity sample_lines =
    parent_effective_quantity sample_split + split_newly_backordered_quantity sample_split.
Proof.
  destruct (split_conserves_demand Open 4 SplitShortage sample_lines sample_split)
    as (_ & _ & _ & _ & Ho & Ha & _ & _ & _ & _ & _ & He & _).
  - exact sample_lines_in_range.
  - vm_compute. reflexivity.
  - exact (conj Ho (conj Ha He)).
Defined.

Lemma split_succeeds_witness :
  is_ok (split_current_allocation_shortage Open 4 SplitShortage sample_lines) = true.
Proof.
  apply (split_succeeds 4 sample_lines).
  - exact sample_lines_in_range.
  - repeat (apply Forall_cons_2; [unfold line_consistent; cbn; lia|]). apply Forall_nil_2.
  - cbn. repeat constructor; set_solver.
  - vm_compute. congruence.
  - vm_compute. congruence.
  - vm_compute. reflexivity.
  - range_lia.
  - range_lia.
Defined.
