(* ===== verification/Picking.v ===== *)
(** * Picking and pick shortages ([crates/domain/src/picking.rs])

    Pick content states, pick reversal before packing, the conserved quantities
    of a shortage, and the two ways unmet demand leaves the warehouse: the
    short-shipment resolution of a shortage and the demand arithmetic with
    accepted short and substituted quantities. *)

From S2P Require Import Prelude.
From S2P Require Import RustStr.
From S2P Require Import Orders.

(** ** Enumerations *)

Inductive PickContentState := Pending | Completed | Shorted.

Inductive PickReversalReason :=
| MisPick | WrongQuantity | WrongLotOrSerial | DamagedDuringPick | OrderException
| ReversalOther.

Inductive PickShortageReason :=
| InventoryMissing | InsufficientQuantity | DamagedInventory | WrongInventory
| LotOrSerialMismatch | ShortageOther.

Inductive PickShortageStatus := AwaitingInventory | RecoveryInProgress | Resolved.

Inductive PickShortageResolution := Recovered | ShortShip | Substituted.

Inductive PickShortShipReason :=
| ClientAuthorized | InventoryUnavailable | ShipByCommitment | ShortShipOther.

#[global] Instance PickReversalReason_eq_dec : EqDecision PickReversalReason.
Proof. solve_decision. Defined.
#[global] Instance PickShortageStatus_eq_dec : EqDecision PickShortageStatus.
Proof. solve_decision. Defined.

Inductive PickingError :=
| InvalidQuantity (value : Z)
| EmptyScanValue
| UntrimmedScanValue
| ScanValueTooLong
| InvalidScanCharacter
| ContentAlreadyCompleted
| ContentAlreadyShorted
| InvalidReversalNote
| ReversalNoteTooLong
| ReversalNoteRequired
| OrderNotReversible (status : OrderStatus)
| ReversalAfterPackingStarted
| ShortagePickRequiresShortageRecovery
| InvalidActualQuantity (value : Z)
| InvalidShortageRevision (value : Z)
| PickIsNotShort (planned picked : Z)
| InvalidShortageNote
| ShortageNoteTooLong
| ShortageNoteRequired
| InvalidShortShipNote
| ShortShipNoteTooLong
| ShortShipNoteRequired
| ShortShipRequiresAwaitingInventory (status : PickShortageStatus)
| NoShortageQuantityToAccept
| InconsistentShortShipRecoveryQuantities
| AcceptedShortExceedsDemand (ordered accepted_short : Z).

Definition PickContentState_as_str (self : PickContentState) : string :=
  match self with Pending => "pending" | Completed => "completed" | Shorted => "shorted" end.

Definition PickContentState_parse (value : string) : option PickContentState :=
  str_match value [("pending", Pending); ("completed", Completed); ("shorted", Shorted)].

Definition complete (self : PickContentState) : result PickContentState PickingError :=
  match self with
  | Pending => Ok Completed
  | Completed => Err ContentAlreadyCompleted
  | Shorted => Err ContentAlreadyShorted
  end.

Definition short (self : PickContentState) : result PickContentState PickingError :=
  match self with
  | Pending => Ok Shorted
  | Completed => Err ContentAlreadyCompleted
  | Shorted => Err ContentAlreadyShorted
  end.

Definition PickReversalReason_ALL : list PickReversalReason :=
  [MisPick; WrongQuantity; WrongLotOrSerial; DamagedDuringPick; OrderException;
   ReversalOther].

Definition PickReversalReason_as_str (self : PickReversalReason) : string :=
  match self with
  | MisPick => "mis_pick"
  | WrongQuantity => "wrong_quantity"
  | WrongLotOrSerial => "wrong_lot_or_serial"
  | DamagedDuringPick => "damaged_during_pick"
  | OrderException => "order_exception"
  | ReversalOther => "other"
  end.

(** [ALL.into_iter().find(|candidate| candidate.as_str() == value)]. *)
Definition PickReversalReason_parse (value : string) : option PickReversalReason :=
  head (filter (fun r => PickReversalReason_as_str r = value) PickReversalReason_ALL).

Definition PickReversalReason_requires_note (self : PickReversalReason) : bool :=
  match self with ReversalOther => true | _ => false end.

Definition PickShortageReason_as_str (self : PickShortageReason) : string :=
  match self with
  | InventoryMissing => "inventory_missing"
  | InsufficientQuantity => "insufficient_quantity"
  | DamagedInventory => "damaged_inventory"
  | WrongInventory => "wrong_inventory"
  | LotOrSerialMismatch => "lot_or_serial_mismatch"
  | ShortageOther => "other"
  end.

Definition PickShortageReason_parse (value : string) : option PickShortageReason :=
  str_match value
    [("inventory_missing", InventoryMissing);
     ("insufficient_quantity", InsufficientQuantity);
     ("damaged_inventory", DamagedInventory); ("wrong_inventory", WrongInventory);
     ("lot_or_serial_mismatch", LotOrSerialMismatch); ("other", ShortageOther)].

Definition PickShortageReason_requires_note (self : PickShortageReason) : bool :=
  match self with ShortageOther => true | _ => false end.

Definition PickShortageStatus_as_str (self : PickShortageStatus) : string :=
  match self with
  | AwaitingInventory => "awaiting_inventory"
  | RecoveryInProgress => "recovery_in_progress"
  | Resolved => "resolved"
  end.

Definition PickShortageStatus_parse (value : string) : option PickShortageStatus :=
  str_match value
    [("awaiting_inventory", AwaitingInventory);
     ("recovery_in_progress", RecoveryInProgress); ("resolved", Resolved)].

Definition PickShortageResolution_as_str (self : PickShortageResolution) : string :=
  match self with
  | Recovered => "recovered" | ShortShip => "short_ship" | Substituted => "substituted"
  end.

Definition PickShortageResolution_parse (value : string) : option PickShortageResolution :=
  str_match value
    [("recovered", Recovered); ("short_ship", ShortShip); ("substituted", Substituted)].

Definition PickShortShipReason_as_str (self : PickShortShipReason) : string :=
  match self with
  | ClientAuthorized => "client_authorized"
  | InventoryUnavailable => "inventory_unavailable"
  | ShipByCommitment => "ship_by_commitment"
  | ShortShipOther => "other"
  end.

Definition PickShortShipReason_parse (value : string) : option PickShortShipReason :=
  str_match value
    [("client_authorized", ClientAuthorized);
     ("inventory_unavailable", InventoryUnavailable);
     ("ship_by_commitment", ShipByCommitment); ("other", ShortShipOther)].

Definition PickShortShipReason_requires_note (self : PickShortShipReason) : bool :=
  match self with ShortShipOther => true | _ => false end.

(** ** Notes and scans *)

Definition MAX_PICK_SCAN_VALUE_LENGTH : Z := 200.
Definition MAX_PICK_REVERSAL_NOTE_LENGTH : Z := 500.
Definition MAX_PICK_SHORTAGE_NOTE_LENGTH : Z := 500.
Definition MAX_PICK_SHORT_SHIP_NOTE_LENGTH : Z := 500.

Definition PickReversalNote_new (value : rstr) : result rstr PickingError :=
  check negb (is_blank_or_untrimmed value) else InvalidReversalNote in
  check negb (MAX_PICK_REVERSAL_NOTE_LENGTH <? chars_count value)
    else ReversalNoteTooLong in
  Ok value.

Definition PickShortShipNote_new (value : rstr) : result rstr PickingError :=
  check negb (is_blank_or_untrimmed value) else InvalidShortShipNote in
  check negb (MAX_PICK_SHORT_SHIP_NOTE_LENGTH <? chars_count value)
    else ShortShipNoteTooLong in
  Ok value.

Definition PickShortageNote_new (value : rstr) : result rstr PickingError :=
  check negb (is_blank_or_untrimmed value) else InvalidShortageNote in
  check negb (MAX_PICK_SHORTAGE_NOTE_LENGTH <? chars_count value)
    else ShortageNoteTooLong in
  Ok value.

Definition PickScanValue_new (value : rstr) : result rstr PickingError :=
  check negb (bool_decide (value = [])) else EmptyScanValue in
  check bool_decide (trim value = value) else UntrimmedScanValue in
  check negb (MAX_PICK_SCAN_VALUE_LENGTH <? chars_count value) else ScanValueTooLong in
  check negb (existsb is_control value) else InvalidScanCharacter in
  Ok value.

Record PickReversalDetails := MkReversalDetails {
  reversal_reason : PickReversalReason;
  reversal_note : option rstr;
}.

Definition PickReversalDetails_new (reason : PickReversalReason) (note : option rstr) :
    result PickReversalDetails PickingError :=
  if PickReversalReason_requires_note reason && negb (bool_decide (is_Some note))
  then Err ReversalNoteRequired else Ok (MkReversalDetails reason note).

Record PickShortShipDetails := MkShortShipDetails {
  short_ship_reason : PickShortShipReason;
  short_ship_note : option rstr;
}.

Definition PickShortShipDetails_new (reason : PickShortShipReason) (note : option rstr) :
    result PickShortShipDetails PickingError :=
  if PickShortShipReason_requires_note reason && negb (bool_decide (is_Some note))
  then Err ShortShipNoteRequired else Ok (MkShortShipDetails reason note).

Record PickShortageDetails := MkShortageDetails {
  shortage_reason : PickShortageReason;
  shortage_note : option rstr;
}.

Definition PickShortageDetails_new (reason : PickShortageReason) (note : option rstr) :
    result PickShortageDetails PickingError :=
  if PickShortageReason_requires_note reason && negb (bool_decide (is_Some note))
  then Err ShortageNoteRequired else Ok (MkShortageDetails reason note).

(** ** Quantities *)

Definition PickQuantity_new (value : Z) : result Z PickingError :=
  positive_new InvalidQuantity value.

Definition ActualPickQuantity_new (value : Z) : result Z PickingError :=
  nonnegative_new InvalidActualQuantity value.

Definition ActualPickQuantity_is_zero (self : Z) : bool := self =? 0.

Definition PickShortageRevision_new (value : Z) : result Z PickingError :=
  positive_new InvalidShortageRevision value.

Definition PickShortageRevision_checked_next (self : Z) : option Z :=
  revision_checked_next self.

Record PickShortageQuantities := MkShortageQuantities {
  q_planned : Z;
  q_picked : Z;
  q_short : Z;
}.

Definition PickShortageQuantities_new (planned picked : Z) :
    result PickShortageQuantities PickingError :=
  if planned <=? picked then Err (PickIsNotShort planned picked)
  else Ok (MkShortageQuantities planned picked (i64_sub planned picked)).

Record ShortShipDemandQuantities := MkShortShipDemand {
  d_ordered : Z;
  d_accepted_short : Z;
  d_accepted_substitute : Z;
  d_effective : Z;
}.

Definition with_substitution (ordered accepted_short accepted_substitute : Z) :
    result ShortShipDemandQuantities PickingError :=
  match i64_checked_add accepted_short accepted_substitute with
  | None => Err (AcceptedShortExceedsDemand ordered i64_max)
  | Some accepted_total =>
      if ordered <? accepted_total
      then Err (AcceptedShortExceedsDemand ordered accepted_total)
      else Ok (MkShortShipDemand ordered accepted_short accepted_substitute
                 (i64_sub ordered accepted_total))
  end.

Definition ShortShipDemandQuantities_new (ordered accepted_short : Z) :
    result ShortShipDemandQuantities PickingError :=
  with_substitution ordered accepted_short 0.

(** ** Transitions *)

Definition reverse_pick_before_packing (order_status : OrderStatus)
    (has_downstream_execution shortage_backed : bool) : result OrderStatus PickingError :=
  check negb has_downstream_execution else ReversalAfterPackingStarted in
  check negb shortage_backed else ShortagePickRequiresShortageRecovery in
  match order_status with
  | Processing | AwaitingPacking => Ok Processing
  | _ => Err (OrderNotReversible order_status)
  end.

Record PickShortShipTransition := MkShortShipTransition {
  accepted_quantity : Z;
  transition_status : PickShortageStatus;
  transition_resolution : PickShortageResolution;
}.

Definition resolve_pick_shortage_as_short_ship (status : PickShortageStatus)
    (short_quantity reallocated_quantity recovery_terminal_quantity
     remaining_to_allocate_quantity : Z) : result PickShortShipTransition PickingError :=
  check bool_decide (status = AwaitingInventory)
    else ShortShipRequiresAwaitingInventory status in
  check negb (ActualPickQuantity_is_zero remaining_to_allocate_quantity)
    else NoShortageQuantityToAccept in
  if negb (reallocated_quantity =? recovery_terminal_quantity)
     || negb (bool_decide
                (i64_checked_add reallocated_quantity remaining_to_allocate_quantity
                 = Some short_quantity))
  then Err InconsistentShortShipRecoveryQuantities
  else Ok (MkShortShipTransition remaining_to_allocate_quantity Resolved ShortShip).

(** ** Stored names *)

#[export] Instance PickContentState_name : StoredName PickContentState.
Proof.
  refine {| as_str := PickContentState_as_str; parse := PickContentState_parse |}.
  solve_stored_name.
Defined.

#[export] Instance PickReversalReason_name : StoredName PickReversalReason.
Proof.
  refine {| as_str := PickReversalReason_as_str; parse := PickReversalReason_parse |}.
  intros s t. split.
  - unfold PickReversalReason_parse, PickReversalReason_ALL. cbn [filter list_filter].
    intros H. repeat case_decide; simplify_eq/=; done.
  - intros ->. by destruct t.
Defined.

#[export] Instance PickShortageReason_name : StoredName PickShortageReason.
Proof.
  refine {| as_str := PickShortageReason_as_str; parse := PickShortageReason_parse |}.
  solve_stored_name.
Defined.

#[export] Instance PickShortageStatus_name : StoredName PickShortageStatus.
Proof.
  refine {| as_str := PickShortageStatus_as_str; parse := PickShortageStatus_parse |}.
  solve_stored_name.
Defined.

#[export] Instance PickShortageResolution_name : StoredName PickShortageResolution.
Proof.
  refine {| as_str := PickShortageResolution_as_str;
            parse := PickShortageResolution_parse |}.
  solve_stored_name.
Defined.

#[export] Instance PickShortShipReason_name : StoredName PickShortShipReason.
Proof.
  refine {| as_str := PickShortShipReason_as_str; parse := PickShortShipReason_parse |}.
  solve_stored_name.
Defined.

(** ** Quantities are conserved and stay in range *)

Lemma PickShortageQuantities_new_spec planned picked q :
  pos_i64 planned → nonneg_i64 picked →
  PickShortageQuantities_new planned picked = Ok q ↔
  picked < planned ∧ q = MkShortageQuantities planned picked (planned - picked).
Proof.
  intros Hp Hk. unfold PickShortageQuantities_new, i64_sub.
  rewrite wrap_i64_id by range_lia.
  destruct (Z.leb_spec planned picked); naive_solver lia.
Qed.

Lemma with_substitution_spec ordered accepted_short accepted_substitute d :
  pos_i64 ordered → nonneg_i64 accepted_short → nonneg_i64 accepted_substitute →
  with_substitution ordered accepted_short accepted_substitute = Ok d ↔
  accepted_short + accepted_substitute ≤ ordered ∧
  d = MkShortShipDemand ordered accepted_short accepted_substitute
        (ordered - (accepted_short + accepted_substitute)).
Proof.
  intros Ho Hs Hsub. unfold with_substitution, i64_checked_add.
  destruct (checked _ _ _) as [tot|] eqn:E.
  - apply checked_Some in E as [-> ?]. unfold i64_sub.
    rewrite wrap_i64_id by range_lia.
    destruct (Z.ltb_spec ordered (accepted_short + accepted_substitute)); naive_solver lia.
  - apply checked_None in E. split; [done|]. range_lia.
Qed.

(** C38. Accounting of a shortage resolved as a short shipment. For quantities
    that the planned and picked amounts make up, a resolution is accepted only
    while the shortage awaits inventory and every replacement attempt has
    ended; then picked, recovered and accepted quantities add up to exactly
    what was planned, and the accepted quantity is a positive part of the
    shortage. *)
Theorem shortage_resolution_conserves status planned picked q reallocated terminal
    remaining tr :
  pos_i64 planned → nonneg_i64 picked → nonneg_i64 reallocated →
  nonneg_i64 terminal → nonneg_i64 remaining →
  PickShortageQuantities_new planned picked = Ok q →
  resolve_pick_shortage_as_short_ship status (q_short q) reallocated terminal remaining
    = Ok tr →
  status = AwaitingInventory ∧ terminal = reallocated ∧
  picked + terminal + accepted_quantity tr = planned ∧
  0 < accepted_quantity tr ≤ q_short q ∧
  transition_status tr = Resolved ∧ transition_resolution tr = ShortShip.
Proof.
  intros Hp Hk Hr Ht Hm Hq H.
  apply PickShortageQuantities_new_spec in Hq as [Hlt ->]; [|done..].
  unfold resolve_pick_shortage_as_short_ship, ActualPickQuantity_is_zero in H.
  cbn [q_short] in *. run H.
  match goal with E : i64_checked_add _ _ = Some _ |- _ =>
    apply checked_Some in E as [? ?] end.
  cbn [accepted_quantity transition_status transition_resolution] in *.
  split_and!; try done; range_lia.
Qed.

(** The demand left after accepted short and substituted quantities: the
    constructor succeeds exactly when they fit in the ordered quantity, the
    effective demand is then the difference (it never overflows), and a
    rejection reports the accepted total, saturated when the sum overflows. *)
Theorem short_ship_demand_conserves ordered accepted_short accepted_substitute :
  pos_i64 ordered → nonneg_i64 accepted_short → nonneg_i64 accepted_substitute →
  match with_substitution ordered accepted_short accepted_substitute with
  | Ok d => d_effective d + d_accepted_short d + d_accepted_substitute d = d_ordered d ∧
            nonneg_i64 (d_effective d) ∧ d_ordered d = ordered ∧
            d_accepted_short d = accepted_short ∧
            d_accepted_substitute d = accepted_substitute
  | Err e => ordered < accepted_short + accepted_substitute ∧
             e = AcceptedShortExceedsDemand ordered
                   (Z.min i64_max (accepted_short + accepted_substitute))
  end.
Proof.
  intros Ho Hs Hsub. unfold with_substitution, i64_checked_add.
  destruct (checked _ _ _) as [tot|] eqn:E.
  - apply checked_Some in E as [-> ?].
    destruct (Z.ltb_spec ordered (accepted_short + accepted_substitute)).
    + split; [done|]. f_equal. range_lia.
    + cbn. unfold i64_sub. rewrite wrap_i64_id by range_lia. range_lia.
  - apply checked_None in E. split; [range_lia|]. f_equal. range_lia.
Qed.

(** ** Witnesses *)

Lemma shortage_resolution_conserves_witness : 4 + 3 + 3 = 10.
Proof.
  apply (shortage_resolution_conserves AwaitingInventory 10 4
    (MkShortageQuantities 10 4 6) 3 3 3 (MkShortShipTransition 3 Resolved ShortShip)).
  all: first [range_lia | vm_compute; reflexivity].
Defined.

Lemma short_ship_demand_conserves_witness :
  match with_substitution 10 3 2 with
  | Ok d => d_effective d + d_accepted_short d + d_accepted_substitute d = d_ordered d ∧
            nonneg_i64 (d_effective d) ∧ d_ordered d = 10 ∧ d_accepted_short d = 3 ∧
            d_accepted_substitute d = 2
  | Err e => 10 < 3 + 2 ∧ e = AcceptedShortExceedsDemand 10 (Z.min i64_max (3 + 2))
  end.
Proof. apply (short_ship_demand_conserves 10 3 2); range_lia. Defined.
