(* ===== verification/Packing.v ===== *)
(** * Packing ([crates/domain/src/packing.rs])

    Carton and pack-session states, the conserved counts of a session
    ([PackingProgress]) with its constructor invariant, and the packing side of
    the order status. *)

From S2P Require Import Prelude.
From S2P Require Import RustStr.
From S2P Require Import Orders.

(** ** Data *)

Inductive PackSessionStatus := SessionOpen | ReadyToManifest | Abandoned.

Inductive PackSessionAbandonmentReason :=
| AbandonOrderCancellation | AbandonRepack | AbandonStationIssue | AbandonOther.

Inductive CartonStatus := CartonOpen | CartonClosed | CartonVoided.

Inductive CartonReopenReason :=
| ReopenPackingCorrection | ReopenQualityIssue | ReopenOrderCancellation | ReopenOther.

Inductive PackContentRemovalReason :=
| WrongCarton | WrongItem | RemovalQualityIssue | DamagedCarton | RemovalOther.

#[global] Instance PackSessionStatus_eq_dec : EqDecision PackSessionStatus.
Proof. solve_decision. Defined.
#[global] Instance CartonStatus_eq_dec : EqDecision CartonStatus.
Proof. solve_decision. Defined.

Inductive PackingError :=
| PackInvalidQuantity (value : Z)
| PackEmptyScanValue
| PackUntrimmedScanValue
| PackScanValueTooLong
| PackInvalidScanCharacter
| InvalidWeight (value : Z)
| InvalidDimension (value : Z)
| InvalidProgress
| OpenCartonAlreadyExists
| EmptyCarton
| CartonNotOpen
| NonemptyCarton
| CartonContentMissing
| EmptyRemovalNote
| UntrimmedRemovalNote
| RemovalNoteTooLong
| InvalidRemovalNoteCharacter
| RemovalNoteRequired
| EmptyCartonReopenNote
| UntrimmedCartonReopenNote
| CartonReopenNoteTooLong
| InvalidCartonReopenNoteCharacter
| CartonReopenNoteRequired
| CartonNotClosed
| CartonReopenStateMismatch
| CartonReopenProgressMismatch
| EmptyAbandonmentNote
| UntrimmedAbandonmentNote
| AbandonmentNoteTooLong
| InvalidAbandonmentNoteCharacter
| AbandonmentNoteRequired
| SessionNotEmpty
| OrderNotAwaitingPacking (status : OrderStatus)
| OrderNotPacking (status : OrderStatus)
| NotReadyToManifest.

(** ** Notes, scans and measurements *)

Definition MAX_PACK_SCAN_VALUE_LENGTH : Z := 200.
Definition MAX_PACK_CONTENT_REMOVAL_NOTE_LENGTH : Z := 500.
Definition MAX_PACK_SESSION_ABANDONMENT_NOTE_LENGTH : Z := 500.
Definition MAX_CARTON_REOPEN_NOTE_LENGTH : Z := 500.

Definition PackSessionAbandonmentNote_new (value : rstr) : result rstr PackingError :=
  check bool_decide (trim value = value) else UntrimmedAbandonmentNote in
  check negb (bool_decide (value = [])) else EmptyAbandonmentNote in
  check negb (MAX_PACK_SESSION_ABANDONMENT_NOTE_LENGTH <? chars_count value)
    else AbandonmentNoteTooLong in
  check negb (existsb is_control value) else InvalidAbandonmentNoteCharacter in
  Ok value.

Definition CartonReopenNote_new (value : rstr) : result rstr PackingError :=
  check bool_decide (trim value = value) else UntrimmedCartonReopenNote in
  check negb (bool_decide (value = [])) else EmptyCartonReopenNote in
  check negb (MAX_CARTON_REOPEN_NOTE_LENGTH <? chars_count value)
    else CartonReopenNoteTooLong in
  check negb (existsb is_control value) else InvalidCartonReopenNoteCharacter in
  Ok value.

Definition PackScanValue_new (value : rstr) : result rstr PackingError :=
  check negb (bool_decide (value = [])) else PackEmptyScanValue in
  check bool_decide (trim value = value) else PackUntrimmedScanValue in
  check negb (MAX_PACK_SCAN_VALUE_LENGTH <? chars_count value) else PackScanValueTooLong in
  check negb (existsb is_control value) else PackInvalidScanCharacter in
  Ok value.

Definition PackQuantity_new (value : Z) : result Z PackingError :=
  positive_new PackInvalidQuantity value.
Definition WeightGrams_new (value : Z) : result Z PackingError :=
  positive_new InvalidWeight value.
Definition DimensionMillimeters_new (value : Z) : result Z PackingError :=
  positive_new InvalidDimension value.

Definition PackSessionAbandonmentDetails_new (reason : PackSessionAbandonmentReason)
    (note : option rstr) :
    result (PackSessionAbandonmentReason * option rstr) PackingError :=
  match reason, note with
  | AbandonOther, None => Err AbandonmentNoteRequired
  | _, _ => Ok (reason, note)
  end.

Definition CartonReopenDetails_new (reason : CartonReopenReason) (note : option rstr) :
    result (CartonReopenReason * option rstr) PackingError :=
  match reason, note with
  | ReopenOther, None => Err CartonReopenNoteRequired
  | _, _ => Ok (reason, note)
  end.

Definition PackContentRemovalDetails_new (reason : PackContentRemovalReason)
    (note : option rstr) : result (PackContentRemovalReason * option rstr) PackingError :=
  match reason, note with
  | RemovalOther, None => Err RemovalNoteRequired
  | _, _ => Ok (reason, note)
  end.

(** ** Cartons *)

Definition CartonStatus_close (self : CartonStatus) (content_count : Z) :
    result CartonStatus PackingError :=
  match self with
  | CartonClosed | CartonVoided => Err CartonNotOpen
  | CartonOpen => if content_count <=? 0 then Err EmptyCarton else Ok CartonClosed
  end.

Definition CartonStatus_void (self : CartonStatus) (content_count : Z) :
    result CartonStatus PackingError :=
  match self with
  | CartonClosed | CartonVoided => Err CartonNotOpen
  | CartonOpen => if negb (content_count =? 0) then Err NonemptyCarton else Ok CartonVoided
  end.

Definition CartonStatus_reopen (self : CartonStatus) (content_count : Z) :
    result CartonStatus PackingError :=
  match self with
  | CartonOpen | CartonVoided => Err CartonNotClosed
  | CartonClosed => if content_count <=? 0 then Err EmptyCarton else Ok CartonOpen
  end.

Definition remove_packed_content (status : CartonStatus) (active_content_count : Z) :
    result Z PackingError :=
  check bool_decide (status = CartonOpen) else CartonNotOpen in
  check negb (active_content_count <=? 0) else CartonContentMissing in
  Ok (i64_sub active_content_count 1).

Definition open_carton (open_carton_count : Z) : result CartonStatus PackingError :=
  if open_carton_count <? 0 then Err InvalidProgress
  else if open_carton_count =? 0 then Ok CartonOpen
  else Err OpenCartonAlreadyExists.

(** ** Session progress *)

Record PackingProgress := MkProgress {
  expected_allocation_count : Z;
  packed_allocation_count : Z;
  expected_quantity : Z;
  packed_quantity : Z;
  open_carton_count : Z;
  closed_carton_count : Z;
}.

Definition PackingProgress_new (expected_allocs packed_allocs expected_qty packed_qty
    open_cartons closed_cartons : Z) : result PackingProgress PackingError :=
  match i64_checked_add open_cartons closed_cartons with
  | None => Err InvalidProgress
  | Some carton_count =>
      if (expected_allocs <=? 0) || (packed_allocs <? 0)
         || (expected_allocs <? packed_allocs)
         || (expected_qty <=? 0) || (packed_qty <? 0) || (expected_qty <? packed_qty)
         || negb (Bool.eqb (packed_allocs =? 0) (packed_qty =? 0))
         || negb (Bool.eqb (packed_allocs =? expected_allocs) (packed_qty =? expected_qty))
         || (open_cartons <? 0) || (1 <? open_cartons) || (closed_cartons <? 0)
         || ((0 <? packed_allocs) && (carton_count =? 0))
      then Err InvalidProgress
      else Ok (MkProgress expected_allocs packed_allocs expected_qty packed_qty
                 open_cartons closed_cartons)
  end.

Definition PackingProgress_status (self : PackingProgress) : PackSessionStatus :=
  if (packed_allocation_count self =? expected_allocation_count self)
     && (packed_quantity self =? expected_quantity self)
     && (open_carton_count self =? 0) && (0 <? closed_carton_count self)
  then ReadyToManifest else SessionOpen.

Definition ready_to_manifest (self : PackingProgress) : bool :=
  bool_decide (PackingProgress_status self = ReadyToManifest).

(** ** The order side *)

Definition begin_packing (status : OrderStatus) : result OrderStatus PackingError :=
  match status with
  | AwaitingPacking => Ok Packing
  | _ => Err (OrderNotAwaitingPacking status)
  end.

Definition continue_packing (status : OrderStatus) : result OrderStatus PackingError :=
  match status with
  | Packing => Ok Packing
  | _ => Err (OrderNotPacking status)
  end.

Definition abandon_empty_packing (status : OrderStatus) (progress : PackingProgress) :
    result OrderStatus PackingError :=
  check bool_decide (status = Packing) else OrderNotPacking status in
  if negb (packed_allocation_count progress =? 0) || negb (packed_quantity progress =? 0)
     || negb (open_carton_count progress =? 0) || negb (closed_carton_count progress =? 0)
  then Err SessionNotEmpty
  else Ok AwaitingPacking.

Definition reopen_carton (order_status : OrderStatus) (session_status : PackSessionStatus)
    (progress : PackingProgress) (carton_status : CartonStatus) (content_count : Z) :
    result (OrderStatus * PackingProgress) PackingError :=
  check (bool_decide (order_status = Packing) && bool_decide (session_status = SessionOpen))
        || (bool_decide (order_status = AwaitingShipment)
            && bool_decide (session_status = ReadyToManifest))
    else CartonReopenStateMismatch in
  let? _ := CartonStatus_reopen carton_status content_count in
  if negb (open_carton_count progress =? 0) || (closed_carton_count progress <=? 0)
  then Err CartonReopenProgressMismatch
  else
    match PackingProgress_new (expected_allocation_count progress)
            (packed_allocation_count progress) (expected_quantity progress)
            (packed_quantity progress) 1 (i64_sub (closed_carton_count progress) 1) with
    | Ok next => Ok (Packing, next)
    | Err _ => Err CartonReopenProgressMismatch
    end.

Definition complete_packing (status : OrderStatus) (progress : PackingProgress) :
    result OrderStatus PackingError :=
  check bool_decide (status = Packing) else OrderNotPacking status in
  check ready_to_manifest progress else NotReadyToManifest in
  Ok AwaitingShipment.

(** ** The invariant of a session's counts *)

Definition progress_wf (p : PackingProgress) : Prop :=
  0 < expected_allocation_count p ∧
  0 ≤ packed_allocation_count p ≤ expected_allocation_count p ∧
  0 < expected_quantity p ∧ 0 ≤ packed_quantity p ≤ expected_quantity p ∧
  (packed_allocation_count p = 0 ↔ packed_quantity p = 0) ∧
  (packed_allocation_count p = expected_allocation_count p ↔
   packed_quantity p = expected_quantity p) ∧
  0 ≤ open_carton_count p ≤ 1 ∧ 0 ≤ closed_carton_count p ∧
  open_carton_count p + closed_carton_count p ≤ i64_max ∧
  (0 < packed_allocation_count p → 0 < open_carton_count p + closed_carton_count p).

Lemma eqb_bool_false_iff (b c : bool) : negb (Bool.eqb b c) = false ↔ (b = true ↔ c = true).
Proof. destruct b, c; cbn; naive_solver. Qed.

Lemma PackingProgress_new_ok ea pa eq pq oc cc p :
  PackingProgress_new ea pa eq pq oc cc = Ok p ↔
  p = MkProgress ea pa eq pq oc cc ∧ progress_wf p.
Proof.
  unfold PackingProgress_new, i64_checked_add, progress_wf.
  destruct (checked _ _ _) as [n|] eqn:E.
  - apply checked_Some in E as [-> ?].
    match goal with |- context [if ?b then _ else _] => destruct b eqn:Eb end.
    + split; [done|]. intros [-> Hwf]. exfalso. cbn in Hwf.
      apply not_false_iff_true in Eb. apply Eb.
      rewrite !orb_false_iff, !eqb_bool_false_iff, andb_false_iff,
        !Z.eqb_eq, !Z.ltb_ge, !Z.leb_gt, Z.eqb_neq.
      split_and!; try tauto; try lia.
    + rewrite !orb_false_iff, !eqb_bool_false_iff, andb_false_iff,
        !Z.eqb_eq, !Z.ltb_ge, !Z.leb_gt, Z.eqb_neq in Eb.
      split; [intros [= <-]|naive_solver]. split; [done|]. cbn.
      destruct_and!. split_and!; try tauto; try lia.
  - apply checked_None in E. split; [done|]. intros [-> Hwf]. cbn in Hwf. range_lia.
Qed.

(** Reopening a carton. From well-formed counts, reopening succeeds exactly
    when the order and session states match, the carton is closed and nonempty,
    and no carton is open while some carton is closed. It then keeps the packed
    quantities and the number of cartons, keeps the counts well formed (the
    internal consistency check cannot fail), and leaves a session that cannot
    complete. *)
Theorem reopen_carton_spec order_status session_status p carton_status content_count :
  progress_wf p →
  match reopen_carton order_status session_status p carton_status content_count with
  | Ok (s, p') =>
      ((order_status = Packing ∧ session_status = SessionOpen) ∨
       (order_status = AwaitingShipment ∧ session_status = ReadyToManifest)) ∧
      carton_status = CartonClosed ∧ 0 < content_count ∧
      open_carton_count p = 0 ∧ 0 < closed_carton_count p ∧
      s = Packing ∧ progress_wf p' ∧
      p' = MkProgress (expected_allocation_count p) (packed_allocation_count p)
             (expected_quantity p) (packed_quantity p) 1 (closed_carton_count p - 1) ∧
      complete_packing s p' = Err NotReadyToManifest
  | Err e =>
      ¬ ((order_status = Packing ∧ session_status = SessionOpen) ∨
         (order_status = AwaitingShipment ∧ session_status = ReadyToManifest)) ∨
      carton_status ≠ CartonClosed ∨ content_count ≤ 0 ∨
      (open_carton_count p ≠ 0 ∨ closed_carton_count p = 0) ∧
      e = CartonReopenProgressMismatch
  end.
Proof.
  intros Hwf. unfold reopen_carton.
  match goal with |- context [if ?b then _ else Err CartonReopenStateMismatch] =>
    destruct b eqn:Est end; [|left; intros Hor; rewrite orb_false_iff, !andb_false_iff in Est;
      rewrite !bool_decide_eq_false in Est; naive_solver].
  apply orb_true_iff in Est. rewrite !andb_true_iff, !bool_decide_eq_true in Est.
  destruct carton_status; cbn [CartonStatus_reopen rbind]; [naive_solver| |naive_solver].
  destruct (content_count <=? 0) eqn:Ec; bool_to_prop; cbn [rbind]; [naive_solver|].
  pose proof Hwf as (? & ? & ? & ? & ? & ? & ? & ? & ? & ?).
  destruct (_ || _) eqn:Eo; bool_to_prop.
  - right; right; right. split; [|done]. destruct Eo as [Eo|Eo]; bool_to_prop; lia.
  - unfold i64_sub. rewrite wrap_i64_id by range_lia.
    set (p' := MkProgress _ _ _ _ 1 _).
    assert (Hwf' : progress_wf p').
    { unfold progress_wf, p'. cbn. split_and!; try done; try lia; naive_solver. }
    rewrite (proj2 (PackingProgress_new_ok _ _ _ _ _ _ p')) by done.
    split_and!; try done.
    unfold complete_packing, ready_to_manifest, PackingProgress_status, p'. cbn.
    by rewrite andb_false_r.
Qed.

(** Packing completes exactly when everything expected is packed in
    cartons that are all closed, and then the order awaits shipment. *)
Theorem complete_packing_iff status p s :
  complete_packing status p = Ok s ↔
  status = Packing ∧ s = AwaitingShipment ∧
  packed_allocation_count p = expected_allocation_count p ∧
  packed_quantity p = expected_quantity p ∧
  open_carton_count p = 0 ∧ 0 < closed_carton_count p.
Proof.
  unfold complete_packing, ready_to_manifest, PackingProgress_status.
  case_bool_decide; [|naive_solver].
  destruct (_ && _) eqn:E; bool_to_prop.
  - rewrite bool_decide_true by done. naive_solver.
  - rewrite bool_decide_false by done. split; [done|]. intros (_ & _ & ? & ? & ? & ?).
    exfalso. repeat destruct E as [E|E]; bool_to_prop; try lia.
Qed.

(** ** Witness *)

Lemma reopen_carton_spec_witness :
  progress_wf (MkProgress 2 2 5 5 0 1) ∧
  reopen_carton AwaitingShipment ReadyToManifest (MkProgress 2 2 5 5 0 1) CartonClosed 2
    = Ok (Packing, MkProgress 2 2 5 5 1 0) ∧
  complete_packing Packing (MkProgress 2 2 5 5 1 0) = Err NotReadyToManifest.
Proof.
  assert (Hwf : progress_wf (MkProgress 2 2 5 5 0 1))
    by (unfold progress_wf; cbn; unfold_ranges; lia).
  pose proof (reopen_carton_spec AwaitingShipment ReadyToManifest (MkProgress 2 2 5 5 0 1)
    CartonClosed 2 Hwf) as H.
  split_and!; [exact Hwf|vm_compute; reflexivity|].
  change (reopen_carton AwaitingShipment ReadyToManifest (MkProgress 2 2 5 5 0 1)
    CartonClosed 2) with (@Ok (OrderStatus * PackingProgress) PackingError
      (Packing, MkProgress 2 2 5 5 1 0)) in H.
  cbn beta iota in H. apply H.
Defined.
