(* ===== verification/OutboundLoad.v ===== *)
(** * Outbound loads ([crates/domain/src/outbound_load.rs])

    The counted progress of a load (cartons planned, staged and loaded) with its
    validity check and every transition, and the position of one packed carton.
    Counters are [u32]: increments are the source's unchecked ones, and the
    invariant shows that they cannot overflow. *)

From S2P Require Import Prelude.
From S2P Require Import RustStr.

(** ** Data *)

Inductive OutboundLoadStatus :=
| Planned | Staging | Loading | ReadyToDepart | Departed | LoadCancelled.

#[global] Instance OutboundLoadStatus_eq_dec : EqDecision OutboundLoadStatus.
Proof. solve_decision. Defined.

Definition OutboundLoadStatus_as_str (self : OutboundLoadStatus) : string :=
  match self with
  | Planned => "planned"
  | Staging => "staging"
  | Loading => "loading"
  | ReadyToDepart => "ready_to_depart"
  | Departed => "departed"
  | LoadCancelled => "cancelled"
  end.

Definition OutboundLoadStatus_parse (value : string) : option OutboundLoadStatus :=
  str_match value
    [("planned", Planned); ("staging", Staging); ("loading", Loading);
     ("ready_to_depart", ReadyToDepart); ("departed", Departed);
     ("cancelled", LoadCancelled)].

Definition OutboundLoadStatus_is_terminal (self : OutboundLoadStatus) : bool :=
  match self with Departed | LoadCancelled => true | _ => false end.

Inductive PackedCartonPositionState :=
| CartonPacked (location_id : Z)
| CartonStaged (outbound_load_id staging_location_id : Z)
| CartonLoaded (outbound_load_id load_sequence : Z)
| CartonDeparted (outbound_load_id load_sequence : option Z).

Inductive PackedCartonMovementKind := Stage | Load | Unload | Unstage.

Definition PackedCartonMovementKind_as_str (self : PackedCartonMovementKind) : string :=
  match self with
  | Stage => "stage" | Load => "load" | Unload => "unload" | Unstage => "unstage"
  end.

Definition PackedCartonMovementKind_parse (value : string) :
    option PackedCartonMovementKind :=
  str_match value
    [("stage", Stage); ("load", Load); ("unload", Unload); ("unstage", Unstage)].

Inductive OutboundLoadCancellationReason :=
| RouteCancelled | CarrierCancelled | EquipmentUnavailable | PlanningError | LoadCancelOther.

Inductive OutboundLoadError :=
| EmptyPlan
| InvalidProgress
| InvalidStatus (actual : OutboundLoadStatus)
| IncompleteStaging
| IncompleteLoading
| CartonNotStaged
| CartonNotLoaded
| CartonsNotRestored
| InvalidCartonPositionTransition
| InvalidLoadSequence
| InvalidRevision (field : string) (value : Z)
| InvalidText (field : string)
| TextTooLong (field : string) (maximum : Z)
| CancellationNoteRequired.

(** ** Text and revisions *)

Definition MAX_OUTBOUND_LOAD_REFERENCE_LENGTH : Z := 100.
Definition MAX_OUTBOUND_LOAD_TRAILER_NUMBER_LENGTH : Z := 100.
Definition MAX_OUTBOUND_LOAD_SEAL_NUMBER_LENGTH : Z := 100.
Definition MAX_OUTBOUND_LOAD_SCAN_VALUE_LENGTH : Z := 200.
Definition MAX_OUTBOUND_LOAD_CANCELLATION_NOTE_LENGTH : Z := 500.

Definition validate_text (value : rstr) (field : string) (maximum : Z) :
    result rstr OutboundLoadError :=
  check negb (is_blank_or_untrimmed value || existsb is_control value)
    else InvalidText field in
  check negb (maximum <? chars_count value) else TextTooLong field maximum in
  Ok value.

(** [outbound_text_value!] *)
Definition OutboundLoadReference_new (value : rstr) : result rstr OutboundLoadError :=
  validate_text value "outbound load reference" MAX_OUTBOUND_LOAD_REFERENCE_LENGTH.
Definition TrailerNumber_new (value : rstr) : result rstr OutboundLoadError :=
  validate_text value "trailer number" MAX_OUTBOUND_LOAD_TRAILER_NUMBER_LENGTH.
Definition SealNumber_new (value : rstr) : result rstr OutboundLoadError :=
  validate_text value "seal number" MAX_OUTBOUND_LOAD_SEAL_NUMBER_LENGTH.
Definition OutboundLoadScanValue_new (value : rstr) : result rstr OutboundLoadError :=
  validate_text value "outbound load scan value" MAX_OUTBOUND_LOAD_SCAN_VALUE_LENGTH.
Definition OutboundLoadCancellationNote_new (value : rstr) : result rstr OutboundLoadError :=
  validate_text value "outbound load cancellation note"
    MAX_OUTBOUND_LOAD_CANCELLATION_NOTE_LENGTH.

Definition OutboundLoadCancellationDetails_new (reason : OutboundLoadCancellationReason)
    (note : option rstr) :
    result (OutboundLoadCancellationReason * option rstr) OutboundLoadError :=
  match reason, note with
  | LoadCancelOther, None => Err CancellationNoteRequired
  | _, _ => Ok (reason, note)
  end.

(** [positive_revision!] *)
Definition OutboundLoadRevision_new (value : Z) : result Z OutboundLoadError :=
  positive_new (InvalidRevision "outbound load revision") value.
Definition PackedCartonPositionRevision_new (value : Z) : result Z OutboundLoadError :=
  positive_new (InvalidRevision "packed carton position revision") value.

(** ** Progress *)

Record OutboundLoadProgress := MkLoadProgress {
  planned_shipment_count : Z;
  planned_carton_count : Z;
  staged_carton_count : Z;
  loaded_carton_count : Z;
  status : OutboundLoadStatus;
}.

Definition validate (self : OutboundLoadProgress) : result unit OutboundLoadError :=
  if (planned_shipment_count self =? 0) || (planned_carton_count self =? 0)
  then Err EmptyPlan
  else
    let? positioned := ok_or (u32_checked_add (staged_carton_count self)
                                (loaded_carton_count self)) InvalidProgress in
    if planned_carton_count self <? positioned then Err InvalidProgress
    else
      let valid_status :=
        match status self with
        | Planned | LoadCancelled => positioned =? 0
        | Staging => loaded_carton_count self =? 0
        | Loading => true
        | ReadyToDepart | Departed =>
            (staged_carton_count self =? 0)
            && (loaded_carton_count self =? planned_carton_count self)
        end in
      if negb valid_status then Err InvalidProgress else Ok tt.

Definition restore (shipments cartons staged loaded : Z) (st : OutboundLoadStatus) :
    result OutboundLoadProgress OutboundLoadError :=
  let progress := MkLoadProgress shipments cartons staged loaded st in
  let? _ := validate progress in Ok progress.

Definition planned (shipments cartons : Z) : result OutboundLoadProgress OutboundLoadError :=
  restore shipments cartons 0 0 Planned.

Definition packed_carton_count (self : OutboundLoadProgress) : Z :=
  saturating_sub (planned_carton_count self)
    ((staged_carton_count self + loaded_carton_count self) mod 4294967296).

Record OutboundLoadTransition := MkLoadTransition {
  progress : OutboundLoadProgress;
  advances_load_revision : bool;
}.

Definition phase_transition (p : OutboundLoadProgress) : OutboundLoadTransition :=
  MkLoadTransition p true.
Definition movement_transition (p : OutboundLoadProgress) : OutboundLoadTransition :=
  MkLoadTransition p false.

Definition require_status (actual expected : OutboundLoadStatus) :
    result unit OutboundLoadError :=
  if bool_decide (actual = expected) then Ok tt else Err (InvalidStatus actual).

Definition require_one_of (actual : OutboundLoadStatus)
    (expected : list OutboundLoadStatus) : result unit OutboundLoadError :=
  if bool_decide (actual ∈ expected) then Ok tt else Err (InvalidStatus actual).

(** Field updates; [+= 1] and [-= 1] on [u32] wrap in the release profile. *)
Definition with_status (p : OutboundLoadProgress) (st : OutboundLoadStatus) :=
  MkLoadProgress (planned_shipment_count p) (planned_carton_count p)
    (staged_carton_count p) (loaded_carton_count p) st.
Definition with_counts (p : OutboundLoadProgress) (staged loaded : Z) :=
  MkLoadProgress (planned_shipment_count p) (planned_carton_count p)
    (u32_wrap staged) (u32_wrap loaded) (status p).

Definition release_outbound_load (p : OutboundLoadProgress) :
    result OutboundLoadTransition OutboundLoadError :=
  let? _ := require_status (status p) Planned in
  Ok (phase_transition (with_status p Staging)).

Definition record_outbound_carton_staged (p : OutboundLoadProgress) :
    result OutboundLoadTransition OutboundLoadError :=
  let? _ := require_one_of (status p) [Staging; Loading] in
  let? positioned := ok_or (u32_checked_add (staged_carton_count p)
                              (loaded_carton_count p)) InvalidProgress in
  if planned_carton_count p <=? positioned then Err InvalidProgress
  else Ok (movement_transition
             (with_counts p (staged_carton_count p + 1) (loaded_carton_count p))).

Definition start_outbound_load_loading (p : OutboundLoadProgress) :
    result OutboundLoadTransition OutboundLoadError :=
  let? _ := require_status (status p) Staging in
  if negb (staged_carton_count p =? planned_carton_count p)
     || negb (loaded_carton_count p =? 0)
  then Err IncompleteStaging
  else Ok (phase_transition (with_status p Loading)).

Definition record_outbound_carton_loaded (p : OutboundLoadProgress) :
    result OutboundLoadTransition OutboundLoadError :=
  let? _ := require_status (status p) Loading in
  if staged_carton_count p =? 0 then Err CartonNotStaged
  else Ok (movement_transition
             (with_counts p (staged_carton_count p - 1) (loaded_carton_count p + 1))).

Definition complete_outbound_load_loading (p : OutboundLoadProgress) :
    result OutboundLoadTransition OutboundLoadError :=
  let? _ := require_status (status p) Loading in
  if negb (staged_carton_count p =? 0)
     || negb (loaded_carton_count p =? planned_carton_count p)
  then Err IncompleteLoading
  else Ok (phase_transition (with_status p ReadyToDepart)).

Definition record_outbound_carton_unloaded (p : OutboundLoadProgress) :
    result OutboundLoadTransition OutboundLoadError :=
  let? _ := require_one_of (status p) [Loading; ReadyToDepart] in
  if loaded_carton_count p =? 0 then Err CartonNotLoaded
  else Ok (MkLoadTransition
             (with_status
                (with_counts p (staged_carton_count p + 1) (loaded_carton_count p - 1))
                Loading)
             (bool_decide (status p = ReadyToDepart))).

Definition record_outbound_carton_unstaged (p : OutboundLoadProgress) :
    result OutboundLoadTransition OutboundLoadError :=
  let? _ := require_one_of (status p) [Staging; Loading] in
  if staged_carton_count p =? 0 then Err CartonNotStaged
  else Ok (movement_transition
             (with_counts p (staged_carton_count p - 1) (loaded_carton_count p))).

Definition depart_outbound_load (p : OutboundLoadProgress) :
    result OutboundLoadTransition OutboundLoadError :=
  let? _ := require_status (status p) ReadyToDepart in
  Ok (phase_transition (with_status p Departed)).

Definition cancel_outbound_load (p : OutboundLoadProgress)
    (all_cartons_at_original_packed_position : bool) :
    result OutboundLoadTransition OutboundLoadError :=
  let? _ := require_one_of (status p) [Planned; Staging; Loading] in
  if negb (staged_carton_count p =? 0) || negb (loaded_carton_count p =? 0)
     || negb all_cartons_at_original_packed_position
  then Err CartonsNotRestored
  else Ok (phase_transition (with_status p LoadCancelled)).

(** ** The position of one carton *)

Definition stage_packed_carton (current : PackedCartonPositionState)
    (original_packed_location_id outbound_load_id staging_location_id : Z) :
    result PackedCartonPositionState OutboundLoadError :=
  match current with
  | CartonPacked location_id =>
      if (location_id =? original_packed_location_id)
         && negb (location_id =? staging_location_id)
      then Ok (CartonStaged outbound_load_id staging_location_id)
      else Err InvalidCartonPositionTransition
  | _ => Err InvalidCartonPositionTransition
  end.

Definition load_packed_carton (current : PackedCartonPositionState)
    (outbound_load_id load_sequence : Z) :
    result PackedCartonPositionState OutboundLoadError :=
  if load_sequence =? 0 then Err InvalidLoadSequence
  else
    match current with
    | CartonStaged current_load_id _ =>
        if current_load_id =? outbound_load_id
        then Ok (CartonLoaded outbound_load_id load_sequence)
        else Err InvalidCartonPositionTransition
    | _ => Err InvalidCartonPositionTransition
    end.

Definition unload_packed_carton (current : PackedCartonPositionState)
    (outbound_load_id staging_location_id : Z) :
    result PackedCartonPositionState OutboundLoadError :=
  match current with
  | CartonLoaded current_load_id _ =>
      if current_load_id =? outbound_load_id
      then Ok (CartonStaged outbound_load_id staging_location_id)
      else Err InvalidCartonPositionTransition
  | _ => Err InvalidCartonPositionTransition
  end.

Definition unstage_packed_carton (current : PackedCartonPositionState)
    (outbound_load_id original_packed_location_id : Z) :
    result PackedCartonPositionState OutboundLoadError :=
  match current with
  | CartonStaged current_load_id _ =>
      if current_load_id =? outbound_load_id
      then Ok (CartonPacked original_packed_location_id)
      else Err InvalidCartonPositionTransition
  | _ => Err InvalidCartonPositionTransition
  end.

Definition depart_packed_carton (current : PackedCartonPositionState)
    (outbound_load_id load_sequence : Z) :
    result PackedCartonPositionState OutboundLoadError :=
  match current with
  | CartonLoaded current_load_id current_sequence =>
      if (current_load_id =? outbound_load_id) && (current_sequence =? load_sequence)
      then Ok (CartonDeparted (Some outbound_load_id) (Some load_sequence))
      else Err InvalidCartonPositionTransition
  | _ => Err InvalidCartonPositionTransition
  end.

(** ** The load as a state machine *)

Inductive load_op :=
| OpRelease | OpStage | OpStartLoading | OpLoad | OpComplete | OpUnload | OpUnstage
| OpDepart | OpCancel (all_cartons_at_original_packed_position : bool).

Definition apply_op (op : load_op) (p : OutboundLoadProgress) :
    result OutboundLoadTransition OutboundLoadError :=
  match op with
  | OpRelease => release_outbound_load p
  | OpStage => record_outbound_carton_staged p
  | OpStartLoading => start_outbound_load_loading p
  | OpLoad => record_outbound_carton_loaded p
  | OpComplete => complete_outbound_load_loading p
  | OpUnload => record_outbound_carton_unloaded p
  | OpUnstage => record_outbound_carton_unstaged p
  | OpDepart => depart_outbound_load p
  | OpCancel restored => cancel_outbound_load p restored
  end.

Inductive load_step (p : OutboundLoadProgress) : OutboundLoadProgress → Prop :=
| load_step_op op t : apply_op op p = Ok t → load_step p (progress t).

Definition status_counts_ok (p : OutboundLoadProgress) : Prop :=
  match status p with
  | Planned | LoadCancelled => staged_carton_count p = 0 ∧ loaded_carton_count p = 0
  | Staging => loaded_carton_count p = 0
  | Loading => True
  | ReadyToDepart | Departed =>
      staged_carton_count p = 0 ∧ loaded_carton_count p = planned_carton_count p
  end.

Definition progress_ok (p : OutboundLoadProgress) : Prop :=
  0 < planned_shipment_count p ≤ u32_max ∧ 0 < planned_carton_count p ≤ u32_max ∧
  0 ≤ staged_carton_count p ∧ 0 ≤ loaded_carton_count p ∧
  staged_carton_count p + loaded_carton_count p ≤ planned_carton_count p ∧
  status_counts_ok p.

#[export] Instance OutboundLoadStatus_name : StoredName OutboundLoadStatus.
Proof.
  refine {| as_str := OutboundLoadStatus_as_str; parse := OutboundLoadStatus_parse |}.
  solve_stored_name.
Defined.

#[export] Instance PackedCartonMovementKind_name : StoredName PackedCartonMovementKind.
Proof.
  refine {| as_str := PackedCartonMovementKind_as_str;
            parse := PackedCartonMovementKind_parse |}.
  solve_stored_name.
Defined.

Lemma require_status_ok a e u : require_status a e = Ok u ↔ a = e.
Proof. destruct u. unfold require_status. case_bool_decide; naive_solver. Qed.

Lemma require_one_of_ok a es u : require_one_of a es = Ok u ↔ a ∈ es.
Proof. destruct u. unfold require_one_of. case_bool_decide; naive_solver. Qed.

(** [restore] accepts exactly the valid counts. *)
Lemma restore_ok shipments cartons staged loaded st p :
  in_u32 shipments → in_u32 cartons → in_u32 staged → in_u32 loaded →
  (restore shipments cartons staged loaded st = Ok p ↔
   p = MkLoadProgress shipments cartons staged loaded st ∧ progress_ok p).
Proof.
  intros Hs Hc Hg Hl. unfold restore, validate, progress_ok, status_counts_ok, u32_checked_add.
  cbn [planned_shipment_count planned_carton_count staged_carton_count
    loaded_carton_count status].
  split.
  - intros H. run H; match goal with E : checked _ _ _ = Some _ |- _ =>
      apply checked_Some in E as [-> ?] end;
    split; try done; cbn; split_and!; try done; try range_lia;
    destruct st; bool_to_prop; try done; try lia; naive_solver lia.
  - intros [-> H]. cbn in H. destruct_and!. unfold_ranges.
    rewrite !(proj2 (Z.eqb_neq _ 0)) by lia. cbn [orb].
    rewrite checked_in by lia. cbn [ok_or rbind].
    rewrite (proj2 (Z.ltb_ge _ _)) by lia.
    destruct st; cbn; destruct_and?; subst; rewrite ?Z.eqb_refl; try done;
      rewrite (proj2 (Z.eqb_eq _ _)) by lia; done.
Qed.

Ltac op_cases H :=
  cbn [apply_op] in H;
  unfold release_outbound_load, record_outbound_carton_staged, start_outbound_load_loading,
    record_outbound_carton_loaded, complete_outbound_load_loading,
    record_outbound_carton_unloaded, record_outbound_carton_unstaged, depart_outbound_load,
    cancel_outbound_load, u32_checked_add in H;
  apply rbind_ok in H as ([] & Hst & H); rewrite ?require_status_ok, ?require_one_of_ok in Hst;
  run H;
  repeat match goal with
  | E : checked _ _ _ = Some _ |- _ => apply checked_Some in E as [-> ?]
  | E : _ ∈ _ :: _ |- _ => apply elem_of_cons in E as [E|E]
  | E : _ ∈ [] |- _ => by apply elem_of_nil in E
  end.

(** Every transition keeps the counts valid and the plan unchanged; no [u32]
    counter over- or underflows. *)
Lemma apply_op_preserves op p t :
  progress_ok p → apply_op op p = Ok t →
  progress_ok (progress t) ∧
  planned_shipment_count (progress t) = planned_shipment_count p ∧
  planned_carton_count (progress t) = planned_carton_count p.
Proof.
  intros (Hs & Hc & Hg & Hl & Hsum & Hstat) H.
  destruct op; op_cases H;
    cbn [progress phase_transition movement_transition with_status with_counts
      planned_shipment_count planned_carton_count];
    (split; [|done]); unfold progress_ok, status_counts_ok in *;
    cbn [progress phase_transition movement_transition with_status with_counts
      planned_shipment_count planned_carton_count staged_carton_count loaded_carton_count
      status];
    rewrite ?Hst in *; destruct_and?; unfold_ranges;
    rewrite ?u32_wrap_id by range_lia; split_and!; try done; try lia.
Qed.

(** C37. Every load that is reachable from a new plan has valid counts: at most
    the planned cartons are positioned, the counts match the phase, a load that
    is ready or departed holds every planned carton, and the plan itself never
    changes; so reading its counts back is always accepted. *)
Theorem reachable_load_valid shipments cartons p0 p :
  in_u32 shipments → in_u32 cartons →
  planned shipments cartons = Ok p0 → rtc load_step p0 p →
  progress_ok p ∧ planned_shipment_count p = shipments ∧ planned_carton_count p = cartons ∧
  restore (planned_shipment_count p) (planned_carton_count p) (staged_carton_count p)
    (loaded_carton_count p) (status p) = Ok p.
Proof.
  intros Hs Hc H0 Hrtc. apply restore_ok in H0 as [-> H0]; [|done..|range_lia|range_lia].
  assert (Hinv : progress_ok p ∧ planned_shipment_count p = shipments ∧
                 planned_carton_count p = cartons).
  { revert Hrtc. apply (rtc_ind_r (fun p => progress_ok p ∧ planned_shipment_count p = shipments ∧
      planned_carton_count p = cartons)); [done|].
    intros q q' _ [op t Ht] (Hok & <- & <-). by apply (apply_op_preserves op). }
  destruct Hinv as (Hok & ? & ?). split_and!; [done..|].
  pose proof Hok as (? & ? & ? & ? & ? & _). apply restore_ok; try range_lia.
  split; [by destruct p|done].
Qed.

(** A transition advances the load's revision exactly when it changes its
    phase, and a departed or cancelled load admits no transition. *)
Theorem load_revision_tracks_phase op p :
  match apply_op op p with
  | Ok t => (advances_load_revision t = true ↔ status (progress t) ≠ status p) ∧
            OutboundLoadStatus_is_terminal (status p) = false
  | Err _ => True
  end.
Proof.
  destruct (apply_op op p) as [t|e] eqn:H; [|done].
  destruct op; op_cases H; cbn; rewrite ?Hst; try done.
Qed.

Lemma staged_step p :
  progress_ok p → (status p = Staging ∨ status p = Loading) →
  staged_carton_count p + loaded_carton_count p < planned_carton_count p →
  load_step p (with_counts p (staged_carton_count p + 1) (loaded_carton_count p)).
Proof.
  intros (? & ? & ? & ? & ? & ?) Hst Hlt.
  apply (load_step_op p OpStage (movement_transition _)). cbn [apply_op].
  unfold record_outbound_carton_staged.
  rewrite (proj2 (require_one_of_ok _ _ tt)) by set_solver. cbn [rbind].
  unfold u32_checked_add. rewrite checked_in by range_lia. cbn [ok_or rbind].
  by rewrite (proj2 (Z.leb_gt _ _)) by lia.
Qed.

Lemma loaded_step p :
  status p = Loading → staged_carton_count p ≠ 0 →
  load_step p (with_counts p (staged_carton_count p - 1) (loaded_carton_count p + 1)).
Proof.
  intros Hst Hne. apply (load_step_op p OpLoad (movement_transition _)). cbn [apply_op].
  unfold record_outbound_carton_loaded.
  rewrite (proj2 (require_status_ok _ _ tt) Hst). cbn [rbind].
  by rewrite (proj2 (Z.eqb_neq _ _) Hne).
Qed.

(** Staging every missing carton. *)
Lemma stage_all p :
  progress_ok p → (status p = Staging ∨ status p = Loading) →
  ∃ p', rtc load_step p p' ∧ progress_ok p' ∧ status p' = status p ∧
    staged_carton_count p' + loaded_carton_count p' = planned_carton_count p'.
Proof.
  remember (Z.to_nat (planned_carton_count p - staged_carton_count p
                      - loaded_carton_count p)) as n eqn:En.
  revert p En. induction n as [|n IH]; intros p En Hok Hst;
    pose proof Hok as (? & ? & ? & ? & ? & ?).
  - exists p. split_and!; [reflexivity|done..|lia].
  - pose proof (staged_step p Hok Hst ltac:(lia)) as Hstep.
    set (p1 := with_counts _ _ _) in Hstep. inversion Hstep as [op t Ht Hp1].
    pose proof (apply_op_preserves op p t Hok Ht) as (Hok1 & _). rewrite Hp1 in Hok1.
    destruct (IH p1) as (p' & Hrtc & Hok' & Hst' & Hfull); [|done|done|].
    { unfold p1. cbn. rewrite !u32_wrap_id by range_lia. lia. }
    exists p'. split_and!; [by eapply rtc_l|done|done|done].
Qed.

(** Loading every staged carton. *)
Lemma load_all p :
  progress_ok p → status p = Loading →
  ∃ p', rtc load_step p p' ∧ progress_ok p' ∧ status p' = Loading ∧
    staged_carton_count p' = 0 ∧
    loaded_carton_count p' = staged_carton_count p + loaded_carton_count p ∧
    planned_carton_count p' = planned_carton_count p.
Proof.
  remember (Z.to_nat (staged_carton_count p)) as n eqn:En.
  revert p En. induction n as [|n IH]; intros p En Hok Hst;
    pose proof Hok as (? & ? & ? & ? & ? & ?).
  - exists p. split_and!; [reflexivity|done..|lia|lia|done].
  - pose proof (loaded_step p Hst ltac:(lia)) as Hstep.
    set (p1 := with_counts _ _ _) in Hstep. inversion Hstep as [op t Ht Hp1].
    pose proof (apply_op_preserves op p t Hok Ht) as (Hok1 & _). rewrite Hp1 in Hok1.
    assert (Hs1 : staged_carton_count p1 = staged_carton_count p - 1 ∧
      loaded_carton_count p1 = loaded_carton_count p + 1)
      by (unfold p1; cbn; by rewrite !u32_wrap_id by range_lia).
    destruct (IH p1) as (p' & Hrtc & ? & ? & ? & ? & ?); [lia|done|done|].
    exists p'. split_and!; [by eapply rtc_l|done|done|done|lia|].
    etrans; [done|]. by unfold p1.
Qed.

Definition departs (p : OutboundLoadProgress) : Prop :=
  ∃ p', rtc load_step p p' ∧ status p' = Departed.

Lemma departs_step op p t : apply_op op p = Ok t → departs (progress t) → departs p.
Proof.
  intros H (p' & R & Hd). exists p'. split; [|done]. eapply rtc_l; [|exact R].
  by apply (load_step_op p op).
Qed.

Lemma departs_run p q : rtc load_step p q → departs q → departs p.
Proof. intros R (p' & R' & Hd). exists p'. split; [|done]. by etrans. Qed.

Lemma ready_departs p : status p = ReadyToDepart → departs p.
Proof.
  intros Hst. apply (departs_step OpDepart p (phase_transition (with_status p Departed))).
  - cbn [apply_op]. unfold depart_outbound_load. by rewrite Hst.
  - by exists (with_status p Departed).
Qed.

Lemma loading_departs p : progress_ok p → status p = Loading → departs p.
Proof.
  intros Hp Hst.
  destruct (stage_all p Hp (or_intror Hst)) as (q1 & R1 & Hq1 & Hst1 & Hf1).
  rewrite Hst in Hst1.
  destruct (load_all q1 Hq1 Hst1) as (q2 & R2 & Hq2 & Hst2 & Hs2 & Hl2 & Hp2).
  apply (departs_run _ _ R1), (departs_run _ _ R2),
    (departs_step OpComplete q2 (phase_transition (with_status q2 ReadyToDepart))).
  - cbn [apply_op]. unfold complete_outbound_load_loading.
    rewrite (proj2 (require_status_ok _ _ tt) Hst2). cbn [rbind].
    by rewrite !(proj2 (Z.eqb_eq _ _)) by lia.
  - by apply ready_departs.
Qed.

Lemma staging_departs p : progress_ok p → status p = Staging → departs p.
Proof.
  intros Hp Hst.
  destruct (stage_all p Hp (or_introl Hst)) as (q & R & Hq & Hst1 & Hf).
  rewrite Hst in Hst1.
  assert (Hl : loaded_carton_count q = 0).
  { destruct Hq as (_ & _ & _ & _ & _ & Hc). unfold status_counts_ok in Hc.
    by rewrite Hst1 in Hc. }
  assert (Hstart : apply_op OpStartLoading q = Ok (phase_transition (with_status q Loading))).
  { cbn [apply_op]. unfold start_outbound_load_loading.
    rewrite (proj2 (require_status_ok _ _ tt) Hst1). cbn [rbind].
    by rewrite !(proj2 (Z.eqb_eq _ _)) by lia. }
  apply (departs_run _ _ R), (departs_step _ _ _ Hstart), loading_departs; [|done].
  by destruct (apply_op_preserves _ _ _ Hq Hstart).
Qed.

(** No load gets stuck: from any valid load that has not departed or been
    cancelled there is a run of the transitions that departs it. *)
Theorem load_can_depart p :
  progress_ok p → OutboundLoadStatus_is_terminal (status p) = false → departs p.
Proof.
  intros Hok Hterm. destruct (status p) eqn:Hst; try done.
  - assert (Hrel : apply_op OpRelease p = Ok (phase_transition (with_status p Staging)))
      by (cbn [apply_op]; unfold release_outbound_load; by rewrite Hst).
    apply (departs_step _ _ _ Hrel), staging_departs; [|done].
    by destruct (apply_op_preserves _ _ _ Hok Hrel).
  - by apply staging_departs.
  - by apply loading_departs.
  - by apply ready_departs.
Qed.

(** Moving one carton is reversible: a staged carton can be returned to its
    original packed position and a loaded one to the load's staging location,
    each undoing the forward move; and a loaded carton departs only with its
    own load and sequence. *)
Theorem carton_moves_reversible current original load staging sequence :
  (∀ s, stage_packed_carton current original load staging = Ok s →
     unstage_packed_carton s load original = Ok current) ∧
  (∀ s, load_packed_carton current load sequence = Ok s →
     ∃ at_location, current = CartonStaged load at_location ∧
     unload_packed_carton s load at_location = Ok current ∧
     (∀ l q d, depart_packed_carton s l q = Ok d →
        l = load ∧ q = sequence ∧ d = CartonDeparted (Some load) (Some sequence))).
Proof.
  split.
  - intros s H. unfold stage_packed_carton in H. run H. subst. cbn.
    by rewrite Z.eqb_refl.
  - intros s H. unfold load_packed_carton in H. run H. subst.
    eexists. split_and!; [done|cbn; by rewrite Z.eqb_refl|].
    intros l q d Hd. cbn in Hd. run Hd. by subst.
Qed.

(** ** Witnesses *)

Lemma reachable_load_valid_witness :
  progress_ok (MkLoadProgress 1 2 1 0 Staging).
Proof.
  apply (reachable_load_valid 1 2 (MkLoadProgress 1 2 0 0 Planned)).
  - range_lia.
  - range_lia.
  - vm_compute. reflexivity.
  - eapply rtc_l; [apply (load_step_op _ OpRelease (MkLoadTransition
      (MkLoadProgress 1 2 0 0 Staging) true)); vm_compute; reflexivity|].
    eapply rtc_l; [apply (load_step_op _ OpStage (MkLoadTransition
      (MkLoadProgress 1 2 1 0 Staging) false)); vm_compute; reflexivity|].
    apply rtc_refl.
Defined.

Lemma load_can_depart_witness :
  departs (MkLoadProgress 1 2 1 0 Staging).
Proof.
  apply (load_can_depart (MkLoadProgress 1 2 1 0 Staging)).
  - unfold progress_ok, status_counts_ok. cbn. range_lia.
  - reflexivity.
Defined.
