(* ===== verification/Shipping.v ===== *)
(** * Shipping ([crates/domain/src/shipping.rs] and the departure handler of
      [crates/api/src/repo/shipping/departure.rs])

    Shipment creation from a ready pack session, the manual manifest that gives
    each carton its tracking number, cancellation, and departure in increments
    of scanned cartons; then the rows that [confirm_departure] reads and
    updates, so that a whole history of departures can be followed. *)

From S2P Require Import Prelude.
From S2P Require Import RustStr.
From S2P Require Import Orders.
From S2P Require Import Packing.

(** ** Data *)

Inductive ShipmentDocumentType := PackingSlip | CartonLabelSet.

Definition ShipmentDocumentType_as_str (self : ShipmentDocumentType) : string :=
  match self with PackingSlip => "packing_slip" | CartonLabelSet => "carton_label_set" end.

Definition ShipmentDocumentType_parse (value : string) : option ShipmentDocumentType :=
  str_match value [("packing_slip", PackingSlip); ("carton_label_set", CartonLabelSet)].

Inductive ShipmentStatus :=
| AwaitingManifest | Manifested | PartiallyDeparted | ShipmentDeparted | ShipmentCancelled.

#[global] Instance ShipmentStatus_eq_dec : EqDecision ShipmentStatus.
Proof. solve_decision. Defined.

Definition ShipmentStatus_as_str (self : ShipmentStatus) : string :=
  match self with
  | AwaitingManifest => "awaiting manifest"
  | Manifested => "manifested"
  | PartiallyDeparted => "partially departed"
  | ShipmentDeparted => "departed"
  | ShipmentCancelled => "cancelled"
  end.

Definition ShipmentStatus_parse (value : string) : option ShipmentStatus :=
  str_match value
    [("awaiting manifest", AwaitingManifest); ("manifested", Manifested);
     ("partially departed", PartiallyDeparted); ("departed", ShipmentDeparted);
     ("cancelled", ShipmentCancelled)].

Inductive ShipmentCancellationReason :=
| PackingCorrection | ShippingDataCorrection | DuplicateShipment | OperatorError
| ShipmentCancelOther.

#[global] Instance ShipmentCancellationReason_eq_dec : EqDecision ShipmentCancellationReason.
Proof. solve_decision. Defined.

Inductive ShippingTextField :=
| CarrierCodeField | CarrierServiceCodeField | ManifestReferenceField | TrackingNumberField
| ShipmentScanValueField.

Inductive ShippingError :=
| InvalidRevision (value : Z)
| InvalidText (field : ShippingTextField)
| TextTooLong (field : ShippingTextField) (maximum : Z)
| OrderNotAwaitingShipment (status : OrderStatus)
| PackSessionNotReady
| EmptyShipment
| DuplicateShipmentCarton
| ShipmentNotAwaitingManifest (status : ShipmentStatus)
| TrackingAssignmentSetMismatch
| DuplicateTrackingNumber
| ShipmentNotManifested (status : ShipmentStatus)
| ShipmentNotCancellable (status : ShipmentStatus)
| InvalidCancellationNote
| CancellationNoteRequired
| DepartureCartonSetMismatch.

Definition MAX_CARRIER_CODE_LENGTH : Z := 100.
Definition MAX_CARRIER_SERVICE_CODE_LENGTH : Z := 100.
Definition MAX_MANIFEST_REFERENCE_LENGTH : Z := 200.
Definition MAX_TRACKING_NUMBER_LENGTH : Z := 200.
Definition MAX_SHIPMENT_SCAN_VALUE_LENGTH : Z := 200.
Definition MAX_SHIPMENT_CANCELLATION_NOTE_LENGTH : Z := 500.

Definition ShipmentCancellationNote_new (value : rstr) : result rstr ShippingError :=
  if is_blank_or_untrimmed value
     || (MAX_SHIPMENT_CANCELLATION_NOTE_LENGTH <? chars_count value)
     || existsb is_control value
  then Err InvalidCancellationNote
  else Ok value.

Record ShipmentCancellationDetails := MkShipmentCancellation {
  cancellation_reason : ShipmentCancellationReason;
  cancellation_note : option rstr;
}.

Definition ShipmentCancellationDetails_new (reason : ShipmentCancellationReason)
    (note : option rstr) : result ShipmentCancellationDetails ShippingError :=
  if bool_decide (reason = ShipmentCancelOther) && bool_decide (note = None)
  then Err CancellationNoteRequired
  else Ok (MkShipmentCancellation reason note).

Definition ShipmentRevision_new (value : Z) : result Z ShippingError :=
  positive_new InvalidRevision value.
Definition ShipmentRevision_checked_next (self : Z) : option Z := revision_checked_next self.

Definition validate_text (value : rstr) (field : ShippingTextField) (maximum : Z) :
    result rstr ShippingError :=
  check negb (is_blank_or_untrimmed value || existsb is_control value)
    else InvalidText field in
  check negb (maximum <? chars_count value) else TextTooLong field maximum in
  Ok value.

(** [shipping_text_value!] *)
Definition CarrierCode_new (value : rstr) : result rstr ShippingError :=
  validate_text value CarrierCodeField MAX_CARRIER_CODE_LENGTH.
Definition CarrierServiceCode_new (value : rstr) : result rstr ShippingError :=
  validate_text value CarrierServiceCodeField MAX_CARRIER_SERVICE_CODE_LENGTH.
Definition ManifestReference_new (value : rstr) : result rstr ShippingError :=
  validate_text value ManifestReferenceField MAX_MANIFEST_REFERENCE_LENGTH.
Definition TrackingNumber_new (value : rstr) : result rstr ShippingError :=
  validate_text value TrackingNumberField MAX_TRACKING_NUMBER_LENGTH.
Definition ShipmentScanValue_new (value : rstr) : result rstr ShippingError :=
  validate_text value ShipmentScanValueField MAX_SHIPMENT_SCAN_VALUE_LENGTH.

Record ShipmentCartonIdentity := MkCartonIdentity {
  carton_id : Z;
  carton_barcode : rstr;
}.

Record CartonTrackingAssignment := MkTracking {
  tracked_carton_id : Z;
  tracking_number : rstr;
}.

Record ShipmentDepartureTransition := MkDeparture {
  departure_shipment_status : ShipmentStatus;
  departure_order_status : OrderStatus;
}.

(** ** The domain operations *)

(** [xs.iter().map(f).collect::<HashSet<_>>()] *)
Definition collect_set {A K} `{Countable K} (f : A → K) (xs : list A) : gset K :=
  list_to_set (f <$> xs).

Definition validate_carton_set (cartons : list ShipmentCartonIdentity) :
    result unit ShippingError :=
  check negb (bool_decide (cartons = [])) else EmptyShipment in
  if negb (bool_decide (size (collect_set carton_id cartons) = length cartons))
     || negb (bool_decide (size (collect_set carton_barcode cartons) = length cartons))
  then Err DuplicateShipmentCarton
  else Ok tt.

Definition create_shipment (order_status : OrderStatus) (pack_session_status : PackSessionStatus)
    (cartons : list ShipmentCartonIdentity) : result ShipmentStatus ShippingError :=
  check bool_decide (order_status = AwaitingShipment)
    else OrderNotAwaitingShipment order_status in
  check bool_decide (pack_session_status = ReadyToManifest) else PackSessionNotReady in
  let? _ := validate_carton_set cartons in
  Ok AwaitingManifest.

(** The loop over the tracking assignments, with its two sets. *)
Fixpoint assign_loop (carton_ids assigned_carton_ids : gset Z) (tracking_numbers : gset rstr)
    (assignments : list CartonTrackingAssignment) : result (gset Z) ShippingError :=
  match assignments with
  | [] => Ok assigned_carton_ids
  | assignment :: assignments =>
      if negb (bool_decide (tracked_carton_id assignment ∈ carton_ids))
         || bool_decide (tracked_carton_id assignment ∈ assigned_carton_ids)
      then Err TrackingAssignmentSetMismatch
      else if bool_decide (tracking_number assignment ∈ tracking_numbers)
      then Err DuplicateTrackingNumber
      else assign_loop carton_ids ({[tracked_carton_id assignment]} ∪ assigned_carton_ids)
             ({[tracking_number assignment]} ∪ tracking_numbers) assignments
  end.

Definition record_manual_manifest (status : ShipmentStatus)
    (cartons : list ShipmentCartonIdentity) (assignments : list CartonTrackingAssignment) :
    result ShipmentStatus ShippingError :=
  check bool_decide (status = AwaitingManifest) else ShipmentNotAwaitingManifest status in
  let? _ := validate_carton_set cartons in
  check bool_decide (length assignments = length cartons)
    else TrackingAssignmentSetMismatch in
  let carton_ids := collect_set carton_id cartons in
  let? assigned_carton_ids := assign_loop carton_ids ∅ ∅ assignments in
  check bool_decide (assigned_carton_ids = carton_ids) else TrackingAssignmentSetMismatch in
  Ok Manifested.

Definition cancel_shipment (status : ShipmentStatus) : result ShipmentStatus ShippingError :=
  match status with
  | AwaitingManifest | Manifested => Ok ShipmentCancelled
  | _ => Err (ShipmentNotCancellable status)
  end.

Definition confirm_shipment_departure (shipment_status : ShipmentStatus)
    (order_status : OrderStatus) (remaining_cartons : list ShipmentCartonIdentity)
    (scanned_carton_barcodes : list rstr) : result ShipmentDepartureTransition ShippingError :=
  check bool_decide (shipment_status = Manifested)
        || bool_decide (shipment_status = PartiallyDeparted)
    else ShipmentNotManifested shipment_status in
  check bool_decide (order_status = AwaitingShipment)
    else OrderNotAwaitingShipment order_status in
  let? _ := validate_carton_set remaining_cartons in
  if bool_decide (scanned_carton_barcodes = [])
     || bool_decide (length remaining_cartons < length scanned_carton_barcodes)%nat
  then Err DepartureCartonSetMismatch
  else
    let remaining := collect_set carton_barcode remaining_cartons in
    let scanned := collect_set id scanned_carton_barcodes in
    if negb (bool_decide (size scanned = length scanned_carton_barcodes))
       || negb (bool_decide (scanned ⊆ remaining))
    then Err DepartureCartonSetMismatch
    else
      let is_final := bool_decide (size scanned = size remaining) in
      Ok (MkDeparture (if is_final then ShipmentDeparted else PartiallyDeparted)
                      (if is_final then Shipped else AwaitingShipment)).

(** ** The departure handler's rows

    [confirm_departure] reads the cartons of the shipment that no confirmation
    carries yet, validates the scans against them, and updates the shipment and
    the order row under their revisions. The inventory ledger it also writes is
    outside this state: what the handler uses of it is the quantity that the
    validated balances of the selected cartons hold
    ([validate_departure_inventory_tx]), here the argument [inventory_qty]; that
    no document print is active ([require_no_active_document_prints_tx]) and that
    a manifest row exists are the arguments [prints_idle] and [has_manifest]. *)

Record DepartureCarton := MkDepartureCarton {
  shipment_carton_id : Z;
  departure_identity : ShipmentCartonIdentity;
  packed_qty : Z;
}.

Record ShipmentRows := MkShipmentRows {
  shipment_cartons : list DepartureCarton;
  confirmation_cartons : list DepartureCarton;
  shipment_status : ShipmentStatus;
  shipment_revision : Z;
  departed_carton_count : Z;
  departed_qty : Z;
  order_status : OrderStatus;
  order_revision : Z;
}.

Inductive DepartureError :=
| RevisionStale
| DocumentPrintActive
| DepartureInvalid (e : ShippingError)
| ScanNotRemaining
| InventoryChanged
| NoCarrierManifest
| DepartureOverflow.

Definition remaining_departure_cartons (s : ShipmentRows) : list DepartureCarton :=
  filter (fun c => shipment_carton_id c ∉ (shipment_carton_id <$> confirmation_cartons s))
    (shipment_cartons s).

(** [collect::<BTreeMap<_, _>>()]: the last entry of a key wins. *)
Definition selected_by_barcode (remaining : list DepartureCarton) : gmap rstr DepartureCarton :=
  list_to_map (reverse
    ((fun c => (carton_barcode (departure_identity c), c)) <$> remaining)).

Definition select_cartons (remaining : list DepartureCarton) (scanned : list rstr) :
    result (list DepartureCarton) DepartureError :=
  ok_or (mapM (fun barcode => selected_by_barcode remaining !! barcode) scanned)
    ScanNotRemaining.

(** [try_fold(0_i64, checked_add)] *)
Definition checked_total (quantities : list Z) : result Z DepartureError :=
  foldl (fun total q => let? t := total in ok_or (i64_checked_add t q) DepartureOverflow)
    (Ok 0) quantities.

Definition confirm_departure (inventory_qty : list Z → result Z DepartureError)
    (prints_idle has_manifest : bool) (s : ShipmentRows)
    (expected_shipment_revision expected_order_revision : Z)
    (scanned_carton_barcodes : list rstr) : result ShipmentRows DepartureError :=
  check (shipment_revision s =? expected_shipment_revision)
        && (order_revision s =? expected_order_revision) else RevisionStale in
  check prints_idle else DocumentPrintActive in
  let remaining_cartons := remaining_departure_cartons s in
  let? transition := map_err DepartureInvalid
    (confirm_shipment_departure (shipment_status s) (order_status s)
       (departure_identity <$> remaining_cartons) scanned_carton_barcodes) in
  let? selected_cartons := select_cartons remaining_cartons scanned_carton_barcodes in
  let selected_carton_ids := (carton_id ∘ departure_identity) <$> selected_cartons in
  let? shipped_qty := inventory_qty selected_carton_ids in
  let? selected_snapshot_qty := checked_total (packed_qty <$> selected_cartons) in
  check shipped_qty =? selected_snapshot_qty else InventoryChanged in
  check has_manifest else NoCarrierManifest in
  let? next_shipment_revision :=
    ok_or (ShipmentRevision_checked_next (shipment_revision s)) DepartureOverflow in
  let? next_order_revision :=
    ok_or (revision_checked_next (order_revision s)) DepartureOverflow in
  let? scanned_carton_count :=
    ok_or (checked i64_min i64_max (Z.of_nat (length selected_cartons))) DepartureOverflow in
  let? cumulative_departed_carton_count :=
    ok_or (i64_checked_add (departed_carton_count s) scanned_carton_count) DepartureOverflow in
  let? cumulative_departed_quantity :=
    ok_or (i64_checked_add (departed_qty s) shipped_qty) DepartureOverflow in
  Ok (MkShipmentRows (shipment_cartons s) (confirmation_cartons s ++ selected_cartons)
        (departure_shipment_status transition) next_shipment_revision
        cumulative_departed_carton_count cumulative_departed_quantity
        (departure_order_status transition) next_order_revision).

(** One accepted departure request. *)
Inductive departure_step (s : ShipmentRows) : ShipmentRows → Prop :=
| departure_accepted inventory_qty prints_idle has_manifest shipment_rev order_rev scanned s' :
    confirm_departure inventory_qty prints_idle has_manifest s shipment_rev order_rev scanned = Ok s' →
    departure_step s s'.

(** ** Carton sets *)

#[export] Instance ShipmentStatus_name : StoredName ShipmentStatus.
Proof.
  refine {| as_str := ShipmentStatus_as_str; parse := ShipmentStatus_parse |}.
  solve_stored_name.
Defined.

#[export] Instance ShipmentDocumentType_name : StoredName ShipmentDocumentType.
Proof.
  refine {| as_str := ShipmentDocumentType_as_str; parse := ShipmentDocumentType_parse |}.
  solve_stored_name.
Defined.

Lemma size_list_to_set_le {K} `{Countable K} (l : list K) :
  (size (list_to_set l : gset K) ≤ length l)%nat.
Proof.
  induction l as [|x l IH]; cbn; [by rewrite size_empty|].
  rewrite size_union_alt, size_singleton.
  assert (size (list_to_set l ∖ {[x]} : gset K) ≤ size (list_to_set l : gset K))%nat
    by (apply subseteq_size; set_solver). lia.
Qed.

(** A collected set is as large as the list exactly when no key repeats. *)
Lemma collect_set_size {A K} `{Countable K} (f : A → K) (xs : list A) :
  size (collect_set f xs) = length xs ↔ NoDup (f <$> xs).
Proof.
  unfold collect_set. rewrite <-(length_fmap f xs). generalize (f <$> xs) as l. clear f xs.
  induction l as [|x l IH]; [by split; [constructor|]|].
  cbn [list_to_set foldr length]. rewrite NoDup_cons. destruct (decide (x ∈ l)) as [Hx|Hx].
  - rewrite subseteq_union_1_L by set_solver.
    pose proof (size_list_to_set_le l). split; [lia|by intros []].
  - rewrite size_union, size_singleton by set_solver. rewrite <-IH. split; [intros; split; [done|lia]|intros []; lia].
Qed.

Definition carton_set_ok (cartons : list ShipmentCartonIdentity) : Prop :=
  cartons ≠ [] ∧ NoDup (carton_id <$> cartons) ∧ NoDup (carton_barcode <$> cartons).

Lemma validate_carton_set_ok cartons u :
  validate_carton_set cartons = Ok u ↔ carton_set_ok cartons.
Proof.
  destruct u. unfold validate_carton_set, carton_set_ok.
  rewrite <-(collect_set_size carton_id), <-(collect_set_size carton_barcode).
  repeat case_bool_decide; cbn; naive_solver.
Qed.

(** A successful manifest loop has assigned every carton id once, each with a
    tracking number of its own. *)
Lemma assign_loop_ok ids assigned numbers assignments out :
  assign_loop ids assigned numbers assignments = Ok out ↔
  out = list_to_set (tracked_carton_id <$> assignments) ∪ assigned ∧
  NoDup (tracked_carton_id <$> assignments) ∧ NoDup (tracking_number <$> assignments) ∧
  (∀ a, a ∈ assignments → tracked_carton_id a ∈ ids ∧ (tracked_carton_id a ∉ assigned)
                          ∧ (tracking_number a ∉ numbers)).
Proof.
  revert assigned numbers. induction assignments as [|a l IH]; intros assigned numbers; cbn.
  - split.
    + intros [= <-]. split_and!; [set_solver|constructor|constructor|set_solver].
    + intros (-> & _). f_equal. set_solver.
  - rewrite !NoDup_cons.
    case_bool_decide as H1; cbn; [|naive_solver set_solver].
    case_bool_decide as H2; cbn; [naive_solver set_solver|].
    case_bool_decide as H3; cbn; [naive_solver set_solver|].
    rewrite IH. split.
    + intros (-> & Hn & Ht & Hall). split_and!; try done; set_solver.
    + intros (-> & [? ?] & [? ?] & Hall). split_and!; [set_solver|done|done|].
      intros b Hb. destruct (Hall b) as (? & ? & ?); [set_solver|].
      split_and!; [done| |]; set_solver.
Qed.

(** A manual manifest is accepted exactly when the shipment awaits one, its
    cartons are a non-empty set with distinct ids and barcodes, and the tracking
    assignments give every carton of the shipment exactly one tracking number
    and no number to two cartons; it then moves the shipment to Manifested. *)
Theorem manifest_accepted_iff status cartons assignments status' :
  record_manual_manifest status cartons assignments = Ok status' ↔
  status = AwaitingManifest ∧ status' = Manifested ∧ carton_set_ok cartons ∧
  tracked_carton_id <$> assignments ≡ₚ carton_id <$> cartons ∧
  NoDup (tracking_number <$> assignments).
Proof.
  unfold record_manual_manifest. case_bool_decide; [|naive_solver]. split.
  - intros H0. apply rbind_ok in H0 as (u & Hset%validate_carton_set_ok & H0).
    case_bool_decide as Hlen; [|done]. apply rbind_ok in H0 as (out & Hloop & H0).
    apply assign_loop_ok in Hloop as (-> & Hn & Ht & Hin).
    run H0. split_and!; try done.
    apply NoDup_Permutation; [done|by apply Hset|].
    intros x. unfold collect_set in *. set_solver.
  - intros (_ & -> & Hset & Hperm & Ht).
    rewrite (proj2 (validate_carton_set_ok cartons tt) Hset). cbn [rbind].
    pose proof (Permutation_length Hperm) as Hlen. rewrite !length_fmap in Hlen.
    rewrite bool_decide_true by done.
    erewrite (proj2 (assign_loop_ok _ _ _ _ _)).
    2: { split_and!; [reflexivity| |done|].
      - rewrite Hperm. apply Hset.
      - intros a Ha. unfold collect_set. rewrite elem_of_list_to_set, <-Hperm. set_solver. }
    cbn [rbind]. rewrite bool_decide_true; [done|].
    unfold collect_set. rewrite Hperm. set_solver.
Qed.

Definition scans_accepted (remaining : list ShipmentCartonIdentity) (scanned : list rstr) : Prop :=
  scanned ≠ [] ∧ NoDup scanned ∧ scanned ⊆ (carton_barcode <$> remaining).

Lemma confirm_shipment_departure_ok st order remaining scanned t :
  confirm_shipment_departure st order remaining scanned = Ok t ↔
  (st = Manifested ∨ st = PartiallyDeparted) ∧ order = AwaitingShipment ∧
  carton_set_ok remaining ∧ scans_accepted remaining scanned ∧
  t = (if decide (length scanned = length remaining)
       then MkDeparture ShipmentDeparted Shipped
       else MkDeparture PartiallyDeparted AwaitingShipment).
Proof.
  unfold confirm_shipment_departure, scans_accepted.
  destruct (decide (st = Manifested ∨ st = PartiallyDeparted)) as [Hst|Hst].
  2: { rewrite !bool_decide_false by tauto. cbn. naive_solver. }
  rewrite <-bool_decide_or, bool_decide_true by done.
  case_bool_decide as Ho; [|naive_solver].
  destruct (validate_carton_set remaining) as [u|e] eqn:Hset; cbn [rbind].
  2: { split; [done|]. intros (_ & _ & Hok & _). exfalso.
       by rewrite (proj2 (validate_carton_set_ok remaining tt) Hok) in Hset. }
  apply validate_carton_set_ok in Hset as Hset'. destruct Hset' as (Hne & Hi & Hb).
  assert (Hrem : size (collect_set carton_barcode remaining) = length remaining)
    by by apply collect_set_size.
  assert (Hsub : collect_set id scanned ⊆ collect_set carton_barcode remaining ↔
                 scanned ⊆ carton_barcode <$> remaining)
    by (unfold collect_set; rewrite list_fmap_id; set_solver).
  assert (Hsize := collect_set_size id scanned). rewrite list_fmap_id in Hsize.
  rewrite <-Hsize, <-Hsub, Hrem.
  assert (Hle : collect_set id scanned ⊆ collect_set carton_barcode remaining →
    (size (collect_set id scanned) ≤ length remaining)%nat)
    by (rewrite <-Hrem; apply subseteq_size).
  assert (Hval : carton_set_ok remaining) by done.
  repeat case_bool_decide; cbn; case_decide; split; intros; destruct_and?; simplify_eq;
    try done; try lia; try (exfalso; lia); try naive_solver lia.
Qed.

(** ** Selecting the scanned cartons *)

Abbreviation barcode_of := (fun c : DepartureCarton => carton_barcode (departure_identity c)).

Lemma selected_by_barcode_Some remaining b c :
  selected_by_barcode remaining !! b = Some c → c ∈ remaining ∧ barcode_of c = b.
Proof.
  unfold selected_by_barcode. intros H%elem_of_list_to_map_2.
  rewrite elem_of_reverse, list_elem_of_fmap in H. naive_solver.
Qed.

Lemma selected_by_barcode_is_Some remaining c :
  NoDup (barcode_of <$> remaining) → c ∈ remaining →
  selected_by_barcode remaining !! barcode_of c = Some c.
Proof.
  intros Hn Hc. apply elem_of_list_to_map_1.
  - by rewrite fmap_reverse, reverse_Permutation, <-list_fmap_compose.
  - rewrite elem_of_reverse. by apply (list_elem_of_fmap_2 (fun c => (barcode_of c, c))).
Qed.

Lemma select_cartons_ok remaining scanned selected :
  select_cartons remaining scanned = Ok selected →
  barcode_of <$> selected = scanned ∧ selected ⊆ remaining.
Proof.
  unfold select_cartons. destruct (mapM _ _) as [l|] eqn:H; cbn; [|done]. intros [= <-].
  apply mapM_Some_1 in H. induction H as [|b c scanned l Hb H [IH1 IH2]]; [split; [done|set_solver]|].
  apply selected_by_barcode_Some in Hb as [? <-]. cbn. split; [by f_equal|set_solver].
Qed.

(** Scanning the remaining cartons themselves selects them. *)
Lemma select_cartons_all remaining :
  NoDup (barcode_of <$> remaining) →
  select_cartons remaining (barcode_of <$> remaining) = Ok remaining.
Proof.
  intros Hn. unfold select_cartons. rewrite (mapM_Some_2 _ _ remaining); [done|].
  apply Forall2_fmap_l, Forall_Forall2_diag, Forall_forall.
  intros c Hc. by apply selected_by_barcode_is_Some.
Qed.

Lemma checked_total_ok qs t : checked_total qs = Ok t → t = zsum qs.
Proof.
  assert (Hgen : ∀ qs r t, foldl (fun total q =>
      let? t := total in ok_or (i64_checked_add t q) DepartureOverflow) r qs = Ok t →
      ∃ t0, r = Ok t0 ∧ t = t0 + zsum qs).
  { clear. induction qs as [|q qs IH]; cbn [foldl]; intros r t H;
      [exists t; split; [done|cbn; lia]|].
    apply IH in H as (t1 & H & ->). apply rbind_ok in H as (t0 & -> & H).
    exists t0. split; [done|]. unfold i64_checked_add in H.
    destruct (checked _ _ _) eqn:E; [|done]. apply checked_Some in E as [-> _].
    cbn in H. simplify_eq. rewrite zsum_cons. lia. }
  intros (t0 & [= <-] & ->)%Hgen. lia.
Qed.

Lemma checked_total_succeeds qs :
  Forall (fun q => 0 ≤ q) qs → zsum qs ≤ i64_max → checked_total qs = Ok (zsum qs).
Proof.
  intros Hq Hs. unfold checked_total.
  assert (Hgen : ∀ qs a, Forall (fun q => 0 ≤ q) qs → 0 ≤ a → a + zsum qs ≤ i64_max →
    foldl (fun total q => let? t := total in ok_or (i64_checked_add t q) DepartureOverflow)
      (Ok a) qs = Ok (a + zsum qs)).
  { clear. intros qs a Hq. revert a. induction Hq as [|q qs Hq0 Hq IH]; cbn [foldl]; intros a Ha Hs.
    - f_equal. cbn. lia.
    - rewrite zsum_cons in *. pose proof (zsum_nonneg _ Hq).
      cbn [rbind]. unfold i64_checked_add. rewrite checked_in by range_lia.
      cbn [ok_or]. rewrite IH by lia. f_equal. lia. }
  rewrite Hgen; [done..|]. lia.
Qed.

(** ** The invariant of a departing shipment *)

Definition departure_phase_ok (s : ShipmentRows) : Prop :=
  match shipment_status s with
  | Manifested => order_status s = AwaitingShipment ∧ confirmation_cartons s = []
  | PartiallyDeparted =>
      order_status s = AwaitingShipment ∧ confirmation_cartons s ≠ [] ∧
      remaining_departure_cartons s ≠ []
  | ShipmentDeparted => order_status s = Shipped ∧ remaining_departure_cartons s = []
  | _ => False
  end.

Record rows_ok (s : ShipmentRows) : Prop := {
  rows_identities : carton_set_ok (departure_identity <$> shipment_cartons s);
  rows_ids : NoDup (shipment_carton_id <$> shipment_cartons s);
  rows_confirmed_once : NoDup (shipment_carton_id <$> confirmation_cartons s);
  rows_confirmed : confirmation_cartons s ⊆ shipment_cartons s;
  rows_count : departed_carton_count s = Z.of_nat (length (confirmation_cartons s));
  rows_qty : departed_qty s = zsum (packed_qty <$> confirmation_cartons s);
  rows_phase : departure_phase_ok s;
}.

(** A manifested shipment before its first departure. *)
Definition freshly_manifested (s : ShipmentRows) : Prop :=
  carton_set_ok (departure_identity <$> shipment_cartons s) ∧
  NoDup (shipment_carton_id <$> shipment_cartons s) ∧ confirmation_cartons s = [] ∧
  shipment_status s = Manifested ∧ order_status s = AwaitingShipment ∧
  departed_carton_count s = 0 ∧ departed_qty s = 0.

Lemma fresh_rows_ok s : freshly_manifested s → rows_ok s.
Proof.
  intros (Hset & Hid & Hc & Hst & Ho & Hn & Hq). split; try done.
  - rewrite Hc. constructor.
  - rewrite Hc. set_solver.
  - by rewrite Hc, Hn.
  - by rewrite Hc, Hq.
  - unfold departure_phase_ok. by rewrite Hst.
Qed.

(** Departed and remaining cartons partition the shipment. *)
Lemma cartons_partition s :
  NoDup (shipment_carton_id <$> shipment_cartons s) →
  NoDup (shipment_carton_id <$> confirmation_cartons s) →
  confirmation_cartons s ⊆ shipment_cartons s →
  shipment_cartons s ≡ₚ confirmation_cartons s ++ remaining_departure_cartons s.
Proof.
  intros Hid Honce Hsub. unfold remaining_departure_cartons.
  apply NoDup_fmap_1 in Hid as Hc. apply NoDup_fmap_1 in Honce as Hd.
  apply NoDup_Permutation; [done| |].
  - apply NoDup_app. split_and!; [done| |by apply NoDup_filter].
    intros c Hc1 Hc2%list_elem_of_filter. by destruct Hc2 as [[] _]; apply list_elem_of_fmap_2.
  - intros c. rewrite elem_of_app, list_elem_of_filter. split; [|naive_solver].
    intros Hin. destruct (decide (shipment_carton_id c ∈
      shipment_carton_id <$> confirmation_cartons s)) as [Hx|Hx]; [left|by right].
    apply list_elem_of_fmap in Hx as (d & Ed & Hd').
    by rewrite (NoDup_fmap_inj_on shipment_carton_id (shipment_cartons s) c d);
      [|done|done|apply Hsub|].
Qed.

(** What one accepted request does to the rows. *)
Lemma confirm_departure_inv inventory_qty idle manifest s srev orev scanned s' :
  confirm_departure inventory_qty idle manifest s srev orev scanned = Ok s' →
  ∃ selected,
    carton_set_ok (departure_identity <$> remaining_departure_cartons s) ∧
    scanned ≠ [] ∧ NoDup scanned ∧ barcode_of <$> selected = scanned ∧
    selected ⊆ remaining_departure_cartons s ∧
    shipment_cartons s' = shipment_cartons s ∧
    confirmation_cartons s' = confirmation_cartons s ++ selected ∧
    departed_carton_count s' = departed_carton_count s + Z.of_nat (length selected) ∧
    departed_qty s' = departed_qty s + zsum (packed_qty <$> selected) ∧
    shipment_revision s' = shipment_revision s + 1 ∧ order_revision s' = order_revision s + 1 ∧
    (if decide (length selected = length (remaining_departure_cartons s))
     then shipment_status s' = ShipmentDeparted ∧ order_status s' = Shipped
     else shipment_status s' = PartiallyDeparted ∧ order_status s' = AwaitingShipment).
Proof.
  intros H. unfold confirm_departure in H.
  destruct (_ && _); [|done]. destruct idle; [|done].
  apply rbind_ok in H as (t & Ht & H). unfold map_err in Ht.
  destruct (confirm_shipment_departure _ _ _ _) as [t'|] eqn:Hconf; [|done].
  injection Ht as ->. apply confirm_shipment_departure_ok in Hconf
    as (_ & _ & Hset & (Hne & Hnd & _) & ->).
  apply rbind_ok in H as (selected & Hsel & H).
  apply select_cartons_ok in Hsel as [Hbar Hsub].
  apply rbind_ok in H as (q & _ & H). apply rbind_ok in H as (q' & Hq' & H).
  apply checked_total_ok in Hq' as ->.
  unfold ShipmentRevision_checked_next, revision_checked_next, i64_checked_add in H.
  run H; repeat match goal with
  | E : checked _ _ _ = Some _ |- _ => apply checked_Some in E as [-> _] end.
  all: match goal with E : decide _ = _ |- _ => clear E end.
  all: match goal with E : context [length _] |- _ => rewrite !length_fmap in E end.
  all: exists selected; cbn; subst q; split_and!; try done; by case_decide.
Qed.

Lemma remaining_sub s : remaining_departure_cartons s ⊆ shipment_cartons s.
Proof. intros c. unfold remaining_departure_cartons. by intros [_ ?]%list_elem_of_filter. Qed.

(** The cartons a request selects are new, and the rest stays remaining. *)
Lemma selected_disjoint s c :
  c ∈ remaining_departure_cartons s →
  shipment_carton_id c ∉ shipment_carton_id <$> confirmation_cartons s.
Proof. unfold remaining_departure_cartons. by intros [? _]%list_elem_of_filter. Qed.

Lemma departure_step_inv s s' :
  rows_ok s → departure_step s s' →
  rows_ok s' ∧ shipment_revision s' = shipment_revision s + 1 ∧
  order_revision s' = order_revision s + 1.
Proof.
  intros Hok Hstep. destruct Hstep as [iq idle mf srev orev scanned s1 H].
  apply confirm_departure_inv in H as (sel & Hset & Hne & Hnd & Hbar & Hsub & Hc & Hd &
    Hn & Hq & Hrev & Horev & Hphase).
  split; [|done]. pose proof Hok as [Hids Hsid Honce Hconf Hcount Hqty _].
  assert (Hsel : sel ≠ []) by (intros ->; by subst).
  assert (Hseln : NoDup (shipment_carton_id <$> sel)).
  { rewrite <-Hbar in Hnd. apply NoDup_fmap_1 in Hnd.
    apply NoDup_fmap_2_strong; [|done]. intros x y Hx Hy.
    apply (NoDup_fmap_inj_on _ (shipment_cartons s)); [done|..];
      by apply remaining_sub, Hsub. }
  assert (Hid' : NoDup (shipment_carton_id <$> shipment_cartons s1)) by by rewrite Hc.
  assert (Honce' : NoDup (shipment_carton_id <$> confirmation_cartons s1)).
  { rewrite Hd, fmap_app. apply NoDup_app. split_and!; [done| |done].
    intros i Hi (c & -> & Hx)%list_elem_of_fmap. by apply (selected_disjoint s c); [apply Hsub|]. }
  assert (Hconf' : confirmation_cartons s1 ⊆ shipment_cartons s1).
  { rewrite Hc, Hd. intros c [Hx|Hx]%elem_of_app; [by apply Hconf|].
    by apply remaining_sub, Hsub. }
  split; [by rewrite Hc|done|done|done|..].
  - rewrite Hn, Hd, Hcount, length_app. lia.
  - rewrite Hq, Hd, Hqty, fmap_app, zsum_app. lia.
  - assert (Hlen : length (remaining_departure_cartons s) =
      (length sel + length (remaining_departure_cartons s1))%nat).
    { pose proof (cartons_partition s Hsid Honce Hconf) as H1%Permutation_length.
      assert (H2 : length (shipment_cartons s1) = length (confirmation_cartons s1 ++
        remaining_departure_cartons s1)) by (by apply Permutation_length, cartons_partition).
      rewrite Hc, Hd in H2. rewrite !length_app in *. lia. }
    unfold departure_phase_ok. case_decide; destruct Hphase as [-> ->]; split_and!; try done.
    + apply nil_length_inv. lia.
    + rewrite Hd. by intros [_ ?]%app_nil.
    + intros E. rewrite E in Hlen. cbn in Hlen. lia.
Qed.

Lemma departure_steps_inv n s s' :
  nsteps departure_step n s s' → rows_ok s →
  rows_ok s' ∧ shipment_revision s' = shipment_revision s + Z.of_nat n ∧
  order_revision s' = order_revision s + Z.of_nat n.
Proof.
  induction 1 as [|n s s1 s2 Hstep _ IH]; intros Hok; [split_and!; [done|lia|lia]|].
  destruct (departure_step_inv _ _ Hok Hstep) as (Hok1 & ? & ?).
  destruct (IH Hok1) as (? & ? & ?). split_and!; [done|lia|lia].
Qed.

(** C36. However a manifested shipment departs, in any number of accepted
    requests, every carton departs at most once: the confirmed and the remaining
    cartons always partition the shipment, the cumulative carton count and
    quantity are those of the confirmed cartons, the shipment is Departed (and
    its order Shipped) exactly when no carton remains and otherwise the order
    still awaits shipment, and each request advances both revisions by one. *)
Theorem departures_partition n s s' :
  freshly_manifested s → nsteps departure_step n s s' →
  shipment_cartons s ≡ₚ confirmation_cartons s' ++ remaining_departure_cartons s' ∧
  departed_carton_count s' = Z.of_nat (length (confirmation_cartons s')) ∧
  departed_qty s' = zsum (packed_qty <$> confirmation_cartons s') ∧
  (shipment_status s' = ShipmentDeparted ↔ remaining_departure_cartons s' = []) ∧
  (order_status s' = Shipped ↔ remaining_departure_cartons s' = []) ∧
  (order_status s' = AwaitingShipment ↔ remaining_departure_cartons s' ≠ []) ∧
  shipment_revision s' = shipment_revision s + Z.of_nat n ∧
  order_revision s' = order_revision s + Z.of_nat n.
Proof.
  intros Hf Hn. apply fresh_rows_ok in Hf as Hok.
  destruct (departure_steps_inv _ _ _ Hn Hok) as ([Hset Hid Honce Hsub Hc Hq Hph] & Hr & Ho).
  assert (Hsame : shipment_cartons s' = shipment_cartons s).
  { clear -Hn. induction Hn as [|n s s1 s2 Hstep _ ->]; [done|].
    destruct Hstep as [iq idle mf srev orev scanned s1 H]. by apply confirm_departure_inv in H as
      (? & _ & _ & _ & _ & _ & ? & _). }
  assert (Hall : confirmation_cartons s' = [] → remaining_departure_cartons s' ≠ []).
  { intros E1 E2. pose proof (cartons_partition s' Hid Honce Hsub) as Hp.
    rewrite E1, E2 in Hp. apply Permutation_nil_r in Hp. destruct Hset as [[] _].
    by rewrite Hp. }
  rewrite <-Hsame. split; [by apply cartons_partition|].
  split_and!; try done; clear -Hph Hall; unfold departure_phase_ok in Hph;
    destruct (shipment_status s'); try done; destruct_and!;
    split; intros; first [congruence | by apply Hall | tauto].
Qed.

Lemma barcodes_of_identities (l : list DepartureCarton) :
  barcode_of <$> l = carton_barcode <$> (departure_identity <$> l).
Proof. exact (list_fmap_compose departure_identity carton_barcode l). Qed.

Lemma remaining_identities s :
  rows_ok s → remaining_departure_cartons s ≠ [] →
  carton_set_ok (departure_identity <$> remaining_departure_cartons s).
Proof.
  intros [(_ & Hi & Hb) Hid Honce Hsub _ _ _] Hrem.
  rewrite (cartons_partition s Hid Honce Hsub) in Hi, Hb.
  rewrite !fmap_app in Hi. rewrite !fmap_app in Hb. apply NoDup_app in Hi, Hb.
  split_and!; [by destruct (remaining_departure_cartons s)|apply Hi|apply Hb].
Qed.

(** Scanning all that remains is the final departure. *)
Lemma final_scan s :
  rows_ok s → remaining_departure_cartons s ≠ [] →
  confirm_shipment_departure (shipment_status s) (order_status s)
    (departure_identity <$> remaining_departure_cartons s)
    (barcode_of <$> remaining_departure_cartons s) = Ok (MkDeparture ShipmentDeparted Shipped).
Proof.
  intros Hok Hrem. pose proof (remaining_identities s Hok Hrem) as Hident.
  pose proof (rows_phase s Hok) as Hph. unfold departure_phase_ok in Hph.
  apply confirm_shipment_departure_ok. split_and!; [| |done| |].
  - destruct (shipment_status s); naive_solver.
  - destruct (shipment_status s); naive_solver.
  - split_and!; [by destruct (remaining_departure_cartons s)| |].
    + rewrite barcodes_of_identities. apply Hident.
    + by rewrite barcodes_of_identities.
  - by rewrite decide_True by (by rewrite !length_fmap).
Qed.

(** A shipment can always finish departing: from any state reached by
    accepted departures where cartons remain, one request that scans every
    remaining barcode under the current revisions is accepted and leaves the
    shipment Departed, its order Shipped and every packed quantity counted,
    provided that no document is printing, a manifest exists, the inventory of the remaining
    cartons holds what was packed and the totals fit 64-bit integers. *)
Theorem departure_completes s inventory_qty :
  rows_ok s → remaining_departure_cartons s ≠ [] →
  inventory_qty ((carton_id ∘ departure_identity) <$> remaining_departure_cartons s) =
    Ok (zsum (packed_qty <$> remaining_departure_cartons s)) →
  Forall (fun c => 0 ≤ packed_qty c) (shipment_cartons s) →
  zsum (packed_qty <$> shipment_cartons s) ≤ i64_max →
  Z.of_nat (length (shipment_cartons s)) ≤ i64_max →
  0 < shipment_revision s < i64_max → 0 < order_revision s < i64_max →
  ∃ s', confirm_departure inventory_qty true true s (shipment_revision s) (order_revision s)
          (barcode_of <$> remaining_departure_cartons s) = Ok s' ∧
        shipment_status s' = ShipmentDeparted ∧ order_status s' = Shipped ∧
        departed_qty s' = zsum (packed_qty <$> shipment_cartons s).
Proof.
  intros Hok Hrem Hinv Hpos Hsum Hlen Hsr Hor.
  pose proof Hok as [Hset Hid Honce Hsub Hcount Hqty Hph].
  pose proof (cartons_partition s Hid Honce Hsub) as Hp.
  pose proof (Permutation_length Hp) as Hpl. rewrite length_app in Hpl.
  assert (Hps : zsum (packed_qty <$> shipment_cartons s) =
    departed_qty s + zsum (packed_qty <$> remaining_departure_cartons s))
    by (by rewrite Hp, fmap_app, zsum_app, Hqty).
  assert (Hnn : Forall (fun q => 0 ≤ q) (packed_qty <$> remaining_departure_cartons s) ∧
                0 ≤ departed_qty s).
  { rewrite Hp, Forall_app in Hpos. destruct Hpos as [Hp1 Hp2].
    split; [by apply Forall_fmap|]. rewrite Hqty. apply zsum_nonneg. by apply Forall_fmap. }
  pose proof (remaining_identities s Hok Hrem) as Hident.
  eexists. split; [|split_and!].
  - unfold confirm_departure. rewrite !Z.eqb_refl. cbn [andb]. rewrite final_scan by done.
    cbn [map_err rbind]. rewrite select_cartons_all; cbn [rbind].
    2: { rewrite barcodes_of_identities. apply Hident. }
    rewrite Hinv. cbn [rbind]. destruct Hnn as [Hnn ?].
    pose proof (zsum_nonneg _ Hnn). rewrite checked_total_succeeds by (done || lia).
    cbn [rbind]. rewrite Z.eqb_refl.
    unfold ShipmentRevision_checked_next, revision_checked_next, i64_checked_add.
    rewrite !checked_in by (rewrite ?Hcount in *; range_lia). cbn [rbind ok_or].
    rewrite !checked_in by range_lia. reflexivity.
  - done.
  - done.
  - cbn. lia.
Qed.

(** ** Witnesses *)

Definition sample_cartons : list DepartureCarton :=
  [MkDepartureCarton 1 (MkCartonIdentity 11 (lit "C-1")) 4;
   MkDepartureCarton 2 (MkCartonIdentity 12 (lit "C-2")) 6].

Definition sample_rows : ShipmentRows :=
  MkShipmentRows sample_cartons [] Manifested 2 0 0 AwaitingShipment 7.

Definition sample_rows_partial : ShipmentRows :=
  MkShipmentRows sample_cartons [MkDepartureCarton 2 (MkCartonIdentity 12 (lit "C-2")) 6]
    PartiallyDeparted 3 1 6 AwaitingShipment 8.

Lemma sample_rows_fresh : freshly_manifested sample_rows.
Proof.
  unfold freshly_manifested, carton_set_ok. split_and!; try done;
    apply (bool_decide_unpack _); vm_compute; exact I.
Qed.

Lemma departures_partition_witness :
  departed_qty sample_rows_partial =
  zsum (packed_qty <$> confirmation_cartons sample_rows_partial) ∧
  shipment_revision sample_rows_partial = shipment_revision sample_rows + 1.
Proof.
  destruct (departures_partition 1 sample_rows sample_rows_partial sample_rows_fresh)
    as (_ & _ & H & _ & _ & _ & Hr & _).
  - apply nsteps_once.
    apply (departure_accepted _ (fun _ => Ok 6) true true 2 7 [lit "C-2"]). vm_compute. reflexivity.
  - exact (conj H Hr).
Defined.

Lemma departure_completes_witness :
  ∃ s', confirm_departure (fun _ => Ok 10) true true sample_rows 2 7 [lit "C-1"; lit "C-2"] = Ok s' ∧
        shipment_status s' = ShipmentDeparted ∧ order_status s' = Shipped ∧
        departed_qty s' = 10.
Proof.
  apply (departure_completes sample_rows (fun _ => Ok 10)).
  - apply fresh_rows_ok, sample_rows_fresh.
  - discriminate.
  - reflexivity.
  - repeat constructor; cbn; lia.
  - vm_compute. discriminate.
  - vm_compute. discriminate.
  - split; reflexivity.
  - split; reflexivity.
Defined.
