(* ===== verification/Gf256.v ===== *)
(** * The field of the QR error correction ([crates/barcodes/src/lib.rs])

    [gf_multiply], the Russian-peasant product of GF(2^8) modulo 0x11D, on
    bytes kept as [Z] in 0..255, and the laws that make it a commutative ring
    without zero divisors together with [xor]. *)

From S2P Require Import Prelude.

Definition is_byte (z : Z) : Prop := 0 ≤ z < 256.

(** [x <<= 1; if carry { x ^= 0x1D }] on a [u8]. *)
Definition gf_double (x : Z) : Z :=
  let carry := negb (Z.land x 128 =? 0) in
  let x := Z.land (Z.shiftl x 1) 255 in
  if carry then Z.lxor x 29 else x.

(** The loop [while y != 0]; [y] is a [u8] and is halved on every turn, so
    eight turns are enough ([gf_loop_fuel]). *)
Fixpoint gf_loop (fuel : nat) (x y z : Z) : Z :=
  match fuel with
  | O => z
  | S fuel =>
      if y =? 0 then z
      else gf_loop fuel (gf_double x) (Z.shiftr y 1)
             (if negb (Z.land y 1 =? 0) then Z.lxor z x else z)
  end.

Definition gf_multiply (x y : Z) : Z := gf_loop 8 x y 0.
#[global] Arguments gf_multiply : simpl never.

Declare Scope gf_scope.
Delimit Scope gf_scope with gf.
Infix "⊕" := Z.lxor (at level 50, left associativity) : gf_scope.
Infix "⊗" := gf_multiply (at level 40, left associativity) : gf_scope.
#[local] Open Scope gf_scope.

(** ** Checking all bytes *)

Definition all_bytes : list Z := seqZ 0 256.
Definition byte_basis : list Z := [1; 2; 4; 8; 16; 32; 64; 128].

Lemma elem_of_all_bytes x : x ∈ all_bytes ↔ is_byte x.
Proof. unfold all_bytes, is_byte. rewrite elem_of_seqZ. lia. Qed.

Lemma all_bytes_forallb (f : Z → bool) :
  forallb f all_bytes = true → ∀ x, is_byte x → f x = true.
Proof. intros H x Hx. rewrite forallb_forall in H. by apply H, list_elem_of_In, elem_of_all_bytes. Qed.

Lemma is_byte_lxor a b : is_byte a → is_byte b → is_byte (a ⊕ b).
Proof.
  unfold is_byte. intros Ha Hb. split; [apply Z.lxor_nonneg; lia|].
  destruct (Z.eq_dec (a ⊕ b) 0) as [->|Hne]; [lia|].
  assert (Hab : 0 < a ⊕ b) by (assert (0 ≤ a ⊕ b) by (apply Z.lxor_nonneg; lia); lia).
  apply (Z.log2_lt_cancel _ 256). eapply Z.le_lt_trans; [apply Z.log2_lxor; lia|].
  change (Z.log2 256) with 8.
  assert (Hl : ∀ c, 0 ≤ c < 256 → Z.log2 c < 8).
  { intros c Hc. destruct (Z.eq_dec c 0) as [->|]; [done|]. apply Z.log2_lt_pow2; lia. }
  apply Z.max_lub_lt; by apply Hl.
Qed.
#[export] Hint Resolve is_byte_lxor : rust.

(** The bits of a byte, as the basis vectors it is the sum of. *)
Definition byte_terms (x : Z) : list Z :=
  filter (fun b => Z.land x b ≠ 0) byte_basis.

Lemma byte_terms_sum x : is_byte x → foldr Z.lxor 0 (byte_terms x) = x.
Proof.
  intros Hx. apply Z.eqb_eq. revert x Hx. apply all_bytes_forallb. vm_compute. reflexivity.
Qed.

Lemma byte_terms_basis x : Forall (fun b => b ∈ byte_basis) (byte_terms x).
Proof. apply Forall_forall. intros b [_ ?]%list_elem_of_filter. done. Qed.

(** A property of bytes that holds of zero and of the basis and is closed under
    [xor] holds of every byte. *)
Lemma byte_linear_ind (P : Z → Prop) :
  P 0 → Forall P byte_basis → (∀ a b, is_byte a → is_byte b → P a → P b → P (a ⊕ b)) →
  ∀ x, is_byte x → P x.
Proof.
  intros H0 Hb Hx x Hbyte. rewrite <-(byte_terms_sum x Hbyte).
  assert (H : is_byte (foldr Z.lxor 0 (byte_terms x)) ∧ P (foldr Z.lxor 0 (byte_terms x)));
    [|apply H].
  pose proof (byte_terms_basis x) as Ht. induction Ht as [|b l Hin _ [IHb IH]]; cbn.
  - split; [unfold is_byte; lia|done].
  - assert (is_byte b) by (unfold byte_basis in Hin; unfold is_byte; set_unfold; lia).
    split; [by apply is_byte_lxor|]. apply Hx; try done. by apply (proj1 (Forall_forall _ _) Hb).
Qed.

(** ** The laws *)

Lemma all_byte_pairs (f : Z → Z → bool) :
  forallb (fun x => forallb (f x) all_bytes) all_bytes = true →
  ∀ x y, is_byte x → is_byte y → f x y = true.
Proof.
  intros H x y Hx Hy. apply all_bytes_forallb; [|done].
  exact (all_bytes_forallb (fun x => forallb (f x) all_bytes) H x Hx).
Qed.

Lemma is_byte_gf_double x : is_byte x → is_byte (gf_double x).
Proof.
  intros Hx. unfold is_byte.
  assert (H : (0 <=? gf_double x) && (gf_double x <? 256) = true); [|bool_to_prop; lia].
  revert x Hx. apply all_bytes_forallb. vm_compute. reflexivity.
Qed.

Lemma gf_double_lxor a b : is_byte a → is_byte b → gf_double (a ⊕ b) = gf_double a ⊕ gf_double b.
Proof.
  intros Ha Hb. apply Z.eqb_eq. revert a b Ha Hb. apply all_byte_pairs. vm_compute. reflexivity.
Qed.

Lemma lxor_swap a b c d : (a ⊕ b) ⊕ (c ⊕ d) = (a ⊕ c) ⊕ (b ⊕ d).
Proof. rewrite !Z.lxor_assoc, <-(Z.lxor_assoc b c d), (Z.lxor_comm b c). by rewrite Z.lxor_assoc. Qed.

Lemma gf_loop_lxor n a b y z w :
  is_byte a → is_byte b → gf_loop n (a ⊕ b) y (z ⊕ w) = gf_loop n a y z ⊕ gf_loop n b y w.
Proof.
  revert a b y z w. induction n as [|n IH]; intros a b y z w Ha Hb; cbn [gf_loop]; [done|].
  destruct (y =? 0); [done|]. rewrite gf_double_lxor by done.
  destruct (negb _); [rewrite lxor_swap|]; apply IH; by apply is_byte_gf_double.
Qed.

Lemma gf_multiply_lxor_l a b y :
  is_byte a → is_byte b → (a ⊕ b) ⊗ y = a ⊗ y ⊕ b ⊗ y.
Proof. intros. unfold gf_multiply. by rewrite <-gf_loop_lxor. Qed.

Lemma gf_multiply_comm x y : is_byte x → is_byte y → x ⊗ y = y ⊗ x.
Proof.
  intros Hx Hy. apply Z.eqb_eq. revert x y Hx Hy. apply all_byte_pairs. vm_compute. reflexivity.
Qed.

Lemma gf_multiply_byte x y : is_byte x → is_byte y → is_byte (x ⊗ y).
Proof.
  intros Hx Hy. unfold is_byte.
  assert (H : (0 <=? x ⊗ y) && (x ⊗ y <? 256) = true); [|bool_to_prop; lia].
  revert x y Hx Hy. apply (all_byte_pairs (fun x y => (0 <=? x ⊗ y) && (x ⊗ y <? 256))).
  vm_compute. reflexivity.
Qed.
#[export] Hint Resolve gf_multiply_byte is_byte_gf_double : rust.

Lemma gf_multiply_lxor_r a x y :
  is_byte a → is_byte x → is_byte y → a ⊗ (x ⊕ y) = a ⊗ x ⊕ a ⊗ y.
Proof.
  intros Ha Hx Hy. rewrite (gf_multiply_comm a), (gf_multiply_comm a x),
    (gf_multiply_comm a y) by auto using is_byte_lxor.
  by apply gf_multiply_lxor_l.
Qed.

Lemma gf_multiply_0_l y : 0 ⊗ y = 0.
Proof.
  unfold gf_multiply. generalize 8%nat as n. intros n. revert y.
  induction n as [|n IH]; intros y; cbn [gf_loop]; [done|]. destruct (y =? 0); [done|].
  change (gf_double 0) with 0. destruct (negb _); apply IH.
Qed.

Lemma gf_multiply_0_r x : x ⊗ 0 = 0.
Proof. done. Qed.

Lemma gf_multiply_1_l x : is_byte x → 1 ⊗ x = x.
Proof.
  intros Hx. apply Z.eqb_eq. revert x Hx. apply all_bytes_forallb. vm_compute. reflexivity.
Qed.

Lemma gf_multiply_1_r x : is_byte x → x ⊗ 1 = x.
Proof. intros. rewrite gf_multiply_comm by (done || unfold is_byte; lia). by apply gf_multiply_1_l. Qed.

Lemma gf_multiply_assoc_basis :
  forallb (fun a => forallb (fun b => forallb (fun c => (a ⊗ b) ⊗ c =? a ⊗ (b ⊗ c))
    byte_basis) byte_basis) byte_basis = true.
Proof. vm_compute. reflexivity. Qed.

Lemma gf_multiply_assoc a b c :
  is_byte a → is_byte b → is_byte c → (a ⊗ b) ⊗ c = a ⊗ (b ⊗ c).
Proof.
  intros Ha Hb Hc. revert a Ha. apply byte_linear_ind; [by rewrite !gf_multiply_0_l| |].
  2: { intros a a' Ha Ha' E E'. rewrite !gf_multiply_lxor_l by auto with rust. congruence. }
  apply Forall_forall. intros a Ha. assert (Ba : is_byte a)
    by (unfold byte_basis in Ha; unfold is_byte; set_unfold; lia).
  revert b Hb. apply byte_linear_ind; [by rewrite gf_multiply_0_r, !gf_multiply_0_l| |].
  2: { intros b b' Hb Hb' E E'. rewrite gf_multiply_lxor_r, !gf_multiply_lxor_l,
         gf_multiply_lxor_r by auto with rust. congruence. }
  apply Forall_forall. intros b Hb. assert (Bb : is_byte b)
    by (unfold byte_basis in Hb; unfold is_byte; set_unfold; lia).
  revert c Hc. apply byte_linear_ind; [done| |].
  2: { intros c c' Hc Hc' E E'. rewrite !gf_multiply_lxor_r by auto with rust. congruence. }
  apply Forall_forall. intros c Hc. apply Z.eqb_eq. pose proof gf_multiply_assoc_basis as H.
  rewrite forallb_forall in H. specialize (H a (proj1 (list_elem_of_In _ _) Ha)).
  rewrite forallb_forall in H. specialize (H b (proj1 (list_elem_of_In _ _) Hb)).
  rewrite forallb_forall in H. exact (H c (proj1 (list_elem_of_In _ _) Hc)).
Qed.

(** No zero divisors: the ring is a field. *)
Lemma gf_multiply_eq_0 x y : is_byte x → is_byte y → x ⊗ y = 0 → x = 0 ∨ y = 0.
Proof.
  intros Hx Hy H0.
  assert (H : negb (x ⊗ y =? 0) || (x =? 0) || (y =? 0) = true).
  { clear H0. revert x y Hx Hy.
    apply (all_byte_pairs (fun x y => negb (x ⊗ y =? 0) || (x =? 0) || (y =? 0))).
    vm_compute. reflexivity. }
  rewrite H0 in H. cbn in H. bool_to_prop. done.
Qed.

(** Eight turns end the loop of [gf_multiply]: more fuel changes nothing. *)
Lemma gf_loop_fuel n x y : is_byte y → (8 ≤ n)%nat → gf_loop n x y 0 = x ⊗ y.
Proof.
  intros Hy Hn. unfold gf_multiply.
  assert (Hgen : ∀ k n x y z, 0 ≤ y < 2 ^ Z.of_nat k → (k ≤ n)%nat →
    gf_loop n x y z = gf_loop k x y z).
  { clear. induction k as [|k IH]; intros n x y z Hy Hn.
    - assert (y = 0) as -> by lia. by destruct n.
    - destruct n as [|n]; [lia|]. cbn [gf_loop]. destruct (y =? 0); [done|].
      apply IH; [|lia]. rewrite Z.shiftr_div_pow2 by lia. change (2 ^ 1) with 2.
      rewrite Nat2Z.inj_succ, Z.pow_succ_r in Hy by lia.
      split; [apply Z.div_pos; lia|apply Z.div_lt_upper_bound; lia]. }
  apply Hgen; [|done]. unfold is_byte in Hy. cbn. lia.
Qed.
