(* ===== verification/ReedSolomon.v ===== *)
(** * Reed-Solomon codewords of QR symbols ([crates/barcodes/src/lib.rs])

    [reed_solomon_divisor] and [reed_solomon_remainder], and the algebra of the
    code they make: polynomials over GF(2^8) are lists of coefficients, the
    highest power first, evaluated by Horner's rule. *)

From S2P Require Import Prelude.
From S2P Require Import Gf256.
#[local] Open Scope gf_scope.

(** ** The code *)

(** The inner loop of [reed_solomon_divisor] over [j]: [result[j + 1]] still has
    its old value when [result[j]] is updated. *)
Fixpoint divisor_pass (root : Z) (result : list Z) : list Z :=
  match result with
  | [] => []
  | c :: rest =>
      match rest with
      | [] => gf_multiply c root
      | d :: _ => Z.lxor (gf_multiply c root) d
      end :: divisor_pass root rest
  end.

Fixpoint divisor_loop (turns : nat) (result : list Z) (root : Z) : list Z :=
  match turns with
  | O => result
  | S turns => divisor_loop turns (divisor_pass root result) (gf_multiply root 2)
  end.

Definition reed_solomon_divisor (degree : nat) : list Z :=
  divisor_loop degree (<[(degree - 1)%nat := 1]> (replicate degree 0)) 1.

(** One turn of the loop over the data: the register is shifted left by one
    and the divisor, scaled by the factor, is added. *)
Definition remainder_step (divisor result : list Z) (byte : Z) : list Z :=
  let factor := Z.lxor byte (hd 0 result) in
  zip_with (fun slot coefficient => Z.lxor slot (gf_multiply coefficient factor))
    (tail result ++ [0]) divisor.

Definition reed_solomon_remainder (data : list Z) (degree : nat) : list Z :=
  foldl (remainder_step (reed_solomon_divisor degree)) (replicate degree 0) data.

(** ** Polynomials *)

Definition eval_from (v acc : Z) (p : list Z) : Z := foldl (fun acc c => acc ⊗ v ⊕ c) acc p.
Definition eval (v : Z) (p : list Z) : Z := eval_from v 0 p.

Fixpoint gf_pow (v : Z) (n : nat) : Z :=
  match n with O => 1 | S n => gf_pow v n ⊗ v end.

Abbreviation bytes := (Forall is_byte).

(** [a ⊕ a = 0], and moving a term to the other side. *)
Lemma lxor_move a b c : a ⊕ b = c ↔ a = c ⊕ b.
Proof.
  split; intros E.
  - by rewrite <-E, Z.lxor_assoc, Z.lxor_nilpotent, Z.lxor_0_r.
  - by rewrite E, Z.lxor_assoc, Z.lxor_nilpotent, Z.lxor_0_r.
Qed.

Lemma is_byte_0 : is_byte 0.
Proof. unfold is_byte. lia. Qed.
Lemma is_byte_1 : is_byte 1.
Proof. unfold is_byte. lia. Qed.
#[export] Hint Resolve is_byte_0 is_byte_1 : rust.

Lemma gf_pow_byte v n : is_byte v → is_byte (gf_pow v n).
Proof. intros. induction n; cbn; auto with rust. Qed.
#[export] Hint Resolve gf_pow_byte : rust.

Lemma eval_from_byte v acc p : is_byte v → is_byte acc → bytes p → is_byte (eval_from v acc p).
Proof.
  intros Hv Hacc Hp. revert acc Hacc. induction Hp as [|c p Hc Hp IH]; intros acc Hacc; [done|].
  cbn. apply IH. auto with rust.
Qed.

Lemma eval_byte v p : is_byte v → bytes p → is_byte (eval v p).
Proof. intros. apply eval_from_byte; auto with rust. Qed.
#[export] Hint Resolve eval_byte : rust.

(** The accumulator of Horner's rule stands for the higher coefficients. *)
Lemma eval_from_split v acc p :
  is_byte v → is_byte acc → bytes p →
  eval_from v acc p = acc ⊗ gf_pow v (length p) ⊕ eval v p.
Proof.
  intros Hv Hacc Hp. revert acc Hacc. induction Hp as [|c p Hc Hp IH]; intros acc Hacc.
  - cbn. by rewrite gf_multiply_1_r, Z.lxor_0_r.
  - unfold eval. cbn [eval_from foldl]. change (foldl _ ?a p) with (eval_from v a p).
    rewrite IH, (IH (0 ⊗ v ⊕ c)) by auto with rust.
    rewrite gf_multiply_0_l, Z.lxor_0_l, gf_multiply_lxor_l by auto with rust.
    cbn [length gf_pow]. rewrite (gf_multiply_comm (gf_pow v (length p)) v) by auto with rust.
    rewrite <-gf_multiply_assoc by auto with rust. by rewrite Z.lxor_assoc.
Qed.

Lemma eval_app v p q :
  is_byte v → bytes p → bytes q →
  eval v (p ++ q) = eval v p ⊗ gf_pow v (length q) ⊕ eval v q.
Proof.
  intros. unfold eval at 1, eval_from. rewrite foldl_app.
  change (foldl _ 0 p) with (eval v p). change (foldl _ ?a q) with (eval_from v a q).
  apply eval_from_split; auto with rust.
Qed.

Lemma eval_cons v c p :
  is_byte v → is_byte c → bytes p →
  eval v (c :: p) = c ⊗ gf_pow v (length p) ⊕ eval v p.
Proof.
  intros. change (c :: p) with ([c] ++ p).
  rewrite eval_app by auto using Forall_cons_2, Forall_nil_2.
  unfold eval, eval_from. cbn [foldl]. by rewrite gf_multiply_0_l, Z.lxor_0_l.
Qed.

Lemma eval_zip_lxor v p q :
  is_byte v → bytes p → bytes q → length p = length q →
  eval v (zip_with Z.lxor p q) = eval v p ⊕ eval v q.
Proof.
  intros Hv Hp. revert q. induction Hp as [|c p Hc Hp IH]; intros [|d q] Hq Hlen; try done.
  apply Forall_cons in Hq as [Hd Hq]. injection Hlen as Hlen. cbn [zip_with].
  assert (Hz : bytes (zip_with Z.lxor p q)).
  { apply Forall_forall. intros x Hx. apply elem_of_lookup_zip_with in Hx
      as (i & a & b & -> & Ha & Hb). apply is_byte_lxor.
    - by eapply Forall_lookup_1 in Ha.
    - by eapply Forall_lookup_1 in Hb. }
  rewrite !eval_cons by auto with rust. rewrite IH by done.
  rewrite length_zip_with, <-Hlen, Nat.min_id, gf_multiply_lxor_l by auto with rust.
  apply lxor_swap.
Qed.

Lemma bytes_scale f p : is_byte f → bytes p → bytes ((fun c => c ⊗ f) <$> p).
Proof. intros Hf Hp. apply Forall_fmap. eapply Forall_impl; [done|]. cbn. auto with rust. Qed.

Lemma eval_scale v f p :
  is_byte v → is_byte f → bytes p → eval v ((fun c => c ⊗ f) <$> p) = eval v p ⊗ f.
Proof.
  intros Hv Hf Hp. induction Hp as [|c p Hc Hp IH]; [by rewrite gf_multiply_0_l|].
  cbn [fmap list_fmap]. change (list_fmap _ _ ?g p) with (g <$> p).
  pose proof (bytes_scale f p Hf Hp). rewrite !eval_cons by auto with rust.
  rewrite IH, length_fmap, gf_multiply_lxor_l by auto with rust.
  rewrite !gf_multiply_assoc by auto with rust.
  by rewrite (gf_multiply_comm f) by auto with rust.
Qed.

(** Shifting the register left drops its highest coefficient. *)
Lemma eval_shift v p :
  is_byte v → bytes p → p ≠ [] →
  eval v (tail p ++ [0]) = eval v p ⊗ v ⊕ hd 0 p ⊗ gf_pow v (length p).
Proof.
  intros Hv Hp Hne. destruct Hp as [|c p Hc Hp]; [done|]. cbn [tail hd].
  rewrite eval_app, (eval_cons v c p) by auto using Forall_cons_2, Forall_nil_2 with rust.
  change (eval v [0]) with (0 ⊗ v ⊕ 0). cbn [length gf_pow].
  rewrite gf_multiply_0_l, !Z.lxor_0_r, gf_multiply_1_l by done.
  rewrite gf_multiply_lxor_l, gf_multiply_assoc by auto with rust.
  rewrite (Z.lxor_comm (c ⊗ _)), Z.lxor_assoc, Z.lxor_nilpotent. by rewrite Z.lxor_0_r.
Qed.

(** ** The divisor *)

Lemma divisor_pass_zip root p :
  bytes p →
  divisor_pass root p = zip_with Z.lxor ((fun c => c ⊗ root) <$> p) (tail p ++ [0]).
Proof.
  induction 1 as [|c p Hc Hp IH]; [done|]. cbn [divisor_pass fmap list_fmap tail].
  destruct p as [|d p]; [cbn; by rewrite Z.lxor_0_r|]. rewrite IH. done.
Qed.

Lemma divisor_pass_length root p : length (divisor_pass root p) = length p.
Proof. induction p; cbn; congruence. Qed.

Lemma divisor_pass_bytes root p : is_byte root → bytes p → bytes (divisor_pass root p).
Proof.
  intros Hr Hp. induction Hp as [|c p Hc Hp IH]; [done|]. constructor; [|exact IH].
  destruct Hp; auto with rust.
Qed.

(** A pass multiplies the polynomial by [x - root], dropping the coefficient
    that leaves the register. *)
Lemma eval_divisor_pass v root p :
  is_byte v → is_byte root → bytes p → p ≠ [] →
  eval v (divisor_pass root p) =
  eval v p ⊗ (v ⊕ root) ⊕ hd 0 p ⊗ gf_pow v (length p).
Proof.
  intros Hv Hr Hp Hne. rewrite divisor_pass_zip by done.
  rewrite eval_zip_lxor, eval_scale, eval_shift by
    (try done; try apply Forall_app; auto using bytes_scale, Forall_tail, Forall_cons_2,
       Forall_nil_2 with rust;
     try (destruct p; [done|cbn; rewrite length_app, length_fmap; cbn; lia])).
  rewrite gf_multiply_lxor_r by auto with rust.
  by rewrite <-Z.lxor_assoc, (Z.lxor_comm (_ ⊗ root)).
Qed.

Lemma divisor_pass_leading root m q :
  divisor_pass root (replicate (S m) 0 ++ 1 :: q) = replicate m 0 ++ 1 :: divisor_pass root (1 :: q).
Proof.
  induction m as [|m IH].
  - cbn. by rewrite gf_multiply_0_l.
  - change (replicate (S (S m)) 0 ++ 1 :: q) with (0 :: replicate (S m) 0 ++ 1 :: q).
    cbn [divisor_pass]. rewrite IH. cbn. by rewrite gf_multiply_0_l.
Qed.

(** The product of [v - root * 2^i] for [i < k]. *)
Fixpoint root_product (v root : Z) (k : nat) : Z :=
  match k with O => 1 | S k => (v ⊕ root) ⊗ root_product v (root ⊗ 2) k end.

Lemma root_product_byte v root k :
  is_byte v → is_byte root → is_byte (root_product v root k).
Proof.
  intros Hv. revert root. induction k as [|k IH]; intros root Hr; cbn; [apply is_byte_1|].
  apply gf_multiply_byte; [auto with rust|]. apply IH, gf_multiply_byte; [done|].
  unfold is_byte; lia.
Qed.

Lemma divisor_loop_eval v root m q :
  is_byte v → is_byte root → bytes q →
  eval v (divisor_loop (S m) (replicate m 0 ++ 1 :: q) root) =
  eval v (1 :: q) ⊗ root_product v root (S m) ⊕ gf_pow v (m + S (length q)).
Proof.
  assert (H2 : is_byte 2) by (unfold is_byte; lia).
  intros Hv. revert root q. induction m as [|m IH]; intros root q Hr Hq.
  - cbn [replicate app divisor_loop root_product plus].
    rewrite eval_divisor_pass by (done || auto using Forall_cons_2 with rust).
    cbn [hd length]. rewrite gf_multiply_1_l, gf_multiply_1_r by auto with rust. done.
  - cbn [divisor_loop]. rewrite divisor_pass_leading.
    change (divisor_loop m (divisor_pass ?r ?l) (?r ⊗ 2)) with (divisor_loop (S m) l r).
    rewrite IH by auto using divisor_pass_bytes, Forall_cons_2 with rust.
    assert (Hp : bytes (divisor_pass root (1 :: q)))
      by auto using divisor_pass_bytes, Forall_cons_2 with rust.
    rewrite (eval_cons v 1 (divisor_pass root (1 :: q))) by auto with rust.
    rewrite eval_divisor_pass, divisor_pass_length by (done || auto using Forall_cons_2 with rust).
    cbn [hd]. rewrite gf_multiply_1_l by auto with rust.
    rewrite (Z.lxor_comm (gf_pow _ _)), Z.lxor_assoc, Z.lxor_nilpotent, Z.lxor_0_r.
    assert (is_byte (eval v (1 :: q))) by auto using eval_byte, Forall_cons_2 with rust.
    rewrite gf_multiply_assoc by auto using root_product_byte with rust.
    cbn [root_product length]. do 2 f_equal. lia.
Qed.

Lemma replicate_last n : (0 < n)%nat →
  <[(n - 1)%nat := 1]> (replicate n 0) = replicate (n - 1) 0 ++ [1].
Proof.
  intros Hn. destruct n as [|n]; [lia|]. replace (S n - 1)%nat with n by lia.
  rewrite replicate_S_end. rewrite insert_app_r_alt by (rewrite length_replicate; lia).
  by rewrite length_replicate, Nat.sub_diag.
Qed.

Lemma eval_divisor v n :
  is_byte v → (0 < n)%nat →
  eval v (reed_solomon_divisor n) = root_product v 1 n ⊕ gf_pow v n.
Proof.
  intros Hv Hn. unfold reed_solomon_divisor. rewrite replicate_last by done.
  destruct n as [|n]; [lia|]. replace (S n - 1)%nat with n by lia.
  rewrite divisor_loop_eval by auto with rust. change (eval v [1]) with (0 ⊗ v ⊕ 1).
  rewrite gf_multiply_0_l, Z.lxor_0_l, gf_multiply_1_l
    by auto using root_product_byte with rust.
  cbn [length]. do 2 f_equal. lia.
Qed.

Lemma gf_pow_succ_l v n : is_byte v → gf_pow v (S n) = v ⊗ gf_pow v n.
Proof. intros. cbn. apply gf_multiply_comm; auto with rust. Qed.

Lemma root_product_zero root k i :
  is_byte root → (i < k)%nat → root_product (root ⊗ gf_pow 2 i) root k = 0.
Proof.
  assert (H2 : is_byte 2) by (unfold is_byte; lia).
  revert root i. induction k as [|k IH]; intros root i Hr Hi; [lia|]. cbn [root_product].
  destruct i as [|i].
  - cbn [gf_pow]. by rewrite gf_multiply_1_r, Z.lxor_nilpotent, gf_multiply_0_l.
  - rewrite gf_pow_succ_l, <-gf_multiply_assoc by auto with rust.
    rewrite IH by (auto with rust; lia). apply gf_multiply_0_r.
Qed.

(** The powers of two below the degree are roots of the generator. *)
Lemma divisor_roots n i :
  (0 < n)%nat → (i < n)%nat →
  eval (gf_pow 2 i) (reed_solomon_divisor n) = gf_pow (gf_pow 2 i) n.
Proof.
  assert (H2 : is_byte 2) by (unfold is_byte; lia).
  intros Hn Hi. rewrite eval_divisor by auto with rust.
  rewrite <-(gf_multiply_1_l (gf_pow 2 i)) at 1 by auto with rust.
  by rewrite root_product_zero, Z.lxor_0_l by auto with rust.
Qed.

Lemma divisor_loop_shape turns p root :
  is_byte root → bytes p →
  bytes (divisor_loop turns p root) ∧ length (divisor_loop turns p root) = length p.
Proof.
  revert p root. induction turns as [|t IH]; intros p root Hr Hp; [done|]. cbn [divisor_loop].
  rewrite <-(divisor_pass_length root p). apply IH; [|by apply divisor_pass_bytes].
  apply gf_multiply_byte; [done|]. unfold is_byte; lia.
Qed.

Lemma divisor_shape n : bytes (reed_solomon_divisor n) ∧ length (reed_solomon_divisor n) = n.
Proof.
  destruct (divisor_loop_shape n (<[(n - 1)%nat := 1]> (replicate n 0)) 1) as [Hb Hl];
    [apply is_byte_1| |].
  - apply Forall_insert; [apply Forall_replicate|]; auto with rust.
  - split; [exact Hb|]. unfold reed_solomon_divisor.
    by rewrite Hl, length_insert, length_replicate.
Qed.

(** ** The remainder *)

Lemma remainder_step_zip divisor result b :
  remainder_step divisor result b =
  zip_with Z.lxor (tail result ++ [0]) ((fun c => c ⊗ (b ⊕ hd 0 result)) <$> divisor).
Proof. unfold remainder_step. by rewrite zip_with_fmap_r. Qed.

Lemma zip_lxor_bytes p q : bytes p → bytes q → bytes (zip_with Z.lxor p q).
Proof.
  intros Hp. revert q. induction Hp as [|c p Hc Hp IH]; intros [|d q] Hq; cbn; [constructor..|].
  apply Forall_cons in Hq as [Hd Hq]. constructor; auto with rust.
Qed.

Lemma hd_byte p : bytes p → is_byte (hd 0 p).
Proof. intros []; cbn; auto with rust. Qed.
#[export] Hint Resolve hd_byte zip_lxor_bytes : rust.

Section remainder.
Context (n : nat) (Hn : (0 < n)%nat).
#[local] Abbreviation divisor := (reed_solomon_divisor n).

Lemma remainder_step_shape r b :
  bytes r → length r = n → is_byte b →
  bytes (remainder_step divisor r b) ∧ length (remainder_step divisor r b) = n.
Proof.
  intros Hr Hl Hb. destruct (divisor_shape n) as [Hd Hdl]. rewrite remainder_step_zip. split.
  - apply zip_lxor_bytes; [apply Forall_app; auto using Forall_tail, Forall_cons_2, Forall_nil_2
      with rust|]. apply bytes_scale; auto with rust.
  - rewrite length_zip_with, length_fmap, Hdl. destruct r; cbn in *; [lia|].
    rewrite length_app. cbn. lia.
Qed.

(** At a root of the generator a turn computes [r * v + b * v^n]. *)
Lemma eval_remainder_step v r b :
  is_byte v → eval v divisor = gf_pow v n → bytes r → length r = n → is_byte b →
  eval v (remainder_step divisor r b) = eval v r ⊗ v ⊕ b ⊗ gf_pow v n.
Proof.
  intros Hv Hroot Hr Hl Hb. destruct (divisor_shape n) as [Hd Hdl].
  rewrite remainder_step_zip, eval_zip_lxor; try done.
  - rewrite eval_scale, eval_shift, Hroot, Hl; auto with rust; [|by intros ->; cbn in *; lia].
    rewrite (gf_multiply_comm (gf_pow v n)), gf_multiply_lxor_l by auto with rust.
    rewrite Z.lxor_assoc, (Z.lxor_comm (b ⊗ _)), <-(Z.lxor_assoc (hd 0 r ⊗ _)).
    by rewrite Z.lxor_nilpotent, Z.lxor_0_l.
  - apply Forall_app; auto using Forall_tail, Forall_cons_2, Forall_nil_2 with rust.
  - apply bytes_scale; auto with rust.
  - rewrite length_fmap, Hdl. destruct r; cbn in *; [lia|]. rewrite length_app. cbn. lia.
Qed.

Lemma remainder_fold data r :
  bytes data → bytes r → length r = n →
  bytes (foldl (remainder_step divisor) r data) ∧
  length (foldl (remainder_step divisor) r data) = n ∧
  (∀ v, is_byte v → eval v divisor = gf_pow v n →
     eval v (foldl (remainder_step divisor) r data) =
     eval v r ⊗ gf_pow v (length data) ⊕ eval v data ⊗ gf_pow v n).
Proof.
  intros Hdata. revert r. induction Hdata as [|b data Hb Hdata IH]; intros r Hr Hl.
  - split_and!; [done|done|]. intros v Hv _. cbn. change (eval v []) with 0.
    by rewrite gf_multiply_1_r, gf_multiply_0_l, Z.lxor_0_r by auto with rust.
  - cbn [foldl]. destruct (remainder_step_shape r b Hr Hl Hb) as [Hr' Hl'].
    destruct (IH _ Hr' Hl') as (H1 & H2 & H3). split_and!; [done|done|].
    intros v Hv Hroot. rewrite H3, eval_remainder_step, eval_cons by done.
    rewrite !gf_multiply_lxor_l by auto with rust. cbn [length].
    rewrite gf_pow_succ_l, (gf_multiply_assoc (eval v r)) by auto with rust.
    rewrite !Z.lxor_assoc. do 2 f_equal.
    rewrite !gf_multiply_assoc by auto with rust. f_equal.
    by apply gf_multiply_comm; auto with rust.
Qed.

(** The syndromes of a codeword vanish. *)
Lemma remainder_syndromes data i :
  bytes data → (i < n)%nat →
  eval (gf_pow 2 i) (data ++ reed_solomon_remainder data n) = 0.
Proof.
  assert (H2 : is_byte 2) by (unfold is_byte; lia).
  intros Hdata Hi. unfold reed_solomon_remainder.
  destruct (remainder_fold data (replicate n 0)) as (Hb & Hl & He);
    [done|apply Forall_replicate, is_byte_0|apply length_replicate|].
  rewrite eval_app by auto with rust. rewrite Hl, He.
  - assert (Hz : ∀ v k, eval v (replicate k 0) = 0).
    { intros v. induction k as [|k IH]; [done|]. unfold eval, eval_from in *. cbn.
      by rewrite gf_multiply_0_l. }
    by rewrite Hz, gf_multiply_0_l, Z.lxor_0_l, Z.lxor_nilpotent.
  - auto with rust.
  - by apply divisor_roots.
Qed.

Lemma remainder_shape data :
  bytes data → bytes (reed_solomon_remainder data n) ∧ length (reed_solomon_remainder data n) = n.
Proof.
  intros Hdata. destruct (remainder_fold data (replicate n 0)) as (Hb & Hl & _);
    [done|apply Forall_replicate, is_byte_0|apply length_replicate|]. done.
Qed.
End remainder.

(** ** Distinct roots and bursts of errors *)


(** The prefixes of [p] evaluated at [r]: the coefficients of the quotient of
    [p * x] by [x - r]. *)
Definition prefix_values (r : Z) (p : list Z) : list Z :=
  (fun k => eval r (take (S k) p)) <$> seq 0 (length p).

Lemma prefix_values_snoc r p c :
  prefix_values r (p ++ [c]) = prefix_values r p ++ [eval r (p ++ [c])].
Proof.
  unfold prefix_values. rewrite length_app, Nat.add_1_r, seq_S, fmap_app. f_equal.
  - apply list_fmap_ext. intros i k Hk. apply lookup_seq in Hk as [-> ?].
    by rewrite take_app_le by lia.
  - cbn [fmap list_fmap plus]. by rewrite take_ge by (rewrite length_app; cbn; lia).
Qed.

Lemma eval_snoc v p c :
  is_byte v → is_byte c → bytes p → eval v (p ++ [c]) = eval v p ⊗ v ⊕ c.
Proof. intros. unfold eval, eval_from. by rewrite foldl_app. Qed.

Lemma prefix_values_bytes r p : is_byte r → bytes p → bytes (prefix_values r p).
Proof.
  intros. apply Forall_fmap, Forall_forall. intros k _. apply eval_byte; [done|].
  by apply Forall_take.
Qed.

Lemma eval_prefix_values v r p :
  is_byte v → is_byte r → bytes p →
  eval v (prefix_values r p) ⊗ (v ⊕ r) = eval v p ⊗ v ⊕ eval r p ⊗ r.
Proof.
  intros Hv Hr. induction p as [|c p IH] using rev_ind; intros Hp.
  - change (eval v (prefix_values r [])) with 0. change (eval _ []) with 0.
    by rewrite !gf_multiply_0_l.
  - apply Forall_app in Hp as [Hp [Hc _]%Forall_cons]. specialize (IH Hp).
    pose proof (prefix_values_bytes r p Hr Hp). rewrite prefix_values_snoc.
    assert (bytes (p ++ [c])) by (apply Forall_app; auto using Forall_cons_2, Forall_nil_2).
    rewrite !eval_snoc by auto with rust.
    set (A := eval v p) in *. set (B := eval r p) in *. set (Q := eval v (prefix_values r p)) in *.
    assert (is_byte A) by (unfold A; auto with rust).
    assert (is_byte B) by (unfold B; auto with rust).
    assert (is_byte Q) by (unfold Q; auto with rust).
    rewrite (gf_multiply_lxor_l (Q ⊗ v)) by auto with rust.
    assert (Q ⊗ v ⊗ (v ⊕ r) = A ⊗ v ⊗ v ⊕ B ⊗ r ⊗ v) as ->.
    { rewrite gf_multiply_assoc, (gf_multiply_comm v), <-gf_multiply_assoc, IH by auto with rust.
      by rewrite gf_multiply_lxor_l by auto with rust. }
    rewrite (gf_multiply_lxor_r (B ⊗ r ⊕ c) v r) by auto with rust.
    rewrite (gf_multiply_lxor_l (B ⊗ r) c v), (gf_multiply_lxor_l (A ⊗ v) c v) by auto with rust.
    rewrite !Z.lxor_assoc. f_equal.
    rewrite <-(Z.lxor_assoc (B ⊗ r ⊗ v)). by rewrite Z.lxor_nilpotent, Z.lxor_0_l.
Qed.

Lemma prefix_values_zero r p :
  is_byte r → bytes p → Forall (fun c => c = 0) (prefix_values r p) → Forall (fun c => c = 0) p.
Proof.
  intros Hr. induction p as [|c p IH] using rev_ind; intros Hp; [done|].
  apply Forall_app in Hp as [Hp [Hc _]%Forall_cons].
  rewrite prefix_values_snoc, !Forall_app. intros [H1 [H2 _]%Forall_cons].
  split; [by apply IH|]. constructor; [|done].
  assert (Hz : eval r p = 0).
  { destruct (list_nil_or_snoc p) as [->|(p' & d & ->)]; [done|].
    rewrite prefix_values_snoc, Forall_app in H1. by destruct H1 as [_ [? _]%Forall_cons]. }
  rewrite eval_snoc, Hz, gf_multiply_0_l in H2 by done. by rewrite Z.lxor_0_l in H2.
Qed.

(** A polynomial with as many distinct roots as coefficients is zero. *)
Lemma too_many_roots p rs :
  bytes p → bytes rs → NoDup rs → (length p ≤ length rs)%nat →
  Forall (fun r => eval r p = 0) rs → Forall (fun c => c = 0) p.
Proof.
  revert p. induction rs as [|r rs IH]; intros p Hp Hrs Hn Hl Hz.
  - destruct p; [done|cbn in *; lia].
  - destruct (list_nil_or_snoc p) as [->|(q & c & ->)]; [done|].
    apply Forall_app in Hp as [Hq [Hc _]%Forall_cons]. apply Forall_cons in Hrs as [Hr Hrs].
    apply NoDup_cons in Hn as [Hnr Hn]. apply Forall_cons in Hz as [Hzr Hz].
    rewrite eval_snoc in Hzr by done. rewrite length_app in Hl. cbn in Hl.
    assert (Hq0 : Forall (fun c => c = 0) q).
    { apply (prefix_values_zero r); [done..|]. apply IH; try done.
      - by apply prefix_values_bytes.
      - unfold prefix_values. rewrite length_fmap, length_seq. lia.
      - rewrite Forall_forall in Hz, Hrs |- *. intros v Hv. specialize (Hz v Hv).
        specialize (Hrs v Hv). rewrite eval_snoc in Hz by done.
        pose proof (eval_prefix_values v r q Hrs Hr Hq) as E.
        apply lxor_move in Hz, Hzr. rewrite Hz, Hzr, Z.lxor_nilpotent in E.
        apply gf_multiply_eq_0 in E as [?|E]; auto using prefix_values_bytes with rust.
        apply Z.lxor_eq in E as ->. done. }
    apply Forall_app. split; [done|]. constructor; [|done].
    assert (eval r q = 0) as Hqr.
    { clear -Hq0. induction q as [|d q IH] using rev_ind; [done|].
      apply Forall_app in Hq0 as [Hq0 [-> _]%Forall_cons]. unfold eval, eval_from in *.
      rewrite foldl_app. cbn. by rewrite IH, gf_multiply_0_l. }
    by rewrite Hqr, gf_multiply_0_l, Z.lxor_0_l in Hzr.
Qed.

(** Two is a generator: its first 255 powers are distinct. *)
Lemma gf_pow_2_NoDup n : (n ≤ 255)%nat → NoDup (gf_pow 2 <$> seq 0 n).
Proof.
  intros Hn. assert (H : NoDup (gf_pow 2 <$> seq 0 255))
    by (apply (bool_decide_unpack _); vm_compute; exact I).
  replace 255%nat with (n + (255 - n))%nat in H by lia.
  rewrite seq_app, fmap_app in H. by apply NoDup_app in H as [? _].
Qed.

Lemma gf_pow_nonzero v n : is_byte v → v ≠ 0 → gf_pow v n ≠ 0.
Proof.
  intros Hv Hne. induction n as [|n IH]; [done|]. cbn.
  intros [?|?]%gf_multiply_eq_0; auto with rust.
Qed.

(** The syndromes a reader computes of a received codeword sequence. *)
Definition syndromes (degree : nat) (received : list Z) : list Z :=
  (fun i => eval (gf_pow 2 i) received) <$> seq 0 degree.

Lemma syndromes_codeword data degree :
  bytes data → (0 < degree)%nat →
  syndromes degree (data ++ reed_solomon_remainder data degree) = replicate degree 0.
Proof.
  intros Hd Hn. apply list_eq_Forall2, Forall2_same_length_lookup. unfold syndromes. split.
  - by rewrite length_fmap, length_seq, length_replicate.
  - intros i x y Hx Hy. apply lookup_replicate in Hy as [-> Hi].
    rewrite list_lookup_fmap, lookup_seq_lt in Hx by done. cbn in Hx. simplify_eq.
    by apply remainder_syndromes.
Qed.

(** The error-correction codewords of a QR symbol make a Reed-Solomon
    codeword: for data bytes of any number the remainder has one byte per degree
    and every syndrome of data and remainder together is zero. *)
Theorem reed_solomon_codeword data degree :
  Forall is_byte data → (0 < degree)%nat →
  length (reed_solomon_remainder data degree) = degree ∧
  Forall is_byte (reed_solomon_remainder data degree) ∧
  syndromes degree (data ++ reed_solomon_remainder data degree) = replicate degree 0.
Proof.
  intros Hd Hn. destruct (remainder_shape degree Hn data Hd) as [Hb Hl].
  split_and!; [done..|]. by apply syndromes_codeword.
Qed.

Lemma eval_sum_split v pre mid mid' post :
  is_byte v → bytes pre → bytes mid → bytes mid' → bytes post → length mid = length mid' →
  eval v (pre ++ mid ++ post) ⊕ eval v (pre ++ mid' ++ post) =
  eval v (zip_with Z.lxor mid mid') ⊗ gf_pow v (length post).
Proof.
  intros Hv H1 H2 H3 H4 Hl.
  assert (bytes (mid ++ post)) by by apply Forall_app.
  assert (bytes (mid' ++ post)) by by apply Forall_app.
  rewrite !eval_app, !length_app, Hl by done. rewrite lxor_swap, Z.lxor_nilpotent, Z.lxor_0_l.
  rewrite lxor_swap, Z.lxor_nilpotent, Z.lxor_0_r, eval_zip_lxor by done.
  by rewrite gf_multiply_lxor_l by auto with rust.
Qed.

Lemma zip_lxor_zero mid mid' :
  length mid = length mid' → Forall (fun c => c = 0) (zip_with Z.lxor mid mid') → mid = mid'.
Proof.
  revert mid'. induction mid as [|a mid IH]; intros [|b mid'] Hl H; try done.
  cbn in H. apply Forall_cons in H as [E%Z.lxor_eq H]. f_equal; [done|].
  apply IH; [|done]. by injection Hl.
Qed.

(** Bursts are detected: when at most [degree] consecutive bytes of what
    the encoder makes (data bytes and error correction together) are changed,
    some syndrome of what is received is not zero, so a reader never takes a
    burst-corrupted symbol for a valid one. *)
Theorem burst_detected data degree pre mid mid' post :
  Forall is_byte data → (0 < degree ≤ 255)%nat →
  data ++ reed_solomon_remainder data degree = pre ++ mid ++ post →
  Forall is_byte mid' → length mid' = length mid → (length mid ≤ degree)%nat → mid' ≠ mid →
  syndromes degree (pre ++ mid' ++ post) ≠ replicate degree 0.
Proof.
  assert (H2 : is_byte 2) by (unfold is_byte; lia).
  intros Hd [Hn Hdeg] Hsplit Hb' Hlen Hle Hne Hrecv. apply Hne. symmetry.
  destruct (remainder_shape degree Hn data Hd) as [Hrb _].
  pose proof (syndromes_codeword data degree Hd Hn) as Hcode. rewrite Hsplit in Hcode.
  assert (Hb : bytes (pre ++ mid ++ post)) by (rewrite <-Hsplit; by apply Forall_app).
  apply Forall_app in Hb as [Hpre [Hmid Hpost]%Forall_app].
  apply zip_lxor_zero; [done|].
  apply (too_many_roots _ (gf_pow 2 <$> seq 0 degree)).
  - by apply zip_lxor_bytes.
  - apply Forall_fmap, Forall_forall. intros i _. cbn. auto with rust.
  - by apply gf_pow_2_NoDup.
  - rewrite length_zip_with, length_fmap, length_seq. lia.
  - apply Forall_fmap, Forall_forall. intros i Hi. cbn.
    assert (Hz : ∀ l, syndromes degree l = replicate degree 0 → eval (gf_pow 2 i) l = 0).
    { intros l E. assert (Hin : eval (gf_pow 2 i) l ∈ syndromes degree l)
        by (by apply (list_elem_of_fmap_2 (fun i => eval (gf_pow 2 i) l))).
      rewrite E in Hin. by apply elem_of_replicate in Hin as [-> _]. }
    pose proof (eval_sum_split (gf_pow 2 i) pre mid mid' post) as E.
    rewrite !Hz in E by done. symmetry in E.
    apply gf_multiply_eq_0 in E as [E|E]; auto with rust.
    exfalso. revert E. apply gf_pow_nonzero; [auto with rust|]. by apply gf_pow_nonzero.
Qed.

(** ** Witnesses *)

Definition sample_data : list Z := [64; 84; 7; 17; 236; 17; 255].

Lemma reed_solomon_codeword_witness :
  syndromes 7 (sample_data ++ reed_solomon_remainder sample_data 7) = replicate 7 0.
Proof.
  apply (reed_solomon_codeword sample_data 7).
  - repeat constructor; done.
  - lia.
Defined.

Lemma burst_detected_witness :
  syndromes 7 ([64; 84] ++ [0; 1; 2] ++ [17; 255] ++ reed_solomon_remainder sample_data 7)
    ≠ replicate 7 0.
Proof.
  apply (burst_detected sample_data 7 [64; 84] [7; 17; 236] [0; 1; 2]
           ([17; 255] ++ reed_solomon_remainder sample_data 7)).
  - repeat constructor; done.
  - lia.
  - vm_compute. reflexivity.
  - repeat constructor; done.
  - reflexivity.
  - cbn. lia.
  - discriminate.
Defined.
