(* ===== verification/LinearBarcode.v ===== *)
(** * Linear barcodes ([crates/barcodes/src/lib.rs])

    Code 128-B, GS1-128 and UPC-A: from the text to the widths of bars and
    spaces. The readers at the end ([scan_code128], [scan_gs1_128],
    [scan_upc_a]) are specifications: they read the bars of a label back, so
    that the theorems can say that what is printed is what was asked for. *)

From S2P Require Import Prelude.
From S2P Require Import RustStr.

Inductive BarcodeError :=
| EmptyBarcode
| UnsupportedKind (kind : rstr)
| UnsupportedCharacter (ch : Z)
| InvalidLength (kind expected : string)
| InvalidChecksum (kind : string)
| InvalidGs1Ai (ai : rstr)
| DataTooLong (max_bytes : Z).

Inductive BarcodeKind := Code128 | Gs1_128 | UpcA | Qr.

Definition one_of (value : rstr) (names : list string) : bool :=
  existsb (fun name => bool_decide (value = lit name)) names.

Definition BarcodeKind_parse (value : rstr) : result BarcodeKind BarcodeError :=
  let other := to_ascii_lowercase <$> trim value in
  if one_of other ["code128"; "code-128"; "128"] then Ok Code128
  else if one_of other ["gs1-128"; "gs1128"; "gs1_128"; "ucc128"; "ucc-128"] then Ok Gs1_128
  else if one_of other ["upc-a"; "upca"; "upc"] then Ok UpcA
  else if one_of other ["qr"; "qrcode"; "qr-code"] then Ok Qr
  else Err (UnsupportedKind other).

Record Module_ := MkModule {
  black : bool;
  width : Z;
}.

#[global] Instance Module_eq_dec : EqDecision Module_.
Proof. solve_decision. Defined.

Definition total_modules (modules : list Module_) : Z := u32_wrap (zsum (width <$> modules)).

(** ** Tables *)

Definition CODE128_PATTERNS : list string :=
  ["212222"; "222122"; "222221"; "121223"; "121322"; "131222"; "122213"; "122312";
   "132212"; "221213"; "221312"; "231212"; "112232"; "122132"; "122231"; "113222";
   "123122"; "123221"; "223211"; "221132"; "221231"; "213212"; "223112"; "312131";
   "311222"; "321122"; "321221"; "312212"; "322112"; "322211"; "212123"; "212321";
   "232121"; "111323"; "131123"; "131321"; "112313"; "132113"; "132311"; "211313";
   "231113"; "231311"; "112133"; "112331"; "132131"; "113123"; "113321"; "133121";
   "313121"; "211331"; "231131"; "213113"; "213311"; "213131"; "311123"; "311321";
   "331121"; "312113"; "312311"; "332111"; "314111"; "221411"; "431111"; "111224";
   "111422"; "121124"; "121421"; "141122"; "141221"; "112214"; "112412"; "122114";
   "122411"; "142112"; "142211"; "241211"; "221114"; "413111"; "241112"; "134111";
   "111242"; "121142"; "121241"; "114212"; "124112"; "124211"; "411212"; "421112";
   "421211"; "212141"; "214121"; "412121"; "111143"; "111341"; "131141"; "114113";
   "114311"; "411113"; "411311"; "113141"; "114131"; "311141"; "411131"; "211412";
   "211214"; "211232"; "2331112"].

Definition UPC_LEFT_PATTERNS : list string :=
  ["0001101"; "0011001"; "0010011"; "0111101"; "0100011"; "0110001"; "0101111"; "0111011";
   "0110111"; "0001011"].

Definition UPC_RIGHT_PATTERNS : list string :=
  ["1110010"; "1100110"; "1101100"; "1000010"; "1011100"; "1001110"; "1010000"; "1000100";
   "1001000"; "1110100"].

(** Indexing a table; the indices the encoders use are in range
    ([code_lt_107], [digit_lt_10]). *)
Definition table_at (table : list string) (i : Z) : rstr :=
  lit (default "" (table !! Z.to_nat i)).

(** ** Code 128 *)

(** The loop of [append_pattern]; bars and spaces alternate, a bar first. *)
Fixpoint pattern_modules (is_black : bool) (pattern : rstr) : list Module_ :=
  match pattern with
  | [] => []
  | byte :: pattern => MkModule is_black (byte - 48) :: pattern_modules (negb is_black) pattern
  end.

Definition append_pattern (modules : list Module_) (pattern : rstr) : list Module_ :=
  modules ++ pattern_modules true pattern.

Definition code128_modules (codes : list Z) : list Module_ :=
  foldl (fun modules code => append_pattern modules (table_at CODE128_PATTERNS code)) [] codes.

(** [u32] arithmetic: the products and the sum wrap in the release profile. *)
Definition code128_checksum (codes : list Z) : Z :=
  u32_wrap (zsum (imap (fun idx code =>
    if (idx =? 0)%nat then code else u32_wrap (code * u32_wrap (Z.of_nat idx))) codes)) mod 103.

Definition append_code128_checksum_and_stop (codes : list Z) : list Z :=
  codes ++ [code128_checksum codes; 106].

Definition code128_char (ch : Z) : result Z BarcodeError :=
  if (32 <=? ch) && (ch <=? 127) then Ok (ch - 32) else Err (UnsupportedCharacter ch).

Definition encode_code128_b (value : rstr) : result (list Module_) BarcodeError :=
  let value := trim value in
  check negb (bool_decide (value = [])) else EmptyBarcode in
  let? symbols := rmapM code128_char value in
  Ok (code128_modules (append_code128_checksum_and_stop (104 :: symbols))).

(** ** UPC-A *)

Definition upc_a_check_digit (first_11_digits : rstr) : Z :=
  let sum := u32_wrap (zsum (imap (fun idx byte =>
    if (idx mod 2 =? 0)%nat then (byte - 48) * 3 else byte - 48) first_11_digits)) in
  (10 - sum mod 10) mod 10.

Definition upc_a_digits (value : rstr) : result rstr BarcodeError :=
  let digits := List.filter (fun ch => negb (is_whitespace ch) && negb (ch =? 45)) (trim value) in
  check negb (bool_decide (digits = [])) else EmptyBarcode in
  match find (fun ch => negb (is_ascii_digit ch)) digits with
  | Some ch => Err (UnsupportedCharacter ch)
  | None =>
      if (length digits =? 11)%nat then Ok (digits ++ [upc_a_check_digit digits + 48])
      else if (length digits =? 12)%nat then
        if nth 11 digits 0 - 48 =? upc_a_check_digit (take 11 digits) then Ok digits
        else Err (InvalidChecksum "UPC-A")
      else Err (InvalidLength "UPC-A"
             "11 digits without a check digit or 12 digits with a valid check digit")
  end.

Definition push_barcode_bits (bits : list bool) (pattern : rstr) : list bool :=
  bits ++ ((fun byte => byte =? 49) <$> pattern).

(** The loop of [modules_from_bits]. *)
Fixpoint runs (is_black : bool) (run : Z) (bits : list bool) : list Module_ :=
  match bits with
  | [] => if 0 <? run then [MkModule is_black run] else []
  | bit :: bits =>
      if Bool.eqb bit is_black then runs is_black (run + 1) bits
      else MkModule is_black run :: runs bit 1 bits
  end.

Definition modules_from_bits (bits : list bool) : list Module_ := runs true 0 bits.

Definition upc_a_bits (digits : rstr) : list bool :=
  let bits := push_barcode_bits [] (lit "101") in
  let bits := foldl (fun bits digit => push_barcode_bits bits
                       (table_at UPC_LEFT_PATTERNS (digit - 48))) bits (take 6 digits) in
  let bits := push_barcode_bits bits (lit "01010") in
  let bits := foldl (fun bits digit => push_barcode_bits bits
                       (table_at UPC_RIGHT_PATTERNS (digit - 48))) bits (drop 6 digits) in
  push_barcode_bits bits (lit "101").

Definition encode_upc_a (value : rstr) : result (list Module_) BarcodeError :=
  let? digits := upc_a_digits value in
  Ok (modules_from_bits (upc_a_bits digits)).

(** ** Reading Code 128 back *)

Definition modules_of_code (code : Z) : list Module_ :=
  pattern_modules true (table_at CODE128_PATTERNS code).

Definition read_code (ms : list Module_) : option Z :=
  find (fun c => bool_decide (modules_of_code c = ms)) (seqZ 0 106).

Fixpoint read_codes (fuel : nat) (ms : list Module_) : option (list Z) :=
  match fuel with
  | O => None
  | S fuel =>
      if decide (ms = modules_of_code 106) then Some []
      else code ← read_code (take 6 ms);
           codes ← read_codes fuel (drop 6 ms);
           Some (code :: codes)
  end.

(** [c1 * k + c2 * (k + 1) + ...], without overflow. *)
Fixpoint weighted (k : Z) (codes : list Z) : Z :=
  match codes with [] => 0 | c :: codes => c * k + weighted (k + 1) codes end.

(** A scanner: read the symbols up to the stop pattern, check the start symbol
    and the check symbol, and return the symbols between them. *)
Definition scan_symbols (ms : list Module_) : option (list Z) :=
  codes ← read_codes (S (length ms)) ms;
  match codes with
  | 104 :: rest =>
      check_symbol ← last rest;
      let body := removelast rest in
      if check_symbol =? (104 + weighted 1 body) mod 103 then Some body else None
  | _ => None
  end.

Definition scan_code128 (ms : list Module_) : option rstr :=
  symbols ← scan_symbols ms;
  if forallb (fun c => c <=? 95) symbols then Some ((fun c => c + 32) <$> symbols) else None.

(** ** Code 128: lemmas *)

Lemma code128_modules_concat codes : code128_modules codes = codes ≫= modules_of_code.
Proof.
  unfold code128_modules.
  assert (Hgen : ∀ acc, foldl (fun modules code => append_pattern modules
    (table_at CODE128_PATTERNS code)) acc codes = acc ++ (codes ≫= modules_of_code)).
  { induction codes as [|c codes IH]; intros acc; cbn; [by rewrite app_nil_r|].
    rewrite IH. unfold append_pattern, modules_of_code. by rewrite <-app_assoc. }
  by rewrite Hgen.
Qed.

Lemma code_tables_ok :
  forallb (fun c => bool_decide (read_code (modules_of_code c) = Some c)
                    && bool_decide (length (modules_of_code c) = 6%nat)) (seqZ 0 106) = true.
Proof. vm_compute. reflexivity. Qed.

Lemma code_lt_106 c :
  0 ≤ c < 106 → read_code (modules_of_code c) = Some c ∧ length (modules_of_code c) = 6%nat.
Proof.
  intros Hc. pose proof code_tables_ok as H. rewrite forallb_forall in H.
  specialize (H c). rewrite <-list_elem_of_In, elem_of_seqZ in H. specialize (H ltac:(lia)).
  by bool_to_prop.
Qed.

Lemma read_codes_stop fuel codes :
  Forall (fun c => 0 ≤ c < 106) codes → (length codes < fuel)%nat →
  read_codes fuel (code128_modules (codes ++ [106])) = Some codes.
Proof.
  intros Hc. rewrite code128_modules_concat. revert fuel.
  induction Hc as [|c codes Hc Hcs IH]; intros fuel Hf; (destruct fuel as [|fuel]; [cbn in *; lia|]).
  - done.
  - cbn [app mbind list_bind read_codes]. change (list_bind _ _ ?f ?l) with (l ≫= f).
    destruct (code_lt_106 c Hc) as [Hread Hlen].
    rewrite decide_False.
    2: { intros E%(f_equal length). rewrite bind_app, !length_app, Hlen in E.
         change (length ([106] ≫= modules_of_code)) with 7%nat in E.
         change (length (modules_of_code 106)) with 7%nat in E. lia. }
    rewrite take_app_le, take_ge, drop_app_le, drop_ge, Hread by lia. cbn [mbind option_bind app].
    by rewrite IH by (cbn in Hf; lia).
Qed.

Lemma weighted_bound b k codes :
  Forall (fun c => 0 ≤ c ≤ b) codes → 0 ≤ k → 0 ≤ b →
  0 ≤ weighted k codes ∧
  2 * weighted k codes ≤ b * Z.of_nat (length codes) * (2 * k + Z.of_nat (length codes) - 1).
Proof.
  intros Hc. revert k. induction Hc as [|c codes Hc Hcs IH]; intros k Hk Hb; cbn [weighted length].
  - lia.
  - destruct (IH (k + 1)) as [? ?]; [lia..|]. rewrite Nat2Z.inj_succ. nia.
Qed.

Lemma zsum_imap_weighted (f : nat → Z → Z) k codes :
  (∀ i c, codes !! i = Some c → f i c = c * (k + Z.of_nat i)) →
  zsum (imap f codes) = weighted k codes.
Proof.
  revert f k. induction codes as [|c codes IH]; intros f k Hf; [done|].
  cbn [imap weighted]. rewrite zsum_cons, (Hf 0%nat c eq_refl). f_equal; [lia|].
  apply IH. intros i d Hi. cbn. rewrite (Hf (S i) d Hi). lia.
Qed.

(** The checksum is the standard's: no product and no sum overflows. *)
Lemma code128_checksum_exact start codes :
  0 ≤ start ≤ 105 → Forall (fun c => 0 ≤ c ≤ 102) codes → Z.of_nat (length codes) ≤ 9001 →
  code128_checksum (start :: codes) = (start + weighted 1 codes) mod 103.
Proof.
  intros Hs Hc Hl. unfold code128_checksum. cbn [imap]. rewrite zsum_cons. cbn [Nat.eqb].
  destruct (weighted_bound 102 1 codes Hc) as [? ?]; [lia..|].
  assert (102 * Z.of_nat (length codes) * (2 * 1 + Z.of_nat (length codes) - 1)
    ≤ 102 * 9001 * 9002) by nia.
  rewrite (zsum_imap_weighted _ 1).
  - by rewrite u32_wrap_id by range_lia.
  - intros i c Hi. cbn. pose proof (lookup_lt_Some _ _ _ Hi).
    eapply Forall_lookup_1 in Hc; [|done]. cbn in Hc.
    rewrite (u32_wrap_id (Z.of_nat (S i))) by range_lia.
    rewrite u32_wrap_id by (unfold_ranges; nia). f_equal. lia.
Qed.

Lemma mod_103_range z : 0 ≤ z mod 103 < 106.
Proof. pose proof (Z.mod_pos_bound z 103). lia. Qed.

Lemma read_codes_fuel codes :
  Forall (fun c => 0 ≤ c < 106) codes → (length codes ≤ length (code128_modules codes))%nat.
Proof.
  rewrite code128_modules_concat. induction 1 as [|c l Hc _ IH]; [done|].
  cbn [mbind list_bind length]. change (list_bind _ _ ?f ?l) with (l ≫= f).
  rewrite length_app. destruct (code_lt_106 c Hc) as [_ ->]. lia.
Qed.

Lemma scan_encoded codes :
  Forall (fun c => 0 ≤ c ≤ 102) codes → Z.of_nat (length codes) ≤ 9001 →
  scan_symbols (code128_modules (append_code128_checksum_and_stop (104 :: codes))) = Some codes.
Proof.
  intros Hc Hl. unfold scan_symbols, append_code128_checksum_and_stop.
  rewrite code128_checksum_exact by (done || lia).
  set (k := (104 + weighted 1 codes) mod 103).
  assert (Hall : Forall (fun c => 0 ≤ c < 106) ((104 :: codes) ++ [k])).
  { apply Forall_app. split; [constructor; [lia|]|].
    - eapply Forall_impl; [exact Hc|]. cbn. lia.
    - constructor; [apply mod_103_range|constructor]. }
  change ((104 :: codes) ++ [k; 106]) with ((104 :: codes) ++ [k] ++ [106]).
  rewrite app_assoc, read_codes_stop; [|done|].
  - cbn [mbind option_bind app]. rewrite last_snoc. cbn [mbind option_bind].
    rewrite removelast_last. fold k. by rewrite Z.eqb_refl.
  - apply read_codes_fuel in Hall. rewrite code128_modules_concat in *.
    rewrite (bind_app _ (_ ++ [k])), !length_app in *. lia.
Qed.

Lemma code128_char_ok ch c : code128_char ch = Ok c ↔ c = ch - 32 ∧ 32 ≤ ch ≤ 127.
Proof.
  unfold code128_char. split; [intros H; run H; lia|]. intros [-> [? ?]].
  by rewrite !(proj2 (Z.leb_le _ _)) by lia.
Qed.

Lemma code128_chars_err l e :
  rmapM code128_char l = Err e →
  ∃ ch, e = UnsupportedCharacter ch ∧ ch ∈ l ∧ ~ (32 ≤ ch ≤ 127).
Proof.
  induction l as [|ch l IH]; cbn; [done|]. unfold code128_char at 1.
  destruct ((32 <=? ch) && (ch <=? 127)) eqn:Hch; cbn.
  - destruct (rmapM code128_char l); cbn; [done|]. intros [= ->].
    destruct (IH eq_refl) as (c & -> & Hc & ?). exists c. split_and!; [done| |done].
    apply elem_of_cons. by right.
  - intros [= <-]. exists ch. split_and!; [done|apply elem_of_cons; by left|].
    intros ?. bool_to_prop. lia.
Qed.

Definition code128_text (value : rstr) : Prop :=
  trim value ≠ [] ∧ Forall (fun ch => 32 ≤ ch ≤ 127) (trim value).

Lemma encode_code128_b_ok value ms :
  encode_code128_b value = Ok ms ↔
  code128_text value ∧
  ms = code128_modules (append_code128_checksum_and_stop (104 :: ((fun ch => ch - 32) <$> trim value))).
Proof.
  unfold encode_code128_b, code128_text.
  destruct (bool_decide_reflect (trim value = [])); cbn [negb]; [naive_solver|].
  rewrite rbind_ok. setoid_rewrite rmapM_ok. split.
  - intros (symbols & Hs & [= <-]). split; [split; [done|]|].
    + eapply Forall2_Forall_l; [exact Hs|]. apply Forall_forall.
      intros c _ ch [_ ?]%code128_char_ok. done.
    + do 3 f_equal. clear n. induction Hs as [|ch c l symbols Hc _ IH]; [done|].
      apply code128_char_ok in Hc as [-> _]. cbn. by f_equal.
  - intros [[_ Hall] ->]. eexists. split; [|done]. apply Forall2_fmap_r, Forall_Forall2_diag.
    eapply Forall_impl; [exact Hall|]. intros ch Hch. by apply code128_char_ok.
Qed.

(** Code 128-B round trip: the encoder accepts exactly the texts of at
    least one character whose characters are in its range, and a scanner that
    matches the bars against the pattern table and verifies the start, check and
    stop symbols reads back the trimmed text. (The length bound keeps the
    checksum's [u32] sum from wrapping.) *)
Theorem code128_roundtrip value :
  chars_count (trim value) ≤ 9000 →
  match encode_code128_b value with
  | Ok ms => code128_text value ∧ scan_code128 ms = Some (trim value)
  | Err EmptyBarcode => trim value = []
  | Err (UnsupportedCharacter ch) => ch ∈ trim value ∧ ~ (32 ≤ ch ≤ 127)
  | Err _ => False
  end.
Proof.
  intros Hlen. destruct (encode_code128_b value) as [ms|e] eqn:E.
  - apply encode_code128_b_ok in E as [Hv ->]. split; [done|]. destruct Hv as [_ Hall].
    unfold scan_code128. rewrite scan_encoded.
    + cbn [mbind option_bind].
      assert (forallb (fun c => c <=? 95) ((fun ch => ch - 32) <$> trim value) = true) as ->.
      { apply forallb_forall. intros c Hc%list_elem_of_In. apply list_elem_of_fmap in Hc
          as (ch & -> & Hch). rewrite Forall_forall in Hall. specialize (Hall ch Hch). lia. }
      f_equal. rewrite <-list_fmap_compose. rewrite <-(list_fmap_id (trim value)) at 2.
      apply list_fmap_ext. intros i ch _. cbn. lia.
    + apply Forall_fmap. eapply Forall_impl; [exact Hall|]. cbn. lia.
    + rewrite length_fmap. unfold chars_count in Hlen. lia.
  - unfold encode_code128_b in E.
    destruct (bool_decide_reflect (trim value = [])); cbn [negb] in E; [by simplify_eq|].
    destruct (rmapM code128_char (trim value)) as [symbols|e'] eqn:E'; cbn in E; [done|].
    simplify_eq. by apply code128_chars_err in E' as (ch & -> & ?).
Qed.

Lemma code128_roundtrip_witness :
  ∃ ms, encode_code128_b (lit " Tote-42 ") = Ok ms ∧ scan_code128 ms = Some (lit "Tote-42").
Proof.
  pose proof (code128_roundtrip (lit " Tote-42 ")) as H.
  destruct (encode_code128_b (lit " Tote-42 ")) as [ms|e] eqn:E; [|vm_compute in E; discriminate E].
  exists ms. split; [reflexivity|]. apply H. vm_compute. discriminate.
Defined.

(** ** Reading UPC-A back *)

Definition expand (ms : list Module_) : list bool :=
  ms ≫= (fun m => replicate (Z.to_nat (width m)) (black m)).

Definition pattern_bits (pattern : rstr) : list bool := (fun byte => byte =? 49) <$> pattern.

Definition read_digit (table : list string) (bits : list bool) : option Z :=
  find (fun ch => bool_decide (pattern_bits (table_at table (ch - 48)) = bits)) (seqZ 48 10).

Fixpoint read_digits (table : list string) (n : nat) (bits : list bool) :
    option (rstr * list bool) :=
  match n with
  | O => Some ([], bits)
  | S n =>
      digit ← read_digit table (take 7 bits);
      '(digits, rest) ← read_digits table n (drop 7 bits);
      Some (digit :: digits, rest)
  end.

(** Three times the digits in odd places plus the digits in even places. *)
Definition upc_sum (digits : rstr) : Z :=
  zsum (imap (fun idx byte => if (idx mod 2 =? 0)%nat then (byte - 48) * 3 else byte - 48) digits).

Definition scan_upc_a (ms : list Module_) : option rstr :=
  let bits := expand ms in
  if decide (take 3 bits = [true; false; true]) then
    '(left_half, rest) ← read_digits UPC_LEFT_PATTERNS 6 (drop 3 bits);
    if decide (take 5 rest = [false; true; false; true; false]) then
      '(right_half, rest) ← read_digits UPC_RIGHT_PATTERNS 6 (drop 5 rest);
      if decide (rest = [true; false; true]) then
        let digits := left_half ++ right_half in
        if upc_sum digits mod 10 =? 0 then Some digits else None
      else None
    else None
  else None.

Abbreviation ascii_digits := (Forall (fun ch => 48 ≤ ch ≤ 57)).

Lemma expand_runs b n bits : 0 ≤ n → expand (runs b n bits) = replicate (Z.to_nat n) b ++ bits.
Proof.
  revert b n. induction bits as [|bit bits IH]; intros b n Hn; cbn [runs].
  - destruct (0 <? n) eqn:E; bool_to_prop; cbn; [done|]. by replace n with 0 by lia.
  - destruct (Bool.eqb bit b) eqn:E.
    + apply Bool.eqb_prop in E as ->. rewrite IH by lia.
      replace (Z.to_nat (n + 1)) with (Z.to_nat n + 1)%nat by lia.
      rewrite replicate_add, <-app_assoc. done.
    + cbn [expand mbind list_bind]. change (list_bind _ _ _ ?l) with (expand l).
      rewrite IH by lia. done.
Qed.

Lemma expand_modules_from_bits bits : expand (modules_from_bits bits) = bits.
Proof. exact (expand_runs true 0 bits ltac:(lia)). Qed.

Lemma push_bits_fold table digits acc :
  foldl (fun bits digit => push_barcode_bits bits (table_at table (digit - 48))) acc digits =
  acc ++ (digits ≫= (fun digit => pattern_bits (table_at table (digit - 48)))).
Proof.
  revert acc. induction digits as [|d digits IH]; intros acc; cbn; [by rewrite app_nil_r|].
  rewrite IH. unfold push_barcode_bits. by rewrite <-app_assoc.
Qed.

(** The tables are readable: seven modules each, all different. *)
Definition readable (table : list string) : Prop :=
  ∀ ch, 48 ≤ ch ≤ 57 →
    read_digit table (pattern_bits (table_at table (ch - 48))) = Some ch ∧
    length (pattern_bits (table_at table (ch - 48))) = 7%nat.

Lemma readable_check table :
  forallb (fun ch =>
    bool_decide (read_digit table (pattern_bits (table_at table (ch - 48))) = Some ch)
    && bool_decide (length (pattern_bits (table_at table (ch - 48))) = 7%nat)) (seqZ 48 10) = true →
  readable table.
Proof.
  intros H ch Hch. rewrite forallb_forall in H. specialize (H ch).
  rewrite <-list_elem_of_In, elem_of_seqZ in H. specialize (H ltac:(lia)). by bool_to_prop.
Qed.

Lemma upc_tables_readable : readable UPC_LEFT_PATTERNS ∧ readable UPC_RIGHT_PATTERNS.
Proof. split; apply readable_check; vm_compute; reflexivity. Qed.

Lemma read_digits_ok table digits rest :
  readable table → ascii_digits digits →
  read_digits table (length digits)
    ((digits ≫= (fun digit => pattern_bits (table_at table (digit - 48)))) ++ rest) =
  Some (digits, rest).
Proof.
  intros Ht Hd. induction Hd as [|d digits Hd _ IH]; [done|].
  cbn [length read_digits mbind list_bind]. change (list_bind _ _ ?f ?l) with (l ≫= f).
  destruct (Ht d Hd) as [Hread Hlen]. rewrite <-app_assoc.
  rewrite take_app_le, take_ge, drop_app_le, drop_ge, Hread by lia. cbn [mbind option_bind app].
  by rewrite IH.
Qed.

Lemma upc_sum_bound digits :
  ascii_digits digits → 0 ≤ upc_sum digits ≤ 27 * Z.of_nat (length digits).
Proof.
  unfold upc_sum. intros Hd.
  assert (Hgen : ∀ f : nat → Z → Z, (∀ i c, 48 ≤ c ≤ 57 → 0 ≤ f i c ≤ 27) →
    0 ≤ zsum (imap f digits) ≤ 27 * Z.of_nat (length digits)).
  { induction Hd as [|d digits Hd _ IH]; intros f Hf; [cbn; lia|]. cbn [imap length].
    rewrite zsum_cons. pose proof (Hf 0%nat d Hd). specialize (IH (f ∘ S)).
    destruct IH; [intros i c; apply Hf|]. lia. }
  apply Hgen. intros i c Hc. destruct (_ =? _)%nat; lia.
Qed.

Lemma upc_sum_snoc digits d :
  upc_sum (digits ++ [d]) =
  upc_sum digits + (if (length digits mod 2 =? 0)%nat then (d - 48) * 3 else d - 48).
Proof.
  unfold upc_sum. rewrite imap_app, zsum_app. cbn [imap]. rewrite zsum_cons, Nat.add_0_r.
  cbn [zsum foldr]. lia.
Qed.

(** A check digit is right exactly when the weighted sum is a multiple of ten. *)
Lemma upc_check_digit_iff digits d :
  ascii_digits digits → length digits = 11%nat → 48 ≤ d ≤ 57 →
  d - 48 = upc_a_check_digit digits ↔ upc_sum (digits ++ [d]) mod 10 = 0.
Proof.
  intros Hd Hl Hdd. rewrite upc_sum_snoc, Hl. cbn [Nat.modulo Nat.divmod fst snd Nat.sub Nat.eqb].
  pose proof (upc_sum_bound digits Hd). unfold upc_a_check_digit. fold (upc_sum digits).
  rewrite u32_wrap_id by range_lia. cbn. Z.to_euclidean_division_equations. lia.
Qed.

Lemma upc_a_check_digit_range digits : 0 ≤ upc_a_check_digit digits ≤ 9.
Proof.
  unfold upc_a_check_digit. pose proof (Z.mod_pos_bound
    (10 - u32_wrap (upc_sum digits) mod 10) 10). fold (upc_sum digits). lia.
Qed.

Lemma find_none_digits digits :
  find (fun ch => negb (is_ascii_digit ch)) digits = None → ascii_digits digits.
Proof.
  intros H. apply Forall_forall. intros ch Hch%list_elem_of_In.
  pose proof (find_none _ _ H ch Hch) as E. cbn in E. unfold is_ascii_digit in E.
  bool_to_prop. lia.
Qed.

(** What [upc_a_digits] accepts: twelve digits with a right check digit. *)
Lemma upc_a_digits_valid value digits :
  upc_a_digits value = Ok digits →
  ascii_digits digits ∧ length digits = 12%nat ∧ upc_sum digits mod 10 = 0.
Proof.
  unfold upc_a_digits. generalize (List.filter (fun ch => negb (is_whitespace ch)
    && negb (ch =? 45)) (trim value)) as ds. intros ds H.
  destruct (bool_decide (ds = [])); cbn [negb] in H; [done|].
  destruct (find _ ds) eqn:Hf; [done|]. apply find_none_digits in Hf.
  destruct (length ds =? 11)%nat eqn:H11.
  - apply Nat.eqb_eq in H11. injection H as <-. pose proof (upc_a_check_digit_range ds).
    assert (Hc : 48 ≤ upc_a_check_digit ds + 48 ≤ 57) by lia. split_and!.
    + apply Forall_app; split; [done|by constructor].
    + rewrite length_app, H11. done.
    + apply upc_check_digit_iff; [done|done|done|lia].
  - destruct (length ds =? 12)%nat eqn:H12; [|done]. apply Nat.eqb_eq in H12.
    destruct (_ =? _) eqn:Hcheck; [|done]. injection H as <-. apply Z.eqb_eq in Hcheck.
    split_and!; [done|done|].
    destruct (list_nil_or_snoc ds) as [->|(pre & d & ->)]; [done|].
    rewrite length_app in H12. cbn in H12. assert (Hl : length pre = 11%nat) by lia.
    apply Forall_app in Hf as [Hpre [Hd _]%Forall_cons].
    rewrite app_nth2, Hl, take_app_le, take_ge in Hcheck by lia. cbn in Hcheck.
    by apply upc_check_digit_iff.
Qed.

Lemma trim_digits digits : ascii_digits digits → trim digits = digits.
Proof.
  intros Hd. apply trim_fixed.
  assert (Hv : ∀ ch, 48 ≤ ch ≤ 57 → is_whitespace ch = false).
  { intros ch Hch. unfold is_whitespace. repeat (apply orb_false_iff; split);
      try (apply Z.eqb_neq; lia); apply andb_false_iff; rewrite !Z.leb_gt; lia. }
  split.
  - destruct Hd; cbn; auto.
  - assert (Hr : ascii_digits (reverse digits)) by (by apply Forall_reverse).
    destruct Hr; cbn; auto.
Qed.

Lemma filter_digits digits :
  ascii_digits digits →
  List.filter (fun ch => negb (is_whitespace ch) && negb (ch =? 45)) digits = digits.
Proof.
  induction 1 as [|ch l Hch _ IH]; [done|]. cbn [List.filter].
  assert (is_whitespace ch = false) as ->.
  { unfold is_whitespace. repeat (apply orb_false_iff; split);
      try (apply Z.eqb_neq; lia); apply andb_false_iff; rewrite !Z.leb_gt; lia. }
  rewrite (proj2 (Z.eqb_neq _ _)) by lia. cbn. by rewrite IH.
Qed.

Definition half_bits (table : list string) (digits : rstr) : list bool :=
  digits ≫= (fun digit => pattern_bits (table_at table (digit - 48))).

Lemma read_half table n digits rest :
  readable table → ascii_digits digits → length digits = n →
  read_digits table n (half_bits table digits ++ rest) = Some (digits, rest).
Proof. intros Ht Hd <-. by apply read_digits_ok. Qed.

Lemma half_bits_length table digits :
  readable table → ascii_digits digits → length (half_bits table digits) = (7 * length digits)%nat.
Proof.
  intros Ht. induction 1 as [|d digits Hd _ IH]; [done|]. unfold half_bits in *.
  cbn [mbind list_bind]. change (list_bind _ _ ?f ?l) with (l ≫= f).
  rewrite length_app, IH. destruct (Ht d Hd) as [_ ->]. cbn. lia.
Qed.

Lemma upc_a_bits_eq digits :
  upc_a_bits digits =
  [true; false; true] ++ half_bits UPC_LEFT_PATTERNS (take 6 digits) ++
  [false; true; false; true; false] ++ half_bits UPC_RIGHT_PATTERNS (drop 6 digits) ++
  [true; false; true].
Proof.
  unfold upc_a_bits. rewrite !push_bits_fold. unfold push_barcode_bits.
  rewrite <-!(assoc_L (++)). done.
Qed.

(** UPC-A round trip: whatever number the encoder accepts becomes a symbol
    of exactly 95 modules from which a scanner that checks the guard bars, the
    digit patterns and the weighted sum reads the twelve digits back. *)
Theorem upc_a_roundtrip value digits :
  upc_a_digits value = Ok digits →
  ∃ ms, encode_upc_a value = Ok ms ∧ scan_upc_a ms = Some digits ∧ length (expand ms) = 95%nat.
Proof.
  intros Hv. apply upc_a_digits_valid in Hv as Hok. destruct Hok as (Hd & Hl & Hsum).
  exists (modules_from_bits (upc_a_bits digits)). unfold encode_upc_a. rewrite Hv.
  split; [done|]. unfold scan_upc_a. rewrite expand_modules_from_bits.
  destruct upc_tables_readable as [HL HR].
  assert (Hsplit : ascii_digits (take 6 digits) ∧ ascii_digits (drop 6 digits))
    by (split; [by apply Forall_take|by apply Forall_drop]).
  assert (H6 : length (take 6 digits) = 6%nat ∧ length (drop 6 digits) = 6%nat)
    by (rewrite length_take, length_drop; lia).
  rewrite upc_a_bits_eq.
  change (take 3 ([true; false; true] ++ ?l)) with [true; false; true].
  change (drop 3 ([true; false; true] ++ ?l)) with l.
  rewrite decide_True by done. destruct H6 as [H6l H6r].
  rewrite read_half by (apply Hsplit || done).
  cbn [mbind option_bind].
  change (take 5 ([false; true; false; true; false] ++ ?l)) with [false; true; false; true; false].
  change (drop 5 ([false; true; false; true; false] ++ ?l)) with l.
  rewrite decide_True by done.
  rewrite read_half by (apply Hsplit || done).
  cbn [mbind option_bind]. rewrite decide_True by done. rewrite take_drop.
  rewrite (proj2 (Z.eqb_eq _ _) Hsum). split; [done|].
  rewrite !length_app, !half_bits_length by (done || apply Hsplit). rewrite H6l, H6r. done.
Qed.

Lemma find_digits_none digits :
  ascii_digits digits → find (fun ch => negb (is_ascii_digit ch)) digits = None.
Proof.
  induction 1 as [|ch l Hch _ IH]; [done|]. cbn. unfold is_ascii_digit at 1.
  by rewrite !(proj2 (Z.leb_le _ _)) by lia.
Qed.

(** Twelve plain digits are accepted exactly when their weighted sum is a
    multiple of ten. *)
Lemma upc_a_digits_twelve digits :
  ascii_digits digits → length digits = 12%nat →
  upc_a_digits digits =
    if upc_sum digits mod 10 =? 0 then Ok digits else Err (InvalidChecksum "UPC-A").
Proof.
  intros Hd Hl. unfold upc_a_digits. rewrite trim_digits, filter_digits by done.
  rewrite bool_decide_false by (by intros ->). cbn [negb].
  rewrite find_digits_none, Hl by done. cbn [Nat.eqb].
  destruct (list_nil_or_snoc digits) as [->|(pre & d & ->)]; [done|].
  rewrite length_app in Hl. cbn in Hl. assert (Hp : length pre = 11%nat) by lia.
  apply Forall_app in Hd as [Hpre [Hd _]%Forall_cons].
  rewrite app_nth2, Hp, take_app_le, take_ge by lia. cbn [nth Nat.sub].
  pose proof (upc_check_digit_iff pre d Hpre Hp Hd) as Hiff.
  destruct (d - 48 =? upc_a_check_digit pre) eqn:E, (upc_sum (pre ++ [d]) mod 10 =? 0) eqn:E';
    bool_to_prop; naive_solver.
Qed.

Lemma upc_sum_insert digits i d d' :
  digits !! i = Some d →
  upc_sum (<[i := d']> digits) =
  upc_sum digits + (if (i mod 2 =? 0)%nat then (d' - d) * 3 else d' - d).
Proof.
  intros Hi. pose proof (lookup_lt_Some _ _ _ Hi) as Hlt.
  rewrite <-(take_drop_middle digits i d Hi) at 1 2.
  rewrite insert_app_r_alt by (rewrite length_take; lia).
  replace (i - length (take i digits))%nat with 0%nat by (rewrite length_take; lia).
  cbn [list_insert insert]. unfold upc_sum. rewrite !imap_app, !zsum_app. cbn [imap].
  rewrite !zsum_cons, length_take, Nat.add_0_r, Nat.min_l by lia.
  destruct (i mod 2 =? 0)%nat; lia.
Qed.

(** The check digit catches every single-digit error: changing any one of
    the twelve digits of an accepted number to another digit makes the number
    rejected for its checksum. *)
Theorem upc_a_single_digit_error value digits i d d' :
  upc_a_digits value = Ok digits → digits !! i = Some d → d' ≠ d → 48 ≤ d' ≤ 57 →
  upc_a_digits (<[i := d']> digits) = Err (InvalidChecksum "UPC-A").
Proof.
  intros Hv Hi Hne Hd'. apply upc_a_digits_valid in Hv as (Hd & Hl & Hsum).
  assert (Hdd : 48 ≤ d ≤ 57) by (by apply (Forall_lookup_1 _ _ _ _ Hd Hi)).
  rewrite upc_a_digits_twelve.
  - rewrite (upc_sum_insert _ _ _ _ Hi). destruct (_ =? 0) eqn:E; [|done]. exfalso.
    bool_to_prop. destruct (i mod 2 =? 0)%nat; Z.to_euclidean_division_equations; lia.
  - by apply Forall_insert.
  - by rewrite length_insert.
Qed.

Lemma upc_a_roundtrip_witness :
  ∃ ms, encode_upc_a (lit "036000-29145 ") = Ok ms ∧
        scan_upc_a ms = Some (lit "036000291452") ∧ length (expand ms) = 95%nat.
Proof. apply (upc_a_roundtrip (lit "036000-29145 ")). vm_compute. reflexivity. Defined.

Lemma upc_a_single_digit_error_witness :
  upc_a_digits (lit "036001291452") = Err (InvalidChecksum "UPC-A").
Proof.
  apply (upc_a_single_digit_error (lit "03600029145") (lit "036000291452") 5 48 49).
  - vm_compute. reflexivity.
  - reflexivity.
  - discriminate.
  - split; discriminate.
Defined.
