(* ===== verification/Gs1.v ===== *)
(** * GS1-128 payloads ([crates/barcodes/src/lib.rs])

    The parenthesized form of a GS1 element string, its normalization to the
    symbols of the bar code (with FNC1 between a variable-length element and the
    next one) and the GS1-128 encoder. All delimiters are ASCII, so the source's
    byte indices and the character positions used here split the text at the
    same places. The element reader at the end is a specification. *)

From S2P Require Import Prelude.
From S2P Require Import RustStr.
From S2P Require Import LinearBarcode.

Inductive Gs1Symbol := Gs1Char (ch : Z) | Fnc1.

#[global] Instance Gs1Symbol_eq_dec : EqDecision Gs1Symbol.
Proof. solve_decision. Defined.

Definition validate_gs1_char (ch : Z) : result Gs1Symbol BarcodeError :=
  if ch =? 29 then Ok Fnc1
  else if is_ascii ch && negb (is_ascii_control ch) then Ok (Gs1Char ch)
  else Err (UnsupportedCharacter ch).

Definition gs1_symbols_to_string (symbols : list Gs1Symbol) : rstr :=
  (fun symbol => match symbol with Gs1Char ch => ch | Fnc1 => 29 end) <$> symbols.

Record Gs1AiSpec := MkAiSpec {
  fixed : bool;
  len : Z;
}.

Definition gs1_ai_spec (ai : rstr) : option Gs1AiSpec :=
  if one_of ai ["00"] then Some (MkAiSpec true 18)
  else if one_of ai ["01"; "02"] then Some (MkAiSpec true 14)
  else if one_of ai ["10"; "21"; "22"; "30"; "37"] then
    Some (MkAiSpec false (if one_of ai ["30"; "37"] then 8 else 20))
  else if one_of ai ["11"; "12"; "13"; "15"; "16"; "17"] then Some (MkAiSpec true 6)
  else if one_of ai ["20"] then Some (MkAiSpec true 2)
  else if one_of ai ["240"; "241"; "242"; "243"; "250"; "251"; "253"; "254"; "400"; "401";
                     "403"; "420"; "421"; "422"; "423"; "424"; "425"; "426"] then
    Some (MkAiSpec false
      (if one_of ai ["242"; "422"; "424"; "425"; "426"] then 6
       else if one_of ai ["420"] then 20
       else if one_of ai ["421"] then 12
       else if one_of ai ["423"] then 15
       else 30))
  else if (str_len ai =? 4) && forallb is_ascii_digit ai
          && one_of (take 2 ai) ["31"; "32"; "33"; "34"; "35"; "36"]
  then Some (MkAiSpec true 6)
  else None.

Definition validate_gs1_data_length (ai data : rstr) (spec : Gs1AiSpec) :
    result unit BarcodeError :=
  let n := chars_count data in
  let valid := if fixed spec then n =? len spec else (0 <? n) && (n <=? len spec) in
  ensure valid (InvalidGs1Ai ai).

(** [while index < bytes.len() && bytes[index].is_ascii_whitespace()] *)
Fixpoint skip_ascii_whitespace (s : rstr) : rstr :=
  match s with
  | [] => []
  | c :: s' => if is_ascii_whitespace c then skip_ascii_whitespace s' else s
  end.

(** The text before the first opening parenthesis, and the text from it on. *)
Fixpoint span_data (s : rstr) : rstr * rstr :=
  match s with
  | [] => ([], [])
  | d :: s' => if d =? 40 then ([], s) else let '(a, b) := span_data s' in (d :: a, b)
  end.

(** The loop over the elements; every turn consumes at least the parentheses,
    so the length of the text is enough fuel ([gs1_loop_fuel]). *)
Fixpoint gs1_loop (fuel : nat) (symbols : list Gs1Symbol) (rest : rstr) :
    result (list Gs1Symbol) BarcodeError :=
  match fuel with
  | O => Ok symbols
  | S fuel =>
      match skip_ascii_whitespace rest with
      | [] => Ok symbols
      | c :: rest =>
          check c =? 40 else InvalidGs1Ai (c :: rest) in
          match split_once 41 rest with
          | None => Err (InvalidGs1Ai rest)
          | Some (ai, rest) =>
              let? spec := ok_or (gs1_ai_spec ai) (InvalidGs1Ai ai) in
              let? ai_symbols := rmapM validate_gs1_char ai in
              let '(raw, rest) := span_data rest in
              let data := trim raw in
              let? _ := validate_gs1_data_length ai data spec in
              let? data_symbols := rmapM validate_gs1_char data in
              gs1_loop fuel
                (symbols ++ ai_symbols ++ data_symbols
                 ++ (if negb (fixed spec) && negb (bool_decide (rest = [])) then [Fnc1] else []))
                rest
          end
      end
  end.

Definition normalize_parenthesized_gs1 (value : rstr) : result (list Gs1Symbol) BarcodeError :=
  let? symbols := gs1_loop (length value) [] value in
  if bool_decide (symbols = []) then Err EmptyBarcode else Ok symbols.

Definition normalize_gs1_payload (value : rstr) : result (list Gs1Symbol) BarcodeError :=
  let value := trim value in
  check negb (bool_decide (value = [])) else EmptyBarcode in
  if existsb (fun c => c =? 40) value || existsb (fun c => c =? 41) value
  then normalize_parenthesized_gs1 value
  else rmapM validate_gs1_char value.

Definition gs1_code (symbol : Gs1Symbol) : result Z BarcodeError :=
  match symbol with
  | Gs1Char ch => code128_char ch
  | Fnc1 => Ok 102
  end.

Definition encode_gs1_128 (value : rstr) : result (list Module_) BarcodeError :=
  let? payload := normalize_gs1_payload value in
  let? codes := rmapM gs1_code payload in
  Ok (code128_modules (append_code128_checksum_and_stop (104 :: 102 :: codes))).

(** ** Reading back *)

(** A scanner of GS1-128: FNC1 in the first position, then the payload. *)
Definition scan_gs1_128 (ms : list Module_) : option (list Gs1Symbol) :=
  symbols ← scan_symbols ms;
  match symbols with
  | 102 :: payload =>
      Some ((fun c => if c =? 102 then Fnc1 else Gs1Char (c + 32)) <$> payload)
  | _ => None
  end.

(** The elements of a payload: an application identifier of two, three or four
    digits, then its fixed number of characters or the characters up to FNC1. *)
Fixpoint until_fnc1 (symbols : list Gs1Symbol) : rstr * list Gs1Symbol :=
  match symbols with
  | [] => ([], [])
  | Fnc1 :: rest => ([], rest)
  | Gs1Char ch :: rest => let '(a, b) := until_fnc1 rest in (ch :: a, b)
  end.

Fixpoint take_chars (n : nat) (symbols : list Gs1Symbol) : option (rstr * list Gs1Symbol) :=
  match n, symbols with
  | O, _ => Some ([], symbols)
  | S n, Gs1Char ch :: rest =>
      match take_chars n rest with Some (a, b) => Some (ch :: a, b) | None => None end
  | S _, _ => None
  end.

Definition read_ai (symbols : list Gs1Symbol) : option (rstr * Gs1AiSpec * list Gs1Symbol) :=
  let attempt n := '(ai, rest) ← take_chars n symbols; spec ← gs1_ai_spec ai; Some (ai, spec, rest) in
  match attempt 2%nat with
  | Some r => Some r
  | None => match attempt 3%nat with Some r => Some r | None => attempt 4%nat end
  end.

Fixpoint read_elements (fuel : nat) (symbols : list Gs1Symbol) : option (list (rstr * rstr)) :=
  match symbols, fuel with
  | [], _ => Some []
  | _, O => None
  | _, S fuel =>
      '(ai, spec, rest) ← read_ai symbols;
      '(data, rest) ← (if fixed spec then take_chars (Z.to_nat (len spec)) rest
                       else Some (until_fnc1 rest));
      elements ← read_elements fuel rest;
      Some ((ai, data) :: elements)
  end.

Definition render (elements : list (rstr * rstr)) : rstr :=
  elements ≫= (fun '(ai, data) => [40] ++ ai ++ [41] ++ data).

(** ** Application identifiers *)

Abbreviation chars := (fmap Gs1Char).

Definition FIXED_TABLE : list string :=
  ["00"; "01"; "02"; "10"; "21"; "22"; "30"; "37"; "11"; "12"; "13"; "15"; "16"; "17"; "20";
   "240"; "241"; "242"; "243"; "250"; "251"; "253"; "254"; "400"; "401"; "403"; "420"; "421";
   "422"; "423"; "424"; "425"; "426"].
Definition MEASURE_PREFIXES : list string := ["31"; "32"; "33"; "34"; "35"; "36"].

Lemma one_of_true ai names : one_of ai names = true ↔ ai ∈ lit <$> names.
Proof.
  unfold one_of. rewrite existsb_exists, list_elem_of_fmap.
  setoid_rewrite bool_decide_eq_true. setoid_rewrite <-list_elem_of_In. naive_solver.
Qed.

Lemma digits_str_len ai : forallb is_ascii_digit ai = true → str_len ai = Z.of_nat (length ai).
Proof.
  unfold str_len, as_bytes. intros H. do 1 f_equal. induction ai as [|c ai IH]; [done|].
  cbn in H. bool_to_prop. cbn. rewrite length_app, IH by done. unfold utf8_char.
  unfold is_ascii_digit in *. bool_to_prop. by rewrite (proj2 (Z.ltb_lt _ _)) by lia.
Qed.

(** The identifiers that have a specification: those of the table, and the
    four-digit measures. *)
Lemma gs1_ai_spec_shape ai spec :
  gs1_ai_spec ai = Some spec →
  ai ∈ lit <$> FIXED_TABLE ∨
  ∃ p c d, p ∈ lit <$> MEASURE_PREFIXES ∧ ai = p ++ [c; d] ∧ 48 ≤ c ≤ 57 ∧ 48 ≤ d ≤ 57.
Proof.
  unfold gs1_ai_spec. intros H.
  repeat match type of H with
  | (if one_of ai ?l then _ else _) = Some _ =>
      let E := fresh in destruct (one_of ai l) eqn:E;
      [left; apply one_of_true in E; unfold FIXED_TABLE; set_solver|]
  end.
  destruct (_ && _) eqn:E in H; [|done]. right. bool_to_prop.
  match goal with E : one_of _ _ = true |- _ => apply one_of_true in E as Hp end.
  match goal with E : forallb _ _ = true |- _ => rename E into Hd end.
  rewrite digits_str_len in * by done.
  assert (Hl : length ai = 4%nat) by lia.
  destruct ai as [|a [|b [|c [|d [|]]]]]; try (cbn in Hl; lia).
  exists [a; b], c, d. cbn in Hd. unfold is_ascii_digit in Hd. bool_to_prop.
  split_and!; try lia; done.
Qed.

(** No identifier is a prefix of another one. *)
Definition ai_ok (ai : rstr) : bool :=
  forallb is_ascii_digit ai &&
  match length ai with
  | 2%nat => true
  | 3%nat => bool_decide (gs1_ai_spec (take 2 ai) = None)
  | 4%nat => bool_decide (gs1_ai_spec (take 2 ai) = None)
             && bool_decide (gs1_ai_spec (take 3 ai) = None)
  | _ => false
  end.

#[global] Instance Gs1AiSpec_eq_dec : EqDecision Gs1AiSpec.
Proof. solve_decision. Defined.

Lemma table_ai_ok : forallb ai_ok (lit <$> FIXED_TABLE) = true.
Proof. vm_compute. reflexivity. Qed.

Lemma measure_prefixes_ok :
  forallb (fun p => bool_decide (length p = 2%nat) && forallb is_ascii_digit p
    && bool_decide (gs1_ai_spec p = None)
    && forallb (fun c => bool_decide (gs1_ai_spec (p ++ [c]) = None)) (seqZ 48 10))
    (lit <$> MEASURE_PREFIXES) = true.
Proof. vm_compute. reflexivity. Qed.

Lemma gs1_ai_spec_ok ai spec : gs1_ai_spec ai = Some spec → ai_ok ai = true.
Proof.
  intros [Hin|(p & c & d & Hp & -> & Hc & Hd)]%gs1_ai_spec_shape.
  - pose proof table_ai_ok as H. rewrite forallb_forall in H. by apply H, list_elem_of_In.
  - pose proof measure_prefixes_ok as H. rewrite forallb_forall in H.
    specialize (H p (proj1 (list_elem_of_In _ _) Hp)). bool_to_prop.
    match goal with E : forallb _ (seqZ _ _) = true |- _ => rename E into H3 end.
    rewrite forallb_forall in H3. specialize (H3 c).
    rewrite <-list_elem_of_In, elem_of_seqZ in H3. specialize (H3 ltac:(lia)). bool_to_prop.
    match goal with E : length p = 2%nat |- _ => rename E into Hl end.
    destruct p as [|a [|b [|]]]; try (cbn in Hl; lia). unfold ai_ok. cbn [app length take].
    apply andb_true_iff. split; [|apply andb_true_iff; split; by apply bool_decide_eq_true].
    match goal with E : forallb _ [a; b] = true |- _ => rename E into Hab end.
    cbn in *. bool_to_prop. unfold is_ascii_digit in *.
    repeat (apply andb_true_iff; split; try done); apply Z.leb_le; lia.
Qed.

Lemma take_chars_app n s rest :
  (n ≤ length s)%nat → take_chars n (chars s ++ rest) = Some (take n s, chars (drop n s) ++ rest).
Proof.
  revert s. induction n as [|n IH]; intros s Hn; [by destruct s|].
  destruct s as [|c s]; cbn in Hn; [lia|]. cbn [fmap list_fmap app take_chars].
  change (list_fmap _ _ Gs1Char s) with (chars s). by rewrite IH by lia.
Qed.

Lemma read_ai_ok ai spec rest :
  gs1_ai_spec ai = Some spec → read_ai (chars ai ++ rest) = Some (ai, spec, rest).
Proof.
  intros Hs. apply gs1_ai_spec_ok in Hs as Hok. unfold ai_ok in Hok. unfold read_ai.
  apply andb_true_iff in Hok as [_ Hok].
  assert (Hfull : ∀ n, length ai = n → ('(a, r) ← take_chars n (chars ai ++ rest);
      sp ← gs1_ai_spec a; Some (a, sp, r)) = Some (ai, spec, rest)).
  { intros n <-. rewrite take_chars_app by lia. cbn [mbind option_bind].
    by rewrite take_ge, drop_ge, Hs by lia. }
  assert (Hskip : ∀ n, (n ≤ length ai)%nat → gs1_ai_spec (take n ai) = None →
    ('(a, r) ← take_chars n (chars ai ++ rest); sp ← gs1_ai_spec a; Some (a, sp, r)) = None).
  { intros n Hn Hnone. rewrite take_chars_app by lia. cbn [mbind option_bind]. by rewrite Hnone. }
  destruct (length ai) as [|[|[|[|[|]]]]] eqn:Hl; try done.
  - by rewrite Hfull.
  - bool_to_prop. by rewrite Hskip, Hfull by (done || lia).
  - bool_to_prop. by rewrite (Hskip 2%nat), (Hskip 3%nat), Hfull by (done || lia).
Qed.

(** ** Well-formed element strings *)

Definition plain (ch : Z) : Prop := 32 ≤ ch ≤ 126 ∧ ch ≠ 40.

Definition element_ok (e : rstr * rstr) : Prop :=
  ∃ spec, gs1_ai_spec e.1 = Some spec ∧ validate_gs1_data_length e.1 e.2 spec = Ok tt ∧
          Forall plain e.2 ∧ trim e.2 = e.2.

Definition is_variable (ai : rstr) : bool :=
  match gs1_ai_spec ai with Some spec => negb (fixed spec) | None => false end.

Fixpoint symbols_of (elements : list (rstr * rstr)) : list Gs1Symbol :=
  match elements with
  | [] => []
  | (ai, data) :: elements =>
      chars ai ++ chars data
      ++ (if is_variable ai && negb (bool_decide (elements = [])) then [Fnc1] else [])
      ++ symbols_of elements
  end.

Lemma validate_printable s :
  Forall (fun c => 32 ≤ c ≤ 126) s → rmapM validate_gs1_char s = Ok (chars s).
Proof.
  intros Hs. apply rmapM_ok, Forall2_fmap_r, Forall_Forall2_diag.
  eapply Forall_impl; [exact Hs|]. cbn. intros c Hc. unfold validate_gs1_char.
  rewrite (proj2 (Z.eqb_neq _ _)) by lia. unfold is_ascii, is_ascii_control.
  rewrite !(proj2 (Z.leb_le _ _)) by lia. rewrite (proj2 (Z.leb_gt _ _)) by lia.
  by rewrite (proj2 (Z.eqb_neq _ _)) by lia.
Qed.

Lemma ai_digits ai spec : gs1_ai_spec ai = Some spec → Forall (fun c => 48 ≤ c ≤ 57) ai.
Proof.
  intros H%gs1_ai_spec_ok. unfold ai_ok in H. apply andb_true_iff in H as [H _].
  apply Forall_forall. intros c Hc. rewrite forallb_forall in H.
  specialize (H c (proj1 (list_elem_of_In _ _) Hc)). unfold is_ascii_digit in H. bool_to_prop. lia.
Qed.

Lemma render_cons ai data es :
  render ((ai, data) :: es) = 40 :: ai ++ 41 :: data ++ render es.
Proof. unfold render. cbn. by rewrite <-(assoc_L (++)). Qed.

Lemma span_data_render d es : Forall plain d → span_data (d ++ render es) = (d, render es).
Proof.
  induction 1 as [|c d [_ Hc] _ IH]; cbn.
  - destruct es as [|[ai data] es]; [done|]. rewrite render_cons. done.
  - by rewrite (proj2 (Z.eqb_neq _ _)), IH.
Qed.

Lemma render_nil es : render es = [] ↔ es = [].
Proof. destruct es as [|[ai d] es]; [done|]. rewrite render_cons. naive_solver. Qed.

(** The loop turns the rendered elements into their symbols. *)
Lemma gs1_loop_render fuel acc es :
  Forall element_ok es → (length es ≤ fuel)%nat →
  gs1_loop fuel acc (render es) = Ok (acc ++ symbols_of es).
Proof.
  intros Hes. revert fuel acc. induction Hes as [|[ai data] es He _ IH]; intros fuel acc Hf.
  - cbn. rewrite app_nil_r. by destruct fuel.
  - destruct fuel as [|fuel]; [cbn in Hf; lia|]. destruct He as (spec & Hs & Hlen & Hp & Ht).
    cbn [fst snd] in *. pose proof (ai_digits ai spec Hs) as Hd.
    rewrite render_cons. cbn [gs1_loop skip_ascii_whitespace is_ascii_whitespace].
    change (is_ascii_whitespace 40) with false. cbn iota. change (40 =? 40) with true. cbn iota.
    rewrite split_once_app by (eapply Forall_impl; [exact Hd|]; cbn; lia).
    rewrite Hs. cbn [ok_or rbind].
    rewrite validate_printable by (eapply Forall_impl; [exact Hd|]; cbn; lia). cbn [rbind].
    rewrite span_data_render, Ht, Hlen by done. cbn [rbind].
    rewrite validate_printable by (eapply Forall_impl; [exact Hp|]; intros ? [? _]; done).
    cbn [rbind]. rewrite IH by (cbn in Hf; lia). cbn [symbols_of]. unfold is_variable. rewrite Hs.
    rewrite (bool_decide_ext _ _ (render_nil es)). by rewrite <-!(assoc_L (++)).
Qed.

Lemma until_fnc1_app s : until_fnc1 (chars s) = (s, []).
Proof. induction s as [|c s IH]; cbn; [done|]. change (list_fmap _ _ Gs1Char s) with (chars s).
  by rewrite IH. Qed.

Lemma until_fnc1_sep s rest : until_fnc1 (chars s ++ Fnc1 :: rest) = (s, rest).
Proof. induction s as [|c s IH]; cbn; [done|]. change (list_fmap _ _ Gs1Char s) with (chars s).
  by rewrite IH. Qed.

Lemma ai_nonempty ai spec : gs1_ai_spec ai = Some spec → ai ≠ [].
Proof. intros H%gs1_ai_spec_ok. by destruct ai. Qed.

(** The reader recovers the elements. *)
Lemma read_elements_ok fuel es :
  Forall element_ok es → (length es ≤ fuel)%nat → read_elements fuel (symbols_of es) = Some es.
Proof.
  intros Hes. revert fuel. induction Hes as [|[ai data] es He _ IH]; intros fuel Hf.
  - by destruct fuel.
  - destruct fuel as [|fuel]; [cbn in Hf; lia|]. destruct He as (spec & Hs & Hlen & Hp & _).
    cbn [fst snd] in *. cbn [symbols_of]. unfold is_variable. rewrite Hs.
    set (rest := _ ++ (_ ++ symbols_of es)).
    assert (Hne : ∃ x l, chars ai ++ rest = x :: l).
    { pose proof (ai_nonempty ai spec Hs). destruct ai; [done|]. cbn. eauto. }
    destruct Hne as (x & l & Hxl). cbn [read_elements]. rewrite Hxl. rewrite <-Hxl.
    rewrite (read_ai_ok ai spec rest Hs). cbn [mbind option_bind]. unfold rest. clear rest Hxl.
    unfold validate_gs1_data_length, ensure in Hlen. destruct (fixed spec); cbn [negb andb app].
    + destruct (_ =? _) eqn:E; [|done]. bool_to_prop. unfold chars_count in E.
      rewrite take_chars_app by lia. rewrite take_ge, drop_ge by lia. cbn [mbind option_bind].
      cbn [fmap list_fmap app]. by rewrite IH by (cbn in Hf; lia).
    + case_bool_decide as Ees; cbn [negb app].
      * subst es. cbn [symbols_of app]. rewrite app_nil_r, until_fnc1_app.
        cbn [mbind option_bind]. by destruct fuel.
      * rewrite until_fnc1_sep. cbn [mbind option_bind]. by rewrite IH by (cbn in Hf; lia).
Qed.

Lemma ai_len_positive ai spec : gs1_ai_spec ai = Some spec → 0 < len spec.
Proof.
  unfold gs1_ai_spec. intros H. repeat case_match; simplify_eq; cbn; lia.
Qed.

Lemma element_data_nonempty ai data spec :
  gs1_ai_spec ai = Some spec → validate_gs1_data_length ai data spec = Ok tt → data ≠ [].
Proof.
  intros Hs%ai_len_positive Hlen ->. unfold validate_gs1_data_length, ensure in Hlen.
  change (chars_count []) with 0 in Hlen.
  destruct (fixed spec); [|done]. by rewrite (proj2 (Z.eqb_neq _ _)) in Hlen by lia.
Qed.

Lemma render_trim es : es ≠ [] → Forall element_ok es → trim (render es) = render es.
Proof.
  intros Hne Hes. apply trim_fixed. split.
  - destruct es as [|[ai d] es]; [done|]. rewrite render_cons. done.
  - destruct (list_nil_or_snoc es) as [->|(es' & [ai d] & ->)]; [done|].
    apply Forall_app in Hes as [_ [He _]%Forall_cons].
    destruct He as (spec & Hs & Hlen & _ & Ht). cbn [fst snd] in *.
    unfold render. rewrite bind_app. cbn [mbind list_bind]. rewrite app_nil_r, !app_assoc.
    rewrite reverse_app. apply trim_fixed in Ht as [_ Hv].
    pose proof (element_data_nonempty _ _ _ Hs Hlen) as Hd.
    destruct (reverse d) as [|c l] eqn:E; [|done].
    apply (f_equal reverse) in E. by rewrite reverse_involutive in E.
Qed.

Definition valid_symbol (s : Gs1Symbol) : Prop :=
  match s with Gs1Char ch => 32 ≤ ch ≤ 126 | Fnc1 => True end.

(** Scanning what the encoder prints gives the payload back. *)
Lemma scan_gs1_encoded payload codes :
  Forall valid_symbol payload → rmapM gs1_code payload = Ok codes →
  Z.of_nat (length payload) ≤ 9000 →
  scan_gs1_128 (code128_modules (append_code128_checksum_and_stop (104 :: 102 :: codes))) =
  Some payload.
Proof.
  intros Hp Hc%rmapM_ok Hl.
  assert (Hcodes : Forall (fun c => 0 ≤ c ≤ 102) codes ∧
    (fun c => if c =? 102 then Fnc1 else Gs1Char (c + 32)) <$> codes = payload).
  { clear Hl. induction Hc as [|s c payload codes Hc _ IH]; [done|].
    apply Forall_cons in Hp as [Hs Hp]. destruct (IH Hp) as [H1 H2].
    destruct s as [ch|]; cbn in Hc; [apply code128_char_ok in Hc as [-> ?]|simplify_eq];
      cbn in Hs |- *.
    - split; [constructor; [lia|done]|]. rewrite (proj2 (Z.eqb_neq _ _)) by lia.
      f_equal; [f_equal; lia|done].
    - split; [constructor; [lia|done]|]. by f_equal. }
  destruct Hcodes as [Hr Hback]. unfold scan_gs1_128.
  rewrite scan_encoded.
  - cbn [mbind option_bind]. by rewrite Hback.
  - constructor; [lia|done].
  - cbn [length]. rewrite <-(Forall2_length _ _ _ Hc). lia.
Qed.

Lemma symbols_of_valid es : Forall element_ok es → Forall valid_symbol (symbols_of es).
Proof.
  induction 1 as [|[ai data] es (spec & Hs & _ & Hp & _) _ IH]; [constructor|].
  cbn [fst snd symbols_of] in *. rewrite !Forall_app. split_and!; [| | |done].
  - apply Forall_fmap. eapply Forall_impl; [by apply (ai_digits ai spec)|]. cbn. lia.
  - apply Forall_fmap. eapply Forall_impl; [exact Hp|]. by intros c [? _].
  - destruct (_ && _); repeat constructor.
Qed.

(** GS1-128 end to end: for any non-empty list of well-formed elements the
    encoder accepts their parenthesized form, and scanning the bars and then
    splitting the payload by the application-identifier table (two, three or
    four digits, fixed length or up to the next FNC1) returns the same elements:
    FNC1 is placed exactly where a variable-length element needs it. *)
Theorem gs1_128_roundtrip elements :
  elements ≠ [] → Forall element_ok elements →
  Z.of_nat (length (symbols_of elements)) ≤ 9000 →
  ∃ ms payload, encode_gs1_128 (render elements) = Ok ms ∧ scan_gs1_128 ms = Some payload ∧
    read_elements (length elements) payload = Some elements.
Proof.
  intros Hne Hes Hl.
  assert (Hnorm : normalize_gs1_payload (render elements) = Ok (symbols_of elements)).
  { unfold normalize_gs1_payload. rewrite render_trim by done.
    rewrite bool_decide_false by (by rewrite render_nil). cbn [negb].
    destruct elements as [|[ai d] es]; [done|]. rewrite render_cons at 1. cbn [existsb].
    change (40 =? 40) with true. cbn [orb]. unfold normalize_parenthesized_gs1.
    rewrite gs1_loop_render; [|done|].
    - cbn [rbind app]. rewrite bool_decide_false; [done|].
      apply Forall_cons in Hes as [(spec & Hs & _) _]. apply ai_nonempty in Hs. by destruct ai.
    - clear. generalize ((ai, d) :: es) as l. induction l as [|[a b] l IH]; [done|].
      rewrite render_cons. cbn [length]. rewrite length_app. cbn [length].
      rewrite length_app. lia. }
  assert (Hcodes : ∃ codes, rmapM gs1_code (symbols_of elements) = Ok codes).
  { clear -Hes. pose proof (symbols_of_valid elements Hes) as Hv.
    induction Hv as [|s l Hs _ [codes IH]]; [by exists []|]. cbn [rmapM].
    destruct s as [ch|]; cbn [gs1_code].
    - cbn in Hs. rewrite (proj2 (code128_char_ok ch (ch - 32))) by lia. cbn [rbind].
      rewrite IH. by eexists.
    - rewrite IH. by eexists. }
  destruct Hcodes as [codes Hcodes]. eexists _, (symbols_of elements). split_and!.
  - unfold encode_gs1_128. rewrite Hnorm. cbn [rbind]. rewrite Hcodes. reflexivity.
  - apply (scan_gs1_encoded _ codes); [by apply symbols_of_valid|done|done].
  - by apply read_elements_ok.
Qed.

(** More fuel does not change the loop: it always ends by itself. *)
Lemma skip_ascii_whitespace_length s : (length (skip_ascii_whitespace s) ≤ length s)%nat.
Proof. induction s as [|c s IH]; cbn; [done|]. destruct (is_ascii_whitespace c); cbn; lia. Qed.

Lemma span_data_length s : (length (span_data s).2 ≤ length s)%nat.
Proof.
  induction s as [|d s IH]; cbn; [done|]. destruct (d =? 40); cbn; [lia|].
  destruct (span_data s); cbn in *. lia.
Qed.

Lemma gs1_loop_fuel fuel fuel' acc s :
  (length s ≤ fuel)%nat → (length s ≤ fuel')%nat → gs1_loop fuel acc s = gs1_loop fuel' acc s.
Proof.
  revert fuel' acc s. induction fuel as [|fuel IH]; intros fuel' acc s Hf Hf'.
  - destruct s; [|cbn in Hf; lia]. by destruct fuel'.
  - destruct fuel' as [|fuel']; [destruct s; [done|cbn in Hf'; lia]|]. cbn [gs1_loop].
    pose proof (skip_ascii_whitespace_length s).
    destruct (skip_ascii_whitespace s) as [|c rest]; [done|]. destruct (c =? 40); [|done].
    destruct (split_once 41 rest) as [[ai rest']|] eqn:E; [|done].
    apply split_once_length in E. pose proof (span_data_length rest').
    destruct (ok_or _ _); [|done]. cbn [rbind]. destruct (rmapM _ ai); [|done]. cbn [rbind].
    destruct (span_data rest') as [raw r] eqn:Es. cbn [snd] in *.
    destruct (validate_gs1_data_length _ _ _); [|done]. cbn [rbind].
    destruct (rmapM _ (trim raw)); [|done]. cbn [rbind]. cbn [length] in *. apply IH; lia.
Qed.

Definition sample_elements : list (rstr * rstr) :=
  [(lit "01", lit "00012345678905"); (lit "10", lit "LOT-7"); (lit "3103", lit "000750");
   (lit "21", lit "SN42")].

Lemma gs1_128_roundtrip_witness :
  ∃ ms payload, encode_gs1_128 (lit "(01)00012345678905(10)LOT-7(3103)000750(21)SN42") = Ok ms ∧
    scan_gs1_128 ms = Some payload ∧ read_elements 4 payload = Some sample_elements.
Proof.
  apply (gs1_128_roundtrip sample_elements).
  - discriminate.
  - unfold sample_elements, element_ok, plain. repeat constructor; cbn [fst snd];
      (eexists; split_and!; [vm_compute; reflexivity|vm_compute; reflexivity|
         vm_compute; repeat constructor; discriminate|vm_compute; reflexivity]).
  - vm_compute. discriminate.
Defined.
