(* ===== verification/QrReader.v ===== *)
(** * A reader of QR symbols

    A specification, not code of the repository: what ISO/IEC 18004 lets a scanner
    read in a byte-mode symbol of versions 1 to 5 at level L. It is given the side
    length and the dark modules and nothing else, and it shares no definition with
    the encoder of [Qr]: the positions, the format information and the table of
    error correction codewords are the standard's own figures, the path through
    the data is a closed form, and the field product is a polynomial product with
    a reduction. [Qr] proves that it reads what the encoder draws. *)

From S2P Require Import Prelude.

Section symbol.
Context (size : Z) (dark : Z → Z → bool).

(** ** The function patterns *)

(** A symbol of version v has 17 + 4v modules a side. *)
Definition symbol_version : option Z := find (fun v => 17 + 4 * v =? size) [1; 2; 3; 4; 5].

(** The centre of the one alignment pattern (Annex E); version 1 has none. *)
Definition alignment_centre : option Z :=
  snd <$> find (fun '(side, _) => side =? size) [(25, 18); (29, 22); (33, 26); (37, 30)].

(** The ring around a centre on which a module lies. *)
Definition ring (cx cy x y : Z) : Z := Z.max (Z.abs (x - cx)) (Z.abs (y - cy)).

(** The finder pattern nearest to a module: rings 0, 1 and 3 are dark, ring 2 is
    light, ring 4 is the separator. *)
Definition finder_ring (x y : Z) : Z :=
  Z.min (ring 3 3 x y) (Z.min (ring (size - 4) 3 x y) (ring 3 (size - 4) x y)).

(** The colour the standard prescribes for a module, where it prescribes one: the
    finders and separators, the timing patterns on row 6 and column 6, the
    alignment pattern and the dark module above the lower left finder. *)
Definition prescribed (x y : Z) : option bool :=
  let alignment_ring := from_option (fun c => ring c c x y) 3 alignment_centre in
  if finder_ring x y <=? 4 then Some ((finder_ring x y <=? 1) || (finder_ring x y =? 3))
  else if (x =? 6) || (y =? 6) then Some (Z.even (x + y))
  else if alignment_ring <=? 2 then Some (negb (alignment_ring =? 1))
  else if (x =? 8) && (y =? size - 8) then Some true
  else None.

Definition cells : list (Z * Z) := seqZ 0 size ≫= (fun y => (fun x => (x, y)) <$> seqZ 0 size).

Definition patterns_present : bool :=
  forallb (fun '(x, y) => from_option (eqb (dark x y)) true (prescribed x y)) cells.

(** ** The format information *)

(** Its two copies, from bit 14 down to bit 0: around the upper left finder, and
    up from the lower left corner and on to the upper right one. *)
Definition format_copy_1 : list (Z * Z) :=
  [(0, 8); (1, 8); (2, 8); (3, 8); (4, 8); (5, 8); (7, 8); (8, 8);
   (8, 7); (8, 5); (8, 4); (8, 3); (8, 2); (8, 1); (8, 0)].

Definition format_copy_2 : list (Z * Z) :=
  [(8, size - 1); (8, size - 2); (8, size - 3); (8, size - 4); (8, size - 5); (8, size - 6);
   (8, size - 7); (size - 8, 8); (size - 7, 8); (size - 6, 8); (size - 5, 8); (size - 4, 8);
   (size - 3, 8); (size - 2, 8); (size - 1, 8)].

(** Bits, the most significant one first, as a number. *)
Definition bits_value (bits : list bool) : Z :=
  foldl (fun acc (bit : bool) => 2 * acc + (if bit then 1 else 0)) 0 bits.

Definition copy_value (copy : list (Z * Z)) : Z := bits_value ((fun '(x, y) => dark x y) <$> copy).

(** The format words of level L (Annex C), by mask pattern. *)
Definition level_l_words : list (Z * Z) :=
  [(0x77C4, 0); (0x72F3, 1); (0x7DAA, 2); (0x789D, 3);
   (0x662F, 4); (0x6318, 5); (0x6C41, 6); (0x6976, 7)].

Definition mask_pattern : option Z :=
  if copy_value format_copy_1 =? copy_value format_copy_2 then
    snd <$> find (fun '(word, _) => word =? copy_value format_copy_1) level_l_words
  else None.

(** ** The data *)

(** The condition under which a mask pattern inverts the module in row i and
    column j. *)
Definition mask_inverts (mask i j : Z) : bool :=
  match mask with
  | 0 => (i + j) mod 2
  | 1 => i mod 2
  | 2 => j mod 3
  | 3 => (i + j) mod 3
  | 4 => (i / 2 + j / 3) mod 2
  | 5 => (i * j) mod 2 + (i * j) mod 3
  | 6 => ((i * j) mod 2 + (i * j) mod 3) mod 2
  | _ => ((i + j) mod 2 + (i * j) mod 3) mod 2
  end =? 0.

(** The n-th module of the path: strips of two columns from the right, upwards
    first and then in turns, the right module of a row before the left one; the
    column of the vertical timing pattern belongs to no strip. *)
Definition path_cell (n : Z) : Z * Z :=
  let strip := n / (2 * size) in
  let step := n mod (2 * size) in
  let column := size - 2 - 2 * strip - step mod 2 in
  (if column <? 6 then column else column + 1,
   if Z.even strip then size - 1 - step / 2 else step / 2).

Definition carries_data (c : Z * Z) : bool :=
  bool_decide (prescribed c.1 c.2 = None)
  && negb (bool_decide (c ∈ format_copy_1)) && negb (bool_decide (c ∈ format_copy_2)).

Definition data_path : list (Z * Z) :=
  List.filter carries_data (path_cell <$> seqZ 0 (size * (size - 1))).

(** The bits along the path, unmasked. *)
Definition bit_stream (mask : Z) : list bool :=
  (fun '(x, y) => xorb (dark x y) (mask_inverts mask y x)) <$> data_path.
End symbol.

(** The first [n] bytes of a stream of bits. *)
Fixpoint first_bytes (n : nat) (bits : list bool) : list Z :=
  match n with
  | O => []
  | S n => bits_value (take 8 bits) :: first_bytes n (drop 8 bits)
  end.

(** ** Error detection *)

(** Error correction codewords of level L (Table 9). *)
Definition level_l_ecc (ver : Z) : option nat :=
  snd <$> find (fun '(v, _) => v =? ver) [(1, 7%nat); (2, 10%nat); (3, 15%nat); (4, 20%nat); (5, 26%nat)].

(** GF(2^8): polynomials over GF(2), multiplied and then reduced modulo
    x^8 + x^4 + x^3 + x^2 + 1 from the highest power down. *)
Definition poly_product (a b : Z) : Z :=
  foldr (fun i acc => Z.lxor acc (if Z.testbit b i then Z.shiftl a i else 0)) 0 (seqZ 0 8).

Definition poly_reduce (a : Z) : Z :=
  foldr (fun i acc => if Z.testbit acc (8 + i) then Z.lxor acc (Z.shiftl 0x11D i) else acc)
    a (seqZ 0 7).

Definition field_product (a b : Z) : Z := poly_reduce (poly_product a b).

(** The polynomial of the codewords, the highest power first, at a point. *)
Definition value_at (point : Z) (codewords : list Z) : Z :=
  foldl (fun acc c => Z.lxor (field_product acc point) c) 0 codewords.

(** No error: the polynomial vanishes at the first powers of the generator 2. *)
Definition error_free (ecc : nat) (codewords : list Z) : bool :=
  forallb (fun i => value_at (Nat.iter i (fun p => field_product p 2) 1) codewords =? 0) (seq 0 ecc).

(** ** Byte mode *)

(** Pad codewords alternate, 11101100 first. *)
Definition padding (n : nat) : list Z :=
  (fun i => if Nat.even i then 236 else 17) <$> seq 0 n.

(** The mode indicator 0100, eight bits of count, the bytes, the terminator 0000
    and padding up to the last of the data codewords. *)
Definition read_segment (codewords : nat) (bits : list bool) : option (list Z) :=
  let mode := bits_value (take 4 bits) in
  let count := Z.to_nat (bits_value (take 8 (drop 4 bits))) in
  let bits := drop 12 bits in
  let rest := drop (8 * count) bits in
  let pads := (codewords - count - 2)%nat in
  if (mode =? 4) && (bits_value (take 4 rest) =? 0) && (count + 2 <=? codewords)%nat
     && bool_decide (first_bytes pads (drop 4 rest) = padding pads)
  then Some (first_bytes count bits)
  else None.

(** ** A symbol *)

Definition read_symbol (size : Z) (dark : Z → Z → bool) : option (list Z) :=
  ver ← symbol_version size;
  ecc ← level_l_ecc ver;
  mask ← (if patterns_present size dark then mask_pattern size dark else None);
  let bits := bit_stream size dark mask in
  let total := (length bits / 8)%nat in
  if error_free ecc (first_bytes total bits)
     && forallb negb (drop (8 * total) bits)
  then read_segment (total - ecc) bits
  else None.
