(* ===== verification/Qr.v ===== *)
(** * QR symbols ([crates/barcodes/src/lib.rs])

    Byte-mode QR Code Model 2, versions 1 to 5 at level L with mask 0: version
    choice, data codewords, the error correction of [ReedSolomon], and the matrix
    with its function patterns, zigzag data placement and format bits. Indices
    ([usize]) are [Z]; a matrix is the row-major list of its modules. What is
    drawn is judged by the reader of [QrReader], which shares nothing with it. *)

From S2P Require Import Prelude.
From S2P Require Import RustStr.
From S2P Require Import Gf256.
From S2P Require Import ReedSolomon.
From S2P Require Import LinearBarcode.
From S2P Require Import QrReader.

(** ** Versions *)

Record QrVersionInfo := MkVersion {
  version : Z;
  data_codewords : Z;
  ecc_codewords : Z;
}.

Definition byte_capacity (self : QrVersionInfo) : Z :=
  saturating_sub (data_codewords self * 8) 12 / 8.

Definition QR_VERSIONS : list QrVersionInfo :=
  [MkVersion 1 19 7; MkVersion 2 34 10; MkVersion 3 55 15; MkVersion 4 80 20; MkVersion 5 108 26].

(** ** Bits and codewords *)

(** [for i in (0..len).rev() { bits.push(((value >> i) & 1) != 0) }] *)
Definition push_bits (bits : list bool) (value : Z) (len : Z) : list bool :=
  bits ++ ((fun i => negb (Z.land (Z.shiftr value i) 1 =? 0)) <$> reverse (seqZ 0 len)).

(** The fold over one chunk, on a [u8]. *)
Definition chunk_byte (chunk : list bool) : Z :=
  foldl (fun acc bit => Z.lor (Z.land (Z.shiftl acc 1) 255) (if (bit : bool) then 1 else 0))
    0 chunk.

(** [bits.chunks(8)]; only the last chunk can be shorter than eight. *)
Fixpoint bits_to_bytes (bits : list bool) : list Z :=
  match bits with
  | [] => []
  | b7 :: b6 :: b5 :: b4 :: b3 :: b2 :: b1 :: b0 :: rest =>
      chunk_byte [b7; b6; b5; b4; b3; b2; b1; b0] :: bits_to_bytes rest
  | chunk => [chunk_byte chunk]
  end.

(** [for pad in [0xEC, 0x11].into_iter().cycle()] until the length is reached. *)
Fixpoint pad_codewords (missing : nat) (ec_next : bool) : list Z :=
  match missing with
  | O => []
  | S missing => (if ec_next then 236 else 17) :: pad_codewords missing (negb ec_next)
  end.

Definition qr_data_codewords (data : list Z) (codewords : Z) : list Z :=
  let capacity_bits := codewords * 8 in
  let bits := push_bits [] 4 4 in
  let bits := push_bits bits (Z.of_nat (length data)) 8 in
  let bits := foldl (fun bits byte => push_bits bits byte 8) bits data in
  let terminator := Z.min 4 (saturating_sub capacity_bits (Z.of_nat (length bits))) in
  let bits := bits ++ replicate (Z.to_nat terminator) false in
  let bits := bits ++ replicate (Z.to_nat ((- Z.of_nat (length bits)) mod 8)) false in
  let result := bits_to_bytes bits in
  result ++ pad_codewords (Z.to_nat codewords - length result) true.

(** ** The matrix *)

Record QrGrid := MkGrid {
  modules : list bool;
  reserved : list bool;
}.

Definition idx (size x y : Z) : Z := y * size + x.

Definition set_at (l : list bool) (i : Z) (b : bool) : list bool := <[Z.to_nat i := b]> l.

Definition set_function (g : QrGrid) (size x y : Z) (is_black : bool) : QrGrid :=
  MkGrid (set_at (modules g) (idx size x y) is_black)
         (set_at (reserved g) (idx size x y) true).

(** [for b in bs { for a in as { f(a, b) } }] *)
Definition for_grid {S} (rows cols : list Z) (f : S → Z → Z → S) (s : S) : S :=
  foldl (fun s dy => foldl (fun s dx => f s dx dy) s cols) s rows.

Definition between (lo hi z : Z) : bool := (lo <=? z) && (z <=? hi).

Definition draw_finder (g : QrGrid) (size x y : Z) : QrGrid :=
  for_grid (seqZ (-1) 9) (seqZ (-1) 9) (fun g dx dy =>
    let xx := x + dx in
    let yy := y + dy in
    if (xx <? 0) || (yy <? 0) || (size <=? xx) || (size <=? yy) then g
    else
      let in_finder := between 0 6 dx && between 0 6 dy in
      let is_black := in_finder && ((dx =? 0) || (dx =? 6) || (dy =? 0) || (dy =? 6)
                                    || (between 2 4 dx && between 2 4 dy)) in
      set_function g size xx yy is_black) g.

Definition draw_timing (g : QrGrid) (size : Z) : QrGrid :=
  foldl (fun g i =>
    let is_black := i mod 2 =? 0 in
    set_function (set_function g size i 6 is_black) size 6 i is_black)
    g (seqZ 8 (size - 8 - 8)).

Definition draw_alignment (g : QrGrid) (size ver : Z) : QrGrid :=
  if ver =? 1 then g
  else
    let center := 4 * ver + 10 in
    for_grid (seqZ (-2) 5) (seqZ (-2) 5) (fun g dx dy =>
      let is_black := (Z.abs dx =? 2) || (Z.abs dy =? 2) || ((dx =? 0) && (dy =? 0)) in
      set_function g size (center + dx) (center + dy) is_black) g.

Definition reserve (g : QrGrid) (i : Z) : QrGrid := MkGrid (modules g) (set_at (reserved g) i true).

Definition reserve_format_areas (g : QrGrid) (size : Z) : QrGrid :=
  let g := foldl (fun g i =>
    if negb (i =? 6) then reserve (reserve g (idx size 8 i)) (idx size i 8) else g)
    g (seqZ 0 9) in
  foldl (fun g i => reserve (reserve g (idx size (size - 1 - i) 8)) (idx size 8 (size - 1 - i)))
    g (seqZ 0 8).

Definition qr_mask_0 (x y : Z) : bool := (x + y) mod 2 =? 0.

(** The cells in the order in which [draw_data] visits them: pairs of columns
    from the right, column 6 skipped, alternately upwards and downwards. The
    column number falls by two, so [size] turns are enough. *)
Fixpoint visit_columns (fuel : nat) (size right : Z) (upward : bool) : list (Z * Z) :=
  match fuel with
  | O => []
  | S fuel =>
      if right <=? 0 then []
      else
        let right := if right =? 6 then right - 1 else right in
        (seqZ 0 size ≫= (fun vert =>
           let y := if upward then size - 1 - vert else vert in
           (fun col => (right - col, y)) <$> seqZ 0 2))
        ++ visit_columns fuel size (saturating_sub right 2) (negb upward)
  end.

Definition visit_order (size : Z) : list (Z * Z) :=
  visit_columns (Z.to_nat size) size (size - 1) true.

(** The body of the innermost loop: a reserved cell is skipped, another one takes
    the next bit (false when the bits are used up), masked. *)
Fixpoint place_bits (size : Z) (reserved : list bool) (cells : list (Z * Z))
    (bits : list bool) (modules : list bool) : list bool :=
  match cells with
  | [] => modules
  | (x, y) :: cells =>
      let index := idx size x y in
      if default false (reserved !! Z.to_nat index) then place_bits size reserved cells bits modules
      else place_bits size reserved cells (tail bits)
             (set_at modules index (xorb (hd false bits) (qr_mask_0 x y)))
  end.

Definition draw_data (g : QrGrid) (size : Z) (codewords : list Z) : QrGrid :=
  let bits := foldl (fun bits byte => push_bits bits byte 8) [] codewords in
  MkGrid (place_bits size (reserved g) (visit_order size) bits (modules g)) (reserved g).

(** [u16] arithmetic. *)
Definition format_bits_l (mask : Z) : Z :=
  let data := Z.lor (Z.shiftl 1 3) mask in
  let rem := Nat.iter 10 (fun rem =>
    Z.lxor (Z.land (Z.shiftl rem 1) 65535) (if negb (Z.land rem 512 =? 0) then 1335 else 0)) data in
  Z.lxor (Z.lor (Z.land (Z.shiftl data 10) 65535) (Z.land rem 1023)) 21522.

Definition format_bit (bits i : Z) : bool := negb (Z.land (Z.shiftr bits i) 1 =? 0).

Definition draw_format_bits (g : QrGrid) (size mask : Z) : QrGrid :=
  let bits := format_bits_l mask in
  let set g x y i := set_function g size x y (format_bit bits i) in
  let g := foldl (fun g i => set g 8 i i) g (seqZ 0 6) in
  let g := set g 8 7 6 in
  let g := set g 8 8 7 in
  let g := set g 7 8 8 in
  let g := foldl (fun g i => set g (14 - i) 8 i) g (seqZ 9 6) in
  let g := foldl (fun g i => set g (size - 1 - i) 8 i) g (seqZ 0 8) in
  let g := foldl (fun g i => set g 8 (size - 15 + i) i) g (seqZ 8 7) in
  set_function g size 8 (size - 8) true.

Record EncodedQr := MkQr {
  qr_version : Z;
  qr_size : Z;
  qr_modules : list bool;
}.

Definition qr_size_of (ver : Z) : Z := 21 + (ver - 1) * 4.

(** The function patterns, drawn before the data. *)
Definition function_patterns (ver : Z) : QrGrid :=
  let size := qr_size_of ver in
  let g := MkGrid (replicate (Z.to_nat (size * size)) false)
                  (replicate (Z.to_nat (size * size)) false) in
  let g := draw_finder g size 0 0 in
  let g := draw_finder g size (size - 7) 0 in
  let g := draw_finder g size 0 (size - 7) in
  let g := draw_timing g size in
  let g := draw_alignment g size ver in
  let g := reserve_format_areas g size in
  set_function g size 8 (4 * ver + 9) true.

Definition build_qr_matrix (ver : Z) (codewords : list Z) : EncodedQr :=
  let size := qr_size_of ver in
  let g := function_patterns ver in
  let g := draw_data g size codewords in
  let g := draw_format_bits g size 0 in
  MkQr ver size (modules g).

Definition encode_qr (value : rstr) : result EncodedQr BarcodeError :=
  let value := trim value in
  check negb (bool_decide (value = [])) else EmptyBarcode in
  let bytes := as_bytes value in
  let? info := ok_or (find (fun info => Z.of_nat (length bytes) <=? byte_capacity info) QR_VERSIONS)
    (DataTooLong (from_option byte_capacity 0 (last QR_VERSIONS))) in
  let data := qr_data_codewords bytes (data_codewords info) in
  let ecc := reed_solomon_remainder data (Z.to_nat (ecc_codewords info)) in
  Ok (build_qr_matrix (version info) (data ++ ecc)).

(** [EncodedQr::module] *)
Definition module_at (self : EncodedQr) (x y : Z) : bool :=
  default false (qr_modules self !! Z.to_nat (y * qr_size self + x)).

(** ** Bits of bytes *)

Definition byte_bits (byte : Z) : list bool := push_bits [] byte 8.

Lemma push_bits_eq bits v len : push_bits bits v len = bits ++ push_bits [] v len.
Proof. done. Qed.

Lemma push_bytes_fold bits data :
  foldl (fun bits byte => push_bits bits byte 8) bits data = bits ++ (data ≫= byte_bits).
Proof.
  revert bits. induction data as [|b data IH]; intros bits; cbn; [by rewrite app_nil_r|].
  rewrite IH, push_bits_eq. by rewrite <-(assoc_L (++)).
Qed.

Lemma byte_bits_length b : length (byte_bits b) = 8%nat.
Proof. unfold byte_bits, push_bits. by rewrite app_nil_l, length_fmap. Qed.

Lemma byte_bits_value b : is_byte b → bits_value (byte_bits b) = b ∧ chunk_byte (byte_bits b) = b.
Proof.
  intros Hb. assert (H : (bits_value (byte_bits b) =? b) && (chunk_byte (byte_bits b) =? b) = true).
  { revert b Hb. apply all_bytes_forallb. vm_compute. reflexivity. }
  by bool_to_prop.
Qed.

Lemma bytes_bits_length data : length (data ≫= byte_bits) = (8 * length data)%nat.
Proof.
  induction data as [|b data IH]; [done|]. cbn [mbind list_bind].
  change (list_bind _ _ ?f ?l) with (l ≫= f). rewrite length_app, byte_bits_length, IH. cbn. lia.
Qed.

Lemma bits_to_bytes_cons chunk rest :
  length chunk = 8%nat → bits_to_bytes (chunk ++ rest) = chunk_byte chunk :: bits_to_bytes rest.
Proof. intros H. do 9 (destruct chunk as [|? chunk]; try done). Qed.

(** All chunks of eight bits, as a computation. *)
Fixpoint bit_lists (n : nat) : list (list bool) :=
  match n with O => [[]] | S n => (cons true <$> bit_lists n) ++ (cons false <$> bit_lists n) end.

Lemma elem_of_bit_lists l : l ∈ bit_lists (length l).
Proof.
  induction l as [|[] l IH]; [set_solver|..]; cbn; apply elem_of_app; [left|right];
    by apply list_elem_of_fmap_2.
Qed.

Lemma chunk_byte_ok chunk :
  length chunk = 8%nat → is_byte (chunk_byte chunk) ∧ byte_bits (chunk_byte chunk) = chunk.
Proof.
  intros Hl. assert (H : forallb (fun c => (0 <=? chunk_byte c) && (chunk_byte c <? 256)
    && bool_decide (byte_bits (chunk_byte c) = c)) (bit_lists 8) = true)
    by (vm_compute; reflexivity).
  rewrite forallb_forall in H. specialize (H chunk). rewrite <-Hl, <-list_elem_of_In in H.
  specialize (H (elem_of_bit_lists chunk)). bool_to_prop. unfold is_byte. done.
Qed.

(** Writing whole chunks out again gives the bits. *)
Lemma bytes_of_bits_to_bytes n bits :
  length bits = (8 * n)%nat →
  bits_to_bytes bits ≫= byte_bits = bits ∧ length (bits_to_bytes bits) = n ∧
  Forall is_byte (bits_to_bytes bits).
Proof.
  revert bits. induction n as [|n IH]; intros bits Hl.
  - destruct bits; [done|cbn in Hl; lia].
  - rewrite <-(take_drop 8 bits).
    assert (Ht : length (take 8 bits) = 8%nat) by (rewrite length_take; lia).
    rewrite bits_to_bytes_cons by done.
    destruct (IH (drop 8 bits)) as (H1 & H2 & H3); [rewrite length_drop; lia|].
    destruct (chunk_byte_ok _ Ht) as [Hb Hbits]. split_and!.
    + cbn [mbind list_bind]. change (list_bind _ _ ?f ?l) with (l ≫= f). by rewrite Hbits, H1.
    + cbn. by rewrite H2.
    + by constructor.
Qed.

(** ** Data codewords *)

Lemma pad_codewords_padding n : pad_codewords n true = padding n.
Proof.
  unfold padding. change true with (Nat.even 0). generalize 0%nat as k.
  induction n as [|n IH]; intros k; [done|].
  cbn [pad_codewords seq fmap list_fmap]. f_equal. rewrite Nat.negb_even, <-Nat.even_succ.
  apply IH.
Qed.

Lemma pad_codewords_shape n b :
  length (pad_codewords n b) = n ∧ Forall is_byte (pad_codewords n b).
Proof.
  revert b. induction n as [|n IH]; intros b; [done|]. destruct (IH (negb b)) as [H1 H2].
  cbn. split; [by rewrite H1|]. constructor; [|done]. unfold is_byte. destruct b; lia.
Qed.

(** The codewords hold the mode, the count, the data, the terminator and padding,
    and fill the version's capacity exactly. *)
Lemma qr_data_codewords_ok data n :
  Forall is_byte data → 8 * Z.of_nat (length data) + 12 ≤ 8 * n →
  Z.of_nat (length (qr_data_codewords data n)) = n ∧
  Forall is_byte (qr_data_codewords data n) ∧
  qr_data_codewords data n ≫= byte_bits =
    [false; true; false; false] ++ byte_bits (Z.of_nat (length data)) ++
    (data ≫= byte_bits) ++ replicate 4 false ++
    (padding (Z.to_nat n - (length data + 2)) ≫= byte_bits).
Proof.
  intros Hd Hcap. unfold qr_data_codewords. rewrite push_bytes_fold.
  set (head_bits := ([false; true; false; false] ++ byte_bits (Z.of_nat (length data)))
                    ++ (data ≫= byte_bits)).
  assert (Hhead : length head_bits = (12 + 8 * length data)%nat).
  { unfold head_bits. rewrite !length_app, byte_bits_length, bytes_bits_length. cbn. lia. }
  change (push_bits (push_bits [] 4 4) (Z.of_nat (length data)) 8 ++ (data ≫= byte_bits))
    with head_bits.
  rewrite Hhead. unfold saturating_sub.
  assert (Z.min 4 (Z.max 0 (n * 8 - Z.of_nat (12 + 8 * length data))) = 4) as -> by lia.
  change (Z.to_nat 4) with 4%nat.
  assert (Hlen : length (head_bits ++ replicate 4 false) = (8 * (length data + 2))%nat)
    by (rewrite length_app, Hhead, length_replicate; lia).
  rewrite Hlen.
  assert ((- Z.of_nat (8 * (length data + 2))) mod 8 = 0) as ->
    by (apply Z.mod_divide; [lia|]; exists (- Z.of_nat (length data + 2)); lia).
  change (replicate (Z.to_nat 0) false) with (@nil bool). rewrite app_nil_r.
  destruct (bytes_of_bits_to_bytes _ _ Hlen) as (Hb1 & Hb2 & Hb3).
  rewrite Hb2. set (pad := pad_codewords _ _).
  destruct (pad_codewords_shape (Z.to_nat n - (length data + 2)) true) as [Hp1 Hp2].
  fold pad in Hp1, Hp2. split_and!.
  - rewrite length_app, Hb2, Hp1. lia.
  - by apply Forall_app.
  - rewrite bind_app, Hb1. unfold head_bits, pad. rewrite pad_codewords_padding.
    by rewrite <-!(assoc_L (++)).
Qed.

Lemma first_bytes_bits l rest :
  Forall is_byte l → first_bytes (length l) ((l ≫= byte_bits) ++ rest) = l.
Proof.
  induction 1 as [|b l Hb _ IH]; [done|]. cbn [mbind list_bind length first_bytes].
  change (list_bind _ _ ?f ?l) with (l ≫= f).
  rewrite <-(assoc_L (++)).
  rewrite (take_app_length' (byte_bits b) _ 8), (drop_app_length' (byte_bits b) _ 8)
    by (symmetry; apply byte_bits_length).
  f_equal; [by apply byte_bits_value|apply IH].
Qed.

Lemma padding_shape n : length (padding n) = n ∧ Forall is_byte (padding n).
Proof. rewrite <-pad_codewords_padding. apply pad_codewords_shape. Qed.

(** The reader finds the data in their codewords. *)
Lemma read_segment_data data n rest :
  Forall is_byte data → 8 * Z.of_nat (length data) + 12 ≤ 8 * n → Z.of_nat (length data) < 256 →
  read_segment (Z.to_nat n) ((qr_data_codewords data n ≫= byte_bits) ++ rest) = Some data.
Proof.
  intros Hd Hcap Hsmall. destruct (qr_data_codewords_ok data n Hd Hcap) as (_ & _ & ->).
  rewrite <-!(assoc_L (++)).
  assert (Hb : length (byte_bits (Z.of_nat (length data))) = 8%nat) by apply byte_bits_length.
  unfold read_segment. cbv zeta.
  change (take 4 ([false; true; false; false] ++ ?l)) with [false; true; false; false].
  change (drop 4 ([false; true; false; false] ++ ?l)) with l.
  change (drop 12 ([false; true; false; false] ++ ?l)) with (drop 8 l).
  rewrite (take_app_length' (byte_bits _) _ 8), (drop_app_length' (byte_bits _) _ 8) by done.
  rewrite (proj1 (byte_bits_value (Z.of_nat (length data)) ltac:(unfold is_byte; lia))), Nat2Z.id.
  rewrite (drop_app_length' (data ≫= byte_bits)) by (symmetry; apply bytes_bits_length).
  change (take 4 (replicate 4 false ++ ?l)) with [false; false; false; false].
  change (drop 4 (replicate 4 false ++ ?l)) with l.
  change (bits_value [false; true; false; false] =? 4) with true.
  change (bits_value [false; false; false; false] =? 0) with true. cbn [andb].
  set (pads := (Z.to_nat n - (length data + 2))%nat) in *.
  assert ((Z.to_nat n - length data - 2)%nat = pads) as -> by (unfold pads; lia).
  destruct (padding_shape pads) as [Hp1 Hp2].
  pose proof (first_bytes_bits (padding pads) rest Hp2) as Hpad. rewrite Hp1 in Hpad.
  rewrite Hpad, first_bytes_bits by done.
  rewrite bool_decide_true by done. rewrite (proj2 (Nat.leb_le _ _)) by lia. done.
Qed.

(** ** Syndromes *)

Lemma field_product_eq a b : is_byte a → is_byte b → field_product a b = gf_multiply a b.
Proof.
  intros Ha Hb. apply Z.eqb_eq. revert a b Ha Hb. apply all_byte_pairs. vm_compute. reflexivity.
Qed.

Lemma value_at_eval v p : is_byte v → Forall is_byte p → value_at v p = eval v p.
Proof.
  intros Hv Hp. unfold value_at, eval, eval_from. generalize is_byte_0. generalize 0 as acc.
  induction Hp as [|c p Hc _ IH]; intros acc Hacc; [done|]. cbn [foldl].
  rewrite field_product_eq by done. apply IH. auto with rust.
Qed.

Lemma generator_power i : Nat.iter i (fun p => field_product p 2) 1 = gf_pow 2 i.
Proof.
  assert (is_byte 2) by (unfold is_byte; lia).
  induction i as [|i IH]; [done|]. rewrite Nat.iter_succ, IH. cbn [gf_pow]. apply field_product_eq; auto with rust.
Qed.

Lemma error_free_codeword data degree :
  Forall is_byte data → (0 < degree)%nat →
  error_free degree (data ++ reed_solomon_remainder data degree) = true.
Proof.
  intros Hd Hn. apply forallb_forall. intros i Hi%list_elem_of_In%elem_of_seq.
  apply Z.eqb_eq. rewrite generator_power, value_at_eval.
  - apply remainder_syndromes; [lia|done|lia].
  - apply gf_pow_byte. unfold is_byte. lia.
  - apply Forall_app. split; [done|]. by apply remainder_shape.
Qed.

(** ** Placement *)

Section placement.
Context (size : Z) (res : list bool).

Abbreviation cell_idx := (fun '(x, y) => Z.to_nat (idx size x y)).

Definition free_cells (cells : list (Z * Z)) : list (Z * Z) :=
  List.filter (fun '(x, y) => negb (default false (res !! Z.to_nat (idx size x y)))) cells.

Lemma place_bits_free cells bits m :
  place_bits size res cells bits m = place_bits size [] (free_cells cells) bits m.
Proof.
  revert bits m. induction cells as [|[x y] cells IH]; intros bits m; [done|].
  cbn [place_bits free_cells List.filter]. destruct (default false _) eqn:E; cbn [negb].
  - apply IH.
  - cbn [place_bits]. rewrite lookup_nil. cbn [default]. apply IH.
Qed.

Lemma place_bits_length cells bits m : length (place_bits size res cells bits m) = length m.
Proof.
  revert bits m. induction cells as [|[x y] cells IH]; intros bits m; [done|]. cbn [place_bits].
  destruct (default false _); rewrite IH; [done|]. unfold set_at. by rewrite length_insert.
Qed.
End placement.

Lemma place_bits_other size cells bits m i :
  i ∉ ((fun '(x, y) => Z.to_nat (idx size x y)) <$> cells) →
  place_bits size [] cells bits m !! i = m !! i.
Proof.
  revert bits m. induction cells as [|[x y] cells IH]; intros bits m Hi; [done|].
  cbn in Hi. cbn [place_bits]. rewrite lookup_nil. cbn [default].
  rewrite IH by set_solver. unfold set_at. apply list_lookup_insert_ne. set_solver.
Qed.

Lemma idx_inj size x y x' y' :
  0 ≤ x < size → 0 ≤ y < size → 0 ≤ x' < size → 0 ≤ y' < size →
  Z.to_nat (idx size x y) = Z.to_nat (idx size x' y') → x = x' ∧ y = y'.
Proof.
  unfold idx. intros Hx Hy Hx' Hy' E.
  apply Z2Nat.inj in E; [|nia..].
  destruct (Z.div_mod_unique size y y' x x') as [-> ->]; [lia..| |done]. lia.
Qed.

(** Cells without a bit left get false. *)
Lemma place_bits_extend size res cells bits m k :
  place_bits size res cells (bits ++ replicate k false) m = place_bits size res cells bits m.
Proof.
  revert bits m k. induction cells as [|[x y] cells IH]; intros bits m k; [done|].
  cbn [place_bits]. destruct (default false _); [apply IH|].
  destruct bits as [|b bits]; [|apply IH]. destruct k as [|k]; [done|]. apply (IH [] _ k).
Qed.

(** Bits placed on distinct cells are read back in order. *)
Lemma read_placed_bits size cells bits m :
  NoDup ((fun '(x, y) => Z.to_nat (idx size x y)) <$> cells) →
  Forall (fun '(x, y) => (Z.to_nat (idx size x y) < length m)%nat) cells →
  (length bits ≤ length cells)%nat →
  take (length bits) ((fun '(x, y) => xorb
     (default false (place_bits size [] cells bits m !! Z.to_nat (idx size x y)))
     (qr_mask_0 x y)) <$> cells) = bits.
Proof.
  revert bits m. induction cells as [|[x y] cells IH]; intros bits m Hn Hr Hl.
  - destruct bits; [done|cbn in Hl; lia].
  - destruct bits as [|b bits]; [done|]. cbn in Hn. apply NoDup_cons in Hn as [Hx Hn].
    apply Forall_cons in Hr as [Hxy Hr]. cbn [length] in Hl.
    cbn [fmap list_fmap length take place_bits]. rewrite lookup_nil. cbn [default hd tail].
    change (list_fmap _ _ ?f ?l) with (f <$> l). f_equal.
    + rewrite place_bits_other by done. unfold set_at. rewrite list_lookup_insert_eq by done.
      cbn. by destruct b, (qr_mask_0 x y).
    + apply IH; [done| |lia]. unfold set_at. by rewrite length_insert.
Qed.

(** ** The layout of the five versions *)

Definition format_list (size bits : Z) : list (Z * Z * bool) :=
  ((fun i => (8, i, format_bit bits i)) <$> seqZ 0 6)
  ++ [(8, 7, format_bit bits 6); (8, 8, format_bit bits 7); (7, 8, format_bit bits 8)]
  ++ ((fun i => (14 - i, 8, format_bit bits i)) <$> seqZ 9 6)
  ++ ((fun i => (size - 1 - i, 8, format_bit bits i)) <$> seqZ 0 8)
  ++ ((fun i => (8, size - 15 + i, format_bit bits i)) <$> seqZ 8 7)
  ++ [(8, size - 8, true)].

Definition draw_cells (size : Z) (cells : list (Z * Z * bool)) (g : QrGrid) : QrGrid :=
  foldl (fun g '(x, y, b) => set_function g size x y b) g cells.

Lemma draw_cells_fmap {A} size (h : A → Z * Z * bool) l g :
  draw_cells size (h <$> l) g =
  foldl (fun g i => let '(x, y, b) := h i in set_function g size x y b) g l.
Proof. unfold draw_cells. revert g. induction l as [|i l IH]; intros g; [done|]. cbn. apply IH. Qed.

Lemma draw_cells_app size l1 l2 g :
  draw_cells size (l1 ++ l2) g = draw_cells size l2 (draw_cells size l1 g).
Proof. unfold draw_cells. apply foldl_app. Qed.

Lemma draw_format_bits_cells g size mask :
  draw_format_bits g size mask = draw_cells size (format_list size (format_bits_l mask)) g.
Proof. unfold format_list. rewrite !draw_cells_app, !draw_cells_fmap. reflexivity. Qed.

Lemma draw_cells_modules size cells g i :
  i ∉ ((fun '(x, y, _) => Z.to_nat (idx size x y)) <$> cells) →
  modules (draw_cells size cells g) !! i = modules g !! i.
Proof.
  revert g. induction cells as [|[[x y] b] cells IH]; intros g Hi; [done|]. cbn in Hi.
  unfold draw_cells in *. cbn [foldl]. rewrite IH by set_solver.
  cbn. unfold set_at. apply list_lookup_insert_ne. set_solver.
Qed.

(** Modules that agree before a drawing agree after it. *)
Lemma draw_cells_congr size cells g g' i :
  length (modules g) = length (modules g') → modules g !! i = modules g' !! i →
  modules (draw_cells size cells g) !! i = modules (draw_cells size cells g') !! i.
Proof.
  revert g g'. induction cells as [|[[x y] b] cells IH]; intros g g' Hl Hi; [done|].
  unfold draw_cells in *. cbn [foldl]. apply IH; cbn [modules set_function]; unfold set_at.
  - by rewrite !length_insert.
  - destruct (decide (Z.to_nat (idx size x y) = i)) as [->|Hne].
    + destruct (decide (i < length (modules g))%nat).
      * by rewrite !list_lookup_insert_eq by lia.
      * by rewrite !list_insert_ge by lia.
    + by rewrite !list_lookup_insert_ne.
Qed.

(** The function patterns and the format information, without any data. *)
Definition blank_symbol (ver : Z) : QrGrid :=
  draw_format_bits (function_patterns ver) (qr_size_of ver) 0.

Definition lookup_module (size : Z) (l : list bool) (x y : Z) : bool :=
  default false (l !! Z.to_nat (idx size x y)).

(** What is checked of a version by computation: the cells the encoder leaves
    free, in the order in which it visits them, are the path of the reader, which
    holds distinct cells of the matrix; the format bits stay off them; the reader
    accepts the function patterns and the format information of a symbol without
    data; and the codewords fill the path up to its last byte. *)
Definition layout_ok (info : QrVersionInfo) : bool :=
  let ver := version info in
  let size := qr_size_of ver in
  let g := function_patterns ver in
  let dark := lookup_module size (modules (blank_symbol ver)) in
  let path := data_path size in
  let path_indices := (fun '(x, y) => idx size x y) <$> path in
  let format_indices := (fun '(x, y, _) => idx size x y) <$> format_list size (format_bits_l 0) in
  bool_decide (length (modules g) = Z.to_nat (size * size))
  && bool_decide (free_cells size (reserved g) (visit_order size) = path)
  && bool_decide (first_repeat id ∅ path_indices = None)
  && forallb (fun '(x, y) => between 0 (size - 1) x && between 0 (size - 1) y) path
  && forallb (fun i => (0 <=? i) && negb (existsb (Z.eqb i) path_indices)) format_indices
  && bool_decide (symbol_version size = Some ver)
  && bool_decide (level_l_ecc ver = Some (Z.to_nat (ecc_codewords info)))
  && patterns_present size dark
  && bool_decide (mask_pattern size dark = Some 0)
  && forallb (fun '(x, y) => between 0 (size - 1) x && between 0 (size - 1) y
       && negb (carries_data size (x, y))) (format_copy_1 ++ format_copy_2 size)
  && (Z.of_nat (length path) / 8 =? data_codewords info + ecc_codewords info).

Lemma layouts_ok : forallb layout_ok QR_VERSIONS = true.
Proof. vm_compute. reflexivity. Qed.

Lemma elem_of_cells size x y : (x, y) ∈ cells size → 0 ≤ x < size ∧ 0 ≤ y < size.
Proof.
  unfold cells. intros (y' & Hc & Hy%elem_of_seqZ)%list_elem_of_bind.
  apply list_elem_of_fmap in Hc as (x' & E & Hx%elem_of_seqZ). simplify_eq. lia.
Qed.

Section layout.
Context (info : QrVersionInfo) (Hin : info ∈ QR_VERSIONS).

Abbreviation ver := (version info).
Abbreviation size := (qr_size_of ver).
Abbreviation path := (data_path size).
Abbreviation cell_index := (fun '(x, y) => Z.to_nat (idx size x y)).

(** The computed facts, as propositions. *)
Record layout_facts : Prop := {
  lf_length : length (modules (function_patterns ver)) = Z.to_nat (size * size);
  lf_free : free_cells size (reserved (function_patterns ver)) (visit_order size) = path;
  lf_range x y : (x, y) ∈ path → 0 ≤ x < size ∧ 0 ≤ y < size;
  lf_distinct : NoDup (cell_index <$> path);
  lf_format i : i ∈ cell_index <$> path →
    i ∉ (fun '(x, y, _) => Z.to_nat (idx size x y)) <$> format_list size (format_bits_l 0);
  lf_version : symbol_version size = Some ver;
  lf_ecc : level_l_ecc ver = Some (Z.to_nat (ecc_codewords info));
  lf_patterns : patterns_present size (lookup_module size (modules (blank_symbol ver))) = true;
  lf_mask : mask_pattern size (lookup_module size (modules (blank_symbol ver))) = Some 0;
  lf_copies x y : (x, y) ∈ format_copy_1 ++ format_copy_2 size →
    0 ≤ x < size ∧ 0 ≤ y < size ∧ carries_data size (x, y) = false;
  lf_room : Z.of_nat (length path) / 8 = data_codewords info + ecc_codewords info;
}.

Lemma layout : layout_facts.
Proof using Hin.
  pose proof layouts_ok as H. rewrite forallb_forall in H.
  specialize (H info (proj1 (list_elem_of_In _ _) Hin)). unfold layout_ok in H. cbv zeta in H.
  rewrite !andb_true_iff, !bool_decide_eq_true, !forallb_forall, Z.eqb_eq in H.
  destruct H as ((((((((((Hlen & Hfree) & Hnd) & Hrange) & Hformat) & Hver) & Hecc) & Hpat)
    & Hmask) & Hcopies) & Hroom).
  apply first_repeat_None in Hnd as [Hnd _]. rewrite list_fmap_id in Hnd.
  assert (Hcells : ∀ x y, (x, y) ∈ path → 0 ≤ x < size ∧ 0 ≤ y < size).
  { intros x y Hc%list_elem_of_In. specialize (Hrange _ Hc). cbn in Hrange. unfold between in Hrange.
    bool_to_prop. lia. }
  split; try done.
  - apply NoDup_fmap_2_strong; [|by eapply NoDup_fmap_1].
    intros [x y] [x' y'] [Hx Hy]%Hcells [Hx' Hy']%Hcells E.
    by apply idx_inj in E as [-> ->].
  - intros i Hi Hf. apply list_elem_of_fmap in Hi as ([x y] & -> & Hc).
    apply list_elem_of_fmap in Hf as ([[x' y'] b] & E & Hf).
    pose proof (Hcells _ _ Hc). specialize (Hformat (idx size x' y')).
    rewrite <-list_elem_of_In in Hformat.
    specialize (Hformat (list_elem_of_fmap_2 (fun '(x, y, _) => idx size x y) _ _ Hf)).
    apply andb_true_iff in Hformat as [Hpos Hnot]. bool_to_prop.
    assert (E' : idx size x' y' = idx size x y) by (unfold idx in *; nia).
    rewrite E' in Hnot. apply not_true_iff_false in Hnot. apply Hnot, existsb_exists.
    exists (idx size x y). split; [|apply Z.eqb_refl]. apply list_elem_of_In.
    apply (list_elem_of_fmap_2 (fun '(x, y) => idx size x y) _ (x, y) Hc).
  - intros x y Hc%list_elem_of_In. specialize (Hcopies _ Hc). cbn beta iota in Hcopies.
    unfold between in Hcopies. rewrite !andb_true_iff, negb_true_iff in Hcopies.
    destruct Hcopies as [[Hx Hy] ?]. bool_to_prop. split_and!; lia || done.
Qed.

Context (codewords : list Z).
Abbreviation symbol := (build_qr_matrix ver codewords).

(** A module that carries no data is the one of the symbol without data. *)
Lemma fixed_module x y :
  0 ≤ x < size → 0 ≤ y < size → carries_data size (x, y) = false →
  module_at symbol x y = lookup_module size (modules (blank_symbol ver)) x y.
Proof using Hin.
  intros Hx Hy Hc. pose proof layout as L.
  unfold module_at, lookup_module, blank_symbol, build_qr_matrix. cbn [qr_modules qr_size].
  change (y * size + x) with (idx size x y). f_equal. rewrite !draw_format_bits_cells.
  apply draw_cells_congr; unfold draw_data; cbn [modules reserved]; [apply place_bits_length|].
  rewrite place_bits_free, (lf_free L). apply place_bits_other.
  intros ([x' y'] & E & Hp)%list_elem_of_fmap. destruct (lf_range L _ _ Hp) as [Hx' Hy'].
  apply idx_inj in E as [-> ->]; [|done..].
  unfold data_path in Hp. apply list_elem_of_In, filter_In in Hp as [_ Hp]. congruence.
Qed.

Lemma patterns_drawn : patterns_present size (module_at symbol) = true.
Proof using Hin.
  pose proof (lf_patterns layout) as H. unfold patterns_present in *.
  rewrite forallb_forall in *. intros [x y] Hc. specialize (H _ Hc). cbn beta iota in *.
  destruct (prescribed size x y) as [b|] eqn:Hp; [|done]. cbn [from_option] in *.
  apply list_elem_of_In, elem_of_cells in Hc as [Hx Hy].
  rewrite fixed_module; [done..|]. unfold carries_data. cbn [fst snd]. by rewrite Hp.
Qed.

Lemma mask_drawn : mask_pattern size (module_at symbol) = Some 0.
Proof using Hin.
  pose proof layout as L. rewrite <-(lf_mask L).
  assert (Hcopy : ∀ copy, copy ⊆ format_copy_1 ++ format_copy_2 size →
    copy_value (module_at symbol) copy =
    copy_value (lookup_module size (modules (blank_symbol ver))) copy).
  { intros copy Hsub. unfold copy_value. f_equal. apply list_fmap_ext.
    intros i [x y] Hi%list_elem_of_lookup_2. destruct (lf_copies L x y) as (Hx & Hy & Hc).
    - by apply Hsub.
    - by apply fixed_module. }
  unfold mask_pattern. rewrite !Hcopy by (intros c Hc; apply elem_of_app; auto). done.
Qed.

(** The bits along the reader's path are those of the codewords, and false where
    they end. *)
Lemma stream_drawn :
  Forall is_byte codewords →
  Z.of_nat (length codewords) = data_codewords info + ecc_codewords info →
  bit_stream size (module_at symbol) 0 =
  (codewords ≫= byte_bits) ++ replicate (length path - 8 * length codewords) false.
Proof using Hin.
  intros Hb Hl. pose proof layout as L. pose proof (lf_room L) as Hroom.
  set (bits := (codewords ≫= byte_bits) ++ _).
  assert (Hbits : length bits = length path).
  { unfold bits. rewrite length_app, bytes_bits_length, length_replicate.
    Z.to_euclidean_division_equations; lia. }
  rewrite <-(read_placed_bits size path bits (modules (function_patterns ver)));
    [|apply (lf_distinct L)| |lia].
  2: { rewrite (lf_length L). apply Forall_forall. intros [x y] [Hx Hy]%(lf_range L).
       unfold idx. nia. }
  rewrite Hbits, <-(length_fmap (fun '(x, y) => xorb
     (default false (place_bits size [] path bits (modules (function_patterns ver))
        !! Z.to_nat (idx size x y))) (qr_mask_0 x y)) path), take_ge by done.
  unfold bit_stream. apply list_fmap_ext. intros i [x y] Hi%list_elem_of_lookup_2. f_equal.
  - unfold module_at, build_qr_matrix. cbn [qr_modules qr_size].
    change (y * size + x) with (idx size x y).
    rewrite draw_format_bits_cells, draw_cells_modules.
    + unfold draw_data, bits. cbn [modules reserved]. rewrite push_bytes_fold, app_nil_l.
      by rewrite place_bits_free, (lf_free L), place_bits_extend.
    + apply (lf_format L).
      by apply (list_elem_of_fmap_2 (fun '(x, y) => Z.to_nat (idx size x y)) _ (x, y)).
  - unfold mask_inverts, qr_mask_0. by rewrite Z.add_comm.
Qed.
End layout.

Lemma utf8_bytes s : Forall is_char s → Forall is_byte (as_bytes s).
Proof.
  intros Hs. unfold as_bytes. apply Forall_bind. eapply Forall_impl; [exact Hs|].
  intros c Hc. unfold is_char in Hc. cbn. unfold utf8_char, is_byte.
  repeat case_match; bool_to_prop;
    repeat constructor; Z.to_euclidean_division_equations; lia.
Qed.

Lemma trim_forall (P : Z → Prop) s : Forall P s → Forall P (trim s).
Proof.
  intros Hs. unfold trim. destruct (trim_start_suffix s) as [k1 E1].
  destruct (trim_end_prefix (trim_start s)) as [k2 E2].
  rewrite E1, Forall_app in Hs. destruct Hs as [_ Hs]. rewrite E2, Forall_app in Hs. apply Hs.
Qed.

Lemma qr_versions_capacity info :
  info ∈ QR_VERSIONS →
  byte_capacity info ≤ 106 ∧ 8 * byte_capacity info + 12 ≤ 8 * data_codewords info ∧
  0 < ecc_codewords info ≤ 255 ∧ 0 ≤ data_codewords info.
Proof.
  unfold QR_VERSIONS. set_unfold. intros Hi.
  destruct_or!; subst info; vm_compute; repeat split; discriminate.
Qed.

(** The version found is the first with room, hence the smallest. *)
Lemma find_version_ok n info :
  find (fun info => n <=? byte_capacity info) QR_VERSIONS = Some info →
  info ∈ QR_VERSIONS ∧ n ≤ byte_capacity info ∧
  ∀ info', info' ∈ QR_VERSIONS → version info' < version info → byte_capacity info' < n.
Proof.
  unfold QR_VERSIONS. cbn [find]. intros H.
  repeat match type of H with
  | (if ?b then _ else _) = _ => let E := fresh "E" in destruct b eqn:E
  end; try done; simplify_eq; bool_to_prop;
  (split_and!; [set_solver|done|]); intros info' Hin Hlt;
  rewrite !elem_of_cons in Hin; destruct_or!; subst; cbn [version] in *; try lia;
  by apply elem_of_nil in Hin.
Qed.

(** A scanner reads a built symbol: everything but the data is where the standard
    has it, and the data are those of the codewords. *)
Lemma read_built info bytes :
  info ∈ QR_VERSIONS → Forall is_byte bytes → Z.of_nat (length bytes) ≤ byte_capacity info →
  let data := qr_data_codewords bytes (data_codewords info) in
  let ecc := reed_solomon_remainder data (Z.to_nat (ecc_codewords info)) in
  let qr := build_qr_matrix (version info) (data ++ ecc) in
  read_symbol (qr_size qr) (module_at qr) = Some bytes.
Proof.
  intros Hin Hb Hfit data ecc qr. destruct (qr_versions_capacity info Hin) as (Hcap & Hroom & Hecc & Hdc).
  destruct (qr_data_codewords_ok bytes (data_codewords info) Hb) as (Hl & Hcb & _); [lia|].
  fold data in Hl, Hcb. pose proof (layout info Hin) as L.
  destruct (remainder_shape (Z.to_nat (ecc_codewords info)) ltac:(lia) data Hcb) as [Hrb Hrl].
  fold ecc in Hrb, Hrl. pose proof (proj2 (Forall_app _ data ecc) (conj Hcb Hrb)) as Hall.
  assert (Hlen : Z.of_nat (length (data ++ ecc)) = data_codewords info + ecc_codewords info)
    by (rewrite length_app; lia).
  unfold read_symbol, qr. cbn [qr_size build_qr_matrix].
  rewrite (lf_version _ L). cbn [mbind option_bind]. rewrite (lf_ecc _ L). cbn [mbind option_bind].
  rewrite patterns_drawn, mask_drawn by done. cbn [mbind option_bind].
  rewrite (stream_drawn info Hin) by done. cbv zeta.
  pose proof (lf_room _ L) as Hpath.
  set (rest := replicate _ false).
  assert (Htotal : (length (((data ++ ecc) ≫= byte_bits) ++ rest) / 8)%nat = length (data ++ ecc)).
  { unfold rest. rewrite length_app, length_replicate, bytes_bits_length.
    apply Nat2Z.inj. rewrite Nat2Z.inj_div, Hlen, <-Hpath. f_equal.
    Z.to_euclidean_division_equations; lia. }
  rewrite Htotal, first_bytes_bits, drop_app_length' by (done || symmetry; apply bytes_bits_length).
  rewrite error_free_codeword by (done || lia).
  assert (forallb negb rest = true) as ->
    by (apply forallb_forall; intros b [-> _]%list_elem_of_In%elem_of_replicate; done).
  cbn [andb]. rewrite length_app, Hrl, Nat.add_sub, <-(Nat2Z.id (length data)), Hl.
  rewrite bind_app, <-(assoc_L (++)). apply read_segment_data; [done|lia..].
Qed.

(** C39. QR round trip: the encoder rejects exactly blank text and text of more
    than 106 UTF-8 bytes; otherwise it picks the smallest version with room, and a
    scanner that is shown only the modules of the symbol reads the UTF-8 bytes of
    the trimmed text. The scanner is the reader of [QrReader], which follows the
    standard and shares nothing with the encoder: it takes the version from the
    side length, requires every module of the finder, separator, timing and
    alignment patterns and the dark module to have its prescribed colour, looks
    both copies of the format information up in the standard's table, unmasks the
    path of the data with the mask pattern it read there, requires the
    Reed-Solomon syndromes to vanish, and decodes the byte-mode segment with its
    terminator and padding. *)
Theorem qr_roundtrip value :
  Forall is_char value →
  match encode_qr value with
  | Ok qr => trim value ≠ [] ∧
             read_symbol (qr_size qr) (module_at qr) = Some (as_bytes (trim value)) ∧
             ∃ info, info ∈ QR_VERSIONS ∧ qr_version qr = version info ∧
               str_len (trim value) ≤ byte_capacity info ∧
               ∀ info', info' ∈ QR_VERSIONS → version info' < version info →
                 byte_capacity info' < str_len (trim value)
  | Err EmptyBarcode => trim value = []
  | Err (DataTooLong limit) => limit = 106 ∧ limit < str_len (trim value)
  | Err _ => False
  end.
Proof.
  intros Hchars. unfold encode_qr, str_len.
  destruct (bool_decide_reflect (trim value = [])) as [|Hne]; cbn [negb]; [done|].
  assert (Hb : Forall is_byte (as_bytes (trim value))) by (by apply utf8_bytes, trim_forall).
  set (bytes := as_bytes (trim value)) in *.
  destruct (find _ QR_VERSIONS) as [info|] eqn:Hfind; cbn [ok_or rbind].
  2: { split; [done|]. pose proof (find_none _ _ Hfind (MkVersion 5 108 26)) as H.
       cbn beta in H. apply Z.leb_gt. apply H. cbn. tauto. }
  apply find_version_ok in Hfind as (Hin & Hfit & Hmin).
  split_and!; [done|by apply read_built|by exists info].
Qed.

Lemma qr_roundtrip_witness :
  ∃ qr, encode_qr (lit "LP-000123 / A1") = Ok qr ∧
        read_symbol (qr_size qr) (module_at qr) = Some (as_bytes (lit "LP-000123 / A1")).
Proof.
  assert (Hc : Forall is_char (lit "LP-000123 / A1"))
    by (apply (bool_decide_unpack _); vm_compute; exact I).
  assert (Ht : trim (lit "LP-000123 / A1") = lit "LP-000123 / A1") by (vm_compute; reflexivity).
  pose proof (qr_roundtrip (lit "LP-000123 / A1") Hc) as H.
  destruct (encode_qr (lit "LP-000123 / A1")) as [qr|e] eqn:E; [|vm_compute in E; discriminate E].
  destruct H as (_ & Hr & _). rewrite Ht in Hr.
  exists qr. split; [reflexivity|exact Hr].
Defined.
