(* ===== verification/Idempotency.v ===== *)
(** * Idempotent commands ([crates/application/src/idempotency.rs] and
      [crates/persistence-postgres/src/idempotency.rs])

    Every mutating request carries an idempotency key. The fingerprint of the
    request ([command_request_hash]) is stored with the command's result in the
    transaction of the command itself, and a request with a known key is answered
    from the stored result or refused. SHA-256 with its hex encoding and the JSON
    codec are code of other packages: they are the variables [digest],
    [to_json] and [from_json]. *)

From S2P Require Import Prelude.
From S2P Require Import RustStr.

Inductive ApplicationError :=
| Unauthorized
| Forbidden
| NotFound (what : string)
| Conflict (why : string)
| IdempotencyKeyReused
| IdempotencyKeyRequired
| InvalidRequest (why : string)
| Internal (why : string).

Definition MAX_IDEMPOTENCY_KEY_BYTES : Z := 200.
Definition REQUEST_HASH_BYTES : Z := 32.

Record CommandContext := MkContext {
  ctx_tenant_id : Z;
  ctx_actor_id : Z;
  ctx_request_id : rstr;
  ctx_idempotency_key : option rstr;
}.

Definition require_actor (self : CommandContext) (tenant_id actor_id : Z) :
    result unit ApplicationError :=
  if (ctx_tenant_id self =? tenant_id) && (ctx_actor_id self =? actor_id)
  then Ok tt else Err Forbidden.

Record CommandSchemaVersion := MkSchema {
  schema_request : Z;
  schema_result : Z;
}.

Definition V1 : CommandSchemaVersion := MkSchema 1 1.

Definition CommandSchemaVersion_new (request result_ : Z) :
    result CommandSchemaVersion ApplicationError :=
  if (request =? 0) || (result_ =? 0)
  then Err (Internal "command schema versions must be positive")
  else Ok (MkSchema request result_).

Definition CommandOperation_new (value : rstr) : result rstr ApplicationError :=
  if bool_decide (trim value = []) then Err (Internal "command operation cannot be blank")
  else Ok value.

Definition IdempotencyKey_new (value : rstr) : result rstr ApplicationError :=
  if bool_decide (trim value = []) then Err IdempotencyKeyRequired
  else if MAX_IDEMPOTENCY_KEY_BYTES <? str_len value
  then Err (InvalidRequest "idempotency key cannot exceed 200 characters")
  else Ok value.

Definition CommandRequestHash_from_stored (value : rstr) : result rstr ApplicationError :=
  if negb (str_len value =? REQUEST_HASH_BYTES * 2) || negb (forallb is_ascii_hexdigit (as_bytes value))
  then Err (Internal "stored command request hash is invalid")
  else Ok value.

(** [to_be_bytes] of an unsigned integer of [n] bytes. *)
Fixpoint le_bytes (n : nat) (z : Z) : list Z :=
  match n with O => [] | S n => z mod 256 :: le_bytes n (z / 256) end.
Definition be_bytes (n : nat) (z : Z) : list Z := reverse (le_bytes n z).

(** What the hasher is fed. *)
Definition request_preimage (actor_id : Z) (operation : rstr) (schema : CommandSchemaVersion)
    (encoded : list Z) : list Z :=
  as_bytes (lit "wareboxes-command-request-v1") ++ [0]
  ++ be_bytes 8 (str_len operation) ++ as_bytes operation
  ++ be_bytes 8 (actor_id mod 18446744073709551616)
  ++ be_bytes 4 (schema_request schema) ++ encoded.

Record PreparedCommand := MkPrepared {
  tenant_id : Z;
  actor_id : Z;
  request_id : option rstr;
  operation : rstr;
  idempotency_key : rstr;
  request_hash : rstr;
  schema : CommandSchemaVersion;
}.

Record StoredCommandResult (Json : Type) := MkStored {
  stored_request_hash : rstr;
  stored_result_json : Json;
  stored_actor_id : Z;
  stored_result_schema_version : Z;
  stored_inventory_transaction_id : option Z;
}.
Arguments MkStored {Json}.
Arguments stored_request_hash {Json}.
Arguments stored_result_json {Json}.
Arguments stored_actor_id {Json}.
Arguments stored_result_schema_version {Json}.
Arguments stored_inventory_transaction_id {Json}.

Section commands.
Context (digest : list Z → rstr).
Context {Json R : Type} (to_json : R → option Json) (from_json : Json → option R).

(** [encoded] is [serde_json::to_vec(request)]. *)
Definition command_request_hash (actor_id : Z) (operation : rstr) (schema : CommandSchemaVersion)
    (encoded : option (list Z)) : result rstr ApplicationError :=
  let? encoded := ok_or encoded (Internal "serializing command request") in
  Ok (digest (request_preimage actor_id operation schema encoded)).

Definition PreparedCommand_new (context : CommandContext) (operation : rstr)
    (schema : CommandSchemaVersion) (encoded : option (list Z)) :
    result PreparedCommand ApplicationError :=
  let? operation := CommandOperation_new operation in
  let? key := ok_or (ctx_idempotency_key context) IdempotencyKeyRequired in
  let? key := IdempotencyKey_new key in
  let? hash := command_request_hash (ctx_actor_id context) operation schema encoded in
  Ok (MkPrepared (ctx_tenant_id context) (ctx_actor_id context) (Some (ctx_request_id context))
        operation key hash schema).

Definition PreparedCommand_new_v1 (context : CommandContext) (operation : rstr)
    (encoded : option (list Z)) : result PreparedCommand ApplicationError :=
  PreparedCommand_new context operation V1 encoded.

Definition PreparedCommand_from_parts_v1 (tenant actor : Z) (request : option rstr) (key operation : rstr)
    (encoded : option (list Z)) : result PreparedCommand ApplicationError :=
  let? operation := CommandOperation_new operation in
  let? key := IdempotencyKey_new key in
  let? hash := command_request_hash actor operation V1 encoded in
  Ok (MkPrepared tenant actor request operation key hash V1).

Definition from_persisted (hash : rstr) (json : Json) (actor version : Z)
    (transaction : option Z) : result (StoredCommandResult Json) ApplicationError :=
  check negb (version =? 0) else Internal "stored command result schema version is invalid" in
  if from_option (fun t => t <=? 0) false transaction
  then Err (Internal "stored command inventory transaction is invalid")
  else Ok (MkStored hash json actor version transaction).

Definition resolve_replay (self : PreparedCommand) (stored : StoredCommandResult Json) :
    result R ApplicationError :=
  if negb (stored_actor_id stored =? actor_id self)
     || negb (bool_decide (stored_request_hash stored = request_hash self))
  then Err IdempotencyKeyReused
  else
    check stored_result_schema_version stored =? schema_result (schema self)
      else Internal "stored command result schema version does not match" in
    ok_or (from_json (stored_result_json stored)) (Internal "decoding stored command result").

Definition completed_result (self : PreparedCommand) (result_ : R) (transaction : option Z) :
    result (StoredCommandResult Json) ApplicationError :=
  let? json := ok_or (to_json result_) (Internal "encoding command result") in
  Ok (MkStored (request_hash self) json (actor_id self) (schema_result (schema self)) transaction).

(** ** The table [command_idempotency_records], unique by tenant, operation and key *)

Definition Records : Type := gmap (Z * rstr * rstr) (StoredCommandResult Json).

Definition record_key (self : PreparedCommand) : Z * rstr * rstr :=
  (tenant_id self, operation self, idempotency_key self).

Definition load_stored_result (records : Records) (self : PreparedCommand) :
    result (option (StoredCommandResult Json)) ApplicationError :=
  match records !! record_key self with
  | None => Ok None
  | Some row =>
      let? hash := CommandRequestHash_from_stored (stored_request_hash row) in
      let? stored := from_persisted hash (stored_result_json row) (stored_actor_id row)
        (stored_result_schema_version row) (stored_inventory_transaction_id row) in
      Ok (Some stored)
  end.

Definition insert_result (records : Records) (self : PreparedCommand)
    (row : StoredCommandResult Json) : result Records ApplicationError :=
  check stored_result_schema_version row <=? 2147483647
    else Internal "result schema version exceeds i32" in
  match records !! record_key self with
  | Some _ => Err (Internal "duplicate key value violates unique constraint")
  | None => Ok (<[record_key self := row]> records)
  end.

Definition replayed (records : Records) (self : PreparedCommand) :
    result (option R) ApplicationError :=
  let? stored := load_stored_result records self in
  match stored with
  | None => Ok None
  | Some stored => rmap Some (resolve_replay self stored)
  end.

Definition commit_with_inventory_transaction (records : Records) (self : PreparedCommand)
    (result_ : R) (transaction : option Z) : result (Records * R) ApplicationError :=
  let? completed := completed_result self result_ transaction in
  let? records := insert_result records self completed in
  Ok (records, result_).

Definition commit (records : Records) (self : PreparedCommand) (result_ : R) :
    result (Records * R) ApplicationError :=
  commit_with_inventory_transaction records self result_ None.

(** ** The shape of every command handler

    [if let Some(result) = prepared.replayed(..)? { return Ok(result) }], then
    the work on the rows, then [prepared.commit(tx, result)]; all in one
    transaction, so an error leaves records and rows as they were. *)
Definition run_command {Rows} (self : PreparedCommand)
    (work : Rows → result (Rows * R * option Z) ApplicationError)
    (db : Records * Rows) : result (Records * Rows * R) ApplicationError :=
  let? replay := replayed db.1 self in
  match replay with
  | Some result_ => Ok (db, result_)
  | None =>
      let? (rows, result_, transaction) := work db.2 in
      let? (records, result_) :=
        commit_with_inventory_transaction db.1 self result_ transaction in
      Ok (records, rows, result_)
  end.

(** ** Steps of the system: accepted commands, in any order *)

Inductive command_step {Rows} (db : Records * Rows) : Records * Rows → Prop :=
| command_accepted p work db' r : run_command p work db = Ok (db', r) → command_step db db'.

Lemma insert_result_ok records p row records' :
  insert_result records p row = Ok records' →
  records !! record_key p = None ∧ records' = <[record_key p := row]> records.
Proof. unfold insert_result. intros H. run H. done. Qed.

(** The first use of a key runs the command and stores its result. *)
Lemma run_command_fresh {Rows} p work (db : Records * Rows) rows r json transaction :
  db.1 !! record_key p = None → work db.2 = Ok (rows, r, transaction) →
  to_json r = Some json → schema_result (schema p) ≤ 2147483647 →
  run_command p work db =
    Ok (<[record_key p := MkStored (request_hash p) json (actor_id p)
                            (schema_result (schema p)) transaction]> db.1, rows, r).
Proof.
  intros Hfresh Hwork Hjson Hv. unfold run_command, replayed, load_stored_result.
  rewrite Hfresh. cbn [rbind rmap]. rewrite Hwork. cbn [rbind].
  unfold commit_with_inventory_transaction, completed_result, insert_result.
  rewrite Hjson. cbn [ok_or rbind stored_result_schema_version].
  by rewrite (proj2 (Z.leb_le _ _)), Hfresh by done.
Qed.

Lemma run_command_inv {Rows} p work (db : Records * Rows) db' r :
  run_command p work db = Ok (db', r) →
  (replayed db.1 p = Ok (Some r) ∧ db' = db) ∨
  (∃ transaction json, replayed db.1 p = Ok None ∧ work db.2 = Ok (db'.2, r, transaction) ∧
    to_json r = Some json ∧ schema_result (schema p) ≤ 2147483647 ∧
    db.1 !! record_key p = None ∧
    db'.1 = <[record_key p := MkStored (request_hash p) json (actor_id p)
                               (schema_result (schema p)) transaction]> db.1).
Proof.
  unfold run_command. intros H. apply rbind_ok in H as ([r'|] & Hrep & H).
  - left. by simplify_eq.
  - right. apply rbind_ok in H as ([[rows r'] transaction] & Hwork & H).
    apply rbind_ok in H as ([records r''] & Hcommit & H). injection H as <- <-.
    unfold commit_with_inventory_transaction in Hcommit.
    apply rbind_ok in Hcommit as (row & Hrow & Hcommit).
    apply rbind_ok in Hcommit as (records' & Hins & Hcommit). injection Hcommit as -> ->.
    unfold completed_result in Hrow. apply rbind_ok in Hrow as (json & Hjson & Hrow).
    destruct (to_json r'') as [j|] eqn:Ej; [|done]. cbn in Hjson. simplify_eq.
    unfold insert_result in Hins. cbn [stored_result_schema_version] in Hins.
    destruct (_ <=? _) eqn:Hver; [|done]. bool_to_prop.
    destruct (db.1 !! record_key p) eqn:Hnone; [done|]. injection Hins as <-.
    exists transaction, json. done.
Qed.

Lemma command_step_grows {Rows} (db db' : Records * Rows) :
  command_step db db' → db.1 ⊆ db'.1.
Proof.
  intros [p work db1 r H]. apply run_command_inv in H as [[_ ->]|H]; [done|].
  destruct H as (t & j & _ & _ & _ & _ & Hnone & ->). by apply insert_subseteq.
Qed.

Lemma command_steps_grow {Rows} (db db' : Records * Rows) :
  rtc command_step db db' → db.1 ⊆ db'.1.
Proof.
  induction 1 as [|db1 db2 db3 Hs _ IH]; [done|]. etrans; [|exact IH].
  by apply command_step_grows.
Qed.

(** The preimage of the fingerprint determines the request: every field before
    the encoded request has a fixed width or a length in front. *)
Lemma le_bytes_length n z : length (le_bytes n z) = n.
Proof. revert z. induction n as [|n IH]; intros z; cbn; [done|]. by rewrite IH. Qed.

Lemma le_bytes_inj n z z' :
  0 ≤ z < 256 ^ Z.of_nat n → 0 ≤ z' < 256 ^ Z.of_nat n → le_bytes n z = le_bytes n z' → z = z'.
Proof.
  revert z z'. induction n as [|n IH]; intros z z' Hz Hz'; cbn [le_bytes]; [cbn in *; lia|].
  rewrite Nat2Z.inj_succ, Z.pow_succ_r in Hz, Hz' by lia. intros [= E1 E2].
  assert (Hdiv : ∀ y, 0 ≤ y < 256 * 256 ^ Z.of_nat n → 0 ≤ y / 256 < 256 ^ Z.of_nat n).
  { intros y Hy. split; [apply Z.div_pos; lia|apply Z.div_lt_upper_bound; lia]. }
  apply IH in E2; [|by apply Hdiv..].
  rewrite (Z.div_mod z 256), (Z.div_mod z' 256) by lia. by rewrite E1, E2.
Qed.

Lemma be_bytes_inj n z z' :
  0 ≤ z < 256 ^ Z.of_nat n → 0 ≤ z' < 256 ^ Z.of_nat n → be_bytes n z = be_bytes n z' → z = z'.
Proof. intros Hz Hz' E%(inj reverse). by apply (le_bytes_inj n). Qed.

Lemma be_bytes_length n z : length (be_bytes n z) = n.
Proof. unfold be_bytes. by rewrite length_reverse, le_bytes_length. Qed.

Definition request_in_range (actor_id : Z) (operation : rstr) (s : CommandSchemaVersion) : Prop :=
  pos_i64 actor_id ∧ str_len operation ≤ u64_max ∧ in_u32 (schema_request s).

Lemma request_preimage_inj a op s enc a' op' s' enc' :
  request_in_range a op s → request_in_range a' op' s' →
  request_preimage a op s enc = request_preimage a' op' s' enc' →
  a = a' ∧ as_bytes op = as_bytes op' ∧ schema_request s = schema_request s' ∧ enc = enc'.
Proof.
  intros (Ha & Hop & Hs) (Ha' & Hop' & Hs') E. unfold request_preimage in E.
  do 2 apply (inj (app _)) in E.
  apply app_inj_1 in E as [E1 E]; [|by rewrite !be_bytes_length].
  apply be_bytes_inj in E1; [|unfold str_len in *; unfold_ranges; cbn; lia..].
  unfold str_len in E1. apply app_inj_1 in E as [E2 E]; [|lia].
  apply app_inj_1 in E as [E3 E]; [|by rewrite !be_bytes_length].
  apply be_bytes_inj in E3; [|apply Z.mod_pos_bound; lia..].
  rewrite !Z.mod_small in E3 by range_lia.
  apply app_inj_1 in E as [E4 E]; [|by rewrite !be_bytes_length].
  apply be_bytes_inj in E4; [|unfold_ranges; cbn; lia..]. done.
Qed.

(** What the other packages promise: a digest is 64 hexadecimal characters, and
    a value is decoded from what it was encoded to. *)
Context (digest_is_hex : ∀ b, CommandRequestHash_from_stored (digest b) = Ok (digest b)).
Context (json_roundtrip : ∀ r j, to_json r = Some j → from_json j = Some r).

Lemma prepared_fields ctx op s enc p :
  PreparedCommand_new ctx op s (Some enc) = Ok p →
  request_hash p = digest (request_preimage (ctx_actor_id ctx) op s enc) ∧
  actor_id p = ctx_actor_id ctx ∧ operation p = op ∧ schema p = s.
Proof.
  unfold PreparedCommand_new, command_request_hash, CommandOperation_new. intros H.
  case_bool_decide; [done|]. cbn [rbind ok_or] in H.
  destruct (ctx_idempotency_key ctx); [|done]. cbn in H.
  destruct (IdempotencyKey_new _); [|done]. cbn in H. by simplify_eq.
Qed.

Definition positive_transactions {Rows} (work : Rows → result (Rows * R * option Z) ApplicationError) :
    Prop :=
  ∀ rows rows' r t, work rows = Ok (rows', r, Some t) → 0 < t.

Definition answers (records : Records) (p : PreparedCommand) (r : R) : Prop :=
  ∃ row, records !! record_key p = Some row ∧
         load_stored_result records p = Ok (Some row) ∧ resolve_replay p row = Ok r.

Lemma load_stored_row records p row :
  load_stored_result records p = Ok (Some row) → records !! record_key p = Some row.
Proof.
  unfold load_stored_result, CommandRequestHash_from_stored, from_persisted.
  destruct (records !! record_key p) as [row'|]; [|done]. intros H. run H.
  all: by destruct row'.
Qed.

(** After an accepted command its record answers it. *)
Lemma run_command_answers {Rows} ctx op s enc p (work : Rows → _) db db' r :
  PreparedCommand_new ctx op s (Some enc) = Ok p → schema_result s ≠ 0 →
  positive_transactions work → run_command p work db = Ok (db', r) → answers db'.1 p r.
Proof.
  intros (Hhash & Hactor & _ & Hs)%prepared_fields Hv Hpos H.
  apply run_command_inv in H as [[Hrep ->]|(t & json & _ & Hwork & Hjson & _ & _ & Hins)].
  - unfold replayed in Hrep. apply rbind_ok in Hrep as ([row|] & Hload & Hrep); [|done].
    exists row. split; [by apply load_stored_row|]. split; [done|].
    destruct (resolve_replay p row); cbn in Hrep; by simplify_eq.
  - assert (Hrow : db'.1 !! record_key p = Some (MkStored (request_hash p) json (actor_id p)
      (schema_result (schema p)) t)) by (rewrite Hins; apply lookup_insert_eq).
    eexists. split; [exact Hrow|]. split.
    + unfold load_stored_result. rewrite Hrow. cbn [stored_request_hash].
      rewrite Hhash, digest_is_hex. cbn [rbind]. unfold from_persisted.
      cbn [stored_result_schema_version stored_inventory_transaction_id].
      rewrite Hs, (proj2 (Z.eqb_neq _ _) Hv). cbn [negb].
      destruct t as [t|]; cbn [from_option]; [|done].
      apply Hpos in Hwork. by rewrite (proj2 (Z.leb_gt _ _)).
    + unfold resolve_replay. cbn. rewrite Z.eqb_refl, bool_decide_true, Z.eqb_refl by done. cbn.
      by rewrite (json_roundtrip r json).
Qed.

Lemma answers_mono records records' p r : records ⊆ records' → answers records p r → answers records' p r.
Proof.
  intros Hsub (row & Hrow & Hload & Hres).
  assert (Hrow' : records' !! record_key p = Some row) by exact (lookup_weaken _ _ _ _ Hrow Hsub).
  exists row. split; [done|]. split; [|done].
  unfold load_stored_result in *. by rewrite Hrow'; rewrite Hrow in Hload.
Qed.

(** C26. A command takes effect at most once: after it has been accepted, and
    whatever other commands are accepted later, sending the same request under
    the same key again changes nothing and answers with the first result. *)
Theorem command_effect_once {Rows} ctx op s enc p (work work' : Rows → _) db1 db1' db2 r :
  PreparedCommand_new ctx op s (Some enc) = Ok p → schema_result s ≠ 0 →
  positive_transactions work → run_command p work db1 = Ok (db1', r) →
  rtc command_step db1' db2 → run_command p work' db2 = Ok (db2, r).
Proof.
  intros Hp Hv Hpos Hrun Hlater.
  pose proof (run_command_answers _ _ _ _ _ _ _ _ _ Hp Hv Hpos Hrun) as Hans.
  apply command_steps_grow in Hlater.
  destruct (answers_mono _ _ _ _ Hlater Hans) as (row & _ & Hload & Hres).
  unfold run_command, replayed. rewrite Hload. cbn [rbind]. by rewrite Hres.
Qed.

(** A key is never answered with another request's result: once a key has
    been used, a request with the same tenant, operation and key that differs in
    its actor, its schema version or its body is refused as a reuse of the key,
    provided the digest does not collide on the two requests. *)
Theorem key_reuse_refused {Rows} ctx op s enc ctx' op' s' enc' p p' (work work' : Rows → _)
    db1 db1' db2 r :
  PreparedCommand_new ctx op s (Some enc) = Ok p →
  PreparedCommand_new ctx' op' s' (Some enc') = Ok p' →
  request_in_range (ctx_actor_id ctx) op s → request_in_range (ctx_actor_id ctx') op' s' →
  (digest (request_preimage (ctx_actor_id ctx) op s enc) =
   digest (request_preimage (ctx_actor_id ctx') op' s' enc') →
   request_preimage (ctx_actor_id ctx) op s enc = request_preimage (ctx_actor_id ctx') op' s' enc') →
  (ctx_actor_id ctx, schema_request s, enc) ≠ (ctx_actor_id ctx', schema_request s', enc') →
  record_key p' = record_key p → schema_result s ≠ 0 → positive_transactions work →
  run_command p work db1 = Ok (db1', r) → rtc command_step db1' db2 →
  run_command p' work' db2 = Err IdempotencyKeyReused.
Proof.
  intros Hp Hp' Hr Hr' Hcoll Hne Hkey Hv Hpos Hrun Hlater.
  pose proof (run_command_answers _ _ _ _ _ _ _ _ _ Hp Hv Hpos Hrun) as Hans.
  apply command_steps_grow in Hlater.
  destruct (answers_mono _ _ _ _ Hlater Hans) as (row & _ & Hload & Hres).
  assert (Hload' : load_stored_result db2.1 p' = Ok (Some row))
    by (unfold load_stored_result in *; by rewrite Hkey).
  assert (Hrow : stored_request_hash row = request_hash p).
  { unfold resolve_replay in Hres. destruct (_ || _) eqn:E in Hres; [done|]. by bool_to_prop. }
  unfold run_command, replayed. rewrite Hload'. cbn [rbind].
  unfold resolve_replay. destruct (_ || _) eqn:E; [done|]. exfalso. bool_to_prop.
  apply prepared_fields in Hp as (Hh & _), Hp' as (Hh' & _).
  assert (Hpre : request_preimage (ctx_actor_id ctx) op s enc =
    request_preimage (ctx_actor_id ctx') op' s' enc') by (apply Hcoll; congruence).
  apply request_preimage_inj in Hpre as (? & _ & ? & ?); [|done..]. apply Hne. congruence.
Qed.
End commands.

(** ** Witnesses *)

(** A concrete digest of 64 digits and a trivial codec. *)
Definition sample_digest (b : list Z) : rstr :=
  (fun x => 48 + x mod 10) <$> take 64 (reverse b ++ replicate 64 0).

Lemma sample_digest_is_hex b :
  CommandRequestHash_from_stored (sample_digest b) = Ok (sample_digest b).
Proof.
  unfold CommandRequestHash_from_stored, str_len.
  assert (Hascii : ∀ s, Forall (fun c => 48 ≤ c ≤ 57) s → as_bytes s = s).
  { induction 1 as [|c s Hc _ IH]; [done|]. unfold as_bytes in *. cbn. rewrite IH.
    unfold utf8_char. by rewrite (proj2 (Z.ltb_lt _ _)) by lia. }
  assert (Hd : Forall (fun c => 48 ≤ c ≤ 57) (sample_digest b)).
  { apply Forall_fmap, Forall_forall. intros x _. cbn. pose proof (Z.mod_pos_bound x 10). lia. }
  rewrite Hascii by done.
  assert (length (sample_digest b) = 64%nat) as ->.
  { unfold sample_digest. rewrite length_fmap, length_take, length_app, length_replicate. lia. }
  assert (forallb is_ascii_hexdigit (sample_digest b) = true) as ->; [|done].
  apply forallb_forall. intros c Hc%list_elem_of_In. rewrite Forall_forall in Hd.
  specialize (Hd c Hc). unfold is_ascii_hexdigit, is_ascii_digit.
  by rewrite !(proj2 (Z.leb_le _ _)) by lia.
Qed.

Definition sample_context : CommandContext := MkContext 1 7 (lit "req-1") (Some (lit "key-1")).
Definition sample_prepared (body : list Z) : PreparedCommand :=
  MkPrepared 1 7 (Some (lit "req-1")) (lit "order.place_hold.v1") (lit "key-1")
    (sample_digest (request_preimage 7 (lit "order.place_hold.v1") V1 body)) V1.
Definition sample_work (rows : Z) : result (Z * Z * option Z) ApplicationError :=
  Ok (rows + 1, rows, None).
Definition sample_db : Records (Json := Z) * Z := (∅, 5).
Definition sample_db_after : Records (Json := Z) * Z :=
  (<[record_key (sample_prepared [1; 2]) :=
      MkStored (request_hash (sample_prepared [1; 2])) 5 7 1 None]> ∅, 6).

Lemma sample_first_run :
  run_command (Json := Z) Some Some (sample_prepared [1; 2]) sample_work sample_db =
    Ok (sample_db_after, 5).
Proof. by apply run_command_fresh. Qed.

Lemma command_effect_once_witness :
  run_command (Json := Z) Some Some (sample_prepared [1; 2]) (fun _ : Z => Err (Conflict "never run"))
    sample_db_after = Ok (sample_db_after, 5).
Proof.
  apply (command_effect_once sample_digest Some Some sample_digest_is_hex
    (fun r j H => eq_sym H) sample_context (lit "order.place_hold.v1") V1 [1; 2] _ sample_work _
    sample_db sample_db_after).
  - vm_compute. reflexivity.
  - discriminate.
  - intros rows rows' r t [=].
  - apply sample_first_run.
  - apply rtc_refl.
Defined.

Lemma key_reuse_refused_witness :
  run_command (Json := Z) Some Some (sample_prepared [1; 3]) sample_work sample_db_after =
  Err IdempotencyKeyReused.
Proof.
  apply (key_reuse_refused sample_digest Some Some sample_digest_is_hex
    (fun r j H => eq_sym H) sample_context (lit "order.place_hold.v1") V1 [1; 2]
    sample_context (lit "order.place_hold.v1") V1 [1; 3] (sample_prepared [1; 2])
    (sample_prepared [1; 3]) sample_work sample_work sample_db sample_db_after sample_db_after 5).
  - vm_compute. reflexivity.
  - vm_compute. reflexivity.
  - unfold request_in_range. vm_compute. repeat split; discriminate.
  - unfold request_in_range. vm_compute. repeat split; discriminate.
  - vm_compute. discriminate.
  - discriminate.
  - reflexivity.
  - discriminate.
  - intros rows rows' r t [=].
  - apply sample_first_run.
  - apply rtc_refl.
Defined.
