(* ===== verification/Outbox.v ===== *)
(** * The transactional outbox ([crates/persistence-postgres/src/outbox.rs])

    Domain events are written in the transaction of the change they report. An
    event key is used once per tenant, and the events of one ordering key carry
    contiguous sequence numbers. The tables are one tenant's; event columns that
    only identify scope and actor are left out. *)

From S2P Require Import Prelude.
From S2P Require Import RustStr.

Inductive PersistenceError :=
| Database (why : string)
| InvalidInput (why : string)
| UniqueViolation (constraint : string)
| PersistenceConflict (why : string)
| InvalidData (why : string).

(** [PersistenceError::invalid_input("{label} cannot be blank")] *)
Definition required_text (value : rstr) (label : string) : result unit PersistenceError :=
  if bool_decide (trim value = []) then Err (InvalidInput label) else Ok tt.

Section outbox.
Context {Payload : Type} (is_object : Payload → bool).

Record OutboxEvent := MkEvent {
  event_key : rstr;
  aggregate_type : rstr;
  aggregate_id : rstr;
  ordering_key : rstr;
  aggregate_sequence : Z;
  event_type : rstr;
  schema_version : Z;
  payload : Payload;
}.

(** [outbox_event_keys], [outbox_aggregate_sequences] and [outbox_events]. *)
Record OutboxTables := MkOutbox {
  event_keys : gset rstr;
  last_sequence : gmap rstr Z;
  events : list OutboxEvent;
}.

Definition empty_outbox : OutboxTables := MkOutbox ∅ ∅ [].

(** [next_outbox_sequence_tx] of [crates/api/src/repo/orders.rs]. *)
Definition next_outbox_sequence (t : OutboxTables) (key : rstr) : Z :=
  default 0 (last_sequence t !! key) + 1.

Definition enqueue (t : OutboxTables) (event : OutboxEvent) :
    result OutboxTables PersistenceError :=
  let? _ := required_text (event_key event) "event key" in
  let? _ := required_text (aggregate_type event) "aggregate type" in
  let? _ := required_text (aggregate_id event) "aggregate ID" in
  let? _ := required_text (ordering_key event) "ordering key" in
  let? _ := required_text (event_type event) "event type" in
  check 0 <? aggregate_sequence event
    else InvalidInput "aggregate sequence must be positive" in
  check 0 <? schema_version event else InvalidInput "schema version must be positive" in
  check is_object (payload event) else InvalidInput "outbox payload must be an object" in
  check negb (bool_decide (event_key event ∈ event_keys t))
    else UniqueViolation "outbox_event_keys" in
  let expected_sequence := from_option (fun sequence => sequence + 1) 1
                             (last_sequence t !! ordering_key event) in
  check aggregate_sequence event =? expected_sequence
    else PersistenceConflict "outbox aggregate sequence must be contiguous" in
  Ok (MkOutbox ({[event_key event]} ∪ event_keys t)
        (<[ordering_key event := aggregate_sequence event]> (last_sequence t))
        (events t ++ [event])).

(** ** The stream of an ordering key *)

Definition stream (key : rstr) (t : OutboxTables) : list OutboxEvent :=
  filter (fun e => ordering_key e = key) (events t).

Definition outbox_ok (t : OutboxTables) : Prop :=
  (∀ key, aggregate_sequence <$> stream key t = seqZ 1 (Z.of_nat (length (stream key t)))) ∧
  (∀ key, default 0 (last_sequence t !! key) = Z.of_nat (length (stream key t))) ∧
  NoDup (event_key <$> events t) ∧ (∀ k, k ∈ event_keys t ↔ k ∈ event_key <$> events t).

Lemma empty_outbox_ok : outbox_ok empty_outbox.
Proof.
  split; [done|]. split; [|split; [constructor|]].
  - intros key. cbn [last_sequence empty_outbox]. by rewrite lookup_empty.
  - intros k. cbn [events event_keys empty_outbox fmap list_fmap].
    by rewrite elem_of_empty, elem_of_nil.
Qed.

Lemma enqueue_inv t event t' :
  enqueue t event = Ok t' →
  (event_key event ∉ event_keys t) ∧
  aggregate_sequence event = default 0 (last_sequence t !! ordering_key event) + 1 ∧
  t' = MkOutbox ({[event_key event]} ∪ event_keys t)
         (<[ordering_key event := aggregate_sequence event]> (last_sequence t))
         (events t ++ [event]).
Proof.
  unfold enqueue. intros H.
  do 5 (apply rbind_ok in H as (_ & _ & H)).
  do 3 (match type of H with context [if ?b then _ else _] => destruct b; [|done] end).
  case_bool_decide; cbn [negb] in H; [done|].
  destruct (_ =? _) eqn:E in H; [|done]. simplify_eq. bool_to_prop. split_and!; try done.
  destruct (last_sequence t !! ordering_key event); cbn in *; lia.
Qed.

Lemma stream_snoc key t t' event :
  events t' = events t ++ [event] →
  stream key t' = stream key t ++ (if decide (ordering_key event = key) then [event] else []).
Proof. intros E. unfold stream. rewrite E, filter_app. cbn. by case_decide. Qed.

(** Enqueueing keeps the streams contiguous. *)
Lemma enqueue_ok t event t' : outbox_ok t → enqueue t event = Ok t' → outbox_ok t'.
Proof.
  intros (Hseq & Hlast & Hnd & Hkeys) (Hnew & Hnext & ->)%enqueue_inv.
  set (t' := MkOutbox _ _ _).
  assert (Hs : ∀ key, stream key t' = stream key t ++
    (if decide (ordering_key event = key) then [event] else []))
    by (intros; by apply stream_snoc).
  split_and!.
  - intros key. rewrite Hs. case_decide as Hk; [|rewrite app_nil_r; apply Hseq].
    rewrite fmap_app, Hseq, length_app. cbn [fmap list_fmap length].
    rewrite Nat2Z.inj_add. change (Z.of_nat 1) with 1. rewrite seqZ_app by lia. f_equal.
    rewrite seqZ_cons, seqZ_nil by lia. f_equal. rewrite Hnext, Hk, Hlast. lia.
  - intros key. cbn [last_sequence t']. rewrite Hs, length_app.
    destruct (decide (ordering_key event = key)) as [<-|Hk].
    + rewrite lookup_insert_eq. cbn. rewrite Hnext, Hlast. lia.
    + rewrite lookup_insert_ne by done. rewrite Hlast. cbn. lia.
  - cbn [events t']. rewrite fmap_app. apply NoDup_app. split_and!; [done| |apply NoDup_singleton].
    intros k Hk. rewrite <-Hkeys in Hk. set_solver.
  - intros k. cbn [events event_keys t']. rewrite fmap_app, elem_of_union, elem_of_app, Hkeys.
    set_solver.
Qed.

(** An event whose number is the next one is accepted. *)
Lemma enqueue_accepts t event :
  trim (event_key event) ≠ [] → trim (aggregate_type event) ≠ [] →
  trim (aggregate_id event) ≠ [] → trim (ordering_key event) ≠ [] →
  trim (event_type event) ≠ [] → 0 < schema_version event → is_object (payload event) = true →
  event_key event ∉ event_keys t → outbox_ok t →
  aggregate_sequence event = next_outbox_sequence t (ordering_key event) →
  is_ok (enqueue t event) = true.
Proof.
  intros H1 H2 H3 H4 H5 Hv Ho Hk (_ & Hlast & _) Hseq. unfold enqueue, required_text.
  rewrite !bool_decide_false by done. cbn [rbind].
  unfold next_outbox_sequence in Hseq. rewrite Hlast in Hseq.
  rewrite (proj2 (Z.ltb_lt _ _)) by lia. rewrite (proj2 (Z.ltb_lt _ _) Hv), Ho. cbn [negb].
  specialize (Hlast (ordering_key event)).
  destruct (last_sequence t !! ordering_key event); cbn [from_option default] in *;
    (rewrite (proj2 (Z.eqb_eq _ _)); [done|]); cbn in Hlast; lia.
Qed.
End outbox.

Arguments OutboxEvent : clear implicits.
Arguments OutboxTables : clear implicits.
