(* ===== verification/Delivery.v ===== *)
(** * Delivery of outbox events ([crates/persistence-postgres/src/outbox.rs])

    The lease protocol over the outbox table: workers claim batches of events,
    publish them and report the result; an event that keeps failing becomes a
    dead letter that an operator replays or discards; finished events are purged.
    The tables are one tenant's. A row lock held by another transaction
    ([FOR UPDATE SKIP LOCKED]) is an argument, the ids it skips; so is the
    database clock, in microseconds, read once per handler. Dates do not
    overflow. *)

From S2P Require Import Prelude.
From S2P Require Import RustStr.
From S2P Require Import Outbox.

Inductive DeliveryFailureClass := Retryable | Permanent.

Inductive DeliveryAttemptOutcome :=
| Published | RetryScheduled | PermanentFailure | RetryExhausted | LeaseLost.

#[global] Instance DeliveryFailureClass_eq_dec : EqDecision DeliveryFailureClass.
Proof. solve_decision. Defined.
#[global] Instance DeliveryAttemptOutcome_eq_dec : EqDecision DeliveryAttemptOutcome.
Proof. solve_decision. Defined.

(** [$n::BIGINT * INTERVAL '1 second']. *)
Definition seconds (n : Z) : Z := n * 1000000.

Definition bounded_text (value : rstr) (label : string) (maximum_characters : Z) :
    result unit PersistenceError :=
  let? _ := required_text value label in
  if maximum_characters <? chars_count value then Err (InvalidInput label) else Ok tt.

Section delivery.
Context {Payload : Type} (is_object : Payload → bool).

(** A row of [outbox_events]: the envelope that [enqueue] wrote, which never
    changes, and the delivery columns. *)
Record DeliveryRow := MkRow {
  row_id : Z;
  envelope : OutboxEvent Payload;
  available_at : Z;
  claimed_at : option Z;
  claimed_by : option rstr;
  lease_expires_at : option Z;
  claim_version : Z;
  attempts : Z;
  last_error : option rstr;
  dead_lettered_at : option Z;
  replay_count : Z;
  discarded_at : option Z;
  discard_reason : option rstr;
  discarded_by_user_id : option Z;
  published_at : option Z;
}.

(** [outbox_delivery_attempts], keyed by event and claim version. *)
Record DeliveryAttempt := MkAttempt {
  attempt_replay_count : Z;
  attempt_number : Z;
  attempt_worker_id : rstr;
  attempt_publisher_name : rstr;
  attempt_claimed_at : Z;
  attempt_lease_expires_at : Z;
}.

(** [outbox_delivery_attempt_results], under the same key. *)
Record DeliveryAttemptResult := MkAttemptResult {
  outcome : DeliveryAttemptOutcome;
  completed_at : Z;
  error : option rstr;
  retry_after_seconds : option Z;
}.

(** [outbox_dead_letter_replays] and [outbox_dead_letter_discards]. *)
Record DeadLetterReplay := MkReplay {
  replayed_event_id : Z;
  previous_replay_count : Z;
  resulting_replay_count : Z;
  replay_previous_attempts : Z;
  replay_last_error : option rstr;
  replayed_by_user_id : Z;
  replayed_at : Z;
}.

Record DeadLetterDiscard := MkDiscard {
  discarded_event_id : Z;
  discard_replay_count : Z;
  discard_previous_attempts : Z;
  discard_last_error : option rstr;
  discard_row_reason : rstr;
  discard_row_user_id : Z;
  discard_row_at : Z;
}.

(** [outbox] holds the keys and sequences that inserts are checked against (and
    the history of inserts); [rows] are the events that are still stored. *)
Record DeliveryDb := MkDb {
  outbox : OutboxTables Payload;
  rows : gmap Z DeliveryRow;
  next_row_id : Z;
  journal : gmap (Z * Z) DeliveryAttempt;
  results : gmap (Z * Z) DeliveryAttemptResult;
  replays : list DeadLetterReplay;
  discards : list DeadLetterDiscard;
}.

Definition empty_db : DeliveryDb := MkDb empty_outbox ∅ 1 ∅ ∅ [] [].

Definition row_key (r : DeliveryRow) : rstr := ordering_key (envelope r).
Definition row_sequence (r : DeliveryRow) : Z := aggregate_sequence (envelope r).

(** ** [enqueue]: the row that the insert creates *)

Definition fresh_row (now id : Z) (event : OutboxEvent Payload) : DeliveryRow :=
  MkRow id event now None None None 0 0 None None 0 None None None None.

Definition enqueue_event (now : Z) (event : OutboxEvent Payload) (db : DeliveryDb) :
    result (DeliveryDb * Z) PersistenceError :=
  let? tables := enqueue is_object (outbox db) event in
  let id := next_row_id db in
  Ok (MkDb tables (<[id := fresh_row now id event]> (rows db)) (id + 1) (journal db)
        (results db) (replays db) (discards db), id).

(** ** [claim_events] *)

Definition finished (r : DeliveryRow) : bool :=
  bool_decide (is_Some (published_at r)) || bool_decide (is_Some (discarded_at r)).

Definition has_open_predecessor (rs : gmap Z DeliveryRow) (r : DeliveryRow) : bool :=
  existsb (fun '(_, p) =>
      bool_decide (row_key p = row_key r) && (row_sequence p <? row_sequence r)
      && negb (finished p)) (map_to_list rs).

(** A comparison with a NULL column does not hold. *)
Definition lease_expired (now : Z) (r : DeliveryRow) : bool :=
  match lease_expires_at r with Some t => t <=? now | None => false end.

Definition claimable (now : Z) (rs : gmap Z DeliveryRow) (r : DeliveryRow) : bool :=
  bool_decide (published_at r = None) && bool_decide (dead_lettered_at r = None)
  && bool_decide (discarded_at r = None) && (available_at r <=? now)
  && (bool_decide (claimed_at r = None) || lease_expired now r)
  && negb (has_open_predecessor rs r).

Definition table_rows (rs : gmap Z DeliveryRow) : list DeliveryRow := (map_to_list rs).*2.

(** [ORDER BY event.available_at, event.id FOR UPDATE SKIP LOCKED LIMIT $3]. *)
Definition candidates (now : Z) (locked : gset Z) (batch_size : Z) (rs : gmap Z DeliveryRow) :
    list DeliveryRow :=
  take (Z.to_nat batch_size)
    (sort_by (fun r1 r2 => then_with (Z.compare (available_at r1) (available_at r2))
                             (Z.compare (row_id r1) (row_id r2)))
       (List.filter (fun r => claimable now rs r && negb (bool_decide (row_id r ∈ locked)))
          (table_rows rs))).

Definition claim_row (now lease_seconds : Z) (worker_id : rstr) (r : DeliveryRow) : DeliveryRow :=
  MkRow (row_id r) (envelope r) (available_at r) (Some now) (Some worker_id)
    (Some (now + seconds lease_seconds)) (claim_version r + 1) (attempts r + 1) (last_error r)
    (dead_lettered_at r) (replay_count r) (discarded_at r) (discard_reason r)
    (discarded_by_user_id r) (published_at r).

Definition attempt_key (r : DeliveryRow) : Z * Z := (row_id r, claim_version r).

(** The columns that the journal copies from a claimed event. *)
Definition attempt_of (publisher_name : rstr) (r : DeliveryRow) : DeliveryAttempt :=
  MkAttempt (replay_count r) (attempts r) (default [] (claimed_by r)) publisher_name
    (default 0 (claimed_at r)) (default 0 (lease_expires_at r)).

(** [INSERT INTO outbox_delivery_attempts .. SELECT ..]; a key that is there
    already fails the whole insert. *)
Definition insert_attempts (publisher_name : rstr) (claimed : list DeliveryRow)
    (log : gmap (Z * Z) DeliveryAttempt) : result (gmap (Z * Z) DeliveryAttempt) PersistenceError :=
  check bool_decide (Forall (fun r => log !! attempt_key r = None) claimed)
        && bool_decide (NoDup (attempt_key <$> claimed))
    else UniqueViolation "outbox_delivery_attempts_pkey" in
  Ok (list_to_map ((fun r => (attempt_key r, attempt_of publisher_name r)) <$> claimed) ∪ log).

Definition claim_events (now : Z) (locked : gset Z) (worker_id publisher_name : rstr)
    (batch_size lease_seconds : Z) (db : DeliveryDb) :
    result (DeliveryDb * list DeliveryRow) PersistenceError :=
  let? _ := bounded_text worker_id "worker ID" 200 in
  let? _ := bounded_text publisher_name "publisher name" 200 in
  check (1 <=? batch_size) && (batch_size <=? 1000)
    else InvalidInput "outbox batch size must be between 1 and 1000" in
  check 0 <? lease_seconds else InvalidInput "outbox claim lease must be positive" in
  let chosen := candidates now locked batch_size (rows db) in
  if existsb (fun r => (i64_max <=? claim_version r) || (i32_max <=? attempts r)) chosen
  then Err (Database "integer out of range")
  else
    let ids := row_id <$> chosen in
    let updated := (fun r => if bool_decide (row_id r ∈ ids)
                             then claim_row now lease_seconds worker_id r else r) <$> rows db in
    let events := sort_by (fun r1 r2 => Z.compare (row_id r1) (row_id r2))
                    (claim_row now lease_seconds worker_id <$> chosen) in
    if bool_decide (events = []) then Ok (db, [])
    else
      let inserted := List.filter
        (fun r => bool_decide (claimed_by r = Some worker_id) && bool_decide (row_id r ∈ ids))
        (table_rows updated) in
      let? log := insert_attempts publisher_name inserted (journal db) in
      check Z.of_nat (length inserted) =? Z.of_nat (length events)
        else InvalidData "delivery attempt journal did not record every claimed event" in
      Ok (MkDb (outbox db) updated (next_row_id db) log (results db) (replays db) (discards db),
          events).

(** ** Completion of a claim *)

(** The guards that [mark_published] and [mark_failed] share. *)
Definition holds_lease (now : Z) (worker_id : rstr) (version : Z) (r : DeliveryRow) : bool :=
  bool_decide (claimed_by r = Some worker_id) && (claim_version r =? version)
  && match lease_expires_at r with Some t => now <? t | None => false end
  && bool_decide (dead_lettered_at r = None) && bool_decide (discarded_at r = None)
  && bool_decide (published_at r = None).

(** The row that [UPDATE outbox_events .. WHERE ..] hits. *)
Definition held_row (now event_id : Z) (worker_id : rstr) (version : Z) (db : DeliveryDb) :
    option DeliveryRow :=
  match rows db !! event_id with
  | Some r => if holds_lease now worker_id version r then Some r else None
  | None => None
  end.

(** [record_delivery_result]: the new table and the number of rows inserted. *)
Definition record_delivery_result (now event_id : Z) (worker_id : rstr) (version : Z)
    (outcome_ : DeliveryAttemptOutcome) (error_ : option rstr) (retry_after : option Z)
    (db : DeliveryDb) : gmap (Z * Z) DeliveryAttemptResult * Z :=
  match journal db !! (event_id, version) with
  | Some attempt =>
      if bool_decide (attempt_worker_id attempt = worker_id) then
        match results db !! (event_id, version) with
        | Some _ => (results db, 0)
        | None => (<[(event_id, version) := MkAttemptResult outcome_ now error_ retry_after]>
                     (results db), 1)
        end
      else (results db, 0)
  | None => (results db, 0)
  end.

Definition with_rows (db : DeliveryDb) (rs : gmap Z DeliveryRow)
    (res : gmap (Z * Z) DeliveryAttemptResult) : DeliveryDb :=
  MkDb (outbox db) rs (next_row_id db) (journal db) res (replays db) (discards db).

Definition published_row (now : Z) (r : DeliveryRow) : DeliveryRow :=
  MkRow (row_id r) (envelope r) (available_at r) None None None (claim_version r) (attempts r)
    None (dead_lettered_at r) (replay_count r) (discarded_at r) (discard_reason r)
    (discarded_by_user_id r) (Some now).

Definition mark_published (now event_id : Z) (worker_id : rstr) (version : Z) (db : DeliveryDb) :
    result (DeliveryDb * bool) PersistenceError :=
  let? _ := bounded_text worker_id "worker ID" 200 in
  let target := held_row now event_id worker_id version db in
  let published := bool_decide (is_Some target) in
  let updated := match target with
                 | Some r => <[event_id := published_row now r]> (rows db)
                 | None => rows db
                 end in
  let '(recorded, journal_rows) :=
    record_delivery_result now event_id worker_id version
      (if published then Published else LeaseLost) None None db in
  if published && negb (journal_rows =? 1)
  then Err (InvalidData "published event is missing its delivery attempt result")
  else Ok (with_rows db updated recorded, published).

Record FailOutboxEvent := MkFailure {
  failed_event_id : Z;
  failed_worker_id : rstr;
  failed_claim_version : Z;
  failure_class : DeliveryFailureClass;
  failure_error : rstr;
  failure_retry_after_seconds : Z;
  failure_max_attempts : Z;
}.

(** [$1 = 'permanent' OR attempts >= $2]. *)
Definition gives_up (failure : FailOutboxEvent) (r : DeliveryRow) : bool :=
  bool_decide (failure_class failure = Permanent)
  || (failure_max_attempts failure <=? attempts r).

Definition failed_row (now : Z) (failure : FailOutboxEvent) (r : DeliveryRow) : DeliveryRow :=
  MkRow (row_id r) (envelope r)
    (if gives_up failure r then available_at r
     else now + seconds (failure_retry_after_seconds failure))
    None None None (claim_version r) (attempts r) (Some (trim (failure_error failure)))
    (if gives_up failure r then Some now else None)
    (replay_count r) (discarded_at r) (discard_reason r) (discarded_by_user_id r)
    (published_at r).

Definition failure_outcome (failure : FailOutboxEvent) (target : option DeliveryRow) :
    DeliveryAttemptOutcome :=
  match failure_class failure, target with
  | _, None => LeaseLost
  | Permanent, Some _ => PermanentFailure
  | Retryable, Some r =>
      if failure_max_attempts failure <=? attempts r then RetryExhausted else RetryScheduled
  end.

Definition mark_failed (now : Z) (failure : FailOutboxEvent) (db : DeliveryDb) :
    result (DeliveryDb * bool) PersistenceError :=
  let? _ := bounded_text (failed_worker_id failure) "worker ID" 200 in
  let? _ := bounded_text (failure_error failure) "delivery error" 4000 in
  if failure_retry_after_seconds failure <? 0
  then Err (InvalidInput "outbox retry delay cannot be negative")
  else if failure_max_attempts failure <=? 0
  then Err (InvalidInput "outbox maximum attempts must be positive")
  else
    let event_id := failed_event_id failure in
    let target := held_row now event_id (failed_worker_id failure)
                    (failed_claim_version failure) db in
    let updated := match target with
                   | Some r => <[event_id := failed_row now failure r]> (rows db)
                   | None => rows db
                   end in
    let outcome_ := failure_outcome failure target in
    let retry_after := if bool_decide (outcome_ = RetryScheduled)
                       then Some (failure_retry_after_seconds failure) else None in
    let '(recorded, journal_rows) :=
      record_delivery_result now event_id (failed_worker_id failure)
        (failed_claim_version failure) outcome_ (Some (trim (failure_error failure)))
        retry_after db in
    if bool_decide (is_Some target) && negb (journal_rows =? 1)
    then Err (InvalidData "failed event is missing its delivery attempt result")
    else Ok (with_rows db updated recorded, bool_decide (is_Some target)).

(** ** Dead letters *)

(** The guards that replay and discard share. *)
Definition dead_letter_at (expected_replay_count : Z) (r : DeliveryRow) : bool :=
  (replay_count r =? expected_replay_count)
  && bool_decide (is_Some (dead_lettered_at r)) && bool_decide (is_Some (last_error r))
  && bool_decide (published_at r = None) && bool_decide (discarded_at r = None)
  && bool_decide (claimed_at r = None).

Definition replayed_row (now : Z) (r : DeliveryRow) : DeliveryRow :=
  MkRow (row_id r) (envelope r) now None None None (claim_version r) 0 None None
    (replay_count r + 1) (discarded_at r) (discard_reason r) (discarded_by_user_id r)
    (published_at r).

Definition replay_dead_letter (now event_id user_id expected_replay_count : Z)
    (db : DeliveryDb) : result (DeliveryDb * bool) PersistenceError :=
  if (event_id <=? 0) || (user_id <=? 0) || (expected_replay_count <? 0)
  then Err (InvalidInput "dead-letter replay identity and expected generation are invalid")
  else
    match rows db !! event_id with
    | None => Ok (db, false)
    | Some r =>
        if dead_letter_at expected_replay_count r then
          if i32_max <=? replay_count r then Err (Database "integer out of range")
          else
            let evidence := MkReplay event_id (replay_count r) (replay_count r + 1) (attempts r)
                              (last_error r) user_id now in
            Ok (MkDb (outbox db) (<[event_id := replayed_row now r]> (rows db)) (next_row_id db)
                  (journal db) (results db) (replays db ++ [evidence]) (discards db), true)
        else Ok (db, false)
    end.

Definition discarded_row (now : Z) (reason : rstr) (user_id : Z) (r : DeliveryRow) : DeliveryRow :=
  MkRow (row_id r) (envelope r) (available_at r) (claimed_at r) (claimed_by r)
    (lease_expires_at r) (claim_version r) (attempts r) (last_error r) (dead_lettered_at r)
    (replay_count r) (Some now) (Some reason) (Some user_id) (published_at r).

Definition discard_dead_letter (now event_id user_id expected_replay_count : Z) (reason : rstr)
    (db : DeliveryDb) : result (DeliveryDb * bool) PersistenceError :=
  let? _ := bounded_text reason "discard reason" 1000 in
  if negb (bool_decide (trim reason = reason)) || existsb is_control reason
  then Err (InvalidInput "discard reason must be trimmed and control-free")
  else if (event_id <=? 0) || (user_id <=? 0) || (expected_replay_count <? 0)
  then Err (InvalidInput "dead-letter discard identity and expected generation are invalid")
  else
    match rows db !! event_id with
    | None => Ok (db, false)
    | Some r =>
        if dead_letter_at expected_replay_count r then
          let evidence := MkDiscard event_id (replay_count r) (attempts r) (last_error r) reason
                            user_id now in
          Ok (MkDb (outbox db) (<[event_id := discarded_row now reason user_id r]> (rows db))
                (next_row_id db) (journal db) (results db) (replays db)
                (discards db ++ [evidence]), true)
        else Ok (db, false)
    end.

(** ** [purge_published] *)

(** [COALESCE(published_at, discarded_at)]. *)
Definition finished_at (r : DeliveryRow) : option Z :=
  match published_at r with Some t => Some t | None => discarded_at r end.

Definition expired (now : Z) (locked : gset Z) (retention_seconds batch_size : Z)
    (rs : gmap Z DeliveryRow) : list DeliveryRow :=
  take (Z.to_nat batch_size)
    (sort_by (fun r1 r2 =>
         then_with (Z.compare (default 0 (finished_at r1)) (default 0 (finished_at r2)))
           (Z.compare (row_id r1) (row_id r2)))
       (List.filter (fun r =>
            match finished_at r with
            | Some t => t <=? now - seconds retention_seconds
            | None => false
            end && negb (bool_decide (row_id r ∈ locked))) (table_rows rs))).

Definition purge_published (now : Z) (locked : gset Z) (retention_seconds batch_size : Z)
    (db : DeliveryDb) : result (DeliveryDb * Z) PersistenceError :=
  if retention_seconds <? 0
  then Err (InvalidInput "outbox retention period cannot be negative")
  else if negb ((1 <=? batch_size) && (batch_size <=? 10000))
  then Err (InvalidInput "outbox purge batch size must be between 1 and 10000")
  else
    let gone := row_id <$> expired now locked retention_seconds batch_size (rows db) in
    Ok (with_rows db (foldr delete (rows db) gone) (results db), Z.of_nat (length gone)).

(** ** Histories: accepted calls of any worker and operator, while time passes *)

Inductive delivery_step : DeliveryDb * Z → DeliveryDb * Z → Prop :=
| step_enqueue db t now event db' id :
    t ≤ now → enqueue_event now event db = Ok (db', id) → delivery_step (db, t) (db', now)
| step_claim db t now locked worker publisher batch lease db' claimed :
    t ≤ now → claim_events now locked worker publisher batch lease db = Ok (db', claimed) →
    delivery_step (db, t) (db', now)
| step_published db t now event_id worker version db' b :
    t ≤ now → mark_published now event_id worker version db = Ok (db', b) →
    delivery_step (db, t) (db', now)
| step_failed db t now failure db' b :
    t ≤ now → mark_failed now failure db = Ok (db', b) → delivery_step (db, t) (db', now)
| step_replay db t now event_id user expected db' b :
    t ≤ now → replay_dead_letter now event_id user expected db = Ok (db', b) →
    delivery_step (db, t) (db', now)
| step_discard db t now event_id user expected reason db' b :
    t ≤ now → discard_dead_letter now event_id user expected reason db = Ok (db', b) →
    delivery_step (db, t) (db', now)
| step_purge db t now locked retention batch db' n :
    t ≤ now → purge_published now locked retention batch db = Ok (db', n) →
    delivery_step (db, t) (db', now).

(** ** The invariant *)

Definition open_row (r : DeliveryRow) : Prop := published_at r = None ∧ discarded_at r = None.

(** The columns of one row agree (the checks of the table). *)
Record row_ok (now : Z) (db : DeliveryDb) (id : Z) (r : DeliveryRow) : Prop := {
  row_id_ok : row_id r = id;
  row_id_bound : 0 < id < next_row_id db;
  row_version_ok : 0 ≤ claim_version r ∧ 0 ≤ replay_count r;
  row_claim_columns : is_Some (claimed_at r) ↔ is_Some (lease_expires_at r);
  row_claim_holder : is_Some (claimed_at r) ↔ is_Some (claimed_by r);
  row_finished_unclaimed : ¬ open_row r → claimed_at r = None;
  row_dead_unclaimed : is_Some (dead_lettered_at r) → claimed_at r = None;
  row_dead_error : is_Some (dead_lettered_at r) → is_Some (last_error r);
  (** a running claim is journalled under its holder *)
  row_claim_logged : ∀ w, claimed_by r = Some w → 0 < claim_version r ∧
    ∃ a, journal db !! (id, claim_version r) = Some a ∧ attempt_worker_id a = w;
  (** a result for the running claim was recorded after the lease ran out *)
  row_result_expired : ∀ l, lease_expires_at r = Some l →
    is_Some (results db !! (id, claim_version r)) → l ≤ now;
  row_published_logged : is_Some (published_at r) ↔
    ∃ v x, results db !! (id, v) = Some x ∧ outcome x = Published;
}.

(** The open events of an ordering key are the last ones enqueued under it, and
    only the first of them has been worked on. *)
Definition key_ok (db : DeliveryDb) (k : rstr) : Prop :=
  ∃ m, 0 ≤ m ≤ default 0 (last_sequence (outbox db) !! k) ∧
    (∀ s, m < s ≤ default 0 (last_sequence (outbox db) !! k) ↔
          ∃ id r, rows db !! id = Some r ∧ row_key r = k ∧ row_sequence r = s ∧ open_row r) ∧
    (∀ id r, rows db !! id = Some r → row_key r = k → open_row r →
       is_Some (claimed_at r) ∨ is_Some (dead_lettered_at r) → row_sequence r = m + 1).

Record delivery_ok (now : Z) (db : DeliveryDb) : Prop := {
  next_id_ok : 0 < next_row_id db;
  rows_ok : ∀ id r, rows db !! id = Some r → row_ok now db id r;
  keys_ok : ∀ k, key_ok db k;
  sequences_ok : ∀ id r, rows db !! id = Some r →
    1 ≤ row_sequence r ≤ default 0 (last_sequence (outbox db) !! row_key r);
  sequences_inj : ∀ i j r s, rows db !! i = Some r → rows db !! j = Some s →
    row_key r = row_key s → row_sequence r = row_sequence s → i = j;
  journal_versions : ∀ id v a, journal db !! (id, v) = Some a →
    id < next_row_id db ∧ ∀ r, rows db !! id = Some r → 1 ≤ v ≤ claim_version r;
  results_logged : ∀ id v x, results db !! (id, v) = Some x → is_Some (journal db !! (id, v));
  published_once : ∀ id v1 v2 x1 x2, results db !! (id, v1) = Some x1 →
    results db !! (id, v2) = Some x2 → outcome x1 = Published → outcome x2 = Published → v1 = v2;
}.
End delivery.
