(* ===== verification/DeliveryFacts.v ===== *)
(** * Delivery of outbox events: the invariant

    Every accepted call of [Delivery] keeps [delivery_ok]; the theorems about
    order, exclusive leases, the journal and progress follow from it. *)

From S2P Require Import Prelude.
From S2P Require Import RustStr.
From S2P Require Import Outbox.
From S2P Require Import Delivery.

Section facts.
Context {Payload : Type} (is_object : Payload → bool).
Abbreviation DeliveryDb := (DeliveryDb (Payload := Payload)).
Abbreviation DeliveryRow := (DeliveryRow (Payload := Payload)).
Implicit Types (db : DeliveryDb) (r : DeliveryRow).

Definition touched r : Prop := is_Some (claimed_at r) ∨ is_Some (dead_lettered_at r).

Lemma holds_lease_spec now w v r :
  holds_lease now w v r = true ↔
  claimed_by r = Some w ∧ claim_version r = v ∧ (∃ l, lease_expires_at r = Some l ∧ now < l) ∧
  dead_lettered_at r = None ∧ open_row r.
Proof.
  unfold holds_lease, open_row. rewrite !andb_true_iff, !bool_decide_eq_true, Z.eqb_eq.
  destruct (lease_expires_at r); rewrite ?Z.ltb_lt; naive_solver.
Qed.

Lemma dead_letter_at_spec n r :
  dead_letter_at n r = true ↔
  replay_count r = n ∧ is_Some (dead_lettered_at r) ∧ is_Some (last_error r) ∧ open_row r ∧
  claimed_at r = None.
Proof.
  unfold dead_letter_at, open_row. rewrite !andb_true_iff, !bool_decide_eq_true, Z.eqb_eq.
  naive_solver.
Qed.

Lemma finished_spec r : finished r = false ↔ open_row r.
Proof.
  unfold finished, open_row. rewrite orb_false_iff, !bool_decide_eq_false.
  by rewrite <-!eq_None_not_Some.
Qed.

Lemma elem_of_table_rows (rs : gmap Z DeliveryRow) r :
  r ∈ table_rows rs ↔ ∃ id, rs !! id = Some r.
Proof.
  unfold table_rows. rewrite list_elem_of_fmap. split.
  - intros ([id r'] & -> & H%elem_of_map_to_list). eauto.
  - intros [id H]. exists (id, r). by rewrite elem_of_map_to_list.
Qed.

Lemma claimable_spec now rs r :
  claimable now rs r = true ↔
  open_row r ∧ dead_lettered_at r = None ∧ available_at r ≤ now ∧
  (claimed_at r = None ∨ ∃ l, lease_expires_at r = Some l ∧ l ≤ now) ∧
  ∀ j p, rs !! j = Some p → row_key p = row_key r → open_row p → row_sequence r ≤ row_sequence p.
Proof.
  unfold claimable, open_row. rewrite !andb_true_iff, !bool_decide_eq_true, Z.leb_le.
  assert (negb (has_open_predecessor rs r) = true ↔ ∀ j p, rs !! j = Some p →
    row_key p = row_key r → open_row p → row_sequence r ≤ row_sequence p) as ->.
  { rewrite negb_true_iff, <-not_true_iff_false. unfold has_open_predecessor.
    rewrite existsb_exists. split.
    - intros Hno j p Hp Hk Ho. apply Z.nlt_ge. intros Hlt. apply Hno. exists (j, p).
      split; [by apply list_elem_of_In, elem_of_map_to_list|].
      rewrite bool_decide_true, (proj2 (Z.ltb_lt _ _) Hlt), (proj2 (finished_spec p)); done.
    - intros Hall ([j p] & Hin%list_elem_of_In%elem_of_map_to_list & Hb).
      bool_to_prop. specialize (Hall j p Hin ltac:(done) (proj1 (finished_spec p) ltac:(done))). lia. }
  rewrite orb_true_iff, bool_decide_eq_true. unfold lease_expired.
  destruct (lease_expires_at r); rewrite ?Z.leb_le; naive_solver.
Qed.

(** ** Rows that a call does not write *)

Lemma row_ok_mono t now db db' id r :
  row_ok t db id r → t ≤ now → next_row_id db ≤ next_row_id db' →
  (∀ v a, journal db !! (id, v) = Some a → journal db' !! (id, v) = Some a) →
  (∀ v, results db' !! (id, v) = results db !! (id, v)) →
  row_ok now db' id r.
Proof.
  intros [] Ht Hn Hj Hr. split; try done; [lia| | |].
  - intros w Hw. destruct (row_claim_logged w Hw) as (? & a & Ha & ?). eauto.
  - intros l Hl. rewrite Hr. intros Hx. specialize (row_result_expired l Hl Hx). lia.
  - rewrite row_published_logged. by setoid_rewrite Hr.
Qed.

Lemma delivery_ok_later t now db : delivery_ok t db → t ≤ now → delivery_ok now db.
Proof.
  intros Hok Ht. split; try apply Hok.
  intros id r Hr. apply (row_ok_mono t _ db); try done. by apply (rows_ok _ _ Hok).
Qed.

(** ** The streams *)

Lemma key_ok_map db db' k :
  last_sequence (outbox db') = last_sequence (outbox db) →
  (∀ id r, rows db !! id = Some r → open_row r →
     ∃ r', rows db' !! id = Some r' ∧ envelope r' = envelope r ∧ open_row r') →
  (∀ id r', rows db' !! id = Some r' → open_row r' →
     ∃ r, rows db !! id = Some r ∧ envelope r' = envelope r ∧ open_row r ∧
       (touched r' → touched r ∨ ∀ j s, rows db !! j = Some s → row_key s = row_key r →
          open_row s → row_sequence r ≤ row_sequence s)) →
  key_ok db k → key_ok db' k.
Proof.
  intros Hlast Hfwd Hbwd (m & Hm & Hopen & Hhead). exists m. rewrite Hlast. split; [done|].
  split.
  - intros s. rewrite Hopen. unfold row_key, row_sequence. split.
    + intros (id & r & Hr & Hk & Hs & Ho). destruct (Hfwd _ _ Hr Ho) as (r' & Hr' & He & Ho').
      exists id, r'. by rewrite He.
    + intros (id & r' & Hr' & Hk & Hs & Ho'). destruct (Hbwd _ _ Hr' Ho') as (r & Hr & He & Ho & _).
      exists id, r. by rewrite <-He.
  - intros id r' Hr' Hk Ho' Ht. destruct (Hbwd _ _ Hr' Ho') as (r & Hr & He & Ho & Htr).
    unfold row_key, row_sequence in *. rewrite He in *.
    destruct (Htr Ht) as [Htr'|Hmin]; [by apply (Hhead id r)|].
    assert (m < aggregate_sequence (envelope r)) by (apply Hopen; eauto 10).
    destruct (proj1 (Hopen (m + 1))) as (j & s & Hs & Hsk & Hss & Hso).
    { split; [lia|]. etrans; [|apply (proj2 (Hopen (aggregate_sequence (envelope r)))); eauto 10].
      lia. }
    specialize (Hmin j s Hs (eq_trans Hsk (eq_sym Hk)) Hso). lia.
Qed.

Lemma key_ok_finish t db db' id r r' k :
  delivery_ok t db → rows db !! id = Some r → open_row r → touched r →
  last_sequence (outbox db') = last_sequence (outbox db) →
  rows db' = <[id := r']> (rows db) → envelope r' = envelope r → ¬ open_row r' → key_ok db' k.
Proof.
  intros Hok Hr Ho Ht Hlast Hrows He Ho'. destruct (keys_ok _ _ Hok k) as (m & Hm & Hopen & Hhead).
  destruct (decide (row_key r = k)) as [Hk|Hk].
  - pose proof (Hhead id r Hr Hk Ho Ht) as Hs.
    assert (Hb : m < row_sequence r ≤ default 0 (last_sequence (outbox db) !! k))
      by (apply Hopen; eauto 10).
    exists (m + 1). rewrite Hlast, Hrows. split; [lia|]. split.
    + intros s. split.
      * intros Hs'. destruct (proj1 (Hopen s)) as (j & q & Hq & Hqk & Hqs & Hqo); [lia|].
        exists j, q. rewrite lookup_insert_ne; [done|]. intros <-. simplify_eq. lia.
      * intros (j & q & Hq & Hqk & Hqs & Hqo). apply lookup_insert_Some in Hq as [[<- <-]|[Hne Hq]];
          [done|]. assert (m < s ≤ default 0 (last_sequence (outbox db) !! k)) by (apply Hopen; eauto 10).
        assert (s ≠ m + 1); [|lia]. intros ->. apply Hne.
        apply (sequences_inj _ _ Hok id j r q Hr Hq); congruence.
    + intros j q Hq Hqk Hqo Hqt. apply lookup_insert_Some in Hq as [[<- <-]|[Hne Hq]]; [done|].
      exfalso. apply Hne. pose proof (Hhead j q Hq Hqk Hqo Hqt).
      apply (sequences_inj _ _ Hok id j r q Hr Hq); congruence.
  - exists m. rewrite Hlast, Hrows. split; [done|]. split.
    + intros s. rewrite Hopen. split; intros (j & q & Hq & Hqk & Hqs & Hqo); exists j, q.
      * rewrite lookup_insert_ne; [done|]. intros <-. by simplify_eq.
      * apply lookup_insert_Some in Hq as [[<- <-]|[Hne Hq]]; [done|done].
    + intros j q Hq. apply lookup_insert_Some in Hq as [[<- <-]|[Hne Hq]]; [done|by apply Hhead with j].
Qed.

(** ** One row rewritten *)

(** A call that rewrites the row [id] and possibly records a result for it. *)
Lemma set_row_ok t now db db' id r r' :
  delivery_ok t db → t ≤ now → rows db !! id = Some r → open_row r → touched r →
  outbox db' = outbox db → next_row_id db' = next_row_id db → journal db' = journal db →
  rows db' = <[id := r']> (rows db) → envelope r' = envelope r →
  claim_version r' = claim_version r → row_ok now db' id r' →
  (∀ j v, j ≠ id → results db' !! (j, v) = results db !! (j, v)) →
  (∀ v x, results db' !! (id, v) = Some x → is_Some (journal db !! (id, v))) →
  (∀ v1 v2 x1 x2, results db' !! (id, v1) = Some x1 → results db' !! (id, v2) = Some x2 →
     outcome x1 = Published → outcome x2 = Published → v1 = v2) →
  delivery_ok now db'.
Proof.
  intros Hok Ht Hr Ho Htr Eo En Ej Er He Ev Hrow Hres Hlog Honce. split.
  - rewrite En. apply (next_id_ok _ _ Hok).
  - intros j q Hq. rewrite Er in Hq. apply lookup_insert_Some in Hq as [[<- <-]|[Hne Hq]]; [done|].
    apply (row_ok_mono t _ db); [by apply (rows_ok _ _ Hok)|done|lia| |].
    + by rewrite Ej.
    + intros v. by apply Hres.
  - intros k. destruct (decide (open_row r')) as [Ho'|Ho'].
    + apply (key_ok_map db); [by rewrite Eo| | |apply (keys_ok _ _ Hok)].
      * intros j q Hq Hqo. rewrite Er. destruct (decide (j = id)) as [->|Hne].
        -- rewrite lookup_insert_eq. simplify_eq. eauto.
        -- rewrite lookup_insert_ne by done. eauto.
      * intros j q Hq Hqo. rewrite Er in Hq.
        apply lookup_insert_Some in Hq as [[<- <-]|[Hne Hq]]; eauto 10.
    + apply (key_ok_finish t db db' id r r'); try done. by rewrite Eo.
  - intros j q Hq. rewrite Eo, Er in *. apply lookup_insert_Some in Hq as [[<- <-]|[Hne Hq]];
      [|by apply (sequences_ok _ _ Hok j)]. unfold row_sequence, row_key. rewrite He.
    by apply (sequences_ok _ _ Hok id).
  - assert (Hsame : ∀ j q, rows db' !! j = Some q →
      ∃ q', rows db !! j = Some q' ∧ envelope q = envelope q').
    { intros j q Hq. rewrite Er in Hq. apply lookup_insert_Some in Hq as [[<- <-]|[Hne Hq]]; eauto. }
    intros i j a b (a' & Ha & Ea)%Hsame (b' & Hb & Eb)%Hsame. unfold row_key, row_sequence.
    rewrite Ea, Eb. by apply (sequences_inj _ _ Hok).
  - intros j v a. rewrite Ej, En, Er. intros Ha. destruct (journal_versions _ _ Hok _ _ _ Ha) as [? Hv].
    split; [done|]. intros q [[<- <-]|[Hne Hq]]%lookup_insert_Some; [rewrite Ev|]; by apply Hv.
  - intros j v x Hx. rewrite Ej. destruct (decide (j = id)) as [->|Hne]; [by apply (Hlog v x)|].
    rewrite Hres in Hx by done. by apply (results_logged _ _ Hok j v x).
  - intros j v1 v2 x1 x2. destruct (decide (j = id)) as [->|Hne]; [apply Honce|].
    rewrite !Hres by done. by apply (published_once _ _ Hok).
Qed.

Lemma unclaimed_row_ok t now db db' id r r' :
  row_ok t db id r → next_row_id db' = next_row_id db →
  row_id r' = row_id r → claim_version r' = claim_version r → replay_count r ≤ replay_count r' →
  claimed_at r' = None → claimed_by r' = None → lease_expires_at r' = None →
  (is_Some (dead_lettered_at r') → is_Some (last_error r')) →
  (is_Some (published_at r') ↔
     ∃ v x, results db' !! (id, v) = Some x ∧ outcome x = Published) →
  row_ok now db' id r'.
Proof.
  intros [] En Ei Ev Hn E1 E2 E3 He Hp. split; rewrite ?E1, ?E2, ?E3, ?En, ?Ev, ?Ei; try done; lia.
Qed.

(** *** Completing a claim *)

Section completion.
Context (t now : Z) (db : DeliveryDb) (id : Z) (w : rstr) (v : Z).
Context (Hok : delivery_ok t db) (Ht : t ≤ now).

Lemma held_row_facts r :
  rows db !! id = Some r → holds_lease now w v r = true →
  open_row r ∧ is_Some (claimed_at r) ∧ v = claim_version r ∧ results db !! (id, v) = None ∧
  ∃ a, journal db !! (id, v) = Some a ∧ attempt_worker_id a = w.
Proof.
  intros Hr (Hw & <- & (l & Hl & Hlt) & _ & Ho)%holds_lease_spec.
  pose proof (rows_ok _ _ Hok _ _ Hr) as Hrow.
  destruct (row_claim_logged _ _ _ _ Hrow w Hw) as (_ & a & Ha & Haw).
  split; [done|]. split; [apply (row_claim_holder _ _ _ _ Hrow); by rewrite Hw|]. split; [done|].
  split; [|by eauto]. apply eq_None_not_Some. intros Hx.
  pose proof (row_result_expired _ _ _ _ Hrow l Hl Hx). lia.
Qed.

Lemma held_row_Some r :
  held_row now id w v db = Some r ↔ rows db !! id = Some r ∧ holds_lease now w v r = true.
Proof.
  unfold held_row. destruct (rows db !! id) as [r'|]; [|by split; [|intros []]].
  destruct (holds_lease now w v r') eqn:E; split.
  - intros [= ->]. done.
  - by intros [[= ->] _].
  - done.
  - intros [[= ->] Hh]. congruence.
Qed.

Lemma held_row_None :
  held_row now id w v db = None → ∀ r, rows db !! id = Some r → holds_lease now w v r = false.
Proof.
  intros Hn r Hr. apply not_true_iff_false. intros Hh.
  by rewrite (proj2 (held_row_Some r)) in Hn.
Qed.

(** The running claim is recorded, so no integrity error is possible. *)
Lemma record_held r o e ra :
  rows db !! id = Some r → holds_lease now w v r = true →
  record_delivery_result now id w v o e ra db =
    (<[(id, v) := MkAttemptResult o now e ra]> (results db), 1).
Proof.
  intros Hr Hh. destruct (held_row_facts r Hr Hh) as (_ & _ & _ & Hres & a & Ha & Haw).
  unfold record_delivery_result. by rewrite Ha, bool_decide_true, Hres by done.
Qed.

Lemma complete_held_ok r r' o e ra :
  rows db !! id = Some r → holds_lease now w v r = true →
  envelope r' = envelope r → row_id r' = row_id r → claim_version r' = claim_version r →
  replay_count r ≤ replay_count r' →
  claimed_at r' = None → claimed_by r' = None → lease_expires_at r' = None →
  (is_Some (dead_lettered_at r') → is_Some (last_error r')) →
  (is_Some (published_at r') ↔ o = Published) →
  delivery_ok now (with_rows db (<[id := r']> (rows db))
                     (<[(id, v) := MkAttemptResult o now e ra]> (results db))).
Proof.
  intros Hr Hh Ee Ei Ev Hn E1 E2 E3 Hd Hp.
  destruct (held_row_facts r Hr Hh) as (Ho & Hc & Hv & Hres & a & Ha & Haw).
  pose proof (rows_ok _ _ Hok _ _ Hr) as Hrow.
  assert (Hnopub : ∀ v' x, results db !! (id, v') = Some x → outcome x ≠ Published).
  { intros v' x Hx Hxo. destruct Ho as [Hp0 _].
    destruct (proj2 (row_published_logged _ _ _ _ Hrow)) as [? Habs]; [by eauto|].
    by rewrite Hp0 in Habs. }
  apply (set_row_ok t now db _ id r r'); try done; [by left| | | |].
  - apply (unclaimed_row_ok t now db _ id r); try done. rewrite Hp. cbn [results with_rows]. split.
    + intros ->. exists v. eexists. rewrite lookup_insert_eq. done.
    + intros (v' & x & Hx & Hxo).
      apply lookup_insert_Some in Hx as [[_ <-]|[_ Hx]]; [done|by apply Hnopub in Hx].
  - intros j v' Hne. cbn [results with_rows]. rewrite lookup_insert_ne; [done|congruence].
  - intros v' x Hx. cbn [results with_rows] in Hx.
    apply lookup_insert_Some in Hx as [[[= <-] _]|[_ Hx]]; [by eauto|].
    by apply (results_logged _ _ Hok _ _ x).
  - intros v1 v2 x1 x2 H1 H2 Ho1 Ho2. cbn [results with_rows] in *.
    apply lookup_insert_Some in H1 as [[[= <-] _]|[_ H1]]; [|by apply Hnopub in H1].
    apply lookup_insert_Some in H2 as [[[= <-] _]|[_ H2]]; [done|by apply Hnopub in H2].
Qed.

(** A report that comes too late changes no row, and at most notes the loss. *)
Lemma record_lost_ok o e ra res n :
  (∀ r, rows db !! id = Some r → holds_lease now w v r = false) → o ≠ Published →
  record_delivery_result now id w v o e ra db = (res, n) →
  delivery_ok now (with_rows db (rows db) res).
Proof.
  intros Hlost Hno Hrec.
  assert (Hcase : res = results db ∨ ∃ a, journal db !! (id, v) = Some a ∧ attempt_worker_id a = w ∧
    results db !! (id, v) = None ∧ res = <[(id, v) := MkAttemptResult o now e ra]> (results db)).
  { unfold record_delivery_result in Hrec. destruct (journal db !! (id, v)) as [a|]; [|by simplify_eq; left].
    case_bool_decide; [|by simplify_eq; left]. destruct (results db !! (id, v)); simplify_eq; [by left|].
    right. by exists a. }
  assert (Hpub : ∀ j v' x, res !! (j, v') = Some x → outcome x = Published →
    results db !! (j, v') = Some x).
  { intros j v' x Hx Hxo. destruct Hcase as [->|(a & _ & _ & _ & ->)]; [done|].
    by apply lookup_insert_Some in Hx as [[_ <-]|[_ Hx]]. }
  assert (Hsub : results db ⊆ res).
  { destruct Hcase as [->|(a & _ & _ & Hn & ->)]; [done|]. by apply insert_subseteq. }
  split; cbn [rows outbox next_row_id journal results with_rows].
  - apply (next_id_ok _ _ Hok).
  - intros j r Hr. pose proof (rows_ok _ _ Hok _ _ Hr) as Hrow. destruct Hrow.
    split; try done.
    + intros l Hl. destruct Hcase as [->|(a & Ha & Haw & Hn & ->)].
      { intros Hx. specialize (row_result_expired l Hl Hx). lia. }
      intros [x Hx]. cbn [results with_rows] in Hx.
      apply lookup_insert_Some in Hx as [[[= <- Hv] _]|[_ Hx]]; cycle 1.
      { specialize (row_result_expired l Hl (mk_is_Some _ _ Hx)). lia. }
      apply Z.nlt_ge. intros Hlt. specialize (Hlost r Hr). apply not_true_iff_false in Hlost.
      apply Hlost, holds_lease_spec. assert (Hc : is_Some (claimed_at r)) by (apply row_claim_columns; eauto).
      destruct (proj1 row_claim_holder Hc) as [w' Hw'].
      destruct (row_claim_logged w' Hw') as (_ & a' & Ha' & Haw'). rewrite <-Hv in Ha'.
      assert (w' = w) as -> by congruence. split_and!; try done; [by eauto| |].
      * apply eq_None_not_Some. intros Hd. rewrite (row_dead_unclaimed Hd) in Hc. by destruct Hc.
      * destruct (decide (published_at r = None)) as [Hp|Hp], (decide (discarded_at r = None)) as [Hq|Hq];
          [done|..]; (rewrite row_finished_unclaimed in Hc; [by destruct Hc|by intros []]).
    + rewrite row_published_logged. split; intros (v' & x & Hx & Hxo); exists v', x; [|by eauto].
      split; [|done]. by apply (lookup_weaken _ _ _ _ Hx).
  - intros k. apply (key_ok_map db); [done|eauto|eauto 10|apply (keys_ok _ _ Hok)].
  - apply (sequences_ok _ _ Hok).
  - apply (sequences_inj _ _ Hok).
  - apply (journal_versions _ _ Hok).
  - intros j v' x Hx. destruct Hcase as [->|(a & Ha & _ & _ & ->)]; [by apply (results_logged _ _ Hok j v' x)|].
    apply lookup_insert_Some in Hx as [[[= <- <-] _]|[_ Hx]]; [by rewrite Ha|].
    by apply (results_logged _ _ Hok j v' x).
  - intros j v1 v2 x1 x2 H1 H2 O1 O2. apply (published_once _ _ Hok j v1 v2 x1 x2); eauto.
Qed.
End completion.

(** *** Claiming *)

Lemma table_rows_ids (rs : gmap Z DeliveryRow) :
  (∀ id r, rs !! id = Some r → row_id r = id) → row_id <$> table_rows rs = (map_to_list rs).*1.
Proof.
  intros Hid. unfold table_rows. rewrite <-list_fmap_compose. apply list_fmap_ext.
  intros i [id r] Hi. cbn. apply Hid, elem_of_map_to_list. by eapply list_elem_of_lookup_2.
Qed.

Lemma table_rows_NoDup (rs : gmap Z DeliveryRow) :
  (∀ id r, rs !! id = Some r → row_id r = id) → NoDup (row_id <$> table_rows rs).
Proof. intros Hid. rewrite table_rows_ids by done. apply NoDup_fst_map_to_list. Qed.

Lemma elem_of_candidates now locked n (rs : gmap Z DeliveryRow) r :
  r ∈ candidates now locked n rs → ∃ id, rs !! id = Some r ∧ claimable now rs r = true ∧ row_id r ∉ locked.
Proof.
  unfold candidates. intros Hr. eapply elem_of_sublist in Hr; [|apply sublist_take].
  rewrite sort_by_perm in Hr.
  apply elem_of_filter_bool in Hr as [(id & Hid)%elem_of_table_rows [Hc Hl]%andb_true_iff].
  exists id. split_and!; [done|done|]. by bool_to_prop.
Qed.

Lemma candidates_NoDup now locked n (rs : gmap Z DeliveryRow) :
  (∀ id r, rs !! id = Some r → row_id r = id) → NoDup (row_id <$> candidates now locked n rs).
Proof.
  intros Hid. unfold candidates. rewrite fmap_take. eapply sublist_NoDup; [|apply sublist_take].
  rewrite sort_by_perm. by apply NoDup_filter_bool, table_rows_NoDup.
Qed.

Section claiming.
Context (t now lease batch : Z) (locked : gset Z) (w p : rstr) (db : DeliveryDb).
Context (Hok : delivery_ok t db) (Ht : t ≤ now).

Let chosen := candidates now locked batch (rows db).
Let ids := row_id <$> chosen.
Let updated := (fun r => if bool_decide (row_id r ∈ ids) then claim_row now lease w r else r)
                 <$> rows db.
Let inserted := List.filter
  (fun r => bool_decide (claimed_by r = Some w) && bool_decide (row_id r ∈ ids))
  (table_rows updated).

Lemma row_ids_ok id r : rows db !! id = Some r → row_id r = id.
Proof. intros Hr. exact (row_id_ok _ _ _ _ (rows_ok _ _ Hok _ _ Hr)). Qed.

Lemma chosen_spec id r :
  rows db !! id = Some r → (row_id r ∈ ids ↔ r ∈ chosen).
Proof.
  intros Hr. split; [|intros; by apply list_elem_of_fmap_2].
  intros (c & Hc & Hin)%list_elem_of_fmap.
  destruct (elem_of_candidates _ _ _ _ _ Hin) as (j & Hj & _).
  rewrite (row_ids_ok _ _ Hr), (row_ids_ok _ _ Hj) in Hc. by simplify_eq.
Qed.

Lemma chosen_claimable r :
  r ∈ chosen → rows db !! row_id r = Some r ∧ claimable now (rows db) r = true.
Proof.
  intros (j & Hj & Hc & _)%elem_of_candidates. by rewrite (row_ids_ok _ _ Hj).
Qed.

Lemma lookup_updated id r' :
  updated !! id = Some r' ↔ (∃ r, rows db !! id = Some r ∧
    (r ∈ chosen ∧ r' = claim_row now lease w r ∨ (¬ r ∈ chosen) ∧ r' = r)).
Proof.
  unfold updated. rewrite lookup_fmap_Some. split.
  - intros (r & <- & Hr). exists r. split; [done|]. case_bool_decide as Hin;
      rewrite (chosen_spec id) in Hin by done; auto.
  - intros (r & Hr & [[Hin ->]|[Hin ->]]); exists r; (split; [|done]).
    + rewrite bool_decide_true; [done|]. by rewrite (chosen_spec id).
    + rewrite bool_decide_false; [done|]. by rewrite (chosen_spec id).
Qed.

Lemma updated_ids id r' : updated !! id = Some r' → row_id r' = id.
Proof. intros (r & Hr & [[_ ->]|[_ ->]])%lookup_updated; exact (row_ids_ok _ _ Hr). Qed.

Lemma inserted_perm : inserted ≡ₚ claim_row now lease w <$> chosen.
Proof.
  apply NoDup_Permutation.
  - apply (NoDup_fmap_1 row_id), NoDup_filter_bool, table_rows_NoDup, updated_ids.
  - apply (NoDup_fmap_1 row_id). rewrite <-list_fmap_compose.
    apply (candidates_NoDup _ _ _ _ row_ids_ok).
  - intros r'. unfold inserted. rewrite elem_of_filter_bool, elem_of_table_rows, list_elem_of_fmap.
    split.
    + intros [(id & (r & Hr & Hcase)%lookup_updated) [_ Hid]%andb_true_iff]. bool_to_prop.
      destruct Hcase as [[Hin ->]|[Hnin ->]]; [by eauto|]. by rewrite (chosen_spec id) in Hid.
    + intros (r & -> & Hin). destruct (chosen_claimable r Hin) as [Hr _]. split.
      * exists (row_id r). apply lookup_updated. eauto.
      * cbn [claimed_by claim_row row_id]. rewrite !bool_decide_true; [done| |done].
        by apply list_elem_of_fmap_2.
Qed.

(** The keys of the new journal rows are new: every earlier claim of an event has
    a smaller version. *)
Lemma inserted_fresh r : r ∈ inserted → journal db !! attempt_key r = None.
Proof.
  rewrite inserted_perm. intros (c & -> & [Hc _]%chosen_claimable)%list_elem_of_fmap.
  unfold attempt_key. cbn [row_id claim_version claim_row].
  apply eq_None_not_Some. intros [a Ha].
  destruct (journal_versions _ _ Hok _ _ _ Ha) as [_ Hv]. specialize (Hv c Hc). lia.
Qed.

Lemma inserted_keys_NoDup : NoDup (attempt_key <$> inserted).
Proof.
  apply (NoDup_fmap_1 fst). rewrite <-list_fmap_compose.
  change (NoDup (row_id <$> inserted)). apply NoDup_filter_bool, table_rows_NoDup, updated_ids.
Qed.

Lemma insert_attempts_ok :
  insert_attempts p inserted (journal db) =
    Ok (list_to_map ((fun r => (attempt_key r, attempt_of p r)) <$> inserted) ∪ journal db).
Proof.
  unfold insert_attempts. rewrite !bool_decide_true; [done|apply inserted_keys_NoDup|].
  apply Forall_forall. intros r Hr. by apply inserted_fresh.
Qed.

Let log := list_to_map ((fun r => (attempt_key r, attempt_of p r)) <$> inserted) ∪ journal db
  : gmap (Z * Z) DeliveryAttempt.

Lemma lookup_log k a :
  log !! k = Some a ↔ (∃ r, r ∈ inserted ∧ k = attempt_key r ∧ a = attempt_of p r) ∨
                      journal db !! k = Some a.
Proof.
  unfold log. rewrite lookup_union_Some.
  - rewrite <-elem_of_list_to_map.
    + rewrite list_elem_of_fmap. split; (intros [H|H]; [left|by right]).
      * destruct H as (r & [= -> ->] & Hr). eauto.
      * destruct H as (r & Hr & -> & ->). eauto.
    + rewrite <-list_fmap_compose. exact inserted_keys_NoDup.
  - apply map_disjoint_spec. intros k' a1 a2 H1 H2. apply elem_of_list_to_map_2 in H1.
    apply list_elem_of_fmap in H1 as (r & [= -> ->] & Hr). by rewrite inserted_fresh in H2.
Qed.

Lemma claim_ok :
  delivery_ok now (MkDb (outbox db) updated (next_row_id db) log (results db) (replays db)
                     (discards db)).
Proof.
  split; cbn [rows outbox next_row_id journal results].
  - apply (next_id_ok _ _ Hok).
  - intros id r' (r & Hr & Hcase)%lookup_updated. pose proof (rows_ok _ _ Hok _ _ Hr) as Hrow.
    destruct Hcase as [[Hin ->]|[_ ->]].
    + destruct (chosen_claimable r Hin) as [Hr2 (Ho & Hd & _)%claimable_spec].
      destruct Hrow.
      split; cbn [rows outbox next_row_id journal results row_id claim_version claimed_at
        lease_expires_at claimed_by dead_lettered_at last_error published_at claim_row]; try done.
      * cbn; lia.
      * rewrite Hd. by intros [].
      * intros w' [= <-]. split; [lia|]. eexists. split; [apply lookup_log; left|].
        -- exists (claim_row now lease w r). rewrite inserted_perm. split; [by apply list_elem_of_fmap_2|].
           unfold attempt_key. cbn. by rewrite row_id_ok.
        -- done.
      * intros l _ [x Hx]. destruct (results_logged _ _ Hok _ _ _ Hx) as [a Ha].
        destruct (journal_versions _ _ Hok _ _ _ Ha) as [_ Hv]. specialize (Hv r Hr). lia.
    + apply (row_ok_mono t _ db); try done. intros v a Ha. apply lookup_log. by right.
  - intros k. apply (key_ok_map db); [done| | |apply (keys_ok _ _ Hok)].
    + intros id r Hr Ho. destruct (decide (row_id r ∈ ids)) as [Hin|Hin]; rewrite (chosen_spec id) in Hin by done.
      * exists (claim_row now lease w r). split; [apply lookup_updated; eauto|]. done.
      * exists r. split; [apply lookup_updated; eauto|]. done.
    + intros id r' (r & Hr & [[Hin ->]|[Hin ->]])%lookup_updated Ho; exists r; split_and!; try done.
      * intros _. right. destruct (chosen_claimable r Hin) as [_ (_ & _ & _ & _ & Hmin)%claimable_spec].
        eauto.
      * by left.
  - intros id r' (r & Hr & [[Hin ->]|[Hin ->]])%lookup_updated;
      exact (sequences_ok _ _ Hok id r Hr).
  - assert (Hsame : ∀ j q, updated !! j = Some q →
      ∃ q', rows db !! j = Some q' ∧ envelope q = envelope q').
    { intros j q (r & Hr & [[_ ->]|[_ ->]])%lookup_updated; eauto. }
    intros i j a b (a' & Ha & Ea)%Hsame (b' & Hb & Eb)%Hsame. unfold row_key, row_sequence.
    rewrite Ea, Eb. by apply (sequences_inj _ _ Hok).
  - intros id v a [(r & Hin & [= -> ->] & ->)|Ha]%lookup_log.
    + rewrite inserted_perm in Hin. apply list_elem_of_fmap in Hin as (c & -> & Hin).
      destruct (chosen_claimable c Hin) as [Hc _].
      pose proof (rows_ok _ _ Hok _ _ Hc) as Hrow. cbn [row_id claim_version claim_row].
      split; [apply (row_id_bound _ _ _ _ Hrow)|].
      intros r' (r & Hr & [[_ ->]|[Hnin ->]])%lookup_updated; simplify_eq;
        [cbn [claim_version claim_row]; pose proof (row_version_ok _ _ _ _ Hrow); lia|done].
    + destruct (journal_versions _ _ Hok _ _ _ Ha) as [? Hv]. split; [done|].
      intros r' (r & Hr & [[_ ->]|[_ ->]])%lookup_updated; specialize (Hv r Hr); cbn; lia.
  - intros id v x Hx. destruct (results_logged _ _ Hok _ _ _ Hx) as [a Ha].
    exists a. apply lookup_log. by right.
  - apply (published_once _ _ Hok).
Qed.
End claiming.

Lemma claim_events_inv t now locked w p batch lease db db' events :
  delivery_ok t db → t ≤ now →
  claim_events now locked w p batch lease db = Ok (db', events) →
  delivery_ok now db' ∧
  (∀ e, e ∈ events → ∃ r, rows db !! row_id r = Some r ∧ claimable now (rows db) r = true ∧
     (row_id r ∉ locked) ∧ e = claim_row now lease w r ∧ rows db' !! row_id r = Some e) ∧
  (∀ id r, rows db !! id = Some r → id ∉ (row_id <$> events) → rows db' !! id = Some r) ∧
  (∀ id r, rows db' !! id = Some r → ∃ r0, rows db !! id = Some r0 ∧
     (r = r0 ∨ r = claim_row now lease w r0)).
Proof.
  intros Hok Ht H. unfold claim_events in H. do 2 (apply rbind_ok in H as (_ & _ & H)).
  destruct (_ && _) in H; [|done]. destruct (_ <? _) in H; [|done].
  destruct (existsb _ _); [done|]. cbn zeta in H.
  set (chosen := candidates now locked batch (rows db)) in *.
  set (events' := sort_by _ _) in H.
  assert (Hperm : events' ≡ₚ claim_row now lease w <$> chosen) by apply sort_by_perm.
  clearbody events'.
  assert (Hids : ∀ id r, rows db !! id = Some r → row_id r = id) by (intros; by eapply row_ids_ok).
  case_bool_decide as He.
  - injection H as <- <-. split_and!; [|set_solver|set_solver|eauto 10].
    by apply (delivery_ok_later t).
  - pose proof (insert_attempts_ok t now lease batch locked w p db Hok) as Hins.
    fold chosen in Hins. rewrite Hins in H. clear Hins.
    cbn [rbind] in H. destruct (_ =? _); [|done]. injection H as <- <-. split_and!.
    + by apply (claim_ok t now lease batch locked w p db Hok Ht).
    + intros e. rewrite Hperm. intros (r & -> & Hin)%list_elem_of_fmap.
      destruct (elem_of_candidates _ _ _ _ _ Hin) as (id & Hid & Hc & Hl).
      rewrite <-(Hids _ _ Hid) in Hid.
      exists r. split_and!; try done. apply (lookup_updated t); [done|]. eauto.
    + intros id r Hr Hin. apply (lookup_updated t); [done|]. exists r. split; [done|]. right.
      split; [|done]. intros Hch. apply Hin. rewrite Hperm, <-list_fmap_compose.
      rewrite <-(Hids _ _ Hr). by apply (list_elem_of_fmap_2 row_id).
    + intros id r Hr. apply (lookup_updated t) in Hr as (r0 & Hr0 & [[_ ->]|[_ ->]]); eauto.
Qed.

(** *** The other calls *)

Lemma empty_db_ok : delivery_ok 0 (empty_db (Payload := Payload)).
Proof.
  assert (Hno : ∀ id (r : DeliveryRow), rows empty_db !! id = Some r → False)
    by (intros id r; cbn [rows empty_db]; by rewrite lookup_empty).
  split; [done| | | | | | |].
  - intros id r Hr. destruct (Hno id r Hr).
  - intros k. exists 0. cbn [outbox empty_db last_sequence empty_outbox]. rewrite lookup_empty.
    cbn. split; [lia|]. split; [|intros id r Hr; destruct (Hno id r Hr)].
    intros s. split; [lia|]. intros (id & r & Hr & _). destruct (Hno id r Hr).
  - intros id r Hr. destruct (Hno id r Hr).
  - intros i j r s Hr. destruct (Hno i r Hr).
  - intros id v a. cbn [journal empty_db]. by rewrite lookup_empty.
  - intros id v x. cbn [results empty_db]. by rewrite lookup_empty.
  - intros id v1 v2 x1 x2. cbn [results empty_db]. by rewrite lookup_empty.
Qed.

Lemma enqueue_event_ok t now event db db' id :
  delivery_ok t db → t ≤ now → enqueue_event is_object now event db = Ok (db', id) →
  delivery_ok now db'.
Proof.
  intros Hok Ht H. unfold enqueue_event in H.
  apply rbind_ok in H as (tables & (Hkey & Hseq & ->)%enqueue_inv & [= <- <-]).
  set (id := next_row_id db). set (k := ordering_key event).
  assert (Hnew : rows db !! id = None).
  { apply eq_None_not_Some. intros [r Hr].
    pose proof (row_id_bound _ _ _ _ (rows_ok _ _ Hok _ _ Hr)). unfold id in *. lia. }
  assert (Hnoj : ∀ v, journal db !! (id, v) = None).
  { intros v. apply eq_None_not_Some. intros [a Ha].
    destruct (journal_versions _ _ Hok _ _ _ Ha). unfold id in *. lia. }
  assert (Hnores : ∀ v, results db !! (id, v) = None).
  { intros v. apply eq_None_not_Some. intros [x Hx].
    destruct (results_logged _ _ Hok _ _ _ Hx) as [a Ha]. by rewrite Hnoj in Ha. }
  pose proof (next_id_ok _ _ Hok) as Hnext.
  split; cbn [rows outbox next_row_id journal results last_sequence].
  - lia.
  - intros j r [[<- <-]|[Hne Hr]]%lookup_insert_Some.
    + split; cbn; try done; try lia; try (by split; intros []); try (intros []; done).
      * split; [by intros []|]. intros (v & x & Hx & _). by rewrite Hnores in Hx.
    + apply (row_ok_mono t _ db); try done; [by apply (rows_ok _ _ Hok)|]. cbn. lia.
  - intros k'. destruct (keys_ok _ _ Hok k') as (m & Hm & Hopen & Hhead).
    exists m. cbn [outbox last_sequence rows]. destruct (decide (k = k')) as [<-|Hne].
    + rewrite lookup_insert_eq. cbn [from_option]. unfold Datatypes.id. fold k in Hseq. rewrite Hseq. split; [lia|]. split.
      * intros s. destruct (decide (s = default 0 (last_sequence (outbox db) !! k) + 1)) as [->|Hs].
        -- split; [|lia]. intros _. exists id, (fresh_row now id event). by rewrite lookup_insert_eq.
        -- transitivity (m < s ≤ default 0 (last_sequence (outbox db) !! k)); [lia|]. rewrite Hopen.
           split; intros (j & r & Hr & Hrest); exists j, r; (split; [|done]).
           ++ rewrite lookup_insert_ne; [done|congruence].
           ++ apply lookup_insert_Some in Hr as [[<- <-]|[_ Hr]]; [|done].
              destruct Hrest as (_ & Hs' & _). unfold row_sequence in Hs'. cbn in Hs'. congruence.
      * intros j r [[<- <-]|[Hne Hr]]%lookup_insert_Some; [cbn; by intros _ _ [[]|[]]|].
        by apply Hhead with j.
    + rewrite lookup_insert_ne by done. split; [done|]. split.
      * intros s. rewrite Hopen. split; intros (j & r & Hr & Hk & Hrest); exists j, r.
        -- rewrite lookup_insert_ne; [done|congruence].
        -- apply lookup_insert_Some in Hr as [[<- <-]|[_ Hr]]; [|done]. by destruct Hne.
      * intros j r [[<- <-]|[Hne' Hr]]%lookup_insert_Some Hk; [by destruct Hne|].
        by apply Hhead with j.
  - intros j r [[<- <-]|[_ Hr]]%lookup_insert_Some.
    + unfold row_sequence, row_key. cbn. fold k. rewrite lookup_insert_eq. cbn.
      destruct (keys_ok _ _ Hok k) as (m & Hm & _). fold k in Hseq. lia.
    + pose proof (sequences_ok _ _ Hok _ _ Hr) as Hb.
      destruct (decide (k = row_key r)) as [Hk|Hk]; [|by rewrite lookup_insert_ne].
      rewrite Hk, lookup_insert_eq. cbn. fold k in Hseq. rewrite Hk in Hseq. lia.
  - assert (Hfresh : ∀ j r, rows db !! j = Some r → row_key r = k →
      row_sequence r ≠ aggregate_sequence event).
    { intros j r Hr Hk Hs. pose proof (sequences_ok _ _ Hok _ _ Hr) as Hb.
      rewrite Hk in Hb. fold k in Hseq. lia. }
    intros i j a b [[<- <-]|[Hi Ha]]%lookup_insert_Some [[<- <-]|[Hj Hb]]%lookup_insert_Some Hk Hs;
      [done| | |by apply (sequences_inj _ _ Hok i j a b)].
    + exfalso. by apply (Hfresh j b).
    + exfalso. by apply (Hfresh i a).
  - intros j v a Ha. destruct (journal_versions _ _ Hok _ _ _ Ha) as [Hj Hv]. split; [lia|].
    intros r [[<- <-]|[_ Hr]]%lookup_insert_Some; [|by apply Hv]. by rewrite Hnoj in Ha.
  - apply (results_logged _ _ Hok).
  - apply (published_once _ _ Hok).
Qed.

Lemma mark_published_inv t now id w v db db' b :
  delivery_ok t db → t ≤ now → mark_published now id w v db = Ok (db', b) →
  delivery_ok now db' ∧ journal db' = journal db ∧
  if b then ∃ r, rows db !! id = Some r ∧ holds_lease now w v r = true ∧
       rows db' = <[id := published_row now r]> (rows db) ∧
       results db' = <[(id, v) := MkAttemptResult Published now None None]> (results db)
  else rows db' = rows db ∧ ∀ r, rows db !! id = Some r → holds_lease now w v r = false.
Proof.
  intros Hok Ht H. unfold mark_published in H. apply rbind_ok in H as (_ & _ & H).
  destruct (held_row now id w v db) as [r|] eqn:Hheld.
  - apply held_row_Some in Hheld as [Hr Hh]. rewrite bool_decide_true in H by eauto. cbn zeta in H.
    erewrite record_held in H by done. cbn in H. injection H as <- <-.
    split; [|split; [done|]; exists r; done].
    pose proof Hh as (_ & Hv & _ & Hd & _)%holds_lease_spec.
    apply (complete_held_ok t now db id w v Hok Ht r); try done; cbn.
    rewrite Hd. by intros [].
  - pose proof (held_row_None _ _ _ _ _ Hheld) as Hno.
    rewrite bool_decide_false in H by (by intros []). cbn zeta in H.
    destruct (record_delivery_result _ _ _ _ _ _ _ _) as [res n] eqn:Hrec. cbn in H.
    injection H as <- <-. split; [|done].
    by apply (record_lost_ok t now db id w v Hok Ht LeaseLost None None res n).
Qed.

Lemma mark_failed_inv t now f db db' b :
  let id := failed_event_id f in let w := failed_worker_id f in
  let v := failed_claim_version f in
  delivery_ok t db → t ≤ now → mark_failed now f db = Ok (db', b) →
  delivery_ok now db' ∧ journal db' = journal db ∧
  if b then ∃ r, rows db !! id = Some r ∧ holds_lease now w v r = true ∧
       rows db' = <[id := failed_row now f r]> (rows db) ∧ is_Some (results db' !! (id, v))
  else rows db' = rows db ∧ ∀ r, rows db !! id = Some r → holds_lease now w v r = false.
Proof.
  intros id w v Hok Ht H. unfold mark_failed in H. do 2 (apply rbind_ok in H as (_ & _ & H)).
  destruct (_ <? _) in H; [done|]. destruct (_ <=? _) in H; [done|]. cbn zeta in H.
  fold id w v in H. destruct (held_row now id w v db) as [r|] eqn:Hheld.
  - apply held_row_Some in Hheld as [Hr Hh].
    rewrite (bool_decide_true (is_Some (Some r))) in H by eauto.
    erewrite record_held in H by done. cbn [andb negb Z.eqb Pos.eqb] in H. injection H as <- <-.
    split; [|split; [done|]; exists r; cbn [results with_rows]; by rewrite lookup_insert_eq].
    apply (complete_held_ok t now db id w v Hok Ht r); try done; cbn.
    pose proof Hh as (_ & _ & _ & Hd & [Hp _])%holds_lease_spec. rewrite Hp.
    split; [by intros []|]. unfold failure_outcome.
    destruct (failure_class f); [|done]. by destruct (_ <=? _).
  - pose proof (held_row_None _ _ _ _ _ Hheld) as Hno.
    rewrite (bool_decide_false (is_Some None)) in H by (by intros []).
    destruct (record_delivery_result _ _ _ _ _ _ _ _) as [res n] eqn:Hrec.
    cbn [andb] in H. injection H as <- <-. split; [|done].
    eapply (record_lost_ok t now db id w v Hok Ht); [done| |exact Hrec].
    unfold failure_outcome. by destruct (failure_class f).
Qed.

(** Rewriting a dead letter. *)
Lemma set_dead_ok t now n db db' id r r' :
  delivery_ok t db → t ≤ now → rows db !! id = Some r → dead_letter_at n r = true →
  outbox db' = outbox db → next_row_id db' = next_row_id db → journal db' = journal db →
  results db' = results db → rows db' = <[id := r']> (rows db) → envelope r' = envelope r →
  row_id r' = row_id r → claim_version r' = claim_version r →
  replay_count r ≤ replay_count r' → claimed_at r' = None → claimed_by r' = None → lease_expires_at r' = None →
  (is_Some (dead_lettered_at r') → is_Some (last_error r')) → published_at r' = published_at r →
  delivery_ok now db'.
Proof.
  intros Hok Ht Hr (_ & Hd & _ & Ho & _)%dead_letter_at_spec Eo En Ej Eres Erow Ee Ei Ev Hn E1 E2 E3 He Ep.
  pose proof (rows_ok _ _ Hok _ _ Hr) as Hrow.
  apply (set_row_ok t now db db' id r r'); try done; [by right| | | |].
  - apply (unclaimed_row_ok t now db db' id r r'); try done. rewrite Ep, Eres.
    apply (row_published_logged _ _ _ _ Hrow).
  - intros j v _. by rewrite Eres.
  - intros v x. rewrite Eres. apply (results_logged _ _ Hok).
  - intros v1 v2 x1 x2. rewrite Eres. apply (published_once _ _ Hok).
Qed.

Lemma unclaimed_columns now db id r :
  row_ok now db id r → claimed_at r = None → claimed_by r = None ∧ lease_expires_at r = None.
Proof.
  intros [] Hc. rewrite !eq_None_not_Some, <-row_claim_holder, <-row_claim_columns, Hc.
  split; by intros [].
Qed.

Lemma replay_ok t now id user n db db' b :
  delivery_ok t db → t ≤ now → replay_dead_letter now id user n db = Ok (db', b) →
  delivery_ok now db' ∧ journal db' = journal db ∧
  if b then ∃ r, rows db !! id = Some r ∧ dead_letter_at n r = true ∧
       rows db' = <[id := replayed_row now r]> (rows db)
  else rows db' = rows db.
Proof.
  intros Hok Ht H. unfold replay_dead_letter in H. destruct (_ || _) in H; [done|].
  destruct (rows db !! id) as [r|] eqn:Hr; [|injection H as <- <-; eauto using delivery_ok_later].
  destruct (dead_letter_at n r) eqn:Hd; [|injection H as <- <-; eauto using delivery_ok_later].
  destruct (_ <=? _); [done|]. injection H as <- <-.
  split; [|split; [done|]; exists r; done].
  apply (set_dead_ok t now n db _ id r (replayed_row now r)); try done; cbn; [lia|by intros []].
Qed.

Lemma discard_ok t now id user n reason db db' b :
  delivery_ok t db → t ≤ now → discard_dead_letter now id user n reason db = Ok (db', b) →
  delivery_ok now db' ∧ journal db' = journal db ∧
  if b then ∃ r, rows db !! id = Some r ∧ dead_letter_at n r = true ∧
       rows db' = <[id := discarded_row now reason user r]> (rows db)
  else rows db' = rows db.
Proof.
  intros Hok Ht H. unfold discard_dead_letter in H. apply rbind_ok in H as (_ & _ & H).
  destruct (_ || _) in H; [done|]. destruct (_ || _) in H; [done|].
  destruct (rows db !! id) as [r|] eqn:Hr; [|injection H as <- <-; eauto using delivery_ok_later].
  destruct (dead_letter_at n r) eqn:Hd; [|injection H as <- <-; eauto using delivery_ok_later].
  injection H as <- <-. split; [|split; [done|]; exists r; done].
  pose proof Hd as (_ & Hdead & Herr & _ & Hc)%dead_letter_at_spec.
  destruct (unclaimed_columns t db id r) as [Hby Hl]; [by apply (rows_ok _ _ Hok)|done|].
  by apply (set_dead_ok t now n db _ id r (discarded_row now reason user r)).
Qed.

Lemma purge_inv t now locked retention batch db db' n :
  delivery_ok t db → t ≤ now → purge_published now locked retention batch db = Ok (db', n) →
  delivery_ok now db' ∧ journal db' = journal db ∧ results db' = results db ∧
  next_row_id db' = next_row_id db ∧ outbox db' = outbox db ∧
  (∀ id r, rows db' !! id = Some r → rows db !! id = Some r) ∧
  (∀ id r, rows db !! id = Some r → open_row r → rows db' !! id = Some r).
Proof.
  intros Hok Ht H. unfold purge_published in H. destruct (_ <? _) in H; [done|].
  destruct (negb _) in H; [done|]. injection H as <- <-.
  set (gone := row_id <$> _). cbn [journal results next_row_id outbox rows with_rows].
  assert (Hsub : ∀ id r, foldr delete (rows db) gone !! id = Some r → rows db !! id = Some r)
    by (intros id r [_ Hr]%lookup_foldr_delete_Some; done).
  assert (Hopen : ∀ id r, rows db !! id = Some r → open_row r →
    foldr delete (rows db) gone !! id = Some r).
  { intros id r Hr [Hp Hd]. apply lookup_foldr_delete_Some. split; [|done].
    intros (c & Hc & Hin)%list_elem_of_fmap. unfold expired in Hin.
    eapply elem_of_sublist in Hin; [|apply sublist_take]. rewrite sort_by_perm in Hin.
    apply elem_of_filter_bool in Hin as [(j & Hj)%elem_of_table_rows [Hf _]%andb_true_iff].
    pose proof (row_ids_ok t db Hok j c Hj). assert (j = id) as -> by congruence. simplify_eq.
    unfold finished_at in Hf. by rewrite Hp, Hd in Hf. }
  split; [|done]. split; cbn [journal results next_row_id outbox rows with_rows].
  - apply (next_id_ok _ _ Hok).
  - intros id r Hr%Hsub. apply (row_ok_mono t _ db); try done. by apply (rows_ok _ _ Hok).
  - intros k. apply (key_ok_map db); [done|eauto 10| |apply (keys_ok _ _ Hok)].
    intros id r Hr Ho. exists r. eauto 10.
  - intros id r Hr%Hsub. by apply (sequences_ok _ _ Hok id).
  - intros i j a b Ha%Hsub Hb%Hsub. by apply (sequences_inj _ _ Hok).
  - intros id v a Ha. destruct (journal_versions _ _ Hok _ _ _ Ha) as [? Hv]. split; [done|].
    intros r Hr%Hsub. by apply Hv.
  - apply (results_logged _ _ Hok).
  - apply (published_once _ _ Hok).
Qed.

(** ** Histories *)

Abbreviation step := (delivery_step is_object).

Lemma delivery_step_ok s s' : step s s' → delivery_ok s.2 s.1 → delivery_ok s'.2 s'.1 ∧ s.2 ≤ s'.2.
Proof.
  intros Hs Hok. destruct Hs as [db t now event db' id Ht H|db t now locked w p batch lease db' ev Ht H
    |db t now id w v db' b Ht H|db t now f db' b Ht H|db t now id user n db' b Ht H
    |db t now id user n reason db' b Ht H|db t now locked ret batch db' n Ht H];
    cbn [fst snd] in *; (split; [|done]).
  - by eapply enqueue_event_ok.
  - by eapply claim_events_inv in H as [? _].
  - by eapply mark_published_inv in H as [? _].
  - by eapply mark_failed_inv in H as [? _].
  - by eapply replay_ok in H as [? _].
  - by eapply discard_ok in H as [? _].
  - by eapply purge_inv in H as [? _].
Qed.

Lemma delivery_steps_ok s s' :
  rtc step s s' → delivery_ok s.2 s.1 → delivery_ok s'.2 s'.1 ∧ s.2 ≤ s'.2.
Proof.
  induction 1 as [|s s1 s2 Hs _ IH]; intros Hok; [split; [done|lia]|].
  destruct (delivery_step_ok _ _ Hs Hok) as [Hok1 Ht]. destruct (IH Hok1). split; [done|lia].
Qed.

Lemma reachable_ok db t : rtc step (empty_db, 0) (db, t) → delivery_ok t db.
Proof. intros H. by apply (delivery_steps_ok _ _ H empty_db_ok). Qed.
End facts.
