(* ===== verification/DeliveryGuarantees.v ===== *)
(** * Delivery of outbox events: what the lease protocol guarantees

    Over every history of accepted calls from the empty tables: order within an
    ordering key, exclusive leases, fencing of workers that lost a claim, an
    intact journal, and that every event can still be finished. *)

From S2P Require Import Prelude.
From S2P Require Import RustStr.
From S2P Require Import Outbox.
From S2P Require Import Delivery.
From S2P Require Import DeliveryFacts.

Section guarantees.
Context {Payload : Type} (is_object : Payload → bool).
Abbreviation DeliveryDb := (DeliveryDb (Payload := Payload)).
Abbreviation DeliveryRow := (DeliveryRow (Payload := Payload)).
Implicit Types (db : DeliveryDb) (r e : DeliveryRow).
Abbreviation step := (delivery_step is_object).

Definition reachable (db : DeliveryDb) (t : Z) : Prop := rtc step (empty_db, 0) (db, t).

Definition last_number (db : DeliveryDb) (k : rstr) : Z :=
  default 0 (last_sequence (outbox db) !! k).

(** The event numbered [s] of the ordering key [k] is stored and not finished. *)
Definition waiting (db : DeliveryDb) (k : rstr) (s : Z) : Prop :=
  ∃ id r, rows db !! id = Some r ∧ row_key r = k ∧ row_sequence r = s ∧ finished r = false.

(** ** What becomes of one claim *)

Lemma record_grows now id w v o x ra db res n :
  record_delivery_result now id w v o x ra db = (res, n) → results db ⊆ res.
Proof.
  unfold record_delivery_result. intros H. destruct (journal db !! (id, v)); [|by simplify_eq].
  case_bool_decide; [|by simplify_eq]. destruct (results db !! (id, v)) eqn:E; simplify_eq; [done|].
  by apply insert_subseteq.
Qed.

Lemma mark_published_frame now id w v db db' b :
  mark_published now id w v db = Ok (db', b) →
  results db ⊆ results db' ∧ next_row_id db' = next_row_id db.
Proof.
  unfold mark_published. intros H. apply rbind_ok in H as (_ & _ & H). cbn zeta in H.
  destruct (record_delivery_result _ _ _ _ _ _ _ _) as [res n] eqn:Hrec.
  destruct (_ && _) in H; [done|]. injection H as <- _. split; [|done]. by eapply record_grows.
Qed.

Lemma mark_failed_frame now f db db' b :
  mark_failed now f db = Ok (db', b) →
  results db ⊆ results db' ∧ next_row_id db' = next_row_id db.
Proof.
  unfold mark_failed. intros H. do 2 (apply rbind_ok in H as (_ & _ & H)).
  destruct (_ <? _) in H; [done|]. destruct (_ <=? _) in H; [done|]. cbn zeta in H.
  destruct (record_delivery_result _ _ _ _ _ _ _ _) as [res n] eqn:Hrec.
  destruct (_ && _) in H; [done|]. injection H as <- _. split; [|done]. by eapply record_grows.
Qed.

Lemma claim_results now locked w p batch lease db db' events :
  claim_events now locked w p batch lease db = Ok (db', events) →
  results db' = results db ∧ next_row_id db' = next_row_id db.
Proof.
  unfold claim_events. intros H. do 2 (apply rbind_ok in H as (_ & _ & H)).
  destruct (_ && _) in H; [|done]. destruct (_ <? _) in H; [|done].
  destruct (existsb _ _); [done|]. cbn zeta in H.
  case_bool_decide; [by injection H as <- _|]. apply rbind_ok in H as (log & _ & H).
  destruct (_ =? _) in H; [|done]. by injection H as <- _.
Qed.

(** The claim [v] of event [id], leased to [w] until [l], was answered, is the
    running one, or was overtaken after its lease. *)
Definition claim_fate (id v l : Z) (w : rstr) (s : DeliveryDb * Z) : Prop :=
  id < next_row_id s.1 ∧
  ∀ r, rows s.1 !! id = Some r → v ≤ claim_version r ∧
    (is_Some (results s.1 !! (id, v)) ∨
     (claim_version r = v ∧ claimed_by r = Some w ∧ lease_expires_at r = Some l) ∨
     (v < claim_version r ∧ l ≤ s.2)).

Lemma fate_grow id v l w db t db' now :
  claim_fate id v l w (db, t) → t ≤ now → next_row_id db ≤ next_row_id db' →
  results db ⊆ results db' →
  (∀ r', rows db' !! id = Some r' → ∃ r, rows db !! id = Some r ∧
     (claim_version r' = claim_version r ∧ claimed_by r' = claimed_by r ∧
        lease_expires_at r' = lease_expires_at r ∨
      claim_version r' = claim_version r ∧ is_Some (results db' !! (id, claim_version r)) ∨
      claim_version r' = claim_version r ∧ claimed_by r = None ∨
      claim_version r < claim_version r' ∧
        ∀ l', lease_expires_at r = Some l' → l' ≤ now)) →
  claim_fate id v l w (db', now).
Proof.
  intros [Hid Hf] Ht Hn Hres Hrows. split; [cbn in *; lia|]. intros r' Hr'. cbn [fst snd] in *.
  destruct (Hrows r' Hr') as (r & Hr & Hcase). destruct (Hf r Hr) as [Hv Hfate].
  assert (Hkeep : is_Some (results db !! (id, v)) → is_Some (results db' !! (id, v))).
  { intros [x Hx]. exists x. by eapply lookup_weaken. }
  destruct Hcase as [(E1 & E2 & E3)|[[E1 Hx]|[[E1 Hc]|[Hlt Hl]]]].
  - rewrite E1, E2, E3. split; [done|]. destruct Hfate as [?|[?|[? ?]]]; auto.
    right. right. split; [done|lia].
  - rewrite E1. split; [done|]. destruct Hfate as [?|[(<- & _)|[? ?]]]; auto.
    right. right. split; [done|lia].
  - rewrite E1. split; [done|]. destruct Hfate as [?|[(_ & Hw & _)|[? ?]]]; auto; [congruence|].
    right. right. split; [done|lia].
  - split; [lia|]. destruct Hfate as [?|[(<- & _ & Hl')|[? ?]]]; auto.
    right. right. split; lia.
Qed.

Section fate_steps.
Context (id v l : Z) (w : rstr) (t now : Z) (db : DeliveryDb).
Context (Hok : delivery_ok t db) (Ht : t ≤ now) (Hf : claim_fate id v l w (db, t)).

Lemma enqueue_fate db' event i :
  enqueue_event is_object now event db = Ok (db', i) → claim_fate id v l w (db', now).
Proof.
  unfold enqueue_event. intros H. apply rbind_ok in H as (tables & _ & [= <- <-]).
  destruct Hf as [Hid Hf']. split; cbn [fst snd next_row_id rows results] in *; [lia|].
  intros r [[E _]|[_ Hr]]%lookup_insert_Some; [lia|]. destruct (Hf' r Hr) as [? Hfate].
  split; [done|]. destruct Hfate as [?|[?|[? ?]]]; auto. right. right. split; lia.
Qed.

Lemma claim_fate_step db' locked w' p batch lease ev :
  claim_events now locked w' p batch lease db = Ok (db', ev) → claim_fate id v l w (db', now).
Proof.
  intros H. destruct (claim_results _ _ _ _ _ _ _ _ _ H) as [Er En].
  destruct (claim_events_inv _ _ _ _ _ _ _ _ _ _ Hok Ht H) as (Hok' & Hev & Hother & Hback).
  apply (fate_grow id v l w db t); try done; [lia|by rewrite Er|].
  intros r' Hr'. destruct (Hback _ _ Hr') as (r & Hr & Hcase). exists r. split; [done|].
  destruct (decide (id ∈ (row_id <$> ev))) as [(e & -> & He)%list_elem_of_fmap|Hin].
  - destruct (Hev e He) as (r0 & Hr0 & (_ & _ & _ & Hcl & _)%claimable_spec & _ & -> & Hr0').
    cbn [row_id claim_row] in *. simplify_eq. right. right. right. cbn. split; [lia|].
    intros l' Hl'. destruct Hcl as [Hc|(l'' & ? & ?)]; [|by simplify_eq].
    destruct (unclaimed_columns _ _ _ _ (rows_ok _ _ Hok _ _ Hr) Hc). congruence.
  - rewrite (Hother _ _ Hr Hin) in Hr'. simplify_eq. by left.
Qed.

Lemma published_fate db' i w' v' b :
  mark_published now i w' v' db = Ok (db', b) → claim_fate id v l w (db', now).
Proof.
  intros H. destruct (mark_published_frame _ _ _ _ _ _ _ H) as [Hres En].
  destruct (mark_published_inv _ _ _ _ _ _ _ _ Hok Ht H) as (Hok' & Hj & Hb).
  apply (fate_grow id v l w db t); try done; [lia|]. destruct b.
  - destruct Hb as (r0 & Hr0 & (_ & Hv & _)%holds_lease_spec & Erow & Eres).
    rewrite Erow. intros r' [[<- <-]|[_ Hr']]%lookup_insert_Some; [|by eauto 10].
    exists r0. split; [done|]. right. left. rewrite Eres, Hv, lookup_insert_eq. done.
  - destruct Hb as [-> _]. eauto 10.
Qed.

Lemma failed_fate db' f b : mark_failed now f db = Ok (db', b) → claim_fate id v l w (db', now).
Proof.
  intros H. destruct (mark_failed_frame _ _ _ _ _ H) as [Hres En].
  destruct (mark_failed_inv _ _ _ _ _ _ Hok Ht H) as (Hok' & Hj & Hb).
  apply (fate_grow id v l w db t); try done; [lia|]. destruct b.
  - destruct Hb as (r0 & Hr0 & (_ & Hv & _)%holds_lease_spec & Erow & Eres).
    rewrite Erow. intros r' [[<- <-]|[_ Hr']]%lookup_insert_Some; [|by eauto 10].
    exists r0. split; [done|]. right. left. by rewrite Hv.
  - destruct Hb as [-> _]. eauto 10.
Qed.

(** Rewriting a dead letter touches no running claim. *)
Lemma dead_fate db' i n r r' :
  rows db !! i = Some r → dead_letter_at n r = true → claim_version r' = claim_version r →
  rows db' = <[i := r']> (rows db) → results db' = results db →
  next_row_id db' = next_row_id db → claim_fate id v l w (db', now).
Proof.
  intros Hr (_ & _ & _ & _ & Hc)%dead_letter_at_spec Ev Erow Eres En.
  apply (fate_grow id v l w db t); try done; [lia|by rewrite Eres|]. rewrite Erow.
  intros q [[<- <-]|[_ Hq]]%lookup_insert_Some; [|by eauto 10].
  exists r. split; [done|]. right. right. left. split; [done|].
  by destruct (unclaimed_columns _ _ _ _ (rows_ok _ _ Hok _ _ Hr) Hc).
Qed.

Lemma replay_fate db' i user n b :
  replay_dead_letter now i user n db = Ok (db', b) → claim_fate id v l w (db', now).
Proof.
  unfold replay_dead_letter. intros H. destruct (_ || _) in H; [done|].
  assert (Hsame : claim_fate id v l w (db, now)).
  { apply (fate_grow id v l w db t); try done. eauto 10. }
  destruct (rows db !! i) as [r|] eqn:Hr; [|by injection H as <- _].
  destruct (dead_letter_at n r) eqn:Hd; [|by injection H as <- _].
  destruct (_ <=? _); [done|]. injection H as <- _. by apply (dead_fate _ i n r (replayed_row now r)).
Qed.

Lemma discard_fate db' i user n reason b :
  discard_dead_letter now i user n reason db = Ok (db', b) → claim_fate id v l w (db', now).
Proof.
  unfold discard_dead_letter. intros H. apply rbind_ok in H as (_ & _ & H).
  destruct (_ || _) in H; [done|]. destruct (_ || _) in H; [done|].
  assert (Hsame : claim_fate id v l w (db, now)).
  { apply (fate_grow id v l w db t); try done. eauto 10. }
  destruct (rows db !! i) as [r|] eqn:Hr; [|by injection H as <- _].
  destruct (dead_letter_at n r) eqn:Hd; [|by injection H as <- _].
  injection H as <- _. by apply (dead_fate _ i n r (discarded_row now reason user r)).
Qed.

Lemma purge_fate db' locked retention batch n :
  purge_published now locked retention batch db = Ok (db', n) → claim_fate id v l w (db', now).
Proof.
  intros H. destruct (purge_inv _ _ _ _ _ _ _ _ Hok Ht H) as (_ & _ & Er & En & _ & Hsub & _).
  apply (fate_grow id v l w db t); try done; [lia|by rewrite Er|]. intros r' Hr'%Hsub. eauto 10.
Qed.
End fate_steps.

Lemma steps_fate id v l w s s' :
  rtc step s s' → delivery_ok s.2 s.1 → claim_fate id v l w s → claim_fate id v l w s'.
Proof.
  induction 1 as [|s s1 s2 Hs _ IH]; intros Hok Hf; [done|].
  apply IH; [by eapply delivery_step_ok|]. clear IH. destruct Hs; cbn [fst snd] in *;
    eauto using enqueue_fate, claim_fate_step, published_fate, failed_fate, replay_fate,
      discard_fate, purge_fate.
Qed.

(** A claim's fate starts with the lease it was given. *)
Lemma claimed_fate t now locked w p batch lease db db' events e :
  delivery_ok t db → t ≤ now → claim_events now locked w p batch lease db = Ok (db', events) →
  e ∈ events → claim_fate (row_id e) (claim_version e) (now + seconds lease) w (db', now).
Proof.
  intros Hok Ht H He. destruct (claim_events_inv _ _ _ _ _ _ _ _ _ _ Hok Ht H) as (Hok' & Hev & _).
  destruct (Hev e He) as (r & Hr & _ & _ & -> & Hr').
  split; cbn [fst snd]; [by destruct (row_id_bound _ _ _ _ (rows_ok _ _ Hok' _ _ Hr'))|].
  intros q Hq. cbn [row_id claim_row] in Hq. simplify_eq. split; [done|]. right. by left.
Qed.

(** ** Claiming always works *)

(** Every valid call succeeds, short of a counter overflow. *)
Lemma claim_events_total t now locked w p batch lease db :
  let chosen := candidates now locked batch (rows db) in
  delivery_ok t db →
  bounded_text w "worker ID" 200 = Ok tt → bounded_text p "publisher name" 200 = Ok tt →
  1 ≤ batch ≤ 1000 → 0 < lease →
  (∀ r, r ∈ chosen → claim_version r < i64_max ∧ attempts r < i32_max) →
  ∃ db' events, claim_events now locked w p batch lease db = Ok (db', events) ∧
    events ≡ₚ claim_row now lease w <$> chosen.
Proof.
  intros chosen Hok Hw Hp Hb Hl Hmax. unfold claim_events. rewrite Hw, Hp. cbn [rbind].
  rewrite (proj2 (Z.leb_le 1 batch)), (proj2 (Z.leb_le batch 1000)), (proj2 (Z.ltb_lt 0 lease)) by lia.
  cbn [andb]. cbn zeta. fold chosen.
  assert (existsb (fun r => (i64_max <=? claim_version r) || (i32_max <=? attempts r)) chosen = false)
    as ->.
  { apply not_true_iff_false. rewrite existsb_exists. intros (r & Hr%list_elem_of_In & Hx).
    destruct (Hmax r Hr). apply orb_true_iff in Hx as [Hx|Hx]; apply Z.leb_le in Hx; lia. }
  set (events := sort_by _ _).
  assert (Hev : events ≡ₚ claim_row now lease w <$> chosen) by apply (sort_by_perm _).
  clearbody events. case_bool_decide as He; [exists db, []; by rewrite <-Hev, He|].
  pose proof (insert_attempts_ok t now lease batch locked w p db Hok) as Hins.
  pose proof (inserted_perm t now lease batch locked w db Hok) as Hperm.
  fold chosen in Hins, Hperm. rewrite Hins. cbn [rbind].
  rewrite (proj2 (Z.eqb_eq _ _)); [by eexists _, _|by rewrite Hperm, Hev].
Qed.

Lemma bounded_text_error value label n (e : PersistenceError) :
  bounded_text value label n = Err e → ∃ why, e = InvalidInput why.
Proof.
  unfold bounded_text, required_text. case_bool_decide; cbn [rbind]; [intros [= <-]; eauto|].
  destruct (_ <? _); [intros [= <-]; eauto|done].
Qed.

Lemma claim_errors t now locked w p batch lease db :
  delivery_ok t db →
  match claim_events now locked w p batch lease db with
  | Ok _ | Err (InvalidInput _) | Err (Database _) => True
  | Err _ => False
  end.
Proof.
  intros Hok. set (chosen := candidates now locked batch (rows db)).
  destruct (existsb (fun r => (i64_max <=? claim_version r) || (i32_max <=? attempts r)) chosen) eqn:Ho.
  - unfold claim_events. do 2 (match goal with |- context [bounded_text ?a ?b ?c] =>
      destruct (bounded_text a b c) eqn:?; cbn [rbind];
        [|by match goal with H : bounded_text _ _ _ = Err _ |- _ =>
               apply bounded_text_error in H as [y ->] end] end).
    destruct (_ && _); [|done]. destruct (_ <? _); [|done]. cbn zeta. fold chosen. by rewrite Ho.
  - destruct (bounded_text w "worker ID" 200) as [[]|e] eqn:Hw;
      [|unfold claim_events; rewrite Hw; cbn; by apply bounded_text_error in Hw as [y ->]].
    destruct (bounded_text p "publisher name" 200) as [[]|e] eqn:Hp;
      [|unfold claim_events; rewrite Hw, Hp; cbn; by apply bounded_text_error in Hp as [y ->]].
    destruct ((1 <=? batch) && (batch <=? 1000)) eqn:Hb;
      [|unfold claim_events; by rewrite Hw, Hp, Hb].
    destruct (0 <? lease) eqn:Hl; [|unfold claim_events; by rewrite Hw, Hp, Hb, Hl].
    bool_to_prop.
    destruct (claim_events_total t now locked w p batch lease db) as (db' & ev & -> & _); try done.
    fold chosen. intros r Hr. apply not_true_iff_false in Ho. rewrite existsb_exists in Ho.
    split; apply Z.nle_gt; intros Hle; apply Ho; exists r; rewrite list_elem_of_In in Hr;
      (split; [done|]); apply orb_true_iff; [left|right]; by apply Z.leb_le.
Qed.

(** ** Progress *)

Lemma candidates_only t now db id r :
  delivery_ok t db → rows db !! id = Some r → claimable now (rows db) r = true →
  candidates now (dom (rows db) ∖ {[id]}) 1 (rows db) = [r].
Proof.
  intros Hok Hr Hc. unfold candidates.
  assert (E : List.filter (fun r => claimable now (rows db) r
      && negb (bool_decide (row_id r ∈ dom (rows db) ∖ {[id]}))) (table_rows (rows db)) = [r]);
    [|by rewrite E].
  apply Permutation_singleton_r, NoDup_Permutation; [|apply NoDup_singleton|].
  - apply (NoDup_fmap_1 row_id), NoDup_filter_bool, table_rows_NoDup, (row_ids_ok t db Hok).
  - intros q. rewrite elem_of_filter_bool, elem_of_table_rows, list_elem_of_singleton. split.
    + intros [(j & Hj) [_ Hq]%andb_true_iff]. bool_to_prop.
      rewrite (row_ids_ok t db Hok j q Hj) in Hq.
      assert (j = id) as ->; [|by simplify_eq].
      destruct (decide (j = id)); [done|]. exfalso. apply Hq.
      apply elem_of_difference. split; [by apply elem_of_dom|set_solver].
    + intros ->. split; [eauto|]. rewrite Hc, (row_ids_ok t db Hok id r Hr), bool_decide_false; [done|].
      set_solver.
Qed.

Lemma finished_discarded now reason user r : finished (discarded_row now reason user r) = true.
Proof.
  unfold finished. rewrite (bool_decide_true (is_Some (discarded_at _))) by (by eexists).
  apply orb_true_r.
Qed.

Definition some_worker : rstr := [119].

Definition can_finish db t id r : Prop :=
  ∃ db' t' r', rtc step (db, t) (db', t') ∧ rows db' = <[id := r']> (rows db) ∧
    envelope r' = envelope r ∧ finished r' = true.

(** A dead letter is discarded. *)
Lemma dead_letter_can_finish t db id r :
  delivery_ok t db → rows db !! id = Some r → open_row r → is_Some (dead_lettered_at r) →
  can_finish db t id r.
Proof.
  intros Hok Hr Ho Hd. pose proof (rows_ok _ _ Hok _ _ Hr) as Hrow.
  assert (Hdl : dead_letter_at (replay_count r) r = true).
  { apply dead_letter_at_spec. split_and!; try done.
    - by apply (row_dead_error _ _ _ _ Hrow).
    - by apply (row_dead_unclaimed _ _ _ _ Hrow). }
  pose proof (row_id_bound _ _ _ _ Hrow). pose proof (row_version_ok _ _ _ _ Hrow).
  exists (MkDb (outbox db) (<[id := discarded_row t some_worker 1 r]> (rows db))
            (next_row_id db) (journal db) (results db) (replays db)
            (discards db ++ [MkDiscard id (replay_count r) (attempts r) (last_error r)
                               some_worker 1 t])),
    t, (discarded_row t some_worker 1 r). split; [|auto using finished_discarded].
  apply rtc_once. eapply (step_discard _ db t t id 1 (replay_count r) some_worker _ true); [lia|].
  unfold discard_dead_letter.
  change (bounded_text some_worker "discard reason" 1000) with (@Ok unit PersistenceError tt).
  cbn [rbind]. change (negb (bool_decide (trim some_worker = some_worker))
    || existsb is_control some_worker) with false. cbv iota.
  rewrite (proj2 (Z.leb_gt id 0)), (proj2 (Z.ltb_ge (replay_count r) 0)) by lia.
  cbn [orb]. change (1 <=? 0) with false. cbv iota. by rewrite Hr, Hdl.
Qed.

(** A claimable event is claimed, while other workers hold the other rows. *)
Lemma can_claim_one t now db id r :
  delivery_ok t db → t ≤ now → rows db !! id = Some r → claimable now (rows db) r = true →
  claim_version r < i64_max → attempts r < i32_max →
  ∃ db', step (db, t) (db', now) ∧ delivery_ok now db' ∧
    rows db' = <[id := claim_row now 1 some_worker r]> (rows db).
Proof.
  intros Hok Ht Hr Hc Hcv Hat.
  pose proof (candidates_only t now db id r Hok Hr Hc) as Hcand.
  destruct (claim_events_total t now (dom (rows db) ∖ {[id]}) some_worker some_worker 1 1 db)
    as (db1 & ev & Hcl & Hev); try done; [rewrite Hcand; set_solver|].
  rewrite Hcand in Hev. apply Permutation_singleton_r in Hev as ->.
  destruct (claim_events_inv _ _ _ _ _ _ _ _ _ _ Hok Ht Hcl) as (Hok1 & Hin & Hother & Hback).
  exists db1. split; [by apply (step_claim _ db t now _ _ _ _ _ db1 _ Ht Hcl)|]. split; [done|].
  assert (Hid : row_id r = id) by by apply (row_ids_ok t db Hok).
  apply map_eq. intros j. destruct (decide (j = id)) as [->|Hne].
  - rewrite lookup_insert_eq.
    destruct (Hin (claim_row now 1 some_worker r)) as (q & Hq & _ & _ & E & Hq'); [set_solver|].
    assert (row_id q = id) as Eq; [|by rewrite Eq in Hq'].
    apply (f_equal row_id) in E. cbn in E. congruence.
  - rewrite lookup_insert_ne by done. destruct (rows db !! j) as [q|] eqn:Hq.
    + apply Hother; [done|]. cbn. rewrite Hid. set_solver.
    + apply eq_None_not_Some. intros [q Hq']. destruct (Hback _ _ Hq') as (q0 & Hq0 & _). congruence.
Qed.

(** The first open event of its key can be finished: discarded when it is a dead
    letter, else claimed once any lease has run out, and published. *)
Lemma head_can_finish t db id r :
  delivery_ok t db → rows db !! id = Some r → open_row r →
  claim_version r < i64_max → attempts r < i32_max →
  (∀ j p, rows db !! j = Some p → row_key p = row_key r → open_row p →
     row_sequence r ≤ row_sequence p) →
  can_finish db t id r.
Proof.
  intros Hok Hr Ho Hcv Hat Hmin. pose proof (rows_ok _ _ Hok _ _ Hr) as Hrow.
  destruct (decide (is_Some (dead_lettered_at r))) as [Hd|Hd%eq_None_not_Some];
    [by apply dead_letter_can_finish|].
  set (now := Z.max t (Z.max (available_at r) (default 0 (lease_expires_at r)))).
  assert (Hc : claimable now (rows db) r = true).
  { apply claimable_spec. split_and!; try done; [lia|].
    destruct (lease_expires_at r) as [l|] eqn:Hl; [right; exists l; unfold now; cbn; split; [done|lia]|].
    left. apply eq_None_not_Some. rewrite (row_claim_columns _ _ _ _ Hrow), Hl. by intros []. }
  destruct (can_claim_one t now db id r) as (db1 & Hstep & Hok1 & Hrows1); try done; [unfold now; lia|].
  set (r1 := claim_row now 1 some_worker r) in *.
  assert (Hr1 : rows db1 !! id = Some r1) by (by rewrite Hrows1, lookup_insert_eq).
  assert (Hh : holds_lease now some_worker (claim_version r1) r1 = true).
  { apply holds_lease_spec. split_and!; try done. eexists. split; [done|]. unfold seconds. lia. }
  eexists _, now, (published_row now r1). split.
  - eapply rtc_l; [exact Hstep|]. apply rtc_once.
    eapply (step_published _ db1 now now id some_worker (claim_version r1) _ true); [lia|].
    unfold mark_published.
    change (bounded_text some_worker "worker ID" 200) with (@Ok unit PersistenceError tt).
    cbn [rbind]. rewrite (proj2 (held_row_Some now db1 id some_worker (claim_version r1) r1)) by done.
    rewrite bool_decide_true by eauto.
    by erewrite (record_held now now db1 id some_worker (claim_version r1) Hok1 (Z.le_refl _) r1) by done.
  - cbn [rows with_rows]. rewrite Hrows1, insert_insert_eq. done.
Qed.


Lemma waiting_dec t db k s : delivery_ok t db → waiting db k s ∨ ¬ waiting db k s.
Proof.
  intros Hok. destruct (keys_ok _ _ Hok k) as (m & _ & Hopen & _). fold (last_number db k) in Hopen.
  assert (Hw : waiting db k s ↔ m < s ≤ last_number db k).
  { rewrite Hopen. unfold waiting. by setoid_rewrite finished_spec. }
  rewrite Hw. destruct (decide (m < s ≤ last_number db k)); auto.
Qed.

Definition counters_free (db : DeliveryDb) : Prop :=
  ∀ j p, rows db !! j = Some p → open_row p → claim_version p < i64_max ∧ attempts p < i32_max.

Lemma can_finish_from n : ∀ db t id r,
  delivery_ok t db → counters_free db → rows db !! id = Some r → open_row r →
  (∀ s, s < row_sequence r - Z.of_nat n → ¬ waiting db (row_key r) s) →
  ∃ db' t' r', rtc step (db, t) (db', t') ∧ rows db' !! id = Some r' ∧
    envelope r' = envelope r ∧ finished r' = true.
Proof.
  induction n as [|n IH]; intros db t id r Hok Hfree Hr Ho Hnone.
  - destruct (Hfree _ _ Hr Ho). destruct (head_can_finish t db id r) as (db' & t' & r' & Hrtc & Hrows & Hr');
      try done.
    + intros j p Hp Hk Hpo. apply Z.nlt_ge. intros Hlt. apply (Hnone (row_sequence p)); [lia|].
      exists j, p. by rewrite finished_spec.
    + exists db', t', r'. split; [done|]. by rewrite Hrows, lookup_insert_eq.
  - set (s0 := row_sequence r - Z.of_nat (S n)).
    destruct (waiting_dec t db (row_key r) s0 Hok) as [(j & p & Hp & Hk & Hs & Hpo)|Hno].
    + rewrite finished_spec in Hpo. destruct (Hfree _ _ Hp Hpo).
      destruct (head_can_finish t db j p) as (db1 & t1 & p' & Hrtc & Hrows & He & Hf); try done.
      { intros i q Hq Hqk Hqo. apply Z.nlt_ge. intros Hlt. apply (Hnone (row_sequence q)); [lia|].
        exists i, q. rewrite finished_spec, Hqk. done. }
      assert (Hne : j ≠ id) by (intros ->; simplify_eq; lia).
      destruct (delivery_steps_ok _ _ _ Hrtc Hok) as [Hok1 Ht1]. cbn [fst snd] in *.
      destruct (IH db1 t1 id r) as (db2 & t2 & r2 & Hrtc2 & Hrest); try done.
      * intros i q Hq Hqo. rewrite Hrows in Hq. apply lookup_insert_Some in Hq as [[<- <-]|[_ Hq]];
          [|by apply (Hfree i)]. apply finished_spec in Hqo. congruence.
      * by rewrite Hrows, lookup_insert_ne.
      * intros s Hlt (i & q & Hq & Hqk & Hqs & Hqo). rewrite Hrows in Hq.
        apply lookup_insert_Some in Hq as [[<- <-]|[Hij Hq]]; [congruence|].
        destruct (decide (s = s0)) as [->|Hs0].
        -- apply Hij. apply (sequences_inj _ _ Hok j i p q Hp Hq); congruence.
        -- apply (Hnone s); [unfold s0 in *; lia|]. by exists i, q.
      * exists db2, t2, r2. split; [|done]. by etrans.
    + apply (IH db t id r); try done. intros s Hlt. destruct (decide (s = s0)) as [->|Hs0]; [done|].
      apply Hnone. unfold s0 in *. lia.
Qed.

(** ** The theorems *)

(** C27. The events of an ordering key are finished in the order they were written
    and none is lost: whatever workers and operators do, there is a number [m]
    such that the events after [m], and only those, are still stored and waiting,
    and the only waiting one that anybody has claimed or dead-lettered is the
    next, [m + 1]. *)
Theorem streams_in_order db t k :
  reachable db t →
  ∃ m, 0 ≤ m ≤ last_number db k ∧ (∀ s, waiting db k s ↔ m < s ≤ last_number db k) ∧
    ∀ id r, rows db !! id = Some r → row_key r = k → finished r = false →
      claimed_at r ≠ None ∨ dead_lettered_at r ≠ None → row_sequence r = m + 1.
Proof.
  intros Hok%reachable_ok. destruct (keys_ok _ _ Hok k) as (m & Hm & Hopen & Hhead).
  exists m. split; [done|]. split.
  - intros s. unfold last_number. rewrite Hopen. unfold waiting. by setoid_rewrite finished_spec.
  - intros id r Hr Hk Hf%finished_spec Ht. apply (Hhead id r); try done.
    by rewrite <-!not_eq_None_Some.
Qed.

(** Leases exclude other workers: an event that was handed to one worker is
    handed out again only after its lease has run out or after the first worker
    reported a result for it. *)
Theorem lease_excludes_others db0 t0 now locked w p batch lease db1 events e db2 t2 now' locked'
    w' p' batch' lease' db3 events' e' :
  reachable db0 t0 → t0 ≤ now →
  claim_events now locked w p batch lease db0 = Ok (db1, events) → e ∈ events →
  rtc step (db1, now) (db2, t2) → t2 ≤ now' →
  claim_events now' locked' w' p' batch' lease' db2 = Ok (db3, events') → e' ∈ events' →
  row_id e' = row_id e →
  now + seconds lease ≤ now' ∨ is_Some (results db2 !! attempt_key e).
Proof.
  intros Hok0%reachable_ok Ht0 Hcl He Hrtc Ht2 Hcl' He' Hid.
  pose proof (claimed_fate _ _ _ _ _ _ _ _ _ _ _ Hok0 Ht0 Hcl He) as Hfate.
  destruct (claim_events_inv _ _ _ _ _ _ _ _ _ _ Hok0 Ht0 Hcl) as (Hok1 & _).
  pose proof (steps_fate _ _ _ _ _ _ Hrtc Hok1 Hfate) as [_ Hfate2].
  destruct (delivery_steps_ok _ _ _ Hrtc Hok1) as [Hok2 _]. cbn [fst snd] in *.
  destruct (claim_events_inv _ _ _ _ _ _ _ _ _ _ Hok2 Ht2 Hcl') as (_ & Hev & _).
  destruct (Hev e' He') as (r & Hr & (_ & _ & _ & Hc & _)%claimable_spec & _ & -> & _).
  cbn [row_id claim_row] in Hid. rewrite Hid in Hr.
  destruct (Hfate2 r Hr) as (_ & [Hx|[(_ & _ & Hl)|[_ Hl]]]); [by right| |left; lia].
  left. destruct Hc as [Hc|(l & Hl' & ?)]; [|simplify_eq; lia].
  destruct (unclaimed_columns _ _ _ _ (rows_ok _ _ Hok2 _ _ Hr) Hc). congruence.
Qed.

(** C28. Fencing: once an event has been handed out again, the worker that had it
    before can no longer complete it. Its reports are answered with [false] and
    change no event, however late they arrive. *)
Theorem stale_worker_refused db0 t0 now locked w p batch lease db1 events e db2 t2 now2 id v db3 :
  reachable db0 t0 → t0 ≤ now →
  claim_events now locked w p batch lease db0 = Ok (db1, events) → e ∈ events →
  id = row_id e → v < claim_version e →
  rtc step (db1, now) (db2, t2) → t2 ≤ now2 →
  (∀ w' b, mark_published now2 id w' v db2 = Ok (db3, b) → b = false ∧ rows db3 = rows db2) ∧
  (∀ f b, failed_event_id f = id → failed_claim_version f = v →
     mark_failed now2 f db2 = Ok (db3, b) → b = false ∧ rows db3 = rows db2).
Proof.
  intros Hok0%reachable_ok Ht0 Hcl He -> Hv Hrtc Ht2.
  pose proof (claimed_fate _ _ _ _ _ _ _ _ _ _ _ Hok0 Ht0 Hcl He) as Hfate.
  destruct (claim_events_inv _ _ _ _ _ _ _ _ _ _ Hok0 Ht0 Hcl) as (Hok1 & _).
  pose proof (steps_fate _ _ _ _ _ _ Hrtc Hok1 Hfate) as [_ Hfate2].
  destruct (delivery_steps_ok _ _ _ Hrtc Hok1) as [Hok2 _]. cbn [fst snd] in *.
  assert (Hno : ∀ w' r, rows db2 !! row_id e = Some r → holds_lease now2 w' v r = true → False).
  { intros w' r Hr (_ & Hv' & _)%holds_lease_spec. destruct (Hfate2 r Hr) as [? _]. lia. }
  split.
  - intros w' b H. destruct (mark_published_inv _ _ _ _ _ _ _ _ Hok2 Ht2 H) as (_ & _ & Hb).
    destruct b; [|by destruct Hb]. destruct Hb as (r & Hr & Hh & _). destruct (Hno _ _ Hr Hh).
  - intros f b Ef Ev H. destruct (mark_failed_inv _ _ _ _ _ _ Hok2 Ht2 H) as (_ & _ & Hb).
    destruct b; [|by destruct Hb]. destruct Hb as (r & Hr & Hh & _). rewrite Ef in Hr. rewrite Ev in Hh.
    destruct (Hno _ _ Hr Hh).
Qed.

(** The journal is intact: a result belongs to a recorded attempt of a claim
    that was made, an event is marked published exactly when one of its attempts
    reported so, and at most one did. *)
Theorem journal_accounts db t :
  reachable db t →
  (∀ id v x, results db !! (id, v) = Some x → is_Some (journal db !! (id, v))) ∧
  (∀ id v a r, journal db !! (id, v) = Some a → rows db !! id = Some r → 1 ≤ v ≤ claim_version r) ∧
  (∀ id r, rows db !! id = Some r → is_Some (published_at r) ↔
     ∃ v x, results db !! (id, v) = Some x ∧ outcome x = Published) ∧
  (∀ id v1 v2 x1 x2, results db !! (id, v1) = Some x1 → results db !! (id, v2) = Some x2 →
     outcome x1 = Published → outcome x2 = Published → v1 = v2).
Proof.
  intros Hok%reachable_ok. split_and!.
  - apply (results_logged _ _ Hok).
  - intros id v a r Ha Hr. by apply (proj2 (journal_versions _ _ Hok _ _ _ Ha)).
  - intros id r Hr. apply (row_published_logged _ _ _ _ (rows_ok _ _ Hok _ _ Hr)).
  - apply (published_once _ _ Hok).
Qed.

(** The integrity errors are unreachable: in no history does a claim or a
    report fail because the journal lacks or already has a row. *)
Theorem integrity_errors_unreachable db t now why :
  reachable db t → t ≤ now →
  (∀ locked w p batch lease,
     claim_events now locked w p batch lease db ≠ Err (InvalidData why) ∧
     claim_events now locked w p batch lease db ≠ Err (UniqueViolation why)) ∧
  (∀ id w v, mark_published now id w v db ≠ Err (InvalidData why)) ∧
  (∀ f, mark_failed now f db ≠ Err (InvalidData why)).
Proof.
  intros Hok%reachable_ok Ht. split_and!.
  - intros locked w p batch lease.
    pose proof (claim_errors t now locked w p batch lease db Hok) as Hc.
    destruct (claim_events now locked w p batch lease db) as [|[]]; done.
  - intros id w v. unfold mark_published.
    destruct (bounded_text w "worker ID" 200) eqn:Hw; cbn [rbind];
      [|by apply bounded_text_error in Hw as [y ->]]. cbn zeta.
    destruct (held_row now id w v db) as [r|] eqn:Hheld; [|by destruct (record_delivery_result _ _ _ _ _ _ _ _)].
    apply held_row_Some in Hheld as [Hr Hh]. rewrite bool_decide_true by eauto.
    by erewrite (record_held t now db id w v Hok Ht r) by done.
  - intros f. unfold mark_failed. do 2 (match goal with |- context [bounded_text ?a ?b ?c] =>
      destruct (bounded_text a b c) eqn:?; cbn [rbind];
        [|by match goal with H : bounded_text _ _ _ = Err _ |- _ =>
               apply bounded_text_error in H as [y ->] end] end).
    destruct (_ <? _); [done|]. destruct (_ <=? _); [done|]. cbn zeta.
    destruct (held_row now _ _ _ db) as [r|] eqn:Hheld; [|by destruct (record_delivery_result _ _ _ _ _ _ _ _)].
    apply held_row_Some in Hheld as [Hr Hh]. rewrite (bool_decide_true (is_Some (Some r))) by eauto.
    by erewrite (record_held t now db _ _ _ Hok Ht r) by done.
Qed.

(** C29. No event is stuck: from any reachable state, as long as the counters of
    the waiting events have not reached the end of their range, any stored event
    can still be published or discarded, after the ones before it in its key. *)
Theorem no_event_stuck db t id r :
  reachable db t → counters_free db → rows db !! id = Some r →
  ∃ db' t' r', rtc step (db, t) (db', t') ∧ rows db' !! id = Some r' ∧
    envelope r' = envelope r ∧ finished r' = true.
Proof.
  intros Hok%reachable_ok Hfree Hr. destruct (finished r) eqn:Hf; [exists db, t, r; by split; [apply rtc_refl|]|].
  apply finished_spec in Hf. apply (can_finish_from (Z.to_nat (row_sequence r))); try done.
  pose proof (sequences_ok _ _ Hok _ _ Hr). intros s Hs (j & q & Hq & _ & Hqs & _).
  pose proof (sequences_ok _ _ Hok _ _ Hq). lia.
Qed.
End guarantees.

(** ** Witnesses *)

Definition sample_event (key : string) (n : Z) : OutboxEvent unit :=
  MkEvent (lit key) (lit "order") (lit "9") (lit "order:9") n (lit "order.changed") 1 tt.

Definition accept_payload (_ : unit) : bool := true.
Abbreviation sample_step := (delivery_step accept_payload).

(** Two events of one order are written, and a worker claims the first. *)
Definition sample_db1 := state_after (enqueue_event accept_payload 1 (sample_event "e1" 1) empty_db) empty_db.
Definition sample_db2 :=
  state_after (enqueue_event accept_payload 2 (sample_event "e2" 2) sample_db1) empty_db.
Definition sample_claim := claim_events 10 ∅ (lit "a") (lit "bus") 5 30 sample_db2.
Definition sample_db3 := state_after sample_claim empty_db.
Definition sample_claimed : list DeliveryRow :=
  [claim_row 10 30 (lit "a") (fresh_row 1 1 (sample_event "e1" 1))].

Lemma sample_claim_ok : sample_claim = Ok (sample_db3, sample_claimed).
Proof. apply state_after_answer. vm_compute. reflexivity. Qed.

Lemma sample_db2_reachable : reachable accept_payload sample_db2 2.
Proof.
  destruct (state_after_ok (enqueue_event accept_payload 1 (sample_event "e1" 1) empty_db) empty_db)
    as [i1 H1]; [vm_compute; reflexivity|].
  destruct (state_after_ok (enqueue_event accept_payload 2 (sample_event "e2" 2) sample_db1) empty_db)
    as [i2 H2]; [vm_compute; reflexivity|].
  eapply rtc_l; [apply (step_enqueue _ empty_db 0 1 _ sample_db1 i1 ltac:(lia) H1)|].
  apply rtc_once, (step_enqueue _ sample_db1 1 2 _ sample_db2 i2 ltac:(lia) H2).
Qed.

Lemma sample_db3_reachable : reachable accept_payload sample_db3 10.
Proof.
  eapply rtc_r; [exact sample_db2_reachable|].
  apply (step_claim _ sample_db2 2 10 ∅ (lit "a") (lit "bus") 5 30 sample_db3 sample_claimed);
    [lia|exact sample_claim_ok].
Qed.

Lemma streams_in_order_witness :
  reachable accept_payload sample_db3 10 ∧
  ∃ m, 0 ≤ m ≤ 2 ∧ ∀ s, waiting sample_db3 (lit "order:9") s ↔ m < s ≤ 2.
Proof.
  split; [exact sample_db3_reachable|].
  destruct (streams_in_order accept_payload sample_db3 10 (lit "order:9") sample_db3_reachable)
    as (m & Hm & Hw & _).
  assert (E : last_number sample_db3 (lit "order:9") = 2) by (vm_compute; reflexivity).
  rewrite E in Hm, Hw. exists m. exact (conj Hm Hw).
Defined.

(** The second worker gets the event when the lease has run out. *)
Definition sample_later : Z := 10 + seconds 30.
Definition sample_reclaim := claim_events sample_later ∅ (lit "b") (lit "bus") 5 30 sample_db3.
Definition sample_db4 := state_after sample_reclaim empty_db.
Definition sample_reclaimed : list DeliveryRow :=
  [claim_row sample_later 30 (lit "b") (claim_row 10 30 (lit "a") (fresh_row 1 1 (sample_event "e1" 1)))].

Lemma sample_reclaim_ok : sample_reclaim = Ok (sample_db4, sample_reclaimed).
Proof. apply state_after_answer. vm_compute. reflexivity. Qed.

Lemma lease_excludes_others_witness :
  10 + seconds 30 ≤ sample_later ∨
  is_Some (results sample_db3 !! attempt_key (claim_row 10 30 (lit "a")
                                                (fresh_row 1 1 (sample_event "e1" 1)))).
Proof.
  apply (lease_excludes_others accept_payload sample_db2 2 10 ∅ (lit "a") (lit "bus") 5 30 sample_db3
    sample_claimed (claim_row 10 30 (lit "a") (fresh_row 1 1 (sample_event "e1" 1))) sample_db3 10
    sample_later ∅ (lit "b") (lit "bus") 5 30 sample_db4 sample_reclaimed
    (claim_row sample_later 30 (lit "b")
       (claim_row 10 30 (lit "a") (fresh_row 1 1 (sample_event "e1" 1))))).
  - exact sample_db2_reachable.
  - lia.
  - exact sample_claim_ok.
  - apply list_elem_of_singleton. reflexivity.
  - apply rtc_refl.
  - unfold sample_later, seconds. lia.
  - exact sample_reclaim_ok.
  - apply list_elem_of_singleton. reflexivity.
  - reflexivity.
Defined.

(** Worker [a] reports after [b] took over. *)
Definition sample_report := mark_published (sample_later + 5) 1 (lit "a") 1 sample_db4.
Definition sample_db5 := state_after sample_report empty_db.

Lemma sample_report_ok : sample_report = Ok (sample_db5, false).
Proof. apply state_after_answer. vm_compute. reflexivity. Qed.

Lemma stale_worker_refused_witness : sample_report = Ok (sample_db5, false) ∧ rows sample_db5 = rows sample_db4.
Proof.
  split; [exact sample_report_ok|].
  assert (Hin : claim_row sample_later 30 (lit "b")
    (claim_row 10 30 (lit "a") (fresh_row 1 1 (sample_event "e1" 1))) ∈ sample_reclaimed)
    by (apply list_elem_of_singleton; reflexivity).
  assert (Ht : 10 ≤ sample_later) by (unfold sample_later, seconds; lia).
  assert (Hlt : 1 < 2) by lia. assert (Hle : sample_later ≤ sample_later + 5) by lia.
  destruct (proj1 (stale_worker_refused accept_payload sample_db3 10 sample_later ∅ (lit "b") (lit "bus")
    5 30 sample_db4 sample_reclaimed _ sample_db4 sample_later (sample_later + 5) 1 1 sample_db5
    sample_db3_reachable Ht sample_reclaim_ok Hin eq_refl Hlt (rtc_refl _ _) Hle)
    (lit "a") false sample_report_ok) as [_ Hrows].
  exact Hrows.
Defined.

Lemma journal_accounts_witness :
  reachable accept_payload sample_db3 10 ∧
  (∀ v a, journal sample_db3 !! (1, v) = Some a → 1 ≤ v ≤ 1).
Proof.
  split; [exact sample_db3_reachable|]. intros v a Ha.
  destruct (journal_accounts accept_payload sample_db3 10 sample_db3_reachable) as (_ & Hv & _).
  apply (Hv 1 v a (claim_row 10 30 (lit "a") (fresh_row 1 1 (sample_event "e1" 1))) Ha).
  vm_compute. reflexivity.
Defined.

Lemma integrity_errors_unreachable_witness :
  reachable accept_payload sample_db3 10 ∧
  mark_published 11 1 (lit "a") 1 sample_db3 ≠ Err (InvalidData "x").
Proof.
  split; [exact sample_db3_reachable|].
  apply (proj1 (proj2 (integrity_errors_unreachable accept_payload sample_db3 10 11 "x"
    sample_db3_reachable ltac:(lia)))).
Defined.

Lemma sample_counters_free : counters_free sample_db2.
Proof.
  intros j p Hp _. assert (Hall : forallb (fun q => (claim_version q.2 <? i64_max) && (attempts q.2 <? i32_max))
    (map_to_list (rows sample_db2)) = true) by (vm_compute; reflexivity).
  rewrite forallb_forall in Hall. specialize (Hall (j, p)).
  rewrite <-list_elem_of_In, elem_of_map_to_list in Hall. specialize (Hall Hp).
  cbn in Hall. bool_to_prop. done.
Qed.

Lemma no_event_stuck_witness :
  ∃ db' t' r', rtc sample_step (sample_db2, 2) (db', t') ∧ rows db' !! 2 = Some r' ∧
    envelope r' = sample_event "e2" 2 ∧ finished r' = true.
Proof.
  apply (no_event_stuck accept_payload sample_db2 2 2 (fresh_row 2 2 (sample_event "e2" 2))
    sample_db2_reachable sample_counters_free).
  vm_compute. reflexivity.
Defined.
