(* ===== verification/Worker.v ===== *)
(** * The outbox worker ([crates/worker/src/runner.rs], [store.rs] and
      [publisher.rs], with the PostgreSQL store of [apps/worker/src/store.rs])

    One pass of the worker: it claims a batch through the [OutboxStore] trait,
    publishes every event in a task of its own and reports each outcome; the
    tasks finish in any order. [OutboxStore] is a class, whose instance is the
    store over the tables of [Delivery]. A [Duration] is its number of
    nanoseconds; the publisher is other code, and its answer to each event an
    argument. *)

From S2P Require Import Prelude.
From S2P Require Import RustStr.
From S2P Require Import Outbox.
From S2P Require Import Delivery.
From S2P Require Import DeliveryFacts.
From S2P Require Import DeliveryGuarantees.

Definition Duration : Type := Z.
Definition nanos_per_second : Z := 1000000000.

(** ** Configuration *)

Record WorkerConfig := MkConfig {
  batch_size : Z;
  max_in_flight : Z;
  tenant_page_size : Z;
  lease : Duration;
  publish_timeout : Duration;
  retry_delay : Duration;
  retry_delay_cap : Duration;
  max_attempts : Z;
}.

Definition WorkerConfig_validate (self : WorkerConfig) : result unit string :=
  if negb ((1 <=? batch_size self) && (batch_size self <=? 1000))
  then Err "worker batch size must be between 1 and 1000"
  else if negb ((1 <=? max_in_flight self) && (max_in_flight self <=? 1000))
  then Err "maximum in-flight deliveries must be between 1 and 1000"
  else if negb ((1 <=? tenant_page_size self) && (tenant_page_size self <=? 10000))
  then Err "tenant page size must be between 1 and 10000"
  else if lease self =? 0 then Err "worker lease must be positive"
  else if publish_timeout self =? 0 then Err "publisher timeout must be positive"
  else if lease self <=? publish_timeout self
  then Err "publisher timeout must be shorter than the claim lease"
  else if retry_delay_cap self <? retry_delay self
  then Err "retry delay cap must not be shorter than the base retry delay"
  else if max_attempts self <=? 0 then Err "maximum delivery attempts must be positive"
  else Ok tt.

(** [Worker::new]: [worker_id.len()] counts bytes. *)
Definition Worker_new (worker_id : rstr) (config : WorkerConfig) : result unit string :=
  let? _ := WorkerConfig_validate config in
  if bool_decide (trim worker_id = []) || (200 <? str_len worker_id)
  then Err "worker ID must contain between 1 and 200 characters" else Ok tt.

(** ** Summaries *)

Record RunSummary := MkSummary {
  claimed : Z;
  published : Z;
  retryable_failures : Z;
  permanent_failures : Z;
  lost_claims : Z;
}.

Definition RunSummary_default : RunSummary := MkSummary 0 0 0 0 0.

Inductive EventOutcome := OPublished | ORetryableFailure | OPermanentFailure | OLostClaim.

Definition RunSummary_record (self : RunSummary) (outcome_ : EventOutcome) : RunSummary :=
  match outcome_ with
  | OPublished => MkSummary (claimed self) (published self + 1) (retryable_failures self)
                    (permanent_failures self) (lost_claims self)
  | ORetryableFailure => MkSummary (claimed self) (published self) (retryable_failures self + 1)
                           (permanent_failures self) (lost_claims self)
  | OPermanentFailure => MkSummary (claimed self) (published self) (retryable_failures self)
                           (permanent_failures self + 1) (lost_claims self)
  | OLostClaim => MkSummary (claimed self) (published self) (retryable_failures self)
                    (permanent_failures self) (lost_claims self + 1)
  end.

(** ** Publishing *)

Record PublishError := MkPublishError {
  error_class : DeliveryFailureClass;
  error_code : rstr;
  error_message : rstr;
  error_retry_after : option Duration;
}.

(** [tokio::spawn(timeout(.., publisher.publish(..))).await]. *)
Inductive PublishAnswer :=
| PublishSucceeded
| PublishFailed (failure : PublishError)
| PublishTimedOut
| PublishPanicked
| PublishCancelled.

Definition retry_after (config : WorkerConfig) (failure : PublishError) : Duration :=
  Z.min (Z.max (default (retry_delay config) (error_retry_after failure)) (retry_delay config))
    (retry_delay_cap config).

Definition MAX_PERSISTED_ERROR_CHARS : nat := 1000.

(** [format!("{code}: {message}").chars().take(..)]. *)
Definition bounded_diagnostic (code message : rstr) : rstr :=
  take MAX_PERSISTED_ERROR_CHARS (code ++ lit ": " ++ message).

(** ** The store *)

(** [trait OutboxStore], with the state it acts on and the time of the call. *)
Class OutboxStore (S Event : Type) := {
  store_tenants : S → option Z → Z → result (list Z) PersistenceError;
  store_claim : Z → rstr → rstr → Z → Duration → S → result (S * list Event) PersistenceError;
  store_published : Z → Event → rstr → S → result (S * bool) PersistenceError;
  store_failed : Z → Event → rstr → rstr → DeliveryFailureClass → Duration → Z → S →
                 result (S * bool) PersistenceError;
  event_attempts : Event → Z;
}.

Section runner.
Context {S Event : Type} `{OutboxStore S Event}.
Implicit Types (store : S) (event : Event) (config : WorkerConfig).

Definition record_runtime_failure (now : Z) (store : S) (event : Event) (worker_id : rstr)
    (config : WorkerConfig) (code message : rstr) : result (S * EventOutcome) PersistenceError :=
  let? (store, held) := store_failed now event worker_id (bounded_diagnostic code message)
                          Retryable (retry_delay config) (max_attempts config) store in
  Ok (store, if held : bool then ORetryableFailure else OLostClaim).

(** The end of one task: the report of the publisher's answer. *)
Definition process_event (now : Z) (store : S) (worker_id : rstr) (config : WorkerConfig)
    (event : Event) (answer : PublishAnswer) : result (S * EventOutcome) PersistenceError :=
  match answer with
  | PublishSucceeded =>
      let? (store, held) := store_published now event worker_id store in
      Ok (store, if held : bool then OPublished else OLostClaim)
  | PublishFailed failure =>
      let attempts_ := match error_class failure with
                       | Retryable => max_attempts config
                       | Permanent => Z.max (event_attempts event) 1
                       end in
      let diagnostic := bounded_diagnostic (error_code failure) (error_message failure) in
      let? (store, held) := store_failed now event worker_id diagnostic (error_class failure)
                              (retry_after config failure) attempts_ store in
      if held : bool then
        Ok (store, match error_class failure with
                   | Retryable => ORetryableFailure
                   | Permanent => OPermanentFailure
                   end)
      else Ok (store, OLostClaim)
  | PublishTimedOut =>
      record_runtime_failure now store event worker_id config (lit "publisher_timeout")
        (lit "publisher exceeded its configured timeout")
  | PublishPanicked =>
      record_runtime_failure now store event worker_id config (lit "publisher_task_failed")
        (lit "publisher panicked")
  | PublishCancelled =>
      record_runtime_failure now store event worker_id config (lit "publisher_task_failed")
        (lit "publisher task was cancelled")
  end.

(** A finished task: when it reported, for which event, on which answer. *)
Record Task := MkTask { task_time : Z; task_event : Event; task_answer : PublishAnswer }.

(** [drain_tasks]: every task is joined; a store error is kept if it is the first
    one and does not stop the others. *)
Fixpoint drain_tasks (worker_id : rstr) (config : WorkerConfig) (tasks : list Task) (store : S)
    (summary : RunSummary) (first_error : option PersistenceError) :
    S * RunSummary * option PersistenceError :=
  match tasks with
  | [] => (store, summary, first_error)
  | task :: rest =>
      match process_event (task_time task) store worker_id config (task_event task)
              (task_answer task) with
      | Ok (store, outcome_) =>
          drain_tasks worker_id config rest store (RunSummary_record summary outcome_) first_error
      | Err e =>
          drain_tasks worker_id config rest store summary
            (match first_error with None => Some e | Some _ => first_error end)
      end
  end.

(** [reserve_claim_slots]: one permit is waited for, the others are taken while
    there are any. [available] is the number of free permits, at least one. *)
Definition reserve_claim_slots (config : WorkerConfig) (available : Z) : Z :=
  Z.min (Z.min (batch_size config) (max_in_flight config)) available.

Inductive RunError := StoreFailed (e : PersistenceError) | TooManyEvents.

(** [claim_and_spawn]: the store after the claim and the events that get a task. *)
Definition claim_and_spawn (now : Z) (store : S) (worker_id publisher_name : rstr)
    (config : WorkerConfig) (available : Z) : result (S * list Event) RunError :=
  let claim_limit := reserve_claim_slots config available in
  let? (store, events) := map_err StoreFailed
    (store_claim now worker_id publisher_name claim_limit (lease config) store) in
  if claim_limit <? Z.of_nat (length events) then Err TooManyEvents else Ok (store, events).

(** [run_once]. [finish] says in which order and how the tasks of the claimed
    events end. The answer carries the summary; the store is changed even when a
    report failed. *)
Definition run_once (now : Z) (worker_id publisher_name : rstr) (config : WorkerConfig)
    (available : Z) (finish : list Event → list Task) (store : S) :
    result (S * result RunSummary PersistenceError) RunError :=
  let? (store, events) := claim_and_spawn now store worker_id publisher_name config available in
  let summary := MkSummary (Z.of_nat (length events)) 0 0 0 0 in
  let '(store, summary, first_error) :=
    drain_tasks worker_id config (finish events) store summary None in
  Ok (store, match first_error with Some e => Err e | None => Ok summary end).
End runner.

Arguments Task : clear implicits.
Arguments MkTask {Event}.
Arguments task_time {Event}.
Arguments task_event {Event}.
Arguments task_answer {Event}.

(** ** Discovery of tenants *)

Inductive DiscoveryError := NotIncreasing | DiscoveryStore (e : PersistenceError).

Fixpoint validate_tenant_ids (previous_id : Z) (tenant_ids : list Z) : result unit DiscoveryError :=
  match tenant_ids with
  | [] => Ok tt
  | tenant_id :: rest =>
      if tenant_id <=? previous_id then Err NotIncreasing else validate_tenant_ids tenant_id rest
  end.

Definition validate_tenant_page (after : option Z) (tenant_ids : list Z) :
    result unit DiscoveryError :=
  validate_tenant_ids (default 0 after) tenant_ids.

(** The loop of [run_discovered_cycle]: the tenants it runs, in order, and the
    error that ended it. [fuel] bounds the number of pages. *)
Fixpoint discovered_tenants (fetch : option Z → result (list Z) PersistenceError)
    (tenant_page_size_ : Z) (fuel : nat) (after : option Z) : list Z * option DiscoveryError :=
  match fuel with
  | O => ([], None)
  | S fuel =>
      match fetch after with
      | Err e => ([], Some (DiscoveryStore e))
      | Ok tenant_ids =>
          if bool_decide (tenant_ids = []) then ([], None)
          else
            match validate_tenant_page after tenant_ids with
            | Err e => ([], Some e)
            | Ok _ =>
                if Z.of_nat (length tenant_ids) <? tenant_page_size_ then (tenant_ids, None)
                else
                  let '(rest, e) := discovered_tenants fetch tenant_page_size_ fuel
                                      (last tenant_ids) in
                  (tenant_ids ++ rest, e)
            end
      end
  end.

(** ** [PostgresOutboxStore] *)

Definition duration_seconds (duration : Duration) (label : string) : result Z PersistenceError :=
  let secs := duration / nanos_per_second in
  let nanos := duration mod nanos_per_second in
  let seconds_ := secs + (if nanos =? 0 then 0 else 1) in
  if u64_max <? seconds_ then Err (InvalidInput label)
  else if i64_max <? seconds_ then Err (InvalidInput label) else Ok seconds_.

Section postgres.
Context {Payload : Type}.
Abbreviation Row := (DeliveryRow (Payload := Payload)).

(** The tables of one tenant, and the tenants ([id], not deleted). *)
Record PostgresStore := MkPostgres {
  tables : DeliveryDb (Payload := Payload);
  tenants : list Z;
}.

Definition with_tables (store : PostgresStore) (db : DeliveryDb) : PostgresStore :=
  MkPostgres db (tenants store).

(** [SELECT id FROM tenants WHERE .. AND id > $1 ORDER BY id LIMIT $2]. *)
Definition delivery_tenants (store : PostgresStore) (after : option Z) (limit : Z) :
    result (list Z) PersistenceError :=
  if negb ((1 <=? limit) && (limit <=? 10000))
  then Err (InvalidInput "tenant page limit must be between 1 and 10000")
  else
    let rows := take (Z.to_nat limit)
      (sort_by Z.compare (List.filter (fun id => default 0 after <? id) (tenants store))) in
    rmapM (fun id => if 0 <? id then Ok id
                     else Err (InvalidData "database returned an invalid tenant ID")) rows.

#[export] Instance PostgresOutboxStore : OutboxStore PostgresStore Row := {|
  store_tenants := delivery_tenants;
  store_claim := fun now worker_id publisher_name limit lease_ store =>
    let? lease_seconds := duration_seconds lease_ "outbox lease" in
    let? (db, events) := claim_events now ∅ worker_id publisher_name limit lease_seconds
                           (tables store) in
    Ok (with_tables store db, events);
  store_published := fun now event worker_id store =>
    let? (db, held) := mark_published now (row_id event) worker_id (claim_version event)
                         (tables store) in
    Ok (with_tables store db, held);
  store_failed := fun now event worker_id error_ class_ retry max_attempts_ store =>
    let? retry_after_seconds_ := duration_seconds retry "outbox retry delay" in
    let? (db, held) := mark_failed now
      (MkFailure (row_id event) worker_id (claim_version event) class_ error_
         retry_after_seconds_ max_attempts_) (tables store) in
    Ok (with_tables store db, held);
  event_attempts := attempts;
|}.
End postgres.

(** ** Accounting of a pass *)

Definition total (s : RunSummary) : Z :=
  published s + retryable_failures s + permanent_failures s + lost_claims s.

Definition counts_nonneg (s : RunSummary) : Prop :=
  0 ≤ published s ∧ 0 ≤ retryable_failures s ∧ 0 ≤ permanent_failures s ∧ 0 ≤ lost_claims s.

Lemma record_total s o :
  total (RunSummary_record s o) = total s + 1 ∧ claimed (RunSummary_record s o) = claimed s ∧
  (counts_nonneg s → counts_nonneg (RunSummary_record s o)).
Proof. unfold total, counts_nonneg. destruct o; cbn; lia. Qed.

Section accounting.
Context {S Event : Type} `{OutboxStore S Event}.

Lemma drain_counts w config tasks (store store' : S) s s' e e' :
  drain_tasks w config tasks store s e = (store', s', e') →
  (e' = None → e = None) ∧ claimed s' = claimed s ∧ (counts_nonneg s → counts_nonneg s') ∧
  (e' = None → total s' = total s + Z.of_nat (length tasks)).
Proof.
  revert store s e. induction tasks as [|task rest IH]; intros store s e Hd; cbn in Hd.
  - simplify_eq. split_and!; try done. cbn. lia.
  - destruct (process_event _ _ _ _ _ _) as [[store1 o]|x].
    + destruct (record_total s o) as (Ht & Hc & Hn).
      destruct (IH _ _ _ Hd) as (He & Hc' & Hn' & Ht'). split_and!; [done|lia|tauto|].
      intros E. rewrite (Ht' E), Ht. cbn [length]. lia.
    + destruct (IH _ _ _ Hd) as (He & Hc' & Hn' & Ht'). split_and!; try done.
      * intros E. specialize (He E). by destruct e.
      * intros E. specialize (He E). by destruct e.
Qed.

(** A pass accounts for every claim: when it returns a summary, the events it
    claimed, never more than the configured batch and in-flight limits, are
    exactly the published, the failed and the lost ones together, in whatever
    order the tasks ended. *)
Theorem run_once_accounts now w p config available finish (store store' : S) s :
  (∀ events, task_event <$> finish events ≡ₚ events) →
  run_once now w p config available finish store = Ok (store', Ok s) →
  claimed s = published s + retryable_failures s + permanent_failures s + lost_claims s ∧
  counts_nonneg s ∧ claimed s ≤ batch_size config ∧ claimed s ≤ max_in_flight config ∧
  claimed s ≤ available.
Proof.
  intros Hfin Hrun. unfold run_once in Hrun. apply rbind_ok in Hrun as ([store1 events] & Hclaim & Hrun).
  destruct (drain_tasks _ _ _ _ _ _) as [[store2 s2] e2] eqn:Hd.
  destruct e2; simplify_eq. apply drain_counts in Hd as (_ & Hc & Hn & Ht).
  unfold claim_and_spawn in Hclaim. apply rbind_ok in Hclaim as ([store3 events3] & _ & Hclaim).
  destruct (_ <? _) eqn:Hlim in Hclaim; simplify_eq. bool_to_prop. unfold reserve_claim_slots in Hlim.
  specialize (Ht eq_refl). specialize (Hfin events).
  apply Permutation_length in Hfin. rewrite length_fmap in Hfin. unfold total in Ht. cbn in *.
  split_and!; try (apply Hn; cbn; unfold counts_nonneg; cbn); lia.
Qed.
End accounting.

(** ** Discovery *)

Section discovery.
Context (page : Z) (Hpage : 1 ≤ page).

Definition above (after : Z) (l : list Z) : list Z := List.filter (fun id => after <? id) l.

Lemma above_all after l : Forall (fun id => after < id) l → above after l = l.
Proof.
  induction 1 as [|x l Hx _ IH]; cbn; [done|]. unfold above in *.
  by rewrite (proj2 (Z.ltb_lt _ _) Hx), IH.
Qed.

Lemma above_none after l : Forall (fun id => id ≤ after) l → above after l = [].
Proof.
  induction 1 as [|x l Hx _ IH]; cbn; [done|]. by rewrite (proj2 (Z.ltb_ge _ _) Hx).
Qed.

Lemma validate_increasing after l :
  StronglySorted Z.lt l → Forall (fun id => after < id) l → validate_tenant_ids after l = Ok tt.
Proof.
  intros Hs. revert after. induction Hs as [|x l _ IH Hx]; intros after Ha; cbn; [done|].
  apply Forall_cons in Ha as [Ha _]. rewrite (proj2 (Z.leb_gt _ _) Ha). by apply IH.
Qed.

Lemma StronglySorted_app_lt l1 l2 x :
  StronglySorted Z.lt (l1 ++ l2) → last l1 = Some x → Forall (fun id => id ≤ x) l1 ∧ Forall (fun id => x < id) l2.
Proof.
  destruct (list_nil_or_snoc l1) as [->|(l & y & ->)]; [done|]. rewrite last_snoc.
  intros Hs [= ->]. induction l as [|z l IH]; cbn in Hs.
  - apply StronglySorted_inv in Hs as [_ Hs]. split; [|done]. by constructor.
  - apply StronglySorted_inv in Hs as [Hs Hz]. destruct (IH Hs) as [H1 H2]. split; [|done].
    constructor; [|done]. rewrite Forall_forall in Hz.
    assert (z < x) by (apply Hz; set_solver). lia.
Qed.

(** The pages of a sorted table cover what is above the cursor. *)
Lemma discovered_pages (l : list Z) (fuel : nat) (after : option Z) :
  StronglySorted Z.lt l →
  (length (above (default 0%Z after) l) < fuel)%nat →
  discovered_tenants
    (fun after : option Z => Ok (take (Z.to_nat page) (above (default 0%Z after) l)))
    page fuel after = (above (default 0%Z after) l, None).
Proof.
  intros Hl. revert after. induction fuel as [|fuel IH]; intros after Hf; [lia|].
  assert (Hsub : ∀ a, StronglySorted Z.lt (above a l)).
  { intros a. unfold above. clear -Hl. induction Hl as [|x l Hl IH Hx]; cbn; [constructor|].
    destruct (a <? x); [|done]. constructor; [done|]. apply Forall_forall. intros y Hy.
    apply elem_of_filter_bool in Hy as [Hy _]. rewrite Forall_forall in Hx. by apply Hx. }
  cbn [discovered_tenants]. set (q := above (default 0 after) l) in *.
  assert (Hq : Forall (fun id => default 0 after < id) q).
  { apply Forall_forall. intros y Hy. apply elem_of_filter_bool in Hy as [_ Hy]. lia. }
  case_bool_decide as He.
  - destruct q as [|y q]; [done|]. destruct (Z.to_nat page) eqn:E; [lia|done].
  - unfold validate_tenant_page. rewrite validate_increasing; cycle 1.
    { specialize (Hsub (default 0 after)). fold q in Hsub. rewrite <-(take_drop (Z.to_nat page) q) in Hsub.
      clear -Hsub. induction (take _ q) as [|z k IH]; [constructor|].
      cbn in Hsub. apply StronglySorted_inv in Hsub as [Hs Hz]. constructor; [by apply IH|].
      by apply Forall_app in Hz as [? _]. }
    { rewrite Forall_forall in Hq |- *. intros y Hy. apply Hq. eapply elem_of_sublist; [done|apply sublist_take]. }
    destruct (Z.of_nat (length (take (Z.to_nat page) q)) <? page) eqn:Hlen; bool_to_prop.
    + rewrite length_take in Hlen. by rewrite take_ge by lia.
    + rewrite length_take in Hlen. assert (Hfull : (Z.to_nat page ≤ length q)%nat) by lia.
      destruct (list_nil_or_snoc (take (Z.to_nat page) q)) as [E|(k & y & E)]; [done|].
      assert (Habove : above y l = drop (Z.to_nat page) q).
      { destruct (StronglySorted_app_lt (take (Z.to_nat page) q) (drop (Z.to_nat page) q) y) as [H1 H2].
        - rewrite take_drop. apply Hsub.
        - by rewrite E, last_snoc.
        - transitivity (above y q).
          + assert (default 0 after < y). { rewrite Forall_forall in Hq. apply Hq.
              eapply elem_of_sublist; [|apply (sublist_take q (Z.to_nat page))]. rewrite E. set_solver. }
            unfold q, above. clear -H. induction l as [|z l IH]; cbn; [done|].
            destruct (default 0 after <? z) eqn:Ez; cbn; [by rewrite IH|].
            bool_to_prop. by rewrite (proj2 (Z.ltb_ge y z)) by lia.
          + rewrite <-(take_drop (Z.to_nat page) q) at 1. unfold above. rewrite List.filter_app.
            fold (above y (take (Z.to_nat page) q)) (above y (drop (Z.to_nat page) q)).
            by rewrite above_none, above_all. }
      assert (El : last (take (Z.to_nat page) q) = Some y) by by rewrite E, last_snoc.
      rewrite El, (IH (Some y)); cbn [default from_option]; unfold id.
      * by rewrite Habove, take_drop.
      * rewrite Habove, length_drop. lia.
Qed.
End discovery.

Lemma discovered_tenants_ext f g page fuel after :
  (∀ a, f a = g a) → discovered_tenants f page fuel after = discovered_tenants g page fuel after.
Proof.
  intros E. revert after. induction fuel as [|fuel IH]; intros after; cbn; [done|]. rewrite E.
  destruct (g after); [|done]. case_bool_decide; [done|].
  destruct (validate_tenant_page after a); [|done]. destruct (_ <? page); [done|]. by rewrite IH.
Qed.

Lemma sort_Z_increasing l : NoDup l → StronglySorted Z.lt (sort_by Z.compare l).
Proof.
  intros Hd. assert (Hn : NoDup (sort_by Z.compare l)) by by rewrite sort_by_perm.
  pose proof (sort_by_sorted Z.compare l) as Hs. induction Hs as [|x k _ IH Hx]; [constructor|].
  apply NoDup_cons in Hn as [Hnin Hn]. constructor; [by apply IH|].
  rewrite Forall_forall in Hx |- *. intros y Hy. specialize (Hx y Hy).
  assert (x ≤ y) by by apply Z.compare_le_iff. assert (x ≠ y) by by intros ->. lia.
Qed.

Lemma above_sort after l : sort_by Z.compare (above after l) = above after (sort_by Z.compare l).
Proof.
  apply (sorted_perm_unique Z.compare).
  - intros x y _ _. exact (Z.compare_eq x y).
  - apply sort_by_sorted; apply _.
  - unfold above. pose proof (sort_by_sorted Z.compare l) as Hs.
    induction Hs as [|x k _ IH Hx]; cbn; [constructor|]. destruct (after <? x); [|done].
    constructor; [done|]. rewrite Forall_forall in Hx |- *. intros y [Hy _]%elem_of_filter_bool. auto.
  - rewrite sort_by_perm. unfold above. by rewrite sort_by_perm.
Qed.

Section postgres_discovery.
Context {Payload : Type}.

Lemma delivery_tenants_page (store : PostgresStore (Payload := Payload)) after page :
  Forall (fun id => 0 < id) (tenants store) → 1 ≤ page ≤ 10000 →
  delivery_tenants store after page =
    Ok (take (Z.to_nat page) (above (default 0 after) (sort_by Z.compare (tenants store)))).
Proof.
  intros Hpos Hpage. unfold delivery_tenants.
  rewrite (proj2 (Z.leb_le 1 page)), (proj2 (Z.leb_le page 10000)) by lia. cbn [andb negb].
  fold (above (default 0 after) (tenants store)). rewrite above_sort. set (ids := take _ _).
  assert (Hids : Forall (fun id => 0 < id) ids).
  { apply Forall_take. unfold above. apply Forall_forall.
    intros x [Hx _]%elem_of_filter_bool. rewrite sort_by_perm in Hx. by eapply Forall_forall in Hpos. }
  apply rmapM_ok. induction Hids as [|x k Hx _ IH]; constructor; [|done].
  by rewrite (proj2 (Z.ltb_lt _ _) Hx).
Qed.

(** Discovery is complete: over the tenants of the database a cycle runs every
    tenant once, in the order of their ids, whatever the page size, and its loop
    ends; the check that the pages increase never trips. *)
Theorem discovery_visits_every_tenant (store : PostgresStore (Payload := Payload)) page fuel :
  NoDup (tenants store) → Forall (fun id => 0 < id) (tenants store) → 1 ≤ page ≤ 10000 →
  (length (tenants store) < fuel)%nat →
  discovered_tenants (fun after => store_tenants store after page) page fuel None =
    (sort_by Z.compare (tenants store), None).
Proof.
  intros Hd Hpos Hpage Hfuel. cbn [store_tenants PostgresOutboxStore].
  rewrite (discovered_tenants_ext _ _ _ _ _ (fun a => delivery_tenants_page store a page Hpos Hpage)).
  assert (Hall : above 0 (sort_by Z.compare (tenants store)) = sort_by Z.compare (tenants store)).
  { apply above_all. by rewrite sort_by_perm. }
  rewrite discovered_pages; cbn [default from_option]; unfold id; rewrite ?Hall; [done|lia| |].
  - by apply sort_Z_increasing.
  - by rewrite (Permutation_length (sort_by_perm Z.compare (tenants store))).
Qed.
End postgres_discovery.
