(* ===== verification/WorkerGuarantees.v ===== *)
(** * What the outbox worker guarantees

    The worker over the tables of [Delivery]: a pass whose publisher answers in
    time loses no claim. The file also holds the witnesses of the worker's
    theorems. *)

From S2P Require Import Prelude.
From S2P Require Import RustStr.
From S2P Require Import Outbox.
From S2P Require Import Delivery.
From S2P Require Import DeliveryFacts.
From S2P Require Import DeliveryGuarantees.
From S2P Require Import Worker.

Lemma duration_seconds_ok d label :
  0 ≤ d ≤ i64_max * nanos_per_second →
  ∃ s, duration_seconds d label = Ok s ∧ d ≤ s * nanos_per_second < d + nanos_per_second.
Proof.
  intros Hd. unfold duration_seconds, nanos_per_second, u64_max, i64_max in *. cbn zeta.
  pose proof (Z.div_mod d 1000000000 ltac:(lia)). pose proof (Z.mod_pos_bound d 1000000000 ltac:(lia)).
  destruct (d mod 1000000000 =? 0) eqn:E; bool_to_prop; rewrite !(proj2 (Z.ltb_ge _ _)) by lia;
    eexists; (split; [reflexivity|lia]).
Qed.

Lemma chars_count_le_len s : chars_count s ≤ str_len s.
Proof.
  unfold chars_count, str_len, as_bytes. induction s as [|c s IH]; cbn; [done|].
  rewrite length_app. assert (1 ≤ length (utf8_char c))%nat; [|lia].
  unfold utf8_char. repeat case_match; cbn; lia.
Qed.

Lemma bounded_text_ok value label n :
  trim value ≠ [] → chars_count value ≤ n → bounded_text value label n = Ok tt.
Proof.
  intros Hv Hn. unfold bounded_text, required_text. rewrite bool_decide_false by done. cbn [rbind].
  by rewrite (proj2 (Z.ltb_ge _ _)).
Qed.

(** Whatever the publisher says, the diagnostic is accepted: it is short and holds
    the colon after the code. *)
Lemma diagnostic_ok code message :
  (length code < MAX_PERSISTED_ERROR_CHARS)%nat →
  bounded_text (bounded_diagnostic code message) "delivery error" 4000 = Ok tt.
Proof.
  intros Hc. apply bounded_text_ok.
  - apply (trim_visible_char _ 58); [|done]. unfold bounded_diagnostic.
    apply list_elem_of_lookup. exists (length code). rewrite lookup_take_lt by done.
    by rewrite lookup_app_r, Nat.sub_diag.
  - unfold chars_count, bounded_diagnostic. rewrite length_take.
    unfold MAX_PERSISTED_ERROR_CHARS in *. lia.
Qed.

Definition expected_outcome (answer : PublishAnswer) : EventOutcome :=
  match answer with
  | PublishSucceeded => OPublished
  | PublishFailed failure =>
      match error_class failure with Retryable => ORetryableFailure | Permanent => OPermanentFailure end
  | PublishTimedOut | PublishPanicked | PublishCancelled => ORetryableFailure
  end.

(** Error codes are literals of the publishers. *)
Definition code_ok (answer : PublishAnswer) : Prop :=
  match answer with
  | PublishFailed failure => (length (error_code failure) < MAX_PERSISTED_ERROR_CHARS)%nat
  | _ => True
  end.

(** The durations of a configuration fit the database's seconds. *)
Record durations_ok (config : WorkerConfig) : Prop := {
  lease_fits : 0 < lease config ≤ i64_max * nanos_per_second;
  delay_nonneg : 0 ≤ retry_delay config;
  cap_fits : retry_delay_cap config ≤ i64_max * nanos_per_second;
}.

Lemma Worker_new_ok w config :
  Worker_new w config = Ok tt →
  bounded_text w "worker ID" 200 = Ok tt ∧ 1 ≤ batch_size config ≤ 1000 ∧
  1 ≤ max_in_flight config ∧ retry_delay config ≤ retry_delay_cap config ∧ 0 < max_attempts config.
Proof.
  unfold Worker_new, WorkerConfig_validate. intros H. run H.
  split; [|lia]. apply bounded_text_ok; [done|]. pose proof (chars_count_le_len w). lia.
Qed.

Section timely.
Context {Payload : Type} (is_object : Payload → bool).
Abbreviation Row := (DeliveryRow (Payload := Payload)).
Abbreviation Store := (PostgresStore (Payload := Payload)).
Context (w : rstr) (config : WorkerConfig).
Context (Hnew : Worker_new w config = Ok tt) (Hdur : durations_ok config).

Lemma store_failed_held t now (store : Store) (e : Row) diagnostic class_ retry attempts_ :
  delivery_ok t (tables store) → t ≤ now → rows (tables store) !! row_id e = Some e →
  holds_lease now w (claim_version e) e = true →
  bounded_text diagnostic "delivery error" 4000 = Ok tt →
  0 ≤ retry ≤ i64_max * nanos_per_second → 0 < attempts_ →
  ∃ db r, store_failed now e w diagnostic class_ retry attempts_ store = Ok (with_tables store db, true) ∧
    delivery_ok now db ∧ rows db = <[row_id e := r]> (rows (tables store)).
Proof.
  intros Hok Ht He Hh Hd Hr Ha. destruct (Worker_new_ok _ _ Hnew) as (Hw & _).
  destruct (duration_seconds_ok retry "outbox retry delay" Hr) as (s & Hs & Hb).
  cbn [store_failed PostgresOutboxStore]. rewrite Hs. cbn [rbind].
  destruct (mark_failed now _ _) as [[db b]|x] eqn:Hm.
  - cbn [rbind]. pose proof (mark_failed_inv _ _ _ _ _ _ Hok Ht Hm) as (Hok' & _ & Hb'). destruct b.
    + destruct Hb' as (r & _ & _ & Hrows & _). eauto.
    + destruct Hb' as [_ Hno]. cbn in Hno. by rewrite (Hno e He) in Hh.
  - exfalso. unfold mark_failed in Hm. cbn [failed_worker_id failure_error failure_retry_after_seconds
      failure_max_attempts failed_event_id failed_claim_version] in Hm.
    rewrite Hw, Hd in Hm. cbn [rbind] in Hm.
    rewrite (proj2 (Z.ltb_ge s 0)), (proj2 (Z.leb_gt attempts_ 0)) in Hm
      by (unfold nanos_per_second in *; lia).
    cbn zeta in Hm. rewrite (proj2 (held_row_Some now (tables store) (row_id e) w (claim_version e) e)) in Hm by done.
    rewrite (bool_decide_true (is_Some (Some e))) in Hm by eauto.
    erewrite (record_held t now (tables store) _ _ _ Hok Ht e) in Hm by done. discriminate Hm.
Qed.

Lemma store_published_held t now (store : Store) (e : Row) :
  delivery_ok t (tables store) → t ≤ now → rows (tables store) !! row_id e = Some e →
  holds_lease now w (claim_version e) e = true →
  ∃ db r, store_published now e w store = Ok (with_tables store db, true) ∧
    delivery_ok now db ∧ rows db = <[row_id e := r]> (rows (tables store)) ∧ is_Some (published_at r).
Proof.
  intros Hok Ht He Hh. destruct (Worker_new_ok _ _ Hnew) as (Hw & _).
  cbn [store_published PostgresOutboxStore].
  destruct (mark_published now _ _ _ _) as [[db b]|x] eqn:Hm.
  - cbn [rbind]. pose proof (mark_published_inv _ _ _ _ _ _ _ _ Hok Ht Hm) as (Hok' & _ & Hb'). destruct b.
    + destruct Hb' as (r & _ & _ & Hrows & _). exists db, (published_row now r). by eauto.
    + destruct Hb' as [_ Hno]. by rewrite (Hno e He) in Hh.
  - exfalso. unfold mark_published in Hm. rewrite Hw in Hm. cbn [rbind] in Hm. cbn zeta in Hm.
    rewrite (proj2 (held_row_Some now (tables store) (row_id e) w (claim_version e) e)) in Hm by done.
    rewrite (bool_decide_true (is_Some (Some e))) in Hm by eauto.
    erewrite (record_held t now (tables store) _ _ _ Hok Ht e) in Hm by done. discriminate Hm.
Qed.

Lemma process_held t now (store : Store) (e : Row) answer :
  delivery_ok t (tables store) → t ≤ now → rows (tables store) !! row_id e = Some e →
  holds_lease now w (claim_version e) e = true → code_ok answer →
  ∃ db r, process_event now store w config e answer =
            Ok (with_tables store db, expected_outcome answer) ∧
    delivery_ok now db ∧ rows db = <[row_id e := r]> (rows (tables store)) ∧
    (answer = PublishSucceeded → is_Some (published_at r)).
Proof.
  intros Hok Ht He Hh Hcode. destruct (Worker_new_ok _ _ Hnew) as (_ & _ & _ & Hcap & Hmax).
  destruct Hdur as [_ Hdelay Hfits].
  assert (Hfail : ∀ code message class_ retry attempts_,
    (length code < MAX_PERSISTED_ERROR_CHARS)%nat → 0 ≤ retry ≤ i64_max * nanos_per_second →
    0 < attempts_ →
    ∃ db r, store_failed now e w (bounded_diagnostic code message) class_ retry attempts_ store =
              Ok (with_tables store db, true) ∧
      delivery_ok now db ∧ rows db = <[row_id e := r]> (rows (tables store))).
  { intros. by eapply store_failed_held; try done; apply diagnostic_ok. }
  destruct answer as [|failure| | |]; cbn [process_event expected_outcome].
  - destruct (store_published_held _ _ _ _ Hok Ht He Hh) as (db & r & -> & ? & ? & ?). cbn. eauto 10.
  - destruct (Hfail (error_code failure) (error_message failure) (error_class failure)
      (retry_after config failure) (match error_class failure with
         | Retryable => max_attempts config | Permanent => Z.max (event_attempts e) 1 end))
      as (db & r & -> & ? & ?); [done| |destruct (error_class failure); lia|].
    + unfold retry_after. lia.
    + cbn [rbind]. exists db, r. split_and!; try done; by destruct (error_class failure).
  - unfold record_runtime_failure.
    destruct (Hfail (lit "publisher_timeout") (lit "publisher exceeded its configured timeout")
      Retryable (retry_delay config) (max_attempts config)) as (db & r & -> & ? & ?);
      [by apply Nat.ltb_lt|lia|done|]. exists db, r. by split_and!.
  - unfold record_runtime_failure.
    destruct (Hfail (lit "publisher_task_failed") (lit "publisher panicked")
      Retryable (retry_delay config) (max_attempts config)) as (db & r & -> & ? & ?);
      [by apply Nat.ltb_lt|lia|done|]. exists db, r. by split_and!.
  - unfold record_runtime_failure.
    destruct (Hfail (lit "publisher_task_failed") (lit "publisher task was cancelled")
      Retryable (retry_delay config) (max_attempts config)) as (db & r & -> & ? & ?);
      [by apply Nat.ltb_lt|lia|done|]. exists db, r. by split_and!.
Qed.

Definition answered (task : Task Row) (store : Store) : Prop :=
  task_answer task = PublishSucceeded →
  ∃ r, rows (tables store) !! row_id (task_event task) = Some r ∧ is_Some (published_at r).

(** What the tasks that are still to end rely on: each holds the lease of its own
    event when it reports, and they report in the order of their times. *)
Record tasks_hold (t : Z) (tasks : list (Task Row)) (store : Store) : Prop := {
  hold_ok : delivery_ok t (tables store);
  hold_times : StronglySorted Z.le (t :: (task_time <$> tasks));
  hold_ids : NoDup ((fun task => row_id (task_event task)) <$> tasks);
  hold_rows : Forall (fun task =>
    rows (tables store) !! row_id (task_event task) = Some (task_event task) ∧
    holds_lease (task_time task) w (claim_version (task_event task)) (task_event task) = true ∧
    code_ok (task_answer task)) tasks;
}.

Lemma drain_held tasks : ∀ t (store : Store) summary,
  tasks_hold t tasks store →
  ∃ store', drain_tasks w config tasks store summary None =
      (store', foldl RunSummary_record summary (expected_outcome ∘ task_answer <$> tasks), None) ∧
    Forall (fun task => answered task store') tasks ∧
    (∀ id, id ∉ ((fun task => row_id (task_event task)) <$> tasks) →
       rows (tables store') !! id = rows (tables store) !! id).
Proof.
  induction tasks as [|task rest IH]; intros t store summary [Hok Htimes Hids Hrows]; cbn.
  - exists store. by split_and!.
  - apply Forall_cons in Hrows as [(He & Hh & Hcode) Hrest].
    cbn in Htimes, Hids. apply NoDup_cons in Hids as [Hnin Hids].
    apply StronglySorted_inv in Htimes as [Htimes Hle]. apply Forall_cons in Hle as [Hle _].
    destruct (process_held t (task_time task) store (task_event task) (task_answer task) Hok Hle He Hh Hcode)
      as (db & r & Hp & Hok' & Hdb & Hpub).
    rewrite Hp. destruct (IH (task_time task) (with_tables store db)
      (RunSummary_record summary (expected_outcome (task_answer task)))) as (store' & Hd & Hans & Hsame).
    { split; [done|done|done|]. apply Forall_forall. intros task' Hin.
      rewrite Forall_forall in Hrest. destruct (Hrest task' Hin) as (? & ? & ?). split_and!; try done.
      cbn [tables with_tables]. rewrite Hdb, lookup_insert_ne; [done|]. intros E. apply Hnin. rewrite E.
      by apply (list_elem_of_fmap_2 (fun task => row_id (task_event task))). }
    rewrite Hd. exists store'. split; [done|]. split.
    + constructor; [|done]. intros Hs. exists r. rewrite (Hsame _ Hnin). cbn [tables with_tables].
      rewrite Hdb, lookup_insert_eq. auto.
    + intros id Hid. apply not_elem_of_cons in Hid as [Hne Hid]. rewrite (Hsame id Hid).
      cbn [tables with_tables]. by rewrite Hdb, lookup_insert_ne.
Qed.

(** The claim part of a pass. *)
Lemma claim_and_spawn_total t now p available (store : Store) :
  delivery_ok t (tables store) → t ≤ now → counters_free (tables store) →
  bounded_text p "publisher name" 200 = Ok tt → 1 ≤ available →
  ∃ store' (events : list Row) s, claim_and_spawn now store w p config available = Ok (store', events) ∧
    duration_seconds (lease config) "outbox lease" = Ok s ∧
    claim_events now ∅ w p (reserve_claim_slots config available) s (tables store) =
      Ok (tables store', events).
Proof.
  intros Hok Ht Hfree Hp Hav. destruct (Worker_new_ok _ _ Hnew) as (Hw & Hbatch & Hflight & _).
  destruct (duration_seconds_ok (lease config) "outbox lease") as (s & Hs & Hb);
    [pose proof (lease_fits _ Hdur); lia|].
  assert (Hlimit : 1 ≤ reserve_claim_slots config available ≤ 1000) by (unfold reserve_claim_slots; lia).
  destruct (claim_events_total t now ∅ w p (reserve_claim_slots config available) s (tables store))
    as (db' & events & Hc & Hperm); try done.
  - pose proof (lease_fits _ Hdur). unfold nanos_per_second in *. lia.
  - intros r Hr. apply elem_of_candidates in Hr as (id & Hr & (Ho & _)%claimable_spec & _).
    by apply (Hfree id).
  - exists (with_tables store db'), events, s. split; [|done].
    unfold claim_and_spawn. cbn [store_claim PostgresOutboxStore]. rewrite Hs. cbn [rbind].
    rewrite Hc. cbn [rbind map_err]. rewrite (proj2 (Z.ltb_ge _ _)); [done|].
    rewrite (Permutation_length Hperm), length_fmap. unfold candidates. rewrite length_take. lia.
Qed.

Lemma claimed_hold t now p (store : Store) n s db events (e : Row) time :
  delivery_ok t (tables store) → t ≤ now →
  claim_events now ∅ w p n s (tables store) = Ok (db, events) → e ∈ events →
  now ≤ time < now + seconds s →
  rows db !! row_id e = Some e ∧ holds_lease time w (claim_version e) e = true.
Proof.
  intros Hok Ht Hc He Htime.
  destruct (claim_events_inv _ _ _ _ _ _ _ _ _ _ Hok Ht Hc) as (_ & Hev & _).
  destruct (Hev e He) as (r & _ & Hcl & _ & -> & Hr). split; [done|].
  apply claimable_spec in Hcl as (Ho & Hd & _). apply holds_lease_spec.
  split_and!; try done. exists (now + seconds s). split; [done|lia].
Qed.

Lemma claimed_ids t now p (store : Store) n s db events :
  delivery_ok t (tables store) → t ≤ now →
  claim_events now ∅ w p n s (tables store) = Ok (db, events) → NoDup (row_id <$> events).
Proof.
  intros Hok Ht Hc. unfold claim_events in Hc. do 2 (apply rbind_ok in Hc as (_ & _ & Hc)).
  destruct (_ && _) in Hc; [|done]. destruct (_ <? _) in Hc; [|done].
  destruct (existsb _ _); [done|]. cbn zeta in Hc. case_bool_decide.
  { injection Hc as _ <-. constructor. }
  apply rbind_ok in Hc as (log & _ & Hc). destruct (_ =? _) in Hc; [|done]. injection Hc as _ <-.
  rewrite (sort_by_perm _), <-list_fmap_compose. apply (candidates_NoDup now ∅ n).
  intros id r Hr. exact (row_id_ok _ _ _ _ (rows_ok _ _ Hok _ _ Hr)).
Qed.

(** A timely pass loses nothing: when every task reports before the configured
    lease has run out, the pass returns a summary, in it no claim is lost and each
    event is counted as what the publisher answered, and every event that was
    published is marked so in the database. Neither the order in which the tasks
    end nor the publisher's errors, panics and timeouts matter. *)
Theorem timely_pass_loses_nothing t now p available finish (store : Store) :
  reachable is_object (tables store) t → t ≤ now → counters_free (tables store) →
  bounded_text p "publisher name" 200 = Ok tt → 1 ≤ available →
  (∀ events, task_event <$> finish events ≡ₚ events ∧
     StronglySorted Z.le (now :: (task_time <$> finish events)) ∧
     Forall (fun task => (task_time task - now) * 1000 < lease config ∧
               code_ok (task_answer task)) (finish events)) →
  ∃ events store' s, run_once now w p config available finish store = Ok (store', Ok s) ∧
    s = foldl RunSummary_record (MkSummary (Z.of_nat (length events)) 0 0 0 0)
          (expected_outcome ∘ task_answer <$> finish events) ∧
    lost_claims s = 0 ∧
    ∀ task, task ∈ finish events → task_answer task = PublishSucceeded →
      ∃ r, rows (tables store') !! row_id (task_event task) = Some r ∧ is_Some (published_at r).
Proof.
  intros Hok%reachable_ok Ht Hfree Hp Hav Hfin.
  destruct (claim_and_spawn_total t now p available store Hok Ht Hfree Hp Hav)
    as (store1 & events & secs & Hclaim & Hsecs & Hc).
  destruct (duration_seconds_ok (lease config) "outbox lease") as (secs' & Hsecs' & Hb);
    [pose proof (lease_fits _ Hdur); lia|]. rewrite Hsecs in Hsecs'. injection Hsecs' as <-.
  destruct (Hfin events) as (Hperm & Htimes & Htasks).
  assert (Hhold : tasks_hold now (finish events) store1).
  { split; [by eapply claim_events_inv in Hc as [? _]|done| |].
    - change (NoDup (row_id ∘ task_event <$> finish events)).
      rewrite list_fmap_compose, Hperm. by eapply claimed_ids.
    - apply Forall_forall. intros task Hin. rewrite Forall_forall in Htasks.
      destruct (Htasks task Hin) as [Hlt Hcode].
      assert (Hnow : now ≤ task_time task).
      { apply StronglySorted_inv in Htimes as [_ Hle]. rewrite Forall_forall in Hle.
        apply Hle. by apply list_elem_of_fmap_2. }
      destruct (claimed_hold t now p store _ secs _ events (task_event task) (task_time task) Hok Ht Hc).
      + rewrite <-Hperm. by apply list_elem_of_fmap_2.
      + unfold seconds, nanos_per_second in *. lia.
      + done. }
  destruct (drain_held _ _ _ (MkSummary (Z.of_nat (length events)) 0 0 0 0) Hhold)
    as (store' & Hd & Hans & _).
  exists events, store'. eexists. split; [|split; [reflexivity|split]].
  - unfold run_once. rewrite Hclaim. cbn [rbind]. by rewrite Hd.
  - generalize (finish events) as l, (MkSummary (Z.of_nat (length events)) 0 0 0 0) as s0,
      (eq_refl : lost_claims (MkSummary (Z.of_nat (length events)) 0 0 0 0) = 0).
    induction l as [|[tm ev an] l IH]; intros s0 H0; cbn; [done|]. apply IH.
    destruct an as [|f| | |]; cbn; try done. by destruct (error_class f).
  - intros task Hin. rewrite Forall_forall in Hans. by apply Hans.
Qed.
End timely.

(** ** Witnesses *)

Definition sample_config : WorkerConfig :=
  MkConfig 10 4 2 (30 * nanos_per_second) (10 * nanos_per_second) nanos_per_second
    (60 * nanos_per_second) 5.

Definition sample_store : PostgresStore := MkPostgres sample_db2 [7; 3; 12].

(** Every publisher answers after one second, the first one with success. *)
Definition sample_finish (events : list (DeliveryRow (Payload := unit))) : list (Task _) :=
  (fun e => MkTask 1000010 e PublishSucceeded) <$> events.

Definition sample_run := run_once 10 (lit "a") (lit "bus") sample_config 4 sample_finish sample_store.
Definition sample_summary := MkSummary 1 1 0 0 0.

Lemma sample_run_ok :
  sample_run = Ok (state_after sample_run sample_store, Ok sample_summary).
Proof. apply state_after_answer. vm_compute. reflexivity. Qed.

Lemma sample_finish_events events : task_event <$> sample_finish events ≡ₚ events.
Proof. unfold sample_finish. rewrite <-list_fmap_compose. cbn. by rewrite list_fmap_id. Qed.

Lemma run_once_accounts_witness :
  claimed sample_summary = published sample_summary + retryable_failures sample_summary
    + permanent_failures sample_summary + lost_claims sample_summary.
Proof.
  exact (proj1 (run_once_accounts 10 (lit "a") (lit "bus") sample_config 4 sample_finish sample_store
    _ _ sample_finish_events sample_run_ok)).
Defined.

Lemma discovery_visits_every_tenant_witness :
  discovered_tenants (fun after => store_tenants sample_store after 2) 2 4 None = ([3; 7; 12], None).
Proof.
  apply (discovery_visits_every_tenant sample_store 2 4).
  - apply (bool_decide_unpack _). vm_compute. exact I.
  - apply (bool_decide_unpack _). vm_compute. exact I.
  - lia.
  - apply Nat.ltb_lt. reflexivity.
Defined.

Lemma sample_finish_timely events :
  task_event <$> sample_finish events ≡ₚ events ∧
  StronglySorted Z.le (10 :: (task_time <$> sample_finish events)) ∧
  Forall (fun task => (task_time task - 10) * 1000 < lease sample_config ∧
            code_ok (task_answer task)) (sample_finish events).
Proof.
  split; [apply sample_finish_events|]. unfold sample_finish. rewrite <-list_fmap_compose. split.
  - assert (Hall : Forall (Z.le 1000010) ((fun _ => 1000010) <$> events)).
    { apply Forall_fmap, Forall_true. intros x. cbn. lia. }
    change (task_time ∘ _) with (fun _ : DeliveryRow (Payload := unit) => 1000010).
    constructor; [|by eapply Forall_impl; [exact Hall|]; intros; lia].
    induction events; cbn; constructor; [|by apply Forall_cons in Hall as []]. apply IHevents.
    by apply Forall_cons in Hall as [].
  - apply Forall_fmap, Forall_true. intros x. by split.
Qed.

Lemma timely_pass_loses_nothing_witness :
  ∃ (events : list (DeliveryRow (Payload := unit))) store' s, sample_run = Ok (store', Ok s) ∧ lost_claims s = 0.
Proof.
  destruct (timely_pass_loses_nothing accept_payload (lit "a") sample_config
    ltac:(vm_compute; reflexivity)
    ltac:(split; [split; [reflexivity|vm_compute; discriminate]|vm_compute; discriminate
                 |vm_compute; discriminate])
    2 10 (lit "bus") 4 sample_finish sample_store sample_db2_reachable ltac:(lia) sample_counters_free
    ltac:(vm_compute; reflexivity) ltac:(lia) sample_finish_timely) as (ev & st & s & H1 & _ & H2 & _).
  exists ev, st, s. exact (conj H1 H2).
Defined.
