(* ===== verification/OrderHolds.v ===== *)
(** * Order holds ([crates/api/src/repo/orders.rs], [place_order_hold] and
      [release_order_hold])

    The two handlers over the rows they touch: the orders, the hold rows, the
    order activity log and the outbox, under the idempotency protocol of
    [Idempotency]. The rows are one tenant's; timestamps, which the handlers only
    write, are reduced to whether a hold is released. *)

From stdpp Require Import pretty.
From S2P Require Import Prelude.
From S2P Require Import RustStr.
From S2P Require Import Orders.
From S2P Require Import Idempotency.
From S2P Require Import Outbox.

#[global] Instance OrderHoldReason_eq_dec : EqDecision OrderHoldReason.
Proof. solve_decision. Defined.

Record OrderRow := MkOrderRow {
  inventory_owner_id : Z;
  status : OrderStatus;
  revision : Z;
  deleted : bool;
}.

Record HoldRow := MkHoldRow {
  hold_id : Z;
  hold_order_id : Z;
  reason_code : OrderHoldReason;
  note : option rstr;
  hold_created_by : Z;
  hold_released : option (Z * option rstr);
}.

(** The payload of [order.hold.placed] and [order.hold.released]. *)
Record HoldEvent := MkHoldEvent {
  event_order_id : Z;
  event_hold_id : Z;
  event_reason : option OrderHoldReason;
  event_order_status : OrderStatus;
  event_active_hold_count : Z;
}.

Record HoldRows := MkHoldRows {
  orders : gmap Z OrderRow;
  holds : list HoldRow;
  next_hold_id : Z;
  activity : list (Z * rstr);
  outbox : OutboxTables HoldEvent;
}.

Record ScopeBindings := MkScope {
  all_inventory_owners : bool;
  inventory_owner_ids : list Z;
}.

Record OrderHoldCommandResult := MkHoldResult {
  result_order_id : Z;
  result_hold_id : Z;
  result_order_status : OrderStatus;
  result_active_hold_count : Z;
}.

Definition in_scope (scope : ScopeBindings) (owner : Z) : bool :=
  all_inventory_owners scope || bool_decide (owner ∈ inventory_owner_ids scope).

Definition validate_hold_note (hold_note : option rstr) (required : bool) :
    result unit ApplicationError :=
  if required && bool_decide (hold_note = None)
  then Err (InvalidRequest "note is required when the hold reason is other")
  else
    match hold_note with
    | None => Ok tt
    | Some text =>
        if is_blank_or_untrimmed text
        then Err (InvalidRequest "order hold note must be trimmed and nonempty")
        else if 1000 <? chars_count text
        then Err (InvalidRequest "order hold note cannot exceed 1000 characters")
        else Ok tt
    end.

Definition require_replayed_order_visible (rows : HoldRows) (scope : ScopeBindings)
    (order_id : Z) : result unit ApplicationError :=
  match orders rows !! order_id with
  | None => Err (NotFound "order")
  | Some order => if in_scope scope (inventory_owner_id order) then Ok tt
                  else Err (NotFound "order")
  end.

Definition is_active (order_id : Z) (h : HoldRow) : bool :=
  (hold_order_id h =? order_id) && bool_decide (hold_released h = None).

Definition active_order_hold_count (hs : list HoldRow) (order_id : Z) : Z :=
  Z.of_nat (length (List.filter (is_active order_id) hs)).

(** [UPDATE orders SET status = .., revision = revision + 1]; the column is a
    BIGINT and PostgreSQL refuses a value outside it. *)
Definition update_order (rows_orders : gmap Z OrderRow) (order_id : Z) (order : OrderRow)
    (new_status : OrderStatus) : result (gmap Z OrderRow) ApplicationError :=
  let? next := ok_or (i64_checked_add (revision order) 1) (Internal "bigint out of range") in
  Ok (<[order_id := MkOrderRow (inventory_owner_id order) new_status next (deleted order)]>
        rows_orders).

Definition map_transition_error (e : OrderHoldTransitionError) : ApplicationError :=
  match e with
  | OrderNotHoldable => Conflict "order cannot be held"
  | OrderNotHeld => Conflict "order is not held"
  end.

Definition enqueue_order_hold_event (t : OutboxTables HoldEvent) (order_id id : Z)
    (transition : string) (body : HoldEvent) : result (OutboxTables HoldEvent) ApplicationError :=
  let key := lit ("order:" +:+ pretty order_id) in
  map_err (fun _ => Internal "outbox")
    (enqueue (fun _ => true) t
       (MkEvent (lit ("order-hold:" +:+ pretty id +:+ ":" +:+ transition)) (lit "order")
          (lit (pretty order_id)) key (next_outbox_sequence t key)
          (lit ("order.hold." +:+ transition)) 1 body)).

(** The work of [place_order_hold] between the replay check and the commit. *)
Definition place_hold_work (scope : ScopeBindings) (actor order_id : Z)
    (reason : OrderHoldReason) (hold_note : option rstr) (rows : HoldRows) :
    result (HoldRows * OrderHoldCommandResult * option Z) ApplicationError :=
  let? order := ok_or (orders rows !! order_id) (NotFound "order") in
  check negb (deleted order) && in_scope scope (inventory_owner_id order)
    else NotFound "order" in
  let? order_status := map_err map_transition_error (place_hold (status order)) in
  if existsb (fun h => is_active order_id h && bool_decide (reason_code h = reason)) (holds rows)
  then Err (Conflict "order already has an active hold of this reason")
  else
    let id := next_hold_id rows in
    let new_holds := holds rows ++ [MkHoldRow id order_id reason hold_note actor None] in
    let? new_orders := update_order (orders rows) order_id order order_status in
    let count := active_order_hold_count new_holds order_id in
    let? new_outbox := enqueue_order_hold_event (outbox rows) order_id id "placed"
      (MkHoldEvent order_id id (Some reason) order_status count) in
    Ok (MkHoldRows new_orders new_holds (id + 1)
          (activity rows ++ [(order_id, lit "placed order hold")]) new_outbox,
        MkHoldResult order_id id order_status count, None).

Definition release_row (actor : Z) (release_note : option rstr) (order_id id : Z) (h : HoldRow) :
    HoldRow :=
  if (hold_order_id h =? order_id) && (hold_id h =? id) && bool_decide (hold_released h = None)
  then MkHoldRow (hold_id h) (hold_order_id h) (reason_code h) (note h) (hold_created_by h)
         (Some (actor, release_note))
  else h.

(** The work of [release_order_hold]. *)
Definition release_hold_work (scope : ScopeBindings) (actor order_id id : Z)
    (release_note : option rstr) (rows : HoldRows) :
    result (HoldRows * OrderHoldCommandResult * option Z) ApplicationError :=
  let? hold := ok_or (find (fun h => (hold_order_id h =? order_id) && (hold_id h =? id)) (holds rows))
    (NotFound "order hold") in
  let? order := ok_or (orders rows !! order_id) (NotFound "order hold") in
  check negb (deleted order) && in_scope scope (inventory_owner_id order)
    else NotFound "order hold" in
  check bool_decide (hold_released hold = None)
    else Conflict "order hold is already released" in
  let new_holds := release_row actor release_note order_id id <$> holds rows in
  let count := active_order_hold_count new_holds order_id in
  let? order_status := map_err map_transition_error (release_hold (status order) (0 <? count)) in
  let? new_orders := update_order (orders rows) order_id order order_status in
  let? new_outbox := enqueue_order_hold_event (outbox rows) order_id id "released"
    (MkHoldEvent order_id id None order_status count) in
  Ok (MkHoldRows new_orders new_holds (next_hold_id rows)
        (activity rows ++ [(order_id, lit "released order hold")]) new_outbox,
      MkHoldResult order_id id order_status count, None).

Section handlers.
Context (digest : list Z → rstr).
Context {Json : Type} (to_json : OrderHoldCommandResult → option Json)
  (from_json : Json → option OrderHoldCommandResult).
(** [serde_json::to_vec] of the request tuples. *)
Context (encode_place : Z → OrderHoldReason → option rstr → option (list Z))
  (encode_release : Z → Z → option rstr → option (list Z)).

Definition Db : Type := Records (Json := Json) * HoldRows.

(** A replay is answered only when the order is still visible to the actor. *)
Definition guarded_command (prepared : PreparedCommand) (scope : ScopeBindings) (order_id : Z)
    (work : HoldRows → result (HoldRows * OrderHoldCommandResult * option Z) ApplicationError)
    (db : Db) : result (Db * OrderHoldCommandResult) ApplicationError :=
  let? replay := replayed from_json db.1 prepared in
  let? _ := match replay with
            | Some _ => require_replayed_order_visible db.2 scope order_id
            | None => Ok tt
            end in
  run_command to_json from_json prepared work db.

Definition place_order_hold (tenant actor : Z) (scope : ScopeBindings) (command : CommandContext)
    (order_id : Z) (reason : OrderHoldReason) (hold_note : option rstr) (db : Db) :
    result (Db * OrderHoldCommandResult) ApplicationError :=
  let? _ := require_actor command tenant actor in
  let? _ := validate_hold_note hold_note (bool_decide (reason = HoldOther)) in
  check 0 <? order_id else InvalidRequest "order ID must be positive" in
  let? prepared := PreparedCommand_new_v1 digest command (lit "order.place_hold.v1")
    (encode_place order_id reason hold_note) in
  guarded_command prepared scope order_id
    (place_hold_work scope (ctx_actor_id command) order_id reason hold_note) db.

Definition release_order_hold (tenant actor : Z) (scope : ScopeBindings)
    (command : CommandContext) (order_id id : Z) (release_note : option rstr) (db : Db) :
    result (Db * OrderHoldCommandResult) ApplicationError :=
  let? _ := require_actor command tenant actor in
  let? _ := validate_hold_note release_note false in
  check (0 <? order_id) && (0 <? id)
    else InvalidRequest "order ID and order hold ID must be positive" in
  let? prepared := PreparedCommand_new_v1 digest command (lit "order.release_hold.v1")
    (encode_release order_id id release_note) in
  guarded_command prepared scope order_id
    (release_hold_work scope (ctx_actor_id command) order_id id release_note) db.

(** One accepted hold command, of any actor with any scope. *)
Inductive hold_step (db : Db) : Db → Prop :=
| placed tenant actor scope command order_id reason hold_note db' r :
    place_order_hold tenant actor scope command order_id reason hold_note db = Ok (db', r) →
    hold_step db db'
| released tenant actor scope command order_id id release_note db' r :
    release_order_hold tenant actor scope command order_id id release_note db = Ok (db', r) →
    hold_step db db'.
End handlers.

(** ** The invariant of the hold rows *)

Abbreviation active_holds oid hs := (List.filter (is_active oid) hs).

Record holds_ok (rows : HoldRows) : Prop := {
  held_iff_active : ∀ oid o, orders rows !! oid = Some o →
    (status o = Held ↔ 0 < active_order_hold_count (holds rows) oid);
  one_hold_per_reason : ∀ oid, NoDup (reason_code <$> active_holds oid (holds rows));
  hold_ids_distinct : NoDup (hold_id <$> holds rows);
  hold_ids_used : ∀ h, h ∈ holds rows → hold_id h < next_hold_id rows;
  outbox_contiguous : outbox_ok (outbox rows);
}.

Lemma elem_of_active oid h hs : h ∈ active_holds oid hs ↔ h ∈ hs ∧ is_active oid h = true.
Proof. rewrite list_elem_of_In, filter_In, <-list_elem_of_In. done. Qed.

Lemma is_active_iff oid h : is_active oid h = true ↔ hold_order_id h = oid ∧ hold_released h = None.
Proof.
  unfold is_active. rewrite andb_true_iff, Z.eqb_eq, bool_decide_eq_true. done.
Qed.

Lemma active_count_pos hs oid :
  0 < active_order_hold_count hs oid ↔ ∃ h, h ∈ hs ∧ is_active oid h = true.
Proof.
  unfold active_order_hold_count. split.
  - intros H. destruct (active_holds oid hs) as [|h l] eqn:E; [cbn in H; lia|].
    exists h. apply elem_of_active. rewrite E. by left.
  - intros (h & Hh). apply elem_of_active in Hh.
    destruct (active_holds oid hs); [by apply elem_of_nil in Hh|]. cbn. lia.
Qed.

Lemma update_order_ok m oid o st m' :
  update_order m oid o st = Ok m' →
  m' = <[oid := MkOrderRow (inventory_owner_id o) st (revision o + 1) (deleted o)]> m.
Proof.
  unfold update_order, i64_checked_add. intros H. run H.
  by match goal with E : checked _ _ _ = Some _ |- _ => apply checked_Some in E as [-> _] end.
Qed.

Lemma enqueue_hold_ok t oid id tr body t' :
  outbox_ok t → enqueue_order_hold_event t oid id tr body = Ok t' → outbox_ok t'.
Proof.
  unfold enqueue_order_hold_event, map_err. intros Ht H.
  destruct (enqueue _ _ _) as [t1|] eqn:E; [|done]. injection H as <-. by eapply enqueue_ok.
Qed.

(** What an accepted placement did. *)
Lemma place_hold_work_inv scope actor oid reason hold_note rows rows' r t :
  place_hold_work scope actor oid reason hold_note rows = Ok (rows', r, t) →
  ∃ o, orders rows !! oid = Some o ∧ (status o = Open ∨ status o = Held) ∧
    (∀ h, h ∈ active_holds oid (holds rows) → reason_code h ≠ reason) ∧
    holds rows' = holds rows ++ [MkHoldRow (next_hold_id rows) oid reason hold_note actor None] ∧
    orders rows' = <[oid := MkOrderRow (inventory_owner_id o) Held (revision o + 1) (deleted o)]>
      (orders rows) ∧
    next_hold_id rows' = next_hold_id rows + 1 ∧ t = None ∧
    r = MkHoldResult oid (next_hold_id rows) Held (active_order_hold_count (holds rows') oid) ∧
    (outbox_ok (outbox rows) → outbox_ok (outbox rows')).
Proof.
  unfold place_hold_work. intros H. apply rbind_ok in H as (o & Ho & H).
  destruct (orders rows !! oid) as [o'|] eqn:Hlook; [|done]. cbn in Ho. injection Ho as ->.
  destruct (_ && _); [|done]. apply rbind_ok in H as (st & Hst & H).
  assert (st = Held ∧ (status o = Open ∨ status o = Held)) as [-> Hopen].
  { unfold place_hold in Hst. destruct (status o); cbn in Hst; simplify_eq; auto. }
  destruct (existsb _ _) eqn:Hdup; [done|].
  apply rbind_ok in H as (m & Hm & H). apply rbind_ok in H as (ob & Hob & H). simplify_eq.
  exists o. cbn. split_and!; try done.
  - intros h Hh E. apply elem_of_active in Hh as [Hin Hact].
    apply not_true_iff_false in Hdup. apply Hdup, existsb_exists. exists h.
    split; [by apply list_elem_of_In|]. by rewrite Hact, bool_decide_true.
  - by apply update_order_ok.
  - intros Hok. by eapply enqueue_hold_ok.
Qed.

Definition targets (oid id : Z) (h : HoldRow) : bool :=
  (hold_order_id h =? oid) && (hold_id h =? id).

(** Releasing a row takes it out of the active holds and changes nothing else. *)
Lemma is_active_release actor rn oid id oid' h :
  is_active oid' (release_row actor rn oid id h) = is_active oid' h && negb (targets oid id h) ∧
  reason_code (release_row actor rn oid id h) = reason_code h ∧
  hold_id (release_row actor rn oid id h) = hold_id h.
Proof.
  unfold release_row, targets, is_active.
  destruct (hold_order_id h =? oid), (hold_id h =? id); cbn [andb negb];
    try (by rewrite andb_true_r).
  destruct (bool_decide_reflect (hold_released h = None)) as [E|E]; cbn.
  - by rewrite !andb_false_r.
  - by rewrite (bool_decide_false _ E), !andb_false_r.
Qed.

Lemma active_after_release actor rn oid id oid' hs :
  active_holds oid' (release_row actor rn oid id <$> hs) =
  release_row actor rn oid id <$>
    List.filter (fun h => is_active oid' h && negb (targets oid id h)) hs.
Proof.
  induction hs as [|h hs IH]; [done|]. cbn [fmap list_fmap List.filter].
  destruct (is_active_release actor rn oid id oid' h) as [-> _].
  change (list_fmap _ _ ?f ?l) with (f <$> l).
  destruct (is_active oid' h && negb (targets oid id h)); cbn [fmap list_fmap]; by rewrite IH.
Qed.

Lemma active_other_order actor rn oid id oid' hs :
  oid' ≠ oid →
  active_order_hold_count (release_row actor rn oid id <$> hs) oid' = active_order_hold_count hs oid'.
Proof.
  intros Hne. unfold active_order_hold_count. rewrite active_after_release, length_fmap.
  do 2 f_equal. apply filter_ext. intros h. unfold targets.
  destruct (is_active oid' h) eqn:E; [|done]. apply is_active_iff in E as [-> _].
  by rewrite (proj2 (Z.eqb_neq _ _) Hne).
Qed.

Lemma release_hold_work_inv scope actor oid id rn rows rows' r t :
  release_hold_work scope actor oid id rn rows = Ok (rows', r, t) →
  ∃ o h, orders rows !! oid = Some o ∧ status o = Held ∧
    h ∈ holds rows ∧ is_active oid h = true ∧ hold_id h = id ∧
    holds rows' = release_row actor rn oid id <$> holds rows ∧
    (let count := active_order_hold_count (holds rows') oid in
     let st := if 0 <? count then Held else Open in
     orders rows' = <[oid := MkOrderRow (inventory_owner_id o) st (revision o + 1) (deleted o)]>
       (orders rows) ∧ r = MkHoldResult oid id st count) ∧
    next_hold_id rows' = next_hold_id rows ∧ t = None ∧
    (outbox_ok (outbox rows) → outbox_ok (outbox rows')).
Proof.
  unfold release_hold_work. intros H. apply rbind_ok in H as (h & Hh & H).
  destruct (find _ (holds rows)) as [h'|] eqn:Hfind; [|done]. cbn in Hh. injection Hh as ->.
  apply find_some in Hfind as [Hin Hid]. bool_to_prop.
  apply rbind_ok in H as (o & Ho & H).
  destruct (orders rows !! oid) as [o'|] eqn:Hlook; [|done]. cbn in Ho. injection Ho as ->.
  destruct (_ && _); [|done]. case_bool_decide as Hact; [|done].
  apply rbind_ok in H as (st & Hst & H).
  assert (status o = Held ∧ st = if 0 <? active_order_hold_count
    (release_row actor rn oid id <$> holds rows) oid then Held else Open) as [Hheld Est].
  { revert Hst. generalize (0 <? active_order_hold_count
      (release_row actor rn oid id <$> holds rows) oid) as b. intros b Hst.
    unfold release_hold in Hst. destruct (status o); try done. by destruct b; injection Hst as <-. }
  apply rbind_ok in H as (m & Hm & H). apply rbind_ok in H as (ob & Hob & H). simplify_eq.
  exists o, h. cbn. split_and!; try done.
  - by apply list_elem_of_In.
  - by apply is_active_iff.
  - by apply update_order_ok.
  - intros Hok. by eapply enqueue_hold_ok.
Qed.

Lemma active_snoc oid h hs :
  active_holds oid (hs ++ [h]) = active_holds oid hs ++ (if is_active oid h then [h] else []).
Proof. rewrite List.filter_app. cbn. by destruct (is_active oid h). Qed.

Lemma place_hold_work_ok scope actor oid reason hold_note rows rows' r t :
  holds_ok rows → place_hold_work scope actor oid reason hold_note rows = Ok (rows', r, t) →
  holds_ok rows'.
Proof.
  intros [Hheld Hone Hids Hused Hob] (o & Ho & Hst & Hnew & Hh & Hor & Hn & _ & _ & Hob')
    %place_hold_work_inv.
  set (h := MkHoldRow _ _ _ _ _ _) in Hh.
  assert (Hact : ∀ oid', is_active oid' h = (oid =? oid'))
    by (intros; unfold is_active; cbn; by rewrite andb_true_r).
  split.
  - intros oid' o' Hlook. rewrite Hor in Hlook. rewrite active_count_pos, Hh.
    destruct (decide (oid = oid')) as [<-|Hne].
    + rewrite lookup_insert_eq in Hlook. simplify_eq. cbn. split; [|done]. intros _.
      exists h. split; [set_solver|]. by rewrite Hact, Z.eqb_refl.
    + rewrite lookup_insert_ne in Hlook by done. rewrite (Hheld _ _ Hlook), active_count_pos.
      split; intros (g & Hg & Ha); exists g; (split; [|done]).
      * set_solver.
      * apply elem_of_app in Hg as [|Hg%list_elem_of_singleton]; [done|]. subst g.
        rewrite Hact in Ha. bool_to_prop. done.
  - intros oid'. rewrite Hh, active_snoc, Hact, fmap_app. apply NoDup_app.
    split_and!; [apply Hone| |destruct (oid =? oid'); cbn; [apply NoDup_singleton|constructor]].
    intros c Hc Hc'. destruct (oid =? oid') eqn:E; cbn in Hc'; [|by apply elem_of_nil in Hc'].
    bool_to_prop. subst oid'. apply list_elem_of_singleton in Hc' as ->.
    apply list_elem_of_fmap in Hc as (g & Eg & Hg). by apply (Hnew g).
  - rewrite Hh, fmap_app. apply NoDup_app. split_and!; [done| |apply NoDup_singleton].
    intros i Hi Hi'. cbn in Hi'. apply list_elem_of_singleton in Hi' as ->.
    apply list_elem_of_fmap in Hi as (g & E & Hg). specialize (Hused g Hg). lia.
  - intros g Hg. rewrite Hh in Hg. rewrite Hn. apply elem_of_app in Hg as [Hg|Hg].
    + specialize (Hused g Hg). lia.
    + apply list_elem_of_singleton in Hg as ->. cbn. lia.
  - by apply Hob'.
Qed.

Lemma release_hold_work_ok scope actor oid id rn rows rows' r t :
  holds_ok rows → release_hold_work scope actor oid id rn rows = Ok (rows', r, t) → holds_ok rows'.
Proof.
  intros [Hheld Hone Hids Hused Hob] (o & h & Ho & Hst & _ & _ & _ & Hh & [Hor _] & Hn & _ & Hob')
    %release_hold_work_inv.
  assert (Hid : ∀ g, hold_id (release_row actor rn oid id g) = hold_id g)
    by (intros g; apply (is_active_release actor rn oid id oid g)).
  split.
  - intros oid' o' Hlook. rewrite Hor in Hlook.
    destruct (decide (oid = oid')) as [<-|Hne].
    + rewrite lookup_insert_eq in Hlook. simplify_eq. cbn.
      destruct (0 <? active_order_hold_count (holds rows') oid) eqn:E; bool_to_prop; split; try done.
      intros ?. lia.
    + rewrite lookup_insert_ne in Hlook by done. rewrite Hh, active_other_order by done.
      by apply Hheld.
  - intros oid'. rewrite Hh, active_after_release, <-list_fmap_compose.
    assert (E : ∀ l : list HoldRow, (reason_code ∘ release_row actor rn oid id) <$> l = reason_code <$> l).
    { intros l. apply list_fmap_ext. intros i g _. cbn.
      apply (is_active_release actor rn oid id oid g). }
    rewrite E. eapply sublist_NoDup; [apply (Hone oid')|]. apply fmap_sublist. clear.
    induction (holds rows) as [|g l IH]; [done|]. cbn.
    destruct (is_active oid' g); cbn; [|done].
    destruct (negb _); by constructor.
  - rewrite Hh, <-list_fmap_compose.
    rewrite (list_fmap_ext (hold_id ∘ release_row actor rn oid id) hold_id) by
      (intros; cbn; apply Hid). done.
  - intros g Hg. rewrite Hh in Hg. apply list_elem_of_fmap in Hg as (g' & -> & Hg).
    rewrite Hn, Hid. by apply Hused.
  - by apply Hob'.
Qed.

Section handler_theorems.
Context (digest : list Z → rstr).
Context {Json : Type} (to_json : OrderHoldCommandResult → option Json)
  (from_json : Json → option OrderHoldCommandResult).
Context (encode_place : Z → OrderHoldReason → option rstr → option (list Z))
  (encode_release : Z → Z → option rstr → option (list Z)).
Abbreviation step := (hold_step digest to_json from_json encode_place encode_release).

(** An accepted guarded command either replayed, leaving everything as it was, or
    did its work. *)
Lemma guarded_command_inv prepared scope oid work (db db' : Db (Json := Json)) r :
  guarded_command to_json from_json prepared scope oid work db = Ok (db', r) →
  db' = db ∨ ∃ t, work db.2 = Ok (db'.2, r, t).
Proof.
  unfold guarded_command. intros H. apply rbind_ok in H as (replay & _ & H).
  apply rbind_ok in H as (u & _ & H). apply run_command_inv in H as [[_ ->]|H]; [by left|].
  right. destruct H as (t & _ & _ & Hwork & _). eauto.
Qed.

Lemma hold_step_ok (db db' : Db (Json := Json)) : step db db' → holds_ok db.2 → holds_ok db'.2.
Proof.
  intros Hstep Hok. destruct Hstep as
    [tenant actor scope command oid reason hn db1 r H|tenant actor scope command oid id rn db1 r H].
  - unfold place_order_hold in H. do 2 (apply rbind_ok in H as (? & _ & H)).
    destruct (0 <? oid); [|done]. apply rbind_ok in H as (p & _ & H).
    apply guarded_command_inv in H as [->|[t Hw]]; [done|]. by eapply place_hold_work_ok.
  - unfold release_order_hold in H. do 2 (apply rbind_ok in H as (? & _ & H)).
    destruct (_ && _); [|done]. apply rbind_ok in H as (p & _ & H).
    apply guarded_command_inv in H as [->|[t Hw]]; [done|]. by eapply release_hold_work_ok.
Qed.

(** C30. Whatever hold commands are accepted, in any order and with any replays:
    an order is Held exactly while it has an active hold, it never has two active
    holds for the same reason, hold ids stay distinct, and the events of each
    order are numbered contiguously in the outbox. *)
Theorem hold_history_consistent (db db' : Db (Json := Json)) :
  holds_ok db.2 → rtc step db db' → holds_ok db'.2.
Proof.
  intros Hok Hrtc. revert Hok. induction Hrtc as [|db db1 db2 Hs _ IH]; intros Hok; [done|].
  by apply IH, (hold_step_ok db).
Qed.
End handler_theorems.

(** Releasing one hold reopens the order exactly when it was the last: the
    order stays Held while another of its holds is active and becomes Open
    otherwise, the reported count is that of the other active holds, the order's
    revision moves by one, and every other order and hold is untouched. *)
Theorem release_reopens_when_last scope actor oid id rn rows rows' r t :
  holds_ok rows → release_hold_work scope actor oid id rn rows = Ok (rows', r, t) →
  ∃ o o', orders rows !! oid = Some o ∧ orders rows' !! oid = Some o' ∧
    let others := List.filter (fun h => is_active oid h && negb (hold_id h =? id)) (holds rows) in
    status o' = (if decide (others = []) then Open else Held) ∧
    revision o' = revision o + 1 ∧ result_order_status r = status o' ∧
    result_active_hold_count r = Z.of_nat (length others) ∧
    (∀ oid', oid' ≠ oid → orders rows' !! oid' = orders rows !! oid') ∧
    (∀ h, hold_id h ≠ id → (h ∈ holds rows' ↔ h ∈ holds rows)).
Proof.
  intros Hok (o & h & Ho & Hst & _ & _ & _ & Hh & [Hor ->] & _)%release_hold_work_inv.
  eexists o, _. split; [done|]. split; [rewrite Hor; apply lookup_insert_eq|]. cbn zeta.
  set (others := List.filter _ (holds rows)).
  assert (Hcount : active_order_hold_count (holds rows') oid = Z.of_nat (length others)).
  { unfold active_order_hold_count, others. rewrite Hh, active_after_release, length_fmap.
    do 2 f_equal. apply filter_ext. intros g. unfold targets.
    destruct (is_active oid g) eqn:E; [|done]. apply is_active_iff in E as [-> _].
    by rewrite Z.eqb_refl. }
  cbn [result_order_status result_active_hold_count status revision]. rewrite Hcount.
  split_and!; try done.
  - destruct others as [|g l]; cbn; [done|]. by rewrite (proj2 (Z.ltb_lt _ _)) by lia.
  - intros oid' Hne. rewrite Hor. by apply lookup_insert_ne.
  - intros g Hg. rewrite Hh, list_elem_of_fmap. unfold release_row. split.
    + intros (g' & E & Hin). destruct (_ && _) eqn:Hc in E; [|by subst].
      bool_to_prop. subst g. done.
    + intros Hin. exists g. split; [|done]. rewrite (proj2 (Z.eqb_neq _ _) Hg).
      by rewrite andb_false_r.
Qed.

(** ** Witnesses *)

Definition sample_order : OrderRow := MkOrderRow 3 Open 1 false.
Definition sample_rows : HoldRows := MkHoldRows {[ 9 := sample_order ]} [] 1 [] empty_outbox.

Lemma sample_rows_ok : holds_ok sample_rows.
Proof.
  split.
  - intros oid o Ho. cbn [orders sample_rows] in Ho.
    apply lookup_singleton_Some in Ho as [<- <-]. done.
  - intros oid. constructor.
  - constructor.
  - intros h Hh. by apply elem_of_nil in Hh.
  - apply empty_outbox_ok.
Qed.

Definition sample_scope : ScopeBindings := MkScope false [3].
Definition sample_to_json (r : OrderHoldCommandResult) : option OrderHoldCommandResult := Some r.
Definition sample_encode_place (oid : Z) (r : OrderHoldReason) (n : option rstr) :
    option (list Z) := Some [oid].
Definition sample_encode_release (oid id : Z) (n : option rstr) : option (list Z) :=
  Some [oid; id].

Definition sample_placed : Db (Json := OrderHoldCommandResult) :=
  state_after (place_order_hold sample_digest sample_to_json Some sample_encode_place 1 7
    sample_scope sample_context 9 PaymentReview None (∅, sample_rows)) (∅, sample_rows).

Lemma hold_history_consistent_witness : holds_ok sample_placed.2.
Proof.
  apply (hold_history_consistent sample_digest sample_to_json Some sample_encode_place
    sample_encode_release (∅, sample_rows) sample_placed sample_rows_ok).
  destruct (state_after_ok (place_order_hold sample_digest sample_to_json Some sample_encode_place
    1 7 sample_scope sample_context 9 PaymentReview None (∅, sample_rows)) (∅, sample_rows))
    as [r Hr]; [vm_compute; reflexivity|].
  exact (rtc_once _ _ (placed _ _ _ _ _ _ 1 7 sample_scope sample_context 9 PaymentReview None
    _ r Hr)).
Defined.

Definition sample_two_holds : HoldRows :=
  MkHoldRows {[ 9 := MkOrderRow 3 Held 3 false ]}
    [MkHoldRow 1 9 PaymentReview None 7 None; MkHoldRow 2 9 AddressReview None 7 None]
    3 [] empty_outbox.

Lemma sample_two_holds_ok : holds_ok sample_two_holds.
Proof.
  split.
  - intros oid o Ho. cbn [orders sample_two_holds] in Ho.
    apply lookup_singleton_Some in Ho as [<- <-]. done.
  - intros oid. cbn [holds sample_two_holds List.filter]. unfold is_active.
    cbn [hold_order_id hold_released]. destruct (9 =? oid); cbn;
      repeat (constructor; [rewrite ?elem_of_cons, ?elem_of_nil; naive_solver|]); constructor.
  - cbn. repeat (constructor; [rewrite ?elem_of_cons, ?elem_of_nil; naive_solver|]); constructor.
  - intros h Hh. cbn in *. rewrite !elem_of_cons, elem_of_nil in Hh. destruct_or!; subst; cbn; lia.
  - apply empty_outbox_ok.
Qed.

Lemma release_reopens_when_last_witness :
  ∃ rows', release_hold_work sample_scope 7 9 1 None sample_two_holds =
             Ok (rows', MkHoldResult 9 1 Held 1, None) ∧
           ∃ o', orders rows' !! 9 = Some o' ∧ status o' = Held ∧ revision o' = 4.
Proof.
  destruct (release_hold_work sample_scope 7 9 1 None sample_two_holds)
    as [[[rows' r] t]|e] eqn:E; [|vm_compute in E; discriminate E].
  destruct (release_reopens_when_last sample_scope 7 9 1 None sample_two_holds rows' r t
    sample_two_holds_ok E) as (o & o' & Ho & Ho' & Hst & Hrev & _).
  vm_compute in Ho. injection Ho as <-. vm_compute in Hst, Hrev.
  exists rows'. vm_compute in E. injection E as <- <- <-. split; [reflexivity|].
  exists o'. exact (conj Ho' (conj Hst Hrev)).
Defined.
