(* ===== verification/Lifecycle.v ===== *)
(** * The life of an order

    The status changes of an order, collected from the components that make
    them: holds, release and cancellation ([Orders]), pick confirmation and
    reversal ([Picking]), packing ([Packing]) and departure ([Shipping]), with
    the two handlers that write the status themselves: the confirmation of the
    last pick ([crates/api/src/repo/picking/confirmation.rs]) and the departure
    of an outbound load ([crates/api/src/repo/shipping/departure.rs]). *)

From S2P Require Import Prelude.
From S2P Require Import RustStr.
From S2P Require Import Orders.
From S2P Require Import Picking.
From S2P Require Import Packing.
From S2P Require Import Shipping.

(** [OrderPickReadiness] of [crates/api/src/repo/picking/readiness.rs]. *)
Record OrderPickReadiness := MkReadiness {
  staged_allocation_count : Z;
  staged_quantity : Z;
  ordered_quantity : Z;
  accepted_short_quantity : Z;
  accepted_substitute_quantity : Z;
  effective_demand_quantity : Z;
  has_executable_work : bool;
  has_unresolved_shortage : bool;
  has_line_demand_mismatch : bool;
}.

Definition is_ready_to_pack (self : OrderPickReadiness) : bool :=
  negb (has_executable_work self) && negb (has_unresolved_shortage self)
  && negb (has_line_demand_mismatch self) && (0 <? effective_demand_quantity self)
  && (staged_quantity self =? effective_demand_quantity self).

(** [UPDATE orders SET status = $1, revision = $2 WHERE .. AND status = $5 AND
    revision = $6] against the stored row; an update of no row is reported as a
    conflict ([None]). *)
Definition update_order_row (row : OrderStatus * Z) (guard : OrderStatus) (expected : Z)
    (new_status : OrderStatus) (new_revision : Z) : option (OrderStatus * Z) :=
  if bool_decide (row.1 = guard) && (row.2 =? expected)
  then Some (new_status, new_revision) else None.

(** [advance_order_to_awaiting_packing_tx]; [expected] is the revision read when
    the order was locked. *)
Definition advance_order_to_awaiting_packing (row : OrderStatus * Z) (expected : Z) :
    option (OrderStatus * Z) :=
  match revision_checked_next expected with
  | None => None
  | Some next => update_order_row row Processing expected AwaitingPacking next
  end.

(** The end of a short shipment: the order goes on to packing when what is staged
    now covers the reduced demand. *)
Definition settle_short_shipment (readiness : OrderPickReadiness) (row : OrderStatus * Z)
    (expected order_revision : Z) : option (OrderStatus * Z) :=
  let order_status := if is_ready_to_pack readiness then AwaitingPacking else Processing in
  update_order_row row Processing expected order_status order_revision.

(** The order's part of the writes of [depart_for_outbound_load_tx]. *)
Definition ship_order_row (row : OrderStatus * Z) (order_revision : Z) :
    option (OrderStatus * Z) :=
  match revision_checked_next order_revision with
  | None => None
  | Some next_order_revision =>
      update_order_row row AwaitingShipment order_revision Shipped next_order_revision
  end.

(** [depart_for_outbound_load_tx]: the guards on the two statuses and the order's
    revision, then the update of the order. *)
Definition depart_order_for_outbound_load (shipment_status : ShipmentStatus)
    (order_status : OrderStatus) (order_revision expected_revision : Z) :
    option (OrderStatus * Z) :=
  if negb (bool_decide (shipment_status = Manifested))
     || negb (bool_decide (order_status = AwaitingShipment)) then None
  else if negb (order_revision =? expected_revision) then None
  else ship_order_row (order_status, order_revision) order_revision.

(** One change of an order's status by one of the handlers. The rest of what a handler
    looks at (the readiness of the picks, the progress of the packing, the revisions) is
    not tied to the order's rows here: a step exists when some value of it lets the
    handler through. So there are more steps than the program takes, and what follows
    says what cannot happen to an order, never what can. *)
Inductive order_step : OrderStatus → OrderStatus → Prop :=
| step_place_hold s s' : place_hold s = Ok s' → order_step s s'
| step_release_hold s others s' : release_hold s others = Ok s' → order_step s s'
| step_release s s' : release_order s = Ok s' → order_step s s'
| step_cancel s execution s' :
    cancel_order_before_physical_execution s execution = Ok s' → order_step s s'
| step_picked s readiness revision expected s' next :
    is_ready_to_pack readiness = true →
    advance_order_to_awaiting_packing (s, revision) expected = Some (s', next) → order_step s s'
| step_short_ship s readiness revision expected s' next :
    settle_short_shipment readiness (s, revision) expected next = Some (s', next) →
    order_step s s'
| step_reverse_pick s downstream shortage s' :
    reverse_pick_before_packing s downstream shortage = Ok s' → order_step s s'
| step_begin_packing s s' : begin_packing s = Ok s' → order_step s s'
| step_continue_packing s s' : continue_packing s = Ok s' → order_step s s'
| step_abandon_packing s progress s' : abandon_empty_packing s progress = Ok s' → order_step s s'
| step_reopen_carton s session progress carton contents s' progress' :
    reopen_carton s session progress carton contents = Ok (s', progress') → order_step s s'
| step_complete_packing s progress s' : complete_packing s progress = Ok s' → order_step s s'
| step_depart s shipment remaining scanned t :
    confirm_shipment_departure shipment s remaining scanned = Ok t →
    order_step s (departure_order_status t)
| step_load_depart s shipment revision expected s' next :
    depart_order_for_outbound_load shipment s revision expected = Some (s', next) →
    order_step s s'.

(** The arrows of the life cycle (besides staying in place). *)
Definition arrow (s s' : OrderStatus) : bool :=
  match s, s' with
  | Open, Held | Held, Open | Open, Processing
  | Open, Cancelled | Held, Cancelled | Processing, Cancelled
  | Processing, AwaitingPacking | AwaitingPacking, Processing
  | AwaitingPacking, Packing | Packing, AwaitingPacking
  | Packing, AwaitingShipment | AwaitingShipment, Packing
  | AwaitingShipment, Shipped => true
  | _, _ => false
  end.

Definition stays (s : OrderStatus) : bool :=
  match s with Held | Processing | Packing | AwaitingShipment => true | _ => false end.

Lemma update_order_row_Some row guard expected st rev r :
  update_order_row row guard expected st rev = Some r →
  row.1 = guard ∧ row.2 = expected ∧ r = (st, rev).
Proof.
  unfold update_order_row. destruct (_ && _) eqn:E; [|done]. bool_to_prop. naive_solver.
Qed.

(** The components make exactly these changes. *)
Lemma order_step_arrow s s' : order_step s s' → arrow s s' = true ∨ (s' = s ∧ stays s = true).
Proof.
  intros [s0 s1 H|s0 others s1 H|s0 s1 H|s0 ex s1 H|s0 rd rev ex s1 next _ H
    |s0 rd rev ex s1 next H|s0 d sh s1 H
    |s0 s1 H|s0 s1 H|s0 p s1 H|s0 se p c n s1 p' H|s0 p s1 H|s0 sh rem sc t H
    |s0 sh rev ex s1 next H].
  - unfold place_hold in H. destruct s0; simplify_eq; auto.
  - unfold release_hold in H. destruct s0, others; simplify_eq; auto.
  - unfold release_order in H. destruct s0; simplify_eq; auto.
  - unfold cancel_order_before_physical_execution in H.
    destruct s0, ex; repeat (match type of H with context [if ?b then _ else _] =>
      destruct b end); simplify_eq; auto.
  - unfold advance_order_to_awaiting_packing in H. destruct (revision_checked_next ex); [|done].
    apply update_order_row_Some in H as (? & _ & [= -> _]). simplify_eq/=. auto.
  - apply update_order_row_Some in H as (? & _ & [= -> ]). simplify_eq/=.
    destruct (is_ready_to_pack rd); auto.
  - unfold reverse_pick_before_packing in H. destruct (negb d), (negb sh); try done.
    destruct s0; simplify_eq; auto.
  - unfold begin_packing in H. destruct s0; simplify_eq; auto.
  - unfold continue_packing in H. destruct s0; simplify_eq; auto.
  - unfold abandon_empty_packing in H. case_bool_decide; [|done].
    destruct (_ || _); [done|]. simplify_eq. auto.
  - unfold reopen_carton in H. destruct (_ || _) eqn:E in H; [|done].
    apply rbind_ok in H as (u & _ & H). destruct (_ || _) in H; [done|].
    destruct (PackingProgress_new _ _ _ _ _ _); simplify_eq.
    apply orb_true_iff in E as [E|E]; bool_to_prop; subst; auto.
  - unfold complete_packing in H. case_bool_decide; [|done].
    destruct (ready_to_manifest p); [|done]. simplify_eq. auto.
  - apply confirm_shipment_departure_ok in H as (_ & -> & _ & _ & ->).
    destruct (decide _); cbn; auto.
  - unfold depart_order_for_outbound_load in H. destruct (_ || _) in H; [done|].
    destruct (negb _) in H; [done|]. unfold ship_order_row in H.
    destruct (revision_checked_next _); [|done].
    apply update_order_row_Some in H as (? & _ & [= -> _]). simplify_eq/=. auto.
Qed.

(** ** Histories *)

(** The statuses an order has had since it was created, the present one last. *)
Inductive history : list OrderStatus → OrderStatus → Prop :=
| history_created {T : Type} (order : NewFulfillmentOrder (Timestamp := T)) :
    history [initial_status order] (initial_status order)
| history_step h s s' : history h s → order_step s s' → history (h ++ [s']) s'.

(** What must have happened before the order got where it is. *)
Definition milestones (s : OrderStatus) : list OrderStatus :=
  match s with
  | Processing => [Processing]
  | AwaitingPacking => [Processing; AwaitingPacking]
  | Packing => [Processing; AwaitingPacking; Packing]
  | AwaitingShipment => [Processing; AwaitingPacking; Packing; AwaitingShipment]
  | Shipped => [Processing; AwaitingPacking; Packing; AwaitingShipment; Shipped]
  | _ => []
  end.

Lemma milestones_step s s' :
  arrow s s' = true →
  milestones s' = milestones s ++ [s'] ∨ ∃ rest, milestones s = milestones s' ++ rest.
Proof. destruct s, s'; try done; intros _; cbn; solve [left; done | right; by eexists]. Qed.

Lemma history_milestones h s : history h s → milestones s `sublist_of` h.
Proof.
  induction 1 as [T order|h s s' _ IH Hs]; [apply sublist_nil_l|].
  apply order_step_arrow in Hs as [Ha|[-> _]]; [|by apply sublist_inserts_r].
  destruct (milestones_step _ _ Ha) as [->|[rest Hrest]].
  - by apply sublist_app.
  - apply sublist_inserts_r. rewrite <- IH, Hrest. by apply sublist_inserts_r.
Qed.

(** *** The last steps of the example *)

Definition picked_readiness : OrderPickReadiness := MkReadiness 1 5 5 0 0 5 false false false.
Definition packed_progress : PackingProgress := MkProgress 1 1 5 5 0 1.

Lemma ship_from_awaiting_shipment : order_step AwaitingShipment Shipped.
Proof. by apply (step_load_depart AwaitingShipment Manifested 4 4 Shipped 5). Qed.

(** ** The theorems *)

(** C35. No shortcut to shipment: whatever order the handlers run in, an order
    that has shipped was released, had its picks completed, was packed and
    awaited shipment, in that order, since it was created. *)
Theorem shipped_history h :
  history h Shipped →
  [Processing; AwaitingPacking; Packing; AwaitingShipment; Shipped] `sublist_of` h.
Proof. apply history_milestones. Qed.

(** ** Witnesses *)

Definition sample_new_order : NewFulfillmentOrder (Timestamp := Z) :=
  MkNewOrder 1 (lit "SO-1") false None
    (MkDestination (MkRecipient (lit "Ada") None None None)
       (lit "1 Main St") None (lit "Springfield") (lit "IL") (lit "62701") (lit "US"))
    [MkDemandLine (lit "1") 7 5 (lit "each")].

Definition sample_history : list OrderStatus :=
  [Open; Held; Open; Processing; AwaitingPacking; Packing; AwaitingShipment; Shipped].

Lemma sample_history_ok : history sample_history Shipped.
Proof.
  pose proof (history_created sample_new_order) as H. cbn in H.
  eapply (history_step _ _ Held) in H; [|by apply step_place_hold].
  eapply (history_step _ _ Open) in H; [|by apply (step_release_hold Held false)].
  eapply (history_step _ _ Processing) in H; [|by apply step_release].
  eapply (history_step _ _ AwaitingPacking) in H;
    [|by apply (step_picked Processing picked_readiness 2 2 AwaitingPacking 3)].
  eapply (history_step _ _ Packing) in H; [|by apply step_begin_packing].
  eapply (history_step _ _ AwaitingShipment) in H;
    [|by apply (step_complete_packing Packing packed_progress AwaitingShipment)].
  by eapply (history_step _ _ Shipped) in H; [|apply ship_from_awaiting_shipment].
Qed.

Lemma shipped_history_witness :
  history sample_history Shipped ∧
  [Processing; AwaitingPacking; Packing; AwaitingShipment; Shipped] `sublist_of` sample_history.
Proof. split; [exact sample_history_ok|apply shipped_history, sample_history_ok]. Defined.
