(* ===== verification/CellTypes.v ===== *)
(** * Data cells and tenant moves: types ([crates/domain/src/data_cell.rs] and
      [data_cell_move.rs])

    A data cell is a deployment that holds tenants; a tenant moves from one cell to
    another through a governed protocol. The file has the validated values of both
    modules, the two status machines, WAL positions with their text form, and the
    evidence that a move must present. *)

From S2P Require Import Prelude.
From S2P Require Import RustStr.

(** ** Data cells ([data_cell.rs]) *)

Definition MAX_DATA_CELL_KEY_LENGTH : Z := 63.
Definition MAX_DATA_CELL_NAME_LENGTH : Z := 200.
Definition MAX_DATA_CELL_REGION_LENGTH : Z := 32.
Definition MAX_DATA_RESIDENCY_CODE_LENGTH : Z := 16.
Definition MAX_DATA_CELL_REASON_LENGTH : Z := 500.
Definition MAX_DATA_CELL_TENANTS : Z := 1000000.

Inductive DataCellStatus := Provisioning | Active | Draining | Retired.
Inductive DataCellMode := Shared | Dedicated.

Inductive DataCellError :=
| DcInvalidText (field : string)
| DcControlCharacter (field : string)
| DcTooLong (field : string) (max : Z)
| InvalidKey
| InvalidRegion
| InvalidResidency
| InvalidCapacity
| InvalidDedicatedCapacity
| DcInvalidRevision
| DcInvalidTransition (from to : DataCellStatus).

#[global] Instance DataCellStatus_eq_dec : EqDecision DataCellStatus.
Proof. solve_decision. Defined.
#[global] Instance DataCellMode_eq_dec : EqDecision DataCellMode.
Proof. solve_decision. Defined.

(** The check that [text] of [data_cell.rs] and [bounded_text] of
    [data_cell_move.rs] make, each with its module's errors. *)
Definition bounded_text {E} (invalid_text control_character : E) (too_long : Z → E)
    (max : Z) (value : rstr) : result rstr E :=
  if bool_decide (trim value = []) || negb (bool_decide (trim value = value)) then Err invalid_text
  else if existsb is_control value then Err control_character
  else if max <? chars_count value then Err (too_long max)
  else Ok value.

Definition text (field : string) (max : Z) : rstr → result rstr DataCellError :=
  bounded_text (DcInvalidText field) (DcControlCharacter field) (DcTooLong field) max.

Definition DataCellName_new : rstr → result rstr DataCellError :=
  text "data-cell name" MAX_DATA_CELL_NAME_LENGTH.
Definition DataCellReason_new : rstr → result rstr DataCellError :=
  text "data-cell reason" MAX_DATA_CELL_REASON_LENGTH.

(** [starts_with('-') || ends_with('-')] *)
Definition hyphen_at_edge (value : rstr) : bool :=
  bool_decide (head value = Some 45) || bool_decide (last value = Some 45).

Definition lower_code_byte (b : Z) : bool := is_ascii_lowercase b || is_ascii_digit b || (b =? 45).
Definition upper_code_byte (b : Z) : bool := is_ascii_uppercase b || is_ascii_digit b || (b =? 45).

Definition DataCellKey_new (value : rstr) : result rstr DataCellError :=
  if negb ((3 <=? str_len value) && (str_len value <=? MAX_DATA_CELL_KEY_LENGTH))
     || hyphen_at_edge value || negb (forallb lower_code_byte (as_bytes value))
  then Err InvalidKey else Ok value.

Definition DataCellRegion_new (value : rstr) : result rstr DataCellError :=
  if bool_decide (value = []) || (MAX_DATA_CELL_REGION_LENGTH <? str_len value)
     || hyphen_at_edge value || negb (forallb lower_code_byte (as_bytes value))
  then Err InvalidRegion else Ok value.

Definition DataResidencyCode_new (value : rstr) : result rstr DataCellError :=
  if bool_decide (value = []) || (MAX_DATA_RESIDENCY_CODE_LENGTH <? str_len value)
     || hyphen_at_edge value || negb (forallb upper_code_byte (as_bytes value))
  then Err InvalidResidency else Ok value.

(** [DataResidencyCode::allows] *)
Definition allows (self actual : rstr) : bool :=
  bool_decide (self = lit "GLOBAL") || bool_decide (self = actual).

Definition DataCellCapacity_new (value : Z) : result Z DataCellError :=
  if (1 <=? value) && (value <=? MAX_DATA_CELL_TENANTS) then Ok value else Err InvalidCapacity.

Definition DataCellRevision_new (value : Z) : result Z DataCellError :=
  positive_new (fun _ => DcInvalidRevision) value.
Definition DataCellPlacementRevision_new (value : Z) : result Z DataCellError :=
  positive_new (fun _ => DcInvalidRevision) value.

(** [checked_next] of both revisions: the next value passes [new] again. *)
Definition cell_revision_next (self : Z) : option Z :=
  match i64_checked_add self 1 with
  | Some value => match DataCellRevision_new value with Ok r => Some r | Err _ => None end
  | None => None
  end.

Definition validate_capacity (self : DataCellMode) (capacity : Z) : result unit DataCellError :=
  if bool_decide (self = Dedicated) && negb (capacity =? 1) then Err InvalidDedicatedCapacity
  else Ok tt.

Definition require_cell_transition (self next : DataCellStatus) : result unit DataCellError :=
  match self, next with
  | Provisioning, Active | Active, Draining | Draining, Active | Draining, Retired => Ok tt
  | _, _ => Err (DcInvalidTransition self next)
  end.

Definition DataCellStatus_as_str (self : DataCellStatus) : string :=
  match self with
  | Provisioning => "provisioning" | Active => "active" | Draining => "draining" | Retired => "retired"
  end.
Definition DataCellStatus_parse (value : string) : option DataCellStatus :=
  str_match value [("provisioning", Provisioning); ("active", Active); ("draining", Draining);
                   ("retired", Retired)].
#[export] Instance DataCellStatus_stored : StoredName DataCellStatus.
Proof.
  refine {| as_str := DataCellStatus_as_str; parse := DataCellStatus_parse |}. solve_stored_name.
Defined.

Definition DataCellMode_as_str (self : DataCellMode) : string :=
  match self with Shared => "shared" | Dedicated => "dedicated" end.
Definition DataCellMode_parse (value : string) : option DataCellMode :=
  str_match value [("shared", Shared); ("dedicated", Dedicated)].
#[export] Instance DataCellMode_stored : StoredName DataCellMode.
Proof.
  refine {| as_str := DataCellMode_as_str; parse := DataCellMode_parse |}. solve_stored_name.
Defined.

(** ** Moves ([data_cell_move.rs]) *)

Definition MAX_TENANT_CELL_MOVE_REASON_LENGTH : Z := 500.
Definition MAX_TENANT_CELL_MOVE_COPY_REFERENCE_LENGTH : Z := 200.
Definition MAX_TENANT_CELL_MOVE_ROUTING_REFERENCE_LENGTH : Z := 200.
Definition MAX_TENANT_CELL_MOVE_TOOL_VERSION_LENGTH : Z := 100.

Inductive TenantCellMoveStatus :=
| Planned | Copying | Frozen | Validated | CutOver | Completed | Cancelled | RolledBack.

#[global] Instance TenantCellMoveStatus_eq_dec : EqDecision TenantCellMoveStatus.
Proof. solve_decision. Defined.

Inductive TenantCellMoveError :=
| InvalidText (field : string)
| ControlCharacter (field : string)
| TooLong (field : string) (max : Z)
| InvalidRevision
| InvalidSha256Checksum
| InvalidPostgresLsn
| NegativeMeasurement (field : string)
| CheckpointTargetAhead
| ValidationTargetBehind
| ValidationRowCountMismatch
| ValidationChecksumMismatch (kind : string)
| ValidationControlMissing (control : string)
| InvalidTransition (from to : TenantCellMoveStatus).

Definition move_text (field : string) (max : Z) : rstr → result rstr TenantCellMoveError :=
  bounded_text (InvalidText field) (ControlCharacter field) (TooLong field) max.

Definition TenantCellMoveReason_new : rstr → result rstr TenantCellMoveError :=
  move_text "tenant cell move reason" MAX_TENANT_CELL_MOVE_REASON_LENGTH.
Definition TenantCellMoveCopyReference_new : rstr → result rstr TenantCellMoveError :=
  move_text "tenant cell move copy reference" MAX_TENANT_CELL_MOVE_COPY_REFERENCE_LENGTH.
Definition TenantCellMoveRoutingReference_new : rstr → result rstr TenantCellMoveError :=
  move_text "tenant cell move routing reference" MAX_TENANT_CELL_MOVE_ROUTING_REFERENCE_LENGTH.
Definition TenantCellMoveToolVersion_new : rstr → result rstr TenantCellMoveError :=
  move_text "tenant cell move validation tool version" MAX_TENANT_CELL_MOVE_TOOL_VERSION_LENGTH.

Definition Sha256Checksum_new (value : rstr) : result rstr TenantCellMoveError :=
  if negb (str_len value =? 64)
     || negb (forallb (fun b => is_ascii_digit b || ((97 <=? b) && (b <=? 102))) (as_bytes value))
  then Err InvalidSha256Checksum else Ok value.

Definition TenantCellMoveRevision_new (value : Z) : result Z TenantCellMoveError :=
  positive_new (fun _ => InvalidRevision) value.

Definition TenantCellMoveStatus_as_str (self : TenantCellMoveStatus) : string :=
  match self with
  | Planned => "planned" | Copying => "copying" | Frozen => "frozen" | Validated => "validated"
  | CutOver => "cut_over" | Completed => "completed" | Cancelled => "cancelled"
  | RolledBack => "rolled_back"
  end.
Definition TenantCellMoveStatus_parse (value : string) : option TenantCellMoveStatus :=
  str_match value [("planned", Planned); ("copying", Copying); ("frozen", Frozen);
    ("validated", Validated); ("cut_over", CutOver); ("completed", Completed);
    ("cancelled", Cancelled); ("rolled_back", RolledBack)].
#[export] Instance TenantCellMoveStatus_stored : StoredName TenantCellMoveStatus.
Proof.
  refine {| as_str := TenantCellMoveStatus_as_str; parse := TenantCellMoveStatus_parse |}. solve_stored_name.
Defined.

Definition is_write_fenced (self : TenantCellMoveStatus) : bool :=
  match self with Frozen | Validated | CutOver => true | _ => false end.

Definition require_transition (self next : TenantCellMoveStatus) : result unit TenantCellMoveError :=
  match self, next with
  | Planned, Copying | Copying, Frozen | Frozen, Validated | Validated, CutOver
  | CutOver, Completed | CutOver, RolledBack
  | (Planned | Copying | Frozen | Validated), Cancelled => Ok tt
  | _, _ => Err (InvalidTransition self next)
  end.

(** *** Positions in the write-ahead log: [PostgresLsn], a [u64] *)

(** [char::to_digit(16)] *)
Definition hex_digit_value (c : Z) : option Z :=
  if is_ascii_digit c then Some (c - 48)
  else if (65 <=? c) && (c <=? 70) then Some (c - 55)
  else if (97 <=? c) && (c <=? 102) then Some (c - 87)
  else None.

(** [u32::from_str_radix(value, 16)] of a text without a sign. *)
Fixpoint hex_value (acc : Z) (value : rstr) : option Z :=
  match value with
  | [] => Some acc
  | c :: value =>
      match hex_digit_value c with
      | Some d => match checked 0 u32_max (acc * 16 + d) with
                  | Some acc => hex_value acc value
                  | None => None
                  end
      | None => None
      end
  end.
Definition u32_from_hex (value : rstr) : option Z :=
  if bool_decide (value = []) then None else hex_value 0 value.

Definition PostgresLsn_from_str (value : rstr) : result Z TenantCellMoveError :=
  match split_once 47 value with
  | None => Err InvalidPostgresLsn
  | Some (upper, lower) =>
      if bool_decide (upper = []) || bool_decide (lower = [])
         || (8 <? str_len upper) || (8 <? str_len lower)
         || bool_decide (47 ∈ lower)
         || negb (forallb is_ascii_hexdigit (as_bytes upper))
         || negb (forallb is_ascii_hexdigit (as_bytes lower))
      then Err InvalidPostgresLsn
      else
        let? upper := ok_or (u32_from_hex upper) InvalidPostgresLsn in
        let? lower := ok_or (u32_from_hex lower) InvalidPostgresLsn in
        Ok (Z.lor (Z.shiftl upper 32) lower)
  end.

(** [{:X}]: upper-case digits without leading zeros; [fuel] is at least the number
    of digits. *)
Definition hex_char (d : Z) : Z := if d <? 10 then 48 + d else 55 + d.
Fixpoint hex_digits (fuel : nat) (n : Z) : rstr :=
  match fuel with
  | O => []
  | S fuel => (if n <? 16 then [] else hex_digits fuel (n / 16)) ++ [hex_char (n mod 16)]
  end.

(** [Display for PostgresLsn] *)
Definition PostgresLsn_to_string (self : Z) : rstr :=
  hex_digits 16 (Z.shiftr self 32) ++ [47] ++ hex_digits 16 (Z.land self u32_max).

(** *** Evidence *)

Definition require_nonnegative (value : Z) (field : string) : result unit TenantCellMoveError :=
  if value <? 0 then Err (NegativeMeasurement field) else Ok tt.

Definition require_equal_checksum (source target : rstr) (kind : string) :
    result unit TenantCellMoveError :=
  if bool_decide (source = target) then Ok tt else Err (ValidationChecksumMismatch kind).

Definition require_control (value : bool) (control : string) : result unit TenantCellMoveError :=
  if value then Ok tt else Err (ValidationControlMissing control).

Record TenantCellMoveCheckpoint := MkCheckpoint {
  cp_source_lsn : Z;
  cp_target_replay_lsn : Z;
  cp_copied_row_count : Z;
  cp_copied_bytes : Z;
}.

Definition TenantCellMoveCheckpoint_new (input : TenantCellMoveCheckpoint) :
    result TenantCellMoveCheckpoint TenantCellMoveError :=
  let? _ := require_nonnegative (cp_copied_row_count input) "copied row count" in
  let? _ := require_nonnegative (cp_copied_bytes input) "copied bytes" in
  if cp_source_lsn input <? cp_target_replay_lsn input then Err CheckpointTargetAhead
  else Ok input.

Record TenantCellMoveValidation := MkValidation {
  va_tool_version : rstr;
  va_source_lsn : Z;
  va_target_replay_lsn : Z;
  va_source_row_count : Z;
  va_target_row_count : Z;
  va_source_data_checksum : rstr;
  va_target_data_checksum : rstr;
  va_source_schema_checksum : rstr;
  va_target_schema_checksum : rstr;
  va_source_object_manifest_checksum : rstr;
  va_target_object_manifest_checksum : rstr;
  va_inventory_reconciled : bool;
  va_idempotency_verified : bool;
  va_outbox_verified : bool;
}.

Definition TenantCellMoveValidation_new (input : TenantCellMoveValidation) :
    result TenantCellMoveValidation TenantCellMoveError :=
  let? _ := require_nonnegative (va_source_row_count input) "source row count" in
  let? _ := require_nonnegative (va_target_row_count input) "target row count" in
  if va_target_replay_lsn input <? va_source_lsn input then Err ValidationTargetBehind
  else if negb (va_source_row_count input =? va_target_row_count input)
  then Err ValidationRowCountMismatch
  else
    let? _ := require_equal_checksum (va_source_data_checksum input)
                (va_target_data_checksum input) "data" in
    let? _ := require_equal_checksum (va_source_schema_checksum input)
                (va_target_schema_checksum input) "schema" in
    let? _ := require_equal_checksum (va_source_object_manifest_checksum input)
                (va_target_object_manifest_checksum input) "object-manifest" in
    let? _ := require_control (va_inventory_reconciled input) "inventory reconciliation" in
    let? _ := require_control (va_idempotency_verified input) "idempotency" in
    let? _ := require_control (va_outbox_verified input) "outbox" in
    Ok input.

Record TenantCellMoveCutoverVerification := MkCutoverVerification {
  cv_tool_version : rstr;
  cv_routing_reference : rstr;
  cv_observed_data_cell_id : Z;
  cv_observed_placement_revision : Z;
  cv_routing_verified : bool;
  cv_target_read_verified : bool;
  cv_write_fence_verified : bool;
  cv_inventory_reconciled : bool;
  cv_idempotency_verified : bool;
  cv_outbox_verified : bool;
}.

Definition TenantCellMoveCutoverVerification_new (input : TenantCellMoveCutoverVerification) :
    result TenantCellMoveCutoverVerification TenantCellMoveError :=
  let? _ := require_control (cv_routing_verified input) "tenant routing" in
  let? _ := require_control (cv_target_read_verified input) "target-cell reads" in
  let? _ := require_control (cv_write_fence_verified input) "tenant write fence" in
  let? _ := require_control (cv_inventory_reconciled input) "inventory reconciliation" in
  let? _ := require_control (cv_idempotency_verified input) "idempotency" in
  let? _ := require_control (cv_outbox_verified input) "outbox" in
  Ok input.

Record TenantCellMoveRollbackVerification := MkRollbackVerification {
  rv_tool_version : rstr;
  rv_routing_reference : rstr;
  rv_observed_data_cell_id : Z;
  rv_expected_rollback_placement_revision : Z;
  rv_routing_verified : bool;
  rv_source_read_verified : bool;
  rv_write_fence_verified : bool;
  rv_inventory_reconciled : bool;
  rv_idempotency_verified : bool;
  rv_outbox_verified : bool;
}.

Definition TenantCellMoveRollbackVerification_new (input : TenantCellMoveRollbackVerification) :
    result TenantCellMoveRollbackVerification TenantCellMoveError :=
  let? _ := require_control (rv_routing_verified input) "tenant routing" in
  let? _ := require_control (rv_source_read_verified input) "source-cell reads" in
  let? _ := require_control (rv_write_fence_verified input) "tenant write fence" in
  let? _ := require_control (rv_inventory_reconciled input) "inventory reconciliation" in
  let? _ := require_control (rv_idempotency_verified input) "idempotency" in
  let? _ := require_control (rv_outbox_verified input) "outbox" in
  Ok input.

(** ** Laws *)

Lemma cell_text_ok {E} (e1 e2 : E) e3 max value v :
  bounded_text e1 e2 e3 max value = Ok v ↔
  v = value ∧ trim value = value ∧ value ≠ [] ∧ Forall (fun c => is_control c = false) value ∧
  chars_count value ≤ max.
Proof.
  unfold bounded_text. split.
  - intros H. case_bool_decide as E1; [done|]. case_bool_decide as E2; [|done]. cbn in H. run H.
    split_and!; try done; [congruence|].
    apply Forall_forall. intros c Hc. apply not_true_iff_false. intros Hx.
    assert (existsb is_control v = true); [|congruence].
    apply existsb_exists. exists c. split; [by apply list_elem_of_In|done].
  - intros (-> & Ht & Hne & Hc & Hm). rewrite Ht, bool_decide_false, bool_decide_true by done. cbn.
    destruct (existsb is_control value) eqn:Ec.
    + apply existsb_exists in Ec as (c & Hin%list_elem_of_In & Ex).
      rewrite Forall_forall in Hc. specialize (Hc c Hin). congruence.
    + by rewrite (proj2 (Z.ltb_ge _ _)).
Qed.

Lemma require_control_ok b c u : require_control b c = Ok u ↔ b = true.
Proof. destruct b, u; done. Qed.

Lemma require_equal_checksum_ok s t k u : require_equal_checksum s t k = Ok u ↔ s = t.
Proof. unfold require_equal_checksum. destruct u. case_bool_decide; naive_solver. Qed.

Lemma require_nonnegative_ok z f u : require_nonnegative z f = Ok u ↔ 0 ≤ z.
Proof. unfold require_nonnegative. destruct u, (z <? 0) eqn:E; bool_to_prop; naive_solver lia. Qed.

(** What an accepted validation proves: the target has replayed all of the source's
    log, and rows, schema and objects agree. *)
Definition parity (v : TenantCellMoveValidation) : Prop :=
  va_source_lsn v ≤ va_target_replay_lsn v ∧
  0 ≤ va_source_row_count v ∧ va_source_row_count v = va_target_row_count v ∧
  va_source_data_checksum v = va_target_data_checksum v ∧
  va_source_schema_checksum v = va_target_schema_checksum v ∧
  va_source_object_manifest_checksum v = va_target_object_manifest_checksum v ∧
  va_inventory_reconciled v = true ∧ va_idempotency_verified v = true ∧ va_outbox_verified v = true.

Lemma TenantCellMoveValidation_new_ok i v : TenantCellMoveValidation_new i = Ok v ↔ v = i ∧ parity i.
Proof.
  unfold TenantCellMoveValidation_new, parity. split.
  - intros H. apply rbind_ok in H as (? & H1%require_nonnegative_ok & H).
    apply rbind_ok in H as (? & H2%require_nonnegative_ok & H).
    destruct (_ <? _) eqn:E1 in H; [done|]. destruct (_ =? _) eqn:E2 in H; [|done].
    cbn [negb] in H. do 3 (apply rbind_ok in H as (? & ?%require_equal_checksum_ok & H)).
    do 3 (apply rbind_ok in H as (? & ?%require_control_ok & H)). simplify_eq. bool_to_prop. split_and!; auto; lia.
  - intros (-> & H1 & H2 & H3 & H4 & H5 & H6 & H7 & H8 & H9). unfold require_nonnegative.
    rewrite !(proj2 (Z.ltb_ge _ _)) by lia. rewrite (proj2 (Z.eqb_eq _ _)) by lia. cbn [rbind negb].
    unfold require_equal_checksum. rewrite !bool_decide_true by done. by rewrite H7, H8, H9.
Qed.

Lemma TenantCellMoveCheckpoint_new_ok i c :
  TenantCellMoveCheckpoint_new i = Ok c →
  c = i ∧ cp_target_replay_lsn i ≤ cp_source_lsn i ∧ 0 ≤ cp_copied_row_count i ∧ 0 ≤ cp_copied_bytes i.
Proof.
  unfold TenantCellMoveCheckpoint_new. intros H.
  do 2 (apply rbind_ok in H as (? & ?%require_nonnegative_ok & H)).
  destruct (_ <? _) eqn:E in H; [done|]. bool_to_prop. by injection H as <-.
Qed.

(** *** The text of a WAL position *)

Lemma hex_char_value d : 0 ≤ d < 16 → hex_digit_value (hex_char d) = Some d.
Proof.
  intros H. assert (Hall : Forall (fun d => hex_digit_value (hex_char d) = Some d) (seqZ 0 16))
    by (vm_compute; repeat constructor).
  rewrite Forall_forall in Hall. apply Hall, elem_of_seqZ. lia.
Qed.

Lemma hex_value_app a s t :
  hex_value a (s ++ t) = match hex_value a s with Some b => hex_value b t | None => None end.
Proof.
  revert a. induction s as [|c s IH]; intros a; cbn; [done|].
  destruct (hex_digit_value c); [|done]. destruct (checked _ _ _); auto.
Qed.

Lemma hex_digit_value_range c d : hex_digit_value c = Some d → 0 ≤ d < 16.
Proof. unfold hex_digit_value, is_ascii_digit. intros H. run H; lia. Qed.

Lemma hex_value_range a s v : hex_value a s = Some v → 0 ≤ a ≤ u32_max → 0 ≤ v ≤ u32_max.
Proof.
  revert a. induction s as [|c s IH]; intros a; cbn; [by intros [= ->]|].
  destruct (hex_digit_value c); [|done]. destruct (checked _ _ _) as [b|] eqn:E; [|done].
  apply checked_Some in E as [-> E]. intros H _. by eapply IH.
Qed.

Lemma u32_from_hex_range s v : u32_from_hex s = Some v → 0 ≤ v ≤ u32_max.
Proof. unfold u32_from_hex. case_bool_decide; [done|]. intros Hv. apply (hex_value_range _ _ _ Hv). range_lia. Qed.

Definition hex_upper_char (c : Z) : Prop := 48 ≤ c ≤ 57 ∨ 65 ≤ c ≤ 70.

Lemma hex_char_upper d : 0 ≤ d < 16 → hex_upper_char (hex_char d).
Proof. unfold hex_char, hex_upper_char. intros. destruct (d <? 10) eqn:E; bool_to_prop; lia. Qed.

Lemma hex_digits_chars k n : 0 ≤ n → Forall hex_upper_char (hex_digits k n).
Proof.
  revert n. induction k as [|k IH]; intros n Hn; cbn [hex_digits]; [constructor|].
  apply Forall_app. split; [|constructor; [apply hex_char_upper, Z.mod_pos_bound; lia|done]].
  destruct (n <? 16); [constructor|]. apply IH, Z.div_pos; lia.
Qed.

Lemma hex_digits_nonempty k n : hex_digits (S k) n ≠ [].
Proof. cbn [hex_digits]. intros [_ ?]%app_eq_nil. done. Qed.

Lemma hex_digits_length k m n : 0 ≤ n < 16 ^ Z.of_nat (S m) → (length (hex_digits k n) ≤ S m)%nat.
Proof.
  revert k n. induction m as [|m IH]; intros k n Hn; (destruct k as [|k]; cbn [hex_digits]; [cbn; lia|]);
    rewrite length_app; cbn [length]; destruct (n <? 16) eqn:E; bool_to_prop; cbn [length]; try lia.
  rewrite Nat2Z.inj_succ, Z.pow_succ_r in Hn by lia.
  assert (length (hex_digits k (n / 16)) ≤ S m)%nat; [|lia]. apply IH.
  split; [apply Z.div_pos; lia|apply Z.div_lt_upper_bound; lia].
Qed.

Lemma hex_digits_value k n : 0 ≤ n < 16 ^ Z.of_nat k → n ≤ u32_max → hex_value 0 (hex_digits k n) = Some n.
Proof.
  revert n. induction k as [|k IH]; intros n Hn Hu; cbn [hex_digits]; [cbn in *; f_equal; lia|].
  rewrite hex_value_app. pose proof (Z.mod_pos_bound n 16 ltac:(lia)).
  assert (Hpre : hex_value 0 (if n <? 16 then [] else hex_digits k (n / 16)) = Some (n / 16)).
  { destruct (n <? 16) eqn:E; bool_to_prop; [cbn; by rewrite Z.div_small by lia|].
    rewrite Nat2Z.inj_succ, Z.pow_succ_r in Hn by lia.
    apply IH; [split; [apply Z.div_pos; lia|apply Z.div_lt_upper_bound; lia]|].
    etrans; [|exact Hu]. apply Z.div_le_upper_bound; lia. }
  rewrite Hpre. cbn [hex_value]. rewrite hex_char_value by lia.
  assert (n / 16 * 16 + n mod 16 = n) as -> by (pose proof (Z.div_mod n 16); lia).
  rewrite checked_in; [done|lia].
Qed.

Lemma hex_upper_ascii s : Forall hex_upper_char s → Forall (fun c => 0 ≤ c < 128) s.
Proof. intros H. eapply Forall_impl; [exact H|]. unfold hex_upper_char. intros. lia. Qed.

Lemma hex_upper_digits s : Forall hex_upper_char s → forallb is_ascii_hexdigit s = true.
Proof.
  intros H. apply forallb_forall. intros c Hc%list_elem_of_In. rewrite Forall_forall in H.
  specialize (H c Hc). unfold is_ascii_hexdigit, is_ascii_digit.
  destruct H; [rewrite (proj2 (Z.leb_le 48 c)), (proj2 (Z.leb_le c 57)) by lia; done|].
  rewrite (proj2 (Z.leb_le 65 c)), (proj2 (Z.leb_le c 70)) by lia. cbn. by rewrite orb_true_r.
Qed.

Lemma u64_split v : in_u64 v → 0 ≤ Z.shiftr v 32 ≤ u32_max ∧ 0 ≤ Z.land v u32_max ≤ u32_max ∧
  Z.lor (Z.shiftl (Z.shiftr v 32) 32) (Z.land v u32_max) = v.
Proof.
  intros Hv. change u32_max with (Z.ones 32). rewrite Z.land_ones by lia.
  rewrite Z.shiftr_div_pow2 by lia. pose proof (Z.mod_pos_bound v (2 ^ 32) ltac:(lia)) as Hm.
  split_and!.
  - apply Z.div_pos; range_lia.
  - change (Z.ones 32) with 4294967295. assert (v / 2 ^ 32 < 4294967296); [|lia].
    apply Z.div_lt_upper_bound; range_lia.
  - lia.
  - change (Z.ones 32) with 4294967295. change (2 ^ 32) with 4294967296 in *. lia.
  - apply Z.bits_inj'. intros i Hi. rewrite Z.lor_spec.
    destruct (Z.ltb_spec i 32) as [Hlt|Hge].
    + rewrite Z.shiftl_spec_low by lia. cbn. rewrite <-Z.land_ones, Z.land_spec by lia.
      rewrite Z.ones_spec_low by lia. by rewrite andb_true_r.
    + rewrite Z.shiftl_spec by lia. rewrite <-Z.shiftr_div_pow2, Z.shiftr_spec by lia.
      rewrite <-Z.land_ones, Z.land_spec, Z.ones_spec_high by lia.
      rewrite andb_false_r, orb_false_r. f_equal. lia.
Qed.

Lemma u64_join u l : 0 ≤ u ≤ u32_max → 0 ≤ l ≤ u32_max → in_u64 (Z.lor (Z.shiftl u 32) l).
Proof.
  intros Hu Hl. split; [apply Z.lor_nonneg; split; [apply Z.shiftl_nonneg|]; lia|].
  apply Z.lt_succ_r. change (Z.succ u64_max) with (2 ^ 64).
  destruct (Z.eq_dec (Z.lor (Z.shiftl u 32) l) 0) as [->|Hne]; [lia|].
  assert (0 < Z.lor (Z.shiftl u 32) l) by
    (assert (0 ≤ Z.lor (Z.shiftl u 32) l); [apply Z.lor_nonneg; split; [apply Z.shiftl_nonneg|]; lia|lia]).
  apply Z.log2_lt_pow2; [done|]. rewrite Z.log2_lor by (rewrite ?Z.shiftl_nonneg; lia).
  assert (Hlog : ∀ z, 0 ≤ z ≤ u32_max → Z.log2 z < 32).
  { intros z Hz. destruct (Z.eq_dec z 0) as [->|]; [cbn; lia|]. apply Z.log2_lt_pow2; range_lia. }
  apply Z.max_lub_lt; [|specialize (Hlog l Hl); lia].
  destruct (Z.eq_dec u 0) as [->|]; [rewrite Z.shiftl_0_l; cbn; lia|].
  rewrite Z.log2_shiftl by lia. specialize (Hlog u Hu). lia.
Qed.

(** The text of a WAL position reads back as the position, for every [u64]; what
    the parser accepts is a [u64], and printing it gives another text of the same
    position. *)
Theorem lsn_roundtrip :
  (∀ v, in_u64 v → PostgresLsn_from_str (PostgresLsn_to_string v) = Ok v) ∧
  (∀ s v, PostgresLsn_from_str s = Ok v → in_u64 v).
Proof.
  split.
  - intros v Hv. destruct (u64_split v Hv) as (Hu & Hl & E). unfold PostgresLsn_from_str, PostgresLsn_to_string.
    set (u := Z.shiftr v 32) in *. set (l := Z.land v u32_max) in *.
    assert (H16 : u32_max < 16 ^ Z.of_nat 8) by (unfold u32_max; vm_compute; reflexivity).
    assert (H64 : u32_max < 16 ^ Z.of_nat 16) by (unfold u32_max; vm_compute; reflexivity).
    pose proof (hex_digits_chars 16 u (proj1 Hu)) as Cu. pose proof (hex_digits_chars 16 l (proj1 Hl)) as Cl.
    pose proof (hex_digits_length 16 7 u ltac:(lia)) as Lu. pose proof (hex_digits_length 16 7 l ltac:(lia)) as Ll.
    pose proof (hex_digits_value 16 u ltac:(lia) ltac:(lia)) as Vu.
    pose proof (hex_digits_value 16 l ltac:(lia) ltac:(lia)) as Vl.
    pose proof (hex_digits_nonempty 15 u) as Nu. pose proof (hex_digits_nonempty 15 l) as Nl.
    set (a := hex_digits 16 u) in *. set (b := hex_digits 16 l) in *.
    cbn [app]. rewrite split_once_app by (eapply Forall_impl; [exact Cu|]; unfold hex_upper_char; intros; lia).
    rewrite (bool_decide_false (a = [])), (bool_decide_false (b = [])) by done.
    rewrite !str_len_ascii by (by apply hex_upper_ascii). rewrite !as_bytes_ascii by (by apply hex_upper_ascii).
    rewrite !(proj2 (Z.ltb_ge _ _)) by lia. rewrite !hex_upper_digits by done.
    rewrite bool_decide_false.
    2:{ intros Hin. rewrite Forall_forall in Cl. specialize (Cl _ Hin). unfold hex_upper_char in Cl. lia. }
    cbn [negb orb]. unfold u32_from_hex. rewrite !bool_decide_false by done. rewrite Vu, Vl. cbn. by rewrite E.
  - intros s v. unfold PostgresLsn_from_str. destruct (split_once 47 s) as [[a b]|]; [|done].
    destruct (_ || _) in |- *; [done|]. intros H.
    apply rbind_ok in H as (u & Hu & H). apply rbind_ok in H as (l & Hl & H). injection H as <-.
    destruct (u32_from_hex a) as [u'|] eqn:Eu; [|done]. destruct (u32_from_hex b) as [l'|] eqn:El; [|done].
    injection Hu as ->. injection Hl as ->. by apply u64_join; eapply u32_from_hex_range.
Qed.
