(* ===== verification/CellDb.v ===== *)
(** * Data cells and tenant moves: the handlers ([crates/api/src/repo/data_cells] and
      [tenant_cell_moves/commands.rs])

    The registry of cells, the placement of tenants and the moves between cells, each
    handler as a function of the tables it reads and writes. The placement itself is
    changed by a function of the database ([apply_tenant_cell_move_placement] in
    [migrations/postgres/0001_baseline.sql]), a new tenant is placed by a trigger of
    the same file, a statement trigger refuses writes of a fenced tenant, and the
    evidence of a validation is checked against the last checkpoint by a trigger
    too; all four are translated. Instants, actors, free texts and the JSON evidence are only
    written and are left out; generated ids are the counters of the tables. *)

From stdpp Require Import pretty.
From S2P Require Import Prelude.
From S2P Require Import RustStr.
From S2P Require Import Idempotency.
From S2P Require Import Outbox.
From S2P Require Import CellTypes.

(** [AppError] of [crates/api/src/error.rs]. [InvalidStateTransition] carries a text there:
    here the error it was printed from, or ([InvalidState]) the literal itself. *)
Inductive AppError :=
| Application (e : ApplicationError)
| RevisionConflict (why : string)
| InvalidStateTransition (e : TenantCellMoveError)
| InvalidState (why : string)
| Db (why : string).

Definition conflict (why : string) : AppError := Application (Conflict why).
Definition bad_request (why : string) : AppError := Application (InvalidRequest why).
Definition not_found (what : string) : AppError := Application (NotFound what).
Definition internal (why : string) : AppError := Application (Internal why).

(** ** Tables *)

Record DataCellRow := MkCell {
  cell_key : rstr;
  cell_name : rstr;
  cell_region : rstr;
  cell_residency : rstr;
  cell_mode : DataCellMode;
  cell_status : DataCellStatus;
  cell_revision : Z;
  cell_max_tenants : Z;
}.

Record PlacementRow := MkPlacement {
  placement_cell : Z;
  placement_revision : Z;
  placement_residency : rstr;
}.

(** [tenant_cell_moves], as [LockedMove] reads it. *)
Record MoveRow := MkMove {
  move_tenant : Z;
  source_data_cell_id : Z;
  target_data_cell_id : Z;
  source_placement_revision : Z;
  cutover_placement_revision : option Z;
  rollback_placement_revision : option Z;
  residency_requirement : rstr;
  move_status : TenantCellMoveStatus;
  move_revision : Z;
  latest_source_lsn : option Z;
  latest_target_replay_lsn : option Z;
  copied_row_count : option Z;
  copied_bytes : option Z;
  checkpointed : bool;
  post_cutover_verified : bool;
}.

Inductive MoveAction :=
| PlannedAction | CopyStarted | CheckpointRecorded | WritesFrozen | ValidatedAction
| CutOverAction | PostCutoverVerified | CompletedAction | RolledBackAction | CancelledAction.

#[global] Instance MoveAction_eq_dec : EqDecision MoveAction.
Proof. solve_decision. Defined.

Definition action_str (self : MoveAction) : string :=
  match self with
  | PlannedAction => "planned" | CopyStarted => "copy_started"
  | CheckpointRecorded => "checkpoint_recorded" | WritesFrozen => "writes_frozen"
  | ValidatedAction => "validated" | CutOverAction => "cut_over"
  | PostCutoverVerified => "post_cutover_verified" | CompletedAction => "completed"
  | RolledBackAction => "rolled_back" | CancelledAction => "cancelled"
  end.

Record MoveEvent := MkMoveEvent {
  event_move : Z;
  event_tenant : Z;
  event_action : MoveAction;
  event_revision : Z;
  event_previous : option TenantCellMoveStatus;
  event_resulting : TenantCellMoveStatus;
}.

Record CellEvent := MkCellEvent {
  event_cell : Z;
  event_cell_revision : Z;
  event_cell_previous : option DataCellStatus;
  event_cell_resulting : DataCellStatus;
}.

Record FenceRow := MkFence { fence_move : Z; fence_epoch : Z }.

Record CellDb := MkDb {
  data_cells : gmap Z DataCellRow;
  placements : gmap Z PlacementRow;
  moves : gmap Z MoveRow;
  fences : gmap Z FenceRow;
  validations : gmap Z TenantCellMoveValidation;
  cutover_verifications : gmap Z TenantCellMoveCutoverVerification;
  rollback_verifications : gmap Z TenantCellMoveRollbackVerification;
  move_events : list MoveEvent;
  cell_events : list CellEvent;
  outboxes : gmap Z (OutboxTables (MoveEvent + CellEvent));
  next_cell : Z;
  next_move : Z;
}.

(** ** Counting rows *)

Definition reserves_inbound (cell : Z) (m : MoveRow) : bool :=
  (target_data_cell_id m =? cell)
  && match move_status m with Planned | Copying | Frozen | Validated => true | _ => false end.
Definition reserves_rollback (cell : Z) (m : MoveRow) : bool :=
  (source_data_cell_id m =? cell) && bool_decide (move_status m = CutOver).
Definition is_active_move (m : MoveRow) : bool :=
  match move_status m with Planned | Copying | Frozen | Validated | CutOver => true | _ => false end.

Definition placement_count (db : CellDb) (cell : Z) : Z :=
  count_rows (fun _ p => placement_cell p =? cell) (placements db).
(** The reservations of a cell; the move [except] is not counted. *)
Definition reserved_move_count (db : CellDb) (except : option Z) (cell : Z) : Z :=
  count_rows (fun id m => negb (bool_decide (except = Some id))
                          && (reserves_inbound cell m || reserves_rollback cell m)) (moves db).
Definition reserved_inbound_move_count (db : CellDb) (cell : Z) : Z :=
  count_rows (fun _ m => reserves_inbound cell m) (moves db).
Definition reserved_rollback_move_count (db : CellDb) (cell : Z) : Z :=
  count_rows (fun _ m => reserves_rollback cell m) (moves db).

(** ** Writing rows *)

Definition set_cells cs db := MkDb cs (placements db) (moves db) (fences db) (validations db)
  (cutover_verifications db) (rollback_verifications db) (move_events db) (cell_events db)
  (outboxes db) (next_cell db) (next_move db).
Definition set_placements ps db := MkDb (data_cells db) ps (moves db) (fences db) (validations db)
  (cutover_verifications db) (rollback_verifications db) (move_events db) (cell_events db)
  (outboxes db) (next_cell db) (next_move db).
Definition set_moves ms db := MkDb (data_cells db) (placements db) ms (fences db) (validations db)
  (cutover_verifications db) (rollback_verifications db) (move_events db) (cell_events db)
  (outboxes db) (next_cell db) (next_move db).
Definition set_fences fs db := MkDb (data_cells db) (placements db) (moves db) fs (validations db)
  (cutover_verifications db) (rollback_verifications db) (move_events db) (cell_events db)
  (outboxes db) (next_cell db) (next_move db).
Definition set_validations vs db := MkDb (data_cells db) (placements db) (moves db) (fences db) vs
  (cutover_verifications db) (rollback_verifications db) (move_events db) (cell_events db)
  (outboxes db) (next_cell db) (next_move db).
Definition set_cutovers vs db := MkDb (data_cells db) (placements db) (moves db) (fences db)
  (validations db) vs (rollback_verifications db) (move_events db) (cell_events db)
  (outboxes db) (next_cell db) (next_move db).
Definition set_rollbacks vs db := MkDb (data_cells db) (placements db) (moves db) (fences db)
  (validations db) (cutover_verifications db) vs (move_events db) (cell_events db)
  (outboxes db) (next_cell db) (next_move db).
Definition log_move e box db := MkDb (data_cells db) (placements db) (moves db) (fences db)
  (validations db) (cutover_verifications db) (rollback_verifications db) (move_events db ++ [e])
  (cell_events db) (<[event_tenant e := box]> (outboxes db)) (next_cell db) (next_move db).
Definition log_cell tenant e box db := MkDb (data_cells db) (placements db) (moves db) (fences db)
  (validations db) (cutover_verifications db) (rollback_verifications db) (move_events db)
  (cell_events db ++ [e]) (<[tenant := box]> (outboxes db)) (next_cell db) (next_move db).
Definition set_next_cell n db := MkDb (data_cells db) (placements db) (moves db) (fences db)
  (validations db) (cutover_verifications db) (rollback_verifications db) (move_events db)
  (cell_events db) (outboxes db) n (next_move db).
Definition set_next_move n db := MkDb (data_cells db) (placements db) (moves db) (fences db)
  (validations db) (cutover_verifications db) (rollback_verifications db) (move_events db)
  (cell_events db) (outboxes db) (next_cell db) n.

(** The cell that the migration seeds, and its event, which has no outbox copy. *)
Definition local_default : DataCellRow :=
  MkCell (lit "local-default") (lit "Local default cell") (lit "local") (lit "GLOBAL") Shared Active 1 1000000.

(** The database after its migration, without tenants. *)
Definition empty_cell_db : CellDb :=
  MkDb {[1 := local_default]} ∅ ∅ ∅ ∅ ∅ ∅ [] [MkCellEvent 1 1 None Active] ∅ 2 1.

(** An [UPDATE] of the columns that a handler sets; the others stay. *)
Definition with_move (s : TenantCellMoveStatus) (rev : Z) (m : MoveRow) : MoveRow :=
  MkMove (move_tenant m) (source_data_cell_id m) (target_data_cell_id m)
    (source_placement_revision m) (cutover_placement_revision m) (rollback_placement_revision m)
    (residency_requirement m) s rev (latest_source_lsn m) (latest_target_replay_lsn m)
    (copied_row_count m) (copied_bytes m) (checkpointed m) (post_cutover_verified m).
Definition with_checkpoint (c : TenantCellMoveCheckpoint) (m : MoveRow) : MoveRow :=
  MkMove (move_tenant m) (source_data_cell_id m) (target_data_cell_id m)
    (source_placement_revision m) (cutover_placement_revision m) (rollback_placement_revision m)
    (residency_requirement m) (move_status m) (move_revision m) (Some (cp_source_lsn c))
    (Some (cp_target_replay_lsn c)) (Some (cp_copied_row_count c)) (Some (cp_copied_bytes c))
    true (post_cutover_verified m).
Definition with_cutover (rev : Z) (m : MoveRow) : MoveRow :=
  MkMove (move_tenant m) (source_data_cell_id m) (target_data_cell_id m)
    (source_placement_revision m) (Some rev) (rollback_placement_revision m)
    (residency_requirement m) (move_status m) (move_revision m) (latest_source_lsn m)
    (latest_target_replay_lsn m) (copied_row_count m) (copied_bytes m) (checkpointed m)
    (post_cutover_verified m).
Definition with_verified (m : MoveRow) : MoveRow :=
  MkMove (move_tenant m) (source_data_cell_id m) (target_data_cell_id m)
    (source_placement_revision m) (cutover_placement_revision m) (rollback_placement_revision m)
    (residency_requirement m) (move_status m) (move_revision m) (latest_source_lsn m)
    (latest_target_replay_lsn m) (copied_row_count m) (copied_bytes m) (checkpointed m) true.
Definition with_rollback (rev : Z) (m : MoveRow) : MoveRow :=
  MkMove (move_tenant m) (source_data_cell_id m) (target_data_cell_id m)
    (source_placement_revision m) (cutover_placement_revision m) (Some rev)
    (residency_requirement m) (move_status m) (move_revision m) (latest_source_lsn m)
    (latest_target_replay_lsn m) (copied_row_count m) (copied_bytes m) (checkpointed m)
    (post_cutover_verified m).

(** ** Events: [record_tx] of the two [events.rs] *)

Definition tenant_outbox (db : CellDb) (tenant : Z) : OutboxTables (MoveEvent + CellEvent) :=
  default empty_outbox (outboxes db !! tenant).

Definition move_ordering_key (id : Z) : rstr := lit ("tenant-cell-move:" +:+ pretty id).
Definition move_event_key (id rev : Z) : rstr :=
  lit ("tenant-cell-move:" +:+ pretty id +:+ ":revision:" +:+ pretty rev).

Definition record_move_event (e : MoveEvent) (db : CellDb) : result CellDb AppError :=
  if existsb (fun f => (event_move f =? event_move e) && (event_revision f =? event_revision e))
       (move_events db)
  then Err (Db "tenant_cell_move_events")
  else
    let box := tenant_outbox db (event_tenant e) in
    let key := move_ordering_key (event_move e) in
    let? box := map_err (fun _ => internal "outbox")
      (enqueue (fun _ => true) box
         (MkEvent (move_event_key (event_move e) (event_revision e)) (lit "tenant_cell_move")
            (lit (pretty (event_move e))) key (next_outbox_sequence box key)
            (lit ("tenant_cell_move." +:+ action_str (event_action e) +:+ ".v1")) 1 (inl e))) in
    Ok (log_move e box db).

Definition cell_ordering_key (id : Z) : rstr := lit ("data-cell:" +:+ pretty id).
Definition cell_event_key (id rev : Z) : rstr :=
  lit ("data-cell:" +:+ pretty id +:+ ":revision:" +:+ pretty rev).

(** The event of a cell goes to the outbox of the actor's tenant. *)
Definition record_cell_event (tenant : Z) (action : string) (e : CellEvent) (db : CellDb) :
    result CellDb AppError :=
  let box := tenant_outbox db tenant in
  let key := cell_ordering_key (event_cell e) in
  let? box := map_err (fun _ => internal "outbox")
    (enqueue (fun _ => true) box
       (MkEvent (cell_event_key (event_cell e) (event_cell_revision e)) (lit "data_cell")
          (lit (pretty (event_cell e))) key (next_outbox_sequence box key)
          (lit ("data_cell." +:+ action +:+ ".v1")) 1 (inr e))) in
  Ok (log_cell tenant e box db).

(** ** The registry ([data_cells/commands.rs]) *)

Definition register (tenant : Z) (key name region residency : rstr) (mode : DataCellMode)
    (max_tenants : Z) (db : CellDb) : result (CellDb * Z) AppError :=
  if existsb (fun '(_, c) => bool_decide (cell_key c = key)) (map_to_list (data_cells db))
  then Err (conflict "data-cell key already exists")
  else
    let id := next_cell db in
    let db := set_next_cell (id + 1)
      (set_cells (<[id := MkCell key name region residency mode Provisioning 1 max_tenants]>
                    (data_cells db)) db) in
    let? db := record_cell_event tenant "registered" (MkCellEvent id 1 None Provisioning) db in
    Ok (db, id).

Definition cell_revision_conflict : AppError :=
  conflict "data-cell revision does not match expected revision".

Definition reconfigure (tenant id expected : Z) (name : rstr) (max_tenants : Z) (db : CellDb) :
    result (CellDb * Z) AppError :=
  let? cell := ok_or (data_cells db !! id) (not_found "data cell") in
  check cell_revision cell =? expected else cell_revision_conflict in
  let? _ := map_err (fun _ => bad_request "capacity") (validate_capacity (cell_mode cell) max_tenants) in
  let? committed := ok_or
    (match i64_checked_add (placement_count db id) (reserved_inbound_move_count db id) with
     | Some value => i64_checked_add value (reserved_rollback_move_count db id)
     | None => None
     end) (internal "data-cell committed slot count overflow") in
  if max_tenants <? committed
  then Err (conflict "data-cell capacity cannot be lower than placements and move reservations")
  else if bool_decide (cell_name cell = name) && (cell_max_tenants cell =? max_tenants)
  then Err (bad_request "data-cell reconfiguration must change name or capacity")
  else
    let? next := ok_or (cell_revision_next expected) (internal "data-cell revision overflow") in
    let db := set_cells (<[id := MkCell (cell_key cell) name (cell_region cell) (cell_residency cell)
                            (cell_mode cell) (cell_status cell) next max_tenants]>
                           (data_cells db)) db in
    let? db := record_cell_event tenant "reconfigured"
      (MkCellEvent id next (Some (cell_status cell)) (cell_status cell)) db in
    Ok (db, id).

Definition change_action (current status : DataCellStatus) : result string AppError :=
  match current, status with
  | Provisioning, Active => Ok "activated"%string
  | Active, Draining => Ok "draining"%string
  | Draining, Active => Ok "reactivated"%string
  | Draining, Retired => Ok "retired"%string
  | _, _ => Err (internal "unhandled data-cell transition")
  end.

Definition change_status (tenant id expected : Z) (status : DataCellStatus) (db : CellDb) :
    result (CellDb * Z) AppError :=
  let? cell := ok_or (data_cells db !! id) (not_found "data cell") in
  check cell_revision cell =? expected else cell_revision_conflict in
  let? _ := map_err (fun _ => bad_request "transition") (require_cell_transition (cell_status cell) status) in
  if bool_decide (status = Retired)
     && (negb (placement_count db id =? 0) || negb (reserved_inbound_move_count db id =? 0)
         || negb (reserved_rollback_move_count db id =? 0))
  then Err (conflict "data cell cannot be retired while placements or move reservations remain")
  else
    let? next := ok_or (cell_revision_next expected) (internal "data-cell revision overflow") in
    let db := set_cells (<[id := MkCell (cell_key cell) (cell_name cell) (cell_region cell)
                            (cell_residency cell) (cell_mode cell) status next
                            (cell_max_tenants cell)]> (data_cells db)) db in
    let? action := change_action (cell_status cell) status in
    let? db := record_cell_event tenant action
      (MkCellEvent id next (Some (cell_status cell)) status) db in
    Ok (db, id).

(** ** Admission ([data_cells/mod.rs] and [require_target_viability_tx]) *)

Definition has_room (cell : DataCellRow) (used : Z) : bool :=
  negb ((cell_max_tenants cell <=? used)
        || (bool_decide (cell_mode cell = Dedicated) && negb (used =? 0))).

Definition require_available (db : CellDb) (id : Z) (requirement : rstr) : result unit AppError :=
  let? cell := ok_or (data_cells db !! id) (not_found "data cell") in
  check bool_decide (cell_status cell = Active)
    else conflict "data cell is not accepting tenant placements" in
  check has_room cell (placement_count db id + reserved_move_count db None id)
    else conflict "data cell has no available tenant capacity" in
  check allows requirement (cell_residency cell)
    else bad_request "data cell does not satisfy the tenant residency requirement" in
  Ok tt.

Definition require_target_viability (db : CellDb) (move_id : Z) (current : MoveRow) :
    result unit AppError :=
  let id := target_data_cell_id current in
  let? cell := ok_or (data_cells db !! id) (not_found "target data cell") in
  check bool_decide (cell_status cell = Active)
    else conflict "target data cell is not accepting tenant moves" in
  check has_room cell (placement_count db id + reserved_move_count db (Some move_id) id)
    else conflict "target data cell has no available tenant capacity" in
  check allows (residency_requirement current) (cell_residency cell)
    else conflict "target data cell no longer satisfies the tenant residency requirement" in
  Ok tt.

(** ** Placement of a new tenant

    [create] of [tenant_lifecycle/mod.rs] checks the cell, and the trigger
    [place_new_tenant_in_data_cell] checks it again and inserts the placement. *)

Definition place_new_tenant_in_data_cell (tenant cell_id : Z) (requirement : rstr) (db : CellDb) :
    result CellDb AppError :=
  match data_cells db !! cell_id with
  | Some cell =>
      if bool_decide (cell_status cell = Active)
         && has_room cell (placement_count db cell_id + reserved_move_count db None cell_id)
         && allows requirement (cell_residency cell)
      then Ok (set_placements (<[tenant := MkPlacement cell_id 1 requirement]> (placements db)) db)
      else Err (Db "requested data cell cannot accept this tenant placement")
  | None => Err (Db "requested data cell cannot accept this tenant placement")
  end.

(** The id of the new tenant is the identity column of [tenants]. *)
Definition create_tenant (tenant cell_id : Z) (requirement : rstr) (db : CellDb) :
    result CellDb AppError :=
  let? _ := require_available db cell_id requirement in
  if bool_decide (is_Some (placements db !! tenant)) then Err (Db "tenants_pkey")
  else place_new_tenant_in_data_cell tenant cell_id requirement db.

(** ** Writes of a tenant: [enforce_tenant_cell_write_fence] *)

Definition enforce_tenant_cell_write_fence (tenant : Z) (db : CellDb) : result unit AppError :=
  match fences db !! tenant with
  | Some _ => Err (Db "tenant writes are frozen for governed data-cell movement")
  | None => Ok tt
  end.

(** ** Moves ([tenant_cell_moves/commands.rs])

    [own] is the tenant the administrator is switched to. *)

Definition revision_conflict : AppError :=
  RevisionConflict "tenant-cell-move revision does not match expected revision".
Definition placement_revision_conflict : AppError :=
  RevisionConflict "tenant placement revision does not match expected revision".

Definition require_switched_tenant (own tenant : Z) : result unit AppError :=
  if own =? tenant
  then Err (bad_request "switch to another active tenant before managing this tenant's data-cell move")
  else Ok tt.

Definition next_revision (current : Z) : result Z AppError :=
  ok_or (revision_checked_next current) (internal "tenant-cell-move revision overflow").

Definition require_revision (current : MoveRow) (expected : Z) : result unit AppError :=
  if move_revision current =? expected then Ok tt else Err revision_conflict.

(** The move row and the checks every command makes on it. *)
Definition lock_move (own id expected : Z) (db : CellDb) : result MoveRow AppError :=
  let? current := ok_or (moves db !! id) (not_found "tenant cell move") in
  let? _ := require_switched_tenant own (move_tenant current) in
  let? _ := require_revision current expected in
  Ok current.

Definition move_transition (current : MoveRow) (next : TenantCellMoveStatus) : result unit AppError :=
  map_err InvalidStateTransition (require_transition (move_status current) next).

(** [latest_checkpoint_revision] and [write_fence_epoch] of [lock_move_tx]. *)
Definition latest_checkpoint_revision (id : Z) (db : CellDb) : option Z :=
  last (event_revision <$> sort_by (fun e f => event_revision e ?= event_revision f)
    (List.filter (fun e => (event_move e =? id) && bool_decide (event_action e = CheckpointRecorded))
       (move_events db))).
Definition write_fence_epoch (tenant id : Z) (db : CellDb) : option Z :=
  match fences db !! tenant with
  | Some f => if fence_move f =? id then Some (fence_epoch f) else None
  | None => None
  end.

(** The event of a transition. *)
Definition record_event (id : Z) (current : MoveRow) (action : MoveAction) (rev : Z)
    (previous : option TenantCellMoveStatus) (resulting : TenantCellMoveStatus) (db : CellDb) :
    result CellDb AppError :=
  record_move_event (MkMoveEvent id (move_tenant current) action rev previous resulting) db.

Definition set_move (id : Z) (m : MoveRow) (db : CellDb) : CellDb := set_moves (<[id := m]> (moves db)) db.

(** [DELETE FROM tenant_write_fences WHERE tenant_id=.. AND tenant_cell_move_id=..] *)
Definition delete_fence (tenant id : Z) (db : CellDb) : CellDb :=
  match write_fence_epoch tenant id db with
  | Some _ => set_fences (delete tenant (fences db)) db
  | None => db
  end.

Definition plan (own tenant target expected_placement : Z) (db : CellDb) : result (CellDb * Z) AppError :=
  let? _ := require_switched_tenant own tenant in
  let? placement := ok_or (placements db !! tenant) (not_found "tenant placement") in
  check placement_revision placement =? expected_placement else placement_revision_conflict in
  if placement_cell placement =? target
  then Err (bad_request "source and target data cells must differ")
  else
    let? _ := require_available db target (placement_residency placement) in
    if existsb (fun '(_, m) => (move_tenant m =? tenant) && is_active_move m) (map_to_list (moves db))
    then Err (conflict "tenant already has an active data-cell move")
    else
      let id := next_move db in
      let current := MkMove tenant (placement_cell placement) target (placement_revision placement)
        None None (placement_residency placement) Planned 1 None None None None false false in
      let db := set_next_move (id + 1) (set_move id current db) in
      let? db := record_event id current PlannedAction 1 None Planned db in
      Ok (db, id).

Definition start_copy (own id expected : Z) (db : CellDb) : result (CellDb * Z) AppError :=
  let? current := lock_move own id expected db in
  let? _ := move_transition current Copying in
  let? _ := require_target_viability db id current in
  let? revision := next_revision (move_revision current) in
  let db := set_move id (with_move Copying revision current) db in
  let? db := record_event id current CopyStarted revision (Some (move_status current)) Copying db in
  Ok (db, id).

(** [is_some_and(|value| new < value)] *)
Definition moved_back (old : option Z) (new : Z) : bool :=
  match old with Some value => new <? value | None => false end.

Definition checkpoint (own id expected : Z) (c : TenantCellMoveCheckpoint) (db : CellDb) :
    result (CellDb * Z) AppError :=
  let? current := lock_move own id expected db in
  check bool_decide (move_status current = Copying) || bool_decide (move_status current = Frozen)
    else InvalidState "copy checkpoints are accepted only while copying or frozen" in
  if moved_back (latest_source_lsn current) (cp_source_lsn c)
     || moved_back (latest_target_replay_lsn current) (cp_target_replay_lsn c)
     || moved_back (copied_row_count current) (cp_copied_row_count c)
     || moved_back (copied_bytes current) (cp_copied_bytes c)
  then Err (conflict "copy checkpoint progress cannot move backwards")
  else
    let? revision := next_revision (move_revision current) in
    let db := set_move id (with_checkpoint c (with_move (move_status current) revision current)) db in
    let? db := record_event id current CheckpointRecorded revision (Some (move_status current))
      (move_status current) db in
    Ok (db, id).

Definition freeze (own id expected : Z) (db : CellDb) : result (CellDb * Z) AppError :=
  let? current := lock_move own id expected db in
  let? _ := move_transition current Frozen in
  check checkpointed current
    else conflict "record a copy checkpoint before freezing tenant writes" in
  let? _ := require_target_viability db id current in
  let? revision := next_revision (move_revision current) in
  let db := set_move id (with_move Frozen revision current) db in
  if bool_decide (is_Some (fences db !! move_tenant current)) then Err (Db "tenant_write_fences_pkey")
  else
    let db := set_fences (<[move_tenant current := MkFence id revision]> (fences db)) db in
    let? db := record_event id current WritesFrozen revision (Some (move_status current)) Frozen db in
    Ok (db, id).

(** [validate_tenant_cell_move_validation], the trigger that runs before the evidence
    of a validation is inserted: the handler has updated the row of the move by then.
    Its [last_action] is set by that update with its status. *)
Definition validate_tenant_cell_move_validation (db : CellDb) (tenant id revision : Z)
    (new : TenantCellMoveValidation) : bool :=
  match moves db !! id with
  | Some move =>
      (move_tenant move =? tenant) && bool_decide (move_status move = Validated)
      && (move_revision move =? revision)
      && match latest_source_lsn move with Some lsn => lsn <=? va_source_lsn new | None => false end
      && match latest_target_replay_lsn move with
         | Some lsn => lsn <=? va_target_replay_lsn new
         | None => false
         end
  | None => false
  end.

Definition validate (own id expected : Z) (validation : TenantCellMoveValidation) (db : CellDb) :
    result (CellDb * Z) AppError :=
  let? current := lock_move own id expected db in
  let? _ := move_transition current Validated in
  if match latest_checkpoint_revision id db, write_fence_epoch (move_tenant current) id db with
     | Some checkpoint_revision, Some freeze_revision =>
         (checkpoint_revision <=? freeze_revision) || negb (checkpoint_revision =? move_revision current)
     | _, _ => true
     end
  then Err (conflict "record a final copy checkpoint after freezing tenant writes")
  else
    let? _ := require_target_viability db id current in
    let? revision := next_revision (move_revision current) in
    let db := set_move id (with_move Validated revision current) db in
    check validate_tenant_cell_move_validation db (move_tenant current) id revision validation
      else Db "invalid tenant cell move validation evidence" in
    if bool_decide (is_Some (validations db !! id)) then Err (Db "tenant_cell_move_validations")
    else
      let db := set_validations (<[id := validation]> (validations db)) db in
      let? db := record_event id current ValidatedAction revision (Some (move_status current))
        Validated db in
      Ok (db, id).

(** [apply_tenant_cell_move_placement] *)
Definition apply_tenant_cell_move_placement (id : Z) (action : MoveAction) (db : CellDb) :
    result (CellDb * Z) AppError :=
  let? move := ok_or (moves db !! id) (Db "tenant cell move is not ready for placement change") in
  let? (cell, rev) :=
    match move_status move, action with
    | CutOver, CutOverAction =>
        ok_or (option_map (fun r => (target_data_cell_id move, r)) (cutover_placement_revision move))
          (Db "placement revision")
    | RolledBack, RolledBackAction =>
        ok_or (option_map (fun r => (source_data_cell_id move, r)) (rollback_placement_revision move))
          (Db "placement revision")
    | _, _ => Err (Db "tenant cell move is not ready for placement change")
    end in
  match placements db !! move_tenant move with
  | Some p =>
      Ok (set_placements (<[move_tenant move := MkPlacement cell rev (placement_residency p)]>
                            (placements db)) db, rev)
  | None => Ok (db, rev)
  end.

Definition cutover (own id expected expected_placement : Z) (db : CellDb) : result (CellDb * Z) AppError :=
  let? current := lock_move own id expected db in
  let? _ := move_transition current CutOver in
  check expected_placement =? source_placement_revision current else placement_revision_conflict in
  let? _ := require_target_viability db id current in
  let? placement := ok_or (placements db !! move_tenant current) (not_found "tenant placement") in
  check (placement_cell placement =? source_data_cell_id current)
        && (placement_revision placement =? expected_placement) else placement_revision_conflict in
  check bool_decide (is_Some (write_fence_epoch (move_tenant current) id db))
    else conflict "tenant write fence is missing" in
  let? cutover_revision := ok_or (cell_revision_next (source_placement_revision current))
    (internal "tenant placement revision overflow") in
  let? revision := next_revision (move_revision current) in
  let db := set_move id (with_cutover cutover_revision (with_move CutOver revision current)) db in
  let? (db, applied) := apply_tenant_cell_move_placement id CutOverAction db in
  check applied =? cutover_revision
    else internal "tenant placement cutover returned an invalid revision" in
  let? db := record_event id current CutOverAction revision (Some (move_status current)) CutOver db in
  Ok (db, id).

Definition verify_cutover (own id expected : Z) (verification : TenantCellMoveCutoverVerification)
    (db : CellDb) : result (CellDb * Z) AppError :=
  let? current := lock_move own id expected db in
  check bool_decide (move_status current = CutOver)
    else InvalidState "cutover verification requires a cut-over move" in
  if post_cutover_verified current then Err (conflict "tenant cutover is already verified")
  else
    let? cutover_revision := ok_or (cutover_placement_revision current)
      (internal "cut-over move has no placement revision") in
    check (cv_observed_data_cell_id verification =? target_data_cell_id current)
          && (cv_observed_placement_revision verification =? cutover_revision)
      else conflict "cutover verification does not match the active tenant placement" in
    let? revision := next_revision (move_revision current) in
    let db := set_move id (with_verified (with_move CutOver revision current)) db in
    if bool_decide (is_Some (cutover_verifications db !! id))
    then Err (Db "tenant_cell_move_cutover_verifications")
    else
      let db := set_cutovers (<[id := verification]> (cutover_verifications db)) db in
      let? db := record_event id current PostCutoverVerified revision (Some (move_status current))
        (move_status current) db in
      Ok (db, id).

Definition complete (own id expected : Z) (db : CellDb) : result (CellDb * Z) AppError :=
  let? current := lock_move own id expected db in
  let? _ := move_transition current Completed in
  check post_cutover_verified current
    else conflict "verify target routing and controls before completing the move" in
  let? cutover_revision := ok_or (cutover_placement_revision current)
    (internal "cut-over move has no placement revision") in
  let? revision := next_revision (move_revision current) in
  let db := set_move id (with_move Completed revision current) db in
  let db := delete_fence (move_tenant current) id db in
  let? db := record_event id current CompletedAction revision (Some (move_status current)) Completed db in
  Ok (db, id).

Definition rollback (own id expected : Z) (verification : TenantCellMoveRollbackVerification)
    (db : CellDb) : result (CellDb * Z) AppError :=
  let? current := lock_move own id expected db in
  let? _ := move_transition current RolledBack in
  let? cutover_revision := ok_or (cutover_placement_revision current)
    (internal "cut-over move has no placement revision") in
  let? rollback_revision := ok_or (cell_revision_next cutover_revision)
    (internal "tenant placement revision overflow") in
  check rv_observed_data_cell_id verification =? source_data_cell_id current
    else conflict "rollback verification does not identify the source data cell" in
  check rv_expected_rollback_placement_revision verification =? rollback_revision
    else conflict "rollback verification does not match the next tenant placement revision" in
  let? placement := ok_or (placements db !! move_tenant current) (not_found "tenant placement") in
  check (placement_cell placement =? target_data_cell_id current)
        && (placement_revision placement =? cutover_revision) else placement_revision_conflict in
  check bool_decide (is_Some (write_fence_epoch (move_tenant current) id db))
    else conflict "tenant write fence is missing" in
  let? revision := next_revision (move_revision current) in
  let db := set_move id (with_rollback rollback_revision (with_move RolledBack revision current)) db in
  if bool_decide (is_Some (rollback_verifications db !! id))
  then Err (Db "tenant_cell_move_rollback_verifications")
  else
    let db := set_rollbacks (<[id := verification]> (rollback_verifications db)) db in
    let? (db, applied) := apply_tenant_cell_move_placement id RolledBackAction db in
    check applied =? rollback_revision
      else internal "tenant placement rollback returned an invalid revision" in
    let db := delete_fence (move_tenant current) id db in
    let? db := record_event id current RolledBackAction revision (Some (move_status current))
      RolledBack db in
    Ok (db, id).

Definition cancel (own id expected : Z) (db : CellDb) : result (CellDb * Z) AppError :=
  let? current := lock_move own id expected db in
  let? _ := move_transition current Cancelled in
  let? revision := next_revision (move_revision current) in
  let db := set_move id (with_move Cancelled revision current) db in
  let db := delete_fence (move_tenant current) id db in
  let? db := record_event id current CancelledAction revision (Some (move_status current)) Cancelled db in
  Ok (db, id).

(** ** Commands, under the replay protocol *)

Inductive CellCommand :=
| Register (key name region residency : rstr) (mode : DataCellMode) (max_tenants : Z)
| Reconfigure (id expected : Z) (name : rstr) (max_tenants : Z)
| ChangeStatus (id expected : Z) (status : DataCellStatus)
| Plan (tenant target expected_placement : Z)
| StartCopy (id expected : Z)
| Checkpoint (id expected : Z) (c : TenantCellMoveCheckpoint)
| Freeze (id expected : Z)
| Validate (id expected : Z) (v : TenantCellMoveValidation)
| Cutover (id expected expected_placement : Z)
| VerifyCutover (id expected : Z) (v : TenantCellMoveCutoverVerification)
| Complete (id expected : Z)
| Rollback (id expected : Z) (v : TenantCellMoveRollbackVerification)
| Cancel (id expected : Z).

(** What the types of a command guarantee: its evidence came out of [new]. *)
Definition well_typed (c : CellCommand) : Prop :=
  match c with
  | Register _ _ _ _ _ max => ∃ v, DataCellCapacity_new v = Ok max
  | Reconfigure _ _ _ max => ∃ v, DataCellCapacity_new v = Ok max
  | Checkpoint _ _ c => ∃ i, TenantCellMoveCheckpoint_new i = Ok c
  | Validate _ _ v => ∃ i, TenantCellMoveValidation_new i = Ok v
  | VerifyCutover _ _ v => ∃ i, TenantCellMoveCutoverVerification_new i = Ok v
  | Rollback _ _ v => ∃ i, TenantCellMoveRollbackVerification_new i = Ok v
  | _ => True
  end.

(** [register] checks the capacity before it opens its transaction. *)
Definition precheck (c : CellCommand) : result unit AppError :=
  match c with
  | Register _ _ _ _ mode max => map_err (fun _ => bad_request "capacity") (validate_capacity mode max)
  | _ => Ok tt
  end.

Definition execute (own : Z) (c : CellCommand) (db : CellDb) : result (CellDb * Z) AppError :=
  match c with
  | Register key name region residency mode max => register own key name region residency mode max db
  | Reconfigure id expected name max => reconfigure own id expected name max db
  | ChangeStatus id expected status => change_status own id expected status db
  | Plan tenant target expected => plan own tenant target expected db
  | StartCopy id expected => start_copy own id expected db
  | Checkpoint id expected c => checkpoint own id expected c db
  | Freeze id expected => freeze own id expected db
  | Validate id expected v => validate own id expected v db
  | Cutover id expected placement => cutover own id expected placement db
  | VerifyCutover id expected v => verify_cutover own id expected v db
  | Complete id expected => complete own id expected db
  | Rollback id expected v => rollback own id expected v db
  | Cancel id expected => cancel own id expected db
  end.

Section handler.
Context {Json : Type} (to_json : Z → option Json) (from_json : Json → option Z).

Record TenantAccess := MkAccess {
  access_tenant_id : Z;
  access_user_id : Z;
  platform_actor_is_administrator : bool;
}.

(** [authorize_tx] of [tenant_lifecycle/mod.rs]. *)
Definition authorize (access : TenantAccess) : result unit AppError :=
  check platform_actor_is_administrator access else Application Forbidden in
  Ok tt.

Definition handle (access : TenantAccess) (context : CommandContext) (prepared : PreparedCommand)
    (command : CellCommand) (db : Records (Json := Json) * CellDb) :
    result (Records (Json := Json) * CellDb * Z) AppError :=
  let? _ := map_err Application
    (require_actor context (access_tenant_id access) (access_user_id access)) in
  let? _ := precheck command in
  let? _ := authorize access in
  let? replay := map_err Application (replayed from_json db.1 prepared) in
  match replay with
  | Some r => Ok (db, r)
  | None =>
      let? (rows, r) := execute (access_tenant_id access) command db.2 in
      let? (records, r) := map_err Application (commit to_json db.1 prepared r) in
      Ok (records, rows, r)
  end.
End handler.
