(* ===== verification/CellInvariant.v ===== *)
(** * Data cells and tenant moves: histories and the invariant

    The steps of the control plane, what every reachable state satisfies ([cell_ok]),
    and the lemmas that the handlers of [CellDb] are checked with: the slots of a cell
    under an update, and the update of one move. *)

From stdpp Require Import pretty.
From S2P Require Import Prelude.
From S2P Require Import RustStr.
From S2P Require Import Idempotency.
From S2P Require Import Outbox.
From S2P Require Import CellTypes.
From S2P Require Import CellDb.

(** ** Histories *)

Inductive cell_label :=
| Did (own : Z) (c : CellCommand)
| NewTenant (tenant cell : Z) (requirement : rstr)
| Wrote (tenant : Z).

Inductive cell_step : cell_label → CellDb → CellDb → Prop :=
| step_command own c db db' r :
    well_typed c → precheck c = Ok tt → execute own c db = Ok (db', r) → cell_step (Did own c) db db'
| step_tenant tenant cell requirement db db' :
    create_tenant tenant cell requirement db = Ok db' → cell_step (NewTenant tenant cell requirement) db db'
| step_write tenant db :
    enforce_tenant_cell_write_fence tenant db = Ok tt → cell_step (Wrote tenant) db db.

Inductive cell_run : list cell_label → CellDb → CellDb → Prop :=
| run_nil db : cell_run [] db db
| run_cons l ls db1 db2 db3 : cell_step l db1 db2 → cell_run ls db2 db3 → cell_run (l :: ls) db1 db3.

Definition cell_reachable (db : CellDb) : Prop := ∃ ls, cell_run ls empty_cell_db db.

(** ** Slots

    A cell spends a slot on every tenant placed in it, on every move that is bound for
    it, and on every move that left it and may still be rolled back. *)

Definition move_slots (cell : Z) (m : MoveRow) : Z :=
  (if reserves_inbound cell m then 1 else 0) + (if reserves_rollback cell m then 1 else 0).
Definition placement_slots (cell : Z) (p : PlacementRow) : Z := if placement_cell p =? cell then 1 else 0.
Definition committed (db : CellDb) (cell : Z) : Z := placement_count db cell + reserved_move_count db None cell.

Lemma reserves_disjoint cell m : reserves_inbound cell m = true → reserves_rollback cell m = false.
Proof.
  unfold reserves_inbound, reserves_rollback. intros [_ H]%andb_true_iff.
  apply andb_false_iff. right. apply bool_decide_eq_false. by destruct (move_status m).
Qed.

Lemma reserved_split db cell :
  reserved_move_count db None cell = reserved_inbound_move_count db cell + reserved_rollback_move_count db cell.
Proof.
  unfold reserved_move_count, reserved_inbound_move_count, reserved_rollback_move_count.
  rewrite <-count_rows_or by (intros _ m; apply reserves_disjoint). apply count_rows_ext. intros id m _. done.
Qed.

Lemma committed_three db id :
  placement_count db id + reserved_inbound_move_count db id + reserved_rollback_move_count db id = committed db id.
Proof. unfold committed. rewrite reserved_split. lia. Qed.

Lemma move_slots_if cell m :
  (if reserves_inbound cell m || reserves_rollback cell m then 1 else 0) = move_slots cell m.
Proof.
  unfold move_slots. pose proof (reserves_disjoint cell m).
  destruct (reserves_inbound cell m), (reserves_rollback cell m); cbn; naive_solver.
Qed.

Lemma reserved_insert db db' id m m' cell :
  moves db !! id = Some m → moves db' = <[id := m']> (moves db) →
  reserved_move_count db' None cell = reserved_move_count db None cell + move_slots cell m' - move_slots cell m.
Proof.
  intros Hm E. unfold reserved_move_count. rewrite E, (count_rows_insert _ _ _ _ m) by done.
  rewrite (bool_decide_false (@None Z = Some id)) by done. cbn [negb andb]. by rewrite !move_slots_if.
Qed.

Lemma reserved_new db db' id m cell :
  moves db !! id = None → moves db' = <[id := m]> (moves db) →
  reserved_move_count db' None cell = reserved_move_count db None cell + move_slots cell m.
Proof.
  intros Hm E. unfold reserved_move_count. rewrite E, count_rows_insert_new by done.
  rewrite (bool_decide_false (@None Z = Some id)) by done. cbn [negb andb]. by rewrite move_slots_if.
Qed.

(** A move does not count its own reservation against itself. *)
Lemma reserved_except db id m cell :
  moves db !! id = Some m →
  reserved_move_count db None cell = reserved_move_count db (Some id) cell + move_slots cell m.
Proof.
  intros Hm. unfold reserved_move_count. rewrite !(count_rows_delete _ _ _ _ Hm).
  rewrite (bool_decide_false (@None Z = Some id)), bool_decide_true by done. cbn [negb andb].
  rewrite move_slots_if. rewrite (count_rows_ext _ (fun id0 m0 => negb (bool_decide (Some id = Some id0)) &&
    (reserves_inbound cell m0 || reserves_rollback cell m0))); [lia|].
  intros i y [Hne _]%lookup_delete_Some. rewrite !bool_decide_false by congruence. done.
Qed.

Lemma placed_insert db db' t p p' cell :
  placements db !! t = Some p → placements db' = <[t := p']> (placements db) →
  placement_count db' cell = placement_count db cell + placement_slots cell p' - placement_slots cell p.
Proof. intros Hp E. unfold placement_count. by rewrite E, (count_rows_insert _ _ _ _ p). Qed.

Lemma placed_new db db' t p cell :
  placements db !! t = None → placements db' = <[t := p]> (placements db) →
  placement_count db' cell = placement_count db cell + placement_slots cell p.
Proof. intros Hp E. unfold placement_count. by rewrite E, count_rows_insert_new. Qed.

Lemma placement_count_nonneg db cell : 0 ≤ placement_count db cell.
Proof. apply count_rows_nonneg. Qed.
Lemma reserved_nonneg db x cell : 0 ≤ reserved_move_count db x cell.
Proof. apply count_rows_nonneg. Qed.
Lemma committed_nonneg db cell : 0 ≤ committed db cell.
Proof. pose proof (placement_count_nonneg db cell). pose proof (reserved_nonneg db None cell). unfold committed. lia. Qed.

(** ** The invariant *)

(** Where the tenant of an active move is. *)
Definition home (m : MoveRow) : PlacementRow :=
  if bool_decide (move_status m = CutOver)
  then MkPlacement (target_data_cell_id m) (source_placement_revision m + 1) (residency_requirement m)
  else MkPlacement (source_data_cell_id m) (source_placement_revision m) (residency_requirement m).

Definition past_validation (s : TenantCellMoveStatus) : bool :=
  match s with Validated | CutOver | Completed | RolledBack => true | _ => false end.
Definition past_cutover (s : TenantCellMoveStatus) : bool :=
  match s with CutOver | Completed | RolledBack => true | _ => false end.

Definition move_event (db : CellDb) (id : Z) (a : MoveAction) (rev : Z) : Prop :=
  ∃ e, e ∈ move_events db ∧ event_move e = id ∧ event_action e = a ∧ event_revision e = rev.

(** What a move that was validated can show: parity of both cells, taken after the
    writes were frozen and a last checkpoint was made. *)
Definition validated_after_freeze (db : CellDb) (id : Z) : Prop :=
  (∃ v, validations db !! id = Some v ∧ parity v) ∧
  ∃ f c, move_event db id WritesFrozen f ∧ move_event db id CheckpointRecorded c ∧ f < c.

Record move_ok (db : CellDb) (id : Z) (m : MoveRow) : Prop := {
  move_ids : id < next_move db;
  move_revision_pos : 0 < move_revision m ∧ 0 < source_placement_revision m;
  move_cells : source_data_cell_id m ≠ target_data_cell_id m;
  move_residency : ∀ cell, cell = source_data_cell_id m ∨ cell = target_data_cell_id m →
    ∃ c, data_cells db !! cell = Some c ∧ allows (residency_requirement m) (cell_residency c) = true;
  move_home : is_active_move m = true → placements db !! move_tenant m = Some (home m);
  move_fence : is_write_fenced (move_status m) = true →
    ∃ f, fences db !! move_tenant m = Some (MkFence id f) ∧ move_event db id WritesFrozen f;
  move_validated : past_validation (move_status m) = true → validated_after_freeze db id;
  move_unvalidated : match move_status m with Planned | Copying | Frozen => True | _ => False end →
    validations db !! id = None;
  move_cutover : past_cutover (move_status m) = true →
    cutover_placement_revision m = Some (source_placement_revision m + 1) ∧
    source_placement_revision m + 1 ≤ i64_max;
  move_uncut : past_cutover (move_status m) = false → post_cutover_verified m = false;
  move_verified : post_cutover_verified m = true → ∃ v, cutover_verifications db !! id = Some v ∧
    cv_observed_data_cell_id v = target_data_cell_id m ∧
    cv_observed_placement_revision v = source_placement_revision m + 1;
  move_unverified : post_cutover_verified m = false → cutover_verifications db !! id = None;
  move_completed : move_status m = Completed → post_cutover_verified m = true;
  move_rolled_back : move_status m = RolledBack →
    rollback_placement_revision m = Some (source_placement_revision m + 2) ∧
    ∃ v, rollback_verifications db !! id = Some v ∧
    rv_observed_data_cell_id v = source_data_cell_id m ∧
    rv_expected_rollback_placement_revision v = source_placement_revision m + 2;
  move_not_rolled_back : move_status m ≠ RolledBack → rollback_verifications db !! id = None;
  move_positions : ∀ t, latest_target_replay_lsn m = Some t → ∃ s, latest_source_lsn m = Some s ∧ t ≤ s;
}.

Record cell_row_ok (db : CellDb) (id : Z) (c : DataCellRow) : Prop := {
  cell_ids : id < next_cell db;
  cell_revision_pos : 0 < cell_revision c;
  cell_capacity_pos : 1 ≤ cell_max_tenants c;
  cell_dedicated : cell_mode c = Dedicated → cell_max_tenants c = 1;
  cell_capacity : committed db id ≤ cell_max_tenants c;
  cell_idle : cell_status c = Provisioning ∨ cell_status c = Retired → committed db id = 0;
}.

Definition outbox_keys_ok (db : CellDb) : Prop := ∀ t,
  outbox_ok (tenant_outbox db t) ∧
  ∀ k, k ∈ event_keys (tenant_outbox db t) →
    (∃ e, e ∈ move_events db ∧ k = move_event_key (event_move e) (event_revision e)) ∨
    ∃ c r, k = cell_event_key c r.

(** The number of the last event of an ordering key. *)
Definition sequence_of (db : CellDb) (t : Z) (key : rstr) : Z :=
  default 0 (last_sequence (tenant_outbox db t) !! key).

Record cell_ok (db : CellDb) : Prop := {
  cells_ok : ∀ id c, data_cells db !! id = Some c → cell_row_ok db id c;
  placements_ok : ∀ t p, placements db !! t = Some p → 0 < placement_revision p ∧
    ∃ c, data_cells db !! placement_cell p = Some c ∧ allows (placement_residency p) (cell_residency c) = true;
  moves_ok : ∀ id m, moves db !! id = Some m → move_ok db id m;
  one_active : ∀ i j m n, moves db !! i = Some m → moves db !! j = Some n →
    is_active_move m = true → is_active_move n = true → move_tenant m = move_tenant n → i = j;
  fences_ok : ∀ t f, fences db !! t = Some f → ∃ m, moves db !! fence_move f = Some m ∧
    move_tenant m = t ∧ is_write_fenced (move_status m) = true;
  events_ok : ∀ e, e ∈ move_events db → ∃ m, moves db !! event_move e = Some m ∧
    event_revision e ≤ move_revision m;
  evidence_ids : ∀ id, next_move db ≤ id → validations db !! id = None ∧
    cutover_verifications db !! id = None ∧ rollback_verifications db !! id = None;
  outboxes_ok : outbox_keys_ok db;
  streams_ok : ∀ t id, sequence_of db t (move_ordering_key id) =
    match moves db !! id with
    | Some m => if move_tenant m =? t then move_revision m else 0
    | None => 0
    end;
}.

(** ** Events *)

#[global] Instance move_ordering_key_inj : Inj (=) (=) move_ordering_key.
Proof.
  intros a b E. unfold move_ordering_key in E. rewrite !lit_app in E. by apply app_inv_head, (inj lit), (inj pretty) in E.
Qed.

Lemma cell_key_not_move_key c id : cell_ordering_key c ≠ move_ordering_key id.
Proof. done. Qed.

Lemma move_event_key_inj i r j q : move_event_key i r = move_event_key j q → i = j ∧ r = q.
Proof.
  unfold move_event_key. rewrite !lit_app. intros E%app_inv_head.
  apply (split_once_unique 58) in E as [E1%(inj lit)%(inj pretty) E2]; [|apply pretty_Z_no_colon..].
  split; [done|]. change (lit "revision:" ++ lit (pretty r) = lit "revision:" ++ lit (pretty q)) in E2.
  by apply app_inv_head, (inj lit), (inj pretty) in E2.
Qed.

(** One event was added to the stream of a move. *)
Definition stepped (db db' : CellDb) (tenant id : Z) : Prop := ∀ t k,
  sequence_of db' t k = sequence_of db t k +
    (if bool_decide (t = tenant ∧ k = move_ordering_key id) then 1 else 0).

(** The event [e] is in the outbox of its tenant, at the position [seq]. *)
Definition published (db : CellDb) (e : MoveEvent) (seq : Z) : Prop :=
  ∃ ev, ev ∈ events (tenant_outbox db (event_tenant e)) ∧
    event_key ev = move_event_key (event_move e) (event_revision e) ∧
    aggregate_type ev = lit "tenant_cell_move" ∧ aggregate_id ev = lit (pretty (event_move e)) ∧
    ordering_key ev = move_ordering_key (event_move e) ∧ aggregate_sequence ev = seq ∧
    event_type ev = lit ("tenant_cell_move." +:+ action_str (event_action e) +:+ ".v1") ∧
    schema_version ev = 1 ∧ payload ev = inl e.

Lemma record_move_event_ok e db db' :
  record_move_event e db = Ok db' →
  ∃ box, db' = log_move e box db ∧
    (∀ f, f ∈ move_events db → event_move f = event_move e → event_revision f ≠ event_revision e) ∧
    (outbox_keys_ok db → outbox_keys_ok db') ∧ stepped db db' (event_tenant e) (event_move e) ∧
    published db' e (sequence_of db (event_tenant e) (move_ordering_key (event_move e)) + 1).
Proof.
  unfold record_move_event. destruct (existsb _ _) eqn:Ex; [done|]. cbn zeta.
  set (ev := MkEvent _ _ _ _ _ _ _ _). intros H. apply rbind_ok in H as (box & Hb & [= <-]).
  destruct (enqueue _ _ ev) as [box'|] eqn:Eq; [|done]. injection Hb as <-.
  exists box'. split; [done|]. split.
  - intros f Hf Em Er. assert (existsb (fun f => (event_move f =? event_move e) &&
      (event_revision f =? event_revision e)) (move_events db) = true); [|congruence].
    apply existsb_exists. exists f. split; [by apply list_elem_of_In|].
    by rewrite Em, Er, !Z.eqb_refl.
  - split; [|split; [|exists ev; apply enqueue_inv in Eq as (_ & _ & ->); unfold tenant_outbox; cbn;
      rewrite lookup_insert_eq; cbn; split_and!; set_solver]].
    2: { intros t k. unfold sequence_of, tenant_outbox. cbn [outboxes log_move].
      apply enqueue_inv in Eq as (_ & Hseq & ->). destruct (decide (t = event_tenant e)) as [->|Hne].
      - rewrite lookup_insert_eq. cbn -[ev]. destruct (decide (k = move_ordering_key (event_move e))) as [->|Hk].
        + change (ordering_key ev) with (move_ordering_key (event_move e)) in *. rewrite lookup_insert_eq.
          rewrite bool_decide_true by done. cbn. done.
        + rewrite lookup_insert_ne by done. rewrite bool_decide_false by naive_solver. by rewrite Z.add_0_r.
      - rewrite lookup_insert_ne, bool_decide_false by naive_solver. lia. }
    intros Hok t. unfold tenant_outbox. cbn [outboxes log_move move_events].
    destruct (decide (t = event_tenant e)) as [->|Hne].
    + rewrite lookup_insert_eq. cbn [default from_option id].
      destruct (Hok (event_tenant e)) as [Hbox Hkeys]. split; [by eapply enqueue_ok|].
      apply enqueue_inv in Eq as (_ & _ & ->). cbn [event_keys]. intros k [->%elem_of_singleton|Hk]%elem_of_union.
      * left. exists e. split; [set_solver|done].
      * destruct (Hkeys k Hk) as [(f & Hf & E)|E]; [left; exists f; set_solver|by right].
    + rewrite lookup_insert_ne by done. destruct (Hok t) as [Hbox Hkeys]. split; [done|].
      intros k Hk. destruct (Hkeys k Hk) as [(f & Hf & E)|E]; [left; exists f; set_solver|by right].
Qed.

Lemma record_cell_event_ok tenant action e db db' :
  record_cell_event tenant action e db = Ok db' →
  ∃ box, db' = log_cell tenant e box db ∧ (outbox_keys_ok db → outbox_keys_ok db') ∧
    ∀ t id, sequence_of db' t (move_ordering_key id) = sequence_of db t (move_ordering_key id).
Proof.
  unfold record_cell_event. cbn zeta. set (ev := MkEvent _ _ _ _ _ _ _ _). intros H.
  apply rbind_ok in H as (box & Hb & [= <-]).
  destruct (enqueue _ _ ev) as [box'|] eqn:Eq; [|done]. injection Hb as <-.
  exists box'. split; [done|]. split.
  2: { intros t id. unfold sequence_of, tenant_outbox. cbn [outboxes log_cell].
    apply enqueue_inv in Eq as (_ & _ & ->). destruct (decide (t = tenant)) as [->|Hne].
    - rewrite lookup_insert_eq. cbn -[move_ordering_key]. by rewrite lookup_insert_ne.
    - by rewrite lookup_insert_ne. }
  intros Hok t. unfold tenant_outbox. cbn [outboxes log_cell move_events].
  destruct (decide (t = tenant)) as [->|Hne].
  - rewrite lookup_insert_eq. cbn [default from_option id]. destruct (Hok tenant) as [Hbox Hkeys].
    split; [by eapply enqueue_ok|]. apply enqueue_inv in Eq as (_ & _ & ->). cbn [event_keys].
    intros k [->%elem_of_singleton|Hk]%elem_of_union; [right; by do 2 eexists|by apply Hkeys].
  - rewrite lookup_insert_ne by done. apply Hok.
Qed.

(** ** The update of one move *)

Lemma move_event_snoc db db' e id a rev :
  move_events db' = move_events db ++ [e] → move_event db id a rev → move_event db' id a rev.
Proof. intros E (f & Hf & Hp). exists f. rewrite E. split; [set_solver|done]. Qed.

Lemma validated_snoc db db' e id :
  move_events db' = move_events db ++ [e] → validations db' !! id = validations db !! id →
  validated_after_freeze db id → validated_after_freeze db' id.
Proof.
  intros Ee Ev [Hv (f & c & Hf & Hc & Hlt)]. unfold validated_after_freeze. rewrite Ev. split; [done|].
  exists f, c. eauto using move_event_snoc.
Qed.

(** What the handlers of an active move have in common. *)
Record move_update (db db' : CellDb) (id : Z) (m m' : MoveRow) (e : MoveEvent) : Prop := {
  up_cells : data_cells db' = data_cells db ∧ next_cell db' = next_cell db ∧ next_move db' = next_move db;
  up_moves : moves db' = <[id := m']> (moves db);
  up_fixed : move_tenant m' = move_tenant m ∧ source_data_cell_id m' = source_data_cell_id m ∧
    target_data_cell_id m' = target_data_cell_id m ∧
    source_placement_revision m' = source_placement_revision m ∧
    residency_requirement m' = residency_requirement m ∧ move_revision m' = move_revision m + 1;
  up_placement : (placements db' = placements db ∨ ∃ p', placements db' = <[move_tenant m := p']> (placements db) ∧
    0 < placement_revision p' ∧ placement_residency p' = residency_requirement m ∧
    (placement_cell p' = source_data_cell_id m ∨ placement_cell p' = target_data_cell_id m));
  up_fences : ∀ t, t ≠ move_tenant m → fences db' !! t = fences db !! t;
  up_fence : ∀ f, fences db' !! move_tenant m = Some f →
    fence_move f = id ∧ is_write_fenced (move_status m') = true;
  up_evidence : ∀ j, j ≠ id → validations db' !! j = validations db !! j ∧
    cutover_verifications db' !! j = cutover_verifications db !! j ∧
    rollback_verifications db' !! j = rollback_verifications db !! j;
  up_event : move_events db' = move_events db ++ [e] ∧ event_move e = id ∧ event_revision e = move_revision m';
  up_slots : ∀ cell, committed db' cell ≤ committed db cell;
  up_outbox : outbox_keys_ok db';
  up_stream : stepped db db' (move_tenant m) id;
}.

Lemma move_update_ok db db' id m m' e :
  cell_ok db → moves db !! id = Some m → is_active_move m = true →
  move_update db db' id m m' e → move_ok db' id m' → cell_ok db'.
Proof.
  intros Hok Hm Hact [(Ec & Enc & Enm) Em (Et & Es & Etg & Esr & Ers & Erv) Hpl Hfs Hf Hev (Ee & Eid & Erev) Hsl Hob Hst] Hm'.
  assert (Hother : ∀ j n, j ≠ id → moves db !! j = Some n → move_tenant n = move_tenant m → is_active_move n = false).
  { intros j n Hne Hj E. apply not_true_iff_false. intros Ha. by destruct (Hne (one_active db Hok j id n m Hj Hm Ha Hact E)). }
  split.
  - intros c row Hc. rewrite Ec in Hc. destruct (cells_ok db Hok c row Hc) as [H1 H2 H3 H4 H5 H6].
    specialize (Hsl c). pose proof (committed_nonneg db' c).
    split; [by rewrite Enc|done|done|done|lia|]. intros Hi. specialize (H6 Hi). lia.
  - intros t p Hp. rewrite Ec. destruct Hpl as [Ep|(p' & Ep & Hrev & Hres & Hcell)];
      [rewrite Ep in Hp; by apply (placements_ok db Hok t)|].
    rewrite Ep in Hp. apply lookup_insert_Some in Hp as [[<- <-]|[_ Hp]]; [|by apply (placements_ok db Hok t)].
    split; [done|]. rewrite Hres. destruct (moves_ok db Hok id m Hm) as [_ _ _ Hc _ _ _ _ _ _ _ _ _ _ _ _].
    by apply Hc.
  - intros j n Hj. rewrite Em in Hj. apply lookup_insert_Some in Hj as [[<- <-]|[Hne Hj]]; [done|].
    destruct (moves_ok db Hok j n Hj) as [H1 H2 H3 H4 H5 H6 H7 H8 H9 H10 H11 H12 H13 H14 H15 H16].
    destruct (Hev j (not_eq_sym Hne)) as (Ev & Ecv & Erb).
    split; try done; rewrite ?Enm, ?Ec, ?Ev, ?Ecv, ?Erb; try done.
    + intros Ha. assert (Hnt : move_tenant n ≠ move_tenant m).
      { intros E. by rewrite (Hother j n (not_eq_sym Hne) Hj E) in Ha. }
      destruct Hpl as [->|(p' & -> & _)]; [by apply H5|]. rewrite lookup_insert_ne by done. by apply H5.
    + intros Hw. assert (Hnt : move_tenant n ≠ move_tenant m).
      { intros E. pose proof (Hother j n (not_eq_sym Hne) Hj E) as Hx. unfold is_active_move in Hx.
        by destruct (move_status n). }
      destruct (H6 Hw) as (f & Hff & Hfe). exists f. rewrite Hfs by done. eauto using move_event_snoc.
    + intros Hpv. by eapply validated_snoc, H7.
  - intros i j a b Hi Hj Ha Hb E. rewrite Em in Hi, Hj.
    apply lookup_insert_Some in Hi as [[<- <-]|[Hni Hi]], Hj as [[<- <-]|[Hnj Hj]]; try done.
    + rewrite Et in E. by rewrite (Hother j b (not_eq_sym Hnj) Hj (eq_sym E)) in Hb.
    + rewrite Et in E. by rewrite (Hother i a (not_eq_sym Hni) Hi E) in Ha.
    + by apply (one_active db Hok i j a b).
  - intros t f Hft. destruct (decide (t = move_tenant m)) as [->|Hne].
    + destruct (Hf f Hft) as [E Hw]. exists m'. by rewrite Em, E, lookup_insert_eq.
    + rewrite Hfs in Hft by done. destruct (fences_ok db Hok t f Hft) as (n & Hn & Ent & Hw). exists n.
      rewrite Em, lookup_insert_ne; [done|]. intros E. rewrite <-E in Hn. naive_solver.
  - intros f Hfe. rewrite Ee in Hfe. apply elem_of_app in Hfe as [Hfe| ->%list_elem_of_singleton].
    + destruct (events_ok db Hok f Hfe) as (n & Hn & Hle). rewrite Em.
      destruct (decide (event_move f = id)) as [E|Hne].
      * rewrite E, lookup_insert_eq. exists m'. split; [done|]. rewrite E in Hn. simplify_eq. lia.
      * exists n. by rewrite lookup_insert_ne.
    + rewrite Em, Eid, lookup_insert_eq. exists m'. split; [done|lia].
  - intros j Hj. rewrite Enm in Hj. pose proof (move_ids _ _ _ (moves_ok db Hok id m Hm)).
    destruct (Hev j) as (-> & -> & ->); [lia|]. by apply (evidence_ids db Hok).
  - done.
  - intros t j. rewrite (Hst t), (streams_ok db Hok t j), Em. destruct (decide (j = id)) as [->|Hne].
    + rewrite lookup_insert_eq, Hm, Et, Erv. destruct (Z.eqb_spec (move_tenant m) t) as [->|Hnt].
      * by rewrite bool_decide_true.
      * rewrite bool_decide_false by naive_solver. done.
    + rewrite lookup_insert_ne, bool_decide_false, Z.add_0_r; [done| |done]. intros [_ E%(inj _)]. done.
Qed.

(** ** The frame of everything that is not the update of a move *)

Lemma move_ok_frame db db' id m :
  next_move db ≤ next_move db' →
  (∀ c row, data_cells db !! c = Some row →
     ∃ row', data_cells db' !! c = Some row' ∧ cell_residency row' = cell_residency row) →
  (∀ t p, placements db !! t = Some p → placements db' !! t = Some p) →
  fences db' = fences db → validations db' = validations db →
  cutover_verifications db' = cutover_verifications db →
  rollback_verifications db' = rollback_verifications db →
  (∀ e, e ∈ move_events db → e ∈ move_events db') →
  move_ok db id m → move_ok db' id m.
Proof.
  intros Hn Hc Hp Ef Ev Ecv Erv He [H1 H2 H3 H4 H5 H6 H7 H8 H9 H10 H11 H12 H13 H14 H15 H16].
  assert (Hme : ∀ a rev, move_event db id a rev → move_event db' id a rev).
  { intros a rev (e & Hin & Hrest). exists e. auto. }
  split; rewrite ?Ef, ?Ev, ?Ecv, ?Erv; auto; try lia.
  - intros cell Hcell. destruct (H4 cell Hcell) as (c & Hl & Ha). destruct (Hc _ _ Hl) as (c' & Hl' & Er).
    exists c'. by rewrite Er.
  - intros Hw. destruct (H6 Hw) as (f & Hf & Hfe). eauto.
  - intros Hpv. destruct (H7 Hpv) as [Hv (f & c & ? & ? & ?)]. split; [by rewrite Ev|]. exists f, c. auto.
Qed.

Lemma cell_row_frame db db' id c :
  next_cell db ≤ next_cell db' → committed db' id ≤ committed db id → cell_row_ok db id c → cell_row_ok db' id c.
Proof.
  intros Hn Hc [H1 H2 H3 H4 H5 H6]. pose proof (committed_nonneg db' id).
  split; auto; [lia|lia|]. intros Hi. specialize (H6 Hi). lia.
Qed.
