(* ===== verification/CellFacts.v ===== *)
(** * Data cells and tenant moves: every handler keeps the invariant

    For each handler: what it changes, and that [cell_ok] holds afterwards. *)

From stdpp Require Import pretty.
From S2P Require Import Prelude.
From S2P Require Import RustStr.
From S2P Require Import Idempotency.
From S2P Require Import Outbox.
From S2P Require Import CellTypes.
From S2P Require Import CellDb.
From S2P Require Import CellInvariant.

Lemma ok_or_Ok {A E} (o : option A) (e : E) v : ok_or o e = Ok v ↔ o = Some v.
Proof. destruct o; naive_solver. Qed.

(** ** Moves *)

(** The status changes of an action on an existing move. *)
Definition arrow (a : MoveAction) (s s' : TenantCellMoveStatus) : Prop :=
  match a with
  | PlannedAction => False
  | CopyStarted => s = Planned ∧ s' = Copying
  | CheckpointRecorded => (s = Copying ∨ s = Frozen) ∧ s' = s
  | WritesFrozen => s = Copying ∧ s' = Frozen
  | ValidatedAction => s = Frozen ∧ s' = Validated
  | CutOverAction => s = Validated ∧ s' = CutOver
  | PostCutoverVerified => s = CutOver ∧ s' = CutOver
  | CompletedAction => s = CutOver ∧ s' = Completed
  | RolledBackAction => s = CutOver ∧ s' = RolledBack
  | CancelledAction => (s = Planned ∨ s = Copying ∨ s = Frozen ∨ s = Validated) ∧ s' = Cancelled
  end.

(** What an action does to the fence of its tenant. *)
Definition fence_rule (a : MoveAction) (db db' : CellDb) (id : Z) (m' : MoveRow) : Prop :=
  match a with
  | WritesFrozen => fences db' = <[move_tenant m' := MkFence id (move_revision m')]> (fences db)
  | CompletedAction | RolledBackAction | CancelledAction => fences db' !! move_tenant m' = None
  | _ => fences db' = fences db
  end.

(** Where an action leaves the tenant. *)
Definition placement_rule (a : MoveAction) (db db' : CellDb) (m' : MoveRow) : Prop :=
  match a with
  | CutOverAction => placements db' !! move_tenant m' = Some (MkPlacement (target_data_cell_id m')
      (source_placement_revision m' + 1) (residency_requirement m'))
  | RolledBackAction => placements db' !! move_tenant m' = Some (MkPlacement (source_data_cell_id m')
      (source_placement_revision m' + 2) (residency_requirement m'))
  | _ => placements db' = placements db
  end.

(** The effect of a command on a move. *)
Definition moved (a : MoveAction) (db db' : CellDb) (id : Z) : Prop :=
  ∃ m m' e, moves db !! id = Some m ∧ is_active_move m = true ∧ move_update db db' id m m' e ∧
    move_ok db' id m' ∧ event_action e = a ∧ event_tenant e = move_tenant m ∧
    arrow a (move_status m) (move_status m') ∧ fence_rule a db db' id m' ∧ placement_rule a db db' m' ∧
    event_resulting e = move_status m' ∧ (a = PostCutoverVerified → post_cutover_verified m' = true) ∧
    (a ≠ ValidatedAction → validations db' = validations db) ∧ published db' e (move_revision m').

Lemma moved_ok a db db' id : cell_ok db → moved a db db' id → cell_ok db'.
Proof. intros Hok (m & m' & e & Hm & Ha & Hup & Hm' & _). by apply (move_update_ok db db' id m m' e). Qed.

Lemma lock_move_ok own id expected db m :
  lock_move own id expected db = Ok m ↔
  moves db !! id = Some m ∧ move_revision m = expected ∧ move_tenant m ≠ own.
Proof.
  unfold lock_move. split.
  - intros H. apply rbind_ok in H as (c & Hc & H). apply rbind_ok in H as (? & Ho & H).
    apply rbind_ok in H as (? & Hr & [= ->]). destruct (moves db !! id); [|done]. injection Hc as ->.
    unfold require_switched_tenant, require_revision in *. run Ho. run Hr. split_and!; auto; lia.
  - intros (-> & <- & Hne). cbn. unfold require_switched_tenant, require_revision.
    rewrite (proj2 (Z.eqb_neq _ _)) by congruence. cbn. by rewrite Z.eqb_refl.
Qed.

Lemma move_transition_ok m s u : move_transition m s = Ok u → require_transition (move_status m) s = Ok tt.
Proof. unfold move_transition. destruct (require_transition _ _) as [[]|]; done. Qed.

Lemma next_revision_ok r n : next_revision r = Ok n → n = r + 1 ∧ n ≤ i64_max.
Proof. unfold next_revision. destruct (revision_checked_next r) eqn:E; [|done]. intros [= <-]. by apply revision_checked_next_spec. Qed.

Lemma next_revision_total r : i64_min ≤ r + 1 ≤ i64_max → next_revision r = Ok (r + 1).
Proof. intros H. unfold next_revision, revision_checked_next, i64_checked_add. by rewrite checked_in. Qed.

Lemma cell_revision_next_ok r n : cell_revision_next r = Some n ↔ n = r + 1 ∧ 0 < n ∧ i64_min ≤ n ≤ i64_max.
Proof.
  unfold cell_revision_next, DataCellRevision_new. split.
  - destruct (i64_checked_add r 1) as [v|] eqn:E; [|done]. apply checked_Some in E as [-> E].
    destruct (positive_new _ _) as [w|] eqn:Ew; [|done]. apply positive_new_ok in Ew as [-> ?]. by intros [= <-].
  - intros (-> & H1 & H2). unfold i64_checked_add. rewrite checked_in by done.
    unfold positive_new. by rewrite (proj2 (Z.ltb_lt _ _)).
Qed.

Lemma slots_le db db' id m m' :
  moves db !! id = Some m → moves db' = <[id := m']> (moves db) → placements db' = placements db →
  (∀ cell, move_slots cell m' ≤ move_slots cell m) → ∀ cell, committed db' cell ≤ committed db cell.
Proof.
  intros Hm Em Ep Hs cell. unfold committed, placement_count. rewrite Ep, (reserved_insert db db' id m m' cell) by done.
  specialize (Hs cell). lia.
Qed.

Lemma slots_le_placed db db' id m m' t p p' :
  moves db !! id = Some m → moves db' = <[id := m']> (moves db) →
  placements db !! t = Some p → placements db' = <[t := p']> (placements db) →
  (∀ cell, move_slots cell m' + placement_slots cell p' ≤ move_slots cell m + placement_slots cell p) →
  ∀ cell, committed db' cell ≤ committed db cell.
Proof.
  intros Hm Em Hp Ep Hs cell. unfold committed. rewrite (placed_insert db db' t p p') by done.
  rewrite (reserved_insert db db' id m m' cell) by done. specialize (Hs cell). lia.
Qed.

Lemma move_event_last db db' e id a rev :
  move_events db' = move_events db ++ [e] → event_move e = id → event_action e = a → event_revision e = rev →
  move_event db' id a rev.
Proof. intros E <- <- <-. exists e. rewrite E. split; [set_solver|done]. Qed.

Ltac slots := intros ?; unfold move_slots, placement_slots, reserves_inbound, reserves_rollback; cbn;
  repeat match goal with H : move_status _ = _ |- _ => rewrite H end; cbn;
  rewrite ?andb_true_r, ?andb_false_r; repeat case_match; bool_to_prop; try lia; congruence.

(** The fence of a tenant belongs to its active move. *)
Lemma tenant_fence db id m f :
  cell_ok db → moves db !! id = Some m → is_active_move m = true → fences db !! move_tenant m = Some f →
  fence_move f = id ∧ is_write_fenced (move_status m) = true.
Proof.
  intros Hok Hm Ha Hf. destruct (fences_ok db Hok _ f Hf) as (n & Hn & Et & Hw).
  assert (fence_move f = id) as E.
  { apply (one_active db Hok _ _ n m Hn Hm); [|done|done]. unfold is_active_move. by destruct (move_status n). }
  rewrite E in Hn. by simplify_eq.
Qed.

(** Split the run of a command on a move; [Hs] is the status it starts from. *)
Ltac open_move H :=
  apply rbind_ok in H as (?m & (?Hm & _ & _)%lock_move_ok & H).
Ltac open_transition H :=
  apply rbind_ok in H as (_ & ?Ht%move_transition_ok & H).
Ltac from_status Ht m s := assert (move_status m = s) as ?Hs by (by destruct (move_status m)); clear Ht.
Ltac open_revision H :=
  apply rbind_ok in H as (? & [-> ?Hrev]%next_revision_ok & H); cbn zeta in H.
Ltac close_event H :=
  apply rbind_ok in H as (?db1 & ?Hev & [= <- <-]);
  apply record_move_event_ok in Hev as (?box & -> & ?Hfresh & ?Hbox & ?Hstep & ?Hpub).

(** The fields of [move_ok] that the old row already had. *)
Ltac settle Hok Hm :=
  let Hmok := fresh "Hmok" in
  pose proof (moves_ok _ Hok _ _ Hm) as Hmok;
  match type of Hm with _ = Some ?m => destruct m; cbn in *; subst; destruct Hmok; split; cbn in *; try done; eauto; try lia end.

(** The frame of an update that leaves placements alone. *)
Ltac frame Hok :=
  split; cbn; try done; eauto;
  try (by match goal with H : outbox_keys_ok _ → outbox_keys_ok _ |- _ => apply H, Hok end).

Lemma published_next db db' id m e :
  cell_ok db → moves db !! id = Some m → event_tenant e = move_tenant m → event_move e = id →
  published db' e (sequence_of db (event_tenant e) (move_ordering_key (event_move e)) + 1) →
  published db' e (move_revision m + 1).
Proof. intros Hok Hm -> ->. by rewrite (streams_ok db Hok), Hm, Z.eqb_refl. Qed.

Lemma start_copy_ok own id expected db db' r :
  cell_ok db → start_copy own id expected db = Ok (db', r) → moved CopyStarted db db' id ∧ r = id.
Proof.
  intros Hok H. unfold start_copy in H. open_move H. open_transition H. from_status Ht m Planned.
  apply rbind_ok in H as (_ & _ & H). open_revision H. close_event H. split; [|done].
  assert (Ha : is_active_move m = true) by (unfold is_active_move; by rewrite Hs).
  exists m. eexists _, _. split_and!; [done|done|..].
  - frame Hok.
    + intros f Hf. destruct (tenant_fence db id m f Hok Hm Ha Hf) as [? Hw]. by rewrite Hs in Hw.
    + by apply (slots_le _ _ id m (with_move Copying (move_revision m + 1) m)); [..|slots].
  - settle Hok Hm.
  - done.
  - done.
  - by rewrite ?Hs.
  - done || apply lookup_delete_eq.
  - done || (cbn; rewrite lookup_insert_eq; f_equal; f_equal; lia).
  - by rewrite ?Hs.
  - done.
  - done.
  - by apply (published_next db _ id m).
Qed.

Lemma checkpoint_ok own id expected c db db' r :
  cp_target_replay_lsn c ≤ cp_source_lsn c → cell_ok db → checkpoint own id expected c db = Ok (db', r) → moved CheckpointRecorded db db' id ∧ r = id.
Proof.
  intros Hlsn Hok H. unfold checkpoint in H. open_move H.
  destruct (bool_decide _ || bool_decide _) eqn:Hst in H; [|done]. destruct (_ || _) in H; [done|].
  open_revision H. close_event H. split; [|done].
  assert (Hs : move_status m = Copying ∨ move_status m = Frozen) by (apply orb_true_iff in Hst as [?|?]; bool_to_prop; auto).
  assert (Ha : is_active_move m = true) by (unfold is_active_move; by destruct Hs as [-> | ->]).
  exists m. eexists _, _. split_and!; [done|done|..].
  - frame Hok.
    + intros f Hf. by destruct (tenant_fence db id m f Hok Hm Ha Hf).
    + apply (slots_le _ _ id m (with_checkpoint c (with_move (move_status m) (move_revision m + 1) m))); [done..|].
      destruct Hs; slots.
  - destruct Hs as [Hs|Hs]; settle Hok Hm. all: try (by intros t [= <-]; eexists).
    all: intros ?; destruct move_fence as (f & ? & ?); [done|]; exists f; split; [done|].
    all: by eapply move_event_snoc.
  - done.
  - done.
  - by rewrite ?Hs.
  - done || apply lookup_delete_eq.
  - done || (cbn; rewrite lookup_insert_eq; f_equal; f_equal; lia).
  - by rewrite ?Hs.
  - done.
  - done.
  - by apply (published_next db _ id m).
Qed.

Lemma freeze_ok own id expected db db' r :
  cell_ok db → freeze own id expected db = Ok (db', r) → moved WritesFrozen db db' id ∧ r = id.
Proof.
  intros Hok H. unfold freeze in H. open_move H. open_transition H. from_status Ht m Copying.
  destruct (checkpointed m) eqn:Hck in H; [|done].
  apply rbind_ok in H as (_ & _ & H). open_revision H. case_bool_decide as Hnof; [done|]. close_event H. split; [|done].
  assert (Ha : is_active_move m = true) by (unfold is_active_move; by rewrite Hs).
  exists m. eexists _, _. split_and!; [done|done|..].
  - frame Hok.
    + intros t Ht. by rewrite lookup_insert_ne.
    + intros f Hf. rewrite lookup_insert_eq in Hf. injection Hf as <-. done.
    + by apply (slots_le _ _ id m (with_move Frozen (move_revision m + 1) m)); [..|slots].
  - settle Hok Hm. intros _. eexists. rewrite lookup_insert_eq. split; [done|]. by eapply move_event_last.
  - done.
  - done.
  - by rewrite ?Hs.
  - done || apply lookup_delete_eq.
  - done || (cbn; rewrite lookup_insert_eq; f_equal; f_equal; lia).
  - by rewrite ?Hs.
  - done.
  - done.
  - by apply (published_next db _ id m).
Qed.

Lemma latest_checkpoint_event id db c :
  latest_checkpoint_revision id db = Some c → move_event db id CheckpointRecorded c.
Proof.
  unfold latest_checkpoint_revision. rewrite fmap_last. destruct (last _) as [e|] eqn:E; [|done]. intros [= <-].
  apply last_Some in E as [l E]. assert (Hin : e ∈ l ++ [e]) by set_solver. rewrite <-E, sort_by_perm in Hin.
  apply elem_of_filter_bool in Hin as [Hin Ht]. bool_to_prop. by exists e.
Qed.

Lemma write_fence_epoch_Some tenant id db f :
  write_fence_epoch tenant id db = Some f ↔ fences db !! tenant = Some (MkFence id f).
Proof.
  unfold write_fence_epoch. destruct (fences db !! tenant) as [[i g]|]; cbn; [|done].
  destruct (Z.eqb_spec i id); naive_solver.
Qed.

Lemma validate_ok own id expected v db db' r :
  parity v → cell_ok db → validate own id expected v db = Ok (db', r) → moved ValidatedAction db db' id ∧ r = id.
Proof.
  intros Hv Hok H. unfold validate in H. open_move H. open_transition H. from_status Ht m Frozen.
  destruct (latest_checkpoint_revision id db) as [c|] eqn:Hc in H; [|done].
  destruct (write_fence_epoch _ _ _) as [f|] eqn:Hf in H; [|done]. destruct (_ || _) eqn:Hle in H; [done|].
  apply rbind_ok in H as (_ & _ & H). open_revision H.
  destruct (validate_tenant_cell_move_validation _ _ _ _ _) in H; [|done].
  case_bool_decide as Hno; [done|]. close_event H. split; [|done].
  assert (Ha : is_active_move m = true) by (unfold is_active_move; by rewrite Hs).
  apply latest_checkpoint_event in Hc. apply write_fence_epoch_Some in Hf. bool_to_prop.
  exists m. eexists _, _. split_and!; [done|done|..].
  - frame Hok.
    + intros g Hg. by destruct (tenant_fence db id m g Hok Hm Ha Hg).
    + intros j Hj. by rewrite lookup_insert_ne.
    + by apply (slots_le _ _ id m (with_move Validated (move_revision m + 1) m)); [..|slots].
  - settle Hok Hm.
    + intros _. destruct move_fence as (g & ? & ?); [done|]. exists g. split; [done|]. by eapply move_event_snoc.
    + intros _. destruct move_fence as (g & Hg & ?); [done|]. simplify_eq. split.
      * exists v. cbn. by rewrite lookup_insert_eq.
      * exists f. eexists. split_and!; [by eapply move_event_snoc|by eapply move_event_snoc|lia].
  - done.
  - done.
  - by rewrite ?Hs.
  - done || apply lookup_delete_eq.
  - done || (cbn; rewrite lookup_insert_eq; f_equal; f_equal; lia).
  - by rewrite ?Hs.
  - done.
  - done.
  - by apply (published_next db _ id m).
Qed.

Lemma apply_cutover_ok db id m p rev db' r :
  moves db !! id = Some m → move_status m = CutOver → cutover_placement_revision m = Some rev →
  placements db !! move_tenant m = Some p → apply_tenant_cell_move_placement id CutOverAction db = Ok (db', r) →
  r = rev ∧ db' = set_placements (<[move_tenant m := MkPlacement (target_data_cell_id m) rev (placement_residency p)]>
    (placements db)) db.
Proof.
  intros Hm Hs Hr Hp. unfold apply_tenant_cell_move_placement. rewrite Hm. cbn [ok_or rbind].
  rewrite Hs, Hr. cbn. rewrite Hp. by intros [= <- <-].
Qed.

Lemma apply_rollback_ok db id m p rev db' r :
  moves db !! id = Some m → move_status m = RolledBack → rollback_placement_revision m = Some rev →
  placements db !! move_tenant m = Some p → apply_tenant_cell_move_placement id RolledBackAction db = Ok (db', r) →
  r = rev ∧ db' = set_placements (<[move_tenant m := MkPlacement (source_data_cell_id m) rev (placement_residency p)]>
    (placements db)) db.
Proof.
  intros Hm Hs Hr Hp. unfold apply_tenant_cell_move_placement. rewrite Hm. cbn [ok_or rbind].
  rewrite Hs, Hr. cbn. rewrite Hp. by intros [= <- <-].
Qed.

Lemma cutover_ok own id expected placement db db' r :
  cell_ok db → cutover own id expected placement db = Ok (db', r) → moved CutOverAction db db' id ∧ r = id.
Proof.
  intros Hok H. unfold cutover in H. open_move H. open_transition H. from_status Ht m Validated.
  destruct (_ =? _) eqn:Hexp in H; [|done]. apply rbind_ok in H as (_ & _ & H).
  apply rbind_ok in H as (p & Hp & H). destruct (placements db !! _) as [p'|] eqn:Ep in Hp; [|done]. injection Hp as ->.
  destruct (_ && _) eqn:Hpl in H; [|done]. case_bool_decide as Hfe; [|done].
  apply rbind_ok in H as (cr & Hcr & H). destruct (cell_revision_next _) as [cr'|] eqn:Ecr in Hcr; [|done].
  injection Hcr as ->. apply cell_revision_next_ok in Ecr as (-> & Hcr1 & Hcr2). open_revision H.
  apply rbind_ok in H as ([db2 applied] & Happ & H). destruct (applied =? _) eqn:Eapp in H; [|done].
  apply (apply_cutover_ok _ id (with_cutover (source_placement_revision m + 1) (with_move CutOver (move_revision m + 1) m)) p)
    with (rev := source_placement_revision m + 1) in Happ as [-> ->];
    [|cbn; by rewrite lookup_insert_eq|done|done|done].
  close_event H. split; [|done].
  assert (Ha : is_active_move m = true) by (unfold is_active_move; by rewrite Hs).
  pose proof (move_home _ _ _ (moves_ok db Hok id m Hm) Ha) as Hhome. unfold home in Hhome. rewrite Hs in Hhome.
  cbn in Hhome. rewrite Ep in Hhome. injection Hhome as ->. bool_to_prop.
  exists m. eexists _, _. split_and!; [done|done|..].
  - frame Hok.
    + right. eexists. split; [done|]. cbn. split; [lia|]. split; [done|by right].
    + intros f Hf. by destruct (tenant_fence db id m f Hok Hm Ha Hf).
    + eapply (slots_le_placed _ _ id m (with_cutover (source_placement_revision m + 1) (with_move CutOver (move_revision m + 1) m)));
        [done|done|done|done|]. slots.
  - settle Hok Hm.
    + intros _. by rewrite lookup_insert_eq.
    + intros _. destruct move_fence as (g & ? & ?); [done|]. exists g. split; [done|]. by eapply move_event_snoc.
    + intros _. eapply validated_snoc; [done..|]. by apply move_validated.
    + intros _. split; [done|lia].
  - done.
  - done.
  - by rewrite ?Hs.
  - done || apply lookup_delete_eq.
  - done || (cbn; rewrite lookup_insert_eq; f_equal; f_equal; lia).
  - by rewrite ?Hs.
  - done.
  - done.
  - by apply (published_next db _ id m).
Qed.

Lemma verify_cutover_ok own id expected v db db' r :
  cell_ok db → verify_cutover own id expected v db = Ok (db', r) → moved PostCutoverVerified db db' id ∧ r = id.
Proof.
  intros Hok H. unfold verify_cutover in H. open_move H. case_bool_decide as Hs; [|done].
  destruct (post_cutover_verified m) eqn:Hpv in H; [done|].
  apply rbind_ok in H as (cr & Hcr & H). destruct (_ && _) eqn:Hobs in H; [|done]. open_revision H.
  case_bool_decide as Hno; [done|]. close_event H. split; [|done].
  assert (Ha : is_active_move m = true) by (unfold is_active_move; by rewrite Hs).
  destruct (move_cutover _ _ _ (moves_ok db Hok id m Hm)) as [Ecr Hcrm]; [by rewrite Hs|].
  rewrite Ecr in Hcr. injection Hcr as <-. bool_to_prop.
  exists m. eexists _, _. split_and!; [done|done|..].
  - frame Hok.
    + intros f Hf. by destruct (tenant_fence db id m f Hok Hm Ha Hf).
    + intros j Hj. by rewrite lookup_insert_ne.
    + apply (slots_le _ _ id m (with_verified (with_move CutOver (move_revision m + 1) m))); [done..|]. slots.
  - settle Hok Hm.
    + intros _. destruct move_fence as (g & ? & ?); [done|]. exists g. split; [done|]. by eapply move_event_snoc.
    + intros _. eapply validated_snoc; [done..|]. by apply move_validated.
    + intros _. exists v. by rewrite lookup_insert_eq.
  - done.
  - done.
  - by rewrite ?Hs.
  - done || apply lookup_delete_eq.
  - done || (cbn; rewrite lookup_insert_eq; f_equal; f_equal; lia).
  - by rewrite ?Hs.
  - done.
  - done.
  - by apply (published_next db _ id m).
Qed.

Lemma delete_fence_ok db id m f :
  fences db !! move_tenant m = Some (MkFence id f) →
  delete_fence (move_tenant m) id db = set_fences (delete (move_tenant m) (fences db)) db.
Proof. intros Hf. unfold delete_fence. by rewrite (proj2 (write_fence_epoch_Some _ _ _ _) Hf). Qed.

Lemma complete_ok own id expected db db' r :
  cell_ok db → complete own id expected db = Ok (db', r) → moved CompletedAction db db' id ∧ r = id.
Proof.
  intros Hok H. unfold complete in H. open_move H. open_transition H. from_status Ht m CutOver.
  destruct (post_cutover_verified m) eqn:Hpv in H; [|done].
  apply rbind_ok in H as (cr & Hcr & H). open_revision H.
  destruct (move_fence _ _ _ (moves_ok db Hok id m Hm)) as (f & Hf & Hfe); [by rewrite Hs|].
  rewrite (delete_fence_ok (set_move _ _ _) id m f) in H by done. close_event H. split; [|done].
  assert (Ha : is_active_move m = true) by (unfold is_active_move; by rewrite Hs).
  exists m. eexists _, _. split_and!; [done|done|..].
  - frame Hok.
    + intros t Hne. by rewrite lookup_delete_ne.
    + intros g Hg. by rewrite lookup_delete_eq in Hg.
    + apply (slots_le _ _ id m (with_move Completed (move_revision m + 1) m)); [done..|]. slots.
  - settle Hok Hm. intros _. eapply validated_snoc; [done..|]. by apply move_validated.
  - done.
  - done.
  - by rewrite ?Hs.
  - done || apply lookup_delete_eq.
  - done || (cbn; rewrite lookup_insert_eq; f_equal; f_equal; lia).
  - by rewrite ?Hs.
  - done.
  - done.
  - by apply (published_next db _ id m).
Qed.

Lemma rollback_ok own id expected v db db' r :
  cell_ok db → rollback own id expected v db = Ok (db', r) → moved RolledBackAction db db' id ∧ r = id.
Proof.
  intros Hok H. unfold rollback in H. open_move H. open_transition H. from_status Ht m CutOver.
  apply rbind_ok in H as (cr & Hcr & H).
  destruct (move_cutover _ _ _ (moves_ok db Hok id m Hm)) as [Ecr Hcrm]; [by rewrite Hs|].
  rewrite Ecr in Hcr. injection Hcr as <-.
  apply rbind_ok in H as (rr & Hrr & H). destruct (cell_revision_next _) as [rr'|] eqn:Err in Hrr; [|done].
  injection Hrr as ->. apply cell_revision_next_ok in Err as (-> & Hr1 & Hr2).
  destruct (_ =? _) eqn:Hob in H; [|done]. destruct (_ =? _) eqn:Hex in H; [|done].
  apply rbind_ok in H as (p & Hp & H). destruct (placements db !! _) as [p'|] eqn:Ep in Hp; [|done]. injection Hp as ->.
  destruct (_ && _) eqn:Hpl in H; [|done]. case_bool_decide as Hfe; [|done]. open_revision H.
  case_bool_decide as Hno; [done|].
  apply rbind_ok in H as ([db2 applied] & Happ & H). destruct (applied =? _) eqn:Eapp in H; [|done].
  apply (apply_rollback_ok _ id (with_rollback (source_placement_revision m + 1 + 1)
    (with_move RolledBack (move_revision m + 1) m)) p)
    with (rev := source_placement_revision m + 1 + 1) in Happ as [-> ->];
    [|cbn; by rewrite lookup_insert_eq|done|done|done].
  destruct (move_fence _ _ _ (moves_ok db Hok id m Hm)) as (f & Hf & Hfev); [by rewrite Hs|].
  rewrite (delete_fence_ok _ id m f) in H by done. close_event H. split; [|done].
  assert (Ha : is_active_move m = true) by (unfold is_active_move; by rewrite Hs).
  pose proof (move_home _ _ _ (moves_ok db Hok id m Hm) Ha) as Hhome. unfold home in Hhome. rewrite Hs in Hhome.
  cbn in Hhome. rewrite Ep in Hhome. injection Hhome as ->. bool_to_prop.
  exists m. eexists _, _. split_and!; [done|done|..].
  - frame Hok.
    + right. eexists. split; [done|]. cbn. split; [lia|]. split; [done|by left].
    + intros t Hne. by rewrite lookup_delete_ne.
    + intros g Hg. by rewrite lookup_delete_eq in Hg.
    + intros j Hj. by rewrite lookup_insert_ne.
    + eapply (slots_le_placed _ _ id m (with_rollback (source_placement_revision m + 1 + 1)
        (with_move RolledBack (move_revision m + 1) m))); [done|done|done|done|]. slots.
  - settle Hok Hm.
    + intros _. eapply validated_snoc; [done..|]. by apply move_validated.
    + intros _. split; [f_equal; lia|]. exists v. rewrite lookup_insert_eq. split_and!; [done|done|lia].
  - done.
  - done.
  - by rewrite ?Hs.
  - done || apply lookup_delete_eq.
  - done || (cbn; rewrite lookup_insert_eq; f_equal; f_equal; lia).
  - by rewrite ?Hs.
  - done.
  - done.
  - by apply (published_next db _ id m).
Qed.

Lemma cancel_ok own id expected db db' r :
  cell_ok db → cancel own id expected db = Ok (db', r) → moved CancelledAction db db' id ∧ r = id.
Proof.
  intros Hok H. unfold cancel in H. open_move H. open_transition H. open_revision H. close_event H. split; [|done].
  assert (Hs : move_status m = Planned ∨ move_status m = Copying ∨ move_status m = Frozen ∨ move_status m = Validated)
    by (destruct (move_status m); naive_solver).
  assert (Ha : is_active_move m = true) by (unfold is_active_move; by destruct Hs as [-> |[-> |[-> | ->]]]).
  set (db1 := set_move id (with_move Cancelled (move_revision m + 1) m) db) in *.
  assert (Hdf : ∃ fs, delete_fence (move_tenant m) id db1 = set_fences fs db1 ∧ fs !! move_tenant m = None ∧
    ∀ t, t ≠ move_tenant m → fs !! t = fences db !! t).
  { unfold delete_fence. destruct (write_fence_epoch _ _ _) eqn:Ef.
    - eexists. split; [done|]. split; [by rewrite lookup_delete_eq|]. intros. by rewrite lookup_delete_ne.
    - exists (fences db). split; [by destruct db|]. split; [|done].
      destruct (fences db !! move_tenant m) as [f|] eqn:Hf; [|done].
      destruct (tenant_fence db id m f Hok Hm Ha Hf) as [E _]. destruct f as [fm fe]. cbn in E. subst fm.
      by rewrite (proj2 (write_fence_epoch_Some _ _ db1 fe) Hf) in Ef. }
  destruct Hdf as (fs & Efs & Hnone & Hother). rewrite Efs in *.
  exists m. eexists _, _. split_and!; [done|done|..].
  - frame Hok.
    + intros f Hf. by rewrite Hnone in Hf.
    + apply (slots_le _ _ id m (with_move Cancelled (move_revision m + 1) m)); [done..|].
      destruct Hs as [Hs|[Hs|[Hs|Hs]]]; slots.
  - clear Hbox Efs Hother. settle Hok Hm.
    + intros _. apply move_uncut. by destruct Hs as [-> |[-> |[-> | ->]]].
    + intros _. apply move_not_rolled_back. by destruct Hs as [-> |[-> |[-> | ->]]].
  - done.
  - done.
  - done.
  - done.
  - done.
  - done.
  - done.
  - done.
  - by apply (published_next db _ id m).
Qed.

Lemma has_room_ok c used : has_room c used = true ↔
  used < cell_max_tenants c ∧ (cell_mode c = Dedicated → used = 0).
Proof.
  unfold has_room. destruct (cell_mode c); cbn; rewrite ?orb_false_r; split; intros H.
  - bool_to_prop. naive_solver.
  - apply negb_true_iff, Z.leb_gt. naive_solver.
  - apply negb_true_iff, orb_false_iff in H as [? H]. bool_to_prop. naive_solver lia.
  - destruct H as [H1 H2]. rewrite (H2 eq_refl) in *. cbn. rewrite orb_false_r. by apply negb_true_iff, Z.leb_gt.
Qed.

Lemma require_available_ok db id requirement u :
  require_available db id requirement = Ok u ↔ ∃ c, data_cells db !! id = Some c ∧ cell_status c = Active ∧
    has_room c (committed db id) = true ∧ allows requirement (cell_residency c) = true.
Proof.
  unfold require_available, committed. destruct u. split.
  - intros H. apply rbind_ok in H as (c & Hc & H). destruct (data_cells db !! id); [|done]. injection Hc as ->.
    run H. eauto.
  - intros (c & -> & Hs & Hr & Ha). cbn. by rewrite bool_decide_true, Hr, Ha by done.
Qed.

Lemma require_target_viability_ok db id m u :
  moves db !! id = Some m → reserves_inbound (target_data_cell_id m) m = true →
  require_target_viability db id m = Ok u ↔ ∃ c, data_cells db !! target_data_cell_id m = Some c ∧
    cell_status c = Active ∧ has_room c (committed db (target_data_cell_id m) - 1) = true ∧
    allows (residency_requirement m) (cell_residency c) = true.
Proof.
  intros Hm Hr. unfold require_target_viability, committed. destruct u.
  pose proof (reserves_disjoint _ _ Hr) as Hnr.
  rewrite (reserved_except db id m (target_data_cell_id m)) by done. unfold move_slots. rewrite Hr, Hnr.
  replace (placement_count db (target_data_cell_id m) + (reserved_move_count db (Some id) (target_data_cell_id m) + (1 + 0)) - 1)
    with (placement_count db (target_data_cell_id m) + reserved_move_count db (Some id) (target_data_cell_id m)) by lia.
  split.
  - intros H. apply rbind_ok in H as (c & Hc & H). destruct (data_cells db !! _); [|done]. injection Hc as ->.
    run H. eauto.
  - intros (c & -> & Hs & Hro & Ha). cbn. by rewrite bool_decide_true, Hro, Ha by done.
Qed.

(** A plan adds one move, bound for a cell that had room for it. *)
Lemma plan_ok own tenant target expected db db' id :
  cell_ok db → plan own tenant target expected db = Ok (db', id) →
  cell_ok db' ∧ id = next_move db ∧
  ∃ p m, placements db !! tenant = Some p ∧ moves db' = <[id := m]> (moves db) ∧ placements db' = placements db ∧
    move_tenant m = tenant ∧ source_data_cell_id m = placement_cell p ∧ target_data_cell_id m = target ∧
    move_status m = Planned ∧ move_revision m = 1 ∧ moves db !! id = None ∧ fences db' = fences db ∧
    validations db' = validations db ∧
    move_events db' = move_events db ++ [MkMoveEvent id tenant PlannedAction 1 None Planned] ∧
    published db' (MkMoveEvent id tenant PlannedAction 1 None Planned) 1.
Proof.
  intros Hok H. unfold plan in H. apply rbind_ok in H as (?u & _ & H).
  apply rbind_ok in H as (p & Hp & H). destruct (placements db !! tenant) as [p'|] eqn:Ep in Hp; [|done]. injection Hp as ->.
  destruct (_ =? expected) eqn:Hrev in H; [|done]. destruct (_ =? target) eqn:Hne in H; [done|].
  apply rbind_ok in H as (_ & (c & Hc & Hs & Hroom & Hal)%require_available_ok & H).
  destruct (existsb _ _) eqn:Hact in H; [done|]. cbn zeta in H. apply rbind_ok in H as (db1 & Hev & [= <- <-]).
  set (m := MkMove _ _ _ _ _ _ _ _ _ _ _ _ _ _ _) in *.
  apply record_move_event_ok in Hev as (box & -> & _ & Hbox & Hstep & Hpub). bool_to_prop.
  destruct (placements_ok db Hok tenant p Ep) as [Hprev (sc & Hsc & Hsal)].
  assert (Hnew : moves db !! next_move db = None).
  { destruct (moves db !! next_move db) as [n|] eqn:En; [|done].
    pose proof (move_ids _ _ _ (moves_ok db Hok _ n En)). lia. }
  assert (Hone : ∀ j n, moves db !! j = Some n → is_active_move n = true → move_tenant n ≠ tenant).
  { intros j n Hj Ha E. apply not_true_iff_false in Hact. apply Hact, existsb_exists. exists (j, n).
    split; [by apply list_elem_of_In, elem_of_map_to_list|]. by rewrite E, Z.eqb_refl, Ha. }
  destruct (evidence_ids db Hok (next_move db)) as (Hv & Hcv & Hrv); [lia|].
  assert (Hseq0 : sequence_of db tenant (move_ordering_key (next_move db)) = 0) by (by rewrite (streams_ok db Hok), Hnew).
  split; [|split; [done|]; exists p, m; split_and!; try done;
    cbn -[move_ordering_key] in Hpub; unfold sequence_of, tenant_outbox in Hpub, Hseq0; cbn -[move_ordering_key] in Hpub;
    rewrite Hseq0 in Hpub; exact Hpub]. split; cbn.
  - intros cid row Hrow. pose proof (cells_ok db Hok cid row Hrow) as Hro.
    assert (Ecom : committed (log_move (MkMoveEvent (next_move db) tenant PlannedAction 1 None Planned) box
      (set_next_move (next_move db + 1) (set_move (next_move db) m db))) cid = committed db cid +
      (if target =? cid then 1 else 0)).
    { unfold committed. rewrite (reserved_new db _ (next_move db) m) by done. unfold move_slots, reserves_inbound,
        reserves_rollback, placement_count. cbn. rewrite andb_true_r, andb_false_r. lia. }
    destruct (Z.eqb_spec target cid) as [->|Hnt]; [|by apply (cell_row_frame db); [cbn; lia|rewrite Ecom; lia|]].
    rewrite Hc in Hrow. injection Hrow as ->. apply has_room_ok in Hroom as [Hr1 Hr2].
    destruct Hro as [H1 H2 H3 H4 H5 H6]. split; try done; rewrite Ecom; [lia|].
    by rewrite Hs; intros [|].
  - intros t q Hq. by apply (placements_ok db Hok t).
  - intros j n Hj. apply lookup_insert_Some in Hj as [[<- <-]|[_ Hj]].
    + split; cbn; try done; try lia. intros cell [-> | ->]; [by exists sc|by exists c].
      all: try (by rewrite Ep; destruct p).
    + apply (move_ok_frame db); cbn; eauto; [lia|set_solver|]. by apply (moves_ok db Hok).
  - intros i j a b Hi Hj Ha Hb E. apply lookup_insert_Some in Hi as [[<- <-]|[Hni Hi]], Hj as [[<- <-]|[Hnj Hj]]; try done.
    + by destruct (Hone j b Hj Hb).
    + by destruct (Hone i a Hi Ha).
    + by apply (one_active db Hok i j a b).
  - intros t f Hf. destruct (fences_ok db Hok t f Hf) as (n & Hn & ? & ?). exists n. split; [|done].
    rewrite lookup_insert_ne; [done|congruence].
  - intros e [He| ->%list_elem_of_singleton]%elem_of_app.
    + destruct (events_ok db Hok e He) as (n & Hn & Hle). exists n. split; [|done]. rewrite lookup_insert_ne; [done|congruence].
    + exists m. rewrite lookup_insert_eq. done.
  - intros j Hj. apply (evidence_ids db Hok). lia.
  - apply Hbox, (outboxes_ok db Hok).
  - intros t j. rewrite (Hstep t). change (sequence_of (set_next_move _ _)) with (sequence_of db).
    rewrite (streams_ok db Hok t j). cbn. destruct (decide (j = next_move db)) as [->|Hnj].
    + rewrite lookup_insert_eq, Hnew. cbn. destruct (Z.eqb_spec tenant t) as [->|Hnt].
      * by rewrite bool_decide_true.
      * rewrite bool_decide_false by naive_solver. done.
    + rewrite lookup_insert_ne, bool_decide_false, Z.add_0_r; [done| |done]. by intros [_ E%(inj _)].
Qed.

(** ** Cells and tenants *)

Lemma create_tenant_ok tenant cid requirement db db' :
  cell_ok db → create_tenant tenant cid requirement db = Ok db' →
  cell_ok db' ∧ placements db !! tenant = None ∧
  db' = set_placements (<[tenant := MkPlacement cid 1 requirement]> (placements db)) db.
Proof.
  intros Hok H. unfold create_tenant in H.
  apply rbind_ok in H as (_ & (c & Hc & Hs & Hroom & Hal)%require_available_ok & H).
  case_bool_decide as Hno; [done|]. unfold place_new_tenant_in_data_cell in H. rewrite Hc in H.
  destruct (_ && _) in H; [|done]. injection H as <-.
  assert (Hnone : placements db !! tenant = None) by (by destruct (placements db !! tenant); [destruct Hno|]).
  split; [|done]. split; cbn.
  - intros k row Hrow. pose proof (cells_ok db Hok k row Hrow) as Hro.
    assert (Ecom : committed (set_placements (<[tenant := MkPlacement cid 1 requirement]> (placements db)) db) k =
      committed db k + (if cid =? k then 1 else 0)).
    { unfold committed. by rewrite (placed_new db _ tenant (MkPlacement cid 1 requirement)), <-Z.add_shuffle0. }
    destruct (Z.eqb_spec cid k) as [->|Hnt]; [|by apply (cell_row_frame db); [cbn; lia|rewrite Ecom; lia|]].
    rewrite Hc in Hrow. injection Hrow as ->. apply has_room_ok in Hroom as [Hr1 Hr2].
    destruct Hro as [H1 H2 H3 H4 H5 H6]. split; try done; rewrite Ecom; [lia|].
    by rewrite Hs; intros [|].
  - intros t q [[<- <-]|[_ Hq]]%lookup_insert_Some; [split; [done|by exists c]|by apply (placements_ok db Hok t)].
  - intros j n Hj. apply (move_ok_frame db); cbn; eauto; [done|..].
    + intros t p Hp. rewrite lookup_insert_ne; [done|congruence].
    + by apply (moves_ok db Hok).
  - apply (one_active db Hok).
  - apply (fences_ok db Hok).
  - apply (events_ok db Hok).
  - apply (evidence_ids db Hok).
  - apply (outboxes_ok db Hok).
  - apply (streams_ok db Hok).
Qed.

(** The effect of a command on one cell: its row is written, its revision grows by
    one, and its residency never changes. *)
Record cell_update (db db' : CellDb) (id : Z) (c' : DataCellRow) : Prop := {
  cu_cells : data_cells db' = <[id := c']> (data_cells db);
  cu_next : next_cell db ≤ next_cell db' ∧ next_move db' = next_move db ∧ ∃ previous,
    cell_events db' = cell_events db ++ [MkCellEvent id (cell_revision c') previous (cell_status c')];
  cu_frame : placements db' = placements db ∧ moves db' = moves db ∧ fences db' = fences db ∧
    validations db' = validations db ∧ cutover_verifications db' = cutover_verifications db ∧
    rollback_verifications db' = rollback_verifications db ∧ move_events db' = move_events db;
  cu_residency : ∀ c, data_cells db !! id = Some c → cell_residency c' = cell_residency c;
  cu_row : cell_row_ok db' id c';
  cu_outbox : outbox_keys_ok db';
  cu_stream : ∀ t i, sequence_of db' t (move_ordering_key i) = sequence_of db t (move_ordering_key i);
}.

Lemma cell_update_ok db db' id c' : cell_ok db → cell_update db db' id c' → cell_ok db'.
Proof.
  intros Hok [Ec (Hnc & Hnm & _) (Ep & Em & Ef & Ev & Ecv & Erv & Ee) Hres Hrow Hob Hst].
  assert (Hcells : ∀ k row, data_cells db !! k = Some row →
    ∃ row', data_cells db' !! k = Some row' ∧ cell_residency row' = cell_residency row).
  { intros k row Hk. rewrite Ec. destruct (decide (k = id)) as [->|Hne].
    - rewrite lookup_insert_eq. eauto.
    - rewrite lookup_insert_ne by done. eauto. }
  split; rewrite ?Ep, ?Em, ?Ef, ?Ev, ?Ecv, ?Erv, ?Ee, ?Hnm; try apply Hok.
  - intros k row Hk. rewrite Ec in Hk. apply lookup_insert_Some in Hk as [[<- <-]|[_ Hk]]; [done|].
    apply (cell_row_frame db); [done| |by apply (cells_ok db Hok)].
    unfold committed, placement_count, reserved_move_count. by rewrite Ep, Em.
  - intros t p Hp. destruct (placements_ok db Hok t p Hp) as [? (c & Hc & Ha)]. split; [done|].
    destruct (Hcells _ _ Hc) as (c2 & Hc2 & E). exists c2. by rewrite E.
  - intros k m Hm. apply (move_ok_frame db); try done; [lia|by rewrite Ep|by rewrite Ee|by apply (moves_ok db Hok)].
  - done.
  - intros t i. rewrite Hst. apply (streams_ok db Hok).
Qed.

Lemma register_ok tenant key name region residency mode max db db' id :
  cell_ok db → 1 ≤ max → (mode = Dedicated → max = 1) →
  register tenant key name region residency mode max db = Ok (db', id) →
  id = next_cell db ∧ data_cells db !! id = None ∧
  cell_update db db' id (MkCell key name region residency mode Provisioning 1 max).
Proof.
  intros Hok Hmax Hded H. unfold register in H. destruct (existsb _ _) in H; [done|]. cbn zeta in H.
  apply rbind_ok in H as (db1 & Hev & [= <- <-]). apply record_cell_event_ok in Hev as (box & -> & Hbox & Hseq).
  assert (Hnew : data_cells db !! next_cell db = None).
  { destruct (data_cells db !! next_cell db) as [n|] eqn:En; [|done].
    pose proof (cell_ids _ _ _ (cells_ok db Hok _ n En)). lia. }
  split; [done|]. split; [done|].
  assert (Hzero : committed db (next_cell db) = 0).
  { unfold committed, placement_count, reserved_move_count. rewrite !count_rows_none; [done|..].
    - intros i m Hm. cbn. apply orb_false_iff. destruct (moves_ok db Hok i m Hm) as [_ _ _ Hc _ _ _ _ _ _ _ _ _ _ _ _].
      unfold reserves_inbound, reserves_rollback. split; apply andb_false_iff; left; apply Z.eqb_neq; intros E.
      + destruct (Hc (next_cell db)) as (? & ? & _); [by right|congruence].
      + destruct (Hc (next_cell db)) as (? & ? & _); [by left|congruence].
    - intros t p Hp. apply Z.eqb_neq. intros E. destruct (placements_ok db Hok t p Hp) as [_ (c & Hc & _)]. congruence. }
  split; cbn; [done|split_and!; [lia|done|by eexists]|done|congruence| |apply Hbox, (outboxes_ok db Hok)|done].
  assert (Hz : ∀ d, placements d = placements db → moves d = moves db → committed d (next_cell db) = 0).
  { intros d E1 E2. unfold committed, placement_count, reserved_move_count. by rewrite E1, E2. }
  split; cbn; rewrite ?Hz by done; try done; lia.
Qed.

Lemma committed_same db db' : placements db' = placements db → moves db' = moves db →
  ∀ cell, committed db' cell = committed db cell.
Proof. intros E1 E2 cell. unfold committed, placement_count, reserved_move_count. by rewrite E1, E2. Qed.

Lemma committed_sum db id v :
  match i64_checked_add (placement_count db id) (reserved_inbound_move_count db id) with
  | Some value => i64_checked_add value (reserved_rollback_move_count db id)
  | None => None
  end = Some v → v = committed db id.
Proof.
  unfold i64_checked_add, committed. rewrite reserved_split. destruct (checked _ _ _) as [w|] eqn:E; [|done].
  apply checked_Some in E as [-> _]. intros [-> _]%checked_Some. lia.
Qed.

Lemma reconfigure_ok tenant id expected name max db db' r :
  cell_ok db → 1 ≤ max → reconfigure tenant id expected name max db = Ok (db', r) →
  r = id ∧ ∃ c, data_cells db !! id = Some c ∧ committed db id ≤ max ∧
    (cell_name c ≠ name ∨ cell_max_tenants c ≠ max) ∧
    cell_update db db' id (MkCell (cell_key c) name (cell_region c) (cell_residency c) (cell_mode c)
      (cell_status c) (cell_revision c + 1) max).
Proof.
  intros Hok Hmax H. unfold reconfigure in H. apply rbind_ok in H as (c & Hc & H).
  destruct (data_cells db !! id) as [c'|] eqn:Ec in Hc; [|done]. injection Hc as ->.
  destruct (_ =? expected) eqn:Hrev in H; [|done]. apply rbind_ok in H as (u & Hcap & H).
  apply rbind_ok in H as (v & Hv%ok_or_Ok%committed_sum & H). subst v. destruct (_ <? _) eqn:Hle in H; [done|].
  destruct (_ && _) eqn:Hch in H; [done|]. apply rbind_ok in H as (n & Hn & H).
  destruct (cell_revision_next _) as [n'|] eqn:En in Hn; [|done]. injection Hn as ->.
  apply cell_revision_next_ok in En as (-> & Hn1 & Hn2). cbn zeta in H.
  apply rbind_ok in H as (db1 & Hev & [= <- <-]). apply record_cell_event_ok in Hev as (box & -> & Hbox & Hseq).
  assert (Hdiff : cell_name c ≠ name ∨ cell_max_tenants c ≠ max) by (apply andb_false_iff in Hch as [?|?]; bool_to_prop; auto).
  clear Hch. bool_to_prop. subst. split; [done|]. exists c. split; [done|]. split; [done|]. split; [done|].
  destruct (cells_ok db Hok id c Ec) as [H1 H2 H3 H4 H5 H6].
  split; cbn; [done|split_and!; [done|done|by eexists]|done|naive_solver| |apply Hbox, (outboxes_ok db Hok)|done].
  split; cbn; rewrite ?(committed_same db) by done; try done.
  intros Hd. unfold validate_capacity in Hcap. rewrite Hd in Hcap. cbn in Hcap.
  destruct (Z.eqb_spec max 1); done.
Qed.

Lemma change_status_ok tenant id expected status db db' r :
  cell_ok db → change_status tenant id expected status db = Ok (db', r) →
  r = id ∧ ∃ c, data_cells db !! id = Some c ∧ require_cell_transition (cell_status c) status = Ok tt ∧
    (status = Retired → committed db id = 0) ∧
    cell_update db db' id (MkCell (cell_key c) (cell_name c) (cell_region c) (cell_residency c) (cell_mode c)
      status (cell_revision c + 1) (cell_max_tenants c)).
Proof.
  intros Hok H. unfold change_status in H. apply rbind_ok in H as (c & Hc & H).
  destruct (data_cells db !! id) as [c'|] eqn:Ec in Hc; [|done]. injection Hc as ->.
  destruct (_ =? expected) eqn:Hrev in H; [|done]. apply rbind_ok in H as (u & Htr & H).
  destruct (require_cell_transition _ _) as [[]|] eqn:Et in Htr; [|done].
  destruct (bool_decide _ && _) eqn:Hret in H; [done|]. apply rbind_ok in H as (n & Hn & H).
  destruct (cell_revision_next _) as [n'|] eqn:En in Hn; [|done]. injection Hn as ->.
  apply cell_revision_next_ok in En as (-> & Hn1 & Hn2). cbn zeta in H.
  apply rbind_ok in H as (action & Hact & H).
  apply rbind_ok in H as (db1 & Hev & [= <- <-]). apply record_cell_event_ok in Hev as (box & -> & Hbox & Hseq).
  assert (Hidle : status = Retired → committed db id = 0).
  { intros ->. rewrite bool_decide_true in Hret by done. cbn in Hret.
    apply orb_false_iff in Hret as [[H1 H2]%orb_false_iff H3]. bool_to_prop. unfold committed. rewrite reserved_split. lia. }
  bool_to_prop. subst expected. split; [done|]. exists c. split; [done|]. split; [done|]. split; [done|].
  destruct (cells_ok db Hok id c Ec) as [H1 H2 H3 H4 H5 H6].
  split; cbn; [done|split_and!; [done|done|by eexists]|done|naive_solver| |apply Hbox, (outboxes_ok db Hok)|done].
  split; cbn; rewrite ?(committed_same db) by done; try done.
  intros [-> | ->]; [|by apply Hidle]. by destruct (cell_status c).
Qed.

(** ** Every step *)

(** What a command does, by its kind. *)
Definition effect (c : CellCommand) (db db' : CellDb) (r : Z) : Prop :=
  match c with
  | Register key name region residency mode max =>
      r = next_cell db ∧ data_cells db !! r = None ∧
      cell_update db db' r (MkCell key name region residency mode Provisioning 1 max)
  | Reconfigure id _ name max => r = id ∧ ∃ c c', data_cells db !! id = Some c ∧ cell_update db db' id c' ∧
      cell_status c' = cell_status c ∧ cell_max_tenants c' = max ∧ committed db id ≤ max
  | ChangeStatus id _ status => r = id ∧ ∃ c c', data_cells db !! id = Some c ∧ cell_update db db' id c' ∧
      cell_status c' = status ∧ require_cell_transition (cell_status c) status = Ok tt
  | Plan tenant target _ => cell_ok db' ∧ r = next_move db ∧ ∃ p m, placements db !! tenant = Some p ∧
      moves db' = <[r := m]> (moves db) ∧ placements db' = placements db ∧ move_tenant m = tenant ∧
      source_data_cell_id m = placement_cell p ∧ target_data_cell_id m = target ∧
      move_status m = Planned ∧ move_revision m = 1 ∧ moves db !! r = None ∧ fences db' = fences db ∧
      validations db' = validations db ∧
      move_events db' = move_events db ++ [MkMoveEvent r tenant PlannedAction 1 None Planned] ∧
      published db' (MkMoveEvent r tenant PlannedAction 1 None Planned) 1
  | StartCopy id _ => moved CopyStarted db db' id ∧ r = id
  | Checkpoint id _ _ => moved CheckpointRecorded db db' id ∧ r = id
  | Freeze id _ => moved WritesFrozen db db' id ∧ r = id
  | Validate id _ _ => moved ValidatedAction db db' id ∧ r = id
  | Cutover id _ _ => moved CutOverAction db db' id ∧ r = id
  | VerifyCutover id _ _ => moved PostCutoverVerified db db' id ∧ r = id
  | Complete id _ => moved CompletedAction db db' id ∧ r = id
  | Rollback id _ _ => moved RolledBackAction db db' id ∧ r = id
  | Cancel id _ => moved CancelledAction db db' id ∧ r = id
  end.

Lemma DataCellCapacity_new_pos v max : DataCellCapacity_new v = Ok max → 1 ≤ max.
Proof. unfold DataCellCapacity_new. destruct (_ && _) eqn:E; [|done]. intros [= <-]. bool_to_prop. lia. Qed.

Lemma execute_effect own c db db' r :
  cell_ok db → well_typed c → precheck c = Ok tt → execute own c db = Ok (db', r) → effect c db db' r.
Proof.
  intros Hok Hty Hpre H. destruct c; cbn in *.
  - apply (register_ok own _ _ _ _ _ _ _ _ _ Hok); [..|exact H].
    + destruct Hty as [v Hv%DataCellCapacity_new_pos]. done.
    + intros ->. unfold validate_capacity in Hpre. cbn in Hpre. by destruct (Z.eqb_spec max_tenants 1).
  - destruct (reconfigure_ok own id expected name max_tenants db db' r Hok) as (-> & row & Hr & Hle & _ & Hup); [|done|].
    { by destruct Hty as [v Hv%DataCellCapacity_new_pos]. }
    split; [done|]. exists row. eexists. split_and!; [done|exact Hup|done..].
  - destruct (change_status_ok own id expected status db db' r Hok H) as (-> & row & Hr & Ht & _ & Hup).
    split; [done|]. exists row. eexists. split_and!; [done|exact Hup|done..].
  - by apply (plan_ok own _ _ expected_placement).
  - by apply (start_copy_ok own _ expected).
  - apply (checkpoint_ok own _ expected c); [|done..].
    destruct Hty as [i Hi]. by apply TenantCellMoveCheckpoint_new_ok in Hi as (-> & ? & _).
  - by apply (freeze_ok own _ expected).
  - apply (validate_ok own _ expected v); [|done..]. destruct Hty as [i Hi]. by apply TenantCellMoveValidation_new_ok in Hi as [-> ?].
  - by apply (cutover_ok own _ expected expected_placement).
  - by apply (verify_cutover_ok own _ expected v).
  - by apply (complete_ok own _ expected).
  - by apply (rollback_ok own _ expected v).
  - by apply (cancel_ok own _ expected).
Qed.

Lemma effect_ok c db db' r : cell_ok db → effect c db db' r → cell_ok db'.
Proof.
  intros Hok H. destruct c; cbn in H;
    try (destruct H as [H _]; by apply (moved_ok _ _ _ _ Hok H)).
  - destruct H as (_ & _ & H). by apply (cell_update_ok _ _ _ _ Hok H).
  - destruct H as (_ & ? & ? & _ & H & _). by apply (cell_update_ok _ _ _ _ Hok H).
  - destruct H as (_ & ? & ? & _ & H & _). by apply (cell_update_ok _ _ _ _ Hok H).
  - by destruct H.
Qed.

Lemma cell_step_ok l db db' : cell_ok db → cell_step l db db' → cell_ok db'.
Proof.
  intros Hok Hs. destruct Hs as [own c d d' r Hty Hpre H|tenant cell requirement d d' H|]; [..|done].
  - by eapply effect_ok, execute_effect.
  - by apply create_tenant_ok in H as [? _].
Qed.

Lemma cell_run_ok ls db db' : cell_ok db → cell_run ls db db' → cell_ok db'.
Proof. intros Hok H. induction H; [done|]. apply IHcell_run. by eapply cell_step_ok. Qed.

Lemma empty_cell_db_ok : cell_ok empty_cell_db.
Proof.
  split; try done; [|by intros e ?%elem_of_nil|].
  - intros id c Hc. change (data_cells empty_cell_db) with ({[1 := local_default]} : gmap Z DataCellRow) in Hc.
    apply lookup_singleton_Some in Hc as [<- <-]. by split.
  - intros t. change (tenant_outbox empty_cell_db t) with (@empty_outbox (MoveEvent + CellEvent)).
    split; [apply empty_outbox_ok|]. cbn. set_solver.
Qed.

Lemma cell_reachable_ok db : cell_reachable db → cell_ok db.
Proof. intros [ls H]. by apply (cell_run_ok ls empty_cell_db), H; apply empty_cell_db_ok. Qed.
