(* ===== verification/CellHistory.v ===== *)
(** * Data cells and tenant moves: histories

    What the steps of a history say about the moves of the state it ends in: the
    status and the tenant of a move from step to step, and the part of the history
    since the writes of its tenant were frozen. The file ends with an executable form
    of the steps and a concrete history that the witnesses share. *)

From stdpp Require Import pretty.
From S2P Require Import Prelude.
From S2P Require Import RustStr.
From S2P Require Import Idempotency.
From S2P Require Import Outbox.
From S2P Require Import CellTypes.
From S2P Require Import CellDb.
From S2P Require Import CellInvariant.
From S2P Require Import CellFacts.

(** ** Appending steps *)

Lemma cell_run_app ls ls' db1 db2 db3 : cell_run ls db1 db2 → cell_run ls' db2 db3 → cell_run (ls ++ ls') db1 db3.
Proof. intros H. revert db3. induction H; intros; cbn; eauto using cell_run. Qed.

Lemma cell_run_snoc_inv ls l db db' : cell_run (ls ++ [l]) db db' → ∃ db1, cell_run ls db db1 ∧ cell_step l db1 db'.
Proof.
  revert db. induction ls as [|l' ls IH]; intros db H; inversion H; subst.
  - match goal with H : cell_run [] _ _ |- _ => inversion H; subst end. eauto using cell_run.
  - destruct (IH _ H5) as (db1 & ? & ?). eauto using cell_run.
Qed.

(** ** One move in one step *)

(** The command of a label on an existing move, and its action. *)
Definition move_command (l : cell_label) : option (Z * MoveAction) :=
  match l with
  | Did _ (StartCopy id _) => Some (id, CopyStarted)
  | Did _ (Checkpoint id _ _) => Some (id, CheckpointRecorded)
  | Did _ (Freeze id _) => Some (id, WritesFrozen)
  | Did _ (Validate id _ _) => Some (id, ValidatedAction)
  | Did _ (Cutover id _ _) => Some (id, CutOverAction)
  | Did _ (VerifyCutover id _ _) => Some (id, PostCutoverVerified)
  | Did _ (Complete id _) => Some (id, CompletedAction)
  | Did _ (Rollback id _ _) => Some (id, RolledBackAction)
  | Did _ (Cancel id _) => Some (id, CancelledAction)
  | _ => None
  end.

(** Nothing else than the command of a move changes it, its fence or its events;
    a plan adds a move and its first event. *)
Record untouched (db db' : CellDb) (id : Z) (m : MoveRow) : Prop := {
  un_move : moves db' !! id = Some m;
  un_fence : fences db' !! move_tenant m = fences db !! move_tenant m;
  un_events : ∀ a rev, move_event db' id a rev → move_event db id a rev;
}.

Lemma moved_other a db db' id j m :
  cell_ok db → moved a db db' j → moves db !! id = Some m → is_active_move m = true → id ≠ j → untouched db db' id m.
Proof.
  intros Hok (n & n' & e & Hn & Han & Hup & _) Hm Ha Hne.
  destruct Hup as [_ Em _ _ Hfs _ _ (Ee & Ej & _) _ _ _]. split.
  - by rewrite Em, lookup_insert_ne.
  - apply Hfs. intros E. by apply Hne, (one_active db Hok id j m n).
  - intros b rev (f & Hf & E1 & E2). exists f. rewrite Ee in Hf. apply elem_of_app in Hf as [Hf|Hf]; [done|].
    apply list_elem_of_singleton in Hf as ->. congruence.
Qed.

(** A step of the command of a move, or one that leaves the move alone. *)
Lemma step_move l db db' id m :
  cell_ok db → cell_step l db db' → moves db !! id = Some m → is_active_move m = true →
  (∃ a, move_command l = Some (id, a) ∧ moved a db db' id) ∨
  ((∀ a, move_command l ≠ Some (id, a)) ∧ untouched db db' id m).
Proof.
  intros Hok Hs Hm Ha. destruct Hs as [own c db db' r Hty Hpre H|tenant cell req db db' H|].
  - apply execute_effect in H as He; [|done..].
    destruct c; cbn in He; cbn [move_command];
      try (destruct He as [He _]; match type of He with moved ?a _ _ ?j =>
        destruct (decide (id = j)) as [->|Hne]; [left; by exists a|right; split; [congruence|by eapply moved_other]] end).
    + right. destruct He as (_ & _ & [_ _ (_ & Em & Ef & _ & _ & _ & Ee) _ _ _ _]). split; [done|].
      split; [by rewrite Em|by rewrite Ef|unfold move_event; by rewrite Ee].
    + right. destruct He as (_ & ? & ? & _ & [_ _ (_ & Em & Ef & _ & _ & _ & Ee) _ _ _ _] & _). split; [done|].
      split; [by rewrite Em|by rewrite Ef|unfold move_event; by rewrite Ee].
    + right. destruct He as (_ & ? & ? & _ & [_ _ (_ & Em & Ef & _ & _ & _ & Ee) _ _ _ _] & _). split; [done|].
      split; [by rewrite Em|by rewrite Ef|unfold move_event; by rewrite Ee].
    + right. destruct He as (_ & -> & p & n & _ & Em & _ & _ & _ & _ & _ & _ & Hnew & Ef & _ & Ee & _). split; [done|].
      assert (Hne : id ≠ next_move db) by congruence. split; [by rewrite Em, lookup_insert_ne|by rewrite Ef|].
      intros a rev (f & Hf & E1 & E2). exists f. rewrite Ee in Hf. apply elem_of_app in Hf as [Hf|Hf]; [done|].
      apply list_elem_of_singleton in Hf as ->. cbn in E1. congruence.
  - right. split; [done|]. apply create_tenant_ok in H as (_ & _ & ->); [|done]. by split.
  - right. by split.
Qed.

(** Where the moves of the next state come from. *)
Lemma step_moves l db db' :
  cell_ok db → cell_step l db db' →
  moves db' = moves db ∨ (∃ j a, move_command l = Some (j, a) ∧ moved a db db' j) ∨
  (∃ n, moves db' = <[next_move db := n]> (moves db) ∧ move_status n = Planned).
Proof.
  intros Hok Hs. destruct Hs as [own c db db' r Hty Hpre H|tenant cell req db db' H|]; [| |by left].
  - apply execute_effect in H as He; [|done..].
    destruct c; cbn in He; try (destruct He as [He _]; right; left; by do 2 eexists).
    + left. apply He.
    + left. by destruct He as (_ & ? & ? & _ & [_ _ (_ & Em & _) _ _ _ _] & _).
    + left. by destruct He as (_ & ? & ? & _ & [_ _ (_ & Em & _) _ _ _ _] & _).
    + right; right. destruct He as (_ & -> & p & n & _ & Em & _ & _ & _ & _ & Est & _). by exists n.
  - left. apply create_tenant_ok in H as (_ & _ & ->); done.
Qed.

Lemma fenced_before l db db' id m' :
  cell_ok db → cell_step l db db' → moves db' !! id = Some m' → is_write_fenced (move_status m') = true →
  ∃ m, moves db !! id = Some m ∧ is_active_move m = true ∧ move_tenant m' = move_tenant m.
Proof.
  intros Hok Hs Hm' Hw. assert (Hact : is_active_move m' = true) by (unfold is_active_move; by destruct (move_status m')).
  destruct (step_moves l db db' Hok Hs) as [E|[(j & a & _ & n & n' & e & Hn & Ha & [_ E (Et & _) _ _ _ _ _ _ _ _] & _)|(n & E & Hp)]];
    rewrite E in Hm'.
  - eauto.
  - apply lookup_insert_Some in Hm' as [[<- <-]|[_ Hm']]; eauto.
  - apply lookup_insert_Some in Hm' as [[<- <-]|[_ Hm']]; [by rewrite Hp in Hw|eauto].
Qed.

(** ** The history since a freeze *)

Definition frozen_since (ls : list cell_label) (db : CellDb) (id : Z) (m : MoveRow) : Prop :=
  ∃ ls1 own rev ls2, ls = ls1 ++ Did own (Freeze id rev) :: ls2 ∧ (Wrote (move_tenant m) ∉ ls2) ∧
    (∀ f c, fences db !! move_tenant m = Some (MkFence id f) → move_event db id CheckpointRecorded c → f < c →
       (∃ own rev ck, Did own (Checkpoint id rev ck) ∈ ls2)) ∧
    (past_validation (move_status m) = true → ∃ lsa lsb own rev v,
       ls2 = lsa ++ Did own (Validate id rev v) :: lsb ∧ parity v ∧
       ∃ own rev ck, Did own (Checkpoint id rev ck) ∈ lsa).

Lemma validate_checkpointed own id expected v db db' r m :
  validate own id expected v db = Ok (db', r) → moves db !! id = Some m →
  ∃ c f, move_event db id CheckpointRecorded c ∧ fences db !! move_tenant m = Some (MkFence id f) ∧ f < c.
Proof.
  intros H Hm. unfold validate in H. apply rbind_ok in H as (m1 & (Hm1 & _ & _)%lock_move_ok & H). simplify_eq.
  apply rbind_ok in H as (_ & _ & H).
  destruct (latest_checkpoint_revision id db) as [c|] eqn:Hc in H; [|done].
  destruct (write_fence_epoch _ _ _) as [f|] eqn:Hf in H; [|done]. destruct (_ || _) eqn:Hle in H; [done|].
  apply latest_checkpoint_event in Hc. apply write_fence_epoch_Some in Hf. bool_to_prop. exists c, f. split_and!; [done|done|lia].
Qed.

(** A step that leaves the fence and the checkpoints of a move alone. *)
Lemma frozen_since_snoc ls l db db' id m m' :
  frozen_since ls db id m → move_tenant m' = move_tenant m → l ≠ Wrote (move_tenant m) →
  fences db' !! move_tenant m = fences db !! move_tenant m →
  (∀ c, move_event db' id CheckpointRecorded c → move_event db id CheckpointRecorded c) →
  (past_validation (move_status m') = true → past_validation (move_status m) = true) →
  frozen_since (ls ++ [l]) db' id m'.
Proof.
  intros (ls1 & o & rv & ls2 & -> & Hnw & Hck & Hv) Et Hl Hf Hev Hp.
  exists ls1, o, rv, (ls2 ++ [l]). rewrite <-app_assoc, Et. split; [done|]. split; [|split].
  - rewrite elem_of_app, list_elem_of_singleton. naive_solver.
  - intros f c. rewrite Hf. intros Hfe Hc Hlt. destruct (Hck f c Hfe (Hev _ Hc) Hlt) as (? & ? & ? & ?).
    do 3 eexists. apply elem_of_app. by left.
  - intros Hpv. destruct (Hv (Hp Hpv)) as (lsa & lsb & o' & rv' & v & -> & Hq).
    exists lsa, (lsb ++ [l]), o', rv', v. by rewrite <-app_assoc.
Qed.

Lemma frozen_since_step ls l db db' id m m' :
  cell_ok db → cell_step l db db' → moves db !! id = Some m → moves db' !! id = Some m' →
  is_active_move m = true → is_write_fenced (move_status m') = true →
  (is_write_fenced (move_status m) = true → frozen_since ls db id m) → frozen_since (ls ++ [l]) db' id m'.
Proof.
  intros Hok Hs Hm Hm' Ha Hw IH. pose proof (cell_step_ok l db db' Hok Hs) as Hok'.
  destruct (step_move l db db' id m Hok Hs Hm Ha) as [(a & Hl & Hmv)|[Hl [Hun Hf Hev]]].
  - destruct Hmv as (n & n' & e & Hn & _ & [_ Em (Et & _) _ _ _ _ (Ee & _) _ _ _] & _ & Hea & _ & Harr & Hrule & _).
    simplify_eq. rewrite Em, lookup_insert_eq in Hm'. injection Hm' as ->.
    assert (Hold : ∀ c, event_action e ≠ CheckpointRecorded → move_event db' id CheckpointRecorded c → move_event db id CheckpointRecorded c).
    { intros c Hne (g & Hg & E1 & E2). exists g. rewrite Ee in Hg. apply elem_of_app in Hg as [Hg|Hg]; [done|].
      apply list_elem_of_singleton in Hg as ->. by destruct E2. }
    inversion Hs as [own c d d' r Hty Hpre H| |]; subst; try done.
    destruct c; cbn [move_command] in Hl; try discriminate; injection Hl as -> Hact; rewrite <-Hact in *;
      cbn [arrow fence_rule] in Harr, Hrule; try (destruct Harr as [? E]; by rewrite E in Hw).
    + destruct Harr as [[Hst|Hst] E]; rewrite E, Hst in Hw; [done|].
      destruct IH as (ls1 & o & rv & ls2 & -> & Hnw & _ & _); [by rewrite Hst|].
      exists ls1, o, rv, (ls2 ++ [Did own (Checkpoint id expected c)]). rewrite <-app_assoc, E, Hst. split; [done|]. split; [|split; [|done]].
      * rewrite elem_of_app, list_elem_of_singleton, Et. naive_solver.
      * intros. do 3 eexists. rewrite elem_of_app, list_elem_of_singleton. by right.
    + destruct Harr as [Hst E]. exists ls, own, expected, []. split; [done|]. split; [set_solver|]. rewrite E. split; [|done].
      intros f c Hfe Hc Hlt. rewrite Hrule, lookup_insert_eq in Hfe. injection Hfe as <-.
      destruct Hc as (g & Hg & E1 & _ & E2). destruct (events_ok db' Hok' g Hg) as (n & Hn & Hle).
      rewrite E1, Em, lookup_insert_eq in Hn. injection Hn as <-. lia.
    + destruct Harr as [Hst E]. destruct IH as (ls1 & o & rv & ls2 & -> & Hnw & Hck & _); [by rewrite Hst|].
      destruct (validate_checkpointed _ _ _ _ _ _ _ _ H Hm) as (c & f & Hc & Hfe & Hlt).
      destruct (Hck f c Hfe Hc Hlt) as (o' & rv' & ck & Hin).
      exists ls1, o, rv, (ls2 ++ [Did own (Validate id expected v)]). rewrite <-app_assoc. split; [done|]. split; [|split].
      * rewrite elem_of_app, list_elem_of_singleton, Et. naive_solver.
      * intros. do 3 eexists. apply elem_of_app. by left.
      * intros _. exists ls2, [], own, expected, v. split; [done|]. split; [|eauto].
        destruct Hty as [i Hi]. by apply TenantCellMoveValidation_new_ok in Hi as [-> ?].
    + destruct Harr as [Hst E]. apply (frozen_since_snoc ls _ db _ id m); auto; [apply IH; by rewrite Hst|by rewrite Hrule|by rewrite Hst].
    + destruct Harr as [Hst E]. apply (frozen_since_snoc ls _ db _ id m); auto; [apply IH; by rewrite Hst|by rewrite Hrule|by rewrite Hst].
  - rewrite Hun in Hm'. injection Hm' as <-. apply (frozen_since_snoc ls l db db' id m); auto. intros ->.
    inversion Hs as [| |t d Hwr]; subst. unfold enforce_tenant_cell_write_fence in Hwr.
    destruct (move_fence _ _ _ (moves_ok _ Hok id m Hm) Hw) as (f & Hfe & _). by rewrite Hfe in Hwr.
Qed.

Lemma run_frozen_since ls db id m :
  cell_run ls empty_cell_db db → moves db !! id = Some m → is_write_fenced (move_status m) = true →
  frozen_since ls db id m.
Proof.
  revert db m. induction ls as [|l ls IH] using rev_ind; intros db m Hrun Hm Hw.
  - by inversion Hrun; subst.
  - apply cell_run_snoc_inv in Hrun as (db1 & Hrun & Hs).
    assert (Hok : cell_ok db1) by (apply cell_reachable_ok; by exists ls).
    destruct (fenced_before l db1 db id m Hok Hs Hm Hw) as (m1 & Hm1 & Ha & _).
    apply (frozen_since_step ls l db1 db id m1 m); eauto.
Qed.

(** ** Evidence is kept *)

Lemma step_validations l db db' :
  cell_ok db → cell_step l db db' → validations db' = validations db ∨ ∃ j, moved ValidatedAction db db' j.
Proof.
  intros Hok Hs. destruct Hs as [own c db db' r Hty Hpre H|tenant cell req db db' H|]; [| |by left].
  - apply execute_effect in H as He; [|done..].
    destruct c; cbn in He; try (destruct He as [He _]; match type of He with moved ValidatedAction _ _ ?j => right; by exists j | _ => left end;
      destruct He as (? & ? & ? & _ & _ & _ & _ & _ & _ & _ & _ & _ & _ & _ & Hv & _); by apply Hv).
    + left. apply He.
    + left. by destruct He as (_ & ? & ? & _ & [_ _ (_ & _ & _ & E & _) _ _ _ _] & _).
    + left. by destruct He as (_ & ? & ? & _ & [_ _ (_ & _ & _ & E & _) _ _ _ _] & _).
    + left. by destruct He as (_ & -> & p & n & _ & _ & _ & _ & _ & _ & _ & _ & _ & _ & E & _).
  - left. apply create_tenant_ok in H as (_ & _ & ->); done.
Qed.

Lemma step_keeps l db db' id m :
  cell_ok db → cell_step l db db' → moves db !! id = Some m →
  (past_validation (move_status m) = true → validations db' !! id = validations db !! id) ∧
  (is_active_move m = false → moves db' !! id = Some m).
Proof.
  intros Hok Hs Hm. split.
  - intros Hp. destruct (step_validations l db db' Hok Hs) as [->|[j (n & n' & e & Hn & _ & Hup & _ & _ & _ & Harr & _)]]; [done|].
    destruct Hup as [_ _ _ _ _ _ Hev _ _ _ _]. apply Hev. intros ->. simplify_eq. destruct Harr as [E _]. by rewrite E in Hp.
  - intros Ha. destruct (step_moves l db db' Hok Hs) as [->|[(j & a & _ & n & n' & e & Hn & Han & [_ E _ _ _ _ _ _ _ _ _] & _)|(n & E & _)]]; [done|..];
      rewrite E, lookup_insert_ne; try done.
    + intros ->. congruence.
    + pose proof (move_ids _ _ _ (moves_ok db Hok id m Hm)). lia.
Qed.
