(* ===== verification/CellProgress.v ===== *)
(** * Data cells and tenant moves: commands that cannot be refused

    In a state that satisfies the invariant, a command on a move in the right status
    succeeds: its slot is reserved, its event is fresh, its evidence has no
    predecessor. The file ends with the runs that take a move to its end. *)

From stdpp Require Import pretty.
From S2P Require Import Prelude.
From S2P Require Import RustStr.
From S2P Require Import Idempotency.
From S2P Require Import Outbox.
From S2P Require Import CellTypes.
From S2P Require Import CellDb.
From S2P Require Import CellInvariant.
From S2P Require Import CellFacts.
From S2P Require Import CellHistory.

(** ** Recording an event *)

Lemma visible_prefix_trim (c : Z) s : is_whitespace c = false → trim (c :: s) ≠ [].
Proof. intros H. apply (trim_visible_char _ c); [apply elem_of_cons; by left|done]. Qed.

Lemma record_event_total id m a rev prev res db :
  outbox_keys_ok db → (∀ f, f ∈ move_events db → event_move f = id → event_revision f < rev) →
  ∃ box, record_event id m a rev prev res db = Ok (log_move (MkMoveEvent id (move_tenant m) a rev prev res) box db).
Proof.
  intros Hob Hnew. unfold record_event, record_move_event. cbn [event_move event_revision].
  destruct (existsb _ _) eqn:Ex.
  { apply existsb_exists in Ex as (f & Hf%list_elem_of_In & E). bool_to_prop. specialize (Hnew f Hf). lia. }
  cbn zeta. cbn [event_tenant event_action]. set (ev := MkEvent _ _ _ _ _ _ _ _).
  destruct (Hob (move_tenant m)) as [Hbox Hkeys].
  pose proof (enqueue_accepts (fun _ => true) (tenant_outbox db (move_tenant m)) ev) as Hacc.
  destruct (enqueue _ _ ev) as [box|] eqn:Eq; [by exists box|].
  exfalso. assert (is_ok (@Err (OutboxTables (MoveEvent + CellEvent)) _ e) = true) as Hx; [|done].
  apply Hacc; [by apply visible_prefix_trim|by apply visible_prefix_trim|apply trim_pretty_Z|
    by apply visible_prefix_trim|by apply visible_prefix_trim|done|done| |done|done].
  intros Hin. destruct (Hkeys _ Hin) as [(f & Hf & E)|(c & r & E)].
  - symmetry in E. apply move_event_key_inj in E as [E1 E2]. specialize (Hnew f Hf E1). lia.
  - discriminate E.
Qed.

(** ** The commands *)

(** A move that is worked on by an administrator of another tenant. *)
Record at_work (own : Z) (db : CellDb) (id : Z) (m : MoveRow) (s : TenantCellMoveStatus) : Prop := {
  w_ok : cell_ok db;
  w_move : moves db !! id = Some m;
  w_own : move_tenant m ≠ own;
  w_status : move_status m = s;
}.

Definition target_active (db : CellDb) (m : MoveRow) : Prop :=
  ∃ c, data_cells db !! target_data_cell_id m = Some c ∧ cell_status c = Active.

Lemma at_work_events own db id m s : at_work own db id m s →
  ∀ f, f ∈ move_events db → event_move f = id → event_revision f < move_revision m + 1.
Proof.
  intros [Hok Hm _ _] f Hf E. destruct (events_ok db Hok f Hf) as (n & Hn & Hle). rewrite E in Hn. simplify_eq. lia.
Qed.

Lemma lock_move_total own db id m s : at_work own db id m s → lock_move own id (move_revision m) db = Ok m.
Proof. intros [_ Hm Ho _]. by apply lock_move_ok. Qed.

(** The reservation is honoured: the target has room for the move it promised. *)
Lemma viability_total own db id m s :
  at_work own db id m s → target_active db m → reserves_inbound (target_data_cell_id m) m = true →
  require_target_viability db id m = Ok tt.
Proof.
  intros [Hok Hm _ _] (c & Hc & Hs) Hr. apply require_target_viability_ok; [done..|]. exists c.
  destruct (cells_ok db Hok _ c Hc) as [_ _ _ Hded Hcap _].
  split; [done|]. split; [done|]. split.
  - apply has_room_ok. split; [lia|]. intros Hd. specialize (Hded Hd).
    pose proof (reserved_except db id m (target_data_cell_id m) Hm) as He. unfold move_slots in He.
    rewrite Hr, (reserves_disjoint _ _ Hr) in He. unfold committed in *.
    pose proof (placement_count_nonneg db (target_data_cell_id m)).
    pose proof (reserved_nonneg db (Some id) (target_data_cell_id m)). lia.
  - destruct (moves_ok db Hok id m Hm) as [_ _ _ Hres _ _ _ _ _ _ _ _ _ _ _ _].
    destruct (Hres (target_data_cell_id m)) as (c' & Hc' & Ha); [by right|]. by simplify_eq.
Qed.

Lemma inbound_reserved m s : move_status m = s →
  match s with Planned | Copying | Frozen | Validated => True | _ => False end →
  reserves_inbound (target_data_cell_id m) m = true.
Proof. intros E Hs. unfold reserves_inbound. rewrite Z.eqb_refl, E. by destruct s. Qed.

Lemma revision_total own db id m s : at_work own db id m s → move_revision m < i64_max →
  next_revision (move_revision m) = Ok (move_revision m + 1).
Proof.
  intros [Hok Hm _ _] Hmax. destruct (move_revision_pos _ _ _ (moves_ok db Hok id m Hm)) as [Hp _].
  apply next_revision_total. unfold i64_min, i64_max in *. lia.
Qed.

(** Run the common prefix and the event of a command. *)
Ltac run_command Hw :=
  try (rewrite (lock_move_total _ _ _ _ _ Hw); cbn [rbind]);
  let Hst := fresh in pose proof (w_status _ _ _ _ _ Hw) as Hst;
  unfold move_transition; rewrite ?Hst; cbn [require_transition map_err rbind];
  try (rewrite (viability_total _ _ _ _ _ Hw) by (assumption || by apply (inbound_reserved _ _ Hst)); cbn [rbind]);
  try (rewrite (revision_total _ _ _ _ _ Hw) by done; cbn [rbind]).
Ltac finish_event Hw :=
  match goal with |- context [record_event ?id ?m ?a ?rev ?p ?r ?db] =>
    let box := fresh "box" in let E := fresh in
    destruct (record_event_total id m a rev p r db) as [box E];
    [exact (outboxes_ok _ (w_ok _ _ _ _ _ Hw))|exact (at_work_events _ _ _ _ _ Hw)|rewrite E; cbn [rbind]; eexists; reflexivity]
  end.

Lemma start_copy_total own db id m :
  at_work own db id m Planned → target_active db m → move_revision m < i64_max →
  ∃ db', start_copy own id (move_revision m) db = Ok (db', id).
Proof. intros Hw Hta Hmax. unfold start_copy. run_command Hw. finish_event Hw. Qed.

(** A checkpoint that does not go back. *)
Definition not_back (m : MoveRow) (c : TenantCellMoveCheckpoint) : Prop :=
  from_option (fun v => v ≤ cp_source_lsn c) True (latest_source_lsn m) ∧
  from_option (fun v => v ≤ cp_target_replay_lsn c) True (latest_target_replay_lsn m) ∧
  from_option (fun v => v ≤ cp_copied_row_count c) True (copied_row_count m) ∧
  from_option (fun v => v ≤ cp_copied_bytes c) True (copied_bytes m).

Lemma moved_back_false old new : from_option (fun v => v ≤ new) True old → moved_back old new = false.
Proof. destruct old; cbn; [apply Z.ltb_ge|done]. Qed.

Lemma checkpoint_total own db id m s c :
  at_work own db id m s → s = Copying ∨ s = Frozen → not_back m c → move_revision m < i64_max →
  ∃ db', checkpoint own id (move_revision m) c db = Ok (db', id).
Proof.
  intros Hw Hs (H1 & H2 & H3 & H4) Hmax. unfold checkpoint.
  rewrite (lock_move_total _ _ _ _ _ Hw). cbn [rbind]. pose proof (w_status _ _ _ _ _ Hw) as E.
  assert (bool_decide (move_status m = Copying) || bool_decide (move_status m = Frozen) = true) as ->.
  { rewrite E. by destruct Hs as [-> | ->]. }
  rewrite !moved_back_false by done. cbn [orb]. rewrite (revision_total _ _ _ _ _ Hw) by done. cbn [rbind].
  finish_event Hw.
Qed.

Lemma freeze_total own db id m :
  at_work own db id m Copying → target_active db m → checkpointed m = true → move_revision m < i64_max →
  ∃ db', freeze own id (move_revision m) db = Ok (db', id).
Proof.
  intros Hw Hta Hck Hmax. unfold freeze. run_command Hw. rewrite Hck. run_command Hw.
  rewrite bool_decide_false; [finish_event Hw|]. intros [f Hf].
  destruct (tenant_fence db id m f) as [_ Hx]; [apply Hw|apply Hw| |exact Hf|].
  - unfold is_active_move. by rewrite (w_status _ _ _ _ _ Hw).
  - by rewrite (w_status _ _ _ _ _ Hw) in Hx.
Qed.

(** Evidence that is not behind the last checkpoint of the move. *)
Definition not_behind (v : TenantCellMoveValidation) (m : MoveRow) : Prop :=
  (∃ s, latest_source_lsn m = Some s ∧ s ≤ va_source_lsn v) ∧
  ∃ t, latest_target_replay_lsn m = Some t ∧ t ≤ va_target_replay_lsn v.

Lemma validation_trigger_total db id m v rev :
  not_behind v m →
  validate_tenant_cell_move_validation (set_move id (with_move Validated rev m) db) (move_tenant m) id rev v = true.
Proof.
  intros [(s & Hs & Hle) (t & Ht & Hle')]. unfold validate_tenant_cell_move_validation.
  cbn [moves set_move set_moves]. rewrite lookup_insert_eq. cbn.
  by rewrite !Z.eqb_refl, Hs, Ht, !(proj2 (Z.leb_le _ _)).
Qed.

Lemma validate_total own db id m v f :
  at_work own db id m Frozen → target_active db m → move_revision m < i64_max → not_behind v m →
  latest_checkpoint_revision id db = Some (move_revision m) →
  fences db !! move_tenant m = Some (MkFence id f) → f < move_revision m →
  ∃ db', validate own id (move_revision m) v db = Ok (db', id).
Proof.
  intros Hw Hta Hmax Hnb Hck Hf Hlt. unfold validate. run_command Hw.
  rewrite Hck, (proj2 (write_fence_epoch_Some _ _ _ _) Hf).
  rewrite (proj2 (Z.leb_gt _ _)), Z.eqb_refl by lia. cbn [orb negb]. run_command Hw.
  rewrite validation_trigger_total by done.
  rewrite bool_decide_false; [finish_event Hw|]. cbn.
  rewrite (move_unvalidated _ _ _ (moves_ok db (w_ok _ _ _ _ _ Hw) id m (w_move _ _ _ _ _ Hw)));
    [by intros []|by rewrite (w_status _ _ _ _ _ Hw)].
Qed.

Lemma cell_revision_next_total r : 0 < r < i64_max → cell_revision_next r = Some (r + 1).
Proof. intros H. apply cell_revision_next_ok. unfold i64_min in *. lia. Qed.

(** Where an active move finds its tenant. *)
Lemma work_home own db id m s : at_work own db id m s → is_active_move m = true →
  placements db !! move_tenant m = Some (home m).
Proof. intros [Hok Hm _ _] Ha. by apply (move_home _ _ _ (moves_ok db Hok id m Hm)). Qed.

Lemma cutover_total own db id m :
  at_work own db id m Validated → target_active db m → move_revision m < i64_max → source_placement_revision m < i64_max →
  ∃ db', cutover own id (move_revision m) (source_placement_revision m) db = Ok (db', id).
Proof.
  intros Hw Hta Hmax Hpmax. unfold cutover. run_command Hw. rewrite Z.eqb_refl. run_command Hw.
  pose proof (moves_ok db (w_ok _ _ _ _ _ Hw) id m (w_move _ _ _ _ _ Hw)) as Hmok.
  pose proof (w_status _ _ _ _ _ Hw) as Hs.
  rewrite (work_home _ _ _ _ _ Hw) by (unfold is_active_move; by rewrite Hs). unfold home. rewrite Hs. cbn [rbind ok_or].
  rewrite bool_decide_false by done. cbn [placement_cell placement_revision]. rewrite !Z.eqb_refl. cbn [andb].
  destruct (move_fence _ _ _ Hmok) as (f & Hf & _); [by rewrite Hs|].
  rewrite bool_decide_true by (rewrite (proj2 (write_fence_epoch_Some _ _ _ _) Hf); by eexists).
  destruct (move_revision_pos _ _ _ Hmok) as [_ Hp].
  rewrite cell_revision_next_total by lia. cbn [ok_or rbind]. run_command Hw.
  unfold apply_tenant_cell_move_placement. cbn [moves set_move set_moves]. rewrite lookup_insert_eq. cbn.
  rewrite (work_home _ _ _ _ _ Hw) by (unfold is_active_move; by rewrite Hs). cbn [rbind].
  rewrite Z.eqb_refl. finish_event Hw.
Qed.

Lemma verify_cutover_total own db id m v :
  at_work own db id m CutOver → move_revision m < i64_max → post_cutover_verified m = false →
  cv_observed_data_cell_id v = target_data_cell_id m →
  cv_observed_placement_revision v = source_placement_revision m + 1 →
  ∃ db', verify_cutover own id (move_revision m) v db = Ok (db', id).
Proof.
  intros Hw Hmax Hpv Hc Hr. unfold verify_cutover. run_command Hw.
  pose proof (moves_ok db (w_ok _ _ _ _ _ Hw) id m (w_move _ _ _ _ _ Hw)) as Hmok.
  destruct (move_cutover _ _ _ Hmok) as [-> _]; [by rewrite (w_status _ _ _ _ _ Hw)|].
  rewrite bool_decide_true, Hpv by done. cbn [rbind ok_or]. rewrite Hc, Hr, !Z.eqb_refl. cbn [andb].
  run_command Hw. cbn [cutover_verifications set_move set_moves].
  rewrite (move_unverified _ _ _ Hmok Hpv), bool_decide_false by (by intros []). finish_event Hw.
Qed.

Lemma delete_fence_frame tenant id db : moves (delete_fence tenant id db) = moves db ∧
  move_events (delete_fence tenant id db) = move_events db ∧ outboxes (delete_fence tenant id db) = outboxes db.
Proof. unfold delete_fence. by destruct (write_fence_epoch _ _ _). Qed.

Lemma complete_total own db id m :
  at_work own db id m CutOver → move_revision m < i64_max → post_cutover_verified m = true →
  ∃ db', complete own id (move_revision m) db = Ok (db', id).
Proof.
  intros Hw Hmax Hpv. unfold complete. run_command Hw.
  pose proof (moves_ok db (w_ok _ _ _ _ _ Hw) id m (w_move _ _ _ _ _ Hw)) as Hmok.
  pose proof (w_status _ _ _ _ _ Hw) as Hs.
  destruct (move_cutover _ _ _ Hmok) as [-> _]; [by rewrite Hs|]. rewrite Hpv. run_command Hw. cbn [rbind ok_or].
  run_command Hw.
  destruct (move_fence _ _ _ Hmok) as (f & Hf & _); [by rewrite Hs|].
  rewrite (delete_fence_ok (set_move _ _ _) id m f) by done. finish_event Hw.
Qed.

Lemma rollback_total own db id m v :
  at_work own db id m CutOver → move_revision m < i64_max → source_placement_revision m + 1 < i64_max →
  rv_observed_data_cell_id v = source_data_cell_id m →
  rv_expected_rollback_placement_revision v = source_placement_revision m + 2 →
  ∃ db', rollback own id (move_revision m) v db = Ok (db', id).
Proof.
  intros Hw Hmax Hpmax Hc Hr. unfold rollback. run_command Hw.
  pose proof (moves_ok db (w_ok _ _ _ _ _ Hw) id m (w_move _ _ _ _ _ Hw)) as Hmok.
  pose proof (w_status _ _ _ _ _ Hw) as Hs. destruct (move_revision_pos _ _ _ Hmok) as [_ Hp].
  destruct (move_cutover _ _ _ Hmok) as [-> _]; [by rewrite Hs|]. cbn [rbind ok_or].
  rewrite cell_revision_next_total by lia. cbn [rbind ok_or].
  rewrite Hc, Z.eqb_refl, Hr, (proj2 (Z.eqb_eq _ _)) by lia.
  rewrite (work_home _ _ _ _ _ Hw) by (unfold is_active_move; by rewrite Hs). unfold home. rewrite Hs. cbn [rbind ok_or].
  rewrite bool_decide_true by done. cbn [placement_cell placement_revision]. rewrite !Z.eqb_refl. cbn [andb].
  destruct (move_fence _ _ _ Hmok) as (f & Hf & _); [by rewrite Hs|].
  rewrite bool_decide_true by (rewrite (proj2 (write_fence_epoch_Some _ _ _ _) Hf); by eexists).
  run_command Hw. cbn [rollback_verifications set_move set_moves].
  rewrite (move_not_rolled_back _ _ _ Hmok) by (by rewrite Hs). rewrite bool_decide_false by (by intros []).
  unfold apply_tenant_cell_move_placement. cbn [moves set_move set_moves set_rollbacks]. rewrite lookup_insert_eq. cbn.
  rewrite (work_home _ _ _ _ _ Hw) by (unfold is_active_move; by rewrite Hs). cbn [rbind].
  rewrite Z.eqb_refl. rewrite (delete_fence_ok _ id m f) by done. finish_event Hw.
Qed.

(** ** What the two recording commands leave *)

Lemma sorted_last {A} (R : A → A → Prop) (l : list A) g :
  StronglySorted R l → last l = Some g → ∀ x, x ∈ l → x = g ∨ R x g.
Proof.
  induction 1 as [|a l Hl IH Hall]; intros Hlast x Hx; [done|].
  destruct l as [|b l]; [injection Hlast as ->; left; by apply list_elem_of_singleton in Hx|].
  change (last (b :: l) = Some g) in Hlast. apply elem_of_cons in Hx as [->|Hx]; [|by apply IH].
  right. rewrite Forall_forall in Hall. apply Hall. by apply last_Some_elem_of.
Qed.

Lemma latest_checkpoint_new db id e :
  event_move e = id → event_action e = CheckpointRecorded → e ∈ move_events db →
  (∀ f, f ∈ move_events db → event_move f = id → event_revision f ≤ event_revision e) →
  latest_checkpoint_revision id db = Some (event_revision e).
Proof.
  intros Em Ea Hin Hmax. unfold latest_checkpoint_revision. rewrite fmap_last.
  set (cmp := fun e f : MoveEvent => event_revision e ?= event_revision f). set (l := sort_by cmp _).
  assert (Hel : ∀ f, f ∈ l ↔ f ∈ move_events db ∧ event_move f = id ∧ event_action f = CheckpointRecorded).
  { intros f. unfold l. rewrite sort_by_perm, elem_of_filter_bool. rewrite andb_true_iff, Z.eqb_eq, bool_decide_eq_true. done. }
  destruct (last l) as [g|] eqn:El.
  2: { apply last_None in El. assert (e ∈ l) as Hx by (by apply Hel). rewrite El in Hx. by apply elem_of_nil in Hx. }
  cbn. f_equal. assert (Hg : g ∈ l) by (by apply last_Some_elem_of). apply Hel in Hg as (Hg & Egm & _).
  specialize (Hmax g Hg Egm).
  destruct (sorted_last (cmp_le cmp) l g) with (x := e) as [->|Hle]; [apply (sort_by_sorted cmp)|done|by apply Hel|done|].
  assert (event_revision e ≤ event_revision g) by exact Hle. lia.
Qed.

Lemma checkpoint_marks own id expected c db db' r m' :
  cell_ok db → checkpoint own id expected c db = Ok (db', r) → moves db' !! id = Some m' →
  checkpointed m' = true ∧ latest_checkpoint_revision id db' = Some (move_revision m') ∧
  latest_source_lsn m' = Some (cp_source_lsn c) ∧ latest_target_replay_lsn m' = Some (cp_target_replay_lsn c).
Proof.
  intros Hok H Hm'. unfold checkpoint in H. apply rbind_ok in H as (m & (Hm & _ & _)%lock_move_ok & H).
  destruct (bool_decide _ || bool_decide _) in H; [|done]. destruct (_ || _) in H; [done|].
  apply rbind_ok in H as (n & [-> _]%next_revision_ok & H). cbn zeta in H.
  apply rbind_ok in H as (db1 & Hev & [= <- <-]). apply record_move_event_ok in Hev as (box & -> & _).
  cbn in Hm'. rewrite lookup_insert_eq in Hm'. injection Hm' as <-. split; [done|].
  split; [|done]. set (e := MkMoveEvent _ _ _ _ _ _). apply (latest_checkpoint_new _ id e); [done|done|set_solver|].
  cbn. intros f [Hf| ->%list_elem_of_singleton]%elem_of_app E; [|done].
  destruct (events_ok db Hok f Hf) as (n & Hn & Hle). rewrite E in Hn. simplify_eq. unfold e. cbn. lia.
Qed.

(** The two commands before the freeze leave the positions of the last checkpoint. *)
Lemma start_copy_keeps own id expected db db' r m m' :
  start_copy own id expected db = Ok (db', r) → moves db !! id = Some m → moves db' !! id = Some m' →
  latest_source_lsn m' = latest_source_lsn m.
Proof.
  intros H Hm Hm'. unfold start_copy in H. apply rbind_ok in H as (n & (Hn & _ & _)%lock_move_ok & H).
  assert (n = m) as -> by congruence.
  do 2 (apply rbind_ok in H as (_ & _ & H)). apply rbind_ok in H as (rev & _ & H). cbn zeta in H.
  apply rbind_ok in H as (db1 & Hev & [= <- <-]). apply record_move_event_ok in Hev as (box & -> & _).
  cbn in Hm'. rewrite lookup_insert_eq in Hm'. by injection Hm' as <-.
Qed.

Lemma freeze_keeps own id expected db db' r m m' :
  freeze own id expected db = Ok (db', r) → moves db !! id = Some m → moves db' !! id = Some m' →
  latest_source_lsn m' = latest_source_lsn m.
Proof.
  intros H Hm Hm'. unfold freeze in H. apply rbind_ok in H as (n & (Hn & _ & _)%lock_move_ok & H).
  assert (n = m) as -> by congruence.
  apply rbind_ok in H as (_ & _ & H). destruct (checkpointed m) in H; [|done].
  apply rbind_ok in H as (_ & _ & H). apply rbind_ok in H as (rev & _ & H). cbn zeta in H.
  case_bool_decide; [done|].
  apply rbind_ok in H as (db1 & Hev & [= <- <-]). apply record_move_event_ok in Hev as (box & -> & _).
  cbn in Hm'. rewrite lookup_insert_eq in Hm'. by injection Hm' as <-.
Qed.

Lemma verify_marks own id expected v db db' r m' :
  verify_cutover own id expected v db = Ok (db', r) → moves db' !! id = Some m' → post_cutover_verified m' = true.
Proof.
  intros H Hm'. unfold verify_cutover in H. apply rbind_ok in H as (m & (Hm & _ & _)%lock_move_ok & H).
  case_bool_decide; [|done]. destruct (post_cutover_verified m) in H; [done|].
  apply rbind_ok in H as (cr & _ & H). destruct (_ && _) in H; [|done].
  apply rbind_ok in H as (n & _ & H). cbn zeta in H. case_bool_decide; [done|].
  apply rbind_ok in H as (db1 & Hev & [= <- <-]). apply record_move_event_ok in Hev as (box & -> & _).
  cbn in Hm'. rewrite lookup_insert_eq in Hm'. by injection Hm' as <-.
Qed.

(** ** Runs on one move *)

Definition same_move (m m' : MoveRow) : Prop :=
  move_tenant m' = move_tenant m ∧ source_data_cell_id m' = source_data_cell_id m ∧
  target_data_cell_id m' = target_data_cell_id m ∧ source_placement_revision m' = source_placement_revision m ∧
  residency_requirement m' = residency_requirement m.

(** A run of commands of [own] on the move [id], of at most [k] steps. *)
Definition reaches (own : Z) (db : CellDb) (id : Z) (m : MoveRow) (k : Z) (s : TenantCellMoveStatus)
    (P : CellDb → MoveRow → Prop) : Prop :=
  ∃ ls db' m', cell_run ls db db' ∧
    Forall (fun l => ∃ c a, l = Did own c ∧ move_command l = Some (id, a)) ls ∧
    at_work own db' id m' s ∧ same_move m m' ∧ data_cells db' = data_cells db ∧
    move_revision m' ≤ move_revision m + k ∧ P db' m'.

Lemma reaches_here own db id m s (P : CellDb → MoveRow → Prop) :
  at_work own db id m s → P db m → reaches own db id m 0 s P.
Proof. intros Hw HP. exists [], db, m. split_and!; [constructor|done|done|done|done|lia|done]. Qed.

Lemma reaches_weaken own db id m s k k' (P Q : CellDb → MoveRow → Prop) :
  reaches own db id m k s P → k ≤ k' → (∀ db m, P db m → Q db m) → reaches own db id m k' s Q.
Proof.
  intros (ls & db' & m' & ? & ? & ? & ? & ? & ? & ?) Hk HPQ. exists ls, db', m'. split_and!; try done; [lia|auto].
Qed.

Lemma reaches_trans own db id m k1 k2 s1 s2 (P Q : CellDb → MoveRow → Prop) :
  reaches own db id m k1 s1 P →
  (∀ db' m', at_work own db' id m' s1 → same_move m m' → data_cells db' = data_cells db →
     move_revision m' ≤ move_revision m + k1 → P db' m' → reaches own db' id m' k2 s2 Q) →
  reaches own db id m (k1 + k2) s2 Q.
Proof.
  intros (ls & db1 & m1 & Hr & Hl & Hw & Hsm & Hc & Hk & HP) Hnext.
  destruct (Hnext db1 m1 Hw Hsm Hc Hk HP) as (ls2 & db2 & m2 & Hr2 & Hl2 & Hw2 & Hsm2 & Hc2 & Hk2 & HQ).
  exists (ls ++ ls2), db2, m2. split_and!; try done.
  - by eapply cell_run_app.
  - by apply Forall_app.
  - destruct Hsm as (? & ? & ? & ? & ?), Hsm2 as (? & ? & ? & ? & ?). split_and!; congruence.
  - congruence.
  - lia.
Qed.

(** One accepted command. *)
Lemma reaches_step own c a db db' id m s :
  at_work own db id m s → move_command (Did own c) = Some (id, a) → well_typed c →
  execute own c db = Ok (db', id) →
  ∃ m', cell_step (Did own c) db db' ∧ at_work own db' id m' (move_status m') ∧ same_move m m' ∧
    data_cells db' = data_cells db ∧ move_revision m' = move_revision m + 1 ∧
    arrow a s (move_status m') ∧ fence_rule a db db' id m' ∧ placement_rule a db db' m' ∧
    moves db' !! id = Some m'.
Proof.
  intros Hw Hc Hty H. destruct Hw as [Hok Hm Hown Hs].
  assert (Hpre : precheck c = Ok tt) by (by destruct c).
  pose proof (execute_effect own c db db' id Hok Hty Hpre H) as He.
  assert (Hmv : moved a db db' id).
  { destruct c; cbn in Hc, He; try done; injection Hc as -> <-; apply He. }
  pose proof (moved_ok _ _ _ _ Hok Hmv) as Hok'.
  destruct Hmv as (n & m' & e & Hn & _ & [(Ec & _) Em (E1 & E2 & E3 & E4 & E5 & E6) _ _ _ _ _ _ _ _] & _ & _ & _ & Harr & Hf & Hp & _).
  simplify_eq. exists m'. assert (Hm' : moves db' !! id = Some m') by (by rewrite Em, lookup_insert_eq).
  split_and!; try done; [by econstructor|]. split; try done. congruence.
Qed.

(** The next checkpoint of a move: both cells at [lsn], rows and bytes as before. *)
Definition next_checkpoint (lsn : Z) (m : MoveRow) : TenantCellMoveCheckpoint :=
  MkCheckpoint lsn lsn (Z.max 0 (default 0 (copied_row_count m))) (Z.max 0 (default 0 (copied_bytes m))).

(** A position that the source has not passed yet. *)
Definition reached_by (lsn : Z) (m : MoveRow) : Prop :=
  from_option (fun s => s ≤ lsn) True (latest_source_lsn m).

Lemma next_checkpoint_ok own db id m s lsn : at_work own db id m s → reached_by lsn m →
  TenantCellMoveCheckpoint_new (next_checkpoint lsn m) = Ok (next_checkpoint lsn m) ∧
  not_back m (next_checkpoint lsn m).
Proof.
  intros [Hok Hm _ _] Hr. split.
  - unfold TenantCellMoveCheckpoint_new.
    rewrite !(proj2 (require_nonnegative_ok _ _ tt)) by apply Z.le_max_l. cbn [rbind].
    by rewrite (proj2 (Z.ltb_ge _ _)) by apply Z.le_refl.
  - pose proof (move_positions _ _ _ (moves_ok db Hok id m Hm)) as Hp. unfold reached_by in Hr.
    unfold not_back, next_checkpoint; cbn. split_and!; [done|..].
    + destruct (latest_target_replay_lsn m) as [t|]; [|done]. destruct (Hp t eq_refl) as (q & Hq & Hle).
      rewrite Hq in Hr. cbn in *. lia.
    + destruct (copied_row_count m); cbn; lia.
    + destruct (copied_bytes m); cbn; lia.
Qed.

(** What a proof of routing has to observe. *)
Definition cutover_proof (m : MoveRow) : TenantCellMoveCutoverVerification :=
  MkCutoverVerification (lit "probe") (lit "route") (target_data_cell_id m) (source_placement_revision m + 1)
    true true true true true true.
Definition rollback_proof (m : MoveRow) : TenantCellMoveRollbackVerification :=
  MkRollbackVerification (lit "probe") (lit "route") (source_data_cell_id m) (source_placement_revision m + 2)
    true true true true true true.

Definition settled (db : CellDb) (m : MoveRow) : Prop :=
  placements db !! move_tenant m = Some (MkPlacement (target_data_cell_id m) (source_placement_revision m + 1)
    (residency_requirement m)) ∧ enforce_tenant_cell_write_fence (move_tenant m) db = Ok tt.

(** Take one step of the move at hand: [Htot] says that the command succeeds. *)
Ltac take Hw c a Htot :=
  let db1 := fresh "db1" in let Hx := fresh "Hx" in
  destruct Htot as [db1 Hx];
  let m1 := fresh "m1" in let Hs1 := fresh "Hstep" in let Hw1 := fresh "Hw1" in let Hsm := fresh "Hsame" in
  let Hc1 := fresh "Hcells" in let Hr1 := fresh "Hrev" in let Ha1 := fresh "Harrow" in let Hf1 := fresh "Hfence" in
  let Hp1 := fresh "Hplace" in let Hm1 := fresh "Hrow" in
  destruct (reaches_step _ c a _ db1 _ _ _ Hw) as (m1 & Hs1 & Hw1 & Hsm & Hc1 & Hr1 & Ha1 & Hf1 & Hp1 & Hm1);
  [done| |exact Hx|].

(** A run that starts with a step. *)
Lemma reaches_cons own c a db db1 id m m1 k s' P :
  move_command (Did own c) = Some (id, a) → cell_step (Did own c) db db1 → same_move m m1 →
  data_cells db1 = data_cells db → move_revision m1 = move_revision m + 1 →
  reaches own db1 id m1 k s' P → reaches own db id m (k + 1) s' P.
Proof.
  intros Hc Hs Hsm Ec Er (ls & db' & m' & Hr & Hl & Hw & Hsm' & Ec' & Hk & HP).
  exists (Did own c :: ls), db', m'. split_and!; try done.
  - by econstructor.
  - constructor; [by exists c, a|done].
  - destruct Hsm as (? & ? & ? & ? & ?), Hsm' as (? & ? & ? & ? & ?). split_and!; congruence.
  - congruence.
  - lia.
Qed.

Ltac lead a k Hstep Hsame Hcells Hrev :=
  eapply (reaches_cons _ _ a _ _ _ _ _ k); [|exact Hstep|exact Hsame|exact Hcells|exact Hrev|]; [done|].

Lemma from_verified own db id m :
  at_work own db id m CutOver → post_cutover_verified m = true → move_revision m < i64_max →
  reaches own db id m 1 Completed settled.
Proof.
  intros Hw Hpv Hmax. take Hw (Complete id (move_revision m)) CompletedAction (complete_total own db id m Hw Hmax Hpv); [done|].
  destruct Harrow as [_ Est]. rewrite Est in Hw1. lead CompletedAction 0 Hstep Hsame Hcells Hrev.
  apply reaches_here; [done|]. pose proof (work_home _ _ _ _ _ Hw) as Hh. cbn in Hplace, Hfence.
  pose proof (w_status _ _ _ _ _ Hw) as Hs. unfold home in Hh. rewrite Hs in Hh. cbn in Hh.
  destruct Hsame as (E1 & E2 & E3 & E4 & E5). unfold settled, enforce_tenant_cell_write_fence.
  rewrite Hfence, Hplace, E1, E3, E4, E5. split; [|done]. apply Hh. unfold is_active_move. by rewrite Hs.
Qed.

Lemma from_cut_over own db id m :
  at_work own db id m CutOver → move_revision m + 2 ≤ i64_max → reaches own db id m 2 Completed settled.
Proof.
  intros Hw Hmax. destruct (post_cutover_verified m) eqn:Hpv.
  - eapply reaches_weaken; [apply from_verified; [done|done|lia]|lia|done].
  - take Hw (VerifyCutover id (move_revision m) (cutover_proof m)) PostCutoverVerified
      (verify_cutover_total own db id m (cutover_proof m) Hw ltac:(lia) Hpv eq_refl eq_refl); [by exists (cutover_proof m)|].
    destruct Harrow as [_ Est]. rewrite Est in Hw1.
    lead PostCutoverVerified 1 Hstep Hsame Hcells Hrev.
    apply from_verified; [done|by eapply verify_marks|lia].
Qed.

Lemma target_active_same db db' m m' :
  same_move m m' → data_cells db' = data_cells db → target_active db m → target_active db' m'.
Proof. intros (_ & _ & E & _) Ec. unfold target_active. by rewrite E, Ec. Qed.

Lemma from_validated own db id m :
  at_work own db id m Validated → target_active db m → move_revision m + 3 ≤ i64_max →
  source_placement_revision m < i64_max → reaches own db id m 3 Completed settled.
Proof.
  intros Hw Hta Hmax Hp. take Hw (Cutover id (move_revision m) (source_placement_revision m)) CutOverAction
    (cutover_total own db id m Hw Hta ltac:(lia) Hp); [done|].
  destruct Harrow as [_ Est]. rewrite Est in Hw1.
  lead CutOverAction 2 Hstep Hsame Hcells Hrev.
  apply from_cut_over; [done|lia].
Qed.

Lemma from_frozen own db id m v :
  parity v → reached_by (va_source_lsn v) m → at_work own db id m Frozen → target_active db m → move_revision m + 5 ≤ i64_max →
  source_placement_revision m < i64_max → reaches own db id m 5 Completed settled.
Proof.
  intros Hv Hre Hw Hta Hmax Hp. destruct (next_checkpoint_ok _ _ _ _ _ _ Hw Hre) as [Hty Hnb].
  set (c := next_checkpoint (va_source_lsn v) m) in *.
  take Hw (Checkpoint id (move_revision m) c) CheckpointRecorded
    (checkpoint_total own db id m Frozen c Hw ltac:(by right) Hnb ltac:(lia)); [by exists c|].
  lead CheckpointRecorded 4 Hstep Hsame Hcells Hrev.
  destruct Harrow as [_ Est]. rewrite Est in Hw1.
  destruct (checkpoint_marks _ _ _ _ _ _ _ m1 (w_ok _ _ _ _ _ Hw) Hx Hrow) as (_ & Hlatest & Hls & Hlt0).
  assert (Hnb1 : not_behind v m1) by (destruct Hv as [Hv _]; unfold not_behind; cbn in Hls, Hlt0; naive_solver lia).
  destruct (move_fence _ _ _ (moves_ok db (w_ok _ _ _ _ _ Hw) id m (w_move _ _ _ _ _ Hw))) as (f & Hf & (e & He & E1 & _ & E2));
    [by rewrite (w_status _ _ _ _ _ Hw)|].
  pose proof (at_work_events _ _ _ _ _ Hw e He E1) as Hlt. cbn in Hfence.
  assert (Hf1 : fences db1 !! move_tenant m1 = Some (MkFence id f)) by (rewrite Hfence; by destruct Hsame as [-> _]).
  pose proof (target_active_same _ _ _ _ Hsame Hcells Hta) as Hta1.
  take Hw1 (Validate id (move_revision m1) v) ValidatedAction
    (validate_total own db1 id m1 v f Hw1 Hta1 ltac:(lia) Hnb1 Hlatest Hf1 ltac:(lia));
    [exists v; by apply TenantCellMoveValidation_new_ok|].
  lead ValidatedAction 3 Hstep0 Hsame0 Hcells0 Hrev0.
  destruct Harrow as [_ Est1]. rewrite Est1 in Hw0.
  apply from_validated; [done|by eapply target_active_same|lia|].
  destruct Hsame as (_ & _ & _ & E & _), Hsame0 as (_ & _ & _ & E' & _). congruence.
Qed.

Lemma from_copying own db id m v :
  parity v → reached_by (va_source_lsn v) m → at_work own db id m Copying → target_active db m → move_revision m + 7 ≤ i64_max →
  source_placement_revision m < i64_max → reaches own db id m 7 Completed settled.
Proof.
  intros Hv Hre Hw Hta Hmax Hp. destruct (next_checkpoint_ok _ _ _ _ _ _ Hw Hre) as [Hty Hnb].
  set (c := next_checkpoint (va_source_lsn v) m) in *.
  take Hw (Checkpoint id (move_revision m) c) CheckpointRecorded
    (checkpoint_total own db id m Copying c Hw ltac:(by left) Hnb ltac:(lia)); [by exists c|].
  lead CheckpointRecorded 6 Hstep Hsame Hcells Hrev.
  destruct Harrow as [_ Est]. rewrite Est in Hw1.
  destruct (checkpoint_marks _ _ _ _ _ _ _ m1 (w_ok _ _ _ _ _ Hw) Hx Hrow) as (Hck & _ & Hls & _).
  pose proof (target_active_same _ _ _ _ Hsame Hcells Hta) as Hta1.
  take Hw1 (Freeze id (move_revision m1)) WritesFrozen (freeze_total own db1 id m1 Hw1 Hta1 Hck ltac:(lia)); [done|].
  lead WritesFrozen 5 Hstep0 Hsame0 Hcells0 Hrev0.
  destruct Harrow as [_ Est1]. rewrite Est1 in Hw0.
  apply (from_frozen own _ _ _ v); [done| |done|by eapply target_active_same|lia|].
  { unfold reached_by. rewrite (freeze_keeps _ _ _ _ _ _ m1 _ Hx0 Hrow Hrow0), Hls. cbn. lia. }
  destruct Hsame as (_ & _ & _ & E & _), Hsame0 as (_ & _ & _ & E' & _). congruence.
Qed.

Lemma from_planned own db id m v :
  parity v → reached_by (va_source_lsn v) m → at_work own db id m Planned → target_active db m → move_revision m + 8 ≤ i64_max →
  source_placement_revision m < i64_max → reaches own db id m 8 Completed settled.
Proof.
  intros Hv Hre Hw Hta Hmax Hp. take Hw (StartCopy id (move_revision m)) CopyStarted
    (start_copy_total own db id m Hw Hta ltac:(lia)); [done|].
  lead CopyStarted 7 Hstep Hsame Hcells Hrev.
  destruct Harrow as [_ Est]. rewrite Est in Hw1.
  apply (from_copying own _ _ _ v); [done| |done|by eapply target_active_same|lia|].
  { unfold reached_by. by rewrite (start_copy_keeps _ _ _ _ _ _ m _ Hx (w_move _ _ _ _ _ Hw) Hrow). }
  destruct Hsame as (_ & _ & _ & E & _). congruence.
Qed.
