(* ===== verification/CellGuards.v ===== *)
(** * Data cells: the triggers of the registry

    The three triggers of [migrations/postgres/0001_baseline.sql] on what the registry's
    handlers write: the one on the rows of [data_cells] (as it is redefined for the
    moves), the one on their events, and the deferred one that wants an event for every
    revision of a row. The instants, the actor and the reasons that they compare too are
    not in the rows of the model; rows are never deleted and events never updated by the
    handlers. The triggers on moves, evidence and fences are not here. *)

From stdpp Require Import pretty.
From S2P Require Import Prelude.
From S2P Require Import RustStr.
From S2P Require Import Idempotency.
From S2P Require Import Outbox.
From S2P Require Import CellTypes.
From S2P Require Import CellDb.
From S2P Require Import CellInvariant.
From S2P Require Import CellFacts.

(** ** The triggers *)

Definition outbound_count (db : CellDb) (cell : Z) : Z :=
  count_rows (fun _ m => (source_data_cell_id m =? cell) && is_active_move m) (moves db).

Definition cell_status_step (old new : DataCellStatus) (idle : bool) : bool :=
  match old, new with
  | Provisioning, Active | Active, Draining | Draining, Active => true
  | Draining, Retired => idle
  | _, _ => false
  end.

(** The trigger on [data_cells]; [old] is absent on an insert. *)
Definition validate_data_cell_mutation (db : CellDb) (id : Z) (old : option DataCellRow) (new : DataCellRow) : bool :=
  match old with
  | None => bool_decide (cell_status new = Provisioning) && (cell_revision new =? 1)
  | Some old =>
      let placed_count := placement_count db id in
      let reserved_count := reserved_inbound_move_count db id in
      let rollback_reserved_count := reserved_rollback_move_count db id in
      let status_transition := negb (bool_decide (cell_status new = cell_status old)) in
      bool_decide (cell_key new = cell_key old ∧ cell_region new = cell_region old ∧
                   cell_residency new = cell_residency old ∧ cell_mode new = cell_mode old)
      && (cell_revision new =? cell_revision old + 1)
      && (placed_count + reserved_count + rollback_reserved_count <=? cell_max_tenants new)
      && negb (bool_decide (cell_mode new = Dedicated) && (1 <? placed_count + reserved_count + rollback_reserved_count))
      && (negb status_transition
          || (bool_decide (cell_name new = cell_name old) && (cell_max_tenants new =? cell_max_tenants old)
              && cell_status_step (cell_status old) (cell_status new)
                   ((placed_count =? 0) && (reserved_count =? 0) && (outbound_count db id =? 0))))
      && (status_transition
          || negb (bool_decide (cell_name new = cell_name old) && (cell_max_tenants new =? cell_max_tenants old)))
  end.

(** The trigger on the events: the row has the event's revision and status. *)
Definition validate_data_cell_event (db : CellDb) (new : CellEvent) : bool :=
  match data_cells db !! event_cell new with
  | Some cell =>
      (cell_revision cell =? event_cell_revision new)
      && bool_decide (cell_status cell = event_cell_resulting new)
  | None => false
  end.

(** The deferred trigger on the rows: every revision left its event. *)
Definition require_data_cell_event (db : CellDb) (id : Z) (new : DataCellRow) : bool :=
  existsb (fun event => (event_cell event =? id) && (event_cell_revision event =? cell_revision new)
                        && bool_decide (event_cell_resulting event = cell_status new)) (cell_events db).

(** ** What the handlers write passes *)

Lemma capacity_guard db id c max :
  cell_row_ok db id c → committed db id ≤ max →
  (placement_count db id + reserved_inbound_move_count db id + reserved_rollback_move_count db id <=? max) = true ∧
  bool_decide (cell_mode c = Dedicated) &&
    (1 <? placement_count db id + reserved_inbound_move_count db id + reserved_rollback_move_count db id) = false.
Proof.
  intros [_ _ _ Hd Hcap _] Hm. rewrite committed_three. split; [by apply Z.leb_le|].
  case_bool_decide as E; [|done]. specialize (Hd E). cbn. apply Z.ltb_ge. lia.
Qed.

(** A cell without slots in use has no move on its way out. *)
Lemma idle_outbound db id : cell_ok db → committed db id = 0 → outbound_count db id = 0.
Proof.
  intros Hok Hz. pose proof (placement_count_nonneg db id). pose proof (reserved_nonneg db None id). unfold committed in Hz.
  apply count_rows_none. intros k m Hm. apply not_true_iff_false. intros [Hs Ha]%andb_true_iff. apply Z.eqb_eq in Hs.
  pose proof (move_home _ _ _ (moves_ok db Hok k m Hm) Ha) as Hh. unfold home in Hh.
  case_bool_decide as E.
  - assert (Hr : reserved_move_count db None id = 0) by lia.
    pose proof (count_rows_zero _ _ Hr k m Hm) as Hx. cbn in Hx. apply orb_false_iff in Hx as [_ Hx].
    unfold reserves_rollback in Hx. by rewrite Hs, Z.eqb_refl, E in Hx.
  - assert (Hp : placement_count db id = 0) by lia.
    pose proof (count_rows_zero _ _ Hp _ _ Hh) as Hx. cbn in Hx. by rewrite Hs, Z.eqb_refl in Hx.
Qed.

Lemma reconfigure_guard tenant id expected name max db db' r :
  cell_ok db → 1 ≤ max → reconfigure tenant id expected name max db = Ok (db', r) →
  ∃ c c', data_cells db !! id = Some c ∧ cell_update db db' id c' ∧
    validate_data_cell_mutation db id (Some c) c' = true.
Proof.
  intros Hok Hmax H. apply reconfigure_ok in H as (_ & c & Hc & Hle & Hdiff & Hup); [|done..].
  exists c. eexists. split; [done|]. split; [exact Hup|]. unfold validate_data_cell_mutation. cbn.
  destruct (capacity_guard db id c (cell_max_tenants c)) as [_ Hded]; [by apply (cells_ok db Hok)|
    by apply (cells_ok db Hok id c)|].
  rewrite (bool_decide_true (_ ∧ _)) by done. rewrite Z.eqb_refl, committed_three, (proj2 (Z.leb_le _ _) Hle).
  rewrite committed_three in Hded. rewrite Hded, bool_decide_true by done. cbn.
  destruct Hdiff as [Hd|Hd]; [rewrite (bool_decide_false (name = _)) by congruence; done|].
  rewrite (proj2 (Z.eqb_neq max (cell_max_tenants c))) by congruence. by rewrite andb_false_r.
Qed.

Lemma change_status_guard tenant id expected status db db' r :
  cell_ok db → change_status tenant id expected status db = Ok (db', r) →
  ∃ c c', data_cells db !! id = Some c ∧ cell_update db db' id c' ∧
    validate_data_cell_mutation db id (Some c) c' = true.
Proof.
  intros Hok H. apply change_status_ok in H as (_ & c & Hc & Htr & Hidle & Hup); [|done..].
  exists c. eexists. split; [done|]. split; [exact Hup|]. unfold validate_data_cell_mutation. cbn.
  destruct (capacity_guard db id c (cell_max_tenants c)) as [Hcap Hded]; [by apply (cells_ok db Hok)|
    by apply (cells_ok db Hok id c)|].
  rewrite (bool_decide_true (_ ∧ _)) by done. rewrite !Z.eqb_refl, Hcap, Hded.
  rewrite (bool_decide_false (status = _)) by (intros ->; by destruct (cell_status c)).
  rewrite (bool_decide_true (cell_name c = _)) by done. cbn. rewrite andb_true_r.
  destruct (cell_status c), status; try done. cbn.
  specialize (Hidle eq_refl). rewrite (idle_outbound db id) by done.
  pose proof (committed_three db id). pose proof (placement_count_nonneg db id).
  pose proof (count_rows_nonneg (fun _ m => reserves_inbound id m) (moves db)).
  pose proof (count_rows_nonneg (fun _ m => reserves_rollback id m) (moves db)).
  unfold reserved_inbound_move_count, reserved_rollback_move_count in *.
  rewrite !(proj2 (Z.eqb_eq _ _)) by lia. done.
Qed.

(** The event of an updated row satisfies both triggers on events. *)
Lemma cell_event_guards db db' id row :
  cell_update db db' id row →
  require_data_cell_event db' id row = true ∧
  ∃ event, cell_events db' = cell_events db ++ [event] ∧ event_cell event = id ∧
    validate_data_cell_event db' event = true.
Proof.
  intros [Ecells (_ & _ & previous & Eev) _ _ _ _ _]. split.
  - unfold require_data_cell_event. rewrite Eev, existsb_app. cbn.
    by rewrite !Z.eqb_refl, bool_decide_true, orb_true_r by done.
  - eexists. split; [exact Eev|]. split; [done|]. unfold validate_data_cell_event. cbn.
    by rewrite Ecells, lookup_insert_eq, Z.eqb_refl, bool_decide_true.
Qed.

Lemma plan_cells own tenant target expected db db' r :
  plan own tenant target expected db = Ok (db', r) → data_cells db' = data_cells db.
Proof.
  intros H. unfold plan in H. apply rbind_ok in H as (u & _ & H). apply rbind_ok in H as (p & _ & H).
  destruct (_ =? expected) in H; [|done]. destruct (_ =? target) in H; [done|]. apply rbind_ok in H as (? & _ & H).
  destruct (existsb _ _) in H; [done|]. cbn zeta in H. apply rbind_ok in H as (db1 & Hev & [= <- <-]).
  by apply record_move_event_ok in Hev as (box & -> & _).
Qed.

Lemma cell_rows own c db db' r :
  cell_ok db → well_typed c → execute own c db = Ok (db', r) → precheck c = Ok tt →
  data_cells db' = data_cells db ∨
  ∃ id row, cell_update db db' id row ∧ validate_data_cell_mutation db id (data_cells db !! id) row = true.
Proof.
  intros Hok Hty H Hpre. pose proof (execute_effect own c db db' r Hok Hty Hpre H) as He.
  destruct c; cbn in He; try (left; destruct He as [(m & m' & e & _ & _ & [(E & _) _ _ _ _ _ _ _ _ _ _] & _) _]; exact E).
  - right. destruct He as (_ & Hnone & Hup). do 2 eexists. split; [exact Hup|]. by rewrite Hnone.
  - right. destruct Hty as [v Hv%DataCellCapacity_new_pos].
    destruct (reconfigure_guard own id expected name max_tenants db db' r Hok Hv H) as (a & b & Ha & E & Hg).
    exists id, b. by rewrite Ha.
  - right. destruct (change_status_guard own id expected status db db' r Hok H) as (a & b & Ha & E & Hg).
    exists id, b. by rewrite Ha.
  - left. by apply (plan_cells own tenant target expected_placement db db' r).
Qed.
