(* ===== verification/CellGuarantees.v ===== *)
(** * Data cells and tenant moves: guarantees

    The theorems about the registry, the placements and the moves, over every
    reachable state, each with a witness on the concrete history [demo_labels]. *)

From stdpp Require Import pretty.
From S2P Require Import Prelude.
From S2P Require Import RustStr.
From S2P Require Import Idempotency.
From S2P Require Import Outbox.
From S2P Require Import CellTypes.
From S2P Require Import CellDb.
From S2P Require Import CellInvariant.
From S2P Require Import CellFacts.
From S2P Require Import CellHistory.
From S2P Require Import CellProgress.
From S2P Require Import CellGuards.

(** ** An executable history *)

Definition run_label (l : cell_label) (db : CellDb) : option CellDb :=
  match l with
  | Did own c => match precheck c with
                 | Ok _ => match execute own c db with Ok (db, _) => Some db | Err _ => None end
                 | Err _ => None
                 end
  | NewTenant tenant cell requirement =>
      match create_tenant tenant cell requirement db with Ok db => Some db | Err _ => None end
  | Wrote tenant => match enforce_tenant_cell_write_fence tenant db with Ok _ => Some db | Err _ => None end
  end.
Fixpoint run_labels (ls : list cell_label) (db : CellDb) : option CellDb :=
  match ls with
  | [] => Some db
  | l :: ls => match run_label l db with Some db => run_labels ls db | None => None end
  end.
Definition label_typed (l : cell_label) : Prop := match l with Did _ c => well_typed c | _ => True end.

Lemma run_labels_sound ls db db' : Forall label_typed ls → run_labels ls db = Some db' → cell_run ls db db'.
Proof.
  intros Hty. revert db. induction Hty as [|l ls Hl _ IH]; intros db H; cbn in H.
  - injection H as <-. constructor.
  - destruct (run_label l db) as [db1|] eqn:E; [|done]. econstructor; [|by apply IH].
    destruct l as [own c|t c r|t]; cbn in E.
    + destruct (precheck c) as [[]|] eqn:Ep; [|done]. destruct (execute own c db) as [[d r]|] eqn:Ee; [|done].
      injection E as <-. by econstructor.
    + destruct (create_tenant t c r db) eqn:Ec; [|done]. injection E as <-. by constructor.
    + destruct (enforce_tenant_cell_write_fence t db) as [[]|] eqn:Ec; [|done]. injection E as <-. by constructor.
Qed.

Definition demo_checkpoint : TenantCellMoveCheckpoint := MkCheckpoint 900 900 12 4096.
Definition demo_validation : TenantCellMoveValidation :=
  MkValidation (lit "v1") 900 900 12 12 [] [] [] [] [] [] true true true.
Definition demo_cutover : TenantCellMoveCutoverVerification :=
  MkCutoverVerification (lit "v1") (lit "route") 3 2 true true true true true true.

(** The administrator is switched to tenant 1; tenant 7 moves from cell 2 to cell 3. *)
Definition demo_setup : list cell_label :=
  [Did 1 (Register (lit "eu-one") (lit "One") (lit "eu") (lit "EU") Shared 2);
   Did 1 (Register (lit "eu-two") (lit "Two") (lit "eu") (lit "EU") Dedicated 1);
   Did 1 (ChangeStatus 2 1 Active); Did 1 (ChangeStatus 3 1 Active);
   NewTenant 7 2 (lit "EU"); Wrote 7; Did 1 (Plan 7 3 1)].
Definition demo_move : list cell_label :=
  [Did 1 (StartCopy 1 1); Wrote 7; Did 1 (Checkpoint 1 2 demo_checkpoint); Did 1 (Freeze 1 3);
   Did 1 (Checkpoint 1 4 demo_checkpoint); Did 1 (Validate 1 5 demo_validation); Did 1 (Cutover 1 6 1)].

Lemma demo_typed : Forall label_typed (demo_setup ++ demo_move).
Proof.
  unfold demo_setup, demo_move. cbn [app]. repeat apply Forall_cons_2; [..|constructor].
  all: first [exact I|by exists 2|by exists 1|by exists demo_checkpoint|by exists demo_validation].
Qed.

Definition planned_db : CellDb := default empty_cell_db (run_labels demo_setup empty_cell_db).
Definition cut_over_db : CellDb := default empty_cell_db (run_labels (demo_setup ++ demo_move) empty_cell_db).

Lemma demo_run ls : Forall label_typed ls →
  (match run_labels ls empty_cell_db with Some _ => true | None => false end) = true →
  cell_run ls empty_cell_db (default empty_cell_db (run_labels ls empty_cell_db)).
Proof. intros Hty H. destruct (run_labels ls empty_cell_db) eqn:E; [|done]. by apply run_labels_sound. Qed.

(** The state after a command that is known to be accepted. *)
Definition next_db (own : Z) (c : CellCommand) (db : CellDb) : CellDb :=
  match execute own c db with Ok (db, _) => db | Err _ => db end.
Lemma next_db_ok own c db r :
  (match execute own c db with Ok (_, x) => x =? r | Err _ => false end) = true →
  execute own c db = Ok (next_db own c db, r).
Proof.
  unfold next_db. destruct (execute own c db) as [[db' x]|]; [|done]. intros E%Z.eqb_eq. by subst.
Qed.

Lemma planned_run : cell_run demo_setup empty_cell_db planned_db.
Proof.
  apply demo_run; [|vm_compute; reflexivity]. pose proof demo_typed as H. by apply Forall_app in H as [? _].
Qed.
Lemma cut_over_run : cell_run (demo_setup ++ demo_move) empty_cell_db cut_over_db.
Proof. apply demo_run; [apply demo_typed|vm_compute; reflexivity]. Qed.
Lemma planned_reachable : cell_reachable planned_db.
Proof. eexists. exact planned_run. Qed.
Lemma cut_over_reachable : cell_reachable cut_over_db.
Proof. eexists. exact cut_over_run. Qed.

(** ** Capacity, residency and life of the cells *)

(** C21. In every reachable state: a cell never promises more slots than it has,
    counting the tenants placed in it, the moves bound for it and the moves that may
    still roll back to it; a dedicated cell promises at most one; a cell that is not
    in service yet, or no more, promises none; and every tenant is placed in a cell
    that is in service and satisfies its residency requirement. *)
Theorem cells_within_capacity db :
  cell_reachable db →
  (∀ id c, data_cells db !! id = Some c →
     placement_count db id + reserved_inbound_move_count db id + reserved_rollback_move_count db id
       ≤ (if bool_decide (cell_status c = Provisioning ∨ cell_status c = Retired) then 0
          else if bool_decide (cell_mode c = Dedicated) then 1 else cell_max_tenants c)) ∧
  (∀ t p, placements db !! t = Some p → ∃ c, data_cells db !! placement_cell p = Some c ∧
     (cell_status c = Active ∨ cell_status c = Draining) ∧ allows (placement_residency p) (cell_residency c) = true).
Proof.
  intros Hok%cell_reachable_ok. split.
  - intros id c Hc. rewrite committed_three. destruct (cells_ok db Hok id c Hc) as [_ _ _ Hded Hcap Hidle].
    case_bool_decide as Hs; [by rewrite Hidle|]. case_bool_decide as Hd; [|done]. by rewrite <-(Hded Hd).
  - intros t p Hp. destruct (placements_ok db Hok t p Hp) as [_ (c & Hc & Ha)]. exists c. split; [done|]. split; [|done].
    destruct (cells_ok db Hok _ c Hc) as [_ _ _ _ _ Hidle].
    assert (Hne : committed db (placement_cell p) ≠ 0).
    { intros Hz. pose proof (placement_count_nonneg db (placement_cell p)).
      pose proof (reserved_nonneg db None (placement_cell p)). unfold committed in Hz.
      assert (Hz' : placement_count db (placement_cell p) = 0) by lia.
      pose proof (count_rows_zero _ _ Hz' t p Hp) as Hx. cbn in Hx. by rewrite Z.eqb_refl in Hx. }
    destruct (cell_status c); auto; exfalso; apply Hne, Hidle; auto.
Qed.

Lemma cells_within_capacity_witness :
  (∀ id c, data_cells planned_db !! id = Some c →
     placement_count planned_db id + reserved_inbound_move_count planned_db id +
       reserved_rollback_move_count planned_db id
       ≤ (if bool_decide (cell_status c = Provisioning ∨ cell_status c = Retired) then 0
          else if bool_decide (cell_mode c = Dedicated) then 1 else cell_max_tenants c)) ∧
  reserved_inbound_move_count planned_db 3 = 1.
Proof. split; [apply (cells_within_capacity planned_db planned_reachable)|by vm_compute]. Defined.

(** A tenant is never in two moves at once. While a move is open its tenant is in
    the source cell at the planned placement revision, and after the cut-over in the
    target cell at the next one. A tenant's writes are fenced exactly while a move of
    its own is frozen, validated or cut over. *)
Theorem open_moves_own_their_tenant db :
  cell_reachable db →
  (∀ id m, moves db !! id = Some m → is_active_move m = true →
     placements db !! move_tenant m = Some
       (if bool_decide (move_status m = CutOver)
        then MkPlacement (target_data_cell_id m) (source_placement_revision m + 1) (residency_requirement m)
        else MkPlacement (source_data_cell_id m) (source_placement_revision m) (residency_requirement m)) ∧
     ∀ id2 m2, moves db !! id2 = Some m2 → is_active_move m2 = true → move_tenant m2 = move_tenant m → id2 = id) ∧
  (∀ t, enforce_tenant_cell_write_fence t db ≠ Ok tt ↔
     ∃ id m, moves db !! id = Some m ∧ move_tenant m = t ∧ is_write_fenced (move_status m) = true).
Proof.
  intros Hok%cell_reachable_ok. split.
  - intros id m Hm Ha. split; [exact (move_home _ _ _ (moves_ok db Hok id m Hm) Ha)|].
    intros id2 m2 Hm2 Ha2 E. by apply (one_active db Hok id2 id m2 m).
  - intros t. unfold enforce_tenant_cell_write_fence. split.
    + destruct (fences db !! t) as [f|] eqn:Hf; [intros _|done]. destruct (fences_ok db Hok t f Hf) as (m & Hm & Et & Hw). eauto.
    + intros (id & m & Hm & <- & Hw). by destruct (move_fence _ _ _ (moves_ok db Hok id m Hm) Hw) as (f & -> & _).
Qed.

Lemma open_moves_own_their_tenant_witness :
  ∃ m, moves cut_over_db !! 1 = Some m ∧ is_active_move m = true ∧
    enforce_tenant_cell_write_fence 7 cut_over_db ≠ Ok tt.
Proof.
  eexists. split; [vm_compute; reflexivity|]. split; [by vm_compute|].
  apply (open_moves_own_their_tenant cut_over_db cut_over_reachable). exists 1. eexists.
  split; [vm_compute; reflexivity|by vm_compute].
Defined.

(** ** No write is lost *)

(** C22. In every history that leaves a move fenced, the history since the freeze of
    that move has no accepted write of its tenant; and when the move is validated or
    cut over, that part of the history has a checkpoint of the move and, after it, a
    validation whose evidence shows both cells equal. So what was validated is what
    the target cell serves after the cut-over. *)
Theorem no_write_since_freeze ls db id m :
  cell_run ls empty_cell_db db → moves db !! id = Some m → is_write_fenced (move_status m) = true →
  ∃ before own rev since, ls = before ++ Did own (Freeze id rev) :: since ∧ (Wrote (move_tenant m) ∉ since) ∧
    (move_status m = Validated ∨ move_status m = CutOver →
     ∃ lsa lsb own rev v, since = lsa ++ Did own (Validate id rev v) :: lsb ∧ parity v ∧
       ∃ own rev c, Did own (Checkpoint id rev c) ∈ lsa).
Proof.
  intros Hrun Hm Hw. destruct (run_frozen_since ls db id m Hrun Hm Hw) as (ls1 & own & rev & ls2 & E & Hnw & _ & Hv).
  exists ls1, own, rev, ls2. split; [done|]. split; [done|]. intros Hs. apply Hv. by destruct Hs as [-> | ->].
Qed.

Lemma no_write_since_freeze_witness :
  ∃ before own rev since, demo_setup ++ demo_move = before ++ Did own (Freeze 1 rev) :: since ∧ (Wrote 7 ∉ since).
Proof.
  assert (Hm : ∃ m, moves cut_over_db !! 1 = Some m ∧ move_tenant m = 7 ∧ is_write_fenced (move_status m) = true)
    by (eexists; split; [vm_compute; reflexivity|by vm_compute]).
  destruct Hm as (m & Hm & Et & Hw).
  destruct (no_write_since_freeze _ cut_over_db 1 m cut_over_run Hm Hw) as (b & o & r & s & E & Hn & _).
  exists b, o, r, s. rewrite Et in Hn. exact (conj E Hn).
Defined.

(** What a move that reached its end can show, in every reachable state: every
    move past validation was found equal in both cells after its writes were frozen;
    a completed move was seen at its target at the new placement revision; a move that
    was rolled back was seen at its source, and its placement revision had been
    announced; and the evidence of a move is never overwritten by another step. *)
Theorem moves_keep_evidence l db db' id m :
  cell_reachable db → cell_step l db db' → moves db !! id = Some m →
  (past_validation (move_status m) = true → ∃ v, validations db !! id = Some v ∧ parity v ∧ validations db' !! id = Some v) ∧
  (move_status m = Completed → ∃ v, cutover_verifications db !! id = Some v ∧
     cv_observed_data_cell_id v = target_data_cell_id m ∧
     Some (cv_observed_placement_revision v) = cutover_placement_revision m ∧ moves db' !! id = Some m) ∧
  (move_status m = RolledBack → ∃ v, rollback_verifications db !! id = Some v ∧
     rv_observed_data_cell_id v = source_data_cell_id m ∧
     Some (rv_expected_rollback_placement_revision v) = rollback_placement_revision m ∧ moves db' !! id = Some m).
Proof.
  intros Hok%cell_reachable_ok Hs Hm. pose proof (moves_ok db Hok id m Hm) as Hmok.
  destruct (step_keeps l db db' id m Hok Hs Hm) as [Hval Hend].
  split_and!.
  - intros Hp. destruct (move_validated _ _ _ Hmok Hp) as [(v & Hv & Hpar) _]. exists v. split_and!; [done|done|].
    by rewrite Hval.
  - intros E. destruct (move_verified _ _ _ Hmok) as (v & Hv & E1 & E2); [by apply (move_completed _ _ _ Hmok)|].
    destruct (move_cutover _ _ _ Hmok) as [-> _]; [by rewrite E|]. exists v. rewrite E2. split_and!; try done.
    apply Hend. unfold is_active_move. by rewrite E.
  - intros E. destruct (move_rolled_back _ _ _ Hmok E) as (-> & v & Hv & E1 & E2). exists v. rewrite E2. split_and!; try done.
    apply Hend. unfold is_active_move. by rewrite E.
Qed.

(** The state after the proof of routing. *)
Definition verified_db : CellDb := next_db 1 (VerifyCutover 1 7 demo_cutover) cut_over_db.

Lemma verified_step : cell_step (Did 1 (VerifyCutover 1 7 demo_cutover)) cut_over_db verified_db.
Proof.
  apply (step_command 1 (VerifyCutover 1 7 demo_cutover) cut_over_db verified_db 1);
    [by exists demo_cutover|done|apply next_db_ok; vm_compute; reflexivity].
Qed.

Lemma moves_keep_evidence_witness :
  ∃ m v, moves cut_over_db !! 1 = Some m ∧ validations cut_over_db !! 1 = Some v ∧ parity v ∧
    validations verified_db !! 1 = Some v.
Proof.
  assert (Hm : ∃ m, moves cut_over_db !! 1 = Some m ∧ past_validation (move_status m) = true)
    by (eexists; split; [vm_compute; reflexivity|by vm_compute]).
  destruct Hm as (m & Hm & Hp).
  destruct (moves_keep_evidence _ cut_over_db verified_db 1 m cut_over_reachable verified_step Hm) as [H _].
  destruct (H Hp) as (v & H1 & H2 & H3). exists m, v. exact (conj Hm (conj H1 (conj H2 H3))).
Defined.

(** ** A move can always be brought to an end *)

(** C24. A reservation is honoured: in every reachable state, an open move whose target
    cell is in service (which a cut-over move no longer needs) can be driven to
    completion by an administrator of another tenant, whatever else was placed,
    planned or reconfigured since it was planned: there is a run of at most eight
    commands on this move alone that ends with the move completed, the tenant in the
    target cell, and its writes accepted again. The revisions have to leave room, and
    before the move is validated the positions of the evidence must not be behind the
    source position of its last checkpoint, which the database checks. *)
Theorem move_can_complete own db id m v :
  cell_reachable db → moves db !! id = Some m → is_active_move m = true → move_tenant m ≠ own → parity v →
  (past_validation (move_status m) = false →
     match latest_source_lsn m with Some lsn => lsn ≤ va_source_lsn v | None => True end) →
  (move_status m ≠ CutOver → ∃ c, data_cells db !! target_data_cell_id m = Some c ∧ cell_status c = Active) →
  move_revision m + 8 ≤ i64_max → source_placement_revision m < i64_max →
  ∃ ls db' m', cell_run ls db db' ∧ Forall (fun l => ∃ c a, l = Did own c ∧ move_command l = Some (id, a)) ls ∧
    moves db' !! id = Some m' ∧ move_status m' = Completed ∧ move_revision m' ≤ move_revision m + 8 ∧
    placements db' !! move_tenant m =
      Some (MkPlacement (target_data_cell_id m) (source_placement_revision m + 1) (residency_requirement m)) ∧
    enforce_tenant_cell_write_fence (move_tenant m) db' = Ok tt.
Proof.
  intros Hok%cell_reachable_ok Hm Ha Hown Hv Hre Hta Hmax Hp.
  assert (Hw : at_work own db id m (move_status m)) by (by split).
  assert (Hrun : reaches own db id m 8 Completed settled).
  { unfold is_active_move in Ha. destruct (move_status m) eqn:E; try done.
    - apply (from_planned own db id m v); [done|by apply Hre|done|by apply Hta|lia|done].
    - eapply reaches_weaken; [apply (from_copying own db id m v); [done|by apply Hre|done|by apply Hta|lia|done]|lia|done].
    - eapply reaches_weaken; [apply (from_frozen own db id m v); [done|by apply Hre|done|by apply Hta|lia|done]|lia|done].
    - eapply reaches_weaken; [apply from_validated; auto; [by apply Hta|lia]|lia|done].
    - eapply reaches_weaken; [apply from_cut_over; [done|lia]|lia|done]. }
  destruct Hrun as (ls & db' & m' & Hr & Hl & Hw' & (E1 & E2 & E3 & E4 & E5) & _ & Hk & Hpl & Hf).
  exists ls, db', m'. rewrite E1, E3, E4, E5 in *. split_and!; try done; [apply Hw'|apply Hw'].
Qed.

Lemma demo_parity : parity demo_validation.
Proof. unfold parity. cbn. split_and!; done || lia. Qed.

Definition copying_db : CellDb := default empty_cell_db (run_labels (demo_setup ++ take 3 demo_move) empty_cell_db).
Lemma demo_prefix k : Forall label_typed (demo_setup ++ take k demo_move).
Proof.
  pose proof demo_typed as H. apply Forall_app in H as [H1 H2]. apply Forall_app. split; [done|]. by apply Forall_take.
Qed.
Lemma copying_reachable : cell_reachable copying_db.
Proof. eexists. apply demo_run; [apply demo_prefix|vm_compute; reflexivity]. Qed.

Lemma copying_row : ∃ m, moves copying_db !! 1 = Some m ∧ is_active_move m = true ∧ move_tenant m = 7 ∧
  move_revision m = 3 ∧ source_placement_revision m = 1 ∧ target_data_cell_id m = 3 ∧
  latest_source_lsn m = Some 900 ∧ ∃ c, data_cells copying_db !! 3 = Some c ∧ cell_status c = Active.
Proof. eexists. split; [vm_compute; reflexivity|]. split_and!; try (by vm_compute). eexists. by split; [vm_compute; reflexivity|]. Qed.

Lemma cut_over_row : ∃ m, moves cut_over_db !! 1 = Some m ∧ move_status m = CutOver ∧ move_tenant m = 7 ∧
  move_revision m = 7 ∧ source_placement_revision m = 1.
Proof. eexists. split; [vm_compute; reflexivity|]. split_and!; by vm_compute. Qed.

Lemma move_can_complete_witness :
  ∃ ls db' m', cell_run ls copying_db db' ∧ moves db' !! 1 = Some m' ∧ move_status m' = Completed.
Proof.
  destruct copying_row as (m & Hm & Ha & Et & Er & Ep & Eg & El & Hc).
  destruct (move_can_complete 1 copying_db 1 m demo_validation copying_reachable Hm Ha) as
    (ls & db' & m' & H1 & _ & H2 & H3 & _).
  - rewrite Et. discriminate.
  - exact demo_parity.
  - intros _. rewrite El. cbn. lia.
  - intros _. rewrite Eg. exact Hc.
  - rewrite Er. unfold i64_max. lia.
  - rewrite Ep. unfold i64_max. lia.
  - exists ls, db', m'. exact (conj H1 (conj H2 H3)).
Defined.

(** C25. A cut-over can always be undone until it is completed: in every reachable
    state with a cut-over move of another tenant, whatever the two cells have gone through
    since, the rollback with a proof of the source's routing is accepted (while the
    revisions have room), the tenant is back in the source cell, its writes are accepted
    again, and the source cell, which cannot have been retired, is not over its
    capacity. *)
Theorem cut_over_can_roll_back own db id m v :
  cell_reachable db → moves db !! id = Some m → move_status m = CutOver → move_tenant m ≠ own →
  rv_observed_data_cell_id v = source_data_cell_id m →
  rv_expected_rollback_placement_revision v = source_placement_revision m + 2 →
  move_revision m < i64_max → source_placement_revision m + 1 < i64_max →
  ∃ db', rollback own id (move_revision m) v db = Ok (db', id) ∧
    placements db' !! move_tenant m =
      Some (MkPlacement (source_data_cell_id m) (source_placement_revision m + 2) (residency_requirement m)) ∧
    enforce_tenant_cell_write_fence (move_tenant m) db' = Ok tt ∧
    ∃ c, data_cells db' !! source_data_cell_id m = Some c ∧
      (cell_status c = Active ∨ cell_status c = Draining) ∧
      placement_count db' (source_data_cell_id m) ≤ cell_max_tenants c.
Proof.
  intros Hok%cell_reachable_ok Hm Hs Hown Hc Hr Hmax Hpmax.
  assert (Hw : at_work own db id m CutOver) by (by split).
  destruct (rollback_total own db id m v Hw Hmax Hpmax Hc Hr) as [db' H]. exists db'. split; [done|].
  pose proof (rollback_ok own id _ v db db' id Hok H) as [Hmv _].
  pose proof (moved_ok _ _ _ _ Hok Hmv) as Hok'.
  destruct Hmv as (n & m' & e & Hn & _ & Hup & _ & _ & _ & _ & Hf & Hp & _). simplify_eq.
  destruct Hup as [_ _ (E1 & E2 & E3 & E4 & E5 & _) _ _ _ _ _ _ _ _].
  cbn in Hf, Hp. rewrite E1, E2, E4, E5 in Hp. rewrite E1 in Hf.
  split; [done|]. split; [unfold enforce_tenant_cell_write_fence; by rewrite Hf|].
  destruct (placements_ok db' Hok' _ _ Hp) as [_ (c & Hcell & _)]. cbn in Hcell. exists c. split; [done|].
  destruct (cells_ok db' Hok' _ c Hcell) as [_ _ _ _ Hcap Hidle].
  pose proof (reserved_nonneg db' None (source_data_cell_id m)) as Hnn. unfold committed in *.
  split; [|lia]. destruct (cell_status c); auto; exfalso.
  all: assert (Hz : placement_count db' (source_data_cell_id m) = 0)
    by (pose proof (placement_count_nonneg db' (source_data_cell_id m)); specialize (Hidle ltac:(auto)); lia).
  all: pose proof (count_rows_zero _ _ Hz _ _ Hp) as Hx; cbn in Hx; by rewrite Z.eqb_refl in Hx.
Qed.

Lemma cut_over_can_roll_back_witness :
  ∃ m db', moves cut_over_db !! 1 = Some m ∧ rollback 1 1 7 (rollback_proof m) cut_over_db = Ok (db', 1) ∧
    enforce_tenant_cell_write_fence 7 db' = Ok tt.
Proof.
  destruct cut_over_row as (m & Hm & Hs & Et & Er & Ep).
  destruct (cut_over_can_roll_back 1 cut_over_db 1 m (rollback_proof m) cut_over_reachable Hm Hs) as (db' & H1 & _ & H2 & _).
  - rewrite Et. discriminate.
  - reflexivity.
  - reflexivity.
  - rewrite Er. reflexivity.
  - rewrite Ep. reflexivity.
  - exists m, db'. rewrite Er in H1. rewrite Et in H2. exact (conj Hm (conj H1 H2)).
Defined.

(** ** The registry's handlers and its triggers agree *)

(** C23. The three triggers of the registry never refuse what its handlers accept:
    after every accepted command, each row of a cell that the command wrote satisfies
    the trigger on the rows, evaluated in the state before the command (which counts
    placements, reservations, roll-backs and the moves on their way out, as the
    handlers do in other words), the event it left satisfies the trigger on events,
    and the deferred trigger finds that event. *)
Theorem registry_guards_agree own c db db' r :
  cell_reachable db → well_typed c → precheck c = Ok tt → execute own c db = Ok (db', r) →
  ∀ id row, data_cells db' !! id = Some row → data_cells db !! id ≠ Some row →
    validate_data_cell_mutation db id (data_cells db !! id) row = true ∧
    require_data_cell_event db' id row = true ∧
    ∃ event, cell_events db' = cell_events db ++ [event] ∧ event_cell event = id ∧
      validate_data_cell_event db' event = true.
Proof.
  intros Hok%cell_reachable_ok Hty Hpre H id row Hrow Hnew.
  destruct (cell_rows own c db db' r Hok Hty H Hpre) as [E|(j & row' & Hup & Hg)]; [by rewrite E in Hrow|].
  pose proof (cu_cells _ _ _ _ Hup) as E. rewrite E in Hrow.
  apply lookup_insert_Some in Hrow as [[<- <-]|[_ ?]]; [|done].
  split; [done|]. by apply (cell_event_guards db).
Qed.

(** Cell 2 is drained while its tenant is cut over to cell 3. *)
Definition drain_command : CellCommand := ChangeStatus 2 2 Draining.
Lemma drain_command_runs : execute 1 drain_command cut_over_db = Ok (next_db 1 drain_command cut_over_db, 2).
Proof. apply next_db_ok. vm_compute. reflexivity. Qed.
Lemma drain_command_writes : ∃ row, data_cells (next_db 1 drain_command cut_over_db) !! 2 = Some row ∧
  data_cells cut_over_db !! 2 ≠ Some row ∧ cell_status row = Draining.
Proof. eexists. split; [vm_compute; reflexivity|]. split; [vm_compute; discriminate|done]. Qed.

Lemma registry_guards_agree_witness :
  ∃ row, data_cells (next_db 1 drain_command cut_over_db) !! 2 = Some row ∧ cell_status row = Draining ∧
    validate_data_cell_mutation cut_over_db 2 (data_cells cut_over_db !! 2) row = true.
Proof.
  destruct drain_command_writes as (row & Hr & Hne & Hs). exists row.
  destruct (registry_guards_agree 1 drain_command cut_over_db _ 2 cut_over_reachable I eq_refl drain_command_runs 2 row Hr Hne)
    as [Hg _].
  exact (conj Hr (conj Hs Hg)).
Defined.

(** ** Who may command, and how often *)

Section handled.
Context (digest : list Z → rstr) {Json : Type} (to_json : Z → option Json) (from_json : Json → option Z).
Context (digest_is_hex : ∀ b, CommandRequestHash_from_stored (digest b) = Ok (digest b)).
Context (json_roundtrip : ∀ r j, to_json r = Some j → from_json j = Some r).

(** The work of a command under the replay protocol. *)
Definition cell_work (own : Z) (c : CellCommand) (rows : CellDb) : result (CellDb * Z * option Z) ApplicationError :=
  match execute own c rows with
  | Ok (rows, r) => Ok (rows, r, None)
  | Err _ => Err (Internal "refused")
  end.

Lemma handle_ok access context p c (db db' : Records (Json := Json) * CellDb) r :
  handle to_json from_json access context p c db = Ok (db', r) ↔
  require_actor context (access_tenant_id access) (access_user_id access) = Ok tt ∧
  precheck c = Ok tt ∧ authorize access = Ok tt ∧
  run_command to_json from_json p (cell_work (access_tenant_id access) c) db = Ok (db', r).
Proof.
  unfold handle, run_command, cell_work.
  destruct (require_actor _ _ _) as [[]|]; [|split; [done|by intros (? & _)]]. cbn [map_err rbind].
  destruct (precheck c) as [[]|]; [|split; [done|by intros (_ & ? & _)]]. cbn [rbind].
  destruct (authorize access) as [[]|]; [|split; [done|by intros (_ & _ & ? & _)]]. cbn [rbind].
  destruct (replayed from_json db.1 p) as [[x|]|]; cbn [map_err rbind]; [naive_solver| |naive_solver].
  destruct (execute _ c db.2) as [[rows x]|]; cbn [rbind]; [|naive_solver]. unfold commit.
  destruct (commit_with_inventory_transaction _ _ _ _ _) as [[]|]; cbn [map_err rbind]; naive_solver.
Qed.

(** Only a platform administrator, acting for the tenant of the session, changes the
    registry or a move; an accepted command is one step of the system or the replay of
    an earlier one; and sending it again, with the same key, answers the same and
    changes nothing. *)
Theorem administrator_commands_once access context op s enc p c (db db' : Records (Json := Json) * CellDb) r :
  PreparedCommand_new digest context op s (Some enc) = Ok p → schema_result s ≠ 0 → well_typed c →
  handle to_json from_json access context p c db = Ok (db', r) →
  platform_actor_is_administrator access = true ∧
  ctx_tenant_id context = access_tenant_id access ∧ ctx_actor_id context = access_user_id access ∧
  (db' = db ∨ cell_step (Did (access_tenant_id access) c) db.2 db'.2) ∧
  handle to_json from_json access context p c db' = Ok (db', r).
Proof.
  intros Hp Hs Hty (Hact & Hpre & Hau & Hrun)%handle_ok.
  assert (Ha : platform_actor_is_administrator access = true ∧ ctx_tenant_id context = access_tenant_id access ∧
    ctx_actor_id context = access_user_id access).
  { unfold authorize in Hau. unfold require_actor in Hact. destruct (_ && _) eqn:E in Hact; [|done].
    destruct (platform_actor_is_administrator access); [|done]. bool_to_prop. done. }
  destruct Ha as (H1 & H2 & H3). split_and!; [done|done|done|..].
  - apply run_command_inv in Hrun as [[_ ->]|(t & j & _ & Hwork & _)]; [by left|right].
    unfold cell_work in Hwork. destruct (execute _ c db.2) as [[rows x]|] eqn:E; [|done].
    injection Hwork as <- <- _. by econstructor.
  - apply handle_ok. split; [done|]. split; [done|]. split; [done|].
    apply (run_command_answers digest to_json from_json digest_is_hex json_roundtrip context op s enc p) in Hrun
      as (row & _ & Hload & Hres); [|done|done|].
    + unfold run_command, replayed. rewrite Hload. cbn [rbind]. by rewrite Hres.
    + intros rows rows' x t E. unfold cell_work in E. by destruct (execute _ c rows) as [[]|].
Qed.
End handled.

Definition demo_access : TenantAccess := MkAccess 1 7 true.
Definition demo_command : CellCommand := Register (lit "eu-one") (lit "One") (lit "eu") (lit "EU") Shared 2.

Definition demo_prepared : PreparedCommand := sample_prepared [1; 2].

Lemma demo_handled : ∃ db', handle (Json := Z) Some Some demo_access sample_context demo_prepared demo_command
  (∅, empty_cell_db) = Ok (db', 2).
Proof.
  assert (H : (match handle (Json := Z) Some Some demo_access sample_context demo_prepared demo_command (∅, empty_cell_db) with
    Ok (_, x) => x =? 2 | Err _ => false end) = true) by (vm_compute; reflexivity).
  destruct (handle _ _ _ _ _ _ _) as [[db' x]|]; [|done]. apply Z.eqb_eq in H. subst. by exists db'.
Qed.
Lemma demo_prepares :
  PreparedCommand_new sample_digest sample_context (lit "order.place_hold.v1") V1 (Some [1; 2]) = Ok demo_prepared.
Proof. vm_compute. reflexivity. Qed.
Lemma demo_command_typed : well_typed demo_command.
Proof. by exists 2. Qed.

Lemma administrator_commands_once_witness :
  ∃ db', handle (Json := Z) Some Some demo_access sample_context demo_prepared demo_command (∅, empty_cell_db) =
      Ok (db', 2) ∧
    handle (Json := Z) Some Some demo_access sample_context demo_prepared demo_command db' = Ok (db', 2).
Proof.
  destruct demo_handled as [db' H]. exists db'. split; [exact H|].
  destruct (administrator_commands_once sample_digest Some Some sample_digest_is_hex (fun r j H => eq_sym H)
    demo_access sample_context _ V1 [1; 2] demo_prepared demo_command (∅, empty_cell_db) db' 2 demo_prepares
    ltac:(discriminate) demo_command_typed H) as (_ & _ & _ & _ & Hagain).
  exact Hagain.
Defined.
