(* ===== verification/EdgeTypes.v ===== *)
(** * Edge agent: types and commands ([apps/edge-agent/src/types.rs],
      [command.rs] and [adapter.rs])

    Identifiers, device classes and modes, the typed device commands and results
    with their validation, health reports and adapter failures. Stored names of the
    enumerations are the constructors themselves. *)

From S2P Require Import Prelude.
From S2P Require Import RustStr.

(** ** [types.rs] *)

Inductive TypeError :=
| InvalidLength (field : string) (max : Z)
| InvalidCharacters (field : string)
| InvalidDisplayName
| InvalidReason.

Definition MAX_IDENTIFIER_LENGTH : Z := 128.

Definition identifier_byte (byte : Z) : bool :=
  is_ascii_alphanumeric byte || (byte =? 45) || (byte =? 95) || (byte =? 46) || (byte =? 58)
  || (byte =? 47) || (byte =? 64).

Definition validate_identifier (value : rstr) (field : string) (max : Z) : result rstr TypeError :=
  let value := trim value in
  if bool_decide (value = []) || (max <? str_len value) then Err (InvalidLength field max)
  else if negb (forallb identifier_byte (as_bytes value)) then Err (InvalidCharacters field)
  else Ok value.

Inductive DeviceClass := Plc | Conveyor | Robotics | Sortation | Printer | Scale.
#[global] Instance DeviceClass_eq_dec : EqDecision DeviceClass.
Proof. solve_decision. Defined.

Record DeviceDescriptor := MkDescriptor {
  d_tenant_id : rstr;
  d_facility_id : rstr;
  d_device_id : rstr;
  d_class : DeviceClass;
  display_name : rstr;
}.
#[global] Instance DeviceDescriptor_eq_dec : EqDecision DeviceDescriptor.
Proof. solve_decision. Defined.

Definition DeviceDescriptor_validate (self : DeviceDescriptor) : result unit TypeError :=
  let trimmed := trim (display_name self) in
  if bool_decide (trimmed = []) || (200 <? str_len trimmed) then Err InvalidDisplayName else Ok tt.

Inductive ControlMode := Disabled | Automatic | ManualFallback.
#[global] Instance ControlMode_eq_dec : EqDecision ControlMode.
Proof. solve_decision. Defined.

Inductive HealthState := Unknown | Healthy | Degraded | Offline | Faulted.
#[global] Instance HealthState_eq_dec : EqDecision HealthState.
Proof. solve_decision. Defined.

Definition permits_automatic_work (self : HealthState) : bool :=
  match self with Healthy | Degraded => true | _ => false end.

(** [ResumeAutomation] carries a [SafetyConfirmation], a unit value. *)
Inductive ControlAction := Disable | EnterManualFallback | ResumeAutomation.

Definition target_mode (self : ControlAction) : ControlMode :=
  match self with
  | Disable => Disabled
  | EnterManualFallback => ManualFallback
  | ResumeAutomation => Automatic
  end.

Record DeviceStatus := MkStatus {
  descriptor : DeviceDescriptor;
  control_mode : ControlMode;
  control_reason : rstr;
  control_actor : rstr;
  control_changed_at : Z;
  health : HealthState;
  health_message : option rstr;
  last_heartbeat_at : option Z;
  consecutive_health_failures : Z;
}.

Definition validate_reason (reason : rstr) : result rstr TypeError :=
  let reason := trim reason in
  if bool_decide (reason = []) || (1000 <? str_len reason) then Err InvalidReason else Ok reason.

(** ** [command.rs] *)

Inductive CommandError :=
| UnsupportedSchema (version : Z)
| InvalidText (field : string) (max : Z)
| PrintPayloadTooLarge
| InvalidScaleTimeout
| InvalidPulseDuration
| ResultKindMismatch.

Definition COMMAND_SCHEMA_VERSION : Z := 1.
Definition MAX_REFERENCE_LENGTH : Z := 200.
Definition MAX_PRINT_PAYLOAD_BYTES : Z := 10 * 1024 * 1024.

Definition validate_text (value : rstr) (field : string) (max : Z) : result unit CommandError :=
  if bool_decide (trim value = []) || (max <? str_len value) then Err (InvalidText field max) else Ok tt.

Inductive RecoveryPolicy := DeviceDeduplicatedReplay | ProbeThenRetry | ManualReviewPolicy.
#[global] Instance RecoveryPolicy_eq_dec : EqDecision RecoveryPolicy.
Proof. solve_decision. Defined.

Inductive PlcCommand :=
| SetDiscreteOutput (point : rstr) (value : bool)
| PulseDiscreteOutput (point : rstr) (duration_ms : Z)
| ResetFault (fault_code : rstr).

Inductive ConveyorCommand :=
| RouteCarrier (carrier_id destination : rstr)
| StartZone (zone : rstr)
| StopZone (zone : rstr).

Inductive RobotMissionKind := MPick | MPlace | MTransport | MCharge.

Inductive RoboticsCommand :=
| DispatchMission (mission_id : rstr) (mission_kind : RobotMissionKind) (source destination : rstr)
    (payload_id : option rstr)
| CancelMission (mission_id : rstr).

Inductive SortationCommand :=
| Divert (tracking_id chute : rstr)
| Reject (tracking_id lane reason_code : rstr).

Inductive PrintFormat := Zpl | Pdf | Png | Html.

Inductive PrinterCommand :=
| PrintDocument (document_id : rstr) (format : PrintFormat) (content : rstr) (copies : Z)
| CancelPrintJob (spool_job_id : rstr).

Inductive WeightUnit := Gram | Kilogram | Pound.

Inductive ScaleCommand :=
| ReadStableWeight (requested_unit : WeightUnit) (timeout_ms : Z)
| Tare.

Inductive DeviceCommand :=
| PlcC (c : PlcCommand)
| ConveyorC (c : ConveyorCommand)
| RoboticsC (c : RoboticsCommand)
| SortationC (c : SortationCommand)
| PrinterC (c : PrinterCommand)
| ScaleC (c : ScaleCommand).

Definition DeviceCommand_device_class (self : DeviceCommand) : DeviceClass :=
  match self with
  | PlcC _ => Plc
  | ConveyorC _ => Conveyor
  | RoboticsC _ => Robotics
  | SortationC _ => Sortation
  | PrinterC _ => Printer
  | ScaleC _ => Scale
  end.

Definition DeviceCommand_validate (self : DeviceCommand) : result unit CommandError :=
  let text value field := validate_text value field MAX_REFERENCE_LENGTH in
  match self with
  | PlcC (SetDiscreteOutput point _) => text point "PLC point"
  | PlcC (PulseDiscreteOutput point duration_ms) =>
      let? _ := text point "PLC point" in
      if 60000 <? duration_ms then Err InvalidPulseDuration else Ok tt
  | PlcC (ResetFault fault_code) => text fault_code "PLC fault code"
  | ConveyorC (RouteCarrier carrier_id destination) =>
      let? _ := text carrier_id "carrier ID" in
      text destination "conveyor destination"
  | ConveyorC (StartZone zone) | ConveyorC (StopZone zone) => text zone "conveyor zone"
  | RoboticsC (DispatchMission mission_id _ source destination payload_id) =>
      let? _ := text mission_id "robot mission ID" in
      let? _ := text source "robot mission source" in
      let? _ := text destination "robot mission destination" in
      match payload_id with
      | Some payload_id => text payload_id "robot payload ID"
      | None => Ok tt
      end
  | RoboticsC (CancelMission mission_id) => text mission_id "robot mission ID"
  | SortationC (Divert tracking_id chute) =>
      let? _ := text tracking_id "sortation tracking ID" in
      text chute "sortation chute"
  | SortationC (Reject tracking_id lane reason_code) =>
      let? _ := text tracking_id "sortation tracking ID" in
      let? _ := text lane "sortation lane" in
      text reason_code "sortation reason code"
  | PrinterC (PrintDocument document_id _ content _) =>
      let? _ := text document_id "print document ID" in
      if bool_decide (content = []) then Err (InvalidText "print content" MAX_PRINT_PAYLOAD_BYTES)
      else if MAX_PRINT_PAYLOAD_BYTES <? str_len content then Err PrintPayloadTooLarge
      else Ok tt
  | PrinterC (CancelPrintJob spool_job_id) => text spool_job_id "print spool job ID"
  | ScaleC (ReadStableWeight _ timeout_ms) =>
      if 120000 <? timeout_ms then Err InvalidScaleTimeout else Ok tt
  | ScaleC Tare => Ok tt
  end.

Record CommandRequest := MkRequest {
  schema_version : Z;
  command_id : rstr;
  tenant_id : rstr;
  facility_id : rstr;
  device_id : rstr;
  correlation_id : rstr;
  idempotency_key : rstr;
  recovery_policy : RecoveryPolicy;
  command : DeviceCommand;
}.

Definition CommandRequest_validate (self : CommandRequest) : result unit CommandError :=
  if negb (schema_version self =? COMMAND_SCHEMA_VERSION)
  then Err (UnsupportedSchema (schema_version self))
  else DeviceCommand_validate (command self).

Record CommandEnvelope := MkEnvelope { request : CommandRequest; attempt : Z }.

Inductive CommandResult :=
| PlcR (controller_reference : option rstr) (output_state : option bool)
| ConveyorR (controller_reference : option rstr) (observed_zone : option rstr)
| RoboticsR (controller_reference mission_state : rstr)
| SortationR (controller_reference : option rstr) (observed_lane : rstr)
| PrinterR (spool_job_id : rstr)
| ScaleR (mass_milligrams : Z) (stable : bool).

Definition CommandResult_device_class (self : CommandResult) : DeviceClass :=
  match self with
  | PlcR _ _ => Plc
  | ConveyorR _ _ => Conveyor
  | RoboticsR _ _ => Robotics
  | SortationR _ _ => Sortation
  | PrinterR _ => Printer
  | ScaleR _ _ => Scale
  end.

Definition validate_for (self : CommandResult) (cmd : DeviceCommand) : result unit CommandError :=
  let text value field := validate_text value field MAX_REFERENCE_LENGTH in
  let optional value field := match value with Some value => text value field | None => Ok tt end in
  if negb (bool_decide (CommandResult_device_class self = DeviceCommand_device_class cmd))
  then Err ResultKindMismatch
  else
    match self with
    | PlcR reference _ => optional reference "PLC controller reference"%string
    | ConveyorR reference zone =>
        let? _ := optional reference "conveyor controller reference"%string in
        optional zone "observed conveyor zone"%string
    | RoboticsR reference mission_state =>
        let? _ := text reference "robot controller reference" in
        text mission_state "robot mission state"
    | SortationR reference lane =>
        let? _ := optional reference "sortation controller reference"%string in
        text lane "observed sortation lane"
    | PrinterR spool_job_id => text spool_job_id "print spool job ID"
    | ScaleR _ _ => Ok tt
    end.

Inductive CommandState :=
| Queued | Executing | RetryWait | RecoveryWait | Succeeded | Failed
| ManualReview | ResolvedManually | Cancelled.
#[global] Instance CommandState_eq_dec : EqDecision CommandState.
Proof. solve_decision. Defined.

Definition CommandState_is_terminal (self : CommandState) : bool :=
  match self with Succeeded | Failed | ResolvedManually | Cancelled => true | _ => false end.

(** ** [adapter.rs] *)

Record AdapterCapabilities := MkCapabilities {
  device_side_duplicate_protection : bool;
  recovery_probe : bool;
}.

Inductive AdapterFailureClass := RetryableFailure | PermanentFailure | AmbiguousFailure.

Record AdapterFailure := MkFailure {
  failure_class : AdapterFailureClass;
  failure_message : rstr;
}.

Record HealthReport := MkReport {
  report_state : HealthState;
  report_message : option rstr;
  alarm_codes : list rstr;
}.

Definition MAX_ADAPTER_MESSAGE_LENGTH : Z := 1000.
Definition MAX_ALARM_CODES : Z := 100.

Definition HealthReport_validate (self : HealthReport) : result unit AdapterFailure :=
  if match report_message self with
     | Some message => MAX_ADAPTER_MESSAGE_LENGTH <? str_len message
     | None => false
     end
  then Err (MkFailure PermanentFailure (lit "health message exceeds 1,000 characters"))
  else if (MAX_ALARM_CODES <? Z.of_nat (length (alarm_codes self)))
          || existsb (fun code => bool_decide (trim code = []) || (128 <? str_len code)
                                  || existsb is_whitespace code) (alarm_codes self)
  then Err (MkFailure PermanentFailure (lit "health report contains invalid alarm codes"))
  else Ok tt.

Inductive RecoveryOutcome :=
| Completed (result_ : CommandResult)
| StillProcessing
| NotFound
| NeedsReview (reason : rstr).

(** ** [String::truncate]

    It panics when the new length is not on a character boundary: [None]. *)
Fixpoint truncate_bytes (limit : Z) (s : rstr) : option rstr :=
  if limit =? 0 then Some []
  else match s with
       | [] => Some []
       | c :: s => if limit <? Z.of_nat (length (utf8_char c)) then None
                   else (fun t => c :: t) <$> truncate_bytes (limit - Z.of_nat (length (utf8_char c))) s
       end.

Lemma truncate_bytes_spec limit s t :
  0 ≤ limit →
  truncate_bytes limit s = Some t ↔
  (str_len s ≤ limit ∧ t = s) ∨ ∃ rest, rest ≠ [] ∧ s = t ++ rest ∧ str_len t = limit.
Proof.
  revert limit t. induction s as [|c s IH]; intros limit t Hl; cbn [truncate_bytes].
  - assert (H0 : str_len [] = 0) by done. destruct (limit =? 0); split.
    1,3: intros [= <-]; left; split; [lia|done].
    1,2: intros [[_ ->]|(rest & Hr & E & _)]; [done|]; by destruct t, rest.
  - pose proof (utf8_char_length c). pose proof (str_len_nonneg s). rewrite str_len_cons.
    destruct (limit =? 0) eqn:E0; bool_to_prop.
    + split.
      * intros [= <-]. right. exists (c :: s). by split_and!.
      * intros [[? _]|(rest & Hr & E & Ht)]; [lia|]. destruct t as [|x t]; [done|].
        rewrite str_len_cons in Ht. pose proof (utf8_char_length x). pose proof (str_len_nonneg t). lia.
    + destruct (limit <? _) eqn:E1; bool_to_prop.
      * split; [done|]. intros [[? _]|(rest & Hr & E & Ht)]; [lia|].
        destruct t as [|x t]; [by assert (H1 : str_len [] = 0) by done; lia|]. cbn in E. injection E as <- _.
        rewrite str_len_cons in Ht. pose proof (str_len_nonneg t). lia.
      * rewrite fmap_Some. setoid_rewrite (IH (limit - Z.of_nat (length (utf8_char c)))); [|lia]. split.
        -- intros (u & [[Hu ->]|(rest & Hr & -> & Hu)] & ->); [left; split; [lia|done]|right].
           exists rest. rewrite str_len_cons. split_and!; [done..|lia].
        -- intros [[Hu ->]|(rest & Hr & E & Ht)]; [exists s; split; [left; split; [lia|done]|done]|].
           destruct t as [|x t]; [by assert (H1 : str_len [] = 0) by done; lia|]. cbn in E. injection E as <- ->.
           exists t. split; [|done]. right. exists rest. rewrite str_len_cons in Ht. split_and!; [done..|lia].
Qed.
