(* ===== verification/EdgeStore.v ===== *)
(** * Edge agent: the durable command store ([apps/edge-agent/src/store.rs],
      [store/cloud.rs] and [store/schema.sql])

    The SQLite tables of the agent and every method of [EdgeStore] that changes
    them, one transaction each: a method that fails leaves the tables as they were.
    A [DateTime<Utc>] is its number of nanoseconds, a [Duration] too; the columns
    hold milliseconds. JSON encoding and SHA-256 are parameters; lease tokens and
    attempt ids, random UUIDs, are arguments. Rows are held decoded: what [submit]
    and [register_device] validated and wrote is read back as it was, and an
    instant that could be written can be read. *)

From S2P Require Import Prelude.
From S2P Require Import RustStr.
From S2P Require Import EdgeTypes.

Inductive StoreError :=
| Database (why : string)
| CommandFailed (e : CommandError)
| TypeFailed (e : TypeError)
| DeviceNotFound (device : rstr)
| DeviceConfigurationConflict (device : rstr)
| IdentityConflict
| CommandNotFound (command : rstr)
| ScopeMismatch
| DeviceClassMismatch (expected actual : DeviceClass)
| InvalidTransition (command : rstr) (state : CommandState) (target : string)
| LeaseMismatch (command : rstr)
| DeviceNotAutomatic (device : rstr)
| CorruptRecord (why : string)
| DurationOverflow
| InvalidCloudDelivery
| CloudDeliveryConflict
| CloudDeliveryNotFound (id : Z)
| Panicked.

Definition millis (t : Z) : Z := t / 1000000.

Inductive ClaimKind := Execute | RecoveryProbe.
#[global] Instance ClaimKind_eq_dec : EqDecision ClaimKind.
Proof. solve_decision. Defined.

Inductive AttemptState :=
| ActiveAttempt | SucceededAttempt | RetryableAttempt | PermanentAttempt | AmbiguousAttempt
| NotFoundAttempt | StillProcessingAttempt | ManualReviewAttempt | AbandonedAttempt.
#[global] Instance AttemptState_eq_dec : EqDecision AttemptState.
Proof. solve_decision. Defined.

Record ClaimedCommand := MkClaim {
  claim_envelope : CommandEnvelope;
  claim_token : rstr;
  claim_attempt_id : rstr;
  claim_kind : ClaimKind;
  claim_probe_count : Z;
}.

Definition claim_command (claim : ClaimedCommand) : rstr := command_id (request (claim_envelope claim)).

Record RetryLimits := MkLimits { execution_attempts : Z; recovery_probes : Z }.

Record LeaseRecoverySummary := MkRecovered {
  replayable : Z;
  probes_required : Z;
  manual_reviews : Z;
}.

(** A row of [edge_commands]. *)
Record CommandRow := MkCommand {
  row_request : CommandRequest;
  row_state : CommandState;
  attempt_count : Z;
  created_at_ms : Z;
  updated_at_ms : Z;
  next_attempt_at_ms : Z;
  lease_token : option rstr;
  lease_until_ms : option Z;
  result_json : option CommandResult;
  last_error : option rstr;
  resolution_note : option rstr;
}.

(** A row of [edge_command_attempts], keyed by [attempt_id]. *)
Record AttemptRow := MkAttempt {
  attempt_command : rstr;
  sequence : Z;
  execution_attempt : Z;
  attempt_kind : ClaimKind;
  attempt_state : AttemptState;
  started_at_ms : Z;
  finished_at_ms : option Z;
  attempt_message : option rstr;
  attempt_result : option CommandResult;
}.

Record CommandEvent := MkCommandEvent {
  event_command : rstr;
  from_state : option CommandState;
  to_state : CommandState;
  event_actor : option rstr;
  event_reason : rstr;
  event_at_ms : Z;
}.

Record ControlEvent := MkControlEvent {
  control_device : rstr;
  from_mode : option ControlMode;
  to_mode : ControlMode;
  control_event_actor : rstr;
  control_event_reason : rstr;
  control_at_ms : Z;
}.

Record HeartbeatEvent := MkHeartbeatEvent {
  heartbeat_device : rstr;
  heartbeat_report : HealthReport;
  observed_at_ms : Z;
}.

Record CloudDelivery := MkDelivery {
  cloud_command_id : Z;
  cloud_device_id : Z;
  delivery_token : rstr;
  delivery_revision : Z;
}.
#[global] Instance CloudDelivery_eq_dec : EqDecision CloudDelivery.
Proof. solve_decision. Defined.

Record CloudDeliveryRecord := MkDeliveryRecord {
  delivery : CloudDelivery;
  local_command_id : rstr;
  acknowledgement_revision : option Z;
  acknowledged_at_ms : option Z;
  reported_revision : option Z;
  reported_status : option string;
  reported_at_ms : option Z;
  last_cloud_error : option rstr;
  delivery_updated_at_ms : Z;
}.

Record EdgeDb := MkEdgeDb {
  devices : gmap rstr DeviceStatus;
  commands : gmap rstr CommandRow;
  attempts : gmap rstr AttemptRow;
  command_events : list CommandEvent;
  control_events : list ControlEvent;
  heartbeat_events : list HeartbeatEvent;
  deliveries : gmap Z CloudDeliveryRecord;
}.

Definition empty_edge_db : EdgeDb := MkEdgeDb ∅ ∅ ∅ [] [] [] ∅.

Definition with_device (id : rstr) (d : DeviceStatus) (db : EdgeDb) : EdgeDb :=
  MkEdgeDb (<[id := d]> (devices db)) (commands db) (attempts db) (command_events db)
    (control_events db) (heartbeat_events db) (deliveries db).
Definition with_command (id : rstr) (r : CommandRow) (db : EdgeDb) : EdgeDb :=
  MkEdgeDb (devices db) (<[id := r]> (commands db)) (attempts db) (command_events db)
    (control_events db) (heartbeat_events db) (deliveries db).
Definition with_attempts (attempts_ : gmap rstr AttemptRow) (db : EdgeDb) : EdgeDb :=
  MkEdgeDb (devices db) (commands db) attempts_ (command_events db) (control_events db)
    (heartbeat_events db) (deliveries db).
Definition with_delivery (id : Z) (d : CloudDeliveryRecord) (db : EdgeDb) : EdgeDb :=
  MkEdgeDb (devices db) (commands db) (attempts db) (command_events db) (control_events db)
    (heartbeat_events db) (<[id := d]> (deliveries db)).
Definition append_control_event (e : ControlEvent) (db : EdgeDb) : EdgeDb :=
  MkEdgeDb (devices db) (commands db) (attempts db) (command_events db) (control_events db ++ [e])
    (heartbeat_events db) (deliveries db).
Definition append_heartbeat_event (e : HeartbeatEvent) (db : EdgeDb) : EdgeDb :=
  MkEdgeDb (devices db) (commands db) (attempts db) (command_events db) (control_events db)
    (heartbeat_events db ++ [e]) (deliveries db).

Definition append_command_event (command_id_ : rstr) (from : option CommandState) (to : CommandState)
    (actor : option rstr) (reason : rstr) (now : Z) (db : EdgeDb) : EdgeDb :=
  MkEdgeDb (devices db) (commands db) (attempts db)
    (command_events db ++ [MkCommandEvent command_id_ from to actor reason (millis now)])
    (control_events db) (heartbeat_events db) (deliveries db).

(** ** Messages *)

Definition MAX_PERSISTED_MESSAGE_LENGTH : Z := 1000.

Definition truncate_message (message : rstr) : result rstr StoreError :=
  let message := trim message in
  let message := if bool_decide (message = []) then lit "no detail supplied" else message in
  ok_or (truncate_bytes MAX_PERSISTED_MESSAGE_LENGTH message) Panicked.

Definition duration_millis (duration : Z) : result Z StoreError :=
  if i64_max <? duration / 1000000 then Err DurationOverflow else Ok (duration / 1000000).

Definition checked_u32 (value : Z) (field : string) : result Z StoreError :=
  if (0 <=? value) && (value <=? u32_max) then Ok value else Err (CorruptRecord field).

Definition load_device (db : EdgeDb) (device : rstr) : result DeviceStatus StoreError :=
  ok_or (devices db !! device) (DeviceNotFound device).

Definition load_command (db : EdgeDb) (id : rstr) : result CommandRow StoreError :=
  ok_or (commands db !! id) (CommandNotFound id).

Definition state_name (s : CommandState) : string :=
  match s with
  | Queued => "queued" | Executing => "executing" | RetryWait => "retry_wait"
  | RecoveryWait => "recovery_wait" | Succeeded => "succeeded" | Failed => "failed"
  | ManualReview => "manual_review" | ResolvedManually => "resolved_manually"
  | Cancelled => "cancelled"
  end.

(** ** Transitions of a command *)

Record UnleasedTransition := MkUnleased {
  u_command : rstr;
  u_from : CommandState;
  u_to : CommandState;
  u_actor : option rstr;
  u_reason : rstr;
  u_next_attempt_at : option Z;
  u_resolution_note : option rstr;
}.

Definition unleased_row (now : Z) (t : UnleasedTransition) (r : CommandRow) : CommandRow :=
  MkCommand (row_request r) (u_to t) (attempt_count r) (created_at_ms r) (millis now)
    (default (next_attempt_at_ms r) (millis <$> u_next_attempt_at t))
    (lease_token r) (lease_until_ms r) (result_json r)
    (if bool_decide (u_to t = Queued) then None else last_error r)
    (match u_resolution_note t with Some note => Some note | None => resolution_note r end).

Definition transition_unleased (now : Z) (t : UnleasedTransition) (db : EdgeDb) :
    result EdgeDb StoreError :=
  match commands db !! u_command t with
  | Some r =>
      if bool_decide (row_state r = u_from t) && bool_decide (lease_token r = None) then
        Ok (append_command_event (u_command t) (Some (u_from t)) (u_to t) (u_actor t) (u_reason t) now
              (with_command (u_command t) (unleased_row now t r) db))
      else Err (InvalidTransition (u_command t) (u_from t) (state_name (u_to t)))
  | None => Err (InvalidTransition (u_command t) (u_from t) (state_name (u_to t)))
  end.

Definition released_row (now : Z) (to : CommandState) (reason : rstr) (r : CommandRow) : CommandRow :=
  MkCommand (row_request r) to (attempt_count r) (created_at_ms r) (millis now) (millis now)
    None None (result_json r) (Some reason) (resolution_note r).

Definition transition_leased_without_token (id : rstr) (to : CommandState) (actor : option rstr)
    (reason : rstr) (now : Z) (db : EdgeDb) : result EdgeDb StoreError :=
  match commands db !! id with
  | Some r =>
      if bool_decide (row_state r = Executing) then
        Ok (append_command_event id (Some Executing) to actor reason now
              (with_command id (released_row now to reason r) db))
      else Err (LeaseMismatch id)
  | None => Err (LeaseMismatch id)
  end.

Definition is_active_of (id : rstr) (a : AttemptRow) : bool :=
  bool_decide (attempt_command a = id) && bool_decide (attempt_state a = ActiveAttempt).

Definition finished_attempt (now : Z) (state : AttemptState) (message : rstr)
    (result_ : option CommandResult) (a : AttemptRow) : AttemptRow :=
  MkAttempt (attempt_command a) (sequence a) (execution_attempt a) (attempt_kind a) state
    (started_at_ms a) (Some (millis now)) (Some message) result_.

Definition abandon_active_attempt (id : rstr) (reason : rstr) (now : Z) (db : EdgeDb) :
    result EdgeDb StoreError :=
  let changed := List.filter (fun '(_, a) => is_active_of id a) (map_to_list (attempts db)) in
  if negb (Z.of_nat (length changed) =? 1)
  then Err (CorruptRecord "executing command does not have exactly one active attempt")
  else
    Ok (with_attempts
          ((fun a => if is_active_of id a
                     then finished_attempt now AbandonedAttempt reason (attempt_result a) a
                     else a) <$> attempts db) db).

(** ** Control of a device *)

Definition compare_text (a b : rstr) : comparison := list_compare Z.compare (as_bytes a) (as_bytes b).

(** [ORDER BY created_at_ms, command_id]. *)
Definition compare_created (a b : rstr * CommandRow) : comparison :=
  then_with (Z.compare (created_at_ms a.2) (created_at_ms b.2)) (compare_text a.1 b.1).

Definition is_pending (s : CommandState) : bool :=
  match s with Queued | Executing | RetryWait | RecoveryWait => true | _ => false end.

Definition device_pending (device : rstr) (db : EdgeDb) : list (rstr * CommandState) :=
  (fun '(id, r) => (id, row_state r)) <$>
    sort_by compare_created
      (List.filter (fun '(_, r) => bool_decide (device_id (row_request r) = device)
                                   && is_pending (row_state r)) (map_to_list (commands db))).

Definition quarantine_command (actor reason : rstr) (now : Z) (entry : rstr * CommandState)
    (db : EdgeDb) : result EdgeDb StoreError :=
  let '(id, from) := entry in
  if bool_decide (from = Executing) then
    let? db := abandon_active_attempt id reason now db in
    transition_leased_without_token id ManualReview (Some actor) reason now db
  else
    transition_unleased now (MkUnleased id from ManualReview (Some actor) reason None None) db.

Definition quarantine_device_commands (device actor reason : rstr) (now : Z) (db : EdgeDb) :
    result EdgeDb StoreError :=
  rfold (quarantine_command actor reason now) (device_pending device db) db.

Definition update_device_mode (existing : DeviceStatus) (target : ControlMode) (actor reason : rstr)
    (now : Z) (db : EdgeDb) : EdgeDb :=
  let id := d_device_id (descriptor existing) in
  let db := match devices db !! id with
            | Some d =>
                with_device id (MkStatus (descriptor d) target reason actor (millis now) (health d)
                  (health_message d) (last_heartbeat_at d) (consecutive_health_failures d)) db
            | None => db
            end in
  append_control_event
    (MkControlEvent id (Some (control_mode existing)) target actor reason (millis now)) db.

Definition force_manual_fallback (device actor reason : rstr) (now : Z) (db : EdgeDb) :
    result EdgeDb StoreError :=
  let? existing := load_device db device in
  let? db := quarantine_device_commands device actor reason now db in
  Ok (if bool_decide (control_mode existing = ManualFallback) then db
      else update_device_mode existing ManualFallback actor reason now db).

Definition register_device (d : DeviceDescriptor) (actor reason : rstr) (now : Z) (db : EdgeDb) :
    result (EdgeDb * DeviceStatus) StoreError :=
  let? _ := map_err TypeFailed (DeviceDescriptor_validate d) in
  let d := MkDescriptor (d_tenant_id d) (d_facility_id d) (d_device_id d) (d_class d)
             (trim (display_name d)) in
  let? reason := map_err TypeFailed (validate_reason reason) in
  match devices db !! d_device_id d with
  | Some status =>
      if negb (bool_decide (descriptor status = d))
      then Err (DeviceConfigurationConflict (d_device_id d))
      else Ok (db, status)
  | None =>
      let status := MkStatus d Disabled reason actor (millis now) Unknown None None 0 in
      Ok (append_control_event
            (MkControlEvent (d_device_id d) None Disabled actor reason (millis now))
            (with_device (d_device_id d) status db), status)
  end.

Definition change_control_mode (device : rstr) (action : ControlAction) (actor reason : rstr) (now : Z)
    (db : EdgeDb) : result (EdgeDb * DeviceStatus) StoreError :=
  let? reason := map_err TypeFailed (validate_reason reason) in
  let target := target_mode action in
  let? existing := load_device db device in
  let? db := if negb (bool_decide (target = Automatic))
             then quarantine_device_commands device actor reason now db else Ok db in
  let db := update_device_mode existing target actor reason now db in
  let? updated := load_device db device in
  Ok (db, updated).

(** ** Heartbeats *)

Definition u32_saturating_add (a b : Z) : Z := Z.min u32_max (a + b).

Definition record_heartbeat (device : rstr) (report : HealthReport) (now : Z) (db : EdgeDb) :
    result (EdgeDb * DeviceStatus) StoreError :=
  let? _ := map_err (fun _ => CorruptRecord "health report") (HealthReport_validate report) in
  let? d := load_device db device in
  let failures := if permits_automatic_work (report_state report) then 0
                  else u32_saturating_add (consecutive_health_failures d) 1 in
  let updated := MkStatus (descriptor d) (control_mode d) (control_reason d) (control_actor d)
                   (control_changed_at d) (report_state report) (report_message report)
                   (Some (millis now)) failures in
  Ok (append_heartbeat_event (MkHeartbeatEvent device report (millis now))
        (with_device device updated db), updated).

Definition record_heartbeat_failure (device : rstr) (failure : AdapterFailure) (now : Z) (db : EdgeDb) :
    result (EdgeDb * DeviceStatus) StoreError :=
  let? message := truncate_message (failure_message failure) in
  record_heartbeat device (MkReport Offline (Some message) []) now db.

(** ** Deliveries from the cloud *)

Definition CloudDelivery_validate (self : CloudDelivery) : result unit StoreError :=
  if (cloud_command_id self <=? 0) || (cloud_device_id self <=? 0)
     || negb ((32 <=? str_len (delivery_token self)) && (str_len (delivery_token self) <=? 200))
     || (delivery_revision self =? 0)
  then Err InvalidCloudDelivery else Ok tt.

(** [CHECK (length(delivery_token) BETWEEN 32 AND 200)], in characters. *)
Definition check_delivery_token (token : rstr) : result unit StoreError :=
  if (32 <=? chars_count token) && (chars_count token <=? 200) then Ok tt
  else Err (Database "CHECK constraint failed: edge_cloud_deliveries").

Definition upsert_cloud_delivery_tx (id : rstr) (d : CloudDelivery) (now : Z) (db : EdgeDb) :
    result EdgeDb StoreError :=
  let? _ := CloudDelivery_validate d in
  match deliveries db !! cloud_command_id d with
  | Some current =>
      if negb (bool_decide (local_command_id current = id))
         || negb (cloud_device_id (delivery current) =? cloud_device_id d)
         || (bool_decide (is_Some (acknowledgement_revision current))
             && negb (bool_decide (delivery current = d)))
      then Err CloudDeliveryConflict
      else if bool_decide (acknowledgement_revision current = None) then
        let? _ := check_delivery_token (delivery_token d) in
        Ok (with_delivery (cloud_command_id d)
              (MkDeliveryRecord
                 (MkDelivery (cloud_command_id d) (cloud_device_id (delivery current))
                    (delivery_token d) (delivery_revision d))
                 (local_command_id current) (acknowledgement_revision current)
                 (acknowledged_at_ms current) (reported_revision current) (reported_status current)
                 (reported_at_ms current) None (millis now)) db)
      else Ok db
  | None =>
      let? _ := check_delivery_token (delivery_token d) in
      if existsb (fun '(_, other) => bool_decide (local_command_id other = id))
           (map_to_list (deliveries db))
      then Err (Database "UNIQUE constraint failed: edge_cloud_deliveries.local_command_id")
      else
        Ok (with_delivery (cloud_command_id d)
              (MkDeliveryRecord d id None None None None None None (millis now)) db)
  end.

Definition mark_cloud_acknowledged (id revision acknowledgement now : Z) (db : EdgeDb) :
    result (EdgeDb * CloudDeliveryRecord) StoreError :=
  if (revision =? 0) || (acknowledgement =? 0) then Err InvalidCloudDelivery
  else
    let? current := ok_or (deliveries db !! id) (CloudDeliveryNotFound id) in
    if negb (delivery_revision (delivery current) =? revision) then Err CloudDeliveryConflict
    else
      match acknowledgement_revision current with
      | Some existing =>
          if negb (existing =? acknowledgement) then Err CloudDeliveryConflict else Ok (db, current)
      | None =>
          let updated := MkDeliveryRecord (delivery current) (local_command_id current)
            (Some acknowledgement) (Some (millis now)) (reported_revision current)
            (reported_status current) (reported_at_ms current) None (millis now) in
          Ok (with_delivery id updated db, updated)
      end.

Definition mark_cloud_reported (id revision : Z) (status : string) (now : Z) (db : EdgeDb) :
    result (EdgeDb * CloudDeliveryRecord) StoreError :=
  if (revision =? 0)
     || negb (bool_decide (status ∈ ["succeeded"; "failed"; "manual_review"]%string))
  then Err InvalidCloudDelivery
  else
    let? current := ok_or (deliveries db !! id) (CloudDeliveryNotFound id) in
    if bool_decide (acknowledgement_revision current = None) then Err CloudDeliveryConflict
    else
      match reported_revision current with
      | Some existing =>
          if negb (existing =? revision) || negb (bool_decide (reported_status current = Some status))
          then Err CloudDeliveryConflict else Ok (db, current)
      | None =>
          let updated := MkDeliveryRecord (delivery current) (local_command_id current)
            (acknowledgement_revision current) (acknowledged_at_ms current) (Some revision)
            (Some status) (Some (millis now)) None (millis now) in
          Ok (with_delivery id updated db, updated)
      end.

Definition record_cloud_error (id : Z) (message : rstr) (now : Z) (db : EdgeDb) :
    result EdgeDb StoreError :=
  let? message := truncate_message message in
  match deliveries db !! id with
  | Some current =>
      Ok (with_delivery id
            (MkDeliveryRecord (delivery current) (local_command_id current)
               (acknowledgement_revision current) (acknowledged_at_ms current)
               (reported_revision current) (reported_status current) (reported_at_ms current)
               (Some message) (millis now)) db)
  | None => Err (CloudDeliveryNotFound id)
  end.

(** ** Submission *)

Inductive SubmissionOutcome :=
| Accepted (record : CommandRow)
| Replayed (record : CommandRow).

Section submission.
Context (to_vec : CommandRequest → list Z) (sha256 : list Z → list Z).

Definition request_hash (self : CommandRequest) : list Z := sha256 (to_vec self).

Definition same_identity (request_ stored : CommandRequest) : bool :=
  bool_decide (command_id stored = command_id request_)
  || (bool_decide (tenant_id stored = tenant_id request_)
      && bool_decide (facility_id stored = facility_id request_)
      && bool_decide (device_id stored = device_id request_)
      && (bool_decide (correlation_id stored = correlation_id request_)
          || bool_decide (idempotency_key stored = idempotency_key request_))).

Definition command_identity_candidates (db : EdgeDb) (request_ : CommandRequest) : list rstr :=
  (List.filter (fun '(_, r) => same_identity request_ (row_request r)) (map_to_list (commands db))).*1.

Definition store_delivery (id : rstr) (cloud : option CloudDelivery) (now : Z) (db : EdgeDb) :
    result EdgeDb StoreError :=
  match cloud with Some d => upsert_cloud_delivery_tx id d now db | None => Ok db end.

Definition new_command (request_ : CommandRequest) (state : CommandState) (reason : rstr) (now : Z) :
    CommandRow :=
  MkCommand request_ state 0 (millis now) (millis now) (millis now) None None None
    (if bool_decide (state = ManualReview) then Some reason else None) None.

Definition submit_with_cloud (request_ : CommandRequest) (cloud : option CloudDelivery) (now : Z)
    (db : EdgeDb) : result (EdgeDb * SubmissionOutcome) StoreError :=
  let? _ := map_err CommandFailed (CommandRequest_validate request_) in
  let? device := load_device db (device_id request_) in
  if negb (bool_decide (d_tenant_id (descriptor device) = tenant_id request_))
     || negb (bool_decide (d_facility_id (descriptor device) = facility_id request_))
  then Err ScopeMismatch
  else if negb (bool_decide (d_class (descriptor device) = DeviceCommand_device_class (command request_)))
  then Err (DeviceClassMismatch (d_class (descriptor device)) (DeviceCommand_device_class (command request_)))
  else
    match command_identity_candidates db request_ with
    | [] =>
        let state := if bool_decide (control_mode device = Automatic) then Queued else ManualReview in
        let reason := if bool_decide (state = Queued)
                      then lit "durable device command accepted"
                      else lit "device command quarantined because automation is not enabled" in
        let id := command_id request_ in
        let row := new_command request_ state reason now in
        let db := append_command_event id None state None reason now (with_command id row db) in
        let? db := store_delivery id cloud now db in
        Ok (db, Accepted row)
    | [id] =>
        let? raw := load_command db id in
        if negb (bool_decide (request_hash (row_request raw) = request_hash request_))
           || negb (bool_decide (to_vec (row_request raw) = to_vec request_))
        then Err IdentityConflict
        else
          let? db := store_delivery (command_id request_) cloud now db in
          Ok (db, Replayed raw)
    | _ => Err IdentityConflict
    end.

Definition submit (request_ : CommandRequest) (now : Z) (db : EdgeDb) :
    result (EdgeDb * SubmissionOutcome) StoreError := submit_with_cloud request_ None now db.

Definition submit_cloud_delivery (request_ : CommandRequest) (d : CloudDelivery) (now : Z)
    (db : EdgeDb) : result (EdgeDb * SubmissionOutcome) StoreError :=
  submit_with_cloud request_ (Some d) now db.
End submission.

(** ** Operators *)

Definition operator_transition (id actor reason : rstr) (target : CommandState)
    (allowed : list CommandState) (now : Z) (db : EdgeDb) : result (EdgeDb * CommandRow) StoreError :=
  let? record := load_command db id in
  if negb (bool_decide (row_state record ∈ allowed))
  then Err (InvalidTransition id (row_state record) (state_name target))
  else
    let? db := transition_unleased now
      (MkUnleased id (row_state record) target (Some actor) reason None
         (if bool_decide (target = ResolvedManually) then Some reason else None)) db in
    let? updated := load_command db id in
    Ok (db, updated).

Definition resolve_manually (id actor note : rstr) (now : Z) (db : EdgeDb) :
    result (EdgeDb * CommandRow) StoreError :=
  let? note := map_err TypeFailed (validate_reason note) in
  operator_transition id actor note ResolvedManually [ManualReview] now db.

Definition cancel_command (id actor reason : rstr) (now : Z) (db : EdgeDb) :
    result (EdgeDb * CommandRow) StoreError :=
  let? reason := map_err TypeFailed (validate_reason reason) in
  operator_transition id actor reason Cancelled [Queued; RetryWait; RecoveryWait; ManualReview] now db.

Definition retry_after_review (id actor reason : rstr) (now : Z) (db : EdgeDb) :
    result (EdgeDb * CommandRow) StoreError :=
  let? reason := map_err TypeFailed (validate_reason reason) in
  let? record := load_command db id in
  if negb (bool_decide (row_state record = ManualReview))
  then Err (InvalidTransition id (row_state record) "retry_after_review")
  else
    let? device := load_device db (device_id (row_request record)) in
    if negb (bool_decide (control_mode device = Automatic))
    then Err (DeviceNotAutomatic (device_id (row_request record)))
    else
      let? db := transition_unleased now
        (MkUnleased id (row_state record) Queued (Some actor) reason (Some now) None) db in
      let? updated := load_command db id in
      Ok (db, updated).

(** ** Expired leases *)

Definition lease_expired (now : Z) (r : CommandRow) : bool :=
  bool_decide (row_state r = Executing)
  && match lease_until_ms r with Some until => until <=? millis now | None => false end.

Definition expired_leases (now : Z) (db : EdgeDb) : list (rstr * CommandRow) :=
  sort_by compare_created
    (List.filter (fun '(_, r) => lease_expired now r) (map_to_list (commands db))).

(** What the recovery policy makes of an execution whose outcome is not known. *)
Definition recovery_target (policy : RecoveryPolicy) : CommandState :=
  match policy with
  | DeviceDeduplicatedReplay => RetryWait
  | ProbeThenRetry => RecoveryWait
  | ManualReviewPolicy => ManualReview
  end.

Definition recovery_reason (policy : RecoveryPolicy) : rstr :=
  lit match policy with
      | DeviceDeduplicatedReplay =>
          "execution lease expired; downstream duplicate protection permits replay"
      | ProbeThenRetry => "execution lease expired; downstream state must be probed before replay"
      | ManualReviewPolicy => "execution lease expired with a manual-review recovery policy"
      end.

Definition count_recovered (policy : RecoveryPolicy) (s : LeaseRecoverySummary) : LeaseRecoverySummary :=
  match policy with
  | DeviceDeduplicatedReplay => MkRecovered (replayable s + 1) (probes_required s) (manual_reviews s)
  | ProbeThenRetry => MkRecovered (replayable s) (probes_required s + 1) (manual_reviews s)
  | ManualReviewPolicy => MkRecovered (replayable s) (probes_required s) (manual_reviews s + 1)
  end.

Definition recover_lease (agent : rstr) (now : Z) (entry : rstr * CommandRow)
    (s : EdgeDb * LeaseRecoverySummary) : result (EdgeDb * LeaseRecoverySummary) StoreError :=
  let '(id, r) := entry in
  let '(db, summary) := s in
  let policy := recovery_policy (row_request r) in
  let target := recovery_target policy in
  let reason := recovery_reason policy in
  let? db := abandon_active_attempt id reason now db in
  let? db := transition_leased_without_token id target (Some agent) reason now db in
  let? db := if bool_decide (target = ManualReview)
             then force_manual_fallback (device_id (row_request r)) agent reason now db else Ok db in
  Ok (db, count_recovered policy summary).

Definition recover_expired_leases (now : Z) (agent : rstr) (db : EdgeDb) :
    result (EdgeDb * LeaseRecoverySummary) StoreError :=
  rfold (recover_lease agent now) (expired_leases now db) (db, MkRecovered 0 0 0).

(** ** Claims *)

Definition has_executing (device : rstr) (db : EdgeDb) : bool :=
  existsb (fun '(_, r) => bool_decide (device_id (row_request r) = device)
                          && bool_decide (row_state r = Executing)) (map_to_list (commands db)).

Definition device_automatic (device : rstr) (db : EdgeDb) : bool :=
  match devices db !! device with
  | Some d => bool_decide (control_mode d = Automatic)
  | None => false
  end.

Definition claimable (now max_attempts : Z) (db : EdgeDb) (r : CommandRow) : bool :=
  bool_decide (row_state r ∈ [Queued; RetryWait; RecoveryWait])
  && (next_attempt_at_ms r <=? millis now)
  && device_automatic (device_id (row_request r)) db
  && (bool_decide (row_state r = RecoveryWait) || (attempt_count r <? max_attempts))
  && negb (has_executing (device_id (row_request r)) db).

(** [ORDER BY command.next_attempt_at_ms, command.created_at_ms, command.command_id]. *)
Definition compare_due (a b : rstr * CommandRow) : comparison :=
  then_with (Z.compare (next_attempt_at_ms a.2) (next_attempt_at_ms b.2)) (compare_created a b).

Definition candidate (now max_attempts : Z) (db : EdgeDb) : option (rstr * CommandRow) :=
  head (sort_by compare_due
          (List.filter (fun '(_, r) => claimable now max_attempts db r) (map_to_list (commands db)))).

Definition claimed_row (now until : Z) (token : rstr) (kind : ClaimKind) (r : CommandRow) : CommandRow :=
  MkCommand (row_request r) Executing
    (attempt_count r + (if bool_decide (kind = Execute) then 1 else 0)) (created_at_ms r)
    (millis now) (next_attempt_at_ms r) (Some token) (Some until) (result_json r) (last_error r)
    (resolution_note r).

Definition attempts_of (id : rstr) (db : EdgeDb) : list AttemptRow :=
  List.filter (fun a => bool_decide (attempt_command a = id)) (map_to_list (attempts db)).*2.

Definition max_sequence (id : rstr) (db : EdgeDb) : Z :=
  foldr Z.max 0 (sequence <$> attempts_of id db).

Definition probe_count (id : rstr) (db : EdgeDb) : Z :=
  Z.of_nat (length (List.filter (fun a => bool_decide (attempt_kind a = RecoveryProbe))
                      (attempts_of id db))).

Definition kind_name (kind : ClaimKind) : rstr :=
  lit match kind with Execute => "execute" | RecoveryProbe => "recovery_probe" end.

Definition claim_next (now lease max_attempts : Z) (token attempt_id : rstr) (db : EdgeDb) :
    result (EdgeDb * option ClaimedCommand) StoreError :=
  let? lease_ms := duration_millis lease in
  let? lease_until := ok_or (i64_checked_add (millis now) lease_ms) DurationOverflow in
  match candidate now max_attempts db with
  | None => Ok (db, None)
  | Some (id, r) =>
      let kind := if bool_decide (row_state r = RecoveryWait) then RecoveryProbe else Execute in
      let row := claimed_row now lease_until token kind r in
      let? count := checked_u32 (attempt_count row) "command attempt count" in
      if bool_decide (is_Some (attempts db !! attempt_id))
      then Err (Database "UNIQUE constraint failed: edge_command_attempts.attempt_id")
      else
        let attempt_row := MkAttempt id (max_sequence id db + 1) count kind ActiveAttempt (millis now)
                             None None None in
        let db' := with_attempts (<[attempt_id := attempt_row]> (attempts db)) (with_command id row db) in
        let? probes := checked_u32 (probe_count id db') "recovery probe count" in
        Ok (append_command_event id (Some (row_state r)) Executing None (kind_name kind) now db',
            Some (MkClaim (MkEnvelope (row_request r) count) token attempt_id kind probes))
  end.

(** ** Completion of a claim *)

Record ClaimCompletion := MkCompletion {
  target : CommandState;
  completion_state : AttemptState;
  completion_reason : rstr;
  completion_next : Z;
  completion_result : option CommandResult;
  completion_error : option rstr;
  manual_fallback : option (rstr * rstr);
}.

Definition completed_row (now : Z) (c : ClaimCompletion) (r : CommandRow) : CommandRow :=
  MkCommand (row_request r) (target c) (attempt_count r) (created_at_ms r) (millis now)
    (millis (completion_next c)) None None (completion_result c) (completion_error c) None.

Definition finish_claim (claim : ClaimedCommand) (now : Z) (c : ClaimCompletion) (db : EdgeDb) :
    result EdgeDb StoreError :=
  let id := claim_command claim in
  match commands db !! id, attempts db !! claim_attempt_id claim with
  | Some r, Some a =>
      if negb (bool_decide (row_state r = Executing)
               && bool_decide (lease_token r = Some (claim_token claim)))
      then Err (LeaseMismatch id)
      else if negb (is_active_of id a) then Err (LeaseMismatch id)
      else
        let db := with_attempts
          (<[claim_attempt_id claim :=
               finished_attempt now (completion_state c) (completion_reason c) (completion_result c) a]>
             (attempts db)) (with_command id (completed_row now c r) db) in
        let db := append_command_event id (Some Executing) (target c) None (completion_reason c) now db in
        match manual_fallback c with
        | Some (actor, reason) =>
            force_manual_fallback (device_id (request (claim_envelope claim))) actor reason now db
        | None => Ok db
        end
  | _, _ => Err (LeaseMismatch id)
  end.

Definition complete_success (claim : ClaimedCommand) (result_ : CommandResult) (now : Z) (db : EdgeDb) :
    result EdgeDb StoreError :=
  let? _ := map_err CommandFailed (validate_for result_ (command (request (claim_envelope claim)))) in
  finish_claim claim now
    (MkCompletion Succeeded SucceededAttempt (lit "device command completed") now (Some result_) None
       None) db.

Definition retry_exhausted (claim : ClaimedCommand) (limits : RetryLimits) : bool :=
  match claim_kind claim with
  | Execute => execution_attempts limits <=? attempt (claim_envelope claim)
  | RecoveryProbe => recovery_probes limits <=? claim_probe_count claim
  end.

Definition retryable_failure (claim : ClaimedCommand) (message : rstr) (next : Z) (limits : RetryLimits)
    (agent : rstr) (now : Z) (db : EdgeDb) : result (EdgeDb * bool) StoreError :=
  let? message := truncate_message message in
  let exhausted := retry_exhausted claim limits in
  let target_ := if exhausted then ManualReview
                 else if bool_decide (claim_kind claim = RecoveryProbe) then RecoveryWait else RetryWait in
  let? db := finish_claim claim now
    (MkCompletion target_ (if exhausted then ManualReviewAttempt else RetryableAttempt) message next None
       (Some message)
       (if exhausted then Some (agent, lit "device command exhausted its retry budget") else None)) db in
  Ok (db, exhausted).

Definition permanent_failure (claim : ClaimedCommand) (message : rstr) (now : Z) (db : EdgeDb) :
    result EdgeDb StoreError :=
  let? message := truncate_message message in
  finish_claim claim now
    (MkCompletion Failed PermanentAttempt message now None (Some message) None) db.

Definition ambiguous_failure (claim : ClaimedCommand) (message : rstr) (next : Z) (agent : rstr)
    (now : Z) (db : EdgeDb) : result (EdgeDb * bool) StoreError :=
  let? message := truncate_message message in
  let target_ := recovery_target (recovery_policy (request (claim_envelope claim))) in
  let? db := finish_claim claim now
    (MkCompletion target_ AmbiguousAttempt message next None (Some message)
       (if bool_decide (target_ = ManualReview)
        then Some (agent, lit "ambiguous device outcome requires manual reconciliation") else None)) db in
  Ok (db, bool_decide (target_ = ManualReview)).

Definition defer_recovery (claim : ClaimedCommand) (message : rstr) (next now : Z) (db : EdgeDb) :
    result EdgeDb StoreError :=
  if negb (bool_decide (claim_kind claim = RecoveryProbe))
  then Err (InvalidTransition (claim_command claim) Executing "defer_recovery")
  else
    let? message := truncate_message message in
    finish_claim claim now
      (MkCompletion RecoveryWait StillProcessingAttempt message next None (Some message) None) db.

Definition recovery_not_found (claim : ClaimedCommand) (now : Z) (db : EdgeDb) :
    result EdgeDb StoreError :=
  if negb (bool_decide (claim_kind claim = RecoveryProbe))
  then Err (InvalidTransition (claim_command claim) Executing "recovery_not_found")
  else
    finish_claim claim now
      (MkCompletion Queued NotFoundAttempt (lit "downstream recovery probe found no prior command") now
         None None None) db.

Definition require_manual_review (claim : ClaimedCommand) (reason agent : rstr) (now : Z) (db : EdgeDb) :
    result EdgeDb StoreError :=
  let? reason := truncate_message reason in
  finish_claim claim now
    (MkCompletion ManualReview ManualReviewAttempt reason now None (Some reason)
       (Some (agent, reason))) db.
