(* ===== verification/EdgeInvariant.v ===== *)
(** * Edge agent: the invariant of the command store

    The steps of the store, what every reachable store satisfies ([edge_ok]), how a
    store may change over time ([evolves]), and the lemmas that the operations of
    [EdgeStore] are checked with. *)

From S2P Require Import Prelude.
From S2P Require Import RustStr.
From S2P Require Import EdgeTypes.
From S2P Require Import EdgeStore.

(** ** The steps: every method, in any order, by any process

    [issued] are the claims that were handed out: only they are completed. *)
Section steps.
Context (to_vec : CommandRequest → list Z) (sha256 : list Z → list Z).

Inductive store_change (issued : list ClaimedCommand) : EdgeDb → EdgeDb → Prop :=
| change_register d actor reason now db db' s :
    register_device d actor reason now db = Ok (db', s) → store_change issued db db'
| change_control device action actor reason now db db' s :
    change_control_mode device action actor reason now db = Ok (db', s) → store_change issued db db'
| change_heartbeat device report now db db' s :
    record_heartbeat device report now db = Ok (db', s) → store_change issued db db'
| change_heartbeat_failure device failure now db db' s :
    record_heartbeat_failure device failure now db = Ok (db', s) → store_change issued db db'
| change_submit request_ cloud now db db' o :
    submit_with_cloud to_vec sha256 request_ cloud now db = Ok (db', o) → store_change issued db db'
| change_resolve id actor note now db db' r :
    resolve_manually id actor note now db = Ok (db', r) → store_change issued db db'
| change_cancel id actor reason now db db' r :
    cancel_command id actor reason now db = Ok (db', r) → store_change issued db db'
| change_retry id actor reason now db db' r :
    retry_after_review id actor reason now db = Ok (db', r) → store_change issued db db'
| change_recover now agent db db' s :
    recover_expired_leases now agent db = Ok (db', s) → store_change issued db db'
| change_success claim result_ now db db' : claim ∈ issued →
    complete_success claim result_ now db = Ok db' → store_change issued db db'
| change_retryable claim message next limits agent now db db' b : claim ∈ issued →
    retryable_failure claim message next limits agent now db = Ok (db', b) → store_change issued db db'
| change_permanent claim message now db db' : claim ∈ issued →
    permanent_failure claim message now db = Ok db' → store_change issued db db'
| change_ambiguous claim message next agent now db db' b : claim ∈ issued →
    ambiguous_failure claim message next agent now db = Ok (db', b) → store_change issued db db'
| change_defer claim message next now db db' : claim ∈ issued →
    defer_recovery claim message next now db = Ok db' → store_change issued db db'
| change_not_found claim now db db' : claim ∈ issued →
    recovery_not_found claim now db = Ok db' → store_change issued db db'
| change_review claim reason agent now db db' : claim ∈ issued →
    require_manual_review claim reason agent now db = Ok db' → store_change issued db db'
| change_acknowledged id revision ack now db db' d :
    mark_cloud_acknowledged id revision ack now db = Ok (db', d) → store_change issued db db'
| change_reported id revision status now db db' d :
    mark_cloud_reported id revision status now db = Ok (db', d) → store_change issued db db'
| change_cloud_error id message now db db' :
    record_cloud_error id message now db = Ok db' → store_change issued db db'.

Definition EdgeState : Type := EdgeDb * list ClaimedCommand.

Inductive edge_step : EdgeState → EdgeState → Prop :=
| step_change issued db db' : store_change issued db db' → edge_step (db, issued) (db', issued)
| step_claim issued now lease max_attempts token attempt_id db db' claim :
    in_u32 max_attempts →
    claim_next now lease max_attempts token attempt_id db = Ok (db', Some claim) →
    edge_step (db, issued) (db', claim :: issued).

Definition edge_reachable (s : EdgeState) : Prop := rtc edge_step (empty_edge_db, []) s.
End steps.

(** ** The invariant *)

(** The attempt of a command that was started last. *)
Definition latest (db : EdgeDb) (id aid : rstr) (a : AttemptRow) : Prop :=
  attempts db !! aid = Some a ∧ attempt_command a = id ∧
  ∀ aid' a', attempts db !! aid' = Some a' → attempt_command a' = id → aid' ≠ aid →
    sequence a' < sequence a.

(** The device is known not to have carried the attempt out. *)
Definition settled (a : AttemptRow) : Prop :=
  attempt_state a = NotFoundAttempt ∧ attempt_kind a = RecoveryProbe ∨
  attempt_state a = RetryableAttempt ∧ attempt_kind a = Execute.

(** The last thing that happened to the command is that an operator sent it back
    from review. *)
Definition approval (e : CommandEvent) : Prop :=
  from_state e = Some ManualReview ∧ to_state e = Queued ∧ is_Some (event_actor e).

Definition events_of (id : rstr) (db : EdgeDb) : list CommandEvent :=
  List.filter (fun e => bool_decide (event_command e = id)) (command_events db).

Definition approved (db : EdgeDb) (id : rstr) : Prop :=
  ∃ e, last (events_of id db) = Some e ∧ approval e.

Definition may_send (db : EdgeDb) (id : rstr) (r : CommandRow) : Prop :=
  ∀ aid a, latest db id aid a →
    settled a ∨ recovery_policy (row_request r) = DeviceDeduplicatedReplay ∨ approved db id.

Definition leased (r : CommandRow) : Prop := is_Some (lease_token r) ∧ is_Some (lease_until_ms r).
Definition unleased (r : CommandRow) : Prop := lease_token r = None ∧ lease_until_ms r = None.

Record command_ok (db : EdgeDb) (id : rstr) (r : CommandRow) : Prop := {
  command_key : command_id (row_request r) = id;
  command_scope : ∃ d, devices db !! device_id (row_request r) = Some d ∧
    d_tenant_id (descriptor d) = tenant_id (row_request r) ∧
    d_facility_id (descriptor d) = facility_id (row_request r) ∧
    d_class (descriptor d) = DeviceCommand_device_class (command (row_request r));
  command_lease : if bool_decide (row_state r = Executing) then leased r else unleased r;
  command_control : is_pending (row_state r) = true →
    device_automatic (device_id (row_request r)) db = true;
  command_attempts : row_state r = Executing → ∃ aid a, latest db id aid a ∧
    attempt_state a = ActiveAttempt;
  command_may_send : row_state r = Queued ∨ row_state r = RetryWait → may_send db id r;
  command_count : in_u32 (attempt_count r);
}.

Record edge_ok (issued : list ClaimedCommand) (db : EdgeDb) : Prop := {
  device_key : ∀ id d, devices db !! id = Some d → d_device_id (descriptor d) = id;
  commands_ok : ∀ id r, commands db !! id = Some r → command_ok db id r;
  one_executing : ∀ i j r s, commands db !! i = Some r → commands db !! j = Some s →
    row_state r = Executing → row_state s = Executing →
    device_id (row_request r) = device_id (row_request s) → i = j;
  attempt_owner : ∀ aid a, attempts db !! aid = Some a → ∃ r,
    commands db !! attempt_command a = Some r ∧
    (attempt_state a = ActiveAttempt → row_state r = Executing);
  one_active : ∀ i j a b, attempts db !! i = Some a → attempts db !! j = Some b →
    attempt_state a = ActiveAttempt → attempt_state b = ActiveAttempt →
    attempt_command a = attempt_command b → i = j;
  claims_genuine : ∀ claim, claim ∈ issued → ∃ a r,
    attempts db !! claim_attempt_id claim = Some a ∧ attempt_command a = claim_command claim ∧
    attempt_kind a = claim_kind claim ∧ commands db !! claim_command claim = Some r ∧
    row_request r = request (claim_envelope claim);
  identities : ∀ i j r s, commands db !! i = Some r → commands db !! j = Some s →
    same_identity (row_request r) (row_request s) = true → i = j;
}.

Lemma same_identity_sym r s : same_identity r s = same_identity s r.
Proof.
  apply eq_true_iff_eq. unfold same_identity.
  rewrite !orb_true_iff, !andb_true_iff, !orb_true_iff, !bool_decide_eq_true. naive_solver.
Qed.

(** ** How a store changes *)

Record evolves (db db' : EdgeDb) : Prop := {
  commands_stay : ∀ id r, commands db !! id = Some r → ∃ r', commands db' !! id = Some r' ∧
    row_request r' = row_request r ∧ (CommandState_is_terminal (row_state r) = true → r' = r);
  attempts_stay : ∀ aid a, attempts db !! aid = Some a → ∃ a', attempts db' !! aid = Some a' ∧
    attempt_command a' = attempt_command a ∧ attempt_kind a' = attempt_kind a ∧
    sequence a' = sequence a ∧ (attempt_state a ≠ ActiveAttempt → a' = a);
}.

#[export] Instance evolves_preorder : PreOrder evolves.
Proof.
  split.
  - intros db. split; eauto 10.
  - intros db1 db2 db3 [C1 A1] [C2 A2]. split.
    + intros id r (r2 & Hr2 & E2 & T2)%C1. destruct (C2 _ _ Hr2) as (r3 & Hr3 & E3 & T3).
      exists r3. split_and!; [done|congruence|]. intros Ht. rewrite <-(T2 Ht) in Ht |- *. by apply T3.
    + intros aid a (a2 & Ha2 & E2 & K2 & S2 & T2)%A1. destruct (A2 _ _ Ha2) as (a3 & Ha3 & E3 & K3 & S3 & T3).
      exists a3. split_and!; [done|congruence|congruence|congruence|].
      intros Ht. specialize (T2 Ht). subst a2. by apply T3.
Qed.

Lemma evolves_same db db' :
  commands db' = commands db → attempts db' = attempts db → evolves db db'.
Proof. intros Ec Ea. split; rewrite ?Ec, ?Ea; eauto 10. Qed.

(** Only part of the store matters to the invariant. *)
Lemma edge_ok_same issued db db' :
  edge_ok issued db → devices db' = devices db → commands db' = commands db →
  attempts db' = attempts db → command_events db' = command_events db → edge_ok issued db'.
Proof.
  destruct db, db'; cbn. intros [] -> -> -> ->. split; try done.
  intros id r Hr. by destruct (commands_ok0 id r Hr).
Qed.

(** ** A command leaves its state *)

(** Updating the running attempt of a command. *)
Definition touch (id : rstr) (f : AttemptRow → AttemptRow) (m : gmap rstr AttemptRow) :
    gmap rstr AttemptRow := (fun a => if is_active_of id a then f a else a) <$> m.

Record finishes (f : AttemptRow → AttemptRow) : Prop := {
  f_command a : attempt_command (f a) = attempt_command a;
  f_sequence a : sequence (f a) = sequence a;
  f_kind a : attempt_kind (f a) = attempt_kind a;
  f_state a : attempt_state (f a) ≠ ActiveAttempt;
}.

Lemma is_active_of_spec id a :
  is_active_of id a = true ↔ attempt_command a = id ∧ attempt_state a = ActiveAttempt.
Proof. unfold is_active_of. by rewrite andb_true_iff, !bool_decide_eq_true. Qed.

Lemma finished_finishes now state message result_ :
  state ≠ ActiveAttempt → finishes (finished_attempt now state message result_).
Proof. by split. Qed.

Lemma last_filter_snoc {A} (f : A → bool) l x :
  last (List.filter f (l ++ [x])) = if f x then Some x else last (List.filter f l).
Proof. rewrite List.filter_app. cbn. destruct (f x); [apply last_snoc|by rewrite app_nil_r]. Qed.

Section transition.
Context (issued : list ClaimedCommand) (db db' : EdgeDb) (id : rstr) (r r' : CommandRow).
Context (e : CommandEvent) (f : AttemptRow → AttemptRow).
Context (Hok : edge_ok issued db) (Hr : commands db !! id = Some r).
Context (Edev : devices db' = devices db) (Ecmd : commands db' = <[id := r']> (commands db)).
Context (Eatt : attempts db' = touch id f (attempts db)).
Context (Eev : command_events db' = command_events db ++ [e]) (He : event_command e = id).
Context (Hf : finishes f) (Hreq : row_request r' = row_request r).
Context (Hcount : attempt_count r' = attempt_count r).
Context (Hstate : row_state r' ≠ Executing) (Hlease : unleased r').
Context (Hlive : CommandState_is_terminal (row_state r) = false).

Lemma touched aid a' :
  attempts db' !! aid = Some a' ↔
  ∃ a, attempts db !! aid = Some a ∧ a' = if is_active_of id a then f a else a.
Proof. rewrite Eatt. unfold touch. rewrite lookup_fmap_Some. naive_solver. Qed.

Lemma touched_fields a : let a' := if is_active_of id a then f a else a in
  attempt_command a' = attempt_command a ∧ attempt_kind a' = attempt_kind a ∧
  sequence a' = sequence a ∧ (attempt_state a ≠ ActiveAttempt → a' = a) ∧
  (attempt_state a' = ActiveAttempt → attempt_state a = ActiveAttempt ∧ attempt_command a ≠ id).
Proof.
  destruct (is_active_of id a) eqn:E; cbn zeta.
  - apply is_active_of_spec in E as [? ?]. destruct Hf as [F1 F2 F3 F4]. rewrite F1, F2, F3.
    split_and!; try done. intros Ha. destruct (F4 _ Ha).
  - split_and!; try done. intros Ha. split; [done|]. intros Hid.
    by rewrite (proj2 (is_active_of_spec id a)) in E.
Qed.

Lemma transition_evolves : evolves db db'.
Proof.
  split.
  - intros j q Hq. rewrite Ecmd. destruct (decide (j = id)) as [->|Hne].
    + rewrite lookup_insert_eq. exists r'. assert (q = r) as -> by congruence.
      split_and!; try done. by rewrite Hlive.
    + rewrite lookup_insert_ne by done. eauto.
  - intros aid a Ha. eexists. split; [apply touched; eauto|].
    destruct (touched_fields a) as (? & ? & ? & ? & _). by split_and!.
Qed.

Lemma transition_latest j aid a' :
  latest db' j aid a' → ∃ a, latest db j aid a ∧ a' = if is_active_of id a then f a else a.
Proof.
  intros ((a & Ha & ->)%touched & Hc & Hmax). exists a. split; [|done].
  destruct (touched_fields a) as (Ec & _ & Es & _). split_and!; [done|congruence|].
  intros aid' b Hb Hbc Hne. destruct (touched_fields b) as (Ec' & _ & Es' & _).
  rewrite <-Es, <-Es'. apply (Hmax aid'); [apply touched; eauto|congruence|done].
Qed.

Lemma transition_latest_other j aid a :
  j ≠ id → latest db j aid a → latest db' j aid a.
Proof.
  intros Hne (Ha & Hc & Hmax). assert (Hid : ∀ b, attempt_command b = j → is_active_of id b = false).
  { intros b Hb. apply not_true_iff_false. intros [? _]%is_active_of_spec. congruence. }
  split_and!; [|done|].
  - apply touched. exists a. split; [done|]. by rewrite Hid.
  - intros aid' b' (b & Hb & ->)%touched Hbc Hn. destruct (touched_fields b) as (Ec & _ & Es & _).
    rewrite Es. apply (Hmax aid'); congruence.
Qed.

Lemma transition_events j : j ≠ id → approved db j → approved db' j.
Proof.
  intros Hne (x & Hx & Ha). exists x. split; [|done]. unfold events_of. rewrite Eev, last_filter_snoc.
  rewrite bool_decide_false by congruence. done.
Qed.

Lemma transition_ok :
  (is_pending (row_state r') = true → device_automatic (device_id (row_request r)) db = true) →
  (row_state r' = Queued ∨ row_state r' = RetryWait → approval e ∨ ∀ aid a, latest db id aid a →
     let a' := if is_active_of id a then f a else a in
     settled a' ∨ recovery_policy (row_request r) = DeviceDeduplicatedReplay) →
  edge_ok issued db' ∧ evolves db db'.
Proof.
  intros Hauto Hsend. split; [|apply transition_evolves].
  assert (Hdev : ∀ dev, device_automatic dev db' = device_automatic dev db)
    by (intros dev; unfold device_automatic; by rewrite Edev).
  pose proof (commands_ok _ _ Hok id r Hr) as Hc.
  split.
  - rewrite Edev. apply (device_key _ _ Hok).
  - intros j q Hq. rewrite Ecmd in Hq. destruct (decide (j = id)) as [->|Hne].
    + rewrite lookup_insert_eq in Hq. injection Hq as <-. destruct Hc. split; rewrite ?Hreq, ?Hdev, ?Edev; try done.
      * by rewrite bool_decide_false.
      * intros Hs aid a' Hl. destruct (transition_latest _ _ _ Hl) as (a & Hla & ->).
        destruct (Hsend Hs) as [Hap|Hset]; [right; right|destruct (Hset aid a Hla); [by left|right; left; by rewrite Hreq]].
        exists e. split; [|done]. unfold events_of. rewrite Eev, last_filter_snoc. by rewrite bool_decide_true.
      * by rewrite Hcount.
    + rewrite lookup_insert_ne in Hq by done. destruct (commands_ok _ _ Hok j q Hq).
      split; rewrite ?Hdev, ?Edev; try done.
      * intros Hx. destruct (command_attempts0 Hx) as (aid & a & Hl & Ha). exists aid, a.
        split; [by apply transition_latest_other|done].
      * intros Hs aid a' Hl. destruct (transition_latest _ _ _ Hl) as (a & Hla & ->).
        pose proof Hla as (_ & Hja & _). assert (is_active_of id a = false) as ->.
        { apply not_true_iff_false. intros [? _]%is_active_of_spec. congruence. }
        destruct (command_may_send0 Hs aid a Hla) as [|[|]]; [by left|by right; left|right; right].
        by apply transition_events.
  - intros i j q s Hq Hs Hqx Hsx. rewrite Ecmd in Hq, Hs.
    assert (Hnot : ∀ k x, <[id:=r']> (commands db) !! k = Some x → row_state x = Executing →
      commands db !! k = Some x).
    { intros k x Hx Hxx. destruct (decide (k = id)) as [->|?].
      - rewrite lookup_insert_eq in Hx. congruence.
      - by rewrite lookup_insert_ne in Hx. }
    by apply (one_executing _ _ Hok); auto.
  - intros aid a' (a & Ha & ->)%touched. destruct (touched_fields a) as (Ec & _ & _ & _ & Hact).
    rewrite Ec. destruct (attempt_owner _ _ Hok aid a Ha) as (q & Hq & Hqx). rewrite Ecmd.
    destruct (decide (attempt_command a = id)) as [E|Hne].
    + rewrite E, lookup_insert_eq. exists r'. split; [done|]. intros Hx. by destruct (Hact Hx).
    + rewrite lookup_insert_ne by done. exists q. split; [done|]. intros Hx. apply Hqx. by destruct (Hact Hx).
  - intros i j a' b' (a & Ha & ->)%touched (b & Hb & ->)%touched Hax Hbx Hcc.
    destruct (touched_fields a) as (Ec & _ & _ & _ & Hact). destruct (touched_fields b) as (Ec' & _ & _ & _ & Hact').
    destruct (Hact Hax), (Hact' Hbx). apply (one_active _ _ Hok i j a b); congruence.
  - intros claim Hin. destruct (claims_genuine _ _ Hok claim Hin) as (a & q & Ha & Hca & Hka & Hq & Hqr).
    destruct transition_evolves as [Hcs Has]. destruct (Has _ _ Ha) as (a' & Ha' & E1 & E2 & _).
    destruct (Hcs _ _ Hq) as (q' & Hq' & E3 & _). exists a', q'. split_and!; try done; congruence.
  - assert (Hold : ∀ k q, commands db' !! k = Some q → ∃ q0, commands db !! k = Some q0 ∧
      row_request q0 = row_request q).
    { intros k q Hq. rewrite Ecmd in Hq. apply lookup_insert_Some in Hq as [[<- <-]|[_ Hq]]; eauto. }
    intros i j q s (q0 & Hq & <-)%Hold (s0 & Hs & <-)%Hold. by apply (identities _ _ Hok).
Qed.
End transition.

(** Without a running attempt there is nothing to touch; with one, it is the one. *)
Lemma touch_none issued db id r f :
  edge_ok issued db → commands db !! id = Some r → row_state r ≠ Executing →
  touch id f (attempts db) = attempts db.
Proof.
  intros Hok Hr Hx. apply map_eq. intros aid. unfold touch. rewrite lookup_fmap.
  destruct (attempts db !! aid) as [a|] eqn:Ha; cbn; [|done].
  destruct (is_active_of id a) eqn:E; [|done]. apply is_active_of_spec in E as [Hc Ha'].
  destruct (attempt_owner _ _ Hok aid a Ha) as (q & Hq & Hqx). rewrite Hc in Hq. naive_solver.
Qed.

Lemma touch_one issued db id aid a f :
  edge_ok issued db → attempts db !! aid = Some a → is_active_of id a = true →
  touch id f (attempts db) = <[aid := f a]> (attempts db).
Proof.
  intros Hok Ha Hact. apply map_eq. intros aid'. unfold touch. rewrite lookup_fmap.
  destruct (decide (aid' = aid)) as [->|Hne].
  - rewrite lookup_insert_eq, Ha. cbn. by rewrite Hact.
  - rewrite lookup_insert_ne by done. destruct (attempts db !! aid') as [b|] eqn:Hb; cbn; [|done].
    destruct (is_active_of id b) eqn:E; [|done]. apply is_active_of_spec in E as [? ?].
    apply is_active_of_spec in Hact as [? ?]. destruct Hne. apply (one_active _ _ Hok aid' aid b a); congruence.
Qed.

(** ** A command is claimed *)

Section claim.
Context (issued : list ClaimedCommand) (db db' : EdgeDb) (id aid : rstr) (r r' : CommandRow).
Context (a : AttemptRow) (e : CommandEvent) (claim : ClaimedCommand).
Context (Hok : edge_ok issued db) (Hr : commands db !! id = Some r) (Hfree : attempts db !! aid = None).
Context (Edev : devices db' = devices db) (Ecmd : commands db' = <[id := r']> (commands db)).
Context (Eatt : attempts db' = <[aid := a]> (attempts db)).
Context (Eev : command_events db' = command_events db ++ [e]) (He : event_command e = id).

Lemma edge_claim_ok :
  row_request r' = row_request r → in_u32 (attempt_count r') → row_state r' = Executing → leased r' →
  row_state r ≠ Executing → CommandState_is_terminal (row_state r) = false →
  device_automatic (device_id (row_request r)) db = true →
  has_executing (device_id (row_request r)) db = false →
  attempt_command a = id → attempt_state a = ActiveAttempt →
  (∀ aid' b, attempts db !! aid' = Some b → attempt_command b = id → sequence b < sequence a) →
  claim_attempt_id claim = aid → claim_command claim = id → claim_kind claim = attempt_kind a →
  request (claim_envelope claim) = row_request r →
  edge_ok (claim :: issued) db' ∧ evolves db db'.
Proof.
  intros Hreq Hcount Hx Hlease Hnx Hlive Hauto Hexec Hac Has Hseq Ek1 Ek2 Ek3 Ek4.
  assert (Hdev : ∀ dev, device_automatic dev db' = device_automatic dev db)
    by (intros dev; unfold device_automatic; by rewrite Edev).
  assert (Hev : evolves db db').
  { split.
    - intros j q Hq. rewrite Ecmd. destruct (decide (j = id)) as [->|Hne].
      + rewrite lookup_insert_eq. exists r'. assert (q = r) as -> by congruence.
        split_and!; try done. by rewrite Hlive.
      + rewrite lookup_insert_ne by done. eauto.
    - intros i b Hb. exists b. rewrite Eatt, lookup_insert_ne by congruence. by split_and!. }
  assert (Hno : ∀ j q, commands db !! j = Some q → row_state q = Executing →
    device_id (row_request q) ≠ device_id (row_request r)).
  { intros j q Hq Hqx E. apply not_true_iff_false in Hexec. apply Hexec. unfold has_executing.
    apply existsb_exists. exists (j, q). rewrite <-list_elem_of_In, elem_of_map_to_list.
    split; [done|]. by rewrite !bool_decide_true. }
  split; [|exact Hev]. pose proof (commands_ok _ _ Hok id r Hr) as Hc.
  assert (Hother : ∀ j aid' b, j ≠ id → latest db' j aid' b ↔ latest db j aid' b).
  { intros j aid' b Hne. unfold latest. rewrite Eatt. split; intros (Hb & Hbc & Hmax).
    - rewrite lookup_insert_ne in Hb by (intros ->; rewrite lookup_insert_eq in Hb; congruence).
      split_and!; [done..|]. intros i c Hi Hci Hni. apply (Hmax i c); [|done..].
      rewrite lookup_insert_ne; [done|congruence].
    - rewrite lookup_insert_ne by congruence. split_and!; [done..|]. intros i c Hi Hci Hni.
      rewrite lookup_insert_ne in Hi by (intros ->; rewrite lookup_insert_eq in Hi; congruence). eauto. }
  split.
  - rewrite Edev. apply (device_key _ _ Hok).
  - intros j q Hq. rewrite Ecmd in Hq. destruct (decide (j = id)) as [->|Hne].
    + rewrite lookup_insert_eq in Hq. injection Hq as <-. destruct Hc.
      split; rewrite ?Hreq, ?Hdev, ?Edev, ?Hx; try done.
      * intros _. exists aid, a. split; [|done]. split_and!; [by rewrite Eatt, lookup_insert_eq|done|].
        intros i b Hi Hbc Hni. rewrite Eatt, lookup_insert_ne in Hi by done. eauto.
      * by intros [|].
    + rewrite lookup_insert_ne in Hq by done. destruct (commands_ok _ _ Hok j q Hq).
      split; rewrite ?Hdev, ?Edev; try done.
      * intros Hqx. destruct (command_attempts0 Hqx) as (i & b & Hl & Hb). exists i, b.
        by rewrite Hother.
      * intros Hs i b Hl%Hother; [|done]. destruct (command_may_send0 Hs i b Hl) as [|[|Hap]]; [by left|by right; left|].
        right; right. destruct Hap as (x & Hx' & Ha). exists x. split; [|done].
        unfold events_of. rewrite Eev, last_filter_snoc. by rewrite bool_decide_false by congruence.
  - intros i j q s Hq Hs Hqx Hsx Hqs. rewrite Ecmd in Hq, Hs.
    apply lookup_insert_Some in Hq as [[<- <-]|[? Hq]]; apply lookup_insert_Some in Hs as [[<- <-]|[? Hs]].
    + done.
    + destruct (Hno j s Hs Hsx). congruence.
    + destruct (Hno i q Hq Hqx). congruence.
    + by apply (one_executing _ _ Hok i j q s).
  - intros i b Hb. rewrite Ecmd. rewrite Eatt in Hb. apply lookup_insert_Some in Hb as [[<- <-]|[? Hb]].
    + rewrite Hac, lookup_insert_eq. by exists r'.
    + destruct (attempt_owner _ _ Hok i b Hb) as (q & Hq & Hqx).
      destruct (decide (attempt_command b = id)) as [E|Hne]; [|rewrite lookup_insert_ne by done; eauto].
      rewrite E, lookup_insert_eq. exists r'. done.
  - intros i j b c Hb Hc' Hbx Hcx Hbc. rewrite Eatt in Hb, Hc'.
    assert (Hown : ∀ k x, attempts db !! k = Some x → attempt_state x = ActiveAttempt → attempt_command x ≠ id).
    { intros k x Hk Hkx E. destruct (attempt_owner _ _ Hok k x Hk) as (q & Hq & Hqx).
      rewrite E in Hq. assert (q = r) as -> by congruence. auto. }
    apply lookup_insert_Some in Hb as [[<- <-]|[? Hb]]; apply lookup_insert_Some in Hc' as [[<- <-]|[? Hc']].
    + done.
    + destruct (Hown j c Hc' Hcx). congruence.
    + destruct (Hown i b Hb Hbx). congruence.
    + by apply (one_active _ _ Hok i j b c).
  - intros k [->|Hk]%elem_of_cons.
    + exists a, r'. rewrite Ek1, Ek2, Eatt, Ecmd, !lookup_insert_eq. split_and!; congruence.
    + destruct (claims_genuine _ _ Hok k Hk) as (b & q & Hb & Hcb & Hkb & Hq & Hqr).
      destruct Hev as [Hcs Hasx]. destruct (Hasx _ _ Hb) as (b' & Hb' & E1 & E2 & _).
      destruct (Hcs _ _ Hq) as (q' & Hq' & E3 & _). exists b', q'. split_and!; try done; congruence.
  - assert (Hold : ∀ k q, commands db' !! k = Some q → ∃ q0, commands db !! k = Some q0 ∧
      row_request q0 = row_request q).
    { intros k q Hq. rewrite Ecmd in Hq. apply lookup_insert_Some in Hq as [[<- <-]|[_ Hq]]; eauto. }
    intros i j q s (q0 & Hq & <-)%Hold (s0 & Hs & <-)%Hold. by apply (identities _ _ Hok).
Qed.
End claim.

(** ** A device changes, or a command is submitted *)

Lemma device_ok issued db db' dev d' :
  edge_ok issued db → devices db' = <[dev := d']> (devices db) → commands db' = commands db →
  attempts db' = attempts db → command_events db' = command_events db →
  (match devices db !! dev with
   | Some d => descriptor d' = descriptor d
   | None => d_device_id (descriptor d') = dev
   end) →
  control_mode d' = Automatic ∨ control_mode d' = default Disabled (control_mode <$> devices db !! dev) ∨
    (∀ id r, commands db !! id = Some r → device_id (row_request r) = dev → is_pending (row_state r) = false) →
  edge_ok issued db' ∧ evolves db db'.
Proof.
  intros Hok Edev Ecmd Eatt Eev Hdesc Hmode. split; [|by apply evolves_same].
  assert (Hkey : d_device_id (descriptor d') = dev).
  { destruct (devices db !! dev) as [d|] eqn:Hd; [|done]. rewrite Hdesc. apply (device_key _ _ Hok dev d Hd). }
  assert (Hl : ∀ id aid a, latest db' id aid a ↔ latest db id aid a)
    by (intros; unfold latest; by rewrite Eatt).
  split; try rewrite Edev; try rewrite Ecmd; try rewrite Eatt; try apply Hok.
  - intros id d Hd. apply lookup_insert_Some in Hd as [[<- <-]|[? Hd]]; [done|]. by apply (device_key _ _ Hok).
  - intros id r Hr. destruct (commands_ok _ _ Hok id r Hr). split; try done.
    + destruct command_scope0 as (d & Hd & Hscope). rewrite Edev.
      destruct (decide (device_id (row_request r) = dev)) as [<-|Hne].
      * rewrite lookup_insert_eq. exists d'. rewrite Hd in Hdesc. by rewrite Hdesc.
      * rewrite lookup_insert_ne by done. eauto.
    + intros Hp. pose proof (command_control0 Hp) as Hauto. unfold device_automatic in *. rewrite Edev.
      destruct (decide (device_id (row_request r) = dev)) as [<-|Hne]; [|by rewrite lookup_insert_ne].
      rewrite lookup_insert_eq. destruct Hmode as [->|[->|Hno]]; [done| |by rewrite (Hno id r) in Hp].
      by destruct (devices db !! device_id (row_request r)).
    + intros Hx. destruct (command_attempts0 Hx) as (aid & a & ? & ?). exists aid, a. by rewrite Hl.
    + intros Hs aid a Ha. apply Hl in Ha. destruct (command_may_send0 Hs aid a Ha) as [|[|Hap]]; [by left|by right; left|].
      right; right. unfold approved, events_of. by rewrite Eev.
Qed.

Lemma submit_ok issued db db' id r e :
  edge_ok issued db → commands db !! id = None →
  devices db' = devices db → commands db' = <[id := r]> (commands db) → attempts db' = attempts db →
  command_events db' = command_events db ++ [e] → event_command e = id →
  command_id (row_request r) = id → row_state r = Queued ∨ row_state r = ManualReview → unleased r →
  attempt_count r = 0 →
  (∀ j q, commands db !! j = Some q → same_identity (row_request r) (row_request q) = false) →
  (∃ d, devices db !! device_id (row_request r) = Some d ∧
    d_tenant_id (descriptor d) = tenant_id (row_request r) ∧
    d_facility_id (descriptor d) = facility_id (row_request r) ∧
    d_class (descriptor d) = DeviceCommand_device_class (command (row_request r))) →
  (row_state r = Queued → device_automatic (device_id (row_request r)) db = true) →
  edge_ok issued db' ∧ evolves db db'.
Proof.
  intros Hok Hfree Edev Ecmd Eatt Eev He Hid Hs Hl Hcount Hnew Hscope Hauto.
  assert (Hlat : ∀ j aid a, latest db' j aid a ↔ latest db j aid a)
    by (intros; unfold latest; by rewrite Eatt).
  assert (Hnone : ∀ aid a, attempts db !! aid = Some a → attempt_command a ≠ id).
  { intros aid a Ha E. destruct (attempt_owner _ _ Hok aid a Ha) as (q & Hq & _). congruence. }
  assert (Hnx : row_state r ≠ Executing) by (destruct Hs as [->| ->]; done).
  split; [split|].
  - rewrite Edev. apply (device_key _ _ Hok).
  - intros j q Hq. rewrite Ecmd in Hq. apply lookup_insert_Some in Hq as [[<- <-]|[Hne Hq]].
    + split; rewrite ?Edev; try done.
      * by rewrite bool_decide_false.
      * intros Hp. unfold device_automatic. rewrite Edev. apply Hauto. destruct Hs as [|E]; [done|by rewrite E in Hp].
      * intros _ aid a (Ha & Hc & _)%Hlat. by destruct (Hnone aid a Ha).
      * rewrite Hcount. unfold in_u32, u32_max. lia.
    + destruct (commands_ok _ _ Hok j q Hq). split; rewrite ?Edev; try done.
      * unfold device_automatic. by rewrite Edev.
      * intros Hx. destruct (command_attempts0 Hx) as (aid & a & ? & ?). exists aid, a. by rewrite Hlat.
      * intros Hx aid a Ha%Hlat. destruct (command_may_send0 Hx aid a Ha) as [|[|(x & Hx' & Hap)]]; [by left|by right; left|].
        right; right. exists x. split; [|done]. unfold events_of. rewrite Eev, last_filter_snoc.
        by rewrite bool_decide_false by congruence.
  - intros i j q s Hq Hs' Hqx Hsx. rewrite Ecmd in Hq, Hs'.
    apply lookup_insert_Some in Hq as [[<- <-]|[? Hq]]; [done|].
    apply lookup_insert_Some in Hs' as [[<- <-]|[? Hs']]; [done|]. by apply (one_executing _ _ Hok i j q s).
  - intros aid a Ha. rewrite Eatt in Ha. destruct (attempt_owner _ _ Hok aid a Ha) as (q & Hq & Hqx).
    exists q. rewrite Ecmd, lookup_insert_ne; [done|]. intros E. by destruct (Hnone aid a Ha).
  - rewrite Eatt. apply (one_active _ _ Hok).
  - intros k Hk. destruct (claims_genuine _ _ Hok k Hk) as (a & q & Ha & Hca & Hka & Hq & Hqr).
    exists a, q. rewrite Eatt, Ecmd, lookup_insert_ne; [done|congruence].
  - intros i j q s Hq Hs' Hqs. rewrite Ecmd in Hq, Hs'.
    apply lookup_insert_Some in Hq as [[<- <-]|[? Hq]]; apply lookup_insert_Some in Hs' as [[<- <-]|[? Hs']].
    + done.
    + by rewrite (Hnew j s Hs') in Hqs.
    + rewrite same_identity_sym, (Hnew i q Hq) in Hqs. done.
    + by apply (identities _ _ Hok i j q s).
  - split; rewrite ?Eatt; [|eauto 10]. intros j q Hq. exists q. rewrite Ecmd, lookup_insert_ne; [done|congruence].
Qed.
