(* ===== verification/EdgeStoreFacts.v ===== *)
(** * Edge agent: every method of the store keeps the invariant

    For each method: it succeeds where it should, the invariant of [EdgeInvariant]
    is kept and the store only evolves. *)

From S2P Require Import Prelude.
From S2P Require Import RustStr.
From S2P Require Import EdgeTypes.
From S2P Require Import EdgeStore.
From S2P Require Import EdgeInvariant.

(** The invariant after a method that started in a good store. *)
Definition good_step (issued issued' : list ClaimedCommand) (db db' : EdgeDb) : Prop :=
  edge_ok issued' db' ∧ evolves db db'.

Lemma abandon_ok issued db id r reason now :
  edge_ok issued db → commands db !! id = Some r → row_state r = Executing →
  abandon_active_attempt id reason now db =
    Ok (with_attempts (touch id (fun a => finished_attempt now AbandonedAttempt reason (attempt_result a) a)
                         (attempts db)) db).
Proof.
  intros Hok Hr Hx. unfold abandon_active_attempt.
  destruct (command_attempts _ _ _ (commands_ok _ _ Hok id r Hr) Hx) as (aid & a & (Ha & Hc & _) & Hact).
  assert (List.filter (fun '(_, a) => is_active_of id a) (map_to_list (attempts db)) ≡ₚ [(aid, a)]) as Hp.
  { apply NoDup_Permutation.
    - apply (NoDup_fmap_1 fst). apply NoDup_filter_bool, NoDup_fst_map_to_list.
    - apply NoDup_singleton.
    - intros [aid' b]. rewrite elem_of_filter_bool, elem_of_map_to_list, list_elem_of_singleton, is_active_of_spec.
      split; [|by intros [= -> ->]]. intros (Hb & Hbc & Hbx).
      assert (aid' = aid) as -> by (apply (one_active _ _ Hok aid' aid b a); congruence). congruence. }
  by rewrite (Permutation_length Hp).
Qed.

Lemma abandoned_finishes now reason :
  finishes (fun a => finished_attempt now AbandonedAttempt reason (attempt_result a) a).
Proof. by split. Qed.

(** An execution is taken away from whoever holds it. *)
Lemma release_ok issued db id r target_ actor reason now :
  edge_ok issued db → commands db !! id = Some r → row_state r = Executing →
  target_ = ManualReview ∨ target_ = recovery_target (recovery_policy (row_request r)) →
  ∃ db1 db', abandon_active_attempt id reason now db = Ok db1 ∧
    transition_leased_without_token id target_ (Some actor) reason now db1 = Ok db' ∧
    good_step issued issued db db' ∧ devices db' = devices db ∧
    commands db' = <[id := released_row now target_ reason r]> (commands db).
Proof.
  intros Hok Hr Hx Ht. eexists _, _. split; [by eapply abandon_ok|]. split.
  { unfold transition_leased_without_token. cbn [commands with_attempts]. rewrite Hr.
    by rewrite bool_decide_true. }
  cbn [devices commands append_command_event with_command with_attempts]. split; [|done].
  eapply (transition_ok issued db _ id r (released_row now target_ reason r) _
    (fun a => finished_attempt now AbandonedAttempt reason (attempt_result a) a));
    try done; cbn [row_state released_row].
  - destruct Ht as [->| ->]; [done|]. by destruct (recovery_policy _).
  - by rewrite Hx.
  - intros _. apply (command_control _ _ _ (commands_ok _ _ Hok id r Hr)). by rewrite Hx.
  - intros Hs. right. intros aid a _. right.
    destruct Ht as [->| ->]; [by destruct Hs|]. by destruct (recovery_policy _), Hs.
Qed.

(** ** Quarantine *)

Record quarantined (dev : rstr) (db db' : EdgeDb) : Prop := {
  q_devices : devices db' = devices db;
  q_dom : dom (commands db') = dom (commands db);
  q_done : ∀ id r, commands db' !! id = Some r → device_id (row_request r) = dev →
    is_pending (row_state r) = false;
  q_other : ∀ id r, commands db !! id = Some r →
    device_id (row_request r) ≠ dev ∨ is_pending (row_state r) = false →
    commands db' !! id = Some r;
}.

Lemma quarantine_command_ok issued db id r actor reason now :
  edge_ok issued db → commands db !! id = Some r → is_pending (row_state r) = true →
  ∃ db' r', quarantine_command actor reason now (id, row_state r) db = Ok db' ∧
    good_step issued issued db db' ∧ devices db' = devices db ∧
    commands db' = <[id := r']> (commands db) ∧ row_request r' = row_request r ∧
    row_state r' = ManualReview.
Proof.
  intros Hok Hr Hp. unfold quarantine_command. case_bool_decide as Hx.
  - destruct (release_ok issued db id r ManualReview actor reason now) as (db1 & db' & -> & Hl & ? & ? & ?);
      [done..|by left|]. cbn [rbind]. rewrite Hl. eexists _, _. by split_and!.
  - pose proof (command_lease _ _ _ (commands_ok _ _ Hok id r Hr)) as Hl.
    rewrite bool_decide_false in Hl by done. destruct Hl as [Hl1 Hl2].
    unfold transition_unleased. cbn [u_command u_from]. rewrite Hr, !bool_decide_true by done. cbn [andb].
    eexists _, (unleased_row now (MkUnleased id (row_state r) ManualReview (Some actor) reason None None) r).
    split; [done|]. cbn [devices commands append_command_event with_command]. split; [|done].
    eapply (transition_ok issued db _ id r _ _ (fun a => finished_attempt now AbandonedAttempt reason None a));
      try done.
    + cbn. by erewrite touch_none.
    + by destruct (row_state r).
    + cbn. by intros [].
Qed.

Lemma device_pending_spec dev db :
  NoDup (device_pending dev db).*1 ∧
  ∀ id s, (id, s) ∈ device_pending dev db ↔ ∃ r, commands db !! id = Some r ∧ row_state r = s ∧
    is_pending s = true ∧ device_id (row_request r) = dev.
Proof.
  unfold device_pending. set (l := List.filter _ _).
  assert (Hperm : sort_by compare_created l ≡ₚ l) by apply sort_by_perm.
  assert (Hl : ∀ id r, (id, r) ∈ l ↔ commands db !! id = Some r ∧ device_id (row_request r) = dev ∧
    is_pending (row_state r) = true).
  { intros id r. unfold l. rewrite elem_of_filter_bool, elem_of_map_to_list, andb_true_iff, bool_decide_eq_true.
    naive_solver. }
  split.
  - rewrite <-list_fmap_compose. rewrite (list_fmap_ext _ fst) by (by intros ? []). rewrite Hperm.
    apply NoDup_filter_bool, NoDup_fst_map_to_list.
  - intros id s. rewrite list_elem_of_fmap. split.
    + intros ([id' r] & [= -> ->] & Hin). rewrite Hperm in Hin. apply Hl in Hin as (? & ? & ?). eauto 10.
    + intros (r & Hr & <- & Hp & Hd). exists (id, r). split; [done|]. rewrite Hperm. by apply Hl.
Qed.

Lemma quarantine_ok issued db dev actor reason now :
  edge_ok issued db →
  ∃ db', quarantine_device_commands dev actor reason now db = Ok db' ∧
    good_step issued issued db db' ∧ quarantined dev db db'.
Proof.
  intros Hok. destruct (device_pending_spec dev db) as [Hnd Hpend].
  destruct (rfold_total (quarantine_command actor reason now) (fun l db1 =>
    edge_ok issued db1 ∧ evolves db db1 ∧ devices db1 = devices db ∧
    dom (commands db1) = dom (commands db) ∧ NoDup l.*1 ∧
    (∀ id s, (id, s) ∈ l → ∃ r, commands db1 !! id = Some r ∧ row_state r = s ∧
       is_pending s = true ∧ device_id (row_request r) = dev) ∧
    (∀ id r, commands db1 !! id = Some r → device_id (row_request r) = dev →
       is_pending (row_state r) = true → id ∈ l.*1) ∧
    (∀ id r, commands db !! id = Some r → device_id (row_request r) ≠ dev ∨ is_pending (row_state r) = false →
       commands db1 !! id = Some r)) (device_pending dev db) db) as (db' & Hq & H).
  - intros [id s] l db1 (Hok1 & Hev1 & Hdev1 & Hdom1 & Hnd1 & Hin1 & Hall1 & Hoth1).
    destruct (Hin1 id s ltac:(by left)) as (r & Hr & <- & Hp & Hd).
    destruct (quarantine_command_ok issued db1 id r actor reason now Hok1 Hr Hp)
      as (db2 & r' & -> & [Hok2 Hev2] & Hdev2 & Hcmd2 & Hreq & Hst).
    exists db2. split; [done|]. cbn in Hnd1. apply NoDup_cons in Hnd1 as [Hnin Hnd1].
    split_and!; try done; [by etrans|congruence| | | |].
    + rewrite Hcmd2, dom_insert_lookup_L by by exists r. done.
    + intros j s Hj. assert (j ≠ id) by (intros ->; apply Hnin; by apply (list_elem_of_fmap_2 fst _ (id, s))).
      rewrite Hcmd2, lookup_insert_ne by done. apply Hin1. by right.
    + intros j q Hq Hqd Hqp. rewrite Hcmd2 in Hq. apply lookup_insert_Some in Hq as [[<- <-]|[Hne Hq]].
      * by rewrite Hst in Hqp.
      * pose proof (Hall1 j q Hq Hqd Hqp) as Hj. cbn in Hj. by apply elem_of_cons in Hj as [->|?].
    + intros j q Hq Hcase. pose proof (Hoth1 j q Hq Hcase) as Hq1. rewrite Hcmd2, lookup_insert_ne; [done|].
      intros <-. assert (q = r) as -> by congruence. destruct Hcase; congruence.
  - split_and!; try done.
    + intros id s. apply Hpend.
    + intros id r Hr Hd Hp. apply (list_elem_of_fmap_2 fst _ (id, row_state r)). apply Hpend. eauto 10.
  - destruct H as (Hok' & Hev & Hdev & Hdom & _ & _ & Hall & Hoth). exists db'. split; [done|]. split; [done|].
    split; try done. intros id r Hr Hd. destruct (is_pending (row_state r)) eqn:Hp; [|done].
    by apply (Hall id r Hr) in Hd; [apply elem_of_nil in Hd|].
Qed.

(** ** Control modes *)

Lemma update_device_mode_ok issued db existing target_ actor reason now dev :
  edge_ok issued db → devices db !! dev = Some existing →
  target_ = Automatic ∨
    (∀ id r, commands db !! id = Some r → device_id (row_request r) = dev → is_pending (row_state r) = false) →
  let db' := update_device_mode existing target_ actor reason now db in
  good_step issued issued db db' ∧ commands db' = commands db ∧
  ∃ d', devices db' = <[dev := d']> (devices db) ∧ descriptor d' = descriptor existing ∧
    control_mode d' = target_.
Proof.
  intros Hok Hd Ht. cbn zeta. unfold update_device_mode.
  rewrite (device_key _ _ Hok dev existing Hd), Hd. cbn [append_control_event with_device commands devices].
  split; [|split; [done|by eexists]].
  eapply (device_ok issued db _ dev); try done.
  - by rewrite Hd.
  - destruct Ht as [->|?]; [by left|by right; right].
Qed.

Lemma force_manual_fallback_ok issued db dev actor reason now :
  edge_ok issued db → is_Some (devices db !! dev) →
  ∃ db', force_manual_fallback dev actor reason now db = Ok db' ∧ good_step issued issued db db' ∧
    (∀ id r, commands db !! id = Some r →
       device_id (row_request r) ≠ dev ∨ is_pending (row_state r) = false → commands db' !! id = Some r) ∧
    (∀ id r, commands db' !! id = Some r → device_id (row_request r) = dev →
       is_pending (row_state r) = false) ∧
    dom (commands db') = dom (commands db) ∧
    (∀ d, is_Some (devices db !! d) → is_Some (devices db' !! d)).
Proof.
  intros Hok [d Hd]. unfold force_manual_fallback, load_device. rewrite Hd. cbn [ok_or rbind].
  destruct (quarantine_ok issued db dev actor reason now Hok) as (db1 & -> & [Hok1 Hev1] & [Hdev Hdom Hdone Hoth]).
  cbn [rbind]. case_bool_decide as Hm; [exists db1; split_and!; try done; by rewrite Hdev|].
  rewrite <-Hdev in Hd.
  destruct (update_device_mode_ok issued db1 d ManualFallback actor reason now dev Hok1 Hd)
    as ([Hok2 Hev2] & Hcmd & d' & Hd' & _); [by right|].
  eexists. split; [done|]. split; [by split; [|etrans]|]. rewrite Hcmd, Hd'. split_and!; [done|done|done|].
  intros x Hx. rewrite <-Hdev in Hx. destruct (decide (x = dev)) as [->|?]; [by rewrite lookup_insert_eq|by rewrite lookup_insert_ne].
Qed.

Lemma register_device_ok issued db d actor reason now db' s :
  edge_ok issued db → register_device d actor reason now db = Ok (db', s) → good_step issued issued db db'.
Proof.
  intros Hok H. unfold register_device in H. apply rbind_ok in H as (_ & _ & H).
  apply rbind_ok in H as (re & _ & H). cbn [d_device_id] in H.
  destruct (devices db !! d_device_id d) as [status|] eqn:Hd.
  - destruct (negb _) in H; [done|]. injection H as <- _. by split.
  - injection H as <- _. eapply (device_ok issued db _ (d_device_id d)); try done; rewrite Hd; [done|].
    by right; left.
Qed.

Lemma change_control_mode_ok issued db dev action actor reason now db' s :
  edge_ok issued db → change_control_mode dev action actor reason now db = Ok (db', s) →
  good_step issued issued db db' ∧ control_mode s = target_mode action ∧ devices db' !! dev = Some s.
Proof.
  intros Hok H. unfold change_control_mode in H. apply rbind_ok in H as (re & _ & H). cbn zeta in H.
  apply rbind_ok in H as (d & Hd & H). unfold load_device in Hd.
  destruct (devices db !! dev) as [d0|] eqn:Hdd; [|done]. injection Hd as ->.
  apply rbind_ok in H as (db1 & Hq & H). apply rbind_ok in H as (u & Hu & [= <- <-]).
  assert (∃ db2, Hq = Hq ∧ db1 = db2 ∧ good_step issued issued db db2 ∧ devices db2 = devices db ∧
    (target_mode action = Automatic ∨ ∀ id r, commands db2 !! id = Some r →
       device_id (row_request r) = dev → is_pending (row_state r) = false)) as (db2 & _ & -> & [Hok1 Hev1] & Hdev & Ht).
  { case_bool_decide as Ha; cbn [negb] in Hq.
    - injection Hq as ->. exists db1. split_and!; try done; by left.
    - destruct (quarantine_ok issued db dev actor re now Hok) as (db2 & Hq2 & Hg & [? _ Hdone _]).
      rewrite Hq in Hq2. injection Hq2 as ->. exists db2. split_and!; try done. by right. }
  rewrite <-Hdev in Hdd.
  destruct (update_device_mode_ok issued db2 d (target_mode action) actor re now dev Hok1 Hdd Ht)
    as ([Hok2 Hev2] & Hcmd & d' & Hd' & _ & Hmode).
  unfold load_device in Hu. rewrite Hd', lookup_insert_eq in Hu. injection Hu as <-.
  split; [by split; [|etrans]|]. split; [done|]. by rewrite Hd', lookup_insert_eq.
Qed.

Lemma record_heartbeat_ok issued db dev report now db' s :
  edge_ok issued db → record_heartbeat dev report now db = Ok (db', s) →
  good_step issued issued db db' ∧ commands db' = commands db ∧ attempts db' = attempts db ∧
  (∀ d, device_automatic d db' = device_automatic d db) ∧
  (∀ d, is_Some (devices db !! d) → is_Some (devices db' !! d)).
Proof.
  intros Hok H. unfold record_heartbeat, load_device in H. apply rbind_ok in H as (_ & _ & H).
  destruct (devices db !! dev) as [d|] eqn:Hd; [|done]. cbn [ok_or rbind] in H. cbn zeta in H.
  injection H as <- _. cbn [commands attempts devices append_heartbeat_event with_device].
  split_and!; try done.
  - eapply (device_ok issued db _ dev); try done; rewrite Hd; [done|]. by right; left.
  - intros x. unfold device_automatic. cbn [devices append_heartbeat_event with_device].
    destruct (decide (x = dev)) as [->|?]; [by rewrite lookup_insert_eq, Hd|by rewrite lookup_insert_ne].
  - intros x Hx. destruct (decide (x = dev)) as [->|?]; [by rewrite lookup_insert_eq|by rewrite lookup_insert_ne].
Qed.

Lemma record_heartbeat_failure_ok issued db dev failure now db' s :
  edge_ok issued db → record_heartbeat_failure dev failure now db = Ok (db', s) →
  good_step issued issued db db' ∧ commands db' = commands db ∧ attempts db' = attempts db ∧
  (∀ d, device_automatic d db' = device_automatic d db) ∧
  (∀ d, is_Some (devices db !! d) → is_Some (devices db' !! d)).
Proof.
  intros Hok H. unfold record_heartbeat_failure in H. apply rbind_ok in H as (m & _ & H).
  by eapply record_heartbeat_ok.
Qed.

(** ** Deliveries from the cloud do not touch commands *)

Lemma with_delivery_ok issued db id d : edge_ok issued db → good_step issued issued db (with_delivery id d db).
Proof. intros Hok. split; [by eapply edge_ok_same|by apply evolves_same]. Qed.

Lemma good_step_refl issued db : edge_ok issued db → good_step issued issued db db.
Proof. by split. Qed.

Lemma upsert_ok id d now db db' :
  upsert_cloud_delivery_tx id d now db = Ok db' → db' = db ∨ ∃ k x, db' = with_delivery k x db.
Proof.
  unfold upsert_cloud_delivery_tx. intros H. apply rbind_ok in H as (_ & _ & H).
  destruct (deliveries db !! _) as [current|].
  - destruct (_ || _) in H; [done|]. case_bool_decide.
    + apply rbind_ok in H as (_ & _ & [= <-]). eauto.
    + injection H as <-. by left.
  - apply rbind_ok in H as (_ & _ & H). destruct (existsb _ _) in H; [done|]. injection H as <-. eauto.
Qed.

Lemma store_delivery_ok issued id cloud now db db' :
  edge_ok issued db → store_delivery id cloud now db = Ok db' →
  good_step issued issued db db' ∧ commands db' = commands db ∧ devices db' = devices db.
Proof.
  intros Hok H. destruct cloud as [d|]; cbn in H; [|injection H as <-; by split_and!].
  apply upsert_ok in H as [->|(k & x & ->)]; [by split_and!|]. split; [by apply with_delivery_ok|done].
Qed.

Lemma mark_cloud_acknowledged_ok issued id revision ack now db db' d :
  edge_ok issued db → mark_cloud_acknowledged id revision ack now db = Ok (db', d) →
  good_step issued issued db db'.
Proof.
  intros Hok H. unfold mark_cloud_acknowledged in H. destruct (_ || _) in H; [done|].
  apply rbind_ok in H as (c & _ & H). destruct (negb _) in H; [done|].
  destruct (acknowledgement_revision c); [destruct (negb _) in H; [done|]|];
    injection H as <- _; [by apply good_step_refl|by apply with_delivery_ok].
Qed.

Lemma mark_cloud_reported_ok issued id revision status now db db' d :
  edge_ok issued db → mark_cloud_reported id revision status now db = Ok (db', d) →
  good_step issued issued db db'.
Proof.
  intros Hok H. unfold mark_cloud_reported in H. destruct (_ || _) in H; [done|].
  apply rbind_ok in H as (c & _ & H). case_bool_decide; [done|].
  destruct (reported_revision c); [destruct (_ || _) in H; [done|]|];
    injection H as <- _; [by apply good_step_refl|by apply with_delivery_ok].
Qed.

Lemma record_cloud_error_ok issued id message now db db' :
  edge_ok issued db → record_cloud_error id message now db = Ok db' → good_step issued issued db db'.
Proof.
  intros Hok H. unfold record_cloud_error in H. apply rbind_ok in H as (m & _ & H).
  destruct (deliveries db !! id); [|done]. injection H as <-. by apply with_delivery_ok.
Qed.

(** ** Submission *)

Section submission.
Context (to_vec : CommandRequest → list Z) (sha256 : list Z → list Z).

Lemma candidates_spec db request_ id :
  id ∈ command_identity_candidates db request_ ↔
  ∃ r, commands db !! id = Some r ∧ same_identity request_ (row_request r) = true.
Proof.
  unfold command_identity_candidates. rewrite list_elem_of_fmap. split.
  - intros ([j r] & -> & [Hin Hs]%elem_of_filter_bool). rewrite elem_of_map_to_list in Hin. eauto.
  - intros (r & Hr & Hs). exists (id, r). split; [done|]. apply elem_of_filter_bool. by rewrite elem_of_map_to_list.
Qed.

Lemma no_candidates issued db request_ :
  edge_ok issued db → command_identity_candidates db request_ = [] →
  commands db !! command_id request_ = None ∧
  ∀ id r, commands db !! id = Some r → same_identity request_ (row_request r) = false.
Proof.
  intros Hok Hnil. assert (Hno : ∀ id r, commands db !! id = Some r → same_identity request_ (row_request r) = false).
  { intros id r Hr. apply not_true_iff_false. intros Hs.
    assert (Hin : id ∈ command_identity_candidates db request_) by (apply candidates_spec; eauto).
    rewrite Hnil in Hin. by apply elem_of_nil in Hin. }
  split; [|done]. apply eq_None_not_Some. intros [r Hr]. specialize (Hno _ _ Hr).
  pose proof (command_key _ _ _ (commands_ok _ _ Hok _ _ Hr)) as Hk. unfold same_identity in Hno.
  by rewrite bool_decide_true in Hno.
Qed.

Lemma submit_with_cloud_ok issued request_ cloud now db db' o :
  edge_ok issued db → submit_with_cloud to_vec sha256 request_ cloud now db = Ok (db', o) →
  good_step issued issued db db' ∧
  match o with
  | Accepted r => commands db' = <[command_id request_ := r]> (commands db) ∧
      row_request r = request_ ∧ command_identity_candidates db request_ = []
  | Replayed r => commands db' = commands db ∧ ∃ id, commands db !! id = Some r ∧
      command_identity_candidates db request_ = [id] ∧ to_vec (row_request r) = to_vec request_
  end.
Proof.
  intros Hok H. unfold submit_with_cloud, load_device in H. apply rbind_ok in H as (_ & _ & H).
  destruct (devices db !! device_id request_) as [d|] eqn:Hd; [|done]. cbn [ok_or rbind] in H.
  destruct (_ || _) eqn:Hscope in H; [done|]. destruct (negb _) eqn:Hclass in H; [done|]. bool_to_prop.
  destruct (command_identity_candidates db request_) as [|id [|? ?]] eqn:Hcand; [| |done].
  - cbn zeta in H. apply rbind_ok in H as (db2 & Hst & [= <- <-]).
    destruct (no_candidates issued db request_ Hok Hcand) as [Hfree Hnew].
    set (st := if bool_decide _ then Queued else ManualReview) in *.
    set (reason := if bool_decide (st = Queued) then _ else _) in *.
    set (row := new_command request_ st reason now) in *.
    set (db1 := append_command_event _ _ _ _ _ _ _) in *.
    assert (good_step issued issued db db1) as [Hok1 Hev1].
    { eapply (submit_ok issued db db1 (command_id request_) row); try done.
      - unfold row, st. cbn. case_bool_decide; auto.
      - exists d. by split_and!.
      - unfold row, st. cbn. case_bool_decide as Ha; [|done]. intros _. unfold device_automatic.
        rewrite Hd. by apply bool_decide_true. }
    destruct (store_delivery_ok issued _ _ _ _ _ Hok1 Hst) as ([Hok2 Hev2] & Hc & _).
    split; [by split; [|etrans]|]. by rewrite Hc.
  - apply rbind_ok in H as (raw & Hraw & H). destruct (_ || _) eqn:Heq in H; [done|].
    apply rbind_ok in H as (db2 & Hst & [= <- <-]). bool_to_prop.
    destruct (store_delivery_ok issued _ _ _ _ _ Hok Hst) as (Hg & Hc & _). split; [done|].
    split; [done|]. exists id. unfold load_command in Hraw. destruct (commands db !! id) eqn:E; [|done].
    injection Hraw as ->. by split_and!.
Qed.
End submission.

(** ** Operators *)

Lemma operator_transition_ok issued db id actor reason target_ allowed now db' r' :
  edge_ok issued db → operator_transition id actor reason target_ allowed now db = Ok (db', r') →
  is_pending target_ = false → (∀ s, s ∈ allowed → CommandState_is_terminal s = false ∧ s ≠ Executing) →
  good_step issued issued db db' ∧ commands db' !! id = Some r' ∧ row_state r' = target_.
Proof.
  intros Hok H Ht Hall. unfold operator_transition, load_command in H.
  destruct (commands db !! id) as [r|] eqn:Hr; [|done]. cbn [ok_or rbind] in H.
  case_bool_decide as Hin; [|done]. cbn [negb] in H. apply rbind_ok in H as (db1 & Htr & H).
  apply rbind_ok in H as (u & Hu & [= <- <-]). destruct (Hall _ Hin) as [Hlive Hnx].
  pose proof (command_lease _ _ _ (commands_ok _ _ Hok id r Hr)) as Hl. rewrite bool_decide_false in Hl by done.
  unfold transition_unleased in Htr. cbn [u_command u_from u_to u_actor u_reason] in Htr.
  rewrite Hr, !bool_decide_true in Htr by (done || apply Hl). cbn [andb] in Htr. injection Htr as <-.
  cbn [commands append_command_event with_command] in Hu. rewrite lookup_insert_eq in Hu. cbn in Hu. injection Hu as <-.
  split; [|cbn; by rewrite lookup_insert_eq].
  eapply (transition_ok issued db _ id r _ _ (fun a => finished_attempt now AbandonedAttempt reason None a)); try done; cbn.
  - by erewrite touch_none.
  - by intros ->.
  - by rewrite Ht.
  - intros [-> | ->]; done.
Qed.

Lemma resolve_manually_ok issued db id actor note now db' r' :
  edge_ok issued db → resolve_manually id actor note now db = Ok (db', r') →
  good_step issued issued db db' ∧ commands db' !! id = Some r' ∧ row_state r' = ResolvedManually.
Proof.
  intros Hok H. unfold resolve_manually in H. apply rbind_ok in H as (n & _ & H).
  eapply operator_transition_ok in H; try done. by intros s ->%list_elem_of_singleton.
Qed.

Lemma cancel_command_ok issued db id actor reason now db' r' :
  edge_ok issued db → cancel_command id actor reason now db = Ok (db', r') →
  good_step issued issued db db' ∧ commands db' !! id = Some r' ∧ row_state r' = Cancelled.
Proof.
  intros Hok H. unfold cancel_command in H. apply rbind_ok in H as (n & _ & H).
  eapply operator_transition_ok in H; try done. intros s Hs. rewrite !elem_of_cons, elem_of_nil in Hs.
  by destruct Hs as [->|[->|[->|[->|[]]]]].
Qed.

Lemma retry_after_review_ok issued db id actor reason now db' r' :
  edge_ok issued db → retry_after_review id actor reason now db = Ok (db', r') →
  good_step issued issued db db' ∧ ∃ r, commands db !! id = Some r ∧ row_state r = ManualReview ∧
    commands db' !! id = Some r' ∧ row_state r' = Queued ∧ attempt_count r' = attempt_count r ∧
    row_request r' = row_request r.
Proof.
  intros Hok H. unfold retry_after_review, load_command, load_device in H. apply rbind_ok in H as (n & _ & H).
  destruct (commands db !! id) as [r|] eqn:Hr; [|done]. cbn [ok_or rbind] in H.
  case_bool_decide as Hst; [|done]. cbn [negb] in H. apply rbind_ok in H as (d & Hd & H).
  case_bool_decide as Hm; [|done]. cbn [negb] in H. apply rbind_ok in H as (db1 & Htr & H).
  apply rbind_ok in H as (u & Hu & [= <- <-]).
  pose proof (command_lease _ _ _ (commands_ok _ _ Hok id r Hr)) as Hl.
  rewrite bool_decide_false in Hl by by rewrite Hst.
  unfold transition_unleased in Htr. cbn [u_command u_from u_to u_actor u_reason] in Htr.
  rewrite Hr, !bool_decide_true in Htr by (done || apply Hl). cbn [andb] in Htr. injection Htr as <-.
  cbn [commands append_command_event with_command] in Hu. rewrite lookup_insert_eq in Hu. cbn in Hu. injection Hu as <-.
  split; [|exists r; cbn; by rewrite lookup_insert_eq].
  eapply (transition_ok issued db _ id r _ _ (fun a => finished_attempt now AbandonedAttempt n None a)); try done; cbn.
  - erewrite touch_none; try done. by rewrite Hst.
  - by rewrite Hst.
  - intros _. unfold device_automatic. destruct (devices db !! _); [|done]. injection Hd as ->. by apply bool_decide_true.
  - intros _. left. unfold approval. cbn. rewrite Hst. by split_and!; eauto.
Qed.

(** ** Claims *)

Lemma foldr_max_le (l : list Z) x : x ∈ l → x ≤ foldr Z.max 0 l.
Proof. induction l as [|y l IH]; cbn; [set_solver|]. intros [->|H%IH]%elem_of_cons; lia. Qed.

Lemma sequence_bound db aid a : attempts db !! aid = Some a → sequence a ≤ max_sequence (attempt_command a) db.
Proof.
  intros Ha. unfold max_sequence. apply foldr_max_le, list_elem_of_fmap_2. unfold attempts_of.
  apply elem_of_filter_bool. rewrite bool_decide_eq_true. split; [|done].
  apply (list_elem_of_fmap_2 snd _ (aid, a)). by apply elem_of_map_to_list.
Qed.

Lemma candidate_spec now max_attempts db id r :
  candidate now max_attempts db = Some (id, r) → commands db !! id = Some r ∧ claimable now max_attempts db r = true.
Proof.
  unfold candidate. set (l := List.filter _ _). intros Hh.
  assert (Hin : (id, r) ∈ l) by (rewrite <-(sort_by_perm compare_due l); by apply head_Some_elem_of).
  unfold l in Hin. by rewrite elem_of_filter_bool, elem_of_map_to_list in Hin.
Qed.

Lemma edge_claimable_spec now max_attempts db r :
  claimable now max_attempts db r = true ↔
  (row_state r = Queued ∨ row_state r = RetryWait ∨ row_state r = RecoveryWait) ∧
  next_attempt_at_ms r ≤ millis now ∧ device_automatic (device_id (row_request r)) db = true ∧
  (row_state r = RecoveryWait ∨ attempt_count r < max_attempts) ∧
  has_executing (device_id (row_request r)) db = false.
Proof.
  unfold claimable. rewrite !andb_true_iff, orb_true_iff, !bool_decide_eq_true, negb_true_iff,
    Z.leb_le, Z.ltb_lt, !elem_of_cons, elem_of_nil. naive_solver.
Qed.

Lemma claim_next_none now lease max_attempts token aid db db' :
  claim_next now lease max_attempts token aid db = Ok (db', None) →
  db' = db ∧ candidate now max_attempts db = None.
Proof.
  unfold claim_next. intros H. apply rbind_ok in H as (lm & _ & H). apply rbind_ok in H as (un & _ & H).
  destruct (candidate now max_attempts db) as [[id r]|]; [|by injection H as <-].
  cbn zeta in H. apply rbind_ok in H as (c & _ & H). case_bool_decide; [done|].
  by apply rbind_ok in H as (p & _ & [=]).
Qed.

Lemma claim_next_ok issued now lease max_attempts token aid db db' claim :
  edge_ok issued db → in_u32 max_attempts →
  claim_next now lease max_attempts token aid db = Ok (db', Some claim) →
  good_step issued (claim :: issued) db db' ∧
  ∃ r, commands db !! claim_command claim = Some r ∧ claimable now max_attempts db r = true ∧
    request (claim_envelope claim) = row_request r ∧
    claim_kind claim = (if bool_decide (row_state r = RecoveryWait) then RecoveryProbe else Execute) ∧
    devices db' = devices db ∧
    (∃ until, commands db' = <[claim_command claim := claimed_row now until (claim_token claim) (claim_kind claim) r]>
                 (commands db)) ∧
    attempt (claim_envelope claim) = attempt_count r + (if bool_decide (claim_kind claim = Execute) then 1 else 0) ∧
    ∃ a, attempts db' !! claim_attempt_id claim = Some a ∧ attempt_command a = claim_command claim ∧
      attempt_state a = ActiveAttempt.
Proof.
  intros Hok Hmax H. unfold claim_next in H.
  apply rbind_ok in H as (lm & _ & H). apply rbind_ok in H as (un & _ & H).
  destruct (candidate now max_attempts db) as [[id r]|] eqn:Hcand; [|done]. cbn zeta in H.
  apply candidate_spec in Hcand as [Hr Hcl]. set (kind := if bool_decide _ then RecoveryProbe else Execute) in *.
  apply rbind_ok in H as (c & Hc & H). case_bool_decide as Hfree; [done|].
  apply rbind_ok in H as (p & _ & [= <- <-]). cbn [attempt_count claimed_row] in Hc.
  assert (Hce : c = attempt_count r + (if bool_decide (kind = Execute) then 1 else 0) ∧ in_u32 c).
  { unfold checked_u32 in Hc. destruct (_ && _) eqn:Hb in Hc; [|done]. injection Hc as <-. bool_to_prop.
    unfold in_u32. split; [done|lia]. }
  destruct Hce as [-> Hrange].
  pose proof (commands_ok _ _ Hok id r Hr) as Hcok. pose proof Hcl as Hcl'.
  apply edge_claimable_spec in Hcl' as (Hst & _ & Hauto & _ & Hex).
  unfold claim_command. cbn [claim_envelope request claim_kind claim_attempt_id claim_token attempt].
  rewrite (command_key _ _ _ Hcok). split.
  - eapply (edge_claim_ok issued db _ id aid r); try done.
    + by apply eq_None_not_Some.
    + by destruct Hst as [->|[->| ->]].
    + by destruct Hst as [->|[->| ->]].
    + cbn. intros aid' b Hb <-. pose proof (sequence_bound db aid' b Hb). lia.
    + unfold claim_command. cbn. apply (command_key _ _ _ Hcok).
  - exists r. split_and!; try done; [by eexists|]. eexists. cbn. by rewrite lookup_insert_eq.
Qed.

(** ** Completion of a claim *)

(** The claim is still the one that executes its command. *)
Definition holds (db : EdgeDb) (claim : ClaimedCommand) : Prop :=
  ∃ r a, commands db !! claim_command claim = Some r ∧ attempts db !! claim_attempt_id claim = Some a ∧
    row_state r = Executing ∧ lease_token r = Some (claim_token claim) ∧
    attempt_command a = claim_command claim ∧ attempt_state a = ActiveAttempt.

(** What a completion may do: a command goes back to be sent only if the attempt is
    settled or the device deduplicates, and needs its device only if automatic. *)
Definition completion_ok (claim : ClaimedCommand) (c : ClaimCompletion) : Prop :=
  target c ≠ Executing ∧ completion_state c ≠ ActiveAttempt ∧
  (manual_fallback c ≠ None → target c = ManualReview) ∧
  (target c = Queued ∨ target c = RetryWait →
     (completion_state c = NotFoundAttempt ∧ claim_kind claim = RecoveryProbe) ∨
     (completion_state c = RetryableAttempt ∧ claim_kind claim = Execute) ∨
     recovery_policy (request (claim_envelope claim)) = DeviceDeduplicatedReplay).

Lemma finish_claim_step issued claim now c db :
  edge_ok issued db → claim ∈ issued → completion_ok claim c →
  (holds db claim ∧ ∃ db', finish_claim claim now c db = Ok db' ∧ good_step issued issued db db' ∧
     (∃ r', commands db' !! claim_command claim = Some r' ∧ row_state r' = target c) ∧
     (∀ id r, commands db !! id = Some r → id ≠ claim_command claim →
        ∃ r', commands db' !! id = Some r' ∧ (row_state r' = Executing → r' = r)) ∧
     (∀ d, is_Some (devices db !! d) → is_Some (devices db' !! d))) ∨
  (¬ holds db claim ∧ finish_claim claim now c db = Err (LeaseMismatch (claim_command claim))).
Proof.
  intros Hok Hin (Hnx & Hna & Hman & Hsend).
  destruct (claims_genuine _ _ Hok claim Hin) as (a & r & Ha & Hac & Hak & Hr & Hreq).
  unfold finish_claim. rewrite Hr, Ha.
  destruct (bool_decide (row_state r = Executing) && bool_decide (lease_token r = Some (claim_token claim))) eqn:Hl;
    cbn [negb].
  2:{ right. split; [|done]. intros (r2 & a2 & Hr2 & Ha2 & Hx & Ht & _). rewrite Hr in Hr2. injection Hr2 as <-.
      by rewrite Hx, Ht, !bool_decide_true in Hl. }
  destruct (is_active_of (claim_command claim) a) eqn:Hact; cbn [negb].
  2:{ right. split; [|done]. intros (r2 & a2 & Hr2 & Ha2 & _ & _ & Hc & Hx). rewrite Ha in Ha2. injection Ha2 as <-.
      by rewrite (proj2 (is_active_of_spec _ _) (conj Hc Hx)) in Hact. }
  bool_to_prop. left. pose proof Hact as [Hc Hx]%is_active_of_spec. split; [by exists r, a; split_and!|].
  set (id := claim_command claim) in *. set (f := finished_attempt now (completion_state c) (completion_reason c) (completion_result c)).
  set (db1 := append_command_event id _ _ _ _ _ _).
  assert (good_step issued issued db db1) as [Hok1 Hev1].
  { eapply (transition_ok issued db db1 id r (completed_row now c r) _ f); try done.
    - unfold db1. cbn. by erewrite touch_one.
    - destruct (row_state r); done.
    - intros _. apply (command_control _ _ _ (commands_ok _ _ Hok id r Hr)). by rewrite H.
    - cbn [row_state completed_row]. intros Ht. right. intros aid b Hlat. rewrite Hreq.
      assert (is_active_of id b = true ∧ attempt_kind b = claim_kind claim) as [Hb Hkb].
      { destruct (command_attempts _ _ _ (commands_ok _ _ Hok id r Hr) H) as (aid2 & a2 & (Ha2 & Hc2 & Hmax2) & Hx2).
        assert (aid2 = claim_attempt_id claim) as -> by (apply (one_active _ _ Hok _ _ a2 a); congruence).
        destruct Hlat as (Hb & Hbc & Hmax). destruct (decide (aid = claim_attempt_id claim)) as [->|Hne].
        - assert (b = a) as -> by congruence. by rewrite Hact.
        - specialize (Hmax2 aid b Hb Hbc Hne). specialize (Hmax _ _ Ha2 Hc2 (not_eq_sym Hne)). lia. }
      rewrite Hb. unfold settled, f. cbn. rewrite Hkb. tauto. }
  assert (Hcmd1 : commands db1 = <[id := completed_row now c r]> (commands db)) by done.
  assert (Hdone : ∃ r', commands db1 !! id = Some r' ∧ row_state r' = target c)
    by (eexists; by rewrite Hcmd1, lookup_insert_eq).
  destruct (manual_fallback c) as [[actor reason]|].
  - assert (is_Some (devices db1 !! device_id (request (claim_envelope claim)))) as Hdev.
    { destruct (command_scope _ _ _ (commands_ok _ _ Hok id r Hr)) as (d & Hd & _). rewrite <-Hreq. by exists d. }
    destruct (force_manual_fallback_ok issued db1 _ actor reason now Hok1 Hdev)
      as (db2 & Hf & [Hok2 Hev2] & Hsame & Hnone & _ & Hds).
    exists db2. split; [done|]. split; [by split; [|etrans]|]. split_and!.
    + destruct Hdone as (r' & Hr' & Hst). exists r'. split; [|done]. apply Hsame; [done|]. right.
      by rewrite Hst, Hman.
    + intros j q Hq Hne. assert (Hq1 : commands db1 !! j = Some q) by (rewrite Hcmd1, lookup_insert_ne; done).
      destruct (commands_stay _ _ Hev2 _ _ Hq1) as (q' & Hq' & Hreq' & _). exists q'. split; [done|].
      intros Hqx. destruct (decide (device_id (row_request q) = device_id (request (claim_envelope claim)))) as [Hd|Hd].
      * specialize (Hnone j q' Hq'). rewrite Hreq', Hqx in Hnone. by specialize (Hnone Hd).
      * assert (commands db2 !! j = Some q) by (apply Hsame; auto). congruence.
    + intros d Hd. by apply Hds.
  - exists db1. split; [done|]. split; [done|]. split_and!; try done. intros j q Hq Hne.
    exists q. rewrite Hcmd1, lookup_insert_ne; done.
Qed.

(** ** Expired leases *)

Definition recovered_total (s : LeaseRecoverySummary) : Z :=
  replayable s + probes_required s + manual_reviews s.

Lemma expired_leases_spec now db :
  NoDup (expired_leases now db).*1 ∧
  ∀ id r, (id, r) ∈ expired_leases now db ↔ commands db !! id = Some r ∧ lease_expired now r = true.
Proof.
  unfold expired_leases. split.
  - rewrite (sort_by_perm compare_created). apply NoDup_filter_bool, NoDup_fst_map_to_list.
  - intros id r. rewrite (sort_by_perm compare_created), elem_of_filter_bool. by rewrite elem_of_map_to_list.
Qed.

Lemma recover_lease_ok issued db id r agent now s :
  edge_ok issued db → commands db !! id = Some r → row_state r = Executing →
  ∃ db', recover_lease agent now (id, r) (db, s) =
      Ok (db', count_recovered (recovery_policy (row_request r)) s) ∧
    good_step issued issued db db' ∧
    (∀ j q, commands db !! j = Some q → row_state q = Executing → j ≠ id → commands db' !! j = Some q) ∧
    (∀ j q, commands db' !! j = Some q → row_state q = Executing → commands db !! j = Some q ∧ j ≠ id) ∧
    (∀ d, is_Some (devices db !! d) → is_Some (devices db' !! d)).
Proof.
  intros Hok Hr Hx. unfold recover_lease.
  destruct (release_ok issued db id r (recovery_target (recovery_policy (row_request r))) agent
    (recovery_reason (recovery_policy (row_request r))) now) as (db1 & db2 & -> & Hl & [Hok2 Hev2] & Hdev & Hcmd);
    [done..|by right|].
  cbn [rbind]. rewrite Hl. cbn [rbind].
  assert (Hne : ∀ j q, commands db2 !! j = Some q → row_state q = Executing → commands db !! j = Some q ∧ j ≠ id).
  { intros j q Hq Hqx. rewrite Hcmd in Hq. apply lookup_insert_Some in Hq as [[<- <-]|[? Hq]]; [|done].
    cbn in Hqx. by destruct (recovery_policy _). }
  case_bool_decide as Hm.
  - destruct (force_manual_fallback_ok issued db2 (device_id (row_request r)) agent
      (recovery_reason (recovery_policy (row_request r))) now Hok2) as (db3 & -> & [Hok3 Hev3] & Hsame & Hnone & Hdom & Hds).
    { rewrite Hdev. destruct (command_scope _ _ _ (commands_ok _ _ Hok id r Hr)) as (d & Hd & _). by exists d. }
    cbn [rbind]. exists db3. split; [done|]. split; [by split; [|etrans]|].
    assert (Hother : ∀ j q, commands db2 !! j = Some q → row_state q = Executing →
      device_id (row_request q) ≠ device_id (row_request r)).
    { intros j q Hq Hqx E. destruct (Hne j q Hq Hqx) as [Hq1 Hj]. apply Hj. by apply (one_executing _ _ Hok j id q r). }
    split_and!.
    + intros j q Hq Hqx Hj. assert (commands db2 !! j = Some q) as Hq2 by (rewrite Hcmd, lookup_insert_ne; done).
      apply Hsame; [done|]. left. by apply (Hother j).
    + intros j q Hq Hqx. destruct (decide (device_id (row_request q) = device_id (row_request r))) as [Hd|Hd].
      * specialize (Hnone j q Hq Hd). by rewrite Hqx in Hnone.
      * apply Hne; [|done]. destruct (commands db2 !! j) as [q2|] eqn:Hq2.
        -- destruct (commands_stay _ _ Hev3 _ _ Hq2) as (q3 & Hq3 & Hreq & _).
           assert (q3 = q) as -> by congruence. rewrite <-Hq. symmetry. apply Hsame; [done|]. left. congruence.
        -- apply not_elem_of_dom in Hq2. rewrite <-Hdom in Hq2. apply not_elem_of_dom in Hq2. congruence.
    + intros d Hd. apply Hds. by rewrite Hdev.
  - cbn [rbind]. exists db2. split; [done|]. split; [done|]. split_and!; [|done|by rewrite Hdev].
    intros j q Hq Hqx Hj. rewrite Hcmd, lookup_insert_ne; done.
Qed.

Lemma lease_expired_executing now r : lease_expired now r = true → row_state r = Executing.
Proof. unfold lease_expired. intros [Hx _]%andb_true_iff. by apply bool_decide_eq_true in Hx. Qed.

Lemma recover_expired_leases_ok issued db agent now :
  edge_ok issued db →
  ∃ db' s, recover_expired_leases now agent db = Ok (db', s) ∧ good_step issued issued db db' ∧
    recovered_total s = Z.of_nat (length (expired_leases now db)) ∧
    (∀ id r, commands db' !! id = Some r → row_state r = Executing →
       commands db !! id = Some r ∧ lease_expired now r = false) ∧
    (∀ d, is_Some (devices db !! d) → is_Some (devices db' !! d)).
Proof.
  intros Hok. destruct (expired_leases_spec now db) as [Hnd Hexp].
  destruct (rfold_total (recover_lease agent now) (fun l s =>
    edge_ok issued s.1 ∧ evolves db s.1 ∧ NoDup l.*1 ∧
    recovered_total s.2 + Z.of_nat (length l) = Z.of_nat (length (expired_leases now db)) ∧
    (∀ id r, (id, r) ∈ l → commands s.1 !! id = Some r ∧ row_state r = Executing) ∧
    (∀ id r, commands s.1 !! id = Some r → row_state r = Executing →
       commands db !! id = Some r ∧ (lease_expired now r = true → id ∈ l.*1)) ∧
    (∀ d, is_Some (devices db !! d) → is_Some (devices s.1 !! d)))
    (expired_leases now db) (db, MkRecovered 0 0 0)) as ([db' s] & Hrun & H).
  - intros [id r] l [db1 s] (Hok1 & Hev1 & Hnd1 & Hcnt & Hin & Hback & Hds). cbn [fst snd] in *.
    destruct (Hin id r ltac:(by left)) as [Hr Hx].
    destruct (recover_lease_ok issued db1 id r agent now s Hok1 Hr Hx) as (db2 & Hstep & [Hok2 Hev2] & Hf & Hb & Hds2).
    rewrite Hstep. eexists. split; [reflexivity|]. cbn [fst snd]. cbn in Hnd1. apply NoDup_cons in Hnd1 as [Hnin Hnd1].
    split_and!; try done; [by etrans| | | |].
    + cbn [length] in Hcnt. unfold recovered_total, count_recovered in *. destruct (recovery_policy _); cbn; lia.
    + intros j q Hj. destruct (Hin j q ltac:(by right)) as [Hq Hqx]. split; [|done]. apply Hf; try done.
      intros ->. apply Hnin. by apply (list_elem_of_fmap_2 fst _ (id, q)).
    + intros j q Hq Hqx. destruct (Hb j q Hq Hqx) as [Hq1 Hne]. destruct (Hback j q Hq1 Hqx) as [Hq0 Hl].
      split; [done|]. intros Hlx. specialize (Hl Hlx). cbn in Hl. by apply elem_of_cons in Hl as [->|?].
    + intros d Hd. by apply Hds2, Hds.
  - cbn [fst snd]. split_and!; try done.
    + intros id r [Hr Hx]%Hexp. split; [done|by eapply lease_expired_executing].
    + intros id r Hr Hx. split; [done|]. intros Hl. apply (list_elem_of_fmap_2 fst _ (id, r)). by apply Hexp.
  - destruct H as (Hok' & Hev & _ & Hcnt & _ & Hback & Hds). exists db', s. cbn [fst snd] in *.
    split_and!; try done; [cbn in Hcnt; lia|]. intros id r Hr Hx. destruct (Hback id r Hr Hx) as [Hr0 Hl].
    split; [done|]. apply not_true_iff_false. intros Hlx. by apply Hl, elem_of_nil in Hlx.
Qed.

(** ** The completions *)

Section completions.
Context (issued : list ClaimedCommand) (claim : ClaimedCommand) (db : EdgeDb).
Context (Hok : edge_ok issued db) (Hin : claim ∈ issued).

(** The claim completes: it was held, and nothing else starts to execute. *)
Definition completed (target_ : CommandState) (db' : EdgeDb) : Prop :=
  holds db claim ∧ good_step issued issued db db' ∧
  (∃ r', commands db' !! claim_command claim = Some r' ∧ row_state r' = target_) ∧
  (∀ id r, commands db !! id = Some r → id ≠ claim_command claim →
     ∃ r', commands db' !! id = Some r' ∧ (row_state r' = Executing → r' = r)) ∧
  (∀ d, is_Some (devices db !! d) → is_Some (devices db' !! d)).

Lemma finish_claim_ok now c db' :
  completion_ok claim c → finish_claim claim now c db = Ok db' → completed (target c) db'.
Proof.
  intros Hc H. destruct (finish_claim_step issued claim now c db Hok Hin Hc) as [(Hh & db2 & Hf & ? & ? & ? & ?)|[_ Hf]];
    [|congruence]. assert (db2 = db') as -> by congruence. by split_and!.
Qed.

Lemma complete_success_ok result_ now db' :
  complete_success claim result_ now db = Ok db' → completed Succeeded db'.
Proof.
  intros H. apply rbind_ok in H as (_ & _ & H). eapply finish_claim_ok in H; [done|].
  split_and!; try done. by intros [|].
Qed.

Lemma retryable_failure_ok message next limits agent now db' b :
  retryable_failure claim message next limits agent now db = Ok (db', b) →
  b = retry_exhausted claim limits ∧
  completed (if b then ManualReview else if bool_decide (claim_kind claim = RecoveryProbe)
                                         then RecoveryWait else RetryWait) db'.
Proof.
  intros H. apply rbind_ok in H as (m & _ & H). apply rbind_ok in H as (db2 & Hf & [= <- <-]).
  split; [done|]. eapply finish_claim_ok in Hf; [done|].
  destruct (retry_exhausted claim limits); [by split_and!; try done; intros [|]|].
  case_bool_decide as Hk; split_and!; try done; [by intros [|]|]. cbn. intros _. right; left.
  split; [done|]. by destruct (claim_kind claim).
Qed.

Lemma permanent_failure_ok message now db' :
  permanent_failure claim message now db = Ok db' → completed Failed db'.
Proof.
  intros H. apply rbind_ok in H as (m & _ & H). eapply finish_claim_ok in H; [done|].
  split_and!; try done. by intros [|].
Qed.

Lemma ambiguous_failure_ok message next agent now db' b :
  ambiguous_failure claim message next agent now db = Ok (db', b) →
  completed (recovery_target (recovery_policy (request (claim_envelope claim)))) db'.
Proof.
  intros H. apply rbind_ok in H as (m & _ & H). apply rbind_ok in H as (db2 & Hf & [= <- <-]).
  eapply finish_claim_ok in Hf; [done|]. unfold completion_ok. cbn.
  destruct (recovery_policy _); cbn; split_and!; try done; try by intros [|]. auto.
Qed.

Lemma defer_recovery_ok message next now db' :
  defer_recovery claim message next now db = Ok db' → completed RecoveryWait db'.
Proof.
  intros H. unfold defer_recovery in H. destruct (negb _) in H; [done|].
  apply rbind_ok in H as (m & _ & H). eapply finish_claim_ok in H; [done|].
  split_and!; try done. by intros [|].
Qed.

Lemma recovery_not_found_ok now db' :
  recovery_not_found claim now db = Ok db' → completed Queued db'.
Proof.
  intros H. unfold recovery_not_found in H. case_bool_decide as Hk; [|done]. cbn [negb] in H.
  eapply finish_claim_ok in H; [done|]. split_and!; try done. by left.
Qed.

Lemma require_manual_review_ok reason agent now db' :
  require_manual_review claim reason agent now db = Ok db' → completed ManualReview db'.
Proof.
  intros H. apply rbind_ok in H as (m & _ & H). eapply finish_claim_ok in H; [done|].
  split_and!; try done. by intros [|].
Qed.
End completions.

(** ** Every reachable store is good *)

Section reachability.
Context (to_vec : CommandRequest → list Z) (sha256 : list Z → list Z).

Lemma empty_edge_ok : edge_ok [] empty_edge_db.
Proof.
  assert (Hno : ∀ (A : Type) (k : rstr) (x : A), (∅ : gmap rstr A) !! k = Some x → False)
    by (intros A k x Hx; by rewrite lookup_empty in Hx).
  split; cbn; try (intros; exfalso; by eapply Hno).
  intros c Hc. by apply elem_of_nil in Hc.
Qed.

Lemma store_change_ok issued db db' :
  edge_ok issued db → store_change to_vec sha256 issued db db' → good_step issued issued db db'.
Proof.
  intros Hok Hs. destruct Hs;
    eauto using register_device_ok, mark_cloud_acknowledged_ok, mark_cloud_reported_ok, record_cloud_error_ok.
  - by eapply change_control_mode_ok in H as [? _].
  - by eapply record_heartbeat_ok in H as [? _].
  - by eapply record_heartbeat_failure_ok in H as [? _].
  - by eapply submit_with_cloud_ok in H as [? _].
  - by eapply resolve_manually_ok in H as [? _].
  - by eapply cancel_command_ok in H as [? _].
  - by eapply retry_after_review_ok in H as [? _].
  - destruct (recover_expired_leases_ok issued db agent now Hok) as (db2 & s2 & Hr & ? & _). congruence.
  - by eapply complete_success_ok in H0 as (_ & ? & _).
  - by eapply retryable_failure_ok in H0 as (_ & _ & ? & _).
  - by eapply permanent_failure_ok in H0 as (_ & ? & _).
  - by eapply ambiguous_failure_ok in H0 as (_ & ? & _).
  - by eapply defer_recovery_ok in H0 as (_ & ? & _).
  - by eapply recovery_not_found_ok in H0 as (_ & ? & _).
  - by eapply require_manual_review_ok in H0 as (_ & ? & _).
Qed.

Lemma edge_step_ok s s' :
  edge_step to_vec sha256 s s' → edge_ok s.2 s.1 → edge_ok s'.2 s'.1 ∧ evolves s.1 s'.1.
Proof.
  intros [issued db db' Hs|issued now lease mx tok aid db db' claim Hm Hs] Hok; cbn [fst snd] in *.
  - by eapply store_change_ok in Hs.
  - by eapply claim_next_ok in Hs as [? _].
Qed.

Lemma edge_steps_ok s s' :
  rtc (edge_step to_vec sha256) s s' → edge_ok s.2 s.1 → edge_ok s'.2 s'.1 ∧ evolves s.1 s'.1.
Proof.
  induction 1 as [|s s1 s2 Hs _ IH]; intros Hok; [by split|].
  destruct (edge_step_ok _ _ Hs Hok) as [Hok1 Hev1]. destruct (IH Hok1). split; [done|by etrans].
Qed.

Lemma edge_reachable_ok s : edge_reachable to_vec sha256 s → edge_ok s.2 s.1.
Proof. intros H. by apply (edge_steps_ok _ _ H empty_edge_ok). Qed.
End reachability.
