(* ===== verification/EdgeEngine.v ===== *)
(** * Edge agent: the engine ([apps/edge-agent/src/engine.rs])

    The loop that recovers expired leases, claims due commands and drives the
    device adapters. The adapters (drivers and the hardware behind them) and the
    UUID generator are a class [Adapters] over a world that each call may change.
    The engine is a state and error monad over the store and the world: what was
    committed before an error stays. [max_delta] and [max_instant] are the largest
    duration and instant of the date library, in nanoseconds. *)

From S2P Require Import Prelude.
From S2P Require Import RustStr.
From S2P Require Import EdgeTypes.
From S2P Require Import EdgeStore.

Record EngineConfig := MkEngineConfig {
  lease : Z;
  retry_delay : Z;
  retry_delay_cap : Z;
  max_attempts : Z;
  max_recovery_probes : Z;
  batch_size : Z;
}.

Inductive EngineError :=
| StoreFailed (e : StoreError)
| CommandRejected (e : CommandError)
| InvalidConfig (why : string)
| AdapterNotRegistered (device : rstr)
| AdapterConfigurationMismatch
| UnsupportedRecoveryPolicy
| TimeOverflow.

Definition EngineConfig_validate (self : EngineConfig) : result unit EngineError :=
  if lease self =? 0 then Err (InvalidConfig "lease must be positive")
  else if retry_delay self =? 0 then Err (InvalidConfig "retry delay must be positive")
  else if retry_delay_cap self <? retry_delay self
  then Err (InvalidConfig "retry delay cap must not be shorter than the base delay")
  else if max_attempts self =? 0 then Err (InvalidConfig "maximum attempts must be positive")
  else if max_recovery_probes self =? 0
  then Err (InvalidConfig "maximum recovery probes must be positive")
  else if negb ((1 <=? batch_size self) && (batch_size self <=? 1000))
  then Err (InvalidConfig "batch size must be between 1 and 1,000")
  else Ok tt.

Record RunSummary := MkSummary {
  recovered_leases : Z;
  claimed : Z;
  succeeded : Z;
  retryable_failures : Z;
  permanent_failures : Z;
  ambiguous_outcomes : Z;
  recovery_probes_run : Z;
  manual_review_count : Z;
}.

(** [AdapterRegistry] with its [DeviceAdapter]s, and [Uuid::new_v4]. *)
Class Adapters (W : Type) := {
  device_ids : W → list rstr;
  adapter_descriptor : W → rstr → option DeviceDescriptor;
  capabilities : W → rstr → AdapterCapabilities;
  heartbeat : rstr → W → W * result HealthReport AdapterFailure;
  execute : rstr → CommandEnvelope → W → W * result CommandResult AdapterFailure;
  recover : rstr → CommandEnvelope → W → W * result RecoveryOutcome AdapterFailure;
  new_v4 : W → W * rstr;
}.

(** ** The monad *)

Section monad.
Context {W : Type}.

Definition Engine (A : Type) : Type := EdgeDb * W → (EdgeDb * W) * result A EngineError.

Definition eret {A} (a : A) : Engine A := fun s => (s, Ok a).
Definition efail {A} (e : EngineError) : Engine A := fun s => (s, Err e).
Definition ebind {A B} (m : Engine A) (k : A → Engine B) : Engine B := fun s =>
  match m s with
  | (s', Ok a) => k a s'
  | (s', Err e) => (s', Err e)
  end.
Definition elift {A} (r : result A EngineError) : Engine A := fun s => (s, r).

(** A transaction of the store. *)
Definition store_call {A} (f : EdgeDb → result (EdgeDb * A) StoreError) : Engine A := fun s =>
  match f s.1 with
  | Ok (db, a) => ((db, s.2), Ok a)
  | Err e => (s, Err (StoreFailed e))
  end.
Definition store_unit (f : EdgeDb → result EdgeDb StoreError) : Engine unit :=
  store_call (fun db => rmap (fun db' => (db', tt)) (f db)).

Definition world_call {A} (f : W → W * A) : Engine A := fun s =>
  let '(w, a) := f s.2 in ((s.1, w), Ok a).
Definition world_read {A} (f : W → A) : Engine A := fun s => (s, Ok (f s.2)).
End monad.

Notation "'do!' x := e 'in' k" := (ebind e (fun x => k))
  (at level 10, x pattern, e at level 200, k at level 200,
   format "'[v' 'do!'  x  :=  e  'in' '/' k ']'") : rust_scope.

(** ** Retry delays *)

Section engine.
Context {W : Type} `{Adapters W} (max_delta max_instant : Z).
Context (config : EngineConfig) (agent_id : rstr).

(** [Duration::checked_mul]: seconds are a [u64]. *)
Definition duration_checked_mul (d n : Z) : option Z :=
  checked 0 ((u64_max + 1) * 1000000000 - 1) (d * n).

Definition retry_backoff (attempt_ : Z) : Z :=
  let exponent := Z.min (saturating_sub attempt_ 1) 31 in
  let multiplier := Z.shiftl 1 exponent in
  Z.min (default (retry_delay_cap config) (duration_checked_mul (retry_delay config) multiplier))
    (retry_delay_cap config).

Definition next_attempt_at (attempt_ now : Z) : result Z EngineError :=
  let delay := retry_backoff attempt_ in
  if (max_delta <? delay) || (max_instant <? now + delay) then Err TimeOverflow else Ok (now + delay).

Definition retry_limits : RetryLimits := MkLimits (max_attempts config) (max_recovery_probes config).

Definition retry_ordinal (claim : ClaimedCommand) : Z :=
  match claim_kind claim with
  | Execute => attempt (claim_envelope claim)
  | RecoveryProbe => claim_probe_count claim
  end.

(** ** Submission *)

Section submission.
Context (to_vec : CommandRequest → list Z) (sha256 : list Z → list Z).

Definition validate_submission (request_ : CommandRequest) (db : EdgeDb) (w : W) :
    result unit EngineError :=
  let? _ := map_err CommandRejected (CommandRequest_validate request_) in
  let? adapter := ok_or (adapter_descriptor w (device_id request_))
                    (AdapterNotRegistered (device_id request_)) in
  let? durable := map_err StoreFailed (load_device db (device_id request_)) in
  if negb (bool_decide (adapter = descriptor durable))
     || negb (bool_decide (d_tenant_id adapter = tenant_id request_))
     || negb (bool_decide (d_facility_id adapter = facility_id request_))
     || negb (bool_decide (d_class adapter = DeviceCommand_device_class (command request_)))
  then Err AdapterConfigurationMismatch
  else
    let c := capabilities w (device_id request_) in
    match recovery_policy request_ with
    | DeviceDeduplicatedReplay =>
        if negb (device_side_duplicate_protection c) then Err UnsupportedRecoveryPolicy else Ok tt
    | ProbeThenRetry => if negb (recovery_probe c) then Err UnsupportedRecoveryPolicy else Ok tt
    | ManualReviewPolicy => Ok tt
    end.

Definition engine_submit (request_ : CommandRequest) (cloud : option CloudDelivery) (now : Z) :
    Engine (W := W) SubmissionOutcome := fun s =>
  match validate_submission request_ s.1 s.2 with
  | Ok _ => store_call (submit_with_cloud to_vec sha256 request_ cloud now) s
  | Err e => (s, Err e)
  end.
End submission.

(** ** Heartbeats *)

Definition validated (report : HealthReport) : result unit EngineError :=
  map_err (fun _ => StoreFailed (CorruptRecord "health report")) (HealthReport_validate report).

Definition refresh_heartbeat (now : Z) (device : rstr) : Engine (W := W) DeviceStatus :=
  do! beat := world_call (heartbeat device) in
  match beat with
  | Ok report =>
      do! _ := elift (validated report) in
      store_call (record_heartbeat device report now)
  | Err failure => store_call (record_heartbeat_failure device failure now)
  end.

Fixpoint refresh_all (now : Z) (devices_ : list rstr) : Engine (W := W) (list DeviceStatus) :=
  match devices_ with
  | [] => eret []
  | d :: rest =>
      do! s := refresh_heartbeat now d in
      do! ss := refresh_all now rest in
      eret (s :: ss)
  end.

Definition refresh_heartbeats (now : Z) : Engine (W := W) (list DeviceStatus) :=
  do! ids := world_read device_ids in
  refresh_all now ids.

(** ** One claim *)

Definition count_manual (s : RunSummary) (n : Z) : RunSummary :=
  MkSummary (recovered_leases s) (claimed s) (succeeded s) (retryable_failures s)
    (permanent_failures s) (ambiguous_outcomes s) (recovery_probes_run s) (manual_review_count s + n).
Definition count_success (s : RunSummary) : RunSummary :=
  MkSummary (recovered_leases s) (claimed s) (succeeded s + 1) (retryable_failures s)
    (permanent_failures s) (ambiguous_outcomes s) (recovery_probes_run s) (manual_review_count s).
Definition count_retryable (s : RunSummary) : RunSummary :=
  MkSummary (recovered_leases s) (claimed s) (succeeded s) (retryable_failures s + 1)
    (permanent_failures s) (ambiguous_outcomes s) (recovery_probes_run s) (manual_review_count s).
Definition count_permanent (s : RunSummary) : RunSummary :=
  MkSummary (recovered_leases s) (claimed s) (succeeded s) (retryable_failures s)
    (permanent_failures s + 1) (ambiguous_outcomes s) (recovery_probes_run s) (manual_review_count s).
Definition count_ambiguous (s : RunSummary) : RunSummary :=
  MkSummary (recovered_leases s) (claimed s) (succeeded s) (retryable_failures s)
    (permanent_failures s) (ambiguous_outcomes s + 1) (recovery_probes_run s) (manual_review_count s).
Definition count_probe (s : RunSummary) : RunSummary :=
  MkSummary (recovered_leases s) (claimed s) (succeeded s) (retryable_failures s)
    (permanent_failures s) (ambiguous_outcomes s) (recovery_probes_run s + 1) (manual_review_count s).
Definition count_claim (s : RunSummary) : RunSummary :=
  MkSummary (recovered_leases s) (claimed s + 1) (succeeded s) (retryable_failures s)
    (permanent_failures s) (ambiguous_outcomes s) (recovery_probes_run s) (manual_review_count s).

Definition review (claim : ClaimedCommand) (reason : rstr) (now : Z) (summary : RunSummary) :
    Engine (W := W) RunSummary :=
  do! _ := store_unit (require_manual_review claim reason agent_id now) in
  eret (count_manual summary 1).

Definition retry (claim : ClaimedCommand) (message : rstr) (now : Z) (summary : RunSummary) :
    Engine (W := W) RunSummary :=
  do! next := elift (next_attempt_at (retry_ordinal claim) now) in
  do! exhausted := store_call (retryable_failure claim message next retry_limits agent_id now) in
  eret (count_manual (count_retryable summary) (Z.b2z exhausted)).

Definition handle_failure (claim : ClaimedCommand) (failure : AdapterFailure) (now : Z)
    (summary : RunSummary) : Engine (W := W) RunSummary :=
  match failure_class failure with
  | RetryableFailure => retry claim (failure_message failure) now summary
  | PermanentFailure =>
      if bool_decide (claim_kind claim = RecoveryProbe) then
        review claim (lit "recovery probe failed permanently: " ++ failure_message failure) now summary
      else
        do! _ := store_unit (permanent_failure claim (failure_message failure) now) in
        eret (count_permanent summary)
  | AmbiguousFailure =>
      do! next := elift (next_attempt_at (retry_ordinal claim) now) in
      do! manual := store_call (ambiguous_failure claim (failure_message failure) next agent_id now) in
      eret (count_manual (count_ambiguous summary) (Z.b2z manual))
  end.

Definition health_name (s : HealthState) : rstr :=
  lit match s with
      | Unknown => "unknown" | Healthy => "healthy" | Degraded => "degraded"
      | Offline => "offline" | Faulted => "faulted"
      end.

Definition succeed (claim : ClaimedCommand) (r : CommandResult) (now : Z) (summary : RunSummary) :
    Engine (W := W) RunSummary :=
  do! _ := store_unit (complete_success claim r now) in
  eret (count_success summary).

(** The part of [process_claim] for a device that answers healthily. *)
Definition drive (claim : ClaimedCommand) (now : Z) (summary : RunSummary) : Engine (W := W) RunSummary :=
  let device := device_id (request (claim_envelope claim)) in
  match claim_kind claim with
  | Execute =>
      do! answer := world_call (execute device (claim_envelope claim)) in
      match answer with
      | Ok r => succeed claim r now summary
      | Err failure => handle_failure claim failure now summary
      end
  | RecoveryProbe =>
      let summary := count_probe summary in
      do! answer := world_call (recover device (claim_envelope claim)) in
      match answer with
      | Ok (Completed r) => succeed claim r now summary
      | Ok StillProcessing =>
          if max_recovery_probes config <=? claim_probe_count claim then
            review claim (lit "downstream command exceeded its recovery-probe budget") now summary
          else
            do! next := elift (next_attempt_at (claim_probe_count claim) now) in
            do! _ := store_unit (defer_recovery claim (lit "downstream command is still processing")
                                   next now) in
            eret summary
      | Ok NotFound =>
          if max_attempts config <=? attempt (claim_envelope claim) then
            review claim (lit "recovery found no downstream command, but the execution retry budget is exhausted")
              now summary
          else
            do! _ := store_unit (recovery_not_found claim now) in
            eret summary
      | Ok (NeedsReview reason) => review claim reason now summary
      | Err failure => handle_failure claim failure now summary
      end
  end.

Definition missing_capability (policy : RecoveryPolicy) (c : AdapterCapabilities) : bool :=
  match policy with
  | DeviceDeduplicatedReplay => negb (device_side_duplicate_protection c)
  | ProbeThenRetry => negb (recovery_probe c)
  | ManualReviewPolicy => false
  end.

Definition process_claim (claim : ClaimedCommand) (now : Z) (summary : RunSummary) :
    Engine (W := W) RunSummary :=
  let request_ := request (claim_envelope claim) in
  let device := device_id request_ in
  do! adapter := world_read (fun w => adapter_descriptor w device) in
  match adapter with
  | None => review claim (lit "no adapter is registered for this durable device command") now summary
  | Some adapter =>
      if negb (bool_decide (d_tenant_id adapter = tenant_id request_))
         || negb (bool_decide (d_facility_id adapter = facility_id request_))
         || negb (bool_decide (d_class adapter = DeviceCommand_device_class (command request_)))
      then review claim (lit "adapter configuration changed after command persistence") now summary
      else
        do! c := world_read (fun w => capabilities w device) in
        if missing_capability (recovery_policy request_) c
        then review claim (lit "adapter recovery capabilities changed after command persistence") now summary
        else
          do! beat := world_call (heartbeat device) in
          match beat with
          | Err failure =>
              do! _ := store_call (record_heartbeat_failure device failure now) in
              handle_failure claim failure now summary
          | Ok report =>
              do! _ := elift (validated report) in
              do! _ := store_call (record_heartbeat device report now) in
              if permits_automatic_work (report_state report) then drive claim now summary
              else
                let message := default (lit "device health is " ++ health_name (report_state report))
                                 (report_message report) in
                if bool_decide (report_state report = Faulted) then review claim message now summary
                else retry claim message now summary
          end
  end.

(** ** One pass *)

Fixpoint claim_loop (batch : nat) (now : Z) (summary : RunSummary) : Engine (W := W) RunSummary :=
  match batch with
  | O => eret summary
  | S batch =>
      do! token := world_call new_v4 in
      do! attempt_id := world_call new_v4 in
      do! claim := store_call (claim_next now (lease config) (max_attempts config) token attempt_id) in
      match claim with
      | None => eret summary
      | Some claim =>
          do! summary := process_claim claim now (count_claim summary) in
          claim_loop batch now summary
      end
  end.

Definition run_once (now : Z) : Engine (W := W) RunSummary :=
  do! recovered := store_call (recover_expired_leases now agent_id) in
  claim_loop (Z.to_nat (batch_size config)) now
    (MkSummary (replayable recovered + probes_required recovered + manual_reviews recovered)
       0 0 0 0 0 0 (manual_reviews recovered)).
End engine.
