(* ===== verification/EdgeEngineFacts.v ===== *)
(** * Edge agent: the engine drives the store by its own steps

    A small program logic for the engine's monad ([wp]), and what a pass does to the
    store: whatever the adapters answer, it takes steps of the store only, and every
    claim of a pass that ends well is completed. *)

From S2P Require Import Prelude.
From S2P Require Import RustStr.
From S2P Require Import EdgeTypes.
From S2P Require Import EdgeStore.
From S2P Require Import EdgeInvariant.
From S2P Require Import EdgeStoreFacts.
From S2P Require Import EdgeEngine.

Section wp.
Context {W : Type}.

Definition wp {A} (m : Engine (W := W) A) (Q : EdgeDb * W → result A EngineError → Prop)
    (s : EdgeDb * W) : Prop := let '(s', x) := m s in Q s' x.

Lemma wp_bind {A B} (m : Engine (W := W) A) (k : A → Engine B) Q s :
  wp m (fun s' x => match x with Ok a => wp (k a) Q s' | Err e => Q s' (Err e) end) s →
  wp (ebind m k) Q s.
Proof. unfold wp, ebind. destruct (m s) as [s' [a|e]]; done. Qed.

Lemma wp_mono {A} (m : Engine (W := W) A) (Q Q' : EdgeDb * W → result A EngineError → Prop) s :
  wp m Q s → (∀ s' x, Q s' x → Q' s' x) → wp m Q' s.
Proof. unfold wp. destruct (m s) as [s' x]. auto. Qed.

Lemma wp_world {A} (f : W → W * A) Q s :
  (∀ w a, Q (s.1, w) (Ok a)) → wp (world_call f) Q s.
Proof. unfold wp, world_call. destruct (f s.2). auto. Qed.

Lemma wp_read {A} (f : W → A) Q s : (∀ a, Q s (Ok a)) → wp (world_read f) Q s.
Proof. unfold wp, world_read. auto. Qed.

Lemma wp_lift {A} (r : result A EngineError) Q s : Q s r → wp (elift r) Q s.
Proof. done. Qed.
End wp.

Section claim.
Context {W : Type} `{Adapters W} (max_delta max_instant : Z) (config : EngineConfig) (agent : rstr).
Context (to_vec : CommandRequest → list Z) (sha256 : list Z → list Z).
Context (issued : list ClaimedCommand) (claim : ClaimedCommand) (Hin : claim ∈ issued).
Context (db0 : EdgeDb).
Abbreviation path := (rtc (edge_step to_vec sha256)).
Implicit Types (s : EdgeDb * W) (sum : RunSummary).

(** While the claim is being processed, and once it is completed. *)
Record running s : Prop := {
  run_ok : edge_ok issued s.1;
  run_path : path (db0, issued) (s.1, issued);
  run_commands : commands s.1 = commands db0;
}.

Record settled_claim s : Prop := {
  end_ok : edge_ok issued s.1;
  end_path : path (db0, issued) (s.1, issued);
  end_claim : ∃ r, commands s.1 !! claim_command claim = Some r ∧ row_state r ≠ Executing;
  end_others : ∀ id r, commands db0 !! id = Some r → id ≠ claim_command claim →
    ∃ r', commands s.1 !! id = Some r' ∧ (row_state r' = Executing → r' = r);
}.

Definition outcomes sum : Z :=
  succeeded sum + retryable_failures sum + permanent_failures sum + ambiguous_outcomes sum.

(** One claim is counted at most once. *)
Definition counted sum sum' : Prop :=
  claimed sum' = claimed sum ∧ recovered_leases sum' = recovered_leases sum ∧
  outcomes sum ≤ outcomes sum' ≤ outcomes sum + 1.

Definition processed sum s (x : result RunSummary EngineError) : Prop :=
  path (db0, issued) (s.1, issued) ∧
  match x with Ok sum' => settled_claim s ∧ counted sum sum' | Err _ => True end.

Lemma processed_error sum s e : running s → processed sum s (Err e).
Proof. intros []. by split. Qed.

(** A completing transaction. *)
Lemma wp_complete {A} (f : EdgeDb → result (EdgeDb * A) StoreError) (t : A → CommandState)
    (k : A → RunSummary) sum s :
  running s → (∀ a, t a ≠ Executing) → (∀ a, counted sum (k a)) →
  (∀ db' a, f s.1 = Ok (db', a) → store_change to_vec sha256 issued s.1 db' ∧
     completed issued claim s.1 (t a) db') →
  wp (ebind (store_call f) (fun a => eret (k a))) (processed sum) s.
Proof.
  intros [Hok Hpath Hcmd] Ht Hk Hf. apply wp_bind. unfold wp at 1, store_call.
  destruct (f s.1) as [[db' a]|e] eqn:E; [|by split]. destruct (Hf db' a eq_refl) as [Hstep Hdone].
  assert (Hp : path (db0, issued) (db', issued)) by (eapply rtc_r; [exact Hpath|by constructor]).
  unfold wp, eret. split; [done|]. split; [|apply Hk].
  destruct Hdone as (_ & [Hok' _] & (r' & Hr' & Hst) & Hoth & _). split; cbn [fst]; try done.
  - exists r'. split; [done|]. by rewrite Hst.
  - intros id r Hr Hne. rewrite <-Hcmd in Hr. eauto.
Qed.

Lemma wp_complete_unit (f : EdgeDb → result EdgeDb StoreError) t sum sum' s :
  running s → t ≠ Executing → counted sum sum' →
  (∀ db', f s.1 = Ok db' → store_change to_vec sha256 issued s.1 db' ∧ completed issued claim s.1 t db') →
  wp (ebind (store_unit f) (fun _ => eret sum')) (processed sum) s.
Proof.
  intros Hrun Ht Hk Hf. apply (wp_complete _ (fun _ => t) (fun _ => sum')); try done.
  intros db' a E. unfold rmap in E. destruct (f s.1) as [db2|] eqn:E2; [|done]. injection E as <- _. by apply Hf.
Qed.

Lemma wp_after_time {A} (r : result A EngineError) (k : A → Engine RunSummary) sum s :
  running s → (∀ a, wp (k a) (processed sum) s) → wp (ebind (elift r) k) (processed sum) s.
Proof.
  intros Hrun Hk. apply wp_bind, wp_lift. destruct r as [a|e]; [apply Hk|by apply processed_error].
Qed.

Ltac counting := unfold counted, outcomes in *; cbn; lia.

Lemma review_processed reason now sum sum' s :
  running s → counted sum sum' → wp (review agent claim reason now sum') (processed sum) s.
Proof.
  intros Hrun Hc. apply (wp_complete_unit _ ManualReview); [done|done|counting|].
  intros db' E. split; [by eapply change_review|]. by eapply require_manual_review_ok; [apply Hrun|..].
Qed.

Lemma retry_processed message now sum s :
  running s → ∀ sum', claimed sum' = claimed sum → recovered_leases sum' = recovered_leases sum →
  outcomes sum' = outcomes sum →
  wp (retry max_delta max_instant config agent claim message now sum') (processed sum) s.
Proof.
  intros Hrun sum' H1 H2 H3. apply wp_after_time; [done|]. intros next.
  apply (wp_complete _ (fun b => if b : bool then ManualReview
    else if bool_decide (claim_kind claim = RecoveryProbe) then RecoveryWait else RetryWait)); [done| | |].
  - intros []; [done|]. by case_bool_decide.
  - intros b. unfold counted, outcomes in *. cbn. lia.
  - intros db' b E. split; [by eapply change_retryable|].
    by eapply retryable_failure_ok in E as [_ ?]; [|apply Hrun|..].
Qed.

Lemma handle_failure_processed failure now sum s :
  running s → ∀ sum', claimed sum' = claimed sum → recovered_leases sum' = recovered_leases sum →
  outcomes sum' = outcomes sum →
  wp (handle_failure max_delta max_instant config agent claim failure now sum') (processed sum) s.
Proof.
  intros Hrun sum' H1 H2 H3. unfold handle_failure. destruct (failure_class failure).
  - by apply retry_processed.
  - case_bool_decide; [apply review_processed; [done|counting]|].
    apply (wp_complete_unit _ Failed); [done|done|counting|]. intros db' E.
    split; [by eapply change_permanent|]. by eapply permanent_failure_ok; [apply Hrun|..].
  - apply wp_after_time; [done|]. intros next.
    apply (wp_complete _ (fun _ => recovery_target (recovery_policy (request (claim_envelope claim))))); [done| | |].
    + intros _. by destruct (recovery_policy _).
    + intros b. unfold counted, outcomes in *. cbn. lia.
    + intros db' b E. split; [by eapply change_ambiguous|]. by eapply ambiguous_failure_ok; [apply Hrun|..].
Qed.

Lemma running_world s w : running s → running (s.1, w).
Proof. by intros []. Qed.

Lemma succeed_processed r now sum s :
  running s → ∀ sum', claimed sum' = claimed sum → recovered_leases sum' = recovered_leases sum →
  outcomes sum' = outcomes sum → wp (succeed claim r now sum') (processed sum) s.
Proof.
  intros Hrun sum' H1 H2 H3. apply (wp_complete_unit _ Succeeded); [done|done|counting|].
  intros db' E. split; [by eapply change_success|]. by eapply complete_success_ok; [apply Hrun|..].
Qed.

Lemma drive_processed now sum s :
  running s → wp (drive max_delta max_instant config agent claim now sum) (processed sum) s.
Proof.
  intros Hrun. unfold drive. destruct (claim_kind claim) eqn:Hk.
  - apply wp_bind, wp_world. intros w [r|failure]; apply (running_world _ w) in Hrun.
    + by apply succeed_processed.
    + by apply handle_failure_processed.
  - apply wp_bind, wp_world. intros w answer. apply (running_world _ w) in Hrun.
    destruct answer as [[r| | |reason]|failure].
    + by apply succeed_processed.
    + destruct (_ <=? _); [apply review_processed; [done|counting]|].
      apply wp_after_time; [done|]. intros next. apply (wp_complete_unit _ RecoveryWait); [done|done|counting|].
      intros db' E. split; [by eapply change_defer|]. by eapply defer_recovery_ok; [apply Hrun|..].
    + destruct (_ <=? _); [apply review_processed; [done|counting]|].
      apply (wp_complete_unit _ Queued); [done|done|counting|].
      intros db' E. split; [by eapply change_not_found|]. by eapply recovery_not_found_ok; [apply Hrun|..].
    + apply review_processed; [done|counting].
    + by apply handle_failure_processed.
Qed.

Lemma running_heartbeat device report now s db' st :
  running s → record_heartbeat device report now s.1 = Ok (db', st) → running (db', s.2).
Proof.
  intros [Hok Hp Hc] E. pose proof (record_heartbeat_ok issued _ _ _ _ _ _ Hok E) as ([Hok' _] & Hc' & _).
  split; cbn [fst]; [done| |congruence]. eapply rtc_r; [exact Hp|]. constructor. by eapply change_heartbeat.
Qed.

Lemma process_claim_processed now sum s :
  running s → wp (process_claim max_delta max_instant config agent claim now sum) (processed sum) s.
Proof.
  intros Hrun. unfold process_claim. apply wp_bind, wp_read. intros [adapter|]; [|apply review_processed; [done|counting]].
  destruct (_ || _); [apply review_processed; [done|counting]|]. apply wp_bind, wp_read. intros c.
  destruct (missing_capability _ _); [apply review_processed; [done|counting]|].
  apply wp_bind, wp_world. intros w [report|failure]; apply (running_world _ w) in Hrun.
  - apply wp_after_time; [done|]. intros _. apply wp_bind. unfold wp at 1, store_call.
    destruct (record_heartbeat _ _ _ _) as [[db' st]|e] eqn:E; [|by apply processed_error].
    pose proof (running_heartbeat _ _ _ _ _ _ Hrun E) as Hrun'.
    destruct (permits_automatic_work _); [by apply drive_processed|].
    case_bool_decide; [apply review_processed; [done|counting]|by apply retry_processed].
  - apply wp_bind. unfold wp at 1, store_call.
    destruct (record_heartbeat_failure _ _ _ _) as [[db' st]|e] eqn:E; [|by apply processed_error].
    apply handle_failure_processed; try done. unfold record_heartbeat_failure in E.
    apply rbind_ok in E as (m & _ & E). by eapply (running_heartbeat _ _ _ (s.1, w)).
Qed.
End claim.

(** ** Parts that do not touch the hardware *)

Section world.
Context {W : Type} `{Adapters W} (max_delta max_instant : Z) (config : EngineConfig) (agent : rstr).

Definition leaves_world {A} (m : Engine (W := W) A) : Prop := ∀ s, snd (m s).1 = snd s.

Lemma leaves_bind {A B} (m : Engine (W := W) A) (k : A → Engine B) :
  leaves_world m → (∀ a, leaves_world (k a)) → leaves_world (ebind m k).
Proof.
  intros Hm Hk s. unfold ebind. specialize (Hm s). destruct (m s) as [s' [a|e]]; [|done].
  rewrite <-Hm. apply Hk.
Qed.

Lemma ebind_read {A B} (f : W → A) (k : A → Engine (W := W) B) s :
  ebind (world_read f) k s = k (f s.2) s.
Proof. done. Qed.

Lemma ebind_world {A B} (f : W → W * A) (k : A → Engine (W := W) B) s :
  ebind (world_call f) k s = k (f s.2).2 (s.1, (f s.2).1).
Proof. unfold ebind, world_call. by destruct (f s.2). Qed.

Lemma leaves_store {A} (f : EdgeDb → result (EdgeDb * A) StoreError) :
  leaves_world (store_call f).
Proof. intros s. unfold store_call. by destruct (f s.1) as [[]|]. Qed.

Lemma leaves_lift {A} (r : result A EngineError) : leaves_world (elift r).
Proof. done. Qed.

Lemma leaves_ret {A} (a : A) : leaves_world (eret a).
Proof. done. Qed.

Lemma review_leaves claim reason now sum : leaves_world (review agent claim reason now sum).
Proof. apply leaves_bind; [apply leaves_store|]. intros _. apply leaves_ret. Qed.

Lemma retry_leaves claim message now sum :
  leaves_world (retry max_delta max_instant config agent claim message now sum).
Proof.
  apply leaves_bind; [apply leaves_lift|]. intros next.
  apply leaves_bind; [apply leaves_store|]. intros b. apply leaves_ret.
Qed.

Lemma handle_failure_leaves claim failure now sum :
  leaves_world (handle_failure max_delta max_instant config agent claim failure now sum).
Proof.
  unfold handle_failure. destruct (failure_class failure); [apply retry_leaves| |].
  - case_bool_decide; [apply review_leaves|].
    apply leaves_bind; [apply leaves_store|]. intros b. apply leaves_ret.
  - apply leaves_bind; [apply leaves_lift|]. intros next.
    apply leaves_bind; [apply leaves_store|]. intros b. apply leaves_ret.
Qed.
End world.
