(* ===== verification/EdgeGuarantees.v ===== *)
(** * What the edge agent guarantees

    The safety and recovery contract of [docs/operations/edge-agent.md], over every
    store that the methods of [EdgeStore] can reach in any interleaving, and over a
    pass of the engine. *)

From S2P Require Import Prelude.
From S2P Require Import RustStr.
From S2P Require Import EdgeTypes.
From S2P Require Import EdgeStore.
From S2P Require Import EdgeInvariant.
From S2P Require Import EdgeStoreFacts.
From S2P Require Import EdgeEngine.
From S2P Require Import EdgeEngineFacts.

(** C40. Messages and panics: a failure message is stored trimmed, whole when it has at
    most 1000 bytes and otherwise cut to exactly 1000; when the 1000th byte falls
    inside a character nothing is stored, because the call panics. *)
Theorem message_truncation message m :
  m = (if bool_decide (trim message = []) then lit "no detail supplied" else trim message) →
  (∀ t, truncate_message message = Ok t ↔
     (str_len m ≤ 1000 ∧ t = m) ∨ ∃ rest, rest ≠ [] ∧ m = t ++ rest ∧ str_len t = 1000) ∧
  (truncate_message message = Err Panicked ↔
     1000 < str_len m ∧ ∀ t rest, m = t ++ rest → str_len t ≠ 1000).
Proof.
  intros ->. unfold truncate_message. cbn zeta. set (m := if bool_decide _ then _ else _).
  pose proof (truncate_bytes_spec 1000 m) as Hspec. unfold MAX_PERSISTED_MESSAGE_LENGTH.
  assert (Hok : ∀ t, ok_or (truncate_bytes 1000 m) Panicked = Ok t ↔ truncate_bytes 1000 m = Some t)
    by (intros t; destruct (truncate_bytes 1000 m); cbn; naive_solver).
  split; [intros t; rewrite Hok; by apply Hspec|].
  destruct (truncate_bytes 1000 m) as [t|] eqn:E; cbn; (split; [|]).
  - done.
  - intros [Hlen Hno].
    destruct (proj1 (Hspec t ltac:(lia)) eq_refl) as [[? _]|(rest & _ & Em & Ht)]; [lia|]. by destruct (Hno t rest Em).
  - intros _. split.
    + apply Z.nle_gt. intros Hle. by assert (None = Some m) by (apply Hspec; [lia|by left]).
    + intros t rest Em Ht. assert (rest ≠ [] → False).
      { intros Hr. assert (None = Some t) by (apply Hspec; [lia|right; eauto]). done. }
      destruct rest; [|naive_solver]. rewrite app_nil_r in Em.
      assert (None = Some m) by (apply Hspec; [lia|left; rewrite Em at 1; split; [lia|done]]). done.
  - done.
Qed.
Section store.
Context (to_vec : CommandRequest → list Z) (sha256 : list Z → list Z).
Abbreviation step := (edge_step to_vec sha256).
Abbreviation reachable := (edge_reachable to_vec sha256).

(** C31. No blind replay: a command is handed to the device again only when its
    latest attempt is known not to have been carried out (the adapter said that the
    controller refused it for now, or a recovery probe found it absent), when the
    device deduplicates, or when the last thing that happened to it is that an
    operator sent it back from review. *)
Theorem no_blind_replay db issued now lease_ mx token attempt_id db' claim :
  reachable (db, issued) → in_u32 mx →
  claim_next now lease_ mx token attempt_id db = Ok (db', Some claim) → claim_kind claim = Execute →
  ∀ aid a, latest db (claim_command claim) aid a →
    (attempt_state a = NotFoundAttempt ∧ attempt_kind a = RecoveryProbe) ∨
    (attempt_state a = RetryableAttempt ∧ attempt_kind a = Execute) ∨
    recovery_policy (request (claim_envelope claim)) = DeviceDeduplicatedReplay ∨
    approved db (claim_command claim).
Proof.
  intros Hok%edge_reachable_ok Hmx Hc Hk aid a Ha. cbn in Hok.
  destruct (claim_next_ok _ _ _ _ _ _ _ _ _ Hok Hmx Hc) as (_ & r & Hr & Hcl & Hreq & Hkind & _).
  apply edge_claimable_spec in Hcl as (Hst & _). case_bool_decide as Hrec; [congruence|].
  rewrite Hreq. destruct (command_may_send _ _ _ (commands_ok _ _ Hok _ _ Hr)) with aid a as [[|]|[|]]; auto.
  naive_solver.
Qed.

(** C32. Control of a device: a device that is not in automatic mode has no command
    that is queued, executing or waiting for a retry or a probe, and a device never
    executes two commands at once. *)
Theorem device_control db issued :
  reachable (db, issued) →
  (∀ dev d id r, devices db !! dev = Some d → control_mode d ≠ Automatic →
     commands db !! id = Some r → device_id (row_request r) = dev → is_pending (row_state r) = false) ∧
  (∀ i j r s, commands db !! i = Some r → commands db !! j = Some s →
     row_state r = Executing → row_state s = Executing →
     device_id (row_request r) = device_id (row_request s) → i = j).
Proof.
  intros Hok%edge_reachable_ok. cbn in Hok. split; [|apply (one_executing _ _ Hok)].
  intros dev d id r Hd Hm Hr <-. apply not_true_iff_false. intros Hp.
  pose proof (command_control _ _ _ (commands_ok _ _ Hok id r Hr) Hp) as Ha.
  unfold device_automatic in Ha. rewrite Hd in Ha. by apply bool_decide_eq_true in Ha.
Qed.

(** A revoked execution cannot commit: once the command of a claim is no longer
    executing (it was quarantined, its lease was recovered, or it was completed),
    no completion with that claim is accepted, then or later, whatever happened to
    the command in between. *)
Theorem revoked_claim_refused db issued claim r db2 issued2 :
  reachable (db, issued) → claim ∈ issued → commands db !! claim_command claim = Some r →
  row_state r ≠ Executing → rtc step (db, issued) (db2, issued2) →
  (∀ now c, finish_claim claim now c db2 = Err (LeaseMismatch (claim_command claim))) ∧
  (∀ now result_ db3, complete_success claim result_ now db2 ≠ Ok db3).
Proof.
  intros Hok%edge_reachable_ok Hin Hr Hx Hp. cbn in Hok.
  destruct (claims_genuine _ _ Hok claim Hin) as (a & r' & Ha & Hac & _).
  assert (Hna : attempt_state a ≠ ActiveAttempt).
  { intros Hact. destruct (attempt_owner _ _ Hok _ _ Ha) as (q & Hq & Hqx). rewrite Hac in Hq. naive_solver. }
  destruct (edge_steps_ok _ _ _ _ Hp Hok) as [Hok2 [_ Hatt]]. cbn in Hok2, Hatt.
  destruct (Hatt _ _ Ha) as (a' & Ha' & _ & _ & _ & Hsame). rewrite (Hsame Hna) in Ha'.
  assert (Hfin : ∀ now c, finish_claim claim now c db2 = Err (LeaseMismatch (claim_command claim))).
  { intros now c. unfold finish_claim. rewrite Ha'. destruct (commands db2 !! _) as [q|]; [|done].
    destruct (negb _); [done|]. assert (is_active_of (claim_command claim) a = false) as ->; [|done].
    apply not_true_iff_false. by intros [_ ?]%is_active_of_spec. }
  split; [done|]. intros now res db3 H. apply rbind_ok in H as (_ & _ & H). by rewrite Hfin in H.
Qed.

(** C33. The record of a command is final and immutable: a command never disappears,
    its request never changes, and once it has succeeded, failed, been resolved or
    been cancelled its row never changes again; a finished attempt never changes. *)
Theorem record_is_immutable db issued db2 issued2 :
  reachable (db, issued) → rtc step (db, issued) (db2, issued2) →
  (∀ id r, commands db !! id = Some r → ∃ r', commands db2 !! id = Some r' ∧
     row_request r' = row_request r ∧ (CommandState_is_terminal (row_state r) = true → r' = r)) ∧
  (∀ aid a, attempts db !! aid = Some a → attempt_state a ≠ ActiveAttempt →
     attempts db2 !! aid = Some a).
Proof.
  intros Hok%edge_reachable_ok Hp. destruct (edge_steps_ok _ _ _ _ Hp Hok) as [_ [Hc Ha]]. cbn in *.
  split; [done|]. intros aid a Haid Hs. destruct (Ha _ _ Haid) as (a' & Ha' & _ & _ & _ & E).
  by rewrite (E Hs) in Ha'.
Qed.

(** Submission is idempotent: a request that was accepted and is submitted again,
    however much later, is answered with the record of the first submission and
    changes nothing; a different request that uses the command id, or within the
    same device the correlation id or the idempotency key, is refused. No other
    request has the same encoding. *)
Theorem resubmission_replays db issued now request_ cloud db1 r db2 issued2 now2 :
  (∀ other, to_vec other = to_vec request_ → other = request_) →
  reachable (db, issued) → submit_with_cloud to_vec sha256 request_ cloud now db = Ok (db1, Accepted r) →
  rtc step (db1, issued) (db2, issued2) →
  (∃ r2, submit to_vec sha256 request_ now2 db2 = Ok (db2, Replayed r2) ∧ row_request r2 = request_) ∧
  ∀ other cloud2 x, other ≠ request_ → same_identity request_ other = true →
    submit_with_cloud to_vec sha256 other cloud2 now2 db2 ≠ Ok x.
Proof.
  intros Hinj Hok%edge_reachable_ok Hsub Hp. cbn in Hok.
  destruct (submit_with_cloud_ok to_vec sha256 issued _ _ _ _ _ _ Hok Hsub) as ([Hok1 _] & Hc1 & Hreq & _).
  destruct (edge_steps_ok _ _ _ _ Hp Hok1) as [Hok2 [Hstay _]]. cbn in Hok2, Hstay.
  destruct (Hstay (command_id request_) r) as (r2 & Hr2 & Hreq2 & _); [by rewrite Hc1, lookup_insert_eq|].
  rewrite Hreq in Hreq2.
  assert (Hcand : ∀ other, same_identity request_ other = true →
    command_id request_ ∈ command_identity_candidates db2 other).
  { intros other Hs. apply candidates_spec. exists r2. split; [done|]. by rewrite Hreq2, same_identity_sym. }
  split.
  - exists r2. split; [|done].
    assert (command_identity_candidates db2 request_ = [command_id request_]) as Hone.
    { assert (Hself : same_identity request_ request_ = true) by (unfold same_identity; by rewrite bool_decide_true).
      apply Permutation_singleton_r. apply NoDup_Permutation.
      - apply NoDup_filter_bool, NoDup_fst_map_to_list.
      - apply NoDup_singleton.
      - intros id. rewrite list_elem_of_singleton. split; [|intros ->; by apply Hcand].
        intros (q & Hq & Hs)%candidates_spec. apply (identities _ _ Hok2 id _ q r2); [done..|].
        by rewrite Hreq2, same_identity_sym. }
    destruct (command_scope _ _ _ (commands_ok _ _ Hok2 _ _ Hr2)) as (d & Hd & Ht & Hf & Hcl).
    rewrite Hreq2 in Hd, Ht, Hf, Hcl. unfold submit, submit_with_cloud.
    apply rbind_ok in Hsub as (u & Hv & _). rewrite Hv. cbn [rbind]. unfold load_device. rewrite Hd. cbn [ok_or rbind].
    rewrite Ht, Hf, Hcl, !bool_decide_true by done. cbn [negb orb]. rewrite Hone. unfold load_command. rewrite Hr2.
    cbn [ok_or rbind]. rewrite Hreq2, !bool_decide_true by done. done.
  - intros other cloud2 [db3 o] Hne Hs H.
    destruct (submit_with_cloud_ok to_vec sha256 issued2 _ _ _ _ _ _ Hok2 H) as (_ & Ho). destruct o as [r3|r3].
    + destruct Ho as (_ & _ & Hnil). specialize (Hcand _ Hs). rewrite Hnil in Hcand. by apply elem_of_nil in Hcand.
    + destruct Ho as (_ & id & Hid & Hone & He). specialize (Hcand _ Hs). rewrite Hone in Hcand.
      apply list_elem_of_singleton in Hcand as <-. assert (r3 = r2) as -> by congruence.
      rewrite Hreq2 in He. by symmetry in He; apply Hinj in He.
Qed.

(** A command that is sent back from review keeps its count of attempts, so one
    that exhausted its budget is accepted for a retry but never sent: no claim
    under that budget returns it while it waits. *)
Theorem retry_of_exhausted_is_stranded db issued id actor reason now db' r mx :
  reachable (db, issued) → retry_after_review id actor reason now db = Ok (db', r) →
  in_u32 mx → mx ≤ attempt_count r →
  row_state r = Queued ∧ ∀ now2 lease_ token attempt_id db2 claim,
    claim_next now2 lease_ mx token attempt_id db' = Ok (db2, Some claim) → claim_command claim ≠ id.
Proof.
  intros Hok%edge_reachable_ok H Hmx Hle. cbn in Hok.
  destruct (retry_after_review_ok _ _ _ _ _ _ _ _ Hok H) as ([Hok' _] & r0 & _ & _ & Hr & Hst & _).
  split; [done|]. intros now2 lease_ token attempt_id db2 claim Hc E.
  destruct (claim_next_ok _ _ _ _ _ _ _ _ _ Hok' Hmx Hc) as (_ & q & Hq & Hcl & _). rewrite E in Hq.
  assert (q = r) as -> by congruence. apply edge_claimable_spec in Hcl as (_ & _ & _ & [?|?] & _); [congruence|lia].
Qed.
End store.

(** ** The engine *)

Section engine.
Context {W : Type} `{Adapters W} (max_delta max_instant : Z) (config : EngineConfig) (agent : rstr).
Context (to_vec : CommandRequest → list Z) (sha256 : list Z → list Z).
Abbreviation path := (rtc (edge_step to_vec sha256)).

(** What a number of claims does. *)
Definition looped (batch : nat) (now : Z) (issued : list ClaimedCommand) (db : EdgeDb)
    (sum : RunSummary) (s : EdgeDb * W) (x : result RunSummary EngineError) : Prop :=
  ∃ issued', path (db, issued) (s.1, issued') ∧
  match x with
  | Ok sum' =>
      claimed sum ≤ claimed sum' ≤ claimed sum + Z.of_nat batch ∧
      recovered_leases sum' = recovered_leases sum ∧
      outcomes sum ≤ outcomes sum' ≤ outcomes sum + (claimed sum' - claimed sum) ∧
      (∀ id r, commands db !! id = Some r → ∃ r', commands s.1 !! id = Some r' ∧
         (row_state r' = Executing → r' = r)) ∧
      (claimed sum' < claimed sum + Z.of_nat batch →
         candidate now (max_attempts config) s.1 = None)
  | Err _ => True
  end.

Lemma claim_loop_looped batch now : in_u32 (max_attempts config) → ∀ issued sum (s : EdgeDb * W),
  edge_ok issued s.1 →
  wp (claim_loop max_delta max_instant config agent batch now sum) (looped batch now issued s.1 sum) s.
Proof.
  intros Hmx. induction batch as [|batch IH]; intros issued sum s Hok; cbn [claim_loop].
  { exists issued. split; [apply rtc_refl|]. split_and!; try lia; eauto; cbn; lia. }
  apply wp_bind, wp_world. intros w1 token. apply wp_bind, wp_world. intros w2 attempt_id.
  apply wp_bind. cbn [fst snd]. unfold wp at 1, store_call. cbn [fst snd].
  destruct (claim_next _ _ _ _ _ _) as [[db1 [claim|]]|e] eqn:Hc.
  - destruct (claim_next_ok _ _ _ _ _ _ _ _ _ Hok Hmx Hc) as ([Hok1 _] & r & Hr & _ & _ & _ & _ & (until & Hcmd) & _).
    assert (Hstep : path (s.1, issued) (db1, claim :: issued)) by (apply rtc_once; by eapply step_claim).
    apply wp_bind. eapply wp_mono; [apply (process_claim_processed _ _ _ _ to_vec sha256 (claim :: issued) claim ltac:(by left) db1)|].
    { by split; [|apply rtc_refl|]. }
    intros s' [sum'|e] [Hp Hx]; [|exists (claim :: issued); split; [by etrans|done]].
    destruct Hx as [[Hok' _ (r' & Hr' & Hnx) Hoth] (Hcl & Hrec & Hout)].
    assert (Hback : ∀ id q, commands s.1 !! id = Some q → ∃ q', commands s'.1 !! id = Some q' ∧
      (row_state q' = Executing → q' = q)).
    { intros id q Hq. destruct (decide (id = claim_command claim)) as [->|Hne]; [exists r'; by split|].
      apply Hoth; [|done]. by rewrite Hcmd, lookup_insert_ne. }
    eapply wp_mono; [by apply IH|]. intros s2 x (issued2 & Hp2 & Hx). exists issued2.
    split; [by do 2 (etrans; [eassumption|])|]. destruct x as [sum2|]; [|done].
    destruct Hx as (H1 & H2 & H3 & H4 & H5). unfold outcomes in *. cbn in *. split_and!; try lia.
    + intros id q Hq. destruct (Hback id q Hq) as (q1 & Hq1 & E1). destruct (H4 id q1 Hq1) as (q2 & Hq2 & E2).
      exists q2. split; [done|]. intros Hx. specialize (E2 Hx). subst q2. auto.
    + intros Hlt. apply H5. lia.
  - apply claim_next_none in Hc as [-> Hnone]. exists issued. split; [apply rtc_refl|].
    split_and!; cbn; try lia; [eauto|done].
  - exists issued. by split; [apply rtc_refl|].
Qed.

(** C34. A pass of the engine, whatever the adapters answer, takes only steps of the
    store. When it returns a summary: it claimed at most a batch, and stopped early
    only when no command was due; it recovered every expired lease; each claim is
    counted at most once as a success or a failure; and it left no execution open,
    so that a command that is executing afterwards was executing before under a
    lease that has not run out. *)
Theorem engine_pass db issued (w : W) now db' w' x :
  edge_reachable to_vec sha256 (db, issued) → in_u32 (max_attempts config) → 0 ≤ batch_size config →
  run_once max_delta max_instant config agent now (db, w) = ((db', w'), x) →
  ∃ issued', path (db, issued) (db', issued') ∧
  match x with
  | Ok s =>
      claimed s ≤ batch_size config ∧
      (claimed s < batch_size config → candidate now (max_attempts config) db' = None) ∧
      recovered_leases s = Z.of_nat (length (expired_leases now db)) ∧
      succeeded s + retryable_failures s + permanent_failures s + ambiguous_outcomes s ≤ claimed s ∧
      ∀ id r, commands db !! id = Some r → ∃ r', commands db' !! id = Some r' ∧
        (row_state r' = Executing → r' = r ∧ lease_expired now r = false)
  | Err _ => True
  end.
Proof.
  intros Hok%edge_reachable_ok Hmx Hb Hrun. cbn in Hok.
  destruct (recover_expired_leases_ok issued db agent now Hok) as (db1 & s1 & Hrec & [Hok1 Hev1] & Htot & Hback & _).
  assert (Hstep : path (db, issued) (db1, issued)) by (apply rtc_once; constructor; by eapply change_recover).
  unfold run_once, ebind, store_call in Hrun. cbn [fst snd] in Hrun. rewrite Hrec in Hrun.
  set (sum0 := MkSummary _ _ _ _ _ _ _ _) in Hrun.
  pose proof (claim_loop_looped (Z.to_nat (batch_size config)) now Hmx issued sum0 (db1, w) Hok1) as Hloop.
  unfold wp in Hloop. rewrite Hrun in Hloop. destruct Hloop as (issued' & Hp & Hx). cbn [fst] in *.
  exists issued'. split; [by etrans|]. destruct x as [s|]; [|done].
  destruct Hx as (Hc & Hr & Ho & Hcmd & Hcand). unfold outcomes, sum0 in *. cbn in *. unfold recovered_total in Htot.
  split_and!; try lia; [intros; apply Hcand; lia|].
  intros id r Hr0. destruct (commands_stay _ _ Hev1 _ _ Hr0) as (r1 & Hr1 & _). destruct (Hcmd id r1 Hr1) as (r' & Hr' & E).
  exists r'. split; [done|]. intros Hx. specialize (E Hx). subst r'. destruct (Hback id r1 Hr1 Hx) as [Hr2 Hl].
  assert (r1 = r) as -> by congruence. done.
Qed.

(** Backoff: the delay before a retry is the base delay doubled with every attempt
    after the first, up to the cap, so it is never shorter than the base delay, never
    longer than the cap, and never shrinks as attempts are made. *)
Theorem backoff_bounds n m :
  0 < retry_delay config ≤ retry_delay_cap config → retry_delay_cap config ≤ u64_max * 1000000000 →
  1 ≤ n ≤ m → m ≤ u32_max →
  retry_backoff config n = Z.min (retry_delay config * 2 ^ Z.min (n - 1) 31) (retry_delay_cap config) ∧
  retry_delay config ≤ retry_backoff config n ≤ retry_backoff config m ∧
  retry_backoff config m ≤ retry_delay_cap config.
Proof.
  intros Hd Hcap Hn Hm.
  assert (Hspec : ∀ k, 1 ≤ k → retry_backoff config k =
    Z.min (retry_delay config * 2 ^ Z.min (k - 1) 31) (retry_delay_cap config)).
  { intros k Hk. unfold retry_backoff, saturating_sub. cbn zeta. rewrite (Z.max_r 0 (k - 1)) by lia.
    rewrite Z.shiftl_1_l. unfold duration_checked_mul.
    destruct (checked _ _ _) as [p|] eqn:E; cbn [default from_option]; unfold id.
    - by apply checked_Some in E as [-> _].
    - apply checked_None in E as [E|E]; [|unfold u64_max in *; lia].
      assert (0 < 2 ^ Z.min (k - 1) 31) by (apply Z.pow_pos_nonneg; lia). nia. }
  assert (Hmono : 2 ^ Z.min (n - 1) 31 ≤ 2 ^ Z.min (m - 1) 31) by (apply Z.pow_le_mono_r; lia).
  assert (1 ≤ 2 ^ Z.min (n - 1) 31).
  { change 1 with (2 ^ 0) at 1. apply Z.pow_le_mono_r; lia. }
  rewrite !Hspec by lia. split; [done|]. split; [|lia]. split; [nia|].
  apply Z.min_le_compat_r. nia.
Qed.

(** A device that does not answer a heartbeat as healthy or degraded is sent
    nothing: processing a claim then talks to the adapter only for the heartbeat. *)
Theorem unhealthy_device_untouched claim now sum db (w w1 : W) answer db' w' x :
  heartbeat (device_id (request (claim_envelope claim))) w = (w1, answer) →
  (∀ report, answer = Ok report → permits_automatic_work (report_state report) = false) →
  process_claim max_delta max_instant config agent claim now sum (db, w) = ((db', w'), x) →
  w' = w ∨ w' = w1.
Proof.
  intros Hb Hans Hp.
  assert (Hgoal : snd (process_claim max_delta max_instant config agent claim now sum (db, w)).1 = w ∨
    snd (process_claim max_delta max_instant config agent claim now sum (db, w)).1 = w1);
    [|by rewrite Hp in Hgoal]. clear Hp.
  unfold process_claim. rewrite ebind_read.
  destruct (adapter_descriptor _ _) as [adapter|]; [|left; apply review_leaves].
  destruct (_ || _); [left; apply review_leaves|]. rewrite ebind_read.
  destruct (missing_capability _ _); [left; apply review_leaves|]. right.
  rewrite ebind_world. cbn [snd fst]. rewrite Hb. cbn [snd fst].
  match goal with |- snd (?m ?s).1 = _ => change (snd (m s).1 = snd s); cut (leaves_world m); [intros Hm; apply Hm|] end.
  destruct answer as [report|failure].
  - apply leaves_bind; [apply leaves_lift|]. intros _. apply leaves_bind; [apply leaves_store|]. intros st.
    rewrite (Hans report eq_refl). case_bool_decide; [apply review_leaves|apply retry_leaves].
  - apply leaves_bind; [apply leaves_store|]. intros st. apply handle_failure_leaves.
Qed.
End engine.

(** ** Witnesses *)

#[global] Instance CommandRequest_eq_dec : EqDecision CommandRequest.
Proof.
  assert (EqDecision RobotMissionKind) by solve_decision. assert (EqDecision PrintFormat) by solve_decision.
  assert (EqDecision WeightUnit) by solve_decision. assert (EqDecision PlcCommand) by solve_decision.
  assert (EqDecision ConveyorCommand) by solve_decision. assert (EqDecision RoboticsCommand) by solve_decision.
  assert (EqDecision SortationCommand) by solve_decision. assert (EqDecision PrinterCommand) by solve_decision.
  assert (EqDecision ScaleCommand) by solve_decision. assert (EqDecision DeviceCommand) by solve_decision.
  solve_decision.
Defined.

Definition sample_request : CommandRequest :=
  MkRequest 1 (lit "command-1") (lit "tenant-1") (lit "facility-1") (lit "scale-1") (lit "corr-1")
    (lit "key-1") ProbeThenRetry (ScaleC Tare).
Definition sample_encode (r : CommandRequest) : list Z :=
  if bool_decide (r = sample_request) then [1] else [0].
Definition sample_hash (l : list Z) : list Z := l.
Definition sample_device : DeviceDescriptor :=
  MkDescriptor (lit "tenant-1") (lit "facility-1") (lit "scale-1") Scale (lit "Pack scale").
Definition second : Z := 1000000000.

Abbreviation sample_reachable := (edge_reachable sample_encode sample_hash).
Abbreviation sample_step := (edge_step sample_encode sample_hash).

(** A scale is registered and switched on, and a command for it submitted. *)
Definition registered :=
  state_after (register_device sample_device (lit "op") (lit "setup") 0 empty_edge_db) empty_edge_db.
Definition automatic :=
  state_after (change_control_mode (lit "scale-1") ResumeAutomation (lit "op") (lit "ready") second registered)
    empty_edge_db.
Definition submission :=
  submit_with_cloud sample_encode sample_hash sample_request None (2 * second) automatic.
Definition queued := state_after submission empty_edge_db.
Definition first_claim_run :=
  claim_next (3 * second) (30 * second) 1 (lit "token-1") (lit "attempt-1") queued.
Definition executing := state_after first_claim_run empty_edge_db.
Definition first_claim : ClaimedCommand :=
  MkClaim (MkEnvelope sample_request 1) (lit "token-1") (lit "attempt-1") Execute 0.

Lemma automatic_reachable : sample_reachable (automatic, []).
Proof.
  destruct (state_after_ok (register_device sample_device (lit "op") (lit "setup") 0 empty_edge_db) empty_edge_db)
    as [s1 H1]; [vm_compute; reflexivity|].
  destruct (state_after_ok (change_control_mode (lit "scale-1") ResumeAutomation (lit "op") (lit "ready") second
    registered) empty_edge_db) as [s2 H2]; [vm_compute; reflexivity|].
  eapply rtc_l; [constructor; eapply change_register, H1|].
  apply rtc_once. constructor. eapply change_control, H2.
Qed.

Lemma submission_ok : ∃ r, submission = Ok (queued, Accepted r).
Proof. eexists. apply state_after_answer. vm_compute. reflexivity. Qed.

Lemma queued_reachable : sample_reachable (queued, []).
Proof.
  destruct submission_ok as [r H]. eapply rtc_r; [exact automatic_reachable|]. constructor. eapply change_submit, H.
Qed.

Lemma first_claim_ok : first_claim_run = Ok (executing, Some first_claim).
Proof. apply state_after_answer. vm_compute. reflexivity. Qed.

Lemma u32_small n : bool_decide (in_u32 n) = true → in_u32 n.
Proof. apply bool_decide_eq_true. Qed.

Lemma executing_reachable : sample_reachable (executing, [first_claim]).
Proof.
  eapply rtc_r; [exact queued_reachable|]. eapply step_claim, first_claim_ok.
  unfold in_u32, u32_max. lia.
Qed.

(** The command is revoked by switching the scale to manual fallback. *)
Definition revoked :=
  state_after (change_control_mode (lit "scale-1") EnterManualFallback (lit "op") (lit "stop") (4 * second)
    executing) empty_edge_db.

Lemma revoked_reachable : sample_reachable (revoked, [first_claim]).
Proof.
  destruct (state_after_ok (change_control_mode (lit "scale-1") EnterManualFallback (lit "op") (lit "stop")
    (4 * second) executing) empty_edge_db) as [s H]; [vm_compute; reflexivity|].
  eapply rtc_r; [exact executing_reachable|]. constructor. eapply change_control, H.
Qed.

Lemma revoked_row : ∃ r, commands revoked !! lit "command-1" = Some r ∧ row_state r = ManualReview.
Proof. eexists. split; vm_compute; reflexivity. Qed.

(** The scale answers that it is busy, and the command is due again two seconds later. *)
Definition failure :=
  retryable_failure first_claim (lit "busy") (5 * second) (MkLimits 3 3) (lit "agent") (4 * second) executing.
Definition retrying := state_after failure empty_edge_db.
Definition second_claim_run :=
  claim_next (6 * second) (30 * second) 3 (lit "token-2") (lit "attempt-2") retrying.
Definition executing_again := state_after second_claim_run empty_edge_db.
Definition second_claim : ClaimedCommand :=
  MkClaim (MkEnvelope sample_request 2) (lit "token-2") (lit "attempt-2") Execute 0.

Lemma failure_ok : failure = Ok (retrying, false).
Proof. apply state_after_answer. vm_compute. reflexivity. Qed.

Lemma retrying_reachable : sample_reachable (retrying, [first_claim]).
Proof.
  eapply rtc_r; [exact executing_reachable|]. constructor.
  apply (change_retryable sample_encode sample_hash _ first_claim (lit "busy") (5 * second) (MkLimits 3 3) (lit "agent") (4 * second)
    executing retrying false (list_elem_of_here _ _) failure_ok).
Qed.

Lemma second_claim_ok : second_claim_run = Ok (executing_again, Some second_claim).
Proof. apply state_after_answer. vm_compute. reflexivity. Qed.

Lemma latest_only db id aid a :
  attempts db !! aid = Some a → attempt_command a = id → dom (attempts db) = {[aid]} → latest db id aid a.
Proof.
  intros Ha Hc Hd. split_and!; [done|done|]. intros aid' a' Ha' _ Hne.
  apply elem_of_dom_2 in Ha'. rewrite Hd in Ha'. by apply elem_of_singleton in Ha'.
Qed.

(** The only attempt of the command so far. *)
Lemma retrying_attempt : ∃ a, latest retrying (lit "command-1") (lit "attempt-1") a.
Proof.
  assert (H : match attempts retrying !! lit "attempt-1" with
    | Some a => bool_decide (attempt_command a = lit "command-1")
                && bool_decide (dom (attempts retrying) = {[lit "attempt-1"]})
    | None => false end = true) by (vm_compute; reflexivity).
  destruct (attempts retrying !! lit "attempt-1") as [a|] eqn:Ha; [|discriminate H]. exists a.
  apply andb_true_iff in H as [Hc%bool_decide_eq_true_1 Hd%bool_decide_eq_true_1].
  exact (latest_only _ _ _ a Ha Hc Hd).
Qed.

Lemma retrying_unapproved : ¬ approved retrying (lit "command-1").
Proof.
  intros (e & He & Hf & _). assert (H : match last (events_of (lit "command-1") retrying) with
    | Some e => bool_decide (from_state e = Some ManualReview) | None => false end = false)
    by (vm_compute; reflexivity).
  rewrite He in H. by rewrite bool_decide_true in H.
Qed.

(** The command is sent a second time: its first attempt was refused for now. *)
Lemma no_blind_replay_witness :
  second_claim_run = Ok (executing_again, Some second_claim) ∧ claim_kind second_claim = Execute ∧
  ∃ a, latest retrying (lit "command-1") (lit "attempt-1") a ∧ settled a.
Proof.
  destruct retrying_attempt as [a Ha].
  split; [exact second_claim_ok|]. split; [reflexivity|]. exists a. split; [exact Ha|].
  assert (Hmx : in_u32 3) by (unfold in_u32, u32_max; lia).
  destruct (no_blind_replay sample_encode sample_hash retrying [first_claim] (6 * second) (30 * second) 3
    (lit "token-2") (lit "attempt-2") executing_again second_claim retrying_reachable Hmx
    second_claim_ok eq_refl (lit "attempt-1") a Ha) as [H|[H|[H|H]]].
  - left. exact H.
  - right. exact H.
  - discriminate H.
  - destruct (retrying_unapproved H).
Defined.

Lemma device_control_witness :
  sample_reachable (revoked, [first_claim]) ∧
  ∀ id r, commands revoked !! id = Some r → device_id (row_request r) = lit "scale-1" →
    is_pending (row_state r) = false.
Proof.
  split; [exact revoked_reachable|]. intros id r Hr Hd.
  destruct (devices revoked !! lit "scale-1") as [d|] eqn:Ed.
  - apply (proj1 (device_control sample_encode sample_hash revoked _ revoked_reachable) (lit "scale-1") d id r Ed);
      [|exact Hr|exact Hd].
    assert (E : control_mode <$> devices revoked !! lit "scale-1" = Some ManualFallback) by (vm_compute; reflexivity).
    rewrite Ed in E. intros Em. cbn in E. rewrite Em in E. discriminate E.
  - vm_compute in Ed. discriminate Ed.
Defined.

Lemma revoked_claim_refused_witness :
  sample_reachable (revoked, [first_claim]) ∧
  ∀ now c, finish_claim first_claim now c revoked = Err (LeaseMismatch (lit "command-1")).
Proof.
  split; [exact revoked_reachable|].
  destruct revoked_row as (r & Hr & Hx). assert (Hne : row_state r ≠ Executing) by (rewrite Hx; discriminate).
  apply (revoked_claim_refused sample_encode sample_hash revoked [first_claim] first_claim r revoked [first_claim]
    revoked_reachable (list_elem_of_here _ _) Hr Hne (rtc_refl _ _)).
Defined.

Lemma record_is_immutable_witness :
  sample_reachable (executing, [first_claim]) ∧
  ∀ r, commands executing !! lit "command-1" = Some r →
    ∃ r', commands revoked !! lit "command-1" = Some r' ∧ row_request r' = row_request r.
Proof.
  split; [exact executing_reachable|].
  assert (Hp : rtc sample_step (executing, [first_claim]) (revoked, [first_claim])).
  { destruct (state_after_ok (change_control_mode (lit "scale-1") EnterManualFallback (lit "op") (lit "stop")
      (4 * second) executing) empty_edge_db) as [s H]; [vm_compute; reflexivity|].
    apply rtc_once. constructor. eapply change_control, H. }
  intros r Hr. destruct (proj1 (record_is_immutable sample_encode sample_hash executing [first_claim] revoked
    [first_claim] executing_reachable Hp) _ _ Hr) as (r' & Hr' & E & _).
  exists r'. exact (conj Hr' E).
Defined.

Lemma resubmission_replays_witness :
  ∃ r2, submit sample_encode sample_hash sample_request (9 * second) executing = Ok (executing, Replayed r2).
Proof.
  assert (Hinj : ∀ other, sample_encode other = sample_encode sample_request → other = sample_request).
  { intros other. unfold sample_encode. rewrite (bool_decide_true (sample_request = sample_request)) by reflexivity.
    case_bool_decide as E; [intros _; exact E|discriminate]. }
  destruct submission_ok as [r Hr].
  assert (Hp : rtc sample_step (queued, []) (executing, [first_claim])).
  { apply rtc_once. eapply step_claim, first_claim_ok. unfold in_u32, u32_max. lia. }
  destruct (proj1 (resubmission_replays sample_encode sample_hash automatic [] _ _ _ queued r executing [first_claim]
    (9 * second) Hinj automatic_reachable Hr Hp)) as (r2 & H & _).
  exists r2. exact H.
Defined.

(** With a budget of one attempt: the attempt fails, the operator resumes the device
    and sends the command back. *)
Definition exhausted :=
  state_after (retryable_failure first_claim (lit "busy") (5 * second) (MkLimits 1 5) (lit "agent") (4 * second)
    executing) empty_edge_db.
Definition resumed :=
  state_after (change_control_mode (lit "scale-1") ResumeAutomation (lit "op") (lit "checked") (6 * second)
    exhausted) empty_edge_db.
Definition retried_run := retry_after_review (lit "command-1") (lit "op") (lit "again") (7 * second) resumed.
Definition retried := state_after retried_run empty_edge_db.

Lemma resumed_reachable : sample_reachable (resumed, [first_claim]).
Proof.
  destruct (state_after_ok (retryable_failure first_claim (lit "busy") (5 * second) (MkLimits 1 5) (lit "agent")
    (4 * second) executing) empty_edge_db) as [s1 H1]; [vm_compute; reflexivity|].
  destruct (state_after_ok (change_control_mode (lit "scale-1") ResumeAutomation (lit "op") (lit "checked")
    (6 * second) exhausted) empty_edge_db) as [s2 H2]; [vm_compute; reflexivity|].
  eapply rtc_r; [|constructor; eapply change_control, H2].
  eapply rtc_r; [exact executing_reachable|]. constructor.
  eapply change_retryable, H1. apply list_elem_of_here.
Qed.

Lemma retried_ok : ∃ r, retried_run = Ok (retried, r) ∧ attempt_count r = 1.
Proof. eexists. split; [apply state_after_answer; vm_compute; reflexivity|reflexivity]. Qed.

Lemma retry_of_exhausted_is_stranded_witness :
  ∀ now2 lease_ token attempt_id db2 claim,
    claim_next now2 lease_ 1 token attempt_id retried = Ok (db2, Some claim) →
    claim_command claim ≠ lit "command-1".
Proof.
  destruct retried_ok as (r & Hr & Hc).
  assert (Hmx : in_u32 1) by (unfold in_u32, u32_max; lia).
  assert (Hle : 1 ≤ attempt_count r) by (rewrite Hc; lia).
  exact (proj2 (retry_of_exhausted_is_stranded sample_encode sample_hash resumed [first_claim] _ _ _ _ retried r 1
    resumed_reachable Hr Hmx Hle)).
Defined.

(** An adapter whose every execution succeeds; the world counts the UUIDs. *)
#[export] Instance sample_adapters : Adapters Z := {|
  device_ids := fun _ => [lit "scale-1"];
  adapter_descriptor := fun _ id => if bool_decide (id = lit "scale-1") then Some sample_device else None;
  capabilities := fun _ _ => MkCapabilities true true;
  heartbeat := fun _ w => (w, Ok (MkReport Healthy None []));
  execute := fun _ _ w => (w, Ok (ScaleR 0 true));
  recover := fun _ _ w => (w, Ok NotFound);
  new_v4 := fun w => (w + 1, [w]);
|}.

Definition sample_engine : EngineConfig := MkEngineConfig (30 * second) (2 * second) (120 * second) 8 20 100.
Definition far_future : Z := 10 ^ 30.
Definition sample_pass := run_once far_future far_future sample_engine (lit "agent") (3 * second) (queued, 0).

Lemma sample_pass_ok : ∃ db w s, sample_pass = ((db, w), Ok s) ∧ claimed s = 1 ∧ succeeded s = 1.
Proof. eexists _, _, _. vm_compute. split; [reflexivity|split; reflexivity]. Qed.

Lemma engine_pass_witness :
  ∃ db' w' s, sample_pass = ((db', w'), Ok s) ∧
    ∀ id r, commands queued !! id = Some r → ∃ r', commands db' !! id = Some r' ∧
      (row_state r' = Executing → r' = r ∧ lease_expired (3 * second) r = false).
Proof.
  destruct sample_pass_ok as (db' & w' & s & H & _). exists db', w', s. split; [exact H|].
  assert (Hmx : in_u32 8) by (unfold in_u32, u32_max; lia). assert (Hb : 0 ≤ 100) by lia.
  destruct (engine_pass far_future far_future sample_engine (lit "agent") sample_encode sample_hash queued [] 0
    (3 * second) db' w' (Ok s) queued_reachable Hmx Hb H) as (issued' & _ & _ & _ & _ & _ & Hx).
  exact Hx.
Defined.

Lemma backoff_bounds_witness :
  retry_backoff sample_engine 3 = 8 * second ∧ retry_backoff sample_engine 40 ≤ 120 * second.
Proof.
  destruct (backoff_bounds sample_engine 3 40) as (H1 & _ & H2);
    [vm_compute; split; [reflexivity|discriminate]|vm_compute; discriminate|lia|unfold u32_max; lia|].
  split; [rewrite H1; reflexivity|exact H2].
Defined.

#[export] Instance offline_adapters : Adapters (Z * bool) := {|
  device_ids := fun _ => [lit "scale-1"];
  adapter_descriptor := fun _ id => if bool_decide (id = lit "scale-1") then Some sample_device else None;
  capabilities := fun _ _ => MkCapabilities true true;
  heartbeat := fun _ w => (w, Ok (MkReport Offline None []));
  execute := fun _ _ w => ((w.1, true), Ok (ScaleR 0 true));
  recover := fun _ _ w => ((w.1, true), Ok NotFound);
  new_v4 := fun w => ((w.1 + 1, w.2), [w.1]);
|}.

Definition offline_run :=
  process_claim (W := Z * bool) far_future far_future sample_engine (lit "agent") first_claim (4 * second)
    (MkSummary 0 1 0 0 0 0 0 0) (executing, (0, false)).

Lemma unhealthy_device_untouched_witness : snd (fst offline_run) = (0, false).
Proof.
  destruct offline_run as [[db' w'] x] eqn:H. cbn [fst snd].
  assert (Hb : heartbeat (device_id (request (claim_envelope first_claim))) (0, false) =
    ((0, false), Ok (MkReport Offline None []))) by reflexivity.
  assert (Hp : ∀ report, @Ok _ AdapterFailure (MkReport Offline None []) = Ok report →
    permits_automatic_work (report_state report) = false) by (intros report [= <-]; reflexivity).
  destruct (unhealthy_device_untouched far_future far_future sample_engine (lit "agent") first_claim (4 * second)
    (MkSummary 0 1 0 0 0 0 0 0) executing (0, false) (0, false) _ db' w' x Hb Hp H) as [E|E]; exact E.
Defined.

(** 999 letters and a two-byte character. *)
Lemma message_truncation_witness :
  truncate_message (replicate 999 97 ++ [233]) = Err Panicked.
Proof.
  apply (proj2 (message_truncation (replicate 999 97 ++ [233]) (replicate 999 97 ++ [233])
    ltac:(vm_compute; reflexivity))).
  split; [vm_compute; reflexivity|]. intros t rest E.
  assert (Hcut : truncate_bytes 1000 (replicate 999 97 ++ [233]) = None) by (vm_compute; reflexivity).
  intros Ht. destruct rest as [|x rest].
  - rewrite app_nil_r in E. rewrite <-E in Ht. vm_compute in Ht. discriminate Ht.
  - assert (H : truncate_bytes 1000 (replicate 999 97 ++ [233]) = Some t).
    { apply truncate_bytes_spec; [lia|]. right. exists (x :: rest).
      split; [discriminate|]. exact (conj E Ht). }
    rewrite Hcut in H. discriminate H.
Defined.
