(* ===== verification/StockTypes.v ===== *)
(** * Stock: the rows of the inventory tables

    Batches, locations, balances, the journal, reservations, allocations and holds of
    one tenant, with the commands of [crates/api/src/repo/inventory.rs] and its
    neighbours as data. Instants and actors that the handlers only write are left out.
    A text column whose CHECK constraint admits an enumeration is that enumeration, and
    a [deleted] instant is the fact that it is set. Where a CHECK constraint ties
    [deleted] to the status of a row, the status stands for both. *)

From S2P Require Import Prelude.
From S2P Require Import RustStr.
From S2P Require Import Orders.
From S2P Require Import Idempotency.
From S2P Require Import Outbox.

Inductive InventoryStatus := Available | Hold | Damaged | Quarantine.

Inductive InventoryTransactionType :=
| Receive | Move | Adjust | Ship | Transfer | StatusChange | Relabel | Refurbishment | Kit
| Dekit | Assembly | ValueAddedService | ReturnToVendor.

Inductive InventoryStatusChangeReason :=
| QualityInspection | DamageSuspected | DamageConfirmed | InspectionPassed
| InventoryDiscrepancy | DiscrepancyResolved | RegulatoryRestriction | RegulatoryRelease
| CustomerRequest | CustomerRelease | ReasonOther.

Inductive InventoryHoldReason :=
| HoldQualityInspection | HoldDamageSuspected | HoldInventoryDiscrepancy
| HoldRegulatory | HoldCustomerRequest | InventoryHoldOther.

Inductive ReservationStatus := ReservationActive | ReservationCancelled | ReservationFulfilled.

(** The CHECK constraint of the column also admits ['shorted'], which the Rust enumeration
    does not name. *)
Inductive AllocationStatus := Allocated | AllocationReleased | AllocationFulfilled | AllocationShorted.

Inductive InventoryHoldStatus := HoldActive | HoldReleased.

#[global] Instance InventoryStatus_eq_dec : EqDecision InventoryStatus.
Proof. solve_decision. Defined.
#[global] Instance InventoryTransactionType_eq_dec : EqDecision InventoryTransactionType.
Proof. solve_decision. Defined.
#[global] Instance InventoryStatusChangeReason_eq_dec : EqDecision InventoryStatusChangeReason.
Proof. solve_decision. Defined.
#[global] Instance InventoryHoldReason_eq_dec : EqDecision InventoryHoldReason.
Proof. solve_decision. Defined.
#[global] Instance ReservationStatus_eq_dec : EqDecision ReservationStatus.
Proof. solve_decision. Defined.
#[global] Instance AllocationStatus_eq_dec : EqDecision AllocationStatus.
Proof. solve_decision. Defined.
#[global] Instance InventoryHoldStatus_eq_dec : EqDecision InventoryHoldStatus.
Proof. solve_decision. Defined.

(** [#[default]] of [InventoryStatus]. *)
Definition InventoryStatus_default : InventoryStatus := Available.

Definition InventoryStatusChangeReason_as_str (r : InventoryStatusChangeReason) : string :=
  match r with
  | QualityInspection => "quality_inspection"
  | DamageSuspected => "damage_suspected"
  | DamageConfirmed => "damage_confirmed"
  | InspectionPassed => "inspection_passed"
  | InventoryDiscrepancy => "inventory_discrepancy"
  | DiscrepancyResolved => "discrepancy_resolved"
  | RegulatoryRestriction => "regulatory_restriction"
  | RegulatoryRelease => "regulatory_release"
  | CustomerRequest => "customer_request"
  | CustomerRelease => "customer_release"
  | ReasonOther => "other"
  end.

Definition allows_target_status (self : InventoryStatusChangeReason) (status : InventoryStatus) :
    bool :=
  match self with
  | QualityInspection | DamageSuspected | InventoryDiscrepancy | RegulatoryRestriction
  | CustomerRequest => match status with Hold | Quarantine => true | _ => false end
  | DamageConfirmed => bool_decide (status = Damaged)
  | InspectionPassed | DiscrepancyResolved | RegulatoryRelease | CustomerRelease =>
      bool_decide (status = Available)
  | ReasonOther => true
  end.

(** ** What the actor may touch ([crates/api/src/repo/access.rs]) *)

Record ScopeBindings := MkScopeBindings {
  all_facilities : bool;
  facility_ids : list Z;
  all_inventory_owners : bool;
  inventory_owner_ids : list Z;
}.

Definition unrestricted : ScopeBindings := MkScopeBindings true [] true [].

Definition includes_facility (self : ScopeBindings) (facility : Z) : bool :=
  all_facilities self || bool_decide (facility ∈ facility_ids self).

Definition includes_inventory_owner (self : ScopeBindings) (owner : Z) : bool :=
  all_inventory_owners self || bool_decide (owner ∈ inventory_owner_ids self).

Definition require_scope (scope : ScopeBindings) (owner facility : Z) :
    result unit ApplicationError :=
  if includes_inventory_owner scope owner && includes_facility scope facility
  then Ok tt else Err Forbidden.

(** ** Errors of the database, as a caller sees them
    ([AppError::public_application_error]) *)

Inductive DbError :=
| RowNotFound
| Sqlstate (code : string).

Definition db_error (e : DbError) : ApplicationError :=
  match e with
  | RowNotFound => NotFound "resource"
  | Sqlstate code =>
      if String.eqb code "55000" then Conflict "operation violates current resource state"
      else if String.eqb code "23505" then Conflict "unique constraint violated"
      else if String.eqb code "23503" then InvalidRequest "referenced resource does not exist"
      else if String.eqb code "23502" then InvalidRequest "required value is missing"
      else if String.eqb code "23514" then InvalidRequest "constraint check failed"
      else Internal "database error"
  end.

Definition raise {A} (code : string) : result A ApplicationError := Err (db_error (Sqlstate code)).

(** [numeric_value_out_of_range] *)
Definition bigint (z : Z) : result Z ApplicationError :=
  match checked i64_min i64_max z with
  | Some z => Ok z
  | None => raise "22003"
  end.

(** ** Tables with a generated key ([GENERATED ALWAYS AS IDENTITY]) *)

Record Table (A : Type) := MkTable {
  rows : gmap Z A;
  next_id : Z;
}.
Arguments MkTable {A}.
Arguments rows {A}.
Arguments next_id {A}.

Definition empty_table {A} : Table A := MkTable ∅ 1.

Definition insert_row {A} (t : Table A) (row : A) : Table A :=
  MkTable (<[next_id t := row]> (rows t)) (next_id t + 1).

Definition update_row {A} (t : Table A) (id : Z) (row : A) : Table A :=
  MkTable (<[id := row]> (rows t)) (next_id t).

(** A sequence hands out a number that the statement does not use. *)
Definition skip_id {A} (t : Table A) : Table A := MkTable (rows t) (next_id t + 1).

(** ** The rows *)

(** The columns that a balance, a journal entry, an allocation and a hold share. *)
Record Position := MkPosition {
  inventory_owner_id : Z;
  facility_id : Z;
  location_id : Z;
  license_plate_id : option Z;
  item_batch_id : Z;
  item_id : Z;
  uom : rstr;
  status : InventoryStatus;
}.

#[global] Instance Position_eq_dec : EqDecision Position.
Proof. solve_decision. Defined.

Record LocationRow := MkLocation {
  location_facility : Z;
  location_deleted : bool;
  location_active : bool;
}.

(** [lot], [expiration] and [serial]. *)
Definition Trace : Type := option rstr * option Z * option rstr.
Definition lot (t : Trace) : option rstr := t.1.1.
Definition expiration (t : Trace) : option Z := t.1.2.

Record BatchRow := MkBatch {
  batch_owner : Z;
  batch_item : Z;
  batch_uom : rstr;
  batch_load : option Z;
  batch_trace : Trace;
  batch_deleted : bool;
}.

Record BalanceRow := MkBalance {
  position : Position;
  qty_on_hand : Z;
  qty_reserved : Z;
  qty_held : Z;
  balance_deleted : bool;
}.

Record TransactionRow := MkTransaction {
  txn_owner : Z;
  txn_actor : Z;
  txn_type : InventoryTransactionType;
  txn_reason : option rstr;
  txn_reference_type : option rstr;
  txn_reference_id : option Z;
  txn_correlation : option rstr;
  txn_operation : rstr;
  txn_key : option rstr;
  txn_hash : rstr;
}.

Record EntryRow := MkEntry {
  entry_transaction : Z;
  entry_position : Position;
  entry_trace : Trace;
  quantity_delta : Z;
}.

(** [inventory_projection_changes], which a trigger writes. *)
Record ChangeRow := MkChange {
  change_transaction : Z;
  change_balance : Z;
  change_position : Position;
  change_trace : Trace;
  change_delta : Z;
}.

Record OrderRow := MkOrder {
  order_owner : Z;
  order_status : OrderStatus;
  order_deleted : bool;
}.

Record OrderLineRow := MkOrderLine {
  line_owner : Z;
  line_order : Z;
  line_item : Z;
  line_uom : rstr;
  line_qty : Z;
  line_deleted : bool;
}.

Record ReservationRow := MkReservation {
  reservation_owner : Z;
  reservation_order : Z;
  reservation_line : Z;
  reservation_facility : Z;
  reservation_item : Z;
  reservation_uom : rstr;
  reservation_qty : Z;
  reservation_status : ReservationStatus;
}.

Record AllocationRow := MkAllocation {
  allocation_reservation : Z;
  allocation_balance : Z;
  allocation_position : Position;
  allocation_qty : Z;
  allocation_status : AllocationStatus;
}.

Record HoldRow := MkHold {
  hold_balance : Z;
  hold_position : Position;
  hold_qty : Z;
  hold_reason : InventoryHoldReason;
  hold_note : option rstr;
  hold_reference_type : option rstr;
  hold_reference_id : option Z;
  hold_status : InventoryHoldStatus;
}.

(** [inventory_status_transitions] *)
Record TransitionRow := MkTransition {
  transition_owner : Z;
  transition_facility : Z;
  transition_transaction : Z;
  transition_source : Z;
  transition_destination : Z;
  from_status : InventoryStatus;
  to_status : InventoryStatus;
  transition_qty : Z;
  transition_reason : InventoryStatusChangeReason;
  transition_note : option rstr;
  transition_reference_type : option rstr;
  transition_reference_id : option Z;
  transition_created_by : Z;
}.

(** The payloads of the outbox events. *)
Inductive StockEvent :=
| TransactionRecorded (id owner facility : Z) (type : InventoryTransactionType) (operation : rstr)
| StatusChanged (id : Z) (row : TransitionRow) (at_ : Position)
| ReservationCreated (id : Z) (row : ReservationRow)
| ReservationClosed (id : Z) (row : ReservationRow) (released_quantity : Z) (reason : option string)
| AllocationCreated (id : Z) (row : AllocationRow)
| AllocationClosed (id : Z) (row : AllocationRow) (owner : Z) (reason : option string)
| HoldPlaced (id : Z) (row : HoldRow)
| HoldLifted (id : Z) (row : HoldRow).

(** Rows that the inventory handlers read and other parts of the system write. *)
Record Directory := MkDirectory {
  inventory_owners : gset Z;
  facilities : gset Z;
  owner_facilities : gset (Z * Z);
  locations : gmap Z LocationRow;
  license_plates : gset Z;
  items : gmap Z rstr;
  loads : gmap Z Z;
  orders : gmap Z OrderRow;
  order_items : gmap Z OrderLineRow;
}.

(** The tables. [journal_context] is the setting [wareboxes.inventory_transaction_id],
    local to a database transaction. Of [inventory_owners], [facilities],
    [inventory_owner_facilities], [items] and [loads] the directory keeps the rows that are
    not deleted. *)
Record Stock := MkStock {
  directory : Directory;
  owner_items : gset (Z * Z);
  batches : Table BatchRow;
  balances : Table BalanceRow;
  transactions : Table TransactionRow;
  entries : list EntryRow;
  changes : list ChangeRow;
  reservations : Table ReservationRow;
  allocations : Table AllocationRow;
  holds : Table HoldRow;
  transitions : Table TransitionRow;
  outbox : OutboxTables StockEvent;
  journal_context : option Z;
}.
