(* ===== verification/StockDb.v ===== *)
(** * Stock: the schema behind the inventory handlers

    The triggers and constraints that [migrations/postgres/0001_baseline.sql] puts on the
    inventory tables. Triggers that change rows (the
    projections [qty_reserved] and [qty_held], the captured changes) and triggers that
    refuse what a handler would let through are part of every write. Those that only
    repeat what the handlers ensure are the guards: they are run when [guards] is set.
    Triggers of other features (license plate locations, storage policies, recalls,
    traceability) only refuse further writes and are left out. *)

From stdpp Require Import pretty.
From S2P Require Import Prelude.
From S2P Require Import RustStr.
From S2P Require Import Orders.
From S2P Require Import Idempotency.
From S2P Require Import Outbox.
From S2P Require Import StockTypes.

Definition set_owner_items x s := MkStock (directory s) x (batches s) (balances s) (transactions s)
  (entries s) (changes s) (reservations s) (allocations s) (holds s) (transitions s) (outbox s)
  (journal_context s).
Definition set_batches x s := MkStock (directory s) (owner_items s) x (balances s) (transactions s)
  (entries s) (changes s) (reservations s) (allocations s) (holds s) (transitions s) (outbox s)
  (journal_context s).
Definition set_balances x s := MkStock (directory s) (owner_items s) (batches s) x (transactions s)
  (entries s) (changes s) (reservations s) (allocations s) (holds s) (transitions s) (outbox s)
  (journal_context s).
Definition set_transactions x s := MkStock (directory s) (owner_items s) (batches s) (balances s) x
  (entries s) (changes s) (reservations s) (allocations s) (holds s) (transitions s) (outbox s)
  (journal_context s).
Definition set_entries x s := MkStock (directory s) (owner_items s) (batches s) (balances s)
  (transactions s) x (changes s) (reservations s) (allocations s) (holds s) (transitions s)
  (outbox s) (journal_context s).
Definition set_changes x s := MkStock (directory s) (owner_items s) (batches s) (balances s)
  (transactions s) (entries s) x (reservations s) (allocations s) (holds s) (transitions s)
  (outbox s) (journal_context s).
Definition set_reservations x s := MkStock (directory s) (owner_items s) (batches s) (balances s)
  (transactions s) (entries s) (changes s) x (allocations s) (holds s) (transitions s)
  (outbox s) (journal_context s).
Definition set_allocations x s := MkStock (directory s) (owner_items s) (batches s) (balances s)
  (transactions s) (entries s) (changes s) (reservations s) x (holds s) (transitions s)
  (outbox s) (journal_context s).
Definition set_holds x s := MkStock (directory s) (owner_items s) (batches s) (balances s)
  (transactions s) (entries s) (changes s) (reservations s) (allocations s) x (transitions s)
  (outbox s) (journal_context s).
Definition set_transitions x s := MkStock (directory s) (owner_items s) (batches s) (balances s)
  (transactions s) (entries s) (changes s) (reservations s) (allocations s) (holds s) x
  (outbox s) (journal_context s).
Definition set_outbox x s := MkStock (directory s) (owner_items s) (batches s) (balances s)
  (transactions s) (entries s) (changes s) (reservations s) (allocations s) (holds s)
  (transitions s) x (journal_context s).
Definition set_context x s := MkStock (directory s) (owner_items s) (batches s) (balances s)
  (transactions s) (entries s) (changes s) (reservations s) (allocations s) (holds s)
  (transitions s) (outbox s) x.

(** ** Sums over the commitments *)

Definition active_allocation (a : AllocationRow) : bool :=
  bool_decide (allocation_status a = Allocated).
Definition active_hold (h : HoldRow) : bool := bool_decide (hold_status h = HoldActive).
Definition active_reservation (r : ReservationRow) : bool :=
  bool_decide (reservation_status r = ReservationActive).

(** [SUM(allocation.qty)] of the active allocations of a balance, and of its active holds.
    (The foreign keys include the owner, which the queries repeat.) *)
Definition allocated_on (s : Stock) (balance : Z) : Z :=
  sum_rows (fun _ a => if active_allocation a && (allocation_balance a =? balance)
                       then allocation_qty a else 0) (rows (allocations s)).
Definition held_on (s : Stock) (balance : Z) : Z :=
  sum_rows (fun _ h => if active_hold h && (hold_balance h =? balance)
                       then hold_qty h else 0) (rows (holds s)).

(** ... of the active allocations of a reservation. *)
Definition allocated_of (s : Stock) (reservation : Z) : Z :=
  sum_rows (fun _ a => if active_allocation a && (allocation_reservation a =? reservation)
                       then allocation_qty a else 0) (rows (allocations s)).

(** ... and of the active reservations of an order line. *)
Definition reserved_of (s : Stock) (owner line : Z) : Z :=
  sum_rows (fun _ r => if active_reservation r && (reservation_owner r =? owner)
                          && (reservation_line r =? line)
                       then reservation_qty r else 0) (rows (reservations s)).

(** ** Triggers *)

Definition require_active_inventory_owner_facility (s : Stock) (owner facility : Z) : bool :=
  bool_decide ((owner, facility) ∈ owner_facilities (directory s))
  && bool_decide (owner ∈ inventory_owners (directory s))
  && bool_decide (facility ∈ facilities (directory s)).

(** [btrim(text) = ''] *)
Definition only_spaces (text : rstr) : bool := forallb (Z.eqb 32) text.

(** The CHECK constraints of [inventory_balances]. *)
Definition inventory_balances_checks (b : BalanceRow) : bool :=
  (qty_reserved b <=? qty_on_hand b) && (qty_reserved b + qty_held b <=? qty_on_hand b)
  && (0 <=? qty_held b) && (0 <=? qty_on_hand b) && (0 <=? qty_reserved b)
  && negb (only_spaces (uom (position b))).

Definition guard_inventory_balance_commitments (s : Stock) (id : Z) (old : option BalanceRow)
    (new : BalanceRow) : bool :=
  let allocated := allocated_on s id in
  let held := held_on s id in
  (qty_reserved new =? allocated) && (qty_held new =? held)
  && (allocated + held <=? qty_on_hand new)
  && ((allocated + held <=? 0)
      || match old with
         | Some old => bool_decide (position old = position new)
                       && eqb (balance_deleted old) (balance_deleted new)
         | None => false
         end).

Definition batch_in_scope (s : Stock) (owner batch : Z) : option BatchRow :=
  match rows (batches s) !! batch with
  | Some row => if batch_owner row =? owner then Some row else None
  | None => None
  end.

Definition inventory_row_matches_batch (s : Stock) (p : Position) : bool :=
  match batch_in_scope s (inventory_owner_id p) (item_batch_id p) with
  | Some row => (item_id p =? batch_item row) && bool_decide (uom p = batch_uom row)
  | None => false
  end.

(** A stocked balance [ib] of the owner at the location whose batch is of the same item and
    of another lot or expiration than the incoming batch. *)
Definition other_lot (s : Stock) (owner location : Z) (incoming : BatchRow) (ib : BalanceRow) : bool :=
  (location_id (position ib) =? location) && (inventory_owner_id (position ib) =? owner)
  && negb (balance_deleted ib) && (0 <? qty_on_hand ib)
  && match rows (batches s) !! item_batch_id (position ib) with
     | Some existing =>
         (batch_item existing =? batch_item incoming)
         && (negb (bool_decide (lot (batch_trace existing) = lot (batch_trace incoming)))
             || negb (bool_decide (expiration (batch_trace existing)
                                   = expiration (batch_trace incoming))))
     | None => false
     end.

(** [prevent_mixed_item_lot_expiration_per_location]: does it raise? *)
Definition mixes_lots (s : Stock) (id : Z) (old : option BalanceRow) (new : BalanceRow) : bool :=
  let p := position new in
  bool_decide (license_plate_id p = None) && negb (balance_deleted new) && (0 <? qty_on_hand new)
  && negb match old with
          | Some old =>
              (location_id (position old) =? location_id p)
              && bool_decide (license_plate_id (position old) = license_plate_id p)
              && (item_batch_id (position old) =? item_batch_id p)
              && eqb (balance_deleted old) (balance_deleted new)
              && (qty_on_hand new <=? qty_on_hand old)
          | None => false
          end
  && match batch_in_scope s (inventory_owner_id p) (item_batch_id p) with
     | Some incoming =>
         existsb (fun '(i, ib) => negb (i =? id)
                    && other_lot s (inventory_owner_id p) (location_id p) incoming ib)
           (map_to_list (rows (balances s)))
     | None => false
     end.

(** The quantity that a balance row counts for. *)
Definition effective (b : BalanceRow) : Z := if balance_deleted b then 0 else qty_on_hand b.

Definition change_rows (s : Stock) (txn balance : Z) (p : Position) (delta : Z) : list ChangeRow :=
  match batch_in_scope s (inventory_owner_id p) (item_batch_id p) with
  | Some row => [MkChange txn balance p (batch_trace row) delta]
  | None => []
  end.

Definition in_journal (s : Stock) (txn owner : Z) : bool :=
  match rows (transactions s) !! txn with
  | Some row => txn_owner row =? owner
  | None => false
  end.

Definition capture_inventory_projection_change (s : Stock) (id : Z) (old : option BalanceRow)
    (new : BalanceRow) : result Stock ApplicationError :=
  let old_effective := from_option effective 0 old in
  let new_effective := effective new in
  let dimensions_match := match old with
                          | Some old => bool_decide (position old = position new)
                          | None => false
                          end in
  if match old with
     | None => new_effective =? 0
     | Some _ => dimensions_match && (old_effective =? new_effective)
     end
  then Ok s
  else
    match journal_context s with
    | None => raise "55000"
    | Some txn =>
        if negb (in_journal s txn (inventory_owner_id (position new))) then raise "55000"
        else
          let captured :=
            match old with
            | Some old =>
                if dimensions_match
                then change_rows s txn id (position new) (new_effective - old_effective)
                else (if old_effective =? 0 then []
                      else change_rows s txn id (position old) (- old_effective))
                     ++ (if new_effective =? 0 then []
                         else change_rows s txn id (position new) new_effective)
            | None => change_rows s txn id (position new) new_effective
            end in
          Ok (set_changes (changes s ++ captured) s)
    end.

(** [apply_inventory_allocation_projection] and [apply_inventory_hold_projection]: the
    columns [qty_reserved] and [qty_held] follow the rows. *)
Definition project_allocation (b : BalanceRow) (delta : Z) : option BalanceRow :=
  let reserved := qty_reserved b + delta in
  if (0 <=? reserved) && (reserved <=? qty_on_hand b)
  then Some (MkBalance (position b) (qty_on_hand b) reserved (qty_held b) (balance_deleted b))
  else None.
Definition project_hold (b : BalanceRow) (delta : Z) : option BalanceRow :=
  let held := qty_held b + delta in
  if (0 <=? held) && (qty_reserved b + held <=? qty_on_hand b)
  then Some (MkBalance (position b) (qty_on_hand b) (qty_reserved b) held (balance_deleted b))
  else None.

(** The columns of the two partial unique indexes of [inventory_balances]: one with a
    license plate, one without. *)
Definition index_key (p : Position) : Z * Z * option Z * Z * rstr * InventoryStatus :=
  (inventory_owner_id p, location_id p, license_plate_id p, item_batch_id p, uom p, status p).

(** ... and of that of [inventory_reservations], over the active rows. *)
Definition reservation_key (r : ReservationRow) : Z * Z * Z * Z :=
  (reservation_owner r, reservation_order r, reservation_line r, reservation_facility r).

Definition inactive_order (st : OrderStatus) : bool :=
  match st with Shipped | Cancelled | Void => true | _ => false end.

(** [validate_inventory_reservation], on insertion. *)
Definition validate_inventory_reservation (s : Stock) (r : ReservationRow) :
    result unit ApplicationError :=
  match order_items (directory s) !! reservation_line r,
        orders (directory s) !! reservation_order r with
  | Some line, Some order =>
      if negb ((line_owner line =? reservation_owner r) && (line_order line =? reservation_order r)
               && negb (line_deleted line)
               && (order_owner order =? line_owner line) && negb (order_deleted order)
               && negb (inactive_order (order_status order))
               && bool_decide ((line_owner line, reservation_facility r)
                                 ∈ owner_facilities (directory s)))
      then raise "23503"
      else if negb ((reservation_item r =? line_item line)
                    && bool_decide (reservation_uom r = line_uom line))
      then raise "23514"
      else
        let? active_demand := bigint (sum_rows (fun _ o =>
          if active_reservation o && (reservation_owner o =? reservation_owner r)
             && (reservation_order o =? reservation_order r)
             && (reservation_line o =? reservation_line r)
          then reservation_qty o else 0) (rows (reservations s))) in
        let? demand := bigint (active_demand + reservation_qty r) in
        if line_qty line <? demand then raise "23514" else Ok tt
  | _, _ => raise "23503"
  end.

(** [validate_inventory_allocation]: what it requires of the reservation and the balance, ... *)
Definition validate_inventory_allocation (s : Stock) (new : bool) (a : AllocationRow) : bool :=
  let p := allocation_position a in
  match rows (reservations s) !! allocation_reservation a,
        rows (balances s) !! allocation_balance a with
  | Some r, Some b =>
      (reservation_owner r =? inventory_owner_id p)
      && (inventory_owner_id (position b) =? inventory_owner_id p) && negb (balance_deleted b)
      && (facility_id p =? reservation_facility r) && bool_decide (p = position b)
      && (item_id p =? reservation_item r) && bool_decide (uom p = reservation_uom r)
      && bool_decide (status p = Available) && (negb new || active_reservation r)
  | _, _ => false
  end.

(** ... of the demand that a new row takes from its reservation, ... *)
Definition allocation_demand (s : Stock) (a : AllocationRow) : result unit ApplicationError :=
  match rows (reservations s) !! allocation_reservation a with
  | Some r =>
      let? allocated := bigint (allocated_of s (allocation_reservation a)) in
      let? demand := bigint (allocated + allocation_qty a) in
      if reservation_qty r <? demand then raise "23514" else Ok tt
  | None => raise "23503"
  end.

(** ... and of the stock it takes. *)
Definition allocation_in_stock (s : Stock) (a : AllocationRow) : bool :=
  match rows (balances s) !! allocation_balance a with
  | Some b => allocation_qty a <=? qty_on_hand b - qty_reserved b - qty_held b
  | None => false
  end.

Definition validate_inventory_hold (s : Stock) (new : bool) (h : HoldRow) : bool :=
  match rows (balances s) !! hold_balance h with
  | Some b =>
      (inventory_owner_id (position b) =? inventory_owner_id (hold_position h))
      && negb (balance_deleted b) && bool_decide (hold_position h = position b)
      && (qty_held b =? held_on s (hold_balance h))
      && (negb new || (hold_qty h <=? qty_on_hand b - qty_reserved b - qty_held b))
  | None => false
  end.

(** [validate_inventory_reservation], on the closing update: no allocation is left. *)
Definition reservation_may_close (s : Stock) (id : Z) (r : ReservationRow) : bool :=
  negb (existsb (fun '(_, a) => (allocation_reservation a =? id)
                   && (inventory_owner_id (allocation_position a) =? reservation_owner r)
                   && active_allocation a) (map_to_list (rows (allocations s)))).

(** ** Deferred constraints: what a journal transaction must look like at commit *)

Definition entries_of (s : Stock) (txn owner : Z) : list EntryRow :=
  List.filter (fun e => (entry_transaction e =? txn)
                 && (inventory_owner_id (entry_position e) =? owner)) (entries s).
Definition changes_of (s : Stock) (txn owner : Z) : list ChangeRow :=
  List.filter (fun c => (change_transaction c =? txn)
                 && (inventory_owner_id (change_position c) =? owner)) (changes s).

Definition conserved {K} `{EqDecision K} (key : EntryRow → K) (es : list EntryRow) : bool :=
  forallb (fun r => r.2 =? 0) (group_by ((fun e => (key e, quantity_delta e)) <$> es)).
Definition one_facility (es : list EntryRow) : bool :=
  (length (remove_dups ((fun e => facility_id (entry_position e)) <$> es)) <=? 1)%nat.
Definition same_rows {K} `{EqDecision K} (l1 l2 : list (K * Z)) : bool :=
  forallb (fun r => bool_decide (r ∈ group_by l2)) (group_by l1)
  && forallb (fun r => bool_decide (r ∈ group_by l1)) (group_by l2).

(** The dimensions a move conserves, and those a status change does. *)
Definition move_key (e : EntryRow) :=
  let p := entry_position e in
  (inventory_owner_id p, item_id p, uom p, entry_trace e, status p).
Definition status_change_key (e : EntryRow) :=
  let p := entry_position e in
  (inventory_owner_id p, item_batch_id p, item_id p, uom p, entry_trace e).

Definition enforce_inventory_transaction_conservation (s : Stock) (id : Z) (t : TransactionRow) :
    bool :=
  let es := entries_of s id (txn_owner t) in
  negb (bool_decide (es = []))
  && match txn_type t with
     | Move => conserved move_key es && one_facility es
     | Transfer =>
         conserved move_key es
         && (length (remove_dups ((fun e => facility_id (entry_position e)) <$> es)) =? 2)%nat
     | StatusChange => conserved status_change_key es && one_facility es
     | Receive => forallb (fun e => 0 <? quantity_delta e) es
     | Ship => forallb (fun e => quantity_delta e <? 0) es
     | _ => true
     end
  && same_rows ((fun c => (change_position c, change_trace c, change_delta c))
                  <$> changes_of s id (txn_owner t))
       ((fun e => (entry_position e, entry_trace e, quantity_delta e)) <$> es).

(** [inventory_reconciliation] at a position. *)
Definition projected_qty (s : Stock) (p : Position) : Z :=
  sum_rows (fun _ b => if bool_decide (position b = p) then effective b else 0)
    (rows (balances s)).
Definition journal_qty (s : Stock) (p : Position) : Z :=
  sum_by p ((fun e => (entry_position e, quantity_delta e)) <$> entries s).
Definition variance (s : Stock) (p : Position) : Z := projected_qty s p - journal_qty s p.

(** The positions the view would list: those of some row whose sums differ. *)
Definition inventory_reconciliation (s : Stock) : list Position :=
  List.filter (fun p => negb (variance s p =? 0))
    (remove_dups ((entry_position <$> entries s)
                    ++ ((fun r => position r.2) <$> map_to_list (rows (balances s))))).

Definition with_status (st : InventoryStatus) (p : Position) : Position :=
  MkPosition (inventory_owner_id p) (facility_id p) (location_id p) (license_plate_id p)
    (item_batch_id p) (item_id p) (uom p) st.

Definition enforce_inventory_status_transition (s : Stock) (id : Z) (t : TransactionRow) : bool :=
  let audit := List.filter (fun r => (transition_transaction r.2 =? id)
                              && (transition_owner r.2 =? txn_owner t))
                 (map_to_list (rows (transitions s))) in
  match txn_type t with
  | StatusChange =>
      match audit with
      | [(_, r)] =>
          (transition_created_by r =? txn_actor t)
          && bool_decide (txn_reason t = Some (lit (InventoryStatusChangeReason_as_str
                                                      (transition_reason r))))
          && bool_decide (transition_reference_type r = txn_reference_type t)
          && bool_decide (transition_reference_id r = txn_reference_id t)
          && match rows (balances s) !! transition_source r,
                   rows (balances s) !! transition_destination r with
             | Some src, Some dst =>
                 negb (balance_deleted src) && negb (balance_deleted dst)
                 && (facility_id (position src) =? transition_facility r)
                 && bool_decide (status (position src) = from_status r)
                 && bool_decide (position dst = with_status (to_status r) (position src))
                 && (length (entries_of s id (txn_owner t)) =? 2)%nat
                 && existsb (fun e => bool_decide (entry_position e = position src)
                                      && (quantity_delta e =? - transition_qty r))
                      (entries_of s id (txn_owner t))
                 && existsb (fun e => bool_decide (entry_position e = position dst)
                                      && (quantity_delta e =? transition_qty r))
                      (entries_of s id (txn_owner t))
                 && (variance s (position src) =? 0) && (variance s (position dst) =? 0)
             | _, _ => false
             end
      | _ => false
      end
  | _ => bool_decide (audit = [])
  end.
