(* ===== verification/StockJournal.v ===== *)
(** * Stock: the journal and the statements that change rows
      ([crates/api/src/repo/inventory_journal.rs])

    Each definition is one SQL statement of the handlers with the triggers it fires, or
    one primitive of the journal. *)

From stdpp Require Import pretty.
From S2P Require Import Prelude.
From S2P Require Import RustStr.
From S2P Require Import Idempotency.
From S2P Require Import Outbox.
From S2P Require Import StockTypes.
From S2P Require Import StockDb.

Section statements.
Context (guards : bool).

Definition guard (b : bool) (code : string) : result unit ApplicationError :=
  ensure (negb guards || b) (db_error (Sqlstate code)).

(** ** [inventory_balances] *)

(** A row [new] at [id] in place of [old]: the BEFORE triggers, the constraints, the row, and
    the AFTER trigger. [table] is the table with the row. *)
Definition write_balance (s : Stock) (id : Z) (old : option BalanceRow) (new : BalanceRow)
    (table : Table BalanceRow) : result Stock ApplicationError :=
  let? _ := guard (guard_inventory_balance_commitments s id old new) "55000" in
  let? _ := guard (inventory_row_matches_batch s (position new)) "23514" in
  if mixes_lots s id old new then raise "23514"
  else
    let? _ := guard (inventory_balances_checks new) "23514" in
    capture_inventory_projection_change (set_balances table s) id old new.

Definition with_on_hand (q : Z) (b : BalanceRow) : BalanceRow :=
  MkBalance (position b) q (qty_reserved b) (qty_held b) (balance_deleted b).

(** [UPDATE .. SET qty_on_hand = qty_on_hand - $qty WHERE ..]; the number of rows follows. *)
Definition decrement_where (s : Stock) (where_ : Z → BalanceRow → bool) (qty : Z) :
    result (Stock * nat) ApplicationError :=
  let found := List.filter (fun '(id, b) => where_ id b) (map_to_list (rows (balances s))) in
  let? s' := rfold (fun '(id, b) s =>
                      let? q := bigint (qty_on_hand b - qty) in
                      let new := with_on_hand q b in
                      write_balance s id (Some b) new (update_row (balances s) id new)) found s in
  Ok (s', length found).

Definition balance_at (s : Stock) (p : Position) : option (Z * BalanceRow) :=
  head (List.filter (fun '(_, b) => bool_decide (index_key (position b) = index_key p))
          (map_to_list (rows (balances s)))).

(** [INSERT INTO inventory_balances .. ON CONFLICT .. DO UPDATE SET qty_on_hand = ..
    + excluded.qty_on_hand, deleted = NULL RETURNING id]. The triggers BEFORE INSERT run
    on the proposed row even when the conflict turns it into an update, and the sequence has
    moved on. *)
Definition upsert_balance (s : Stock) (p : Position) (qty : Z) :
    result (Stock * Z) ApplicationError :=
  let fresh := next_id (balances s) in
  let proposed := MkBalance p qty 0 0 false in
  check require_active_inventory_owner_facility s (inventory_owner_id p) (facility_id p)
    else db_error (Sqlstate "23503") in
  match balance_at s p with
  | None =>
      let? _ := bigint qty in
      let? s' := write_balance s fresh None proposed (insert_row (balances s) proposed) in
      Ok (s', fresh)
  | Some (id, b) =>
      if mixes_lots s fresh None proposed then raise "23514"
      else
        let? q := bigint (qty_on_hand b + qty) in
        let new := MkBalance (position b) q (qty_reserved b) (qty_held b) false in
        let? s' := write_balance s id (Some b) new (skip_id (update_row (balances s) id new)) in
        Ok (s', id)
  end.

(** ** The outbox *)

Definition persistence_error (e : PersistenceError) : ApplicationError :=
  match e with
  | Database _ => Internal "database error"
  | InvalidInput why => InvalidRequest why
  | UniqueViolation _ => db_error (Sqlstate "23505")
  | PersistenceConflict why => Conflict why
  | InvalidData why => Internal why
  end.

Definition emit (s : Stock) (key aggregate id ordering : rstr) (sequence : Z) (type : rstr)
    (body : StockEvent) : result Stock ApplicationError :=
  let? t := map_err persistence_error
              (enqueue (fun _ => true) (outbox s)
                 (MkEvent key aggregate id ordering sequence type 1 body)) in
  Ok (set_outbox t s).

(** An event of an aggregate whose ordering key is [<name>:<id>]. *)
Definition emit_transition (s : Stock) (name aggregate prefix : string) (id : Z)
    (transition : string) (sequence : Z) (body : StockEvent) : result Stock ApplicationError :=
  emit s (lit (name +:+ ":" +:+ pretty id +:+ ":" +:+ transition)) (lit aggregate)
    (lit (pretty id)) (lit (name +:+ ":" +:+ pretty id)) sequence
    (lit (prefix +:+ "." +:+ transition)) body.

Definition enqueue_reservation_event (s : Stock) (id : Z) (transition : string) (sequence : Z)
    (body : StockEvent) : result Stock ApplicationError :=
  emit_transition s "inventory-reservation" "inventory_reservation" "inventory.reservation" id
    transition sequence body.
Definition enqueue_allocation_event (s : Stock) (id : Z) (transition : string) (sequence : Z)
    (body : StockEvent) : result Stock ApplicationError :=
  emit_transition s "inventory-allocation" "inventory_allocation" "inventory.allocation" id
    transition sequence body.
Definition enqueue_hold_event (s : Stock) (id : Z) (transition : string) (sequence : Z)
    (body : StockEvent) : result Stock ApplicationError :=
  emit_transition s "inventory-hold" "inventory_hold" "inventory.hold" id
    transition sequence body.

(** ** The journal *)

Definition owner_facility_scope (owner facility : Z) : result (Z * Z) ApplicationError :=
  let? owner := positive_new (fun _ => Internal "inventory owner ID must be positive") owner in
  let? facility := positive_new (fun _ => Internal "facility ID must be positive") facility in
  Ok (owner, facility).

Definition lock_active_owner_facility_tx (s : Stock) (scope : Z * Z) :
    result unit ApplicationError :=
  if require_active_inventory_owner_facility s scope.1 scope.2 then Ok tt
  else Err (Conflict "inventory owner is not active in the facility").

(** [begin_transaction]: the journal row, the setting that names it and its event. *)
Definition begin_transaction (s : Stock) (scope : Z * Z) (row : TransactionRow) :
    result (Stock * Z) ApplicationError :=
  if bool_decide (trim (txn_operation row) = [])
  then Err (Internal "journal operation cannot be blank")
  else
    let? _ := lock_active_owner_facility_tx s scope in
    match journal_context s with
    | Some _ => Err (Internal "database transaction already contains an inventory transaction")
    | None =>
        let id := next_id (transactions s) in
        let s := set_context (Some id) (set_transactions (insert_row (transactions s) row) s) in
        let key := lit ("inventory-transaction:" +:+ pretty id) in
        let? s := emit s key (lit "inventory_transaction") (lit (pretty id)) key 1
          (lit "inventory.transaction.recorded")
          (TransactionRecorded id scope.1 scope.2 (txn_type row) (txn_operation row)) in
        Ok (s, id)
    end.

Record JournalEntry := MkJournalEntry {
  je_location : Z;
  je_license_plate : option Z;
  je_item_batch : Z;
  je_status : InventoryStatus;
  je_quantity_delta : Z;
}.

Definition append_entry (s : Stock) (scope : Z * Z) (txn : Z) (entry : JournalEntry) :
    result Stock ApplicationError :=
  if je_quantity_delta entry =? 0
  then Err (Internal "inventory journal entries cannot have a zero quantity")
  else
    match batch_in_scope s scope.1 (je_item_batch entry) with
    | Some b =>
        if batch_deleted b then Err (Conflict "item batch is outside the command scope")
        else
          let? _ := guard (require_active_inventory_owner_facility s scope.1 scope.2) "23503" in
          let? _ := guard (in_journal s txn scope.1) "55000" in
          let p := MkPosition scope.1 scope.2 (je_location entry) (je_license_plate entry)
                     (je_item_batch entry) (batch_item b) (batch_uom b) (je_status entry) in
          Ok (set_entries (entries s ++ [MkEntry txn p (batch_trace b) (je_quantity_delta entry)]) s)
    | None => Err (Conflict "item batch is outside the command scope")
    end.

(** ** Reservations, allocations and holds *)

Definition insert_reservation (s : Stock) (r : ReservationRow) :
    result (Stock * Z) ApplicationError :=
  check require_active_inventory_owner_facility s (reservation_owner r) (reservation_facility r)
    else db_error (Sqlstate "23503") in
  let? _ := validate_inventory_reservation s r in
  if existsb (fun '(_, o) => active_reservation o && bool_decide (reservation_key o = reservation_key r))
       (map_to_list (rows (reservations s)))
  then raise "23505"
  else Ok (set_reservations (insert_row (reservations s) r) s, next_id (reservations s)).

Definition close_reservation (s : Stock) (id : Z) (st : ReservationStatus) :
    result (Stock * nat) ApplicationError :=
  match rows (reservations s) !! id with
  | Some r =>
      if active_reservation r then
        let? _ := guard (reservation_may_close s id r) "55000" in
        Ok (set_reservations
              (update_row (reservations s) id
                 (MkReservation (reservation_owner r) (reservation_order r) (reservation_line r)
                    (reservation_facility r) (reservation_item r) (reservation_uom r)
                    (reservation_qty r) st)) s, 1%nat)
      else Ok (s, 0%nat)
  | None => Ok (s, 0%nat)
  end.

(** The projection of a commitment onto its balance. *)
Definition project (s : Stock) (balance owner : Z) (f : BalanceRow → option BalanceRow) :
    result Stock ApplicationError :=
  match rows (balances s) !! balance with
  | Some b =>
      if inventory_owner_id (position b) =? owner then
        match f b with
        | Some new => write_balance s balance (Some b) new (update_row (balances s) balance new)
        | None => raise "55000"
        end
      else raise "55000"
  | None => raise "55000"
  end.

Definition insert_allocation (s : Stock) (a : AllocationRow) : result (Stock * Z) ApplicationError :=
  let owner := inventory_owner_id (allocation_position a) in
  check require_active_inventory_owner_facility s owner (facility_id (allocation_position a))
    else db_error (Sqlstate "23503") in
  let? _ := guard (validate_inventory_allocation s true a) "23514" in
  let? _ := allocation_demand s a in
  let? _ := guard (allocation_in_stock s a) "55000" in
  let id := next_id (allocations s) in
  let? s := project (set_allocations (insert_row (allocations s) a) s) (allocation_balance a) owner
              (fun b => project_allocation b (allocation_qty a)) in
  Ok (s, id).

Definition with_allocation_status (st : AllocationStatus) (a : AllocationRow) : AllocationRow :=
  MkAllocation (allocation_reservation a) (allocation_balance a) (allocation_position a)
    (allocation_qty a) st.

(** [UPDATE inventory_allocations SET .., status = 'released' WHERE id = .. AND status =
    'allocated'] *)
Definition release_allocation (s : Stock) (id : Z) : result (Stock * nat) ApplicationError :=
  match rows (allocations s) !! id with
  | Some a =>
      if active_allocation a then
        let a' := with_allocation_status AllocationReleased a in
        let? _ := guard (validate_inventory_allocation s false a') "23514" in
        let? s := project (set_allocations (update_row (allocations s) id a') s)
                    (allocation_balance a) (inventory_owner_id (allocation_position a))
                    (fun b => project_allocation b (- allocation_qty a)) in
        Ok (s, 1%nat)
      else Ok (s, 0%nat)
  | None => Ok (s, 0%nat)
  end.

Definition insert_hold (s : Stock) (h : HoldRow) : result (Stock * Z) ApplicationError :=
  let owner := inventory_owner_id (hold_position h) in
  check require_active_inventory_owner_facility s owner (facility_id (hold_position h))
    else db_error (Sqlstate "23503") in
  let? _ := guard (validate_inventory_hold s true h) "23514" in
  let id := next_id (holds s) in
  let? s := project (set_holds (insert_row (holds s) h) s) (hold_balance h) owner
              (fun b => project_hold b (hold_qty h)) in
  Ok (s, id).

Definition with_hold_status (st : InventoryHoldStatus) (h : HoldRow) : HoldRow :=
  MkHold (hold_balance h) (hold_position h) (hold_qty h) (hold_reason h) (hold_note h)
    (hold_reference_type h) (hold_reference_id h) st.

Definition release_hold_row (s : Stock) (id : Z) : result (Stock * nat) ApplicationError :=
  match rows (holds s) !! id with
  | Some h =>
      if active_hold h then
        let h' := with_hold_status HoldReleased h in
        let? _ := guard (validate_inventory_hold s false h') "23514" in
        let? s := project (set_holds (update_row (holds s) id h') s)
                    (hold_balance h) (inventory_owner_id (hold_position h))
                    (fun b => project_hold b (- hold_qty h)) in
        Ok (s, 1%nat)
      else Ok (s, 0%nat)
  | None => Ok (s, 0%nat)
  end.

(** The CHECK constraints of [inventory_status_transitions] on its enumerations. *)
Definition transition_checks (r : TransitionRow) : bool :=
  negb (transition_source r =? transition_destination r)
  && negb (bool_decide (from_status r = to_status r))
  && allows_target_status (transition_reason r) (to_status r)
  && negb (bool_decide (transition_reason r = ReasonOther)
           && bool_decide (transition_note r = None))
  && (0 <? transition_qty r).

Definition insert_transition (s : Stock) (r : TransitionRow) :
    result (Stock * Z) ApplicationError :=
  let? _ := guard (transition_checks r) "23514" in
  Ok (set_transitions (insert_row (transitions s) r) s, next_id (transitions s)).

(** ** The end of a database transaction: deferred constraints, and the setting is gone *)

Definition commit_stock (s : Stock) : result Stock ApplicationError :=
  match journal_context s with
  | None => Ok s
  | Some id =>
      match rows (transactions s) !! id with
      | Some t =>
          let? _ := guard (enforce_inventory_transaction_conservation s id t) "23514" in
          let? _ := guard (enforce_inventory_status_transition s id t) "23514" in
          Ok (set_context None s)
      | None => Ok (set_context None s)
      end
  end.
End statements.
