(* ===== verification/StockHandlers.v ===== *)
(** * Stock: the handlers ([crates/api/src/repo/inventory.rs], [inventory_allocation.rs],
      [inventory_hold.rs] and [inventory_status_change.rs])

    Receipts, moves, splits, status changes, reservations, allocations, holds and
    batches: for each handler the rows it locks and checks first, the work it does after
    the replay check. Where a handler reads a hint, locks and reads the row again, the
    two readings are one row here: the comparisons of their license plates hold. *)

From stdpp Require Import pretty.
From S2P Require Import Prelude.
From S2P Require Import RustStr.
From S2P Require Import Orders.
From S2P Require Import Idempotency.
From S2P Require Import Outbox.
From S2P Require Import StockTypes.
From S2P Require Import StockDb.
From S2P Require Import StockJournal.

(** ** Commands and results *)

Record ChangeInventoryStatusCommand := MkChangeStatus {
  cs_balance : Z;
  cs_qty : Z;
  cs_to_status : InventoryStatus;
  cs_reason : InventoryStatusChangeReason;
  cs_note : option rstr;
  cs_reference_type : option rstr;
  cs_reference_id : option Z;
}.

Record PlaceInventoryHoldCommand := MkPlaceHold {
  ph_balance : Z;
  ph_qty : Z;
  ph_reason : InventoryHoldReason;
  ph_note : option rstr;
  ph_reference_type : option rstr;
  ph_reference_id : option Z;
}.

(** What a move, a receipt or a split says about itself. *)
Record Memo := MkMemo {
  memo_reason : option rstr;
  memo_reference_type : option rstr;
  memo_reference_id : option Z;
}.

(** The tuples that are hashed as the request. *)
Inductive StockRequest :=
| ReceiveRequest (batch to qty : Z) (status : InventoryStatus) (memo : Memo)
| MoveRequest (batch from to qty : Z) (status : InventoryStatus) (memo : Memo)
| SplitRequest (balance : Z) (destinations : list (Z * Z)) (memo : Memo)
| ReservationRequest (order line facility qty : Z)
| AllocateRequest (reservation balance qty : Z)
| CancelAllocationRequest (allocation : Z)
| CancelReservationRequest (reservation : Z)
| ChangeStatusRequest (command : ChangeInventoryStatusCommand)
| PlaceHoldRequest (command : PlaceInventoryHoldCommand)
| ReleaseHoldRequest (hold : Z).

Inductive StockResult :=
| TransactionResult (id : Z)
| ReservationResult (reservation_id : Z)
| AllocationResult (allocation_id : Z)
| CancelAllocationResult (allocation_id released_qty : Z)
| CancelReservationResult (reservation_id released_qty : Z)
| ChangeStatusResult (transaction source target qty : Z) (from to : InventoryStatus)
| PlaceHoldResult (hold_id : Z)
| ReleaseHoldResult (hold_id released_qty : Z).

(** ** Checks and locks *)

Definition validated_optional_text (value : option rstr) (maximum_characters : Z) (blank long : string) :
    result (option rstr) ApplicationError :=
  match value with
  | None => Ok None
  | Some text =>
      if negb (bool_decide (trim text = text)) || bool_decide (text = [])
      then Err (InvalidRequest blank)
      else if maximum_characters <? chars_count text then Err (InvalidRequest long)
      else Ok (Some text)
  end.

Definition reference_ok (reference_type : option rstr) (reference_id : option Z) : bool :=
  match reference_type, reference_id with
  | None, None => true
  | Some _, Some id => 1 <=? id
  | _, _ => false
  end.

Definition validate_command (c : ChangeInventoryStatusCommand) :
    result ChangeInventoryStatusCommand ApplicationError :=
  check 0 <? cs_balance c else InvalidRequest "inventory balance ID must be positive" in
  check 0 <? cs_qty c else InvalidRequest "quantity must be positive" in
  let? note := validated_optional_text (cs_note c) 1000
    "status change note must be trimmed and nonempty"
    "status change note cannot exceed 1000 characters" in
  let? reference_type := validated_optional_text (cs_reference_type c) 100
    "status change reference type must be trimmed and nonempty"
    "status change reference type cannot exceed 100 characters" in
  check reference_ok reference_type (cs_reference_id c)
    else InvalidRequest "status change reference type and positive ID must be provided together" in
  if bool_decide (cs_reason c = ReasonOther) && bool_decide (note = None)
  then Err (InvalidRequest "status change note is required when reason is other")
  else
    check allows_target_status (cs_reason c) (cs_to_status c)
      else InvalidRequest "status change reason does not permit the requested target status" in
    Ok (MkChangeStatus (cs_balance c) (cs_qty c) (cs_to_status c) (cs_reason c) note
          reference_type (cs_reference_id c)).

Definition validate_place_command (c : PlaceInventoryHoldCommand) :
    result PlaceInventoryHoldCommand ApplicationError :=
  check 0 <? ph_balance c else InvalidRequest "inventory balance ID must be positive" in
  check 0 <? ph_qty c else InvalidRequest "quantity must be positive" in
  let? note := validated_optional_text (ph_note c) 1000
    "hold note must be trimmed and nonempty" "hold note cannot exceed 1000 characters" in
  let? reference_type := validated_optional_text (ph_reference_type c) 100
    "hold reference type must be trimmed and nonempty"
    "hold reference type cannot exceed 100 characters" in
  check reference_ok reference_type (ph_reference_id c)
    else InvalidRequest "hold reference type and positive ID must be provided together" in
  if bool_decide (ph_reason c = InventoryHoldOther) && bool_decide (note = None)
  then Err (InvalidRequest "hold note is required when reason is other")
  else Ok (MkPlaceHold (ph_balance c) (ph_qty c) (ph_reason c) note reference_type
             (ph_reference_id c)).

(** Rows of a query in the order of their ids. *)
Definition ordered_rows {A} (where_ : Z → A → bool) (t : Table A) : list (Z * A) :=
  sort_by (fun x y => Z.compare x.1 y.1)
    (List.filter (fun '(id, x) => where_ id x) (map_to_list (rows t))).

Definition lock_loose_balance_positions_tx (s : Stock) (batch : Z) (st : InventoryStatus)
    (location_ids : list Z) : list (Z * BalanceRow) :=
  ordered_rows (fun _ b => (item_batch_id (position b) =? batch)
                           && bool_decide (status (position b) = st)
                           && bool_decide (location_id (position b) ∈ location_ids)
                           && bool_decide (license_plate_id (position b) = None)) (balances s).

Definition ensure_location_accepts_batch_tx (s : Stock) (owner location batch : Z) :
    result unit ApplicationError :=
  match batch_in_scope s owner batch with
  | Some incoming =>
      if batch_deleted incoming then Err (db_error RowNotFound)
      else if existsb (fun '(_, ib) => negb (item_batch_id (position ib) =? batch)
                         && other_lot s owner location incoming ib)
                (map_to_list (rows (balances s)))
      then Err (Conflict "location already contains this item with a different lot or expiration")
      else Ok tt
  | None => Err (db_error RowNotFound)
  end.

(** [SELECT facility_id FROM locations WHERE id = .. AND deleted IS NULL AND active] *)
Definition active_location (s : Stock) (location : Z) : option Z :=
  match locations (directory s) !! location with
  | Some row => if negb (location_deleted row) && location_active row
                then Some (location_facility row) else None
  | None => None
  end.

Definition lock_license_plate (s : Stock) (plate : option Z) : result unit ApplicationError :=
  match plate with
  | None => Ok tt
  | Some plate =>
      if bool_decide (plate ∈ license_plates (directory s)) then Ok tt
      else Err (Internal "inventory operation references a missing license plate")
  end.

Definition lock_balance (s : Stock) (id : Z) : result BalanceRow ApplicationError :=
  ok_or (rows (balances s) !! id) (NotFound "inventory balance").

Definition lock_reservation_tx (s : Stock) (id : Z) : result ReservationRow ApplicationError :=
  ok_or (rows (reservations s) !! id) (NotFound "inventory reservation").

(** [qty_on_hand - qty_reserved - qty_held] in [i64], unchecked. *)
Definition available (b : BalanceRow) : Z :=
  i64_sub (i64_sub (qty_on_hand b) (qty_reserved b)) (qty_held b).

(** ... and checked. *)
Definition uncommitted (b : BalanceRow) : result Z ApplicationError :=
  ok_or (match i64_checked_sub (qty_on_hand b) (qty_reserved b) with
         | Some q => i64_checked_sub q (qty_held b)
         | None => None
         end) (Internal "inventory commitments are out of range").

Definition loose (owner facility location batch item : Z) (unit_ : rstr) (st : InventoryStatus) :
    Position := MkPosition owner facility location None batch item unit_ st.

Section works.
Context (guards : bool).

(** ** Receipts, moves and splits: the work after the replay check *)

Definition receive_work (scope : ScopeBindings) (actor : Z) (key hash : rstr)
    (batch to qty : Z) (st : InventoryStatus) (memo : Memo) (s : Stock) :
    result (Stock * StockResult * option Z) ApplicationError :=
  match rows (batches s) !! batch with
  | None => Err (Conflict "item batch was not found in the selected tenant")
  | Some b =>
      if batch_deleted b then Err (Conflict "item batch was not found in the selected tenant")
      else
        let owner := batch_owner b in
        let? facility := ok_or (active_location s to) (db_error RowNotFound) in
        let? owner_facility := owner_facility_scope owner facility in
        let? _ := require_scope scope owner facility in
        let? (s, txn) := begin_transaction s owner_facility
          (MkTransaction owner actor Receive (memo_reason memo) (memo_reference_type memo)
             (memo_reference_id memo) None (lit "receive_inventory") (Some key) hash) in
        let? _ := ensure_location_accepts_batch_tx s owner to batch in
        let? (s, _) := upsert_balance guards s
          (loose owner facility to batch (batch_item b) (batch_uom b) st) qty in
        let? s := append_entry guards s owner_facility txn (MkJournalEntry to None batch st qty) in
        let? s := commit_stock guards s in
        Ok (s, TransactionResult txn, Some txn)
  end.

Definition move_work (scope : ScopeBindings) (actor : Z) (key hash : rstr)
    (batch from to qty : Z) (st : InventoryStatus) (memo : Memo) (s : Stock) :
    result (Stock * StockResult * option Z) ApplicationError :=
  match find (fun '(_, b) => (location_id (position b) =? from) && negb (balance_deleted b))
          (lock_loose_balance_positions_tx s batch st [from; to]) with
  | None => Err (Conflict "source inventory balance was not found")
  | Some (_, source) =>
      let p := position source in
      let owner := inventory_owner_id p in
      if available source <? qty
      then Err (Conflict "insufficient available inventory at source location")
      else
        let? destination_facility := ok_or (active_location s to) (db_error RowNotFound) in
        check facility_id p =? destination_facility
          else Conflict "inventory moves cannot cross facilities; use an inventory transfer workflow" in
        let? owner_facility := owner_facility_scope owner (facility_id p) in
        let? _ := require_scope scope owner (facility_id p) in
        let? (s, txn) := begin_transaction s owner_facility
          (MkTransaction owner actor Move (memo_reason memo) (memo_reference_type memo)
             (memo_reference_id memo) None (lit "move_inventory") (Some key) hash) in
        let? _ := ensure_location_accepts_batch_tx s owner to batch in
        let? (s, affected) := decrement_where guards s
          (fun _ b => (inventory_owner_id (position b) =? owner)
                      && (location_id (position b) =? from) && (item_batch_id (position b) =? batch)
                      && bool_decide (status (position b) = st)
                      && bool_decide (license_plate_id (position b) = None)
                      && negb (balance_deleted b)
                      && (qty <=? qty_on_hand b - qty_reserved b - qty_held b)) qty in
        if (affected =? 0)%nat
        then Err (Conflict "insufficient available inventory at source location")
        else
          let? (s, _) := upsert_balance guards s
            (loose owner destination_facility to batch (item_id p) (uom p) st) qty in
          let? s := append_entry guards s owner_facility txn (MkJournalEntry from None batch st (- qty)) in
          let? s := append_entry guards s owner_facility txn (MkJournalEntry to None batch st qty) in
          let? s := commit_stock guards s in
          Ok (s, TransactionResult txn, Some txn)
  end.

(** The checks of the destinations, and their total. *)
Fixpoint total_quantity (destinations : list (Z * Z)) (seen : gset Z) (total : Z) :
    result Z ApplicationError :=
  match destinations with
  | [] => Ok total
  | (to, qty) :: rest =>
      check 0 <? to else InvalidRequest "destination location is required" in
      check 0 <? qty else InvalidRequest "quantity must be positive" in
      if bool_decide (to ∈ seen) then Err (InvalidRequest "destination locations must be unique")
      else
        let? total := ok_or (i64_checked_add total qty) (InvalidRequest "move quantity is too large") in
        total_quantity rest ({[to]} ∪ seen) total
  end.

(** One destination of a split. *)
Definition split_destination (owner_facility : Z * Z) (txn : Z) (source : Position)
    (destination : Z * Z) (s : Stock) : result Stock ApplicationError :=
  let owner := inventory_owner_id source in
  let batch := item_batch_id source in
  let? _ := ensure_location_accepts_batch_tx s owner destination.1 batch in
  let? (s, _) := upsert_balance guards s
    (loose owner (facility_id source) destination.1 batch (item_id source) (uom source)
       (status source)) destination.2 in
  append_entry guards s owner_facility txn
    (MkJournalEntry destination.1 None batch (status source) destination.2).

Definition split_work (scope : ScopeBindings) (actor : Z) (key hash : rstr)
    (balance : Z) (destinations : list (Z * Z)) (total : Z) (memo : Memo) (s : Stock) :
    result (Stock * StockResult * option Z) ApplicationError :=
  match rows (balances s) !! balance with
  | None => Err (Conflict "source inventory balance was not found")
  | Some hint =>
      if balance_deleted hint then Err (Conflict "source inventory balance was not found")
      else
        check bool_decide (license_plate_id (position hint) = None)
          else Conflict "use the License Plates panel to move license-plated stock" in
        match find (fun '(id, b) => (id =? balance) && negb (balance_deleted b))
                (lock_loose_balance_positions_tx s (item_batch_id (position hint))
                   (status (position hint))
                   (location_id (position hint) :: destinations.*1)) with
        | None => Err (Conflict "source inventory balance was not found")
        | Some (_, source) =>
            let p := position source in
            let owner := inventory_owner_id p in
            if existsb (fun d => d.1 =? location_id p) destinations
            then Err (InvalidRequest "source and destination locations must differ")
            else if available source <? total
            then Err (Conflict "insufficient available inventory at source location")
            else
              let destination_rows := omap (fun d => active_location s d.1) destinations in
              check (length destination_rows =? length destinations)%nat
                else InvalidRequest "one or more destination locations were not found" in
              check forallb (fun f => f =? facility_id p) destination_rows
                else Conflict "inventory moves cannot cross facilities; use an inventory transfer workflow" in
              let? owner_facility := owner_facility_scope owner (facility_id p) in
              let? _ := require_scope scope owner (facility_id p) in
              let? (s, txn) := begin_transaction s owner_facility
                (MkTransaction owner actor Move (memo_reason memo) (memo_reference_type memo)
                   (memo_reference_id memo) None (lit "split_move_inventory") (Some key) hash) in
              let? (s, affected) := decrement_where guards s
                (fun id b => (id =? balance) && bool_decide (license_plate_id (position b) = None)
                             && negb (balance_deleted b)
                             && (total <=? qty_on_hand b - qty_reserved b - qty_held b)) total in
              if (affected =? 0)%nat
              then Err (Conflict "insufficient available inventory at source location")
              else
                let? s := append_entry guards s owner_facility txn
                  (MkJournalEntry (location_id p) None (item_batch_id p) (status p) (- total)) in
                let? s := rfold (split_destination owner_facility txn p)
                            (sort_by (fun x y => Z.compare x.1 y.1) destinations) s in
                let? s := commit_stock guards s in
                Ok (s, TransactionResult txn, Some txn)
        end
  end.

(** ** Status changes *)

(** The rows a status change locks: the balance and the one it moves stock to. *)
Definition lock_status_balances (s : Stock) (hint : Position) (to : InventoryStatus) :
    list (Z * BalanceRow) :=
  ordered_rows (fun _ b => bool_decide (with_status (status hint) (position b) = hint)
                           && (bool_decide (status (position b) = status hint)
                               || bool_decide (status (position b) = to))) (balances s).

Definition change_status_locks (scope : ScopeBindings) (command : ChangeInventoryStatusCommand)
    (s : Stock) : result (Position * BalanceRow) ApplicationError :=
  let? hint := lock_balance s (cs_balance command) in
  let? _ := lock_license_plate s (license_plate_id (position hint)) in
  match find (fun '(id, _) => id =? cs_balance command)
          (lock_status_balances s (position hint) (cs_to_status command)) with
  | None => Err (Conflict "inventory balance changed while acquiring status-change locks")
  | Some (_, source) =>
      let? _ := require_scope scope (inventory_owner_id (position source))
                  (facility_id (position source)) in
      Ok (position hint, source)
  end.

Definition change_status_work (actor : Z) (request key hash : rstr)
    (command : ChangeInventoryStatusCommand) (locked : Position * BalanceRow) (s : Stock) :
    result (Stock * StockResult * option Z) ApplicationError :=
  let '(hint, source) := locked in
  let p := position source in
  let qty := cs_qty command in
  let to := cs_to_status command in
  check bool_decide (p = hint)
    else Conflict "inventory balance changed while acquiring status-change locks" in
  if balance_deleted source then Err (Conflict "inventory balance is not active")
  else if bool_decide (status p = to)
  then Err (Conflict "inventory balance already has the requested status")
  else
    let? free := uncommitted source in
    if free <? qty then Err (Conflict "insufficient uncommitted inventory for status change")
    else
      let? owner_facility := owner_facility_scope (inventory_owner_id p) (facility_id p) in
      let? (s, txn) := begin_transaction s owner_facility
        (MkTransaction (inventory_owner_id p) actor StatusChange
           (Some (lit (InventoryStatusChangeReason_as_str (cs_reason command))))
           (cs_reference_type command) (cs_reference_id command) (Some request)
           (lit "inventory.status_change.v1") (Some key) hash) in
      let? (s, updated) := decrement_where guards s
        (fun id b => (inventory_owner_id (position b) =? inventory_owner_id p)
                     && (id =? cs_balance command) && bool_decide (status (position b) = status p)
                     && negb (balance_deleted b) && (qty_on_hand b =? qty_on_hand source)
                     && (qty_reserved b =? qty_reserved source) && (qty_held b =? qty_held source)
                     && (qty <=? qty_on_hand b - qty_reserved b - qty_held b)) qty in
      check (updated =? 1)%nat else Conflict "inventory balance changed during status change" in
      let? (s, target) := upsert_balance guards s (with_status to p) qty in
      let? s := append_entry guards s owner_facility txn
        (MkJournalEntry (location_id p) (license_plate_id p) (item_batch_id p) (status p) (- qty)) in
      let? s := append_entry guards s owner_facility txn
        (MkJournalEntry (location_id p) (license_plate_id p) (item_batch_id p) to qty) in
      let row := MkTransition (inventory_owner_id p) (facility_id p) txn (cs_balance command) target
                   (status p) to qty (cs_reason command) (cs_note command)
                   (cs_reference_type command) (cs_reference_id command) actor in
      let? (s, transition) := insert_transition guards s row in
      let key := lit ("inventory-transaction:" +:+ pretty txn) in
      let? s := emit s (lit ("inventory-transaction:" +:+ pretty txn +:+ ":status-changed"))
        (lit "inventory_transaction") (lit (pretty txn)) key 2 (lit "inventory.status.changed")
        (StatusChanged transition row p) in
      let? s := commit_stock guards s in
      Ok (s, ChangeStatusResult txn (cs_balance command) target qty (status p) to, Some txn).

(** ** Reservations and allocations *)

(** The order line, joined with its order. *)
Definition lock_order_line (scope : ScopeBindings) (order line facility : Z) (s : Stock) :
    result (OrderRow * OrderLineRow) ApplicationError :=
  match orders (directory s) !! order, order_items (directory s) !! line with
  | Some o, Some l =>
      check (line_owner l =? order_owner o) && (line_order l =? order) else NotFound "order line" in
      let? _ := require_scope scope (order_owner o) facility in
      Ok (o, l)
  | _, _ => Err (NotFound "order line")
  end.

Definition reserve_work (order line facility qty : Z) (locked : OrderRow * OrderLineRow) (s : Stock) :
    result (Stock * StockResult * option Z) ApplicationError :=
  let '(o, l) := locked in
  if order_deleted o || line_deleted l || inactive_order (order_status o)
  then Err (Conflict "inventory cannot be reserved for an inactive order line")
  else
    let? owner_facility := owner_facility_scope (order_owner o) facility in
    let? _ := lock_active_owner_facility_tx s owner_facility in
    let? reserved_qty := bigint (reserved_of s (order_owner o) line) in
    if line_qty l <? i64_add reserved_qty qty
    then Err (Conflict "reservation quantity exceeds remaining order line demand")
    else
      let row := MkReservation (order_owner o) order line facility (line_item l) (line_uom l) qty
                   ReservationActive in
      let? (s, id) := insert_reservation s row in
      let? s := enqueue_reservation_event s id "created" 1 (ReservationCreated id row) in
      Ok (s, ReservationResult id, None).

Definition allocate_locks (scope : ScopeBindings) (reservation balance : Z) (s : Stock) :
    result (ReservationRow * BalanceRow) ApplicationError :=
  let? r := lock_reservation_tx s reservation in
  let? _ := require_scope scope (reservation_owner r) (reservation_facility r) in
  let? b := lock_balance s balance in
  let? _ := lock_license_plate s (license_plate_id (position b)) in
  let? _ := require_scope scope (inventory_owner_id (position b)) (facility_id (position b)) in
  Ok (r, b).

Definition allocate_work (reservation balance qty : Z) (locked : ReservationRow * BalanceRow)
    (s : Stock) : result (Stock * StockResult * option Z) ApplicationError :=
  let '(r, b) := locked in
  let p := position b in
  check active_reservation r else Conflict "reservation is not active" in
  if balance_deleted b || negb (bool_decide (status p = Available))
     || negb (inventory_owner_id p =? reservation_owner r)
     || negb (facility_id p =? reservation_facility r)
     || negb (item_id p =? reservation_item r) || negb (bool_decide (uom p = reservation_uom r))
  then Err (Conflict "inventory balance dimensions do not match the reservation")
  else
    let? allocated_qty := bigint (allocated_of s reservation) in
    if reservation_qty r <? i64_add allocated_qty qty
    then Err (Conflict "allocation quantity exceeds remaining reservation demand")
    else if available b <? qty then Err (Conflict "insufficient available inventory to allocate")
    else
      let row := MkAllocation reservation balance p qty Allocated in
      let? (s, id) := insert_allocation guards s row in
      let? s := enqueue_allocation_event s id "created" 1 (AllocationCreated id row) in
      Ok (s, AllocationResult id, None).

Definition cancel_allocation_locks (scope : ScopeBindings) (allocation : Z) (s : Stock) :
    result (ReservationRow * AllocationRow) ApplicationError :=
  let? a := ok_or (rows (allocations s) !! allocation) (NotFound "inventory allocation") in
  let? r := lock_reservation_tx s (allocation_reservation a) in
  let? _ := require_scope scope (reservation_owner r) (reservation_facility r) in
  let? _ := ok_or (rows (balances s) !! allocation_balance a) (db_error RowNotFound) in
  let? _ := require_scope scope (reservation_owner r) (facility_id (allocation_position a)) in
  Ok (r, a).

Definition cancel_allocation_work (allocation : Z) (locked : ReservationRow * AllocationRow)
    (s : Stock) : result (Stock * StockResult * option Z) ApplicationError :=
  let '(r, a) := locked in
  check active_allocation a else Conflict "inventory allocation is not active" in
  let? (s, updated) := release_allocation guards s allocation in
  check (updated =? 1)%nat else Conflict "inventory allocation could not be cancelled" in
  let? s := enqueue_allocation_event s allocation "released" 2
              (AllocationClosed allocation a (reservation_owner r) None) in
  Ok (s, CancelAllocationResult allocation (allocation_qty a), None).

(** [ORDER BY inventory_balance_id, id] *)
Definition allocation_order (x y : Z * AllocationRow) : comparison :=
  then_with (Z.compare (allocation_balance x.2) (allocation_balance y.2)) (Z.compare x.1 y.1).

Definition cancel_reservation_locks (scope : ScopeBindings) (reservation : Z) (s : Stock) :
    result ReservationRow ApplicationError :=
  let? r := lock_reservation_tx s reservation in
  let? _ := require_scope scope (reservation_owner r) (reservation_facility r) in
  Ok r.

Definition release_one (scope : ScopeBindings) (r : ReservationRow) (allocation : Z * AllocationRow)
    (acc : Stock * Z) : result (Stock * Z) ApplicationError :=
  let '(id, a) := allocation in
  let '(s, released_qty) := acc in
  let? _ := require_scope scope (reservation_owner r) (facility_id (allocation_position a)) in
  let? (s, updated) := release_allocation guards s id in
  check (updated =? 1)%nat
    else Conflict "inventory reservation allocations could not be released" in
  let? released_qty := ok_or (i64_checked_add released_qty (allocation_qty a))
                         (Internal "released allocation quantity overflow") in
  let? s := enqueue_allocation_event s id "released" 2
              (AllocationClosed id a (reservation_owner r) (Some "reservation_cancelled")) in
  Ok (s, released_qty).

Definition cancel_reservation_work (scope : ScopeBindings) (reservation : Z) (r : ReservationRow)
    (s : Stock) : result (Stock * StockResult * option Z) ApplicationError :=
  check active_reservation r else Conflict "inventory reservation is not active" in
  let found := sort_by allocation_order
    (List.filter (fun '(_, a) => (allocation_reservation a =? reservation) && active_allocation a)
       (map_to_list (rows (allocations s)))) in
  let? (s, released_qty) := rfold (release_one scope r) found (s, 0) in
  let? (s, updated) := close_reservation guards s reservation ReservationCancelled in
  check (updated =? 1)%nat else Conflict "inventory reservation could not be cancelled" in
  let? s := enqueue_reservation_event s reservation "cancelled" 2
              (ReservationClosed reservation r released_qty None) in
  Ok (s, CancelReservationResult reservation released_qty, None).

(** [cancel_order_commitments_tx], which the handlers that cancel orders compose. *)
Record CancelledOrderCommitments := MkCancelledOrderCommitments {
  reservation_count : Z;
  allocation_count : Z;
  released_quantity : Z;
  affected_facility_ids : list Z;
}.

Definition release_for_order (reason : string) (rs : list (Z * ReservationRow))
    (allocation : Z * AllocationRow) (acc : Stock * Z * gmap Z Z) :
    result (Stock * Z * gmap Z Z) ApplicationError :=
  let '(id, a) := allocation in
  let '(s, total, by_reservation) := acc in
  let? (_, r) := ok_or (find (fun x => x.1 =? allocation_reservation a) rs)
                    (Internal "allocation reservation lock was not retained") in
  let? (s, updated) := release_allocation guards s id in
  check (updated =? 1)%nat else Conflict "order inventory allocations could not be released" in
  let? total := ok_or (i64_checked_add total (allocation_qty a))
                  (Internal "released allocation quantity overflow") in
  let? released := ok_or (i64_checked_add (default 0 (by_reservation !! allocation_reservation a))
                            (allocation_qty a)) (Internal "reservation release quantity overflow") in
  let? s := enqueue_allocation_event s id "released" 2
              (AllocationClosed id a (reservation_owner r) (Some reason)) in
  Ok (s, total, <[allocation_reservation a := released]> by_reservation).

Definition close_for_order (reason : string) (by_reservation : gmap Z Z)
    (reservation : Z * ReservationRow) (s : Stock) : result Stock ApplicationError :=
  let '(id, r) := reservation in
  let? (s, updated) := close_reservation guards s id ReservationCancelled in
  check (updated =? 1)%nat else Conflict "order inventory reservations could not be cancelled" in
  enqueue_reservation_event s id "cancelled" 2
    (ReservationClosed id r (default 0 (by_reservation !! id)) (Some reason)).

Definition cancel_order_commitments_tx (scope : ScopeBindings) (order : Z) (reason : string)
    (s : Stock) : result (Stock * CancelledOrderCommitments) ApplicationError :=
  let rs := ordered_rows (fun _ r => (reservation_order r =? order) && active_reservation r)
              (reservations s) in
  let? _ := rfold (fun x _ => require_scope scope (reservation_owner x.2) (reservation_facility x.2))
              rs tt in
  let als := ordered_rows (fun _ a => bool_decide (allocation_reservation a ∈ rs.*1)
                                      && active_allocation a) (allocations s) in
  let? (s, total, by_reservation) := rfold (release_for_order reason rs) als (s, 0, ∅) in
  let? s := rfold (close_for_order reason by_reservation) rs s in
  Ok (s, MkCancelledOrderCommitments (Z.of_nat (length rs)) (Z.of_nat (length als)) total
           (remove_dups (sort_by Z.compare ((fun x => reservation_facility x.2) <$> rs)))).

(** ** Holds *)

Definition insert_hold_tx (balance : BalanceRow) (command : PlaceInventoryHoldCommand) (s : Stock) :
    result (Stock * Z) ApplicationError :=
  let row := MkHold (ph_balance command) (position balance) (ph_qty command) (ph_reason command)
               (ph_note command) (ph_reference_type command) (ph_reference_id command) HoldActive in
  let? (s, id) := insert_hold guards s row in
  let? s := enqueue_hold_event s id "placed" 1 (HoldPlaced id row) in
  Ok (s, id).

Definition place_on_balance (balance : BalanceRow) (command : PlaceInventoryHoldCommand) (s : Stock) :
    result (Stock * Z) ApplicationError :=
  if balance_deleted balance then Err (Conflict "inventory balance is not active")
  else
    let? free := uncommitted balance in
    if free <? ph_qty command then Err (Conflict "insufficient uncommitted inventory to hold")
    else insert_hold_tx balance command s.

Definition place_composed_inventory_hold_tx (command : PlaceInventoryHoldCommand) (s : Stock) :
    result (Stock * Z) ApplicationError :=
  let? command := validate_place_command command in
  let? balance := lock_balance s (ph_balance command) in
  place_on_balance balance command s.

Definition place_hold_locks (scope : ScopeBindings) (balance : Z) (s : Stock) :
    result BalanceRow ApplicationError :=
  let? b := lock_balance s balance in
  let? _ := lock_license_plate s (license_plate_id (position b)) in
  let? _ := require_scope scope (inventory_owner_id (position b)) (facility_id (position b)) in
  Ok b.

Definition place_hold_work (command : PlaceInventoryHoldCommand) (balance : BalanceRow) (s : Stock) :
    result (Stock * StockResult * option Z) ApplicationError :=
  let? (s, id) := place_on_balance balance command s in
  Ok (s, PlaceHoldResult id, None).

Definition release_hold_locks (scope : ScopeBindings) (hold : Z) (s : Stock) :
    result (HoldRow * BalanceRow) ApplicationError :=
  let? h := ok_or (rows (holds s) !! hold) (NotFound "inventory hold") in
  let? _ := lock_license_plate s (license_plate_id (hold_position h)) in
  let? b := lock_balance s (hold_balance h) in
  let? _ := require_scope scope (inventory_owner_id (hold_position h)) (facility_id (hold_position h)) in
  Ok (h, b).

(** Holds that belong to a workflow are released by it. *)
Definition workflow_managed (reference_type : option rstr) : bool :=
  match reference_type with
  | Some t => bool_decide (t = lit "expected_receipt_line")
              || bool_decide (t = lit "unexpected_receipt") || bool_decide (t = lit "inventory_recall")
  | None => false
  end.

Definition lift_hold (hold : Z) (h : HoldRow) (s : Stock) : result Stock ApplicationError :=
  let? (s, updated) := release_hold_row guards s hold in
  check (updated =? 1)%nat else Conflict "inventory hold could not be released" in
  enqueue_hold_event s hold "released" 2 (HoldLifted hold h).

Definition release_hold_work (hold : Z) (locked : HoldRow * BalanceRow) (s : Stock) :
    result (Stock * StockResult * option Z) ApplicationError :=
  let '(h, b) := locked in
  check bool_decide (license_plate_id (position b) = license_plate_id (hold_position h))
    else Conflict "inventory hold license plate changed while acquiring locks" in
  if workflow_managed (hold_reference_type h)
  then Err (Conflict "workflow-managed inventory holds require their owning resolution command")
  else
    check active_hold h else Conflict "inventory hold is not active" in
    let? s := lift_hold hold h s in
    Ok (s, ReleaseHoldResult hold (hold_qty h), None).

Definition release_composed_inventory_hold_tx (hold : Z) (reference_type : rstr) (reference_id : Z)
    (s : Stock) : result (Stock * Z) ApplicationError :=
  let? h := ok_or (rows (holds s) !! hold) (NotFound "inventory hold") in
  check active_hold h else Conflict "inventory hold is not active" in
  check bool_decide (hold_reference_type h = Some reference_type)
        && bool_decide (hold_reference_id h = Some reference_id)
    else Conflict "inventory hold does not belong to the composed workflow" in
  let? s := lift_hold hold h s in
  Ok (s, hold_qty h).
End works.

(** ** Batches *)

Definition add_item_batch (owner item : Z) (load : option Z) (trace : Trace) (s : Stock) :
    result (Stock * Z) ApplicationError :=
  let d := directory s in
  match items d !! item with
  | Some packaging_unit =>
      check bool_decide (owner ∈ inventory_owners d)
        else InvalidRequest "item or inventory owner is outside the selected tenant" in
      let s := set_owner_items ({[(owner, item)]} ∪ owner_items s) s in
      check match load with
            | None => true
            | Some l => bool_decide (loads d !! l = Some owner)
            end else InvalidRequest "item, owner, or load is outside the selected scope" in
      if only_spaces packaging_unit then raise "23514"
      else
        Ok (set_batches (insert_row (batches s)
                           (MkBatch owner item packaging_unit load trace false)) s,
            next_id (batches s))
  | None => Err (InvalidRequest "item or inventory owner is outside the selected tenant")
  end.

Definition stocked (batch : Z) (b : BalanceRow) : bool :=
  (item_batch_id (position b) =? batch) && negb (balance_deleted b)
  && ((0 <? qty_on_hand b) || (0 <? qty_reserved b) || (0 <? qty_held b)).

Definition set_item_batch_deleted (id : Z) (deleted : bool) (s : Stock) :
    result (Stock * bool) ApplicationError :=
  match rows (batches s) !! id with
  | None => Ok (s, false)
  | Some b =>
      if deleted && existsb (fun '(_, row) => stocked id row) (map_to_list (rows (balances s)))
      then Err (Conflict "cannot delete an item batch that still has stock")
      else
        Ok (set_batches (update_row (batches s) id
              (MkBatch (batch_owner b) (batch_item b) (batch_uom b) (batch_load b) (batch_trace b)
                 deleted)) s, true)
  end.
