(* ===== verification/StockCommands.v ===== *)
(** * Stock: the commands

    The handlers of [StockHandlers] under the replay protocol, the steps of the system and
    what the rest of the system may do to the rows that the handlers only read. *)

From S2P Require Import Prelude.
From S2P Require Import RustStr.
From S2P Require Import Idempotency.
From S2P Require Import Outbox.
From S2P Require Import StockTypes.
From S2P Require Import StockDb.
From S2P Require Import StockJournal.
From S2P Require Import StockHandlers.

(** [authorize_transaction_replay_tx]: is everything the transaction touched still active and
    in the actor's scope? *)
Definition transaction_facilities (s : Stock) (txn : Z) : list Z :=
  remove_dups ((fun e => facility_id (entry_position e))
                 <$> List.filter (fun e => entry_transaction e =? txn) (entries s)).

Definition authorize_transaction_replay_tx (s : Stock) (scope : ScopeBindings) (txn : option Z) :
    result Z ApplicationError :=
  let? txn := ok_or txn (Internal "stored inventory command has no inventory transaction") in
  let? row := ok_or (rows (transactions s) !! txn)
                (Internal "stored command inventory transaction was not found") in
  let owner := txn_owner row in
  let touched := transaction_facilities s txn in
  if negb (bool_decide (owner ∈ inventory_owners (directory s)))
     || negb (forallb (fun f => bool_decide (f ∈ facilities (directory s))
                                && bool_decide ((owner, f) ∈ owner_facilities (directory s))) touched)
     || negb (includes_inventory_owner scope owner) || bool_decide (touched = [])
     || existsb (fun f => negb (includes_facility scope f)) touched
  then Err Forbidden
  else Ok txn.

Section commands.
Context (guards : bool) (digest : list Z → rstr).
Context {Json : Type} (to_json : StockResult → option Json) (from_json : Json → option StockResult).
(** [serde_json::to_vec] of the request. *)
Context (encode : StockRequest → option (list Z)).

Definition StockDatabase : Type := Records (Json := Json) * Stock.

Definition replayed_inventory_transaction_tx (db : StockDatabase) (prepared : PreparedCommand)
    (scope : ScopeBindings) : result (option StockResult) ApplicationError :=
  let? stored := load_stored_result db.1 prepared in
  match stored with
  | None => Ok None
  | Some stored =>
      let? answer := resolve_replay from_json prepared stored in
      let? txn := authorize_transaction_replay_tx db.2 scope (stored_inventory_transaction_id stored) in
      match answer with
      | TransactionResult id =>
          if id =? txn then Ok (Some answer)
          else Err (Internal "stored inventory command result does not match its inventory transaction")
      | _ => Err (Internal "decoding stored command result")
      end
  end.

Definition journal_command (prepared : PreparedCommand) (scope : ScopeBindings)
    (work : Stock → result (Stock * StockResult * option Z) ApplicationError) (db : StockDatabase) :
    result (StockDatabase * StockResult) ApplicationError :=
  let? replay := replayed_inventory_transaction_tx db prepared scope in
  match replay with
  | Some answer => Ok (db, answer)
  | None => run_command to_json from_json prepared work db
  end.

(** The rows are locked and the scope is checked before a replay is answered. *)
Definition locked_command {A} (prepared : PreparedCommand)
    (locks : Stock → result A ApplicationError)
    (work : A → Stock → result (Stock * StockResult * option Z) ApplicationError)
    (db : StockDatabase) : result (StockDatabase * StockResult) ApplicationError :=
  let? locked := locks db.2 in
  run_command to_json from_json prepared (work locked) db.

Definition positive_user (user : Z) : result Z ApplicationError :=
  positive_new (fun _ => Internal "user ID must be positive") user.

Definition receive_inventory (tenant user : Z) (scope : ScopeBindings) (key : rstr)
    (batch to qty : Z) (st : option InventoryStatus) (memo : Memo) (db : StockDatabase) :
    result (StockDatabase * StockResult) ApplicationError :=
  check 0 <? qty else InvalidRequest "quantity must be positive" in
  let st := default InventoryStatus_default st in
  let? actor := positive_user user in
  let? prepared := PreparedCommand_from_parts_v1 digest tenant actor None key
    (lit "receive_inventory") (encode (ReceiveRequest batch to qty st memo)) in
  journal_command prepared scope
    (receive_work guards scope actor key (request_hash prepared) batch to qty st memo) db.

Definition move_inventory (tenant user : Z) (scope : ScopeBindings) (key : rstr)
    (batch from to qty : Z) (st : option InventoryStatus) (memo : Memo) (db : StockDatabase) :
    result (StockDatabase * StockResult) ApplicationError :=
  check 0 <? qty else InvalidRequest "quantity must be positive" in
  if from =? to then Err (InvalidRequest "source and destination locations must differ")
  else
    let st := default InventoryStatus_default st in
    let? actor := positive_user user in
    let? prepared := PreparedCommand_from_parts_v1 digest tenant actor None key
      (lit "move_inventory") (encode (MoveRequest batch from to qty st memo)) in
    journal_command prepared scope
      (move_work guards scope actor key (request_hash prepared) batch from to qty st memo) db.

Definition split_move_inventory (tenant user : Z) (scope : ScopeBindings) (key : rstr)
    (balance : Z) (destinations : list (Z * Z)) (memo : Memo) (db : StockDatabase) :
    result (StockDatabase * StockResult) ApplicationError :=
  if bool_decide (destinations = []) then Err (InvalidRequest "at least one destination is required")
  else
    let? total := total_quantity destinations ∅ 0 in
    let? actor := positive_user user in
    let? prepared := PreparedCommand_from_parts_v1 digest tenant actor None key
      (lit "split_move_inventory") (encode (SplitRequest balance destinations memo)) in
    journal_command prepared scope
      (split_work guards scope actor key (request_hash prepared) balance destinations total memo) db.

Definition change_inventory_status (tenant actor : Z) (scope : ScopeBindings)
    (context : CommandContext) (command : ChangeInventoryStatusCommand) (db : StockDatabase) :
    result (StockDatabase * StockResult) ApplicationError :=
  let? _ := require_actor context tenant actor in
  let? command := validate_command command in
  let? prepared := PreparedCommand_new_v1 digest context (lit "inventory.status_change.v1")
    (encode (ChangeStatusRequest command)) in
  locked_command prepared (change_status_locks scope command)
    (change_status_work guards (ctx_actor_id context) (ctx_request_id context)
       (idempotency_key prepared) (request_hash prepared) command) db.

Definition create_inventory_reservation (tenant user : Z) (scope : ScopeBindings) (key : rstr)
    (order line facility qty : Z) (db : StockDatabase) :
    result (StockDatabase * StockResult) ApplicationError :=
  check 0 <? qty else InvalidRequest "quantity must be positive" in
  let? prepared := PreparedCommand_from_parts_v1 digest tenant user None key
    (lit "create_inventory_reservation") (encode (ReservationRequest order line facility qty)) in
  locked_command prepared (lock_order_line scope order line facility)
    (reserve_work order line facility qty) db.

Definition allocate_inventory (tenant user : Z) (scope : ScopeBindings) (key : rstr)
    (reservation balance qty : Z) (db : StockDatabase) :
    result (StockDatabase * StockResult) ApplicationError :=
  check 0 <? qty else InvalidRequest "quantity must be positive" in
  let? prepared := PreparedCommand_from_parts_v1 digest tenant user None key
    (lit "allocate_inventory") (encode (AllocateRequest reservation balance qty)) in
  locked_command prepared (allocate_locks scope reservation balance)
    (allocate_work guards reservation balance qty) db.

Definition cancel_inventory_allocation (tenant user : Z) (scope : ScopeBindings) (key : rstr)
    (allocation : Z) (db : StockDatabase) : result (StockDatabase * StockResult) ApplicationError :=
  let? prepared := PreparedCommand_from_parts_v1 digest tenant user None key
    (lit "cancel_inventory_allocation") (encode (CancelAllocationRequest allocation)) in
  locked_command prepared (cancel_allocation_locks scope allocation)
    (cancel_allocation_work guards allocation) db.

Definition cancel_inventory_reservation (tenant user : Z) (scope : ScopeBindings) (key : rstr)
    (reservation : Z) (db : StockDatabase) : result (StockDatabase * StockResult) ApplicationError :=
  let? prepared := PreparedCommand_from_parts_v1 digest tenant user None key
    (lit "cancel_inventory_reservation") (encode (CancelReservationRequest reservation)) in
  locked_command prepared (cancel_reservation_locks scope reservation)
    (cancel_reservation_work guards scope reservation) db.

Definition place_inventory_hold (tenant actor : Z) (scope : ScopeBindings) (context : CommandContext)
    (command : PlaceInventoryHoldCommand) (db : StockDatabase) :
    result (StockDatabase * StockResult) ApplicationError :=
  let? _ := require_actor context tenant actor in
  let? command := validate_place_command command in
  let? prepared := PreparedCommand_new_v1 digest context (lit "inventory_hold.place.v1")
    (encode (PlaceHoldRequest command)) in
  locked_command prepared (place_hold_locks scope (ph_balance command))
    (place_hold_work guards command) db.

Definition release_inventory_hold (tenant actor : Z) (scope : ScopeBindings) (context : CommandContext)
    (hold : Z) (db : StockDatabase) : result (StockDatabase * StockResult) ApplicationError :=
  let? _ := require_actor context tenant actor in
  check 0 <? hold else InvalidRequest "inventory hold ID must be positive" in
  let? prepared := PreparedCommand_new_v1 digest context (lit "inventory_hold.release.v1")
    (encode (ReleaseHoldRequest hold)) in
  locked_command prepared (release_hold_locks scope hold) (release_hold_work guards hold) db.

(** ** Steps *)

(** The commands, with their arguments. *)
Inductive StockCall :=
| CallReceive (tenant user : Z) (scope : ScopeBindings) (key : rstr) (batch to qty : Z)
    (st : option InventoryStatus) (memo : Memo)
| CallMove (tenant user : Z) (scope : ScopeBindings) (key : rstr) (batch from to qty : Z)
    (st : option InventoryStatus) (memo : Memo)
| CallSplit (tenant user : Z) (scope : ScopeBindings) (key : rstr) (balance : Z)
    (destinations : list (Z * Z)) (memo : Memo)
| CallChangeStatus (tenant actor : Z) (scope : ScopeBindings) (context : CommandContext)
    (command : ChangeInventoryStatusCommand)
| CallReserve (tenant user : Z) (scope : ScopeBindings) (key : rstr) (order line facility qty : Z)
| CallAllocate (tenant user : Z) (scope : ScopeBindings) (key : rstr) (reservation balance qty : Z)
| CallCancelAllocation (tenant user : Z) (scope : ScopeBindings) (key : rstr) (allocation : Z)
| CallCancelReservation (tenant user : Z) (scope : ScopeBindings) (key : rstr) (reservation : Z)
| CallPlaceHold (tenant actor : Z) (scope : ScopeBindings) (context : CommandContext)
    (command : PlaceInventoryHoldCommand)
| CallReleaseHold (tenant actor : Z) (scope : ScopeBindings) (context : CommandContext) (hold : Z).

Definition run_stock (call : StockCall) (db : StockDatabase) :
    result (StockDatabase * StockResult) ApplicationError :=
  match call with
  | CallReceive tenant user scope key batch to qty st memo =>
      receive_inventory tenant user scope key batch to qty st memo db
  | CallMove tenant user scope key batch from to qty st memo =>
      move_inventory tenant user scope key batch from to qty st memo db
  | CallSplit tenant user scope key balance destinations memo =>
      split_move_inventory tenant user scope key balance destinations memo db
  | CallChangeStatus tenant actor scope context command =>
      change_inventory_status tenant actor scope context command db
  | CallReserve tenant user scope key order line facility qty =>
      create_inventory_reservation tenant user scope key order line facility qty db
  | CallAllocate tenant user scope key reservation balance qty =>
      allocate_inventory tenant user scope key reservation balance qty db
  | CallCancelAllocation tenant user scope key allocation =>
      cancel_inventory_allocation tenant user scope key allocation db
  | CallCancelReservation tenant user scope key reservation =>
      cancel_inventory_reservation tenant user scope key reservation db
  | CallPlaceHold tenant actor scope context command =>
      place_inventory_hold tenant actor scope context command db
  | CallReleaseHold tenant actor scope context hold =>
      release_inventory_hold tenant actor scope context hold db
  end.

(** What other handlers do to the directory: anything, but a location stays in its facility
    (no UPDATE names the column), an order line keeps its owner, order and quantity (an
    amendment deletes lines and inserts others), and lines have positive quantities. *)
Definition directory_evolves (s : Stock) (d : Directory) : Prop :=
  (∀ id l, locations (directory s) !! id = Some l →
     ∃ l', locations d !! id = Some l' ∧ location_facility l' = location_facility l) ∧
  (∀ id l, order_items (directory s) !! id = Some l →
     ∃ l', order_items d !! id = Some l' ∧ line_owner l' = line_owner l ∧
       line_order l' = line_order l ∧ line_qty l' = line_qty l) ∧
  (∀ id l, order_items d !! id = Some l → 0 < line_qty l).

Definition set_directory (d : Directory) (s : Stock) : Stock :=
  MkStock d (owner_items s) (batches s) (balances s) (transactions s) (entries s) (changes s)
    (reservations s) (allocations s) (holds s) (transitions s) (outbox s) (journal_context s).

Inductive stock_step (db : StockDatabase) : StockDatabase → Prop :=
| step_command call db' r : run_stock call db = Ok (db', r) → stock_step db db'
| step_cancel_order scope order reason s' r :
    cancel_order_commitments_tx guards scope order reason db.2 = Ok (s', r) →
    stock_step db (db.1, s')
| step_composed_hold command s' r :
    place_composed_inventory_hold_tx guards command db.2 = Ok (s', r) →
    stock_step db (db.1, s')
| step_composed_release hold reference_type reference_id s' r :
    release_composed_inventory_hold_tx guards hold reference_type reference_id db.2 = Ok (s', r) →
    stock_step db (db.1, s')
| step_add_batch owner item load trace s' r :
    add_item_batch owner item load trace db.2 = Ok (s', r) → stock_step db (db.1, s')
| step_delete_batch id deleted s' r :
    set_item_batch_deleted id deleted db.2 = Ok (s', r) → stock_step db (db.1, s')
| step_directory d : directory_evolves db.2 d → stock_step db (db.1, set_directory d db.2)
(** another table of the same database stores a command result *)
| step_other_record records : stock_step db (records, db.2).
End commands.
