(* ===== verification/StockInvariant.v ===== *)
(** * Stock: the invariant

    [stock_wf] holds between any two statements of a handler; [settled] is what a commit
    restores on top of it: the journal and the balances agree, every journal transaction is
    balanced, and no journal transaction is open. *)

From S2P Require Import Prelude.
From S2P Require Import RustStr.
From S2P Require Import Orders.
From S2P Require Import Idempotency.
From S2P Require Import Outbox.
From S2P Require Import StockTypes.
From S2P Require Import StockDb.
From S2P Require Import StockJournal.

Create HintDb stock.

Definition table_ok {A} (t : Table A) : Prop :=
  0 < next_id t ∧ ∀ id x, rows t !! id = Some x → 0 < id < next_id t.

Lemma table_fresh {A} (t : Table A) : table_ok t → rows t !! next_id t = None.
Proof.
  intros [_ H]. destruct (rows t !! next_id t) eqn:E; [|done]. apply H in E. lia.
Qed.

Lemma table_ok_insert {A} (t : Table A) x : table_ok t → table_ok (insert_row t x).
Proof.
  intros [Hp H]. split; cbn; [lia|]. intros id y [[<- _]|[_ Hy]]%lookup_insert_Some; [lia|].
  apply H in Hy. lia.
Qed.

Lemma table_ok_update {A} (t : Table A) id x y :
  table_ok t → rows t !! id = Some y → table_ok (update_row t id x).
Proof.
  intros [Hp H] Hy. split; [done|]. cbn. intros i z [[<- _]|[_ Hz]]%lookup_insert_Some; [|by eapply H].
  by eapply H.
Qed.

Lemma table_ok_skip {A} (t : Table A) : table_ok t → table_ok (skip_id t).
Proof. intros [Hp H]. split; cbn; [lia|]. intros id x Hx%H. lia. Qed.

#[export] Hint Resolve table_ok_insert table_ok_update table_ok_skip table_fresh : stock.

(** ** Balances *)

Definition quantities_ok (b : BalanceRow) : Prop :=
  0 ≤ qty_reserved b ∧ 0 ≤ qty_held b ∧ qty_reserved b + qty_held b ≤ qty_on_hand b ≤ i64_max.

Record shelf_ok (s : Stock) : Prop := {
  shelf_table : table_ok (balances s);
  shelf_keys : ∀ i j b c, rows (balances s) !! i = Some b → rows (balances s) !! j = Some c →
    index_key (position b) = index_key (position c) → i = j;
  shelf_quantities : ∀ i b, rows (balances s) !! i = Some b → quantities_ok b;
  shelf_deleted : ∀ i b, rows (balances s) !! i = Some b → balance_deleted b = true →
    qty_on_hand b = 0;
  shelf_batch : ∀ i b, rows (balances s) !! i = Some b →
    inventory_row_matches_batch s (position b) = true;
  shelf_facility : ∀ i b, rows (balances s) !! i = Some b →
    ∃ l, locations (directory s) !! location_id (position b) = Some l ∧
      location_facility l = facility_id (position b);
  batch_table : table_ok (batches s);
  batch_uoms : ∀ i b, rows (batches s) !! i = Some b → only_spaces (batch_uom b) = false;
}.

(** ** Commitments against balances *)

Definition allocation_ok (s : Stock) (a : AllocationRow) : Prop :=
  0 < allocation_qty a ∧
  (∃ b, rows (balances s) !! allocation_balance a = Some b ∧ position b = allocation_position a) ∧
  (∃ r, rows (reservations s) !! allocation_reservation a = Some r ∧
     reservation_owner r = inventory_owner_id (allocation_position a) ∧
     reservation_facility r = facility_id (allocation_position a) ∧
     reservation_item r = item_id (allocation_position a) ∧
     reservation_uom r = uom (allocation_position a) ∧
     (active_allocation a = true → active_reservation r = true)) ∧
  status (allocation_position a) = Available.

Definition hold_ok (s : Stock) (h : HoldRow) : Prop :=
  0 < hold_qty h ∧
  ∃ b, rows (balances s) !! hold_balance h = Some b ∧ position b = hold_position h.

Record commitments_ok (s : Stock) : Prop := {
  allocation_table : table_ok (allocations s);
  hold_table : table_ok (holds s);
  allocation_rows : ∀ i a, rows (allocations s) !! i = Some a → allocation_ok s a;
  hold_rows : ∀ i h, rows (holds s) !! i = Some h → hold_ok s h;
  reserved_projection : ∀ i b, rows (balances s) !! i = Some b → qty_reserved b = allocated_on s i;
  held_projection : ∀ i b, rows (balances s) !! i = Some b → qty_held b = held_on s i;
}.

(** ** Demand *)

Record demand_ok (s : Stock) : Prop := {
  reservation_table : table_ok (reservations s);
  reservation_rows : ∀ i r, rows (reservations s) !! i = Some r →
    0 < reservation_qty r ≤ i64_max ∧
    ∃ l, order_items (directory s) !! reservation_line r = Some l ∧
      line_owner l = reservation_owner r ∧ line_order l = reservation_order r;
  within_reservation : ∀ i r, rows (reservations s) !! i = Some r →
    allocated_of s i ≤ reservation_qty r;
  within_line : ∀ i l, order_items (directory s) !! i = Some l →
    reserved_of s (line_owner l) i ≤ line_qty l;
}.

(** ** The journal *)

Record journal_ok (s : Stock) : Prop := {
  transaction_table : table_ok (transactions s);
  transition_table : table_ok (transitions s);
  entries_in_journal : ∀ e, e ∈ entries s →
    in_journal s (entry_transaction e) (inventory_owner_id (entry_position e)) = true;
  changes_in_journal : ∀ c, c ∈ changes s →
    in_journal s (change_transaction c) (inventory_owner_id (change_position c)) = true;
  transitions_in_journal : ∀ i r, rows (transitions s) !! i = Some r →
    in_journal s (transition_transaction r) (transition_owner r) = true;
  events_contiguous : outbox_ok (outbox s);
}.

Record stock_wf (s : Stock) : Prop := {
  wf_shelf : shelf_ok s;
  wf_commitments : commitments_ok s;
  wf_demand : demand_ok s;
  wf_journal : journal_ok s;
}.

(** The types of transactions that change the stock of a batch: receipts, and the
    adjustments of cycle counts. *)
Definition changes_stock (ty : InventoryTransactionType) : bool :=
  match ty with Receive | Adjust => true | _ => false end.

(** A balanced transaction: the deferred constraint accepts it, and unless its type may it
    does not change the stock of a batch. *)
Definition balanced_transaction (s : Stock) (id : Z) (t : TransactionRow) : Prop :=
  enforce_inventory_transaction_conservation s id t = true ∧
  (changes_stock (txn_type t) = false → ∀ batch,
     sum_by batch ((fun e => (item_batch_id (entry_position e), quantity_delta e))
                     <$> entries_of s id (txn_owner t)) = 0).

(** The journal transactions that are not open are balanced. *)
Definition closed_balanced (s : Stock) : Prop :=
  ∀ id t, rows (transactions s) !! id = Some t → journal_context s ≠ Some id →
    balanced_transaction s id t.

Record settled (s : Stock) : Prop := {
  settled_wf : stock_wf s;
  reconciled : ∀ p, variance s p = 0;
  balanced : closed_balanced s;
  no_open_transaction : journal_context s = None;
}.

(** A record of facts about a state that was changed elsewhere. *)
Ltac carry H := destruct H; split; assumption.

(** ** Consequences of the invariant *)

Section wf_facts.
Context (s : Stock) (Hwf : stock_wf s).

Lemma wf_quantities i b : rows (balances s) !! i = Some b → quantities_ok b.
Proof. apply (shelf_quantities s), Hwf. Qed.

Lemma batch_in_scope_Some owner batch b :
  batch_in_scope s owner batch = Some b ↔ rows (batches s) !! batch = Some b ∧ batch_owner b = owner.
Proof.
  unfold batch_in_scope. destruct (rows (batches s) !! batch) as [b'|]; [|naive_solver].
  destruct (batch_owner b' =? owner) eqn:E; bool_to_prop; naive_solver.
Qed.

Lemma row_matches_batch p :
  inventory_row_matches_batch s p = true ↔
  ∃ b, rows (batches s) !! item_batch_id p = Some b ∧ batch_owner b = inventory_owner_id p ∧
    item_id p = batch_item b ∧ uom p = batch_uom b.
Proof.
  unfold inventory_row_matches_batch. split.
  - destruct (batch_in_scope _ _ _) as [b|] eqn:E; [|done]. apply batch_in_scope_Some in E as [].
    intros. bool_to_prop. by exists b.
  - intros (b & Hb & Ho & Hi & Hu).
    rewrite (proj2 (batch_in_scope_Some _ _ b)) by done. by rewrite Hi, Hu, Z.eqb_refl, bool_decide_true.
Qed.

(** The index and the batch of a row determine its position. *)
Lemma position_by_key p q :
  inventory_row_matches_batch s p = true → inventory_row_matches_batch s q = true →
  index_key p = index_key q → facility_id p = facility_id q → p = q.
Proof.
  intros (b & Hb & _ & Hbi & Hbu)%row_matches_batch (c & Hc & _ & Hci & Hcu)%row_matches_batch.
  destruct p, q. unfold index_key. cbn in *. intros. simplify_eq. congruence.
Qed.

Lemma in_journal_iff txn owner :
  in_journal s txn owner = true ↔ ∃ t, rows (transactions s) !! txn = Some t ∧ txn_owner t = owner.
Proof.
  unfold in_journal. destruct (rows (transactions s) !! txn) as [t|]; [|naive_solver].
  rewrite Z.eqb_eq. naive_solver.
Qed.

(** At most one row is selected by a predicate that determines the index. *)
Lemma select_one (where_ : Z → BalanceRow → bool) :
  (∀ i j b c, rows (balances s) !! i = Some b → rows (balances s) !! j = Some c →
     where_ i b = true → where_ j c = true → i = j) →
  let found := List.filter (fun '(i, b) => where_ i b) (map_to_list (rows (balances s))) in
  found = [] ∨ ∃ i b, found = [(i, b)] ∧ rows (balances s) !! i = Some b ∧ where_ i b = true.
Proof.
  intros Huniq found.
  assert (Hin : ∀ i b, (i, b) ∈ found → rows (balances s) !! i = Some b ∧ where_ i b = true).
  { intros i b [Hb Hw]%elem_of_filter_bool. by rewrite elem_of_map_to_list in Hb. }
  assert (Hnd : NoDup (fst <$> found)) by apply NoDup_filter_bool, NoDup_fst_map_to_list.
  destruct found as [|[i b] rest]; [by left|right]. exists i, b.
  destruct (Hin i b) as [Hb Hw]; [by left|]. split; [|done]. f_equal.
  destruct rest as [|[j c] rest]; [done|]. destruct (Hin j c) as [Hc Hw']; [right; left|].
  exfalso. cbn in Hnd. apply NoDup_cons in Hnd as [Hi _]. apply Hi.
  rewrite (Huniq i j b c) by done. left.
Qed.

(** [balance_at] is the row of the index. *)
Lemma balance_at_None p :
  balance_at s p = None → ∀ i b, rows (balances s) !! i = Some b → index_key (position b) ≠ index_key p.
Proof.
  unfold balance_at. intros E i b Hb Hk.
  assert (Hin : (i, b) ∈ List.filter (fun '(_, b) => bool_decide (index_key (position b) = index_key p))
    (map_to_list (rows (balances s)))).
  { apply elem_of_filter_bool. by rewrite elem_of_map_to_list, bool_decide_true. }
  destruct (List.filter _ _); [by apply elem_of_nil in Hin|done].
Qed.

Lemma balance_at_Some p i b :
  balance_at s p = Some (i, b) → rows (balances s) !! i = Some b ∧ index_key (position b) = index_key p.
Proof.
  unfold balance_at. intros E.
  destruct (List.filter _ _) as [|[j c] l] eqn:Ef; [done|]. cbn in E. simplify_eq.
  assert (Hin : (i, b) ∈ List.filter (fun '(_, b) => bool_decide (index_key (position b) = index_key p))
    (map_to_list (rows (balances s)))) by (rewrite Ef; left).
  apply elem_of_filter_bool in Hin as [Hin Hk]. rewrite elem_of_map_to_list in Hin. by bool_to_prop.
Qed.

(** Commitments only lie on existing balances. *)
Lemma no_allocation_on_fresh : allocated_on s (next_id (balances s)) = 0.
Proof.
  apply sum_rows_zero. intros i a Ha. case_match eqn:E; [|done]. bool_to_prop.
  destruct (allocation_rows s (wf_commitments s Hwf) i a Ha) as (_ & (b & Hb & _) & _).
  pose proof (table_fresh _ (shelf_table s (wf_shelf s Hwf))). congruence.
Qed.

Lemma no_hold_on_fresh : held_on s (next_id (balances s)) = 0.
Proof.
  apply sum_rows_zero. intros i h Hh. case_match eqn:E; [|done]. bool_to_prop.
  destruct (hold_rows s (wf_commitments s Hwf) i h Hh) as (_ & b & Hb & _).
  pose proof (table_fresh _ (shelf_table s (wf_shelf s Hwf))). congruence.
Qed.

(** A row that carries a commitment is not deleted. *)
Lemma committed_not_deleted i b :
  rows (balances s) !! i = Some b → 0 < qty_on_hand b → balance_deleted b = false.
Proof.
  intros Hb Hq. apply not_true_iff_false. intros E.
  rewrite (shelf_deleted s (wf_shelf s Hwf) i b Hb E) in Hq. lia.
Qed.

Lemma allocated_at_least i a :
  rows (allocations s) !! i = Some a → active_allocation a = true →
  allocation_qty a ≤ allocated_on s (allocation_balance a).
Proof.
  intros Ha Hact. pose proof (sum_rows_le (fun _ a' => if active_allocation a'
    && (allocation_balance a' =? allocation_balance a) then allocation_qty a' else 0)
    (rows (allocations s)) i a) as H.
  cbn beta in H. rewrite Hact, Z.eqb_refl in H. cbn [andb] in H. apply H; [|done].
  intros k x Hx. destruct (allocation_rows s (wf_commitments s Hwf) k x Hx) as [? _].
  destruct (_ && _); lia.
Qed.

Lemma held_at_least i h :
  rows (holds s) !! i = Some h → active_hold h = true → hold_qty h ≤ held_on s (hold_balance h).
Proof.
  intros Hh Hact. pose proof (sum_rows_le (fun _ h' => if active_hold h'
    && (hold_balance h' =? hold_balance h) then hold_qty h' else 0) (rows (holds s)) i h) as H.
  cbn beta in H. rewrite Hact, Z.eqb_refl in H. cbn [andb] in H. apply H; [|done].
  intros k x Hx. destruct (hold_rows s (wf_commitments s Hwf) k x Hx) as [? _]. destruct (_ && _); lia.
Qed.
End wf_facts.
