(* ===== verification/StockFacts.v ===== *)
(** * Stock: what each statement does

    For every statement of [StockJournal]: on well-formed rows the guards of the schema
    accept it, the rows stay well formed, and its effect on the balances, the journal and
    the variance between them. *)

From stdpp Require Import pretty.
From S2P Require Import Prelude.
From S2P Require Import RustStr.
From S2P Require Import Orders.
From S2P Require Import Idempotency.
From S2P Require Import Outbox.
From S2P Require Import StockTypes.
From S2P Require Import StockDb.
From S2P Require Import StockJournal.
From S2P Require Import StockInvariant.

(** ** Replacing a balance *)

(** The state after a balance was written and its change captured. *)
Definition put (id : Z) (t : Table BalanceRow) (cs : list ChangeRow) (s : Stock) : Stock :=
  set_changes (changes s ++ cs) (set_balances t s).

(** What a row must satisfy to replace, or be added to, the rows of [s] at [id]. *)
Record fits (s : Stock) (id : Z) (b : BalanceRow) : Prop := {
  fits_key : ∀ j c, rows (balances s) !! j = Some c →
    index_key (position c) = index_key (position b) → j = id;
  fits_batch : inventory_row_matches_batch s (position b) = true;
  fits_facility : ∃ l, locations (directory s) !! location_id (position b) = Some l ∧
    location_facility l = facility_id (position b);
  fits_position : ∀ c, rows (balances s) !! id = Some c → position c = position b;
  fits_reserved : qty_reserved b = allocated_on s id;
  fits_held : qty_held b = held_on s id;
  fits_quantities : quantities_ok b;
  fits_deleted : balance_deleted b = true → qty_on_hand b = 0;
}.

Lemma wf_put s id b t cs :
  stock_wf s → fits s id b → table_ok t → rows t = <[id := b]> (rows (balances s)) →
  (∀ c, c ∈ cs → in_journal s (change_transaction c) (inventory_owner_id (change_position c)) = true) →
  stock_wf (put id t cs s).
Proof.
  intros [[Ht Hk Hq Hd Hb Hf Hbt Hbu] [Hat Hht Har Hhr Hrp Hhp] Hdem [Hxt Hst He Hc Hx Ho]]
    [Fk Fb Ff Fp Fr Fh Fq Fd] Htab Erows Hcs.
  assert (Hget : ∀ j c, rows t !! j = Some c → (j = id ∧ c = b) ∨ (j ≠ id ∧ rows (balances s) !! j = Some c)).
  { rewrite Erows. intros j c [[<- <-]|[Hne Hj]]%lookup_insert_Some; auto. }
  assert (Hkeep : ∀ j p, (∃ c, rows (balances s) !! j = Some c ∧ position c = p) →
    ∃ c, rows t !! j = Some c ∧ position c = p).
  { intros j p (c & Hj & <-). rewrite Erows. destruct (decide (j = id)) as [->|Hne].
    - exists b. rewrite lookup_insert_eq. by rewrite (Fp c Hj).
    - exists c. by rewrite lookup_insert_ne by congruence. }
  split; [| |destruct Hdem; split; assumption|]; split; cbn; try assumption.
  - intros i j c c' [[-> ->]|[Hi Ei]]%Hget [[-> ->]|[Hj Ej]]%Hget E; [done| | |by eapply Hk].
    + symmetry. by apply (Fk j c').
    + by apply (Fk i c).
  - intros i c [[-> ->]|[_ Hi]]%Hget; [done|by eapply Hq].
  - intros i c [[-> ->]|[_ Hi]]%Hget; [done|by eapply Hd].
  - intros i c [[-> ->]|[_ Hi]]%Hget; [done|by apply (Hb i)].
  - intros i c [[-> ->]|[_ Hi]]%Hget; [done|by apply (Hf i)].
  - intros i a Ha. destruct (Har i a Ha) as (Hpos & Hbal & Hres & Hst'). split; [done|].
    split; [by apply Hkeep|]. done.
  - intros i h Hh. destruct (Hhr i h Hh) as (? & Hbal). split; [done|]. by apply Hkeep.
  - intros i c [[-> ->]|[_ Hi]]%Hget; [done|by apply Hrp].
  - intros i c [[-> ->]|[_ Hi]]%Hget; [done|by apply Hhp].
  - intros c [Hin|Hin]%elem_of_app; [by apply Hc|by apply Hcs].
Qed.

(** ** The guards on a balance *)

Lemma guard_true g b code : b = true → guard g b code = Ok tt.
Proof. intros ->. unfold guard. by rewrite orb_true_r. Qed.

Lemma guard_off b code : guard false b code = Ok tt.
Proof. done. Qed.

(** When the guards hold, it does not matter whether they are on. *)
Lemma write_balance_unguarded g s id old new t :
  guard_inventory_balance_commitments s id old new = true →
  inventory_row_matches_batch s (position new) = true → inventory_balances_checks new = true →
  write_balance g s id old new t = write_balance false s id old new t.
Proof. intros H1 H2 H3. unfold write_balance. by rewrite !guard_true, ?guard_off. Qed.

Lemma checks_hold s b :
  stock_wf s → inventory_row_matches_batch s (position b) = true → quantities_ok b →
  inventory_balances_checks b = true.
Proof.
  intros Hwf (row & Hrow & _ & _ & Hu)%row_matches_batch (? & ? & ? & ?).
  unfold inventory_balances_checks. rewrite Hu, (batch_uoms s (wf_shelf s Hwf) _ row Hrow).
  cbn [negb]. rewrite andb_true_r.
  rewrite !andb_true_iff, !Z.leb_le. lia.
Qed.

(** The guards of a row that fits: its commitments are unchanged, and so are its dimensions
    where there are any. *)
Lemma fits_guards s id old new :
  stock_wf s → fits s id new → old = rows (balances s) !! id →
  guard_inventory_balance_commitments s id old new = true ∧
  inventory_row_matches_batch s (position new) = true ∧ inventory_balances_checks new = true.
Proof.
  intros Hwf F ->. split_and!; [|apply F|by apply (checks_hold s); [|apply F|apply F]].
  destruct F as [_ _ _ Fp Fr Fh (? & ? & ? & ?) Fd].
  unfold guard_inventory_balance_commitments.
  rewrite <-Fr, <-Fh, !Z.eqb_refl, (proj2 (Z.leb_le _ _)) by lia. cbn [andb].
  apply orb_true_iff. destruct (decide (qty_reserved new + qty_held new <= 0)); [left; lia|right].
  destruct (rows (balances s) !! id) as [c|] eqn:Hc.
  - rewrite (bool_decide_true _ (Fp c eq_refl)). cbn [andb].
    assert (balance_deleted c = false) as ->.
    { eapply committed_not_deleted; [done..|]. pose proof (wf_quantities s Hwf id c Hc) as (? & ? & ? & ?).
      rewrite (reserved_projection s (wf_commitments s Hwf) id c Hc),
        (held_projection s (wf_commitments s Hwf) id c Hc) in *. lia. }
    destruct (balance_deleted new); [|done]. specialize (Fd eq_refl). lia.
  - destruct Hwf as [_ Hcm _ _].
    assert (Ha : allocated_on s id = 0).
    { apply sum_rows_zero. intros i a Ha. case_match eqn:E; [|done]. bool_to_prop.
      destruct (allocation_rows s Hcm i a Ha) as (_ & (b & Hb & _) & _). congruence. }
    assert (Hh : held_on s id = 0).
    { apply sum_rows_zero. intros i h Hh. case_match eqn:E; [|done]. bool_to_prop.
      destruct (hold_rows s Hcm i h Hh) as (_ & b & Hb & _). congruence. }
    lia.
Qed.

Lemma write_fits g s id new t :
  stock_wf s → fits s id new →
  write_balance g s id (rows (balances s) !! id) new t =
  write_balance false s id (rows (balances s) !! id) new t.
Proof.
  intros Hwf F. destruct (fits_guards s id _ new Hwf F eq_refl) as (? & ? & ?).
  by apply write_balance_unguarded.
Qed.

(** ** The captured change *)

(** The trace that the journal copies from the batch of a position. *)
Definition trace_at (s : Stock) (p : Position) : Trace :=
  match rows (batches s) !! item_batch_id p with
  | Some b => batch_trace b
  | None => (None, None, None)
  end.

Lemma change_rows_at s txn id p delta :
  inventory_row_matches_batch s p = true →
  change_rows s txn id p delta = [MkChange txn id p (trace_at s p) delta].
Proof.
  intros (b & Hb & Ho & _)%row_matches_batch. unfold change_rows, trace_at.
  rewrite (proj2 (batch_in_scope_Some s _ _ b)) by done. by rewrite Hb.
Qed.

(** A write that changes the effective quantity of a row by [delta] is captured once. *)
Lemma write_balance_effect s id new t s' delta :
  stock_wf s → fits s id new → delta ≠ 0 →
  effective new = from_option effective 0 (rows (balances s) !! id) + delta →
  write_balance false s id (rows (balances s) !! id) new t = Ok s' →
  ∃ txn, journal_context s = Some txn ∧
    in_journal s txn (inventory_owner_id (position new)) = true ∧
    s' = put id t [MkChange txn id (position new) (trace_at s (position new)) delta] s.
Proof.
  intros Hwf F Hdelta Heff H. unfold write_balance in H. rewrite !guard_off in H. cbn [rbind] in H.
  destruct (mixes_lots _ _ _ _); [done|]. unfold capture_inventory_projection_change in H.
  destruct (rows (balances s) !! id) as [c|] eqn:Hc; cbn [from_option] in *.
  - rewrite (bool_decide_true _ (fits_position s id new F c Hc)) in H. cbn [andb] in H.
    rewrite (proj2 (Z.eqb_neq _ _)) in H by lia.
    cbn [journal_context set_balances in_journal transactions] in H.
    destruct (journal_context s) as [txn|]; [|done]. exists txn. split; [done|].
    change (in_journal (set_balances t s) txn) with (in_journal s txn) in H.
    destruct (in_journal s txn _); [|done]. cbn [negb] in H. split; [done|].
    change (change_rows (set_balances t s)) with (change_rows s) in H.
    rewrite change_rows_at in H by apply F. injection H as <-.
    replace (effective new - effective c) with delta by lia. done.
  - rewrite (proj2 (Z.eqb_neq _ _)) in H by lia.
    cbn [journal_context set_balances in_journal transactions] in H.
    destruct (journal_context s) as [txn|]; [|done]. exists txn. split; [done|].
    change (in_journal (set_balances t s) txn) with (in_journal s txn) in H.
    destruct (in_journal s txn _); [|done]. cbn [negb] in H. split; [done|].
    change (change_rows (set_balances t s)) with (change_rows s) in H.
    rewrite change_rows_at in H by apply F. injection H as <-.
    replace (effective new) with delta by lia. done.
Qed.

(** ** The variance between balances and journal *)

Lemma projected_put s id new t cs p delta :
  rows t = <[id := new]> (rows (balances s)) →
  (∀ c, rows (balances s) !! id = Some c → position c = position new) →
  effective new = from_option effective 0 (rows (balances s) !! id) + delta →
  projected_qty (put id t cs s) p =
    projected_qty s p + (if bool_decide (position new = p) then delta else 0).
Proof.
  intros Erows Hp Heff. unfold projected_qty. cbn. rewrite Erows.
  destruct (rows (balances s) !! id) as [c|] eqn:Hc; cbn in Heff.
  - rewrite (sum_rows_insert _ _ _ _ c) by done. rewrite (Hp c eq_refl). case_bool_decide; lia.
  - rewrite sum_rows_insert_new by done. case_bool_decide; lia.
Qed.

Lemma variance_put s id new t cs p delta :
  rows t = <[id := new]> (rows (balances s)) →
  (∀ c, rows (balances s) !! id = Some c → position c = position new) →
  effective new = from_option effective 0 (rows (balances s) !! id) + delta →
  variance (put id t cs s) p = variance s p + (if bool_decide (position new = p) then delta else 0).
Proof.
  intros E Hp Heff. unfold variance. rewrite (projected_put _ _ new _ _ _ delta) by done.
  change (journal_qty (put id t cs s) p) with (journal_qty s p). lia.
Qed.

(** ** An open journal transaction

    [posting s0 row s audit es cs]: on the settled rows [s0] a transaction [row] was opened;
    by [s] it has the entries [es] and the changes captured under it are [cs], the audit
    table is [audit], and the rows the handlers only read are those of [s0]. *)
Definition opened (s0 : Stock) : Z := next_id (transactions s0).

Record posting (s0 : Stock) (row : TransactionRow) (s : Stock) (audit : Table TransitionRow)
    (es : list EntryRow) (cs : list ChangeRow) : Prop := {
  posting_wf : stock_wf s;
  posting_open : journal_context s = Some (opened s0);
  posting_transactions : transactions s = insert_row (transactions s0) row;
  posting_directory : directory s = directory s0;
  posting_batches : batches s = batches s0;
  posting_audit : transitions s = audit;
  posting_entries : entries_of s (opened s0) (txn_owner row) = es;
  posting_changes : changes_of s (opened s0) (txn_owner row) = cs;
  posting_closed : closed_balanced s;
  posting_variance : ∀ p, variance s p =
    sum_by p ((fun c => (change_position c, change_delta c)) <$> cs)
    - sum_by p ((fun e => (entry_position e, quantity_delta e)) <$> es);
}.

Section posting_facts.
Context {s0 : Stock} {row : TransactionRow} {s : Stock} {audit : Table TransitionRow}.
Context {es : list EntryRow} {cs : list ChangeRow}.
Context (P : posting s0 row s audit es cs).

Lemma posting_lookup : rows (transactions s) !! opened s0 = Some row.
Proof. rewrite (posting_transactions _ _ _ _ _ _ P). apply lookup_insert_eq. Qed.

Lemma posting_row : in_journal s (opened s0) (txn_owner row) = true.
Proof. apply in_journal_iff. exists row. by rewrite posting_lookup. Qed.

Lemma posting_matches p : inventory_row_matches_batch s p = inventory_row_matches_batch s0 p.
Proof.
  unfold inventory_row_matches_batch, batch_in_scope. by rewrite (posting_batches _ _ _ _ _ _ P).
Qed.

Lemma posting_trace p : trace_at s p = trace_at s0 p.
Proof. unfold trace_at. by rewrite (posting_batches _ _ _ _ _ _ P). Qed.

Lemma posting_active o f :
  require_active_inventory_owner_facility s o f = require_active_inventory_owner_facility s0 o f.
Proof.
  unfold require_active_inventory_owner_facility. by rewrite (posting_directory _ _ _ _ _ _ P).
Qed.
End posting_facts.

(** Rows of other transactions do not matter to the balance of one. *)
Lemma balanced_frame s s' id t :
  entries_of s' id (txn_owner t) = entries_of s id (txn_owner t) →
  changes_of s' id (txn_owner t) = changes_of s id (txn_owner t) →
  balanced_transaction s id t → balanced_transaction s' id t.
Proof.
  intros E1 E2. unfold balanced_transaction, enforce_inventory_transaction_conservation.
  by rewrite E1, E2.
Qed.

Lemma changes_of_put s id t cs txn owner :
  changes_of (put id t cs s) txn owner =
  changes_of s txn owner ++
    List.filter (fun c => (change_transaction c =? txn)
                          && (inventory_owner_id (change_position c) =? owner)) cs.
Proof. unfold changes_of. cbn. by rewrite List.filter_app. Qed.

Lemma posting_put s0 row s audit es cs id new t delta :
  posting s0 row s audit es cs → fits s id new → table_ok t →
  rows t = <[id := new]> (rows (balances s)) → inventory_owner_id (position new) = txn_owner row →
  effective new = from_option effective 0 (rows (balances s) !! id) + delta →
  posting s0 row (put id t [MkChange (opened s0) id (position new) (trace_at s (position new)) delta] s)
    audit es (cs ++ [MkChange (opened s0) id (position new) (trace_at s0 (position new)) delta]).
Proof.
  intros P F Ht Erows Ho Heff. rewrite (posting_trace P). pose proof (posting_row P) as Hrow.
  destruct P as [Hwf Hopen Htx Hdir Hbt Haud He Hc Hcl Hv]. split; try done.
  - apply (wf_put s id new); try done. intros c' ->%list_elem_of_singleton. cbn. by rewrite Ho.
  - rewrite changes_of_put, Hc. cbn. by rewrite Ho, !Z.eqb_refl.
  - intros i r Hi Hne. eapply balanced_frame; [| |by apply (Hcl i r)]; [done|].
    rewrite changes_of_put. cbn. rewrite (proj2 (Z.eqb_neq (opened s0) i)); [by rewrite app_nil_r|].
    cbn in Hne. congruence.
  - intros p. rewrite (variance_put _ _ new _ _ _ delta) by (done || apply F). rewrite Hv, fmap_app.
    cbn [fmap list_fmap]. autorewrite with zsum. cbn. lia.
Qed.

(** *** Decrements *)

Lemma fits_row s i b q del :
  stock_wf s → rows (balances s) !! i = Some b →
  qty_reserved b + qty_held b ≤ q ≤ i64_max → (del = true → q = 0) →
  fits s i (MkBalance (position b) q (qty_reserved b) (qty_held b) del).
Proof.
  intros Hwf Hb Hq Hdel. destruct (wf_quantities s Hwf i b Hb) as (? & ? & _).
  split; cbn; try done.
  - intros j c Hc E. by apply (shelf_keys s (wf_shelf s Hwf) j i c b).
  - by apply (shelf_batch s (wf_shelf s Hwf) i).
  - by apply (shelf_facility s (wf_shelf s Hwf) i).
  - intros c Hc. congruence.
  - by apply (reserved_projection s (wf_commitments s Hwf)).
  - by apply (held_projection s (wf_commitments s Hwf)).
Qed.

Section decrement.
Context (s : Stock) (where_ : Z → BalanceRow → bool) (qty : Z).
Context (Hwf : stock_wf s) (Hqty : 0 < qty).
Context (Hone : ∀ i j b c, rows (balances s) !! i = Some b → rows (balances s) !! j = Some c →
  where_ i b = true → where_ j c = true → i = j).
Context (Hfree : ∀ i b, rows (balances s) !! i = Some b → where_ i b = true →
  balance_deleted b = false ∧ qty ≤ qty_on_hand b - qty_reserved b - qty_held b).

Lemma decrement_fits i b :
  rows (balances s) !! i = Some b → where_ i b = true → fits s i (with_on_hand (qty_on_hand b - qty) b).
Proof.
  intros Hb Hw. destruct (Hfree i b Hb Hw) as [Hd Hq].
  destruct (wf_quantities s Hwf i b Hb) as (? & ? & ? & ?).
  apply fits_row; [done..|lia|congruence].
Qed.

Lemma decrement_unguarded g : decrement_where g s where_ qty = decrement_where false s where_ qty.
Proof.
  unfold decrement_where. destruct (select_one s where_ Hone) as [E|(i & b & E & Hb & Hw)];
    cbv zeta in E; rewrite E; [done|]. cbn [rfold]. do 2 f_equal.
  unfold bigint. destruct (checked _ _ _) as [q|] eqn:Eq; [|done]. cbn [rbind].
  apply checked_Some in Eq as [-> _]. rewrite <-Hb. by apply write_fits, decrement_fits.
Qed.

Lemma posting_decrement g s0 row audit es cs s' n :
  posting s0 row s audit es cs →
  (∀ i b, rows (balances s) !! i = Some b → where_ i b = true →
     inventory_owner_id (position b) = txn_owner row) →
  decrement_where g s where_ qty = Ok (s', n) → n ≠ 0%nat →
  ∃ i b, rows (balances s) !! i = Some b ∧ where_ i b = true ∧ n = 1%nat ∧
    rows (balances s') = <[i := with_on_hand (qty_on_hand b - qty) b]> (rows (balances s)) ∧
    posting s0 row s' audit es (cs ++ [MkChange (opened s0) i (position b) (trace_at s0 (position b)) (- qty)]).
Proof.
  intros P Howner H Hn. rewrite decrement_unguarded in H. unfold decrement_where in H.
  destruct (select_one s where_ Hone) as [E|(i & b & E & Hb & Hw)]; cbv zeta in E; rewrite E in H.
  { cbn in H. by simplify_eq. }
  cbn [rfold] in H. apply rbind_ok in H as (s1 & H & [= -> <-]).
  apply rbind_ok in H as (s2 & H & [= ->]). apply rbind_ok in H as (q & Hq & H).
  unfold bigint in Hq. destruct (checked _ _ _) as [q'|] eqn:Eq; [|done]. simplify_eq.
  apply checked_Some in Eq as [-> _]. rewrite <-Hb in H.
  pose proof (decrement_fits i b Hb Hw) as F. destruct (Hfree i b Hb Hw) as [Hd _].
  assert (Heff : effective (with_on_hand (qty_on_hand b - qty) b)
    = from_option effective 0 (rows (balances s) !! i) + - qty).
  { rewrite Hb. unfold effective. cbn. rewrite Hd. lia. }
  apply (write_balance_effect s i _ _ s' (- qty)) in H as (txn & Ht & Hin & ->); try done; [|lia].
  rewrite (posting_open _ _ _ _ _ _ P) in Ht. injection Ht as <-.
  exists i, b. split_and!; try done.
  apply (posting_put s0 row s audit es cs i (with_on_hand (qty_on_hand b - qty) b)); try done.
  - eapply table_ok_update; [apply Hwf|done].
  - cbn. by apply (Howner i).
Qed.
End decrement.

(** *** Upserts *)

Section upsert.
Context (s : Stock) (p : Position) (qty : Z) (Hwf : stock_wf s) (Hqty : 0 < qty).
Context (Hbatch : inventory_row_matches_batch s p = true).
Context (Hfac : ∃ l, locations (directory s) !! location_id p = Some l ∧
  location_facility l = facility_id p).

Lemma upsert_fits_new :
  balance_at s p = None → qty ≤ i64_max → fits s (next_id (balances s)) (MkBalance p qty 0 0 false).
Proof.
  intros E Hq. split; cbn; try done.
  - intros j c Hc Hk. by destruct (balance_at_None s p E j c Hc).
  - intros c Hc. pose proof (table_fresh _ (shelf_table s (wf_shelf s Hwf))). congruence.
  - by rewrite no_allocation_on_fresh.
  - by rewrite no_hold_on_fresh.
  - unfold quantities_ok. cbn. lia.
Qed.

Lemma upsert_found i b : balance_at s p = Some (i, b) → rows (balances s) !! i = Some b ∧ position b = p.
Proof.
  intros [Hb Hk]%balance_at_Some. split; [done|].
  apply (position_by_key s); [by apply (shelf_batch s (wf_shelf s Hwf) i)|done|done|].
  destruct (shelf_facility s (wf_shelf s Hwf) i b Hb) as (l & Hl & <-), Hfac as (l' & Hl' & <-).
  unfold index_key in Hk. congruence.
Qed.

Lemma upsert_unguarded g : upsert_balance g s p qty = upsert_balance false s p qty.
Proof.
  unfold upsert_balance. destruct (require_active_inventory_owner_facility _ _ _); [|done].
  destruct (balance_at s p) as [[i b]|] eqn:E.
  - destruct (mixes_lots _ _ _ _); [done|]. unfold bigint.
    destruct (checked _ _ _) as [q|] eqn:Eq; [|done]. cbn [rbind]. f_equal.
    apply checked_Some in Eq as [-> [_ Hq]]. apply upsert_found in E as [Hb <-]. rewrite <-Hb.
    apply write_fits; [done|]. destruct (wf_quantities s Hwf i b Hb) as (? & ? & ? & ?).
    apply fits_row; [done..|lia|done].
  - unfold bigint. destruct (checked _ _ _) as [q|] eqn:Eq; [|done]. cbn [rbind]. f_equal.
    apply checked_Some in Eq as [-> [_ Hq]].
    rewrite <-(table_fresh _ (shelf_table s (wf_shelf s Hwf))). by apply write_fits, upsert_fits_new.
Qed.

(** An accepted upsert adds [qty] at the position and captures that. *)
Lemma posting_upsert g s0 row audit es cs s' id :
  posting s0 row s audit es cs → inventory_owner_id p = txn_owner row →
  upsert_balance g s p qty = Ok (s', id) →
  (∃ new, position new = p ∧ balance_deleted new = false ∧
    rows (balances s') = <[id := new]> (rows (balances s))) ∧
  (∀ b, rows (balances s) !! id = Some b → position b = p) ∧
  posting s0 row s' audit es (cs ++ [MkChange (opened s0) id p (trace_at s0 p) qty]).
Proof.
  intros P Ho H. rewrite upsert_unguarded in H. unfold upsert_balance in H.
  destruct (require_active_inventory_owner_facility _ _ _); [|done].
  assert (Hgo : ∀ i t new, fits s i new → position new = p → table_ok t →
    rows t = <[i := new]> (rows (balances s)) → balance_deleted new = false →
    effective new = from_option effective 0 (rows (balances s) !! i) + qty →
    write_balance false s i (rows (balances s) !! i) new t = Ok s' → i = id →
    (∃ new, position new = p ∧ balance_deleted new = false ∧
      rows (balances s') = <[id := new]> (rows (balances s))) ∧
    (∀ b, rows (balances s) !! id = Some b → position b = p) ∧
    posting s0 row s' audit es (cs ++ [MkChange (opened s0) id p (trace_at s0 p) qty])).
  { intros i t new F Hp Ht Et Hd Heff Hw <-.
    apply (write_balance_effect s i _ _ s' qty) in Hw as (txn & Hx & _ & ->); try done; [|lia].
    rewrite (posting_open _ _ _ _ _ _ P) in Hx. injection Hx as <-. split_and!.
    - by exists new.
    - intros b Hb. rewrite <-Hp. by apply F.
    - rewrite <-!Hp. apply (posting_put s0 row s audit es cs i new); try done. by rewrite Hp. }
  destruct (balance_at s p) as [[i b]|] eqn:E.
  - destruct (mixes_lots _ _ _ _); [done|]. apply rbind_ok in H as (q & Hq & H).
    unfold bigint in Hq. destruct (checked _ _ _) as [q'|] eqn:Eq; [|done]. simplify_eq.
    apply checked_Some in Eq as [-> [_ Hq]]. apply rbind_ok in H as (s1 & H & [= -> <-]).
    apply upsert_found in E as [Hb Hp]. rewrite <-Hb in H.
    destruct (wf_quantities s Hwf i b Hb) as (? & ? & ? & ?).
    eapply (Hgo i); [..|exact H|done]; try done.
    + apply fits_row; [done..|lia|done].
    + apply table_ok_skip. eapply table_ok_update; [apply Hwf|done].
    + rewrite Hb. unfold effective. cbn. destruct (balance_deleted b) eqn:Hd; [|done].
      by rewrite (shelf_deleted s (wf_shelf s Hwf) i b Hb Hd).
  - apply rbind_ok in H as (q & Hq & H).
    unfold bigint in Hq. destruct (checked _ _ _) as [q'|] eqn:Eq; [|done]. simplify_eq.
    apply checked_Some in Eq as [-> [_ Hq]]. apply rbind_ok in H as (s1 & H & [= -> <-]).
    pose proof (table_fresh _ (shelf_table s (wf_shelf s Hwf))) as Hfresh. rewrite <-Hfresh in H.
    eapply (Hgo (next_id (balances s))); [..|exact H|done]; try done.
    + by apply upsert_fits_new.
    + apply table_ok_insert, Hwf.
    + by rewrite Hfresh.
Qed.
End upsert.
