(* ===== verification/StockPosting.v ===== *)
(** * Stock: the life of a journal transaction

    Opening a transaction on settled rows, appending entries to it, reporting it, and
    closing it: when the entries repeat the captured changes and balance, the deferred
    constraints accept the transaction and the rows are settled again. *)

From stdpp Require Import pretty.
From S2P Require Import Prelude.
From S2P Require Import RustStr.
From S2P Require Import Idempotency.
From S2P Require Import Outbox.
From S2P Require Import StockTypes.
From S2P Require Import StockDb.
From S2P Require Import StockJournal.
From S2P Require Import StockInvariant.
From S2P Require Import StockFacts.

(** ** Events *)

Lemma wf_outbox s t : stock_wf s → outbox_ok t → stock_wf (set_outbox t s).
Proof.
  intros [H1 H2 H3 H4] Ht. split; [carry H1|carry H2|carry H3|]. destruct H4. by split.
Qed.

Lemma emit_inv s k a i o n ty body s' :
  emit s k a i o n ty body = Ok s' →
  ∃ t, s' = set_outbox t s ∧ (outbox_ok (outbox s) → outbox_ok t).
Proof.
  unfold emit, map_err. intros H.
  destruct (enqueue _ _ _) as [t|] eqn:E; [|done]. cbn in H. injection H as <-.
  exists t. split; [done|]. intros Hok. by eapply enqueue_ok.
Qed.

Lemma wf_emit s k a i o n ty body s' :
  emit s k a i o n ty body = Ok s' → stock_wf s → stock_wf s' ∧ ∃ t, s' = set_outbox t s.
Proof.
  intros (t & -> & Ht)%emit_inv Hwf. split; [|by exists t]. apply wf_outbox; [done|]. apply Ht, Hwf.
Qed.

Lemma posting_emit s k a i o n ty body s' s0 row audit es cs :
  emit s k a i o n ty body = Ok s' → posting s0 row s audit es cs →
  posting s0 row s' audit es cs ∧ balances s' = balances s.
Proof.
  intros H [Hwf Ho Ht Hd Hb Ha He Hc Hcl Hv].
  destruct (wf_emit _ _ _ _ _ _ _ _ _ H Hwf) as [Hwf' [t ->]]. split; [|done]. by split.
Qed.

Lemma settled_emit s k a i o n ty body s' :
  emit s k a i o n ty body = Ok s' → settled s → settled s'.
Proof.
  intros H [Hwf Hr Hb Hn]. destruct (wf_emit _ _ _ _ _ _ _ _ _ H Hwf) as [Hwf' [t ->]]. by split.
Qed.

(** ** Opening *)

Lemma wf_transaction s row :
  stock_wf s →
  stock_wf (set_context (Some (next_id (transactions s)))
              (set_transactions (insert_row (transactions s) row) s)).
Proof.
  intros [H1 H2 H3 [Ht Hs He Hc Hx Ho]]. split; [carry H1|carry H2|carry H3|].
  assert (Hkeep : ∀ txn owner, in_journal s txn owner = true →
    in_journal (set_context (Some (next_id (transactions s)))
      (set_transactions (insert_row (transactions s) row) s)) txn owner = true).
  { intros txn owner (t & E & Eo)%in_journal_iff. apply in_journal_iff. exists t. split; [|done].
    cbn. rewrite lookup_insert_ne; [done|]. intros <-. rewrite table_fresh in E; done. }
  split; try done.
  - by apply table_ok_insert.
  - intros e Hin. by apply Hkeep, He.
  - intros c Hin. by apply Hkeep, Hc.
  - intros i r Hr. apply Hkeep. by apply (Hx i).
Qed.

Lemma posting_begin s scope row s' txn :
  settled s → txn_owner row = scope.1 → begin_transaction s scope row = Ok (s', txn) →
  require_active_inventory_owner_facility s scope.1 scope.2 = true ∧ txn = opened s ∧
  balances s' = balances s ∧ posting s row s' (transitions s) [] [].
Proof.
  intros [Hwf Hrec Hbal Hnone] Hrow H. unfold begin_transaction in H.
  case_bool_decide as Hop; [done|]. apply rbind_ok in H as ([] & Hact & H).
  unfold lock_active_owner_facility_tx in Hact.
  destruct (require_active_inventory_owner_facility _ _ _); [|done].
  rewrite Hnone in H. apply rbind_ok in H as (s1 & Hemit & [= -> <-]). fold (opened s) in *.
  set (s0 := set_context _ _) in Hemit.
  assert (Hnew : ∀ owner, in_journal s (opened s) owner = false).
  { intros. unfold in_journal, opened. by rewrite (table_fresh _ (transaction_table s (wf_journal s Hwf))). }
  assert (Hpost : posting s row s0 (transitions s) [] []).
  { split; try done.
    - by apply wf_transaction.
    - apply elem_of_nil_inv. intros e [He E]%elem_of_filter_bool. bool_to_prop.
      pose proof (entries_in_journal s (wf_journal s Hwf) e He) as Hin.
      match goal with E : _ = opened s |- _ => rewrite E, Hnew in Hin end. done.
    - apply elem_of_nil_inv. intros c [Hc E]%elem_of_filter_bool. bool_to_prop.
      pose proof (changes_in_journal s (wf_journal s Hwf) c Hc) as Hin.
      match goal with E : _ = opened s |- _ => rewrite E, Hnew in Hin end. done.
    - intros i t Hi Hne. cbn in Hi, Hne. fold (opened s) in Hi.
      rewrite lookup_insert_ne in Hi by congruence.
      eapply balanced_frame; [| |apply (Hbal i t Hi); by rewrite Hnone]; done. }
  destruct (posting_emit _ _ _ _ _ _ _ _ _ _ _ _ _ _ Hemit Hpost) as [Hp ->]. done.
Qed.

(** ** Entries *)

Lemma append_unguarded g s scope txn e :
  in_journal s txn scope.1 = true → require_active_inventory_owner_facility s scope.1 scope.2 = true →
  append_entry g s scope txn e = append_entry false s scope txn e.
Proof. intros H1 H2. unfold append_entry. by rewrite !guard_true, ?guard_off. Qed.

Lemma append_inv g s scope txn e s' p :
  append_entry g s scope txn e = Ok s' →
  inventory_row_matches_batch s p = true →
  p = MkPosition scope.1 scope.2 (je_location e) (je_license_plate e) (je_item_batch e)
        (item_id p) (uom p) (je_status e) →
  s' = set_entries (entries s ++ [MkEntry txn p (trace_at s p) (je_quantity_delta e)]) s.
Proof.
  unfold append_entry. intros H (b & Hb & Ho & Hi & Hu)%row_matches_batch Ep.
  destruct (_ =? _); [done|]. destruct (batch_in_scope _ _ _) as [b'|] eqn:E; [|done].
  apply batch_in_scope_Some in E as [E _]. destruct (batch_deleted b'); [done|].
  apply rbind_ok in H as (_ & _ & H). apply rbind_ok in H as (_ & _ & [= <-]).
  assert (b' = b) as ->. { rewrite Ep in Hb. cbn in Hb. congruence. }
  unfold trace_at. rewrite Hb, <-Hi, <-Hu, <-Ep. done.
Qed.

Lemma wf_entry s e :
  stock_wf s → in_journal s (entry_transaction e) (inventory_owner_id (entry_position e)) = true →
  stock_wf (set_entries (entries s ++ [e]) s).
Proof.
  intros [H1 H2 H3 [Ht Hs He Hc Hx Ho]] Hin. split; [carry H1|carry H2|carry H3|]. split; try done.
  intros e' Hin'. apply elem_of_app in Hin' as [Hin'|Hin']; [by apply He|].
  by apply list_elem_of_singleton in Hin' as ->.
Qed.

Lemma posting_append g s0 row s audit es cs f e s' p :
  posting s0 row s audit es cs → append_entry g s (txn_owner row, f) (opened s0) e = Ok s' →
  inventory_row_matches_batch s0 p = true →
  p = MkPosition (txn_owner row) f (je_location e) (je_license_plate e) (je_item_batch e)
        (item_id p) (uom p) (je_status e) →
  posting s0 row s' audit (es ++ [MkEntry (opened s0) p (trace_at s0 p) (je_quantity_delta e)]) cs ∧
  balances s' = balances s.
Proof.
  intros P H Hbatch Ep. pose proof (posting_row P) as Hrow. rewrite <-(posting_matches P) in Hbatch.
  pose proof (append_inv _ _ _ _ _ _ _ H Hbatch Ep) as ->. rewrite (posting_trace P).
  destruct P as [Hwf Hopen Ht Hd Hb Ha He Hc Hcl Hv].
  set (entry := MkEntry _ _ _ _).
  assert (Ho : inventory_owner_id p = txn_owner row) by (by rewrite Ep).
  assert (Hes : ∀ id owner, entries_of (set_entries (entries s ++ [entry]) s) id owner =
    entries_of s id owner ++ (if (opened s0 =? id) && (txn_owner row =? owner) then [entry] else [])).
  { intros id owner. unfold entries_of. cbn. rewrite List.filter_app. cbn. by rewrite Ho. }
  split; [|done]. split; try done.
  - apply wf_entry; [done|]. cbn. by rewrite Ho.
  - by rewrite Hes, He, !Z.eqb_refl.
  - intros i t Hi Hne. eapply balanced_frame; [| |by apply (Hcl i t)]; [|done].
    rewrite Hes, (proj2 (Z.eqb_neq (opened s0) i)); [by rewrite app_nil_r|]. cbn in Hne. congruence.
  - intros q. unfold variance, journal_qty. cbn [entries set_entries].
    change (projected_qty (set_entries _ s)) with (projected_qty s).
    rewrite !fmap_app, !sum_by_app. specialize (Hv q). unfold variance, journal_qty in Hv. lia.
Qed.

(** ** Closing *)

Lemma same_rows_refl {K} `{EqDecision K} (l : list (K * Z)) : same_rows l l = true.
Proof.
  unfold same_rows. apply andb_true_iff. split; apply forallb_forall; intros r Hr;
    apply bool_decide_eq_true_2; by rewrite list_elem_of_In.
Qed.

(** The journal repeats the captured changes. *)
Definition repeats (es : list EntryRow) (cs : list ChangeRow) : Prop :=
  (fun c => (change_position c, change_trace c, change_delta c)) <$> cs =
  (fun e => (entry_position e, entry_trace e, quantity_delta e)) <$> es.

Definition type_balances (ty : InventoryTransactionType) (es : list EntryRow) : Prop :=
  match ty with
  | Move => conserved move_key es = true ∧ one_facility es = true
  | StatusChange => conserved status_change_key es = true ∧ one_facility es = true
  | Receive => forallb (fun e => 0 <? quantity_delta e) es = true
  | Adjust => True
  | _ => False
  end ∧
  (changes_stock ty = false → ∀ batch,
     sum_by batch ((fun e => (item_batch_id (entry_position e), quantity_delta e)) <$> es) = 0).

Lemma posting_balanced s0 row s audit es cs :
  posting s0 row s audit es cs → es ≠ [] → repeats es cs → type_balances (txn_type row) es →
  balanced_transaction s (opened s0) row.
Proof.
  intros P Hne Hrep [Hty Hsum]. pose proof (posting_entries _ _ _ _ _ _ P) as He.
  pose proof (posting_changes _ _ _ _ _ _ P) as Hc. split; [|by rewrite He].
  unfold enforce_inventory_transaction_conservation.
  rewrite He, Hc, Hrep, same_rows_refl, (bool_decide_false _ Hne). cbn [negb andb].
  rewrite andb_true_r. destruct (txn_type row); cbn in Hty; try done.
  all: destruct Hty as [-> ->]; done.
Qed.

Lemma repeats_variance es cs p :
  repeats es cs →
  sum_by p ((fun c => (change_position c, change_delta c)) <$> cs) =
  sum_by p ((fun e => (entry_position e, quantity_delta e)) <$> es).
Proof.
  unfold repeats. revert cs. induction es as [|e es IH]; intros [|c cs] H; try done.
  cbn [fmap list_fmap] in H. injection H as Hp Ht Hd H.
  cbn [fmap list_fmap]. rewrite !sum_by_cons. cbn [fst snd]. rewrite Hp, Hd. f_equal. by apply IH.
Qed.

Lemma posting_settled s0 row s audit es cs p :
  posting s0 row s audit es cs → repeats es cs → variance s p = 0.
Proof. intros P Hrep. rewrite (posting_variance _ _ _ _ _ _ P), (repeats_variance es cs) by done. lia. Qed.

Lemma posting_commit g s0 row s audit es cs :
  posting s0 row s audit es cs → es ≠ [] → repeats es cs → type_balances (txn_type row) es →
  enforce_inventory_status_transition s (opened s0) row = true →
  commit_stock g s = Ok (set_context None s) ∧ settled (set_context None s).
Proof.
  intros P Hne Hrep Hty Hst.
  pose proof (posting_balanced _ _ _ _ _ _ P Hne Hrep Hty) as Hcons.
  pose proof (posting_lookup P) as Hrow.
  pose proof (posting_open _ _ _ _ _ _ P) as Hopen. split.
  - unfold commit_stock. rewrite Hopen, Hrow. by rewrite !guard_true by (done || apply Hcons).
  - destruct (posting_wf _ _ _ _ _ _ P) as [H1 H2 H3 H4].
    split; [split; [carry H1|carry H2|carry H3|carry H4]| | |done].
    + intros p. by apply (posting_settled s0 row s audit es cs).
    + intros i r Hi _. cbn in Hi. destruct (decide (i = opened s0)) as [->|Hn].
      * rewrite Hrow in Hi. injection Hi as <-. exact Hcons.
      * apply (posting_closed _ _ _ _ _ _ P i r Hi). rewrite Hopen. congruence.
Qed.

(** A transaction without an audit row is no status change. *)
Lemma no_audit s txn t :
  (∀ i r, rows (transitions s) !! i = Some r → transition_transaction r ≠ txn) →
  txn_type t ≠ StatusChange → enforce_inventory_status_transition s txn t = true.
Proof.
  intros Hno Hty. unfold enforce_inventory_status_transition.
  assert (E : List.filter (fun r => (transition_transaction r.2 =? txn)
    && (transition_owner r.2 =? txn_owner t)) (map_to_list (rows (transitions s))) = []).
  { apply elem_of_nil_inv. intros [i r] [Hin E]%elem_of_filter_bool. bool_to_prop.
    apply elem_of_map_to_list in Hin. by apply (Hno i r Hin). }
  rewrite E. destruct (txn_type t); try done; by apply bool_decide_true.
Qed.

Lemma fresh_audit s i r :
  stock_wf s → rows (transitions s) !! i = Some r → transition_transaction r ≠ next_id (transactions s).
Proof.
  intros Hwf Hr E. pose proof (transitions_in_journal s (wf_journal s Hwf) i r Hr) as Hin.
  apply in_journal_iff in Hin as (t & Ht & _). rewrite E, table_fresh in Ht; [done|].
  apply (transaction_table s), Hwf.
Qed.

Lemma posting_no_audit {s0 row s es cs} :
  posting s0 row s (transitions s0) es cs → stock_wf s0 → txn_type row ≠ StatusChange →
  enforce_inventory_status_transition s (opened s0) row = true.
Proof.
  intros P Hwf Hty. apply no_audit; [|done]. rewrite (posting_audit _ _ _ _ _ _ P). intros i r Hr.
  by apply (fresh_audit s0 i).
Qed.

(** ** A small relational logic

    [agrees x y Q]: the two runs are the same, and what they return satisfies [Q]. With [x]
    run under the guards of the schema and [y] without them, a proof of [agrees] says that
    the guards never refuse, and what the run achieves. *)
Definition agrees {A E} (x y : result A E) (Q : A → Prop) : Prop :=
  x = y ∧ ∀ a, y = Ok a → Q a.

Section agrees_rules.
Context {A B E : Type}.
Implicit Types (x y : result A E) (Q : A → Prop) (R : B → Prop).

Lemma agrees_bind x y Q (k l : A → result B E) R :
  agrees x y Q → (∀ a, y = Ok a → Q a → agrees (k a) (l a) R) → agrees (rbind x k) (rbind y l) R.
Proof.
  intros [-> HQ] Hk. destruct y as [a|e]; cbn; [|by split]. by apply Hk, HQ.
Qed.

Lemma agrees_refl x : agrees x x (fun a => x = Ok a).
Proof. by split. Qed.

Lemma agrees_ok a Q : Q a → agrees (E := E) (Ok a) (Ok a) Q.
Proof. intros HQ. split; [done|]. by intros _ [= <-]. Qed.

Lemma agrees_err (e : E) Q : agrees (Err e) (Err e) Q.
Proof. by split. Qed.

Lemma agrees_weaken x y Q (Q' : A → Prop) : agrees x y Q → (∀ a, Q a → Q' a) → agrees x y Q'.
Proof. intros [-> HQ] HQQ. split; [done|]. auto. Qed.
End agrees_rules.

(** A loop whose body agrees under an invariant of the elements still to come. *)
Lemma agrees_fold {A B E} (f h : B → A → result A E) (P : list B → A → Prop) l a :
  (∀ x l a, P (x :: l) a → agrees (f x a) (h x a) (P l)) → P l a →
  agrees (rfold f l a) (rfold h l a) (P []).
Proof.
  intros Hstep. revert a. induction l as [|x l IH]; intros a HP; cbn; [by apply agrees_ok|].
  eapply agrees_bind; [by apply Hstep|]. intros b _ Hb. by apply IH.
Qed.

(** Walk over a statement that runs the same with and without guards. *)
Ltac pure := eapply agrees_bind; [apply agrees_refl|].

(** ... or branch on a condition both runs share. *)
Ltac branch :=
  match goal with |- agrees (if ?b then _ else _) _ _ =>
    let E := fresh "E" in destruct b eqn:E; try apply agrees_err end.

Lemma agrees_begin s o f row :
  settled s → txn_owner row = o →
  agrees (begin_transaction s (o, f) row) (begin_transaction s (o, f) row) (fun r =>
    require_active_inventory_owner_facility s o f = true ∧ r.2 = opened s ∧
    balances r.1 = balances s ∧ posting s row r.1 (transitions s) [] []).
Proof. intros Hs Ho. split; [done|]. intros [s' txn] H. by apply (posting_begin s (o, f) row). Qed.

Lemma agrees_append g s0 row s audit es cs o f e p :
  posting s0 row s audit es cs → txn_owner row = o →
  require_active_inventory_owner_facility s0 o f = true → inventory_row_matches_batch s0 p = true →
  p = MkPosition o f (je_location e) (je_license_plate e) (je_item_batch e)
        (item_id p) (uom p) (je_status e) →
  agrees (append_entry g s (o, f) (opened s0) e) (append_entry false s (o, f) (opened s0) e) (fun s' =>
    posting s0 row s' audit (es ++ [MkEntry (opened s0) p (trace_at s0 p) (je_quantity_delta e)]) cs ∧
    balances s' = balances s).
Proof.
  intros P <- Hact Hb Ep. split.
  - apply append_unguarded; [apply (posting_row P)|]. by rewrite (posting_active P).
  - intros s' H. by apply (posting_append false s0 row s audit es cs f e s' p).
Qed.

Lemma agrees_upsert g s0 row s audit es cs p qty :
  posting s0 row s audit es cs → 0 < qty → inventory_row_matches_batch s0 p = true →
  (∃ l, locations (directory s0) !! location_id p = Some l ∧ location_facility l = facility_id p) →
  inventory_owner_id p = txn_owner row →
  agrees (upsert_balance g s p qty) (upsert_balance false s p qty) (fun r =>
    (∃ new, position new = p ∧ balance_deleted new = false ∧
       rows (balances r.1) = <[r.2 := new]> (rows (balances s))) ∧
    (∀ b, rows (balances s) !! r.2 = Some b → position b = p) ∧
    posting s0 row r.1 audit es (cs ++ [MkChange (opened s0) r.2 p (trace_at s0 p) qty])).
Proof.
  intros P Hq Hb Hf Ho. rewrite <-(posting_matches P) in Hb.
  rewrite <-(posting_directory _ _ _ _ _ _ P) in Hf. split.
  - apply upsert_unguarded; try done. apply P.
  - intros [s' id] H. eapply (posting_upsert s p qty); try done. apply P.
Qed.

Lemma agrees_decrement g s0 row s audit es cs where_ qty :
  posting s0 row s audit es cs → 0 < qty →
  (∀ i j b c, rows (balances s) !! i = Some b → rows (balances s) !! j = Some c →
     where_ i b = true → where_ j c = true → i = j) →
  (∀ i b, rows (balances s) !! i = Some b → where_ i b = true → balance_deleted b = false ∧
     qty ≤ qty_on_hand b - qty_reserved b - qty_held b ∧
     inventory_owner_id (position b) = txn_owner row) →
  agrees (decrement_where g s where_ qty) (decrement_where false s where_ qty) (fun r =>
    r.2 = 0%nat ∨
    ∃ i b, rows (balances s) !! i = Some b ∧ where_ i b = true ∧
      rows (balances r.1) = <[i := with_on_hand (qty_on_hand b - qty) b]> (rows (balances s)) ∧
      posting s0 row r.1 audit es
        (cs ++ [MkChange (opened s0) i (position b) (trace_at s0 (position b)) (- qty)])).
Proof.
  intros P Hq Hone Hfree. pose proof (posting_wf _ _ _ _ _ _ P) as Hwf.
  assert (Hf : ∀ i b, rows (balances s) !! i = Some b → where_ i b = true →
    balance_deleted b = false ∧ qty ≤ qty_on_hand b - qty_reserved b - qty_held b).
  { intros i b Hb Hw. by destruct (Hfree i b Hb Hw) as (? & ? & ?). }
  split; [by apply decrement_unguarded|]. intros [s' n] H. cbn [fst snd].
  destruct (decide (n = 0%nat)) as [->|Hn]; [by left|right].
  eapply posting_decrement in H as (i & b & ? & ? & _ & ? & ?); try done; [by exists i, b|].
  intros i b Hb Hw. by destruct (Hfree i b Hb Hw) as (? & ? & ?).
Qed.

Lemma agrees_commit g s0 row s audit es cs :
  posting s0 row s audit es cs → es ≠ [] → repeats es cs → type_balances (txn_type row) es →
  enforce_inventory_status_transition s (opened s0) row = true →
  agrees (commit_stock g s) (commit_stock false s) (fun s' => s' = set_context None s ∧ settled s').
Proof.
  intros P Hne Hrep Hty Hst.
  destruct (posting_commit g s0 row s audit es cs P Hne Hrep Hty Hst) as [-> Hset].
  destruct (posting_commit false s0 row s audit es cs P Hne Hrep Hty Hst) as [-> _].
  by apply agrees_ok.
Qed.

(** The end of a transaction that is no status change. *)
Lemma agrees_close {R} g s0 row s es cs (k : Stock → R) (Q : R → Prop) :
  posting s0 row s (transitions s0) es cs → stock_wf s0 → es ≠ [] → repeats es cs →
  txn_type row ≠ StatusChange → type_balances (txn_type row) es →
  (∀ s', settled s' → Q (k s')) →
  agrees (rbind (commit_stock g s) (fun s => Ok (k s))) (rbind (commit_stock false s) (fun s => Ok (k s))) Q.
Proof.
  intros P Hwf Hne Hrep Hst Hty HQ. eapply agrees_bind.
  - eapply agrees_commit; [exact P|done..|]. by apply (posting_no_audit P).
  - intros s' _ [_ Hs']. by apply agrees_ok, HQ.
Qed.

(** ** When the entries of a transaction balance *)

Lemma conserved_const {K} `{EqDecision K} (key : EntryRow → K) k es :
  (∀ e, e ∈ es → key e = k) → zsum (quantity_delta <$> es) = 0 → conserved key es = true.
Proof.
  intros Hk Hz. apply forallb_forall. intros [k' q] Hin.
  apply list_elem_of_In, list_elem_of_fmap in Hin as (k0 & [= -> ->] & Hin).
  apply elem_of_remove_dups, list_elem_of_fmap in Hin as ([k1 q1] & -> & Hin). cbn.
  apply list_elem_of_fmap in Hin as (e & [= -> _] & He). rewrite (Hk e He).
  apply Z.eqb_eq. rewrite <-Hz. unfold sum_by. f_equal. clear e He Hz.
  induction es as [|e es IH]; [done|]. cbn [fmap list_fmap List.filter fst].
  rewrite bool_decide_true by (apply Hk; left). cbn [fmap list_fmap snd]. f_equal.
  apply IH. intros e' He'. apply Hk. by right.
Qed.

(** Entries of one batch whose deltas sum to nothing conserve every batch. *)
Lemma batch_const b es :
  (∀ e, e ∈ es → item_batch_id (entry_position e) = b) → zsum (quantity_delta <$> es) = 0 →
  ∀ batch, sum_by batch ((fun e => (item_batch_id (entry_position e), quantity_delta e)) <$> es) = 0.
Proof.
  intros Hb Hz batch. destruct (decide (batch = b)) as [->|Hne].
  - rewrite <-Hz. clear Hz. induction es as [|e es IH]; [done|]. cbn [fmap list_fmap].
    rewrite sum_by_cons, zsum_cons. cbn [fst snd]. rewrite bool_decide_true by (apply Hb; left).
    f_equal. apply IH. intros e' He'. apply Hb. by right.
  - clear Hz. induction es as [|e es IH]; [done|]. cbn [fmap list_fmap]. rewrite sum_by_cons.
    cbn [fst snd]. rewrite (Hb e) by left. rewrite bool_decide_false by congruence.
    apply IH. intros e' He'. apply Hb. by right.
Qed.

Lemma one_facility_const f es :
  (∀ e, e ∈ es → facility_id (entry_position e) = f) → one_facility es = true.
Proof.
  intros Hf. apply Nat.leb_le. transitivity (length [f]); [|done].
  apply submseteq_length, NoDup_submseteq; [apply NoDup_remove_dups|].
  intros x Hx. apply elem_of_remove_dups, list_elem_of_fmap in Hx as (e & -> & He).
  rewrite (Hf e He). by left.
Qed.
