(* ===== verification/StockMoves.v ===== *)
(** * Stock: receipts, moves, splits and status changes

    Each of them keeps the rows settled and is never refused by a guard of the schema. *)

From stdpp Require Import pretty.
From S2P Require Import Prelude.
From S2P Require Import RustStr.
From S2P Require Import Idempotency.
From S2P Require Import Outbox.
From S2P Require Import StockTypes.
From S2P Require Import StockDb.
From S2P Require Import StockJournal.
From S2P Require Import StockHandlers.
From S2P Require Import StockInvariant.
From S2P Require Import StockFacts.
From S2P Require Import StockPosting.

(** The same stock in another place of the facility. *)
Definition elsewhere (p q : Position) : Prop :=
  q = MkPosition (inventory_owner_id p) (facility_id p) (location_id q) (license_plate_id q)
        (item_batch_id p) (item_id p) (uom p) (status p).

Lemma move_balances p tr es :
  (∀ e, e ∈ es → elsewhere p (entry_position e) ∧ entry_trace e = tr) →
  zsum (quantity_delta <$> es) = 0 → type_balances Move es.
Proof.
  intros He Hz. split; [split|intros _].
  - eapply (conserved_const _ (inventory_owner_id p, item_id p, uom p, tr, status p)); [|done].
    intros e [E <-]%He. unfold move_key. by rewrite E.
  - apply (one_facility_const (facility_id p)). intros e [E _]%He. by rewrite E.
  - apply (batch_const (item_batch_id p)); [|done]. intros e [E _]%He. by rewrite E.
Qed.

Lemma status_balances p tr es :
  (∀ e, e ∈ es → entry_position e = with_status (status (entry_position e)) p ∧ entry_trace e = tr) →
  zsum (quantity_delta <$> es) = 0 → type_balances StatusChange es.
Proof.
  intros He Hz. split; [split|intros _].
  - eapply (conserved_const _ (inventory_owner_id p, item_batch_id p, item_id p, uom p, tr)); [|done].
    intros e [E <-]%He. unfold status_change_key. by rewrite E.
  - apply (one_facility_const (facility_id p)). intros e [E _]%He. by rewrite E.
  - apply (batch_const (item_batch_id p)); [|done]. intros e [E _]%He. by rewrite E.
Qed.

Lemma active_location_Some s id f :
  active_location s id = Some f →
  ∃ l, locations (directory s) !! id = Some l ∧ location_facility l = f.
Proof.
  unfold active_location. destruct (locations _ !! id) as [l|]; [|done].
  destruct (_ && _); [|done]. intros [= <-]. by exists l.
Qed.

Lemma owner_facility_scope_ok o f r : owner_facility_scope o f = Ok r → r = (o, f) ∧ 0 < o ∧ 0 < f.
Proof.
  unfold owner_facility_scope, positive_new. intros H. run H. done.
Qed.

Lemma ok_or_ok {A E} (o : option A) (e : E) a : ok_or o e = Ok a → o = Some a.
Proof. destruct o; cbn; congruence. Qed.

(** The matching of batches is that of the state before the transaction. *)
Lemma batch_of_position s b batch owner item unit_ f l plate st :
  rows (batches s) !! batch = Some b → batch_owner b = owner → batch_item b = item →
  batch_uom b = unit_ → inventory_row_matches_batch s (MkPosition owner f l plate batch item unit_ st) = true.
Proof. intros Hb <- <- <-. apply row_matches_batch. by exists b. Qed.

Section receive.
Context (g : bool) (scope : ScopeBindings) (actor : Z) (key hash : rstr).
Context (batch to qty : Z) (st : InventoryStatus) (memo : Memo).

Lemma receive_agrees s :
  settled s → 0 < qty →
  agrees (receive_work g scope actor key hash batch to qty st memo s)
    (receive_work false scope actor key hash batch to qty st memo s) (fun r => settled r.1.1).
Proof.
  intros Hs Hq. unfold receive_work.
  destruct (rows (batches s) !! batch) as [b|] eqn:Hb; [|apply agrees_err]. branch.
  pure. intros f Hf%ok_or_ok _. pure. intros _ (-> & _)%owner_facility_scope_ok _. pure. intros _ _ _.
  eapply agrees_bind; [by apply agrees_begin|]. intros [s1 txn] _ (Hact & Etxn & _ & P1). cbn [fst snd] in *.
  subst txn.
  pure. intros _ _ _. set (p := loose _ _ _ _ _ _ _).
  assert (Hbatch : inventory_row_matches_batch s p = true) by by eapply batch_of_position.
  eapply agrees_bind.
  { by eapply (agrees_upsert _ _ _ _ _ _ _ p); [exact P1|..|apply active_location_Some|]. }
  intros [s2 id] _ (_ & _ & P2). cbn [fst snd] in *.
  eapply agrees_bind; [by eapply (agrees_append _ _ _ _ _ _ _ _ _ _ p); [exact P2|..]|]. intros s3 _ [P3 _].
  eapply agrees_close; [exact P3|apply Hs|done|done|done| |by intros s' Hs'].
  split; [cbn; by rewrite (proj2 (Z.ltb_lt _ _) Hq)|done].
Qed.
End receive.

(** ** Moves *)

Lemma elem_of_ordered {A} (where_ : Z → A → bool) (t : Table A) i x :
  (i, x) ∈ ordered_rows where_ t ↔ rows t !! i = Some x ∧ where_ i x = true.
Proof.
  unfold ordered_rows. rewrite sort_by_perm, elem_of_filter_bool, elem_of_map_to_list. done.
Qed.

Lemma find_ordered {A} (f : Z * A → bool) where_ (t : Table A) i x :
  find f (ordered_rows where_ t) = Some (i, x) →
  rows t !! i = Some x ∧ where_ i x = true ∧ f (i, x) = true.
Proof.
  intros [Hin Hf]%find_some. apply list_elem_of_In, elem_of_ordered in Hin as []. done.
Qed.

(** Two rows of one owner, place, batch and status are one row. *)
Lemma same_row s i j b c :
  stock_wf s → rows (balances s) !! i = Some b → rows (balances s) !! j = Some c →
  inventory_owner_id (position b) = inventory_owner_id (position c) →
  location_id (position b) = location_id (position c) →
  license_plate_id (position b) = license_plate_id (position c) →
  item_batch_id (position b) = item_batch_id (position c) →
  status (position b) = status (position c) → i = j ∧ b = c.
Proof.
  intros Hwf Hb Hc Ho Hl Hp Hi Hs.
  assert (i = j) as ->; [|by split; [|congruence]].
  apply (shelf_keys s (wf_shelf s Hwf) i j b c Hb Hc). unfold index_key.
  pose proof (shelf_batch s (wf_shelf s Hwf) i b Hb) as (bb & Hbb & _ & _ & Hub)%row_matches_batch.
  pose proof (shelf_batch s (wf_shelf s Hwf) j c Hc) as (cc & Hcc & _ & _ & Huc)%row_matches_batch.
  assert (bb = cc) by congruence. congruence.
Qed.

Lemma trace_by_batch s p q : item_batch_id p = item_batch_id q → trace_at s p = trace_at s q.
Proof. intros E. unfold trace_at. by rewrite E. Qed.

Section move.
Context (g : bool) (scope : ScopeBindings) (actor : Z) (key hash : rstr).
Context (batch from to qty : Z) (st : InventoryStatus) (memo : Memo).

Lemma move_agrees s :
  settled s → 0 < qty →
  agrees (move_work g scope actor key hash batch from to qty st memo s)
    (move_work false scope actor key hash batch from to qty st memo s) (fun r => settled r.1.1).
Proof.
  intros Hs Hq. unfold move_work.
  destruct (find _ _) as [[i source]|] eqn:Hfind; [|apply agrees_err].
  apply find_ordered in Hfind as (Hsrc & Hw & Hf). bool_to_prop. branch.
  pure. intros f Hf%ok_or_ok _. branch. bool_to_prop. subst f.
  pure. intros _ (-> & _)%owner_facility_scope_ok _. pure. intros _ _ _.
  remember (position source) as p eqn:Ep.
  eapply agrees_bind; [by apply agrees_begin|]. intros [s1 txn] _ (Hact & Etxn & Ebal & P1).
  cbn [fst snd] in *. subst txn. pure. intros _ _ _.
  eapply agrees_bind.
  { eapply agrees_decrement; [exact P1|done|..].
    - intros j j' b c Hb Hc Hwb Hwc. bool_to_prop.
      destruct (same_row s1 j j' b c) as [-> _]; [apply P1|congruence..|done].
    - intros j b _ Hwb. bool_to_prop. done. }
  intros [s2 n] _ [Hn|(j & b & Hb & Hwb & _ & P2)]; cbn [fst snd] in *.
  { rewrite Hn. apply agrees_err. }
  branch. bool_to_prop. rewrite Ebal in Hb.
  destruct (same_row s j i b source) as [_ ->]; [apply Hs|congruence..|]. rewrite <-Ep in P2.
  set (q := loose _ _ _ _ _ _ _).
  assert (Hp : inventory_row_matches_batch s p = true)
    by (rewrite Ep; by apply (shelf_batch s (wf_shelf s (settled_wf s Hs)) i)).
  assert (Hq' : inventory_row_matches_batch s q = true).
  { apply row_matches_batch in Hp as (bb & Hbb & ? & ? & ?). eapply batch_of_position; [|done..]. congruence. }
  eapply agrees_bind.
  { by eapply (agrees_upsert _ _ _ _ _ _ _ q); [exact P2|..|apply active_location_Some|]. }
  intros [s3 id] _ (_ & _ & P3). cbn [fst snd] in *.
  eapply agrees_bind; [eapply (agrees_append _ _ _ _ _ _ _ _ _ _ p); [exact P3|done..|]|].
  { clear Ep. destruct p. cbn in *. congruence. }
  intros s4 _ [P4 _].
  eapply agrees_bind; [by eapply (agrees_append _ _ _ _ _ _ _ _ _ _ q); [exact P4|..]|]. intros s5 _ [P5 _].
  eapply agrees_close; [exact P5|apply Hs|done|done|done| |by intros s' Hs'].
  apply (move_balances p (trace_at s p)).
  - intros e He. cbn in He. set_unfold in He. destruct He as [->|[->|[]]]; split; try done; [by destruct p| |].
    + unfold elsewhere, q, loose. cbn. congruence.
    + apply trace_by_batch. cbn. congruence.
  - cbn. lia.
Qed.
End move.

(** ** Splits *)

Lemma total_quantity_ok ds seen t total :
  total_quantity ds seen t = Ok total →
  total = t + zsum (ds.*2) ∧ Forall (fun d => 0 < d.2) ds.
Proof.
  revert seen t. induction ds as [|[to qty] ds IH]; intros seen t H; cbn in H.
  { simplify_eq. split; [cbn; lia|constructor]. }
  destruct (0 <? to); [|done]. destruct (0 <? qty) eqn:Hq; [|done]. bool_to_prop.
  case_bool_decide; [done|]. apply rbind_ok in H as (t' & Ht & H). apply ok_or_ok in Ht.
  unfold i64_checked_add in Ht. apply checked_Some in Ht as [-> _].
  apply IH in H as [-> Hall]. cbn [fmap list_fmap snd]. rewrite zsum_cons. split; [lia|]. by constructor.
Qed.

Lemma omap_all {A B} (f : A → option B) l :
  length (omap f l) = length l → ∀ x, x ∈ l → ∃ y, f x = Some y ∧ y ∈ omap f l.
Proof.
  assert (Hle : ∀ l, (length (omap f l) <= length l)%nat).
  { clear l. induction l as [|x l IH]; cbn; [done|]. destruct (f x); cbn; lia. }
  induction l as [|x l IH]; cbn; [set_solver|].
  specialize (Hle l). destruct (f x) as [y|] eqn:E; cbn; [|lia]. intros Hlen z Hz.
  apply elem_of_cons in Hz as [->|Hz]; [exists y; set_solver|].
  destruct (IH ltac:(lia) z Hz) as (y' & ? & ?). exists y'. set_solver.
Qed.

Lemma repeats_snoc es cs e c :
  repeats es cs → entry_position e = change_position c → entry_trace e = change_trace c →
  quantity_delta e = change_delta c → repeats (es ++ [e]) (cs ++ [c]).
Proof.
  unfold repeats. intros H Hp Ht Hd. rewrite !fmap_app, H. cbn [fmap list_fmap].
  by rewrite Hp, Ht, Hd.
Qed.

(** The transaction of a split while the destinations [l] are still to come. *)
Definition splitting (s0 : Stock) (row : TransactionRow) (p : Position) (l : list (Z * Z))
    (s : Stock) : Prop :=
  ∃ es cs, posting s0 row s (transitions s0) es cs ∧ es ≠ [] ∧ repeats es cs ∧
    (∀ e, e ∈ es → elsewhere p (entry_position e) ∧ entry_trace e = trace_at s0 p) ∧
    zsum (quantity_delta <$> es) = - zsum (l.*2) ∧
    Forall (fun d => 0 < d.2 ∧ active_location s0 d.1 = Some (facility_id p)) l.

Lemma split_destination_agrees g s0 row p d l s :
  inventory_row_matches_batch s0 p = true → txn_owner row = inventory_owner_id p →
  require_active_inventory_owner_facility s0 (inventory_owner_id p) (facility_id p) = true →
  splitting s0 row p (d :: l) s →
  agrees (split_destination g (inventory_owner_id p, facility_id p) (opened s0) p d s)
    (split_destination false (inventory_owner_id p, facility_id p) (opened s0) p d s)
    (splitting s0 row p l).
Proof.
  intros Hp Hrow Hact (es & cs & P & Hne & Hrep & Hes & Hsum & Hd).
  apply Forall_cons in Hd as [[Hq Hloc] Hl]. unfold split_destination. pure. intros _ _ _.
  set (q := loose _ _ _ _ _ _ _).
  assert (Hq' : inventory_row_matches_batch s0 q = true).
  { apply row_matches_batch in Hp as (bb & Hbb & ? & ? & ?). by eapply batch_of_position. }
  eapply agrees_bind.
  { by eapply (agrees_upsert _ _ _ _ _ _ _ q); [exact P|..|apply active_location_Some|]. }
  intros [s2 id] _ (_ & _ & P2). cbn [fst snd] in *.
  eapply agrees_weaken; [by eapply (agrees_append _ _ _ _ _ _ _ _ _ _ q); [exact P2|..]|].
  intros s3 [P3 _]. eexists _, _. split; [exact P3|]. split_and!.
  - by destruct es.
  - by apply repeats_snoc.
  - intros e [He|He]%elem_of_app; [by apply Hes|].
    apply list_elem_of_singleton in He as ->. split; [done|]. by apply trace_by_batch.
  - rewrite fmap_app, zsum_app, Hsum. cbn [fmap list_fmap snd quantity_delta je_quantity_delta].
    rewrite !zsum_cons. change (zsum []) with 0. lia.
  - done.
Qed.

Section split.
Context (g : bool) (scope : ScopeBindings) (actor : Z) (key hash : rstr).
Context (balance : Z) (destinations : list (Z * Z)) (total : Z) (memo : Memo).

Lemma split_agrees s :
  settled s → destinations ≠ [] → total_quantity destinations ∅ 0 = Ok total →
  agrees (split_work g scope actor key hash balance destinations total memo s)
    (split_work false scope actor key hash balance destinations total memo s) (fun r => settled r.1.1).
Proof.
  intros Hs Hne [Etotal Hpos]%total_quantity_ok. unfold split_work.
  assert (Htotal : 0 < total).
  { destruct Hpos as [|[to q] l Hq Hl]; [done|]. cbn [fmap list_fmap snd] in Etotal, Hq. rewrite zsum_cons in Etotal.
    assert (0 ≤ zsum l.*2); [|lia]. apply zsum_nonneg, Forall_fmap.
    eapply Forall_impl; [exact Hl|]. intros d Hd. cbn in *. lia. }
  destruct (rows (balances s) !! balance) as [hint|] eqn:Hhint; [|apply agrees_err]. branch. branch.
  destruct (find _ _) as [[i source]|] eqn:Hfind; [|apply agrees_err].
  apply find_ordered in Hfind as (Hsrc & Hw & Hf). bool_to_prop. subst i. branch. branch. branch. branch.
  pure. intros _ (-> & _)%owner_facility_scope_ok _. pure. intros _ _ _.
  remember (position source) as p eqn:Ep.
  eapply agrees_bind; [by apply agrees_begin|]. intros [s1 txn] _ (Hact & Etxn & Ebal & P1).
  cbn [fst snd] in *. subst txn.
  eapply agrees_bind.
  { eapply agrees_decrement; [exact P1|done|..].
    - intros j j' b c _ _ Hwb Hwc. bool_to_prop. congruence.
    - intros j b Hb Hwb. bool_to_prop. subst j. rewrite Ebal in Hb. split_and!; [done|lia|cbn; congruence]. }
  intros [s2 n] _ [Hn|(j & b & Hb & Hwb & _ & P2)]; cbn [fst snd] in *.
  { rewrite Hn. apply agrees_err. }
  branch. bool_to_prop. rewrite Ebal in Hb. subst j.
  assert (b = source) as -> by congruence. rewrite <-Ep in P2.
  assert (Hp : inventory_row_matches_batch s p = true)
    by (rewrite Ep; by apply (shelf_batch s (wf_shelf s (settled_wf s Hs)) balance)).
  eapply agrees_bind; [eapply (agrees_append _ _ _ _ _ _ _ _ _ _ p); [exact P2|done..|]|].
  { clear Ep. destruct p. cbn in *. congruence. }
  intros s3 _ [P3 _].
  eapply agrees_bind.
  { match type of P3 with posting _ ?r _ _ _ _ => apply (agrees_fold _ _ (splitting s r p)) end.
    - intros d l s' Hsp. by eapply split_destination_agrees; [..|exact Hsp].
    - eexists _, _. split; [exact P3|]. split_and!; try done.
      + intros e He. cbn in He. apply list_elem_of_singleton in He as ->. split; [by destruct p|done].
      + cbn [app fmap list_fmap quantity_delta je_quantity_delta]. rewrite zsum_cons, sort_by_perm.
        change (zsum []) with 0. lia.
      + rewrite sort_by_perm. apply Forall_forall. intros d Hd. split.
        * by eapply Forall_forall in Hpos.
        * destruct (omap_all (fun d => active_location s d.1) destinations)
            with (x := d) as (f & Ef & Hin); [by apply Nat.eqb_eq|done|].
          rewrite Ef. f_equal. rewrite forallb_forall in E4. apply list_elem_of_In, E4 in Hin.
          by bool_to_prop. }
  intros s4 _ (es & cs & P4 & Hne' & Hrep & Hes & Hsum & _).
  eapply agrees_close; [exact P4|apply Hs|done|done|done| |by intros s' Hs'].
  by apply (move_balances p (trace_at s p)).
Qed.
End split.

(** ** Status changes *)

Lemma posting_transition s0 row s audit es cs r :
  posting s0 row s audit es cs → transition_transaction r = opened s0 →
  transition_owner r = txn_owner row →
  posting s0 row (set_transitions (insert_row (transitions s) r) s) (insert_row audit r) es cs.
Proof.
  intros P Ht Ho. pose proof (posting_row P) as Hrow.
  destruct P as [[H1 H2 H3 [Hxt Hst He Hc Hx Hob]] Hopen Htx Hd Hb <- Hes Hcs Hcl Hv].
  split; try done. split; [carry H1|carry H2|carry H3|]. split; try done.
  - by apply table_ok_insert.
  - intros i r' Hr'. cbn in Hr'.
    apply lookup_insert_Some in Hr' as [[<- <-]|[_ Hr]]; [by rewrite Ht, Ho|by apply (Hx i)].
Qed.

Lemma audit_one s0 r owner :
  stock_wf s0 → transition_transaction r = opened s0 → transition_owner r = owner →
  List.filter (fun x => (transition_transaction x.2 =? opened s0) && (transition_owner x.2 =? owner))
    (map_to_list (rows (insert_row (transitions s0) r))) = [(next_id (transitions s0), r)].
Proof.
  intros Hwf Ht Ho. apply Permutation_singleton_r. cbn.
  rewrite map_to_list_insert by (apply table_fresh, (transition_table s0), Hwf). cbn.
  rewrite Ht, Ho, !Z.eqb_refl. cbn [andb].
  rewrite (elem_of_nil_inv (List.filter _ _)); [done|].
  intros [i r'] [Hin E]%elem_of_filter_bool. cbn in E. bool_to_prop.
  apply elem_of_map_to_list in Hin. by apply (fresh_audit s0 i r').
Qed.

(** The deferred constraint on status changes, from what the handler has done. *)
Lemma transition_enforced s0 row s r es cs src dst e1 e2 :
  posting s0 row s (insert_row (transitions s0) r) es cs → stock_wf s0 → repeats es cs →
  txn_type row = StatusChange → transition_transaction r = opened s0 →
  transition_owner r = txn_owner row → transition_created_by r = txn_actor row →
  txn_reason row = Some (lit (InventoryStatusChangeReason_as_str (transition_reason r))) →
  transition_reference_type r = txn_reference_type row →
  transition_reference_id r = txn_reference_id row →
  rows (balances s) !! transition_source r = Some src → balance_deleted src = false →
  rows (balances s) !! transition_destination r = Some dst → balance_deleted dst = false →
  facility_id (position src) = transition_facility r → status (position src) = from_status r →
  position dst = with_status (to_status r) (position src) → es = [e1; e2] →
  entry_position e1 = position src → quantity_delta e1 = - transition_qty r →
  entry_position e2 = position dst → quantity_delta e2 = transition_qty r →
  enforce_inventory_status_transition s (opened s0) row = true.
Proof.
  intros P Hwf Hrep Hty Ht Ho Hby Hreason Hrt Hri Hsrc Hsd Hdst Hdd Hfac Hst Hpos -> He1 Hd1 He2 Hd2.
  unfold enforce_inventory_status_transition.
  rewrite Hty, (posting_audit _ _ _ _ _ _ P), (audit_one s0 r) by done.
  rewrite Hsrc, Hdst, (posting_entries _ _ _ _ _ _ P).
  rewrite !(posting_settled _ _ _ _ _ _ _ P Hrep). cbn [existsb length].
  rewrite He1, Hd1, He2, Hd2, Hby, Hreason, Hrt, Hri, Hsd, Hdd, Hfac, Hst.
  rewrite !bool_decide_true, !Z.eqb_refl by done. cbn.
  rewrite (bool_decide_true (position dst = position dst)) by done. cbn. by rewrite orb_true_r.
Qed.

Lemma validate_command_ok c c' :
  validate_command c = Ok c' →
  0 < cs_qty c' ∧ allows_target_status (cs_reason c') (cs_to_status c') = true ∧
  bool_decide (cs_reason c' = ReasonOther) && bool_decide (cs_note c' = None) = false.
Proof.
  unfold validate_command. intros H. destruct (0 <? cs_balance c); [|done].
  destruct (0 <? cs_qty c) eqn:Hq; [|done]. apply rbind_ok in H as (note & _ & H).
  apply rbind_ok in H as (rt & _ & H). destruct (reference_ok _ _); [|done].
  destruct (_ && _) eqn:Hn in H; [done|]. destruct (allows_target_status _ _) eqn:Ha; [|done].
  injection H as <-. cbn. apply Z.ltb_lt in Hq. done.
Qed.

Lemma change_status_locks_ok scope command s hint source :
  change_status_locks scope command s = Ok (hint, source) →
  rows (balances s) !! cs_balance command = Some source ∧ position source = hint.
Proof.
  unfold change_status_locks. intros H. apply rbind_ok in H as (b & Hb%ok_or_ok & H).
  apply rbind_ok in H as (_ & _ & H). destruct (find _ _) as [[i b']|] eqn:Hf; [|done].
  apply rbind_ok in H as (_ & _ & [= <- <-]). apply find_ordered in Hf as (Hb' & _ & Hi).
  bool_to_prop. subst i. split; [done|]. congruence.
Qed.

Section change.
Context (g : bool) (scope : ScopeBindings) (actor : Z) (request key hash : rstr).
Context (command0 command : ChangeInventoryStatusCommand).

Lemma change_status_agrees s locked :
  settled s → validate_command command0 = Ok command →
  change_status_locks scope command s = Ok locked →
  agrees (change_status_work g actor request key hash command locked s)
    (change_status_work false actor request key hash command locked s) (fun r => settled r.1.1).
Proof.
  destruct locked as [hint source].
  intros Hs (Hq & Hallow & Hnote)%validate_command_ok [Hsrc Hhint]%change_status_locks_ok.
  pose proof (settled_wf s Hs) as Hwf. unfold change_status_work.
  remember (position source) as p eqn:Ep. branch. branch. branch. bool_to_prop. subst hint.
  pure. intros free _ _. branch. pure. intros _ (-> & _)%owner_facility_scope_ok _.
  eapply agrees_bind; [by apply agrees_begin|]. intros [s1 txn] _ (Hact & Etxn & Ebal & P1).
  cbn [fst snd] in *. subst txn.
  eapply agrees_bind.
  { eapply agrees_decrement; [exact P1|done|..].
    - intros j j' b c _ _ Hwb Hwc. bool_to_prop. congruence.
    - intros j b Hb Hwb. bool_to_prop. split_and!; done. }
  intros [s2 n] _ [Hn|(j & b & Hb & Hwb & Hrows2 & P2)]; cbn [fst snd] in *.
  { rewrite Hn. apply agrees_err. }
  branch. bool_to_prop. rewrite Ebal in Hb, Hrows2. subst j.
  assert (b = source) as -> by congruence. rewrite <-Ep in P2.
  assert (Hp : inventory_row_matches_batch s p = true)
    by (rewrite Ep; by apply (shelf_batch s (wf_shelf s Hwf) (cs_balance command))).
  set (q := with_status (cs_to_status command) p).
  assert (Hq' : inventory_row_matches_batch s q = true) by done.
  eapply agrees_bind.
  { eapply (agrees_upsert _ _ _ _ _ _ _ q); [exact P2|done..| |done]. subst q p. cbn.
    by apply (shelf_facility s (wf_shelf s Hwf) (cs_balance command)). }
  intros [s3 target] _ ((new & Hnew & Hnewd & Hrows3) & Hold & P3). cbn [fst snd] in *.
  assert (Hne : target ≠ cs_balance command).
  { intros ->. specialize (Hold (with_on_hand (qty_on_hand source - cs_qty command) source)).
    rewrite Hrows2, lookup_insert_eq in Hold. specialize (Hold eq_refl). cbn in Hold.
    rewrite <-Ep in Hold. apply (f_equal status) in Hold. by cbn in Hold. }
  eapply agrees_bind; [eapply (agrees_append _ _ _ _ _ _ _ _ _ _ p); [exact P3|done..|]|];
    [by destruct p|]. intros s4 _ [P4 Eb4].
  eapply agrees_bind; [eapply (agrees_append _ _ _ _ _ _ _ _ _ _ q); [exact P4|done..|]|];
    [by destruct p|]. intros s5 _ [P5 Eb5].
  set (r := MkTransition _ _ _ _ _ _ _ _ _ _ _ _ _).
  assert (Hchecks : transition_checks r = true).
  { unfold transition_checks. cbn. rewrite (proj2 (Z.eqb_neq _ _)) by congruence.
    rewrite bool_decide_false by done. rewrite Hallow, (proj2 (Z.ltb_lt _ _)) by done.
    assert (bool_decide (cs_reason command = ReasonOther) && bool_decide (cs_note command = None)
      = false) as -> by (apply andb_false_iff; by rewrite !bool_decide_eq_false). done. }
  unfold insert_transition. rewrite !guard_true by done. cbn [rbind].
  pose proof (posting_transition _ _ _ _ _ _ r P5 eq_refl eq_refl) as P6.
  pure. intros s7 Hemit _. destruct (posting_emit _ _ _ _ _ _ _ _ _ _ _ _ _ _ Hemit P6) as [P7 Eb7].
  apply (agrees_bind _ _ (fun s' => s' = set_context None s7 ∧ settled s'));
    [|intros s8 _ [_ Hset]; by apply agrees_ok].
  eapply agrees_commit; [exact P7|done|done|apply (status_balances p (trace_at s p))|].
  { cbn. intros e He. apply elem_of_cons in He as [->|He]; [by destruct p|].
    apply list_elem_of_singleton in He as ->. by destruct p. }
  { cbn. lia. }
  assert (Eb : rows (balances s7) = rows (balances s3)) by (rewrite Eb7; cbn; by rewrite Eb5, Eb4).
  eapply (transition_enforced s _ s7 r _ _ (with_on_hand (qty_on_hand source - cs_qty command) source) new);
    try done; try (by rewrite Eb, Hrows3, lookup_insert_eq); rewrite ?Eb, ?Hrows3, ?Hrows2; cbn.
  - by rewrite lookup_insert_ne, lookup_insert_eq.
  - by rewrite Ep.
  - by rewrite Hnew, <-Ep.
Qed.
End change.
