(* ===== verification/StockCommitments.v ===== *)
(** * Stock: reservations, allocations and holds

    Inserting and closing commitments keeps the rows settled, and on settled rows the
    guards of the schema agree with the handlers. A commitment rewrites one balance, whose
    quantity on hand stays. *)

From S2P Require Import Prelude.
From S2P Require Import RustStr.
From S2P Require Import Orders.
From S2P Require Import Idempotency.
From S2P Require Import Outbox.
From S2P Require Import StockTypes.
From S2P Require Import StockDb.
From S2P Require Import StockJournal.
From S2P Require Import StockHandlers.
From S2P Require Import StockInvariant.
From S2P Require Import StockFacts.
From S2P Require Import StockPosting.
From S2P Require Import StockMoves.

(** ** Sums over a table *)

Lemma sum_insert_row {A} (f : Z → A → Z) (t : Table A) x :
  table_ok t → sum_rows f (rows (insert_row t x)) = sum_rows f (rows t) + f (next_id t) x.
Proof. intros Ht. by apply sum_rows_insert_new, table_fresh. Qed.

Lemma sum_update_row {A} (f : Z → A → Z) (t : Table A) i x y :
  rows t !! i = Some y → sum_rows f (rows (update_row t i x)) = sum_rows f (rows t) + f i x - f i y.
Proof. apply sum_rows_insert. Qed.

Lemma insert_row_Some {A} (t : Table A) x i y :
  rows (insert_row t x) !! i = Some y → (i = next_id t ∧ y = x) ∨ rows t !! i = Some y.
Proof. cbn. rewrite lookup_insert_Some. naive_solver. Qed.

Lemma update_row_Some {A} (t : Table A) j x i y :
  rows (update_row t j x) !! i = Some y → (i = j ∧ y = x) ∨ (i ≠ j ∧ rows t !! i = Some y).
Proof. cbn. rewrite lookup_insert_Some. naive_solver. Qed.

(** ** Rewriting the commitments of a balance *)

Definition recommit (al : Table AllocationRow) (ho : Table HoldRow) (i : Z) (new : BalanceRow)
    (s : Stock) : Stock :=
  set_balances (update_row (balances s) i new) (set_holds ho (set_allocations al s)).

Definition with_commitments (reserved held : Z) (b : BalanceRow) : BalanceRow :=
  MkBalance (position b) (qty_on_hand b) reserved held (balance_deleted b).

(** A row whose place and quantity stay brings no other lot to its location. *)
Lemma same_row_mixes_nothing s i b new :
  position new = position b → qty_on_hand new = qty_on_hand b → balance_deleted new = balance_deleted b →
  mixes_lots s i (Some b) new = false.
Proof.
  intros Hp Hq Hd. unfold mixes_lots. rewrite Hp, Hq, Hd. rewrite !Z.eqb_refl, eqb_reflx, Z.leb_refl.
  rewrite (bool_decide_true (license_plate_id (position b) = license_plate_id (position b))) by done.
  cbn. by rewrite andb_false_r.
Qed.

Section recommit.
Context (s : Stock) (al : Table AllocationRow) (ho : Table HoldRow) (i : Z) (b : BalanceRow).
Context (reserved held : Z).
Let new : BalanceRow := with_commitments reserved held b.
Let s' : Stock := recommit al ho i new s.
Context (Hs : settled s) (Hb : rows (balances s) !! i = Some b).
Context (Hreserved : 0 ≤ reserved) (Hheld : 0 ≤ held) (Hsum : reserved + held ≤ qty_on_hand b).
Context (Er : reserved = allocated_on s' i) (Eh : held = held_on s' i).

Lemma recommit_quantities : quantities_ok new.
Proof. destruct (wf_quantities s (settled_wf s Hs) i b Hb) as (_ & _ & _ & ?). done. Qed.

(** The guards accept the row, no lot is mixed and no change is captured. *)
Lemma recommit_write g :
  write_balance g (set_holds ho (set_allocations al s)) i (Some b) new
    (update_row (balances s) i new) = Ok s'.
Proof.
  pose proof (settled_wf s Hs) as Hwf.
  assert (Hbatch : inventory_row_matches_batch s (position b) = true)
    by (by apply (shelf_batch s (wf_shelf s Hwf) i)).
  unfold write_balance. rewrite !guard_true; [|apply (checks_hold s); [done|done|apply recommit_quantities]|done|].
  - cbn [rbind]. rewrite same_row_mixes_nothing by done. unfold capture_inventory_projection_change, effective. cbn.
    by rewrite bool_decide_true, Z.eqb_refl by done.
  - unfold guard_inventory_balance_commitments.
    change (allocated_on (set_holds ho (set_allocations al s)) i) with (allocated_on s' i).
    change (held_on (set_holds ho (set_allocations al s)) i) with (held_on s' i).
    rewrite <-Er, <-Eh. cbn. rewrite !Z.eqb_refl, bool_decide_true, eqb_reflx by done.
    rewrite (proj2 (Z.leb_le _ _)) by done. by rewrite orb_true_r.
Qed.

Context (Hal : table_ok al) (Hho : table_ok ho).
Context (Hallocations : ∀ j a, rows al !! j = Some a → allocation_ok s a).
Context (Hholds : ∀ j h, rows ho !! j = Some h → hold_ok s h).
Context (Helse : ∀ j, j ≠ i → allocated_on s' j = allocated_on s j ∧ held_on s' j = held_on s j).
Context (Hdemand : ∀ j r, rows (reservations s) !! j = Some r → allocated_of s' j ≤ reservation_qty r).

Lemma recommit_row j p :
  (∃ c, rows (balances s) !! j = Some c ∧ position c = p) →
  ∃ c, rows (balances s') !! j = Some c ∧ position c = p.
Proof.
  intros (c & Hc & Hp). destruct (decide (j = i)) as [->|Hne].
  - exists new. cbn. rewrite lookup_insert_eq. split; [done|]. congruence.
  - exists c. cbn. by rewrite lookup_insert_ne by congruence.
Qed.

Lemma recommit_wf : stock_wf s'.
Proof.
  pose proof recommit_quantities as Hq.
  destruct Hs as [[[Ht Hk Hqs Hd Hbt Hf Hbtab Hbu] [_ _ _ _ Hrp Hhp] Hdem Hj] _ _ _].
  split; [| |by destruct Hdem; split|by destruct Hj; split]; split; try done.
  - by eapply table_ok_update.
  - intros j k c c' [[-> ->]|[_ Hj']]%update_row_Some [[-> ->]|[_ Hk']]%update_row_Some E;
      [done|by apply (Hk i k b c')|by apply (Hk j i c b)|by apply (Hk j k c c')].
  - intros j c [[-> ->]|[_ Hj']]%update_row_Some; [done|by apply (Hqs j)].
  - intros j c [[-> ->]|[_ Hj']]%update_row_Some; [by apply (Hd i b)|by apply (Hd j)].
  - intros j c [[-> ->]|[_ Hj']]%update_row_Some; [by apply (Hbt i b)|by apply (Hbt j)].
  - intros j c [[-> ->]|[_ Hj']]%update_row_Some; [by apply (Hf i b)|by apply (Hf j)].
  - intros j a (? & Hbal & Hres & ?)%Hallocations. split_and!; [done|by apply recommit_row|done|done].
  - intros j h (? & Hbal)%Hholds. split; [done|by apply recommit_row].
  - intros j c [[-> ->]|[Hne Hj']]%update_row_Some; [done|].
    destruct (Helse j Hne) as [-> _]. by apply Hrp.
  - intros j c [[-> ->]|[Hne Hj']]%update_row_Some; [done|].
    destruct (Helse j Hne) as [_ ->]. by apply Hhp.
Qed.

Lemma recommit_settled : settled s'.
Proof.
  destruct Hs as [_ Hr Hbal Hn]. split; [apply recommit_wf| |done|done].
  intros p. rewrite <-(Hr p). unfold variance. f_equal. unfold projected_qty. cbn.
  rewrite (sum_rows_insert _ _ _ _ b) by done. unfold new, effective. cbn. case_bool_decide; lia.
Qed.
End recommit.

(** ** Allocations *)

(** What a row adds to the sums over the active allocations. *)
Definition counts (a : AllocationRow) (c : bool) : Z :=
  if active_allocation a && c then allocation_qty a else 0.

Lemma bigint_ok z y : bigint z = Ok y → y = z ∧ i64_min ≤ z ≤ i64_max.
Proof.
  unfold bigint. destruct (checked _ _ _) eqn:E; [|done]. intros [= <-].
  by apply checked_Some in E as [-> ?].
Qed.

Lemma allocation_demand_ok s a r :
  allocation_demand s a = Ok tt → rows (reservations s) !! allocation_reservation a = Some r →
  allocated_of s (allocation_reservation a) + allocation_qty a ≤ reservation_qty r.
Proof.
  intros H Hr. unfold allocation_demand in H. rewrite Hr in H.
  apply rbind_ok in H as (x & [-> _]%bigint_ok & H). apply rbind_ok in H as (y & [-> _]%bigint_ok & H).
  destruct (_ <? _) eqn:E in H; [done|]. by apply Z.ltb_ge in E.
Qed.

(** Inserting an allocation that fits succeeds up to the checks outside the guards. *)
Lemma insert_allocation_agrees g s a :
  settled s → allocation_ok s a → active_allocation a = true →
  (∀ b, rows (balances s) !! allocation_balance a = Some b →
     allocation_qty a ≤ qty_on_hand b - qty_reserved b - qty_held b) →
  agrees (insert_allocation g s a) (insert_allocation false s a) (fun r =>
    r.2 = next_id (allocations s) ∧ settled r.1 ∧ journal_context r.1 = None ∧
    ∃ b, rows (balances s) !! allocation_balance a = Some b ∧
      r.1 = recommit (insert_row (allocations s) a) (holds s) (allocation_balance a)
              (with_commitments (qty_reserved b + allocation_qty a) (qty_held b) b) s).
Proof.
  intros Hs Hok Hact Hfree. pose proof (settled_wf s Hs) as Hwf.
  destruct Hok as (Hq & (b & Hb & Hp) & (r & Hr & Ho & Hf & Hi & Hu & Hra) & Hst).
  specialize (Hfree b Hb). destruct (wf_quantities s Hwf _ b Hb) as (? & ? & ? & ?).
  assert (Hd : balance_deleted b = false) by (eapply committed_not_deleted; [done..|lia]).
  unfold insert_allocation. branch.
  assert (validate_inventory_allocation s true a = true) as Hv.
  { unfold validate_inventory_allocation. rewrite Hr, Hb, Hd, Ho, Hf, Hi, Hu, (Hra Hact), Hp.
    by rewrite !Z.eqb_refl, !bool_decide_true by done. }
  assert (allocation_in_stock s a = true) as Hv'
    by (unfold allocation_in_stock; rewrite Hb; by apply Z.leb_le).
  rewrite !guard_true by done. cbn [rbind]. pure. intros [] Hd' _.
  pose proof (allocation_demand_ok s a r Hd' Hr) as Edem.
  unfold project. cbn [balances set_allocations]. rewrite Hb, Hp, Z.eqb_refl.
  unfold project_allocation. rewrite !(proj2 (Z.leb_le _ _)) by lia. cbn [andb].
  fold (with_commitments (qty_reserved b + allocation_qty a) (qty_held b) b).
  change (set_allocations (insert_row (allocations s) a) s) with
    (set_holds (holds s) (set_allocations (insert_row (allocations s) a) s)).
  set (s' := recommit (insert_row (allocations s) a) (holds s) (allocation_balance a)
    (with_commitments (qty_reserved b + allocation_qty a) (qty_held b) b) s).
  pose proof (wf_commitments s Hwf) as Hc.
  assert (Hon : ∀ j, allocated_on s' j = allocated_on s j + counts a (allocation_balance a =? j)).
  { intros j. apply sum_insert_row, Hc. }
  assert (Hof : ∀ j, allocated_of s' j = allocated_of s j + counts a (allocation_reservation a =? j)).
  { intros j. apply sum_insert_row, Hc. }
  unfold counts in Hon, Hof. rewrite Hact in Hon, Hof. cbn [andb] in Hon, Hof.
  assert (Er : qty_reserved b + allocation_qty a = allocated_on s' (allocation_balance a)).
  { rewrite Hon, Z.eqb_refl. f_equal. by apply (reserved_projection s Hc). }
  assert (Eh : qty_held b = held_on s' (allocation_balance a)) by (by apply (held_projection s Hc)).
  rewrite !(recommit_write s (insert_row (allocations s) a) (holds s) _ b) by (done || lia).
  cbn [rbind]. apply agrees_ok. split_and!; [done| |by apply Hs|by exists b].
  eapply recommit_settled; try done; try lia.
  - apply table_ok_insert, Hc.
  - apply Hc.
  - intros j a' [[-> ->]|Hj]%insert_row_Some; [|by apply (allocation_rows s Hc j)].
    split_and!; [done|by exists b|by exists r|done].
  - intros j h Hj. by apply (hold_rows s Hc j).
  - intros j Hne. split; [|done]. rewrite Hon, (proj2 (Z.eqb_neq _ _)) by congruence. lia.
  - intros j r' Hj. fold s'. rewrite Hof. destruct (Z.eqb_spec (allocation_reservation a) j) as [<-|Hne].
    + rewrite Hr in Hj. by injection Hj as <-.
    + rewrite Z.add_0_r. by apply (within_reservation s (wf_demand s Hwf)).
Qed.

(** Releasing an active allocation always succeeds. *)
Lemma release_allocation_run s id a :
  settled s → rows (allocations s) !! id = Some a → active_allocation a = true →
  ∃ b, rows (balances s) !! allocation_balance a = Some b ∧
    let s' := recommit (update_row (allocations s) id (with_allocation_status AllocationReleased a))
      (holds s) (allocation_balance a)
      (with_commitments (qty_reserved b - allocation_qty a) (qty_held b) b) s in
    (∀ g, release_allocation g s id = Ok (s', 1%nat)) ∧ settled s' ∧
    (∀ j, allocated_of s' j = allocated_of s j - counts a (allocation_reservation a =? j)).
Proof.
  intros Hs Ha Hact. pose proof (settled_wf s Hs) as Hwf. pose proof (wf_commitments s Hwf) as Hc.
  destruct (allocation_rows s Hc id a Ha) as (Hq & (b & Hb & Hp) & (r & Hr & Ho & Hf & Hi & Hu & Hra) & Hst).
  exists b. split; [done|]. intros s'. destruct (wf_quantities s Hwf _ b Hb) as (? & ? & ? & ?).
  pose proof (allocated_at_least s Hwf id a Ha Hact) as Hle.
  rewrite <-(reserved_projection s Hc _ b Hb) in Hle.
  assert (Hd : balance_deleted b = false) by (eapply committed_not_deleted; [done..|lia]).
  set (a' := with_allocation_status AllocationReleased a) in *.
  assert (Ha' : active_allocation a' = false) by done.
  assert (Hon : ∀ j, allocated_on s' j = allocated_on s j - counts a (allocation_balance a =? j)).
  { intros j. etrans; [apply (sum_update_row _ _ _ _ a Ha)|]. unfold counts. rewrite Ha'. cbn [andb].
    rewrite Z.add_0_r. done. }
  assert (Hof : ∀ j, allocated_of s' j = allocated_of s j - counts a (allocation_reservation a =? j)).
  { intros j. etrans; [apply (sum_update_row _ _ _ _ a Ha)|]. unfold counts. rewrite Ha'. cbn [andb].
    rewrite Z.add_0_r. done. }
  assert (Er : qty_reserved b - allocation_qty a = allocated_on s' (allocation_balance a)).
  { rewrite Hon. unfold counts. rewrite Hact, Z.eqb_refl. cbn [andb]. f_equal.
    by apply (reserved_projection s Hc). }
  assert (Eh : qty_held b = held_on s' (allocation_balance a)) by (by apply (held_projection s Hc)).
  split_and!; [| |done].
  - intros g. unfold release_allocation. rewrite Ha, Hact, guard_true.
    + cbn [rbind]. unfold project. cbn [balances set_allocations]. rewrite Hb, Hp, Z.eqb_refl.
      unfold project_allocation. rewrite !(proj2 (Z.leb_le _ _)) by lia. cbn [andb].
      change (MkBalance _ _ _ _ _) with
        (with_commitments (qty_reserved b - allocation_qty a) (qty_held b) b).
      change (set_allocations ?t s) with (set_holds (holds s) (set_allocations t s)).
      rewrite (recommit_write s (update_row (allocations s) id a') (holds s) _ b) by (done || lia).
      done.
    + unfold validate_inventory_allocation. cbn [a' with_allocation_status allocation_reservation
        allocation_balance allocation_position]. rewrite Hr, Hb, Hd, Ho, Hf, Hi, Hu, Hp.
      by rewrite !Z.eqb_refl, !bool_decide_true by (done || congruence).
  - eapply recommit_settled; try done; try lia.
    + by eapply table_ok_update; [apply Hc|].
    + apply Hc.
    + intros j x [[-> ->]|[_ Hj]]%update_row_Some; [|by apply (allocation_rows s Hc j)].
      split_and!; [done|by exists b| |done]. exists r. split_and!; done.
    + intros j h Hj. by apply (hold_rows s Hc j).
    + intros j Hne. split; [|done]. fold s'. rewrite Hon. unfold counts.
      rewrite (proj2 (Z.eqb_neq _ _)), andb_false_r by congruence. lia.
    + intros j r' Hj. fold s'. rewrite Hof. pose proof (within_reservation s (wf_demand s Hwf) j r' Hj).
      unfold counts. destruct (_ && _); lia.
Qed.

(** ** Holds *)

Definition hold_counts (h : HoldRow) (c : bool) : Z := if active_hold h && c then hold_qty h else 0.

Lemma insert_hold_agrees g s h b :
  settled s → rows (balances s) !! hold_balance h = Some b → position b = hold_position h →
  active_hold h = true → 0 < hold_qty h ≤ qty_on_hand b - qty_reserved b - qty_held b →
  agrees (insert_hold g s h) (insert_hold false s h) (fun r =>
    r.2 = next_id (holds s) ∧ settled r.1 ∧
    r.1 = recommit (allocations s) (insert_row (holds s) h) (hold_balance h)
            (with_commitments (qty_reserved b) (qty_held b + hold_qty h) b) s).
Proof.
  intros Hs Hb Hp Hact [Hq Hfree]. pose proof (settled_wf s Hs) as Hwf.
  pose proof (wf_commitments s Hwf) as Hc. destruct (wf_quantities s Hwf _ b Hb) as (? & ? & ? & ?).
  assert (Hd : balance_deleted b = false) by (eapply committed_not_deleted; [done..|lia]).
  unfold insert_hold. branch.
  assert (validate_inventory_hold s true h = true) as Hv.
  { unfold validate_inventory_hold. rewrite Hb, Hd, Hp, (held_projection s Hc _ b Hb).
    rewrite !Z.eqb_refl, bool_decide_true by done. cbn.
    rewrite <-(held_projection s Hc _ b Hb). by apply Z.leb_le. }
  rewrite !guard_true by done. cbn [rbind].
  unfold project. cbn [balances set_holds]. rewrite Hb, Hp, Z.eqb_refl.
  unfold project_hold. rewrite !(proj2 (Z.leb_le _ _)) by lia. cbn [andb].
  fold (with_commitments (qty_reserved b) (qty_held b + hold_qty h) b).
  change (set_holds (insert_row (holds s) h) s) with
    (set_holds (insert_row (holds s) h) (set_allocations (allocations s) s)).
  set (s' := recommit (allocations s) (insert_row (holds s) h) (hold_balance h)
    (with_commitments (qty_reserved b) (qty_held b + hold_qty h) b) s).
  assert (Hon : ∀ j, held_on s' j = held_on s j + hold_counts h (hold_balance h =? j)).
  { intros j. apply sum_insert_row, Hc. }
  unfold hold_counts in Hon. rewrite Hact in Hon. cbn [andb] in Hon.
  assert (Eh : qty_held b + hold_qty h = held_on s' (hold_balance h)).
  { rewrite Hon, Z.eqb_refl. f_equal. by apply (held_projection s Hc). }
  assert (Er : qty_reserved b = allocated_on s' (hold_balance h)) by (by apply (reserved_projection s Hc)).
  rewrite !(recommit_write s (allocations s) (insert_row (holds s) h) _ b) by (done || lia).
  cbn [rbind]. apply agrees_ok. split_and!; [done| |done].
  eapply recommit_settled; try done; try lia.
  - apply Hc.
  - apply table_ok_insert, Hc.
  - intros j a Hj. by apply (allocation_rows s Hc j).
  - intros j h' [[-> ->]|Hj]%insert_row_Some; [|by apply (hold_rows s Hc j)]. split; [done|by exists b].
  - intros j Hne. split; [done|]. rewrite Hon, (proj2 (Z.eqb_neq _ _)) by congruence. lia.
  - intros j r' Hj. by apply (within_reservation s (wf_demand s Hwf)).
Qed.

Lemma release_hold_run s id h :
  settled s → rows (holds s) !! id = Some h → active_hold h = true →
  ∃ b, rows (balances s) !! hold_balance h = Some b ∧
    let s' := recommit (allocations s) (update_row (holds s) id (with_hold_status HoldReleased h))
      (hold_balance h) (with_commitments (qty_reserved b) (qty_held b - hold_qty h) b) s in
    (∀ g, release_hold_row g s id = Ok (s', 1%nat)) ∧ settled s'.
Proof.
  intros Hs Hh Hact. pose proof (settled_wf s Hs) as Hwf. pose proof (wf_commitments s Hwf) as Hc.
  destruct (hold_rows s Hc id h Hh) as (Hq & b & Hb & Hp).
  exists b. split; [done|]. intros s'. destruct (wf_quantities s Hwf _ b Hb) as (? & ? & ? & ?).
  pose proof (held_at_least s Hwf id h Hh Hact) as Hle.
  rewrite <-(held_projection s Hc _ b Hb) in Hle.
  assert (Hd : balance_deleted b = false) by (eapply committed_not_deleted; [done..|lia]).
  set (h' := with_hold_status HoldReleased h) in *.
  assert (Hh' : active_hold h' = false) by done.
  assert (Hon : ∀ j, held_on s' j = held_on s j - hold_counts h (hold_balance h =? j)).
  { intros j. etrans; [apply (sum_update_row _ _ _ _ h Hh)|]. unfold hold_counts. rewrite Hh'. cbn [andb].
    rewrite Z.add_0_r. done. }
  assert (Eh : qty_held b - hold_qty h = held_on s' (hold_balance h)).
  { rewrite Hon. unfold hold_counts. rewrite Hact, Z.eqb_refl. cbn [andb]. f_equal.
    by apply (held_projection s Hc). }
  assert (Er : qty_reserved b = allocated_on s' (hold_balance h)) by (by apply (reserved_projection s Hc)).
  split.
  - intros g. unfold release_hold_row. rewrite Hh, Hact, guard_true.
    + cbn [rbind]. unfold project. cbn [balances set_holds]. rewrite Hb, Hp, Z.eqb_refl.
      unfold project_hold. rewrite !(proj2 (Z.leb_le _ _)) by lia. cbn [andb].
      change (MkBalance _ _ _ _ _) with (with_commitments (qty_reserved b) (qty_held b - hold_qty h) b).
      change (set_holds ?t s) with (set_holds t (set_allocations (allocations s) s)).
      by rewrite (recommit_write s (allocations s) (update_row (holds s) id h') _ b) by (done || lia).
    + unfold validate_inventory_hold. cbn [h' with_hold_status hold_balance hold_position hold_qty].
      rewrite Hb, Hd, Hp, (held_projection s Hc _ b Hb).
      by rewrite !Z.eqb_refl, bool_decide_true by done.
  - eapply recommit_settled; try done; try lia.
    + apply Hc.
    + by eapply table_ok_update; [apply Hc|].
    + intros j a Hj. by apply (allocation_rows s Hc j).
    + intros j x [[-> ->]|[_ Hj]]%update_row_Some; [|by apply (hold_rows s Hc j)]. split; [done|by exists b].
    + intros j Hne. split; [done|]. fold s'. rewrite Hon. unfold hold_counts.
      rewrite (proj2 (Z.eqb_neq _ _)), andb_false_r by congruence. lia.
    + intros j r' Hj. by apply (within_reservation s (wf_demand s Hwf)).
Qed.

(** ** Reservations *)

(** Replacing the reservations of settled rows. *)
Lemma settled_reservations s t :
  settled s → table_ok t →
  (∀ j a, rows (allocations s) !! j = Some a → allocation_ok (set_reservations t s) a) →
  demand_ok (set_reservations t s) → settled (set_reservations t s).
Proof.
  intros [[H1 [Hat Hht Har Hhr Hrp Hhp] H3 H4] Hr Hb Hn] Ht Ha Hd.
  split; [split; [carry H1|by split|done|carry H4]|done|done|done].
Qed.

(** An order line is of one order, so its reservations are. *)
Lemma reserved_of_order s r l :
  stock_wf s → order_items (directory s) !! reservation_line r = Some l →
  line_owner l = reservation_owner r → line_order l = reservation_order r →
  sum_rows (fun _ o =>
    if active_reservation o && (reservation_owner o =? reservation_owner r)
       && (reservation_order o =? reservation_order r) && (reservation_line o =? reservation_line r)
    then reservation_qty o else 0) (rows (reservations s)) =
  reserved_of s (reservation_owner r) (reservation_line r).
Proof.
  intros Hwf Hl Ho Hord. apply sum_rows_ext. intros i o Hi.
  destruct (reservation_rows s (wf_demand s Hwf) i o Hi) as (_ & l' & Hl' & Ho' & Hord').
  destruct (Z.eqb_spec (reservation_line o) (reservation_line r)) as [E|E];
    [|by rewrite !andb_false_r].
  assert (reservation_order o = reservation_order r) as -> by congruence.
  by rewrite Z.eqb_refl, !andb_true_r.
Qed.

Lemma reserved_of_nonneg s owner line : stock_wf s → 0 ≤ reserved_of s owner line.
Proof.
  intros Hwf. apply sum_rows_nonneg. intros i r Hi.
  destruct (reservation_rows s (wf_demand s Hwf) i r Hi) as [? _]. destruct (_ && _); lia.
Qed.

Lemma no_allocation_of_fresh s : stock_wf s → allocated_of s (next_id (reservations s)) = 0.
Proof.
  intros Hwf. apply sum_rows_zero. intros i a Ha. case_match eqn:E; [|done]. bool_to_prop.
  destruct (allocation_rows s (wf_commitments s Hwf) i a Ha) as (_ & _ & (r & Hr & _) & _).
  pose proof (table_fresh _ (reservation_table s (wf_demand s Hwf))). congruence.
Qed.

Lemma validate_reservation_ok s r :
  validate_inventory_reservation s r = Ok tt → stock_wf s →
  ∃ l, order_items (directory s) !! reservation_line r = Some l ∧
    line_owner l = reservation_owner r ∧ line_order l = reservation_order r ∧
    reserved_of s (reservation_owner r) (reservation_line r) + reservation_qty r ≤ line_qty l ∧
    reservation_qty r ≤ i64_max.
Proof.
  intros H Hwf. unfold validate_inventory_reservation in H.
  destruct (order_items _ !! _) as [l|] eqn:Hl; [|done]. destruct (orders _ !! _) as [o|]; [|done].
  destruct (negb _) eqn:E1 in H; [done|]. destruct (negb _) eqn:E2 in H; [done|]. bool_to_prop.
  apply rbind_ok in H as (x & [-> _]%bigint_ok & H). apply rbind_ok in H as (y & [-> Hmax]%bigint_ok & H).
  rewrite (reserved_of_order s r l) in * by done.
  destruct (_ <? _) eqn:E in H; [done|]. apply Z.ltb_ge in E.
  pose proof (reserved_of_nonneg s (reservation_owner r) (reservation_line r) Hwf).
  exists l. split_and!; try done. lia.
Qed.

Lemma insert_reservation_settled s r s' id :
  settled s → active_reservation r = true → 0 < reservation_qty r →
  insert_reservation s r = Ok (s', id) →
  id = next_id (reservations s) ∧ s' = set_reservations (insert_row (reservations s) r) s ∧ settled s'.
Proof.
  intros Hs Hact Hq H. pose proof (settled_wf s Hs) as Hwf. unfold insert_reservation in H.
  destruct (require_active_inventory_owner_facility _ _ _); [|done].
  apply rbind_ok in H as ([] & Hv & H). destruct (existsb _ _); [done|]. injection H as <- <-.
  split_and!; [done..|].
  apply validate_reservation_ok in Hv as (l & Hl & Ho & Hord & Hle & Hmax); [|done].
  pose proof (wf_demand s Hwf) as [Ht Hrows Hwr Hwl].
  assert (Hkeep : ∀ j x, rows (reservations s) !! j = Some x →
    rows (insert_row (reservations s) r) !! j = Some x).
  { intros j x Hj. cbn. rewrite lookup_insert_ne; [done|]. intros <-. by rewrite table_fresh in Hj. }
  apply settled_reservations; [done|by apply table_ok_insert| |].
  - intros j a Ha. destruct (allocation_rows s (wf_commitments s Hwf) j a Ha)
      as (? & ? & (x & Hx & Hrest) & ?).
    split_and!; try done. exists x. split; [by apply Hkeep|done].
  - split; [by apply table_ok_insert|..].
    + intros j x [[-> ->]|Hj]%insert_row_Some; [|by apply (Hrows j)]. split; [done|by exists l].
    + intros j x [[-> ->]|Hj]%insert_row_Some; [|by apply Hwr].
      change (allocated_of (set_reservations _ s)) with (allocated_of s).
      rewrite no_allocation_of_fresh by done. lia.
    + intros j x Hj. change (directory (set_reservations _ s)) with (directory s) in Hj.
      unfold reserved_of. cbn [reservations set_reservations]. rewrite sum_insert_row by done.
      fold (reserved_of s (line_owner x) j). rewrite Hact. cbn [andb].
      destruct (Z.eqb_spec (reservation_line r) j) as [<-|Hne].
      * rewrite Hl in Hj. injection Hj as <-. rewrite Ho, Z.eqb_refl. cbn [andb]. done.
      * rewrite andb_false_r, Z.add_0_r. by apply Hwl.
Qed.

(** Closing a reservation whose allocations are released always succeeds. *)
Lemma close_reservation_run s id r st :
  settled s → rows (reservations s) !! id = Some r → active_reservation r = true →
  st ≠ ReservationActive →
  (∀ j a, rows (allocations s) !! j = Some a → allocation_reservation a = id →
     active_allocation a = false) →
  let r' := MkReservation (reservation_owner r) (reservation_order r) (reservation_line r)
              (reservation_facility r) (reservation_item r) (reservation_uom r) (reservation_qty r) st in
  let s' := set_reservations (update_row (reservations s) id r') s in
  (∀ g, close_reservation g s id st = Ok (s', 1%nat)) ∧ settled s'.
Proof.
  intros Hs Hr Hact Hst Hnone r' s'. pose proof (settled_wf s Hs) as Hwf. split.
  - intros g. unfold close_reservation. rewrite Hr, Hact, guard_true; [done|]. unfold reservation_may_close.
    apply negb_true_iff, not_true_iff_false. intros ([j a] & Hin & E)%existsb_exists.
    apply list_elem_of_In, elem_of_map_to_list in Hin. bool_to_prop.
    by rewrite (Hnone j a Hin) in *.
  - pose proof (wf_demand s Hwf) as [Ht Hrows Hwr Hwl].
    assert (Hinact : active_reservation r' = false) by (by apply bool_decide_false).
    apply settled_reservations; [done|by eapply table_ok_update| |].
    + intros j a Ha. destruct (allocation_rows s (wf_commitments s Hwf) j a Ha)
        as (? & ? & (x & Hx & Ho & Hf & Hi & Hu & Ha') & ?).
      split_and!; try done. cbn [reservations set_reservations].
      destruct (decide (allocation_reservation a = id)) as [E|E].
      * exists r'. cbn. rewrite E, lookup_insert_eq. assert (x = r) as -> by congruence.
        split_and!; try done. by rewrite (Hnone j a Ha E).
      * exists x. cbn. by rewrite lookup_insert_ne by congruence.
    + split; [by eapply table_ok_update|..].
      * intros j x [[-> ->]|[_ Hj]]%update_row_Some; [by apply (Hrows id r)|by apply (Hrows j)].
      * intros j x [[-> ->]|[_ Hj]]%update_row_Some; [by apply (Hwr id r)|by apply (Hwr j)].
      * intros j x Hj. specialize (Hwl j x Hj). destruct (Hrows id r Hr) as [? _].
        unfold reserved_of. cbn [reservations s' set_reservations].
        rewrite (sum_update_row _ _ _ _ r Hr). fold (reserved_of s (line_owner x) j).
        rewrite Hinact. cbn [andb]. destruct (_ && _); lia.
Qed.
