(* ===== verification/StockWorks.v ===== *)
(** * Stock: the handlers on commitments, batches and the directory

    Reserving, allocating, cancelling and holding stock keep the rows settled, and the
    guards of the schema never decide what they do. *)

From S2P Require Import Prelude.
From S2P Require Import RustStr.
From S2P Require Import Orders.
From S2P Require Import Idempotency.
From S2P Require Import Outbox.
From S2P Require Import StockTypes.
From S2P Require Import StockDb.
From S2P Require Import StockJournal.
From S2P Require Import StockHandlers.
From S2P Require Import StockCommands.
From S2P Require Import StockInvariant.
From S2P Require Import StockFacts.
From S2P Require Import StockPosting.
From S2P Require Import StockMoves.
From S2P Require Import StockCommitments.

(** ** Quantities that cannot wrap *)

Lemma available_exact b : quantities_ok b → available b = qty_on_hand b - qty_reserved b - qty_held b.
Proof.
  intros (? & ? & ? & ?). unfold available, i64_sub.
  assert (i64_min ≤ 0) by done. rewrite (wrap_i64_id (qty_on_hand b - _)) by (unfold in_i64; lia).
  apply wrap_i64_id. unfold in_i64. lia.
Qed.

Lemma uncommitted_exact b : quantities_ok b → uncommitted b = Ok (qty_on_hand b - qty_reserved b - qty_held b).
Proof.
  intros (? & ? & ? & ?). assert (i64_min ≤ 0) by done. unfold uncommitted, i64_checked_sub.
  rewrite (proj2 (checked_Some _ _ _ (qty_on_hand b - qty_reserved b))) by lia.
  by rewrite (proj2 (checked_Some _ _ _ (qty_on_hand b - qty_reserved b - qty_held b))) by lia.
Qed.

(** ** Reserving and allocating *)

Lemma reserve_settled order line facility qty locked s r :
  settled s → 0 < qty → reserve_work order line facility qty locked s = Ok r → settled r.1.1.
Proof.
  intros Hs Hq H. destruct locked as [o l]. unfold reserve_work in H. destruct (_ || _); [done|].
  apply rbind_ok in H as (place & _ & H). apply rbind_ok in H as (_ & _ & H).
  apply rbind_ok in H as (reserved & _ & H). destruct (_ <? _); [done|].
  apply rbind_ok in H as ([s1 id] & H1 & H). apply rbind_ok in H as (s2 & H2 & [= <-]).
  apply insert_reservation_settled in H1 as (_ & _ & Hs1); [|done..]. by eapply settled_emit.
Qed.

Section works.
Context (g : bool).

Lemma allocate_locks_ok scope reservation balance s r b :
  allocate_locks scope reservation balance s = Ok (r, b) →
  rows (reservations s) !! reservation = Some r ∧ rows (balances s) !! balance = Some b.
Proof.
  unfold allocate_locks. intros H. apply rbind_ok in H as (r' & Hr%ok_or_ok & H).
  apply rbind_ok in H as (_ & _ & H). apply rbind_ok in H as (b' & Hb%ok_or_ok & H).
  apply rbind_ok in H as (_ & _ & H). by apply rbind_ok in H as (_ & _ & [= <- <-]).
Qed.

Lemma allocate_agrees scope reservation balance qty s locked :
  settled s → 0 < qty → allocate_locks scope reservation balance s = Ok locked →
  agrees (allocate_work g reservation balance qty locked s)
    (allocate_work false reservation balance qty locked s) (fun r => settled r.1.1).
Proof.
  destruct locked as [r b]. intros Hs Hq [Hr Hb]%allocate_locks_ok.
  pose proof (wf_quantities s (settled_wf s Hs) _ b Hb) as Hok.
  unfold allocate_work. rewrite (available_exact b Hok). branch. branch. bool_to_prop.
  pure. intros allocated _ _. branch. branch. bool_to_prop.
  eapply agrees_bind; [eapply insert_allocation_agrees; cbn [allocation_balance allocation_qty]|].
  - done.
  - split_and!; [done|by exists b| |done]. exists r. by split_and!.
  - done.
  - intros b' Hb'. assert (b' = b) as -> by congruence. lia.
  - intros [s1 id] _ (_ & Hs1 & _). pure. intros s2 He _. apply agrees_ok. by eapply settled_emit.
Qed.

Lemma cancel_allocation_agrees scope allocation s locked :
  settled s → cancel_allocation_locks scope allocation s = Ok locked →
  agrees (cancel_allocation_work g allocation locked s)
    (cancel_allocation_work false allocation locked s) (fun r => settled r.1.1).
Proof.
  destruct locked as [r a]. intros Hs H. unfold cancel_allocation_locks in H.
  apply rbind_ok in H as (a' & Ha%ok_or_ok & H). apply rbind_ok in H as (r' & _ & H).
  apply rbind_ok in H as (_ & _ & H). apply rbind_ok in H as (_ & _ & H).
  apply rbind_ok in H as (_ & _ & [= <- <-]).
  unfold cancel_allocation_work. branch.
  destruct (release_allocation_run s allocation a' Hs Ha E) as (b & _ & E1 & Hs1 & _).
  rewrite !E1. cbn [rbind]. branch.
  pure. intros s2 He _. apply agrees_ok. by eapply settled_emit.
Qed.

(** ** Releasing many allocations *)

(** [releasing P s0 l s]: on the way from [s0], the allocations [l] are still to be released;
    they are the active ones that satisfy [P]. Nothing else has changed but the
    projections and the outbox. *)
Record releasing (P : AllocationRow → bool) (s0 : Stock) (l : list (Z * AllocationRow)) (s : Stock) :
    Prop := {
  releasing_settled : settled s;
  releasing_distinct : NoDup l.*1;
  releasing_active : ∀ id a, (id, a) ∈ l →
    rows (allocations s) !! id = Some a ∧ active_allocation a = true ∧ P a = true;
  releasing_all : ∀ id a, rows (allocations s) !! id = Some a → active_allocation a = true →
    P a = true → (id, a) ∈ l;
  releasing_others : ∀ id a, rows (allocations s0) !! id = Some a → P a = false →
    rows (allocations s) !! id = Some a;
  releasing_rows : ∀ id, rows (allocations s) !! id =
    (fun a => if P a && active_allocation a && negb (bool_decide (id ∈ l.*1))
              then with_allocation_status AllocationReleased a else a) <$> rows (allocations s0) !! id;
  releasing_reservations : reservations s = reservations s0;
  releasing_journal : entries s = entries s0;
  releasing_stock : ∀ i, (fun b => (position b, qty_on_hand b)) <$> rows (balances s) !! i =
    (fun b => (position b, qty_on_hand b)) <$> rows (balances s0) !! i;
}.

Lemma releasing_step P s0 id a l s :
  releasing P s0 ((id, a) :: l) s →
  ∃ s', (∀ g, release_allocation g s id = Ok (s', 1%nat)) ∧ releasing P s0 l s'.
Proof.
  intros [Hs Hnd Hact Hall Hoth Hrows Hres Hent Hst]. destruct (Hact id a) as (Ha & Ha' & HPa); [by left|].
  destruct (release_allocation_run s id a Hs Ha Ha') as (b & Hb & E & Hs' & _).
  eexists. split; [exact E|]. apply NoDup_cons in Hnd as [Hid Hnd].
  split; try done; cbn [recommit allocations balances set_balances set_holds set_allocations].
  - intros j x Hx. destruct (Hact j x) as [Hj Hj']; [by right|]. split; [|done]. cbn.
    rewrite lookup_insert_ne; [done|]. intros <-. apply Hid, list_elem_of_fmap. by exists (id, x).
  - intros j x [[-> ->]|[Hne Hj]]%update_row_Some Hx HP; [done|].
    specialize (Hall j x Hj Hx HP). apply elem_of_cons in Hall as [[= -> ->]|Hall]; done.
  - intros j x Hx HP. cbn. rewrite lookup_insert_ne; [by apply Hoth|]. intros <-.
    specialize (Hoth id x Hx HP). congruence.
  - intros j. cbn. destruct (decide (j = id)) as [->|Hne].
    + rewrite lookup_insert_eq. specialize (Hrows id). rewrite Ha in Hrows. cbn in Hrows.
      rewrite bool_decide_true in Hrows by (by left).
      destruct (rows (allocations s0) !! id) as [a0|]; [|done]. cbn in Hrows.
      rewrite andb_false_r in Hrows. injection Hrows as <-. cbn.
      by rewrite HPa, Ha', bool_decide_false.
    + rewrite lookup_insert_ne, Hrows by done. cbn.
      by rewrite (bool_decide_ext (j ∈ id :: l.*1) (j ∈ l.*1)) by (rewrite elem_of_cons; naive_solver).
  - intros j. rewrite <-Hst. cbn. destruct (decide (j = allocation_balance a)) as [->|Hne].
    + by rewrite lookup_insert_eq, Hb.
    + by rewrite lookup_insert_ne by congruence.
Qed.

Lemma releasing_emit P s0 l s k x i o n ty body s' :
  releasing P s0 l s → emit s k x i o n ty body = Ok s' → releasing P s0 l s'.
Proof.
  intros [Hs Hnd Hact Hall Hoth Hrows Hres Hent Hst] He. pose proof (settled_emit _ _ _ _ _ _ _ _ _ He Hs).
  apply emit_inv in He as (t & -> & _). by split.
Qed.

Lemma releasing_start P (c : Z → AllocationRow → bool) l s :
  settled s → l ≡ₚ List.filter (fun '(i, a) => c i a) (map_to_list (rows (allocations s))) →
  (∀ i a, c i a = true → active_allocation a = true ∧ P a = true) →
  (∀ i a, active_allocation a = true → P a = true → c i a = true) → releasing P s l s.
Proof.
  intros Hs Hl Hc HP.
  assert (Hin : ∀ i a, (i, a) ∈ l ↔ rows (allocations s) !! i = Some a ∧ c i a = true).
  { intros i a. by rewrite Hl, elem_of_filter_bool, elem_of_map_to_list. }
  split; try done.
  - rewrite Hl. apply NoDup_filter_bool, NoDup_fst_map_to_list.
  - intros i a [Ha Hca]%Hin. split; [done|by apply (Hc i)].
  - intros i a Ha Hact HPa. apply Hin. split; [done|by apply HP].
  - intros i. destruct (rows (allocations s) !! i) as [a|] eqn:Ha; [|done]. cbn.
    destruct (P a) eqn:HPa, (active_allocation a) eqn:Hact; try done. cbn.
    rewrite bool_decide_true; [done|]. apply list_elem_of_fmap. exists (i, a). split; [done|].
    apply Hin. split; [done|by apply HP].
Qed.

(** ** Cancelling a reservation *)

Definition left_over (l : list (Z * AllocationRow)) : Z := zsum ((fun x => allocation_qty x.2) <$> l).

Lemma left_over_sum (c : AllocationRow → bool) (m : gmap Z AllocationRow) l :
  l ≡ₚ List.filter (fun '(_, a) => c a) (map_to_list m) →
  left_over l = sum_rows (fun _ a => if c a then allocation_qty a else 0) m.
Proof.
  intros Hl. unfold left_over. rewrite Hl. clear Hl l. unfold sum_rows.
  induction (map_to_list m) as [|[i a] k IH]; [done|]. cbn [List.filter]. rewrite fmap_cons, zsum_cons.
  destruct (c a); [rewrite fmap_cons, zsum_cons|]; rewrite IH; cbn [snd]; lia.
Qed.

Lemma release_one_agrees P s0 scope r id a l acc total :
  releasing P s0 ((id, a) :: l) acc.1 → acc.2 + left_over ((id, a) :: l) = total →
  agrees (release_one g scope r (id, a) acc) (release_one false scope r (id, a) acc)
    (fun acc => releasing P s0 l acc.1 ∧ acc.2 + left_over l = total).
Proof.
  destruct acc as [s q]. cbn [fst snd]. intros Hrel Htotal. unfold release_one. pure. intros _ _ _.
  destruct (releasing_step _ _ _ _ _ _ Hrel) as (s' & E & Hrel'). rewrite !E. cbn [rbind]. branch.
  pure. intros q' Hq _. pure. intros s2 He _. apply agrees_ok. cbn [fst snd].
  split; [by eapply releasing_emit|]. apply ok_or_ok in Hq. unfold i64_checked_add in Hq.
  apply checked_Some in Hq as [-> _]. unfold left_over in *. rewrite fmap_cons, zsum_cons in Htotal.
  cbn [snd] in Htotal. lia.
Qed.

(** What cancelling a reservation achieves. *)
Definition reservation_cancelled (reservation : Z) (r : ReservationRow) (s : Stock)
    (answer : Stock * StockResult * option Z) : Prop :=
  settled answer.1.1 ∧
  answer.1.2 = CancelReservationResult reservation (allocated_of s reservation) ∧
  (∃ r', rows (reservations answer.1.1) !! reservation = Some r' ∧
     reservation_status r' = ReservationCancelled ∧ reservation_key r' = reservation_key r) ∧
  allocated_of answer.1.1 reservation = 0 ∧
  (∀ j a, rows (allocations s) !! j = Some a → allocation_reservation a ≠ reservation →
     rows (allocations answer.1.1) !! j = Some a) ∧
  (∀ j, rows (allocations answer.1.1) !! j =
     (fun a => if (allocation_reservation a =? reservation) && active_allocation a
               then with_allocation_status AllocationReleased a else a) <$> rows (allocations s) !! j) ∧
  entries answer.1.1 = entries s ∧
  (∀ i, (fun b => (position b, qty_on_hand b)) <$> rows (balances answer.1.1) !! i =
    (fun b => (position b, qty_on_hand b)) <$> rows (balances s) !! i).

Lemma cancel_reservation_agrees scope reservation r s :
  settled s → rows (reservations s) !! reservation = Some r →
  agrees (cancel_reservation_work g scope reservation r s)
    (cancel_reservation_work false scope reservation r s) (reservation_cancelled reservation r s).
Proof.
  intros Hs Hr. unfold cancel_reservation_work. branch.
  set (found := sort_by _ _).
  set (P := fun a => allocation_reservation a =? reservation).
  assert (Hfound : found ≡ₚ List.filter (fun '(_, a) => P a && active_allocation a)
    (map_to_list (rows (allocations s)))) by apply sort_by_perm.
  assert (Hsum : left_over found = allocated_of s reservation).
  { rewrite (left_over_sum _ _ _ Hfound). apply sum_rows_ext. intros i a _. by rewrite andb_comm. }
  assert (Hstart : releasing P s found s).
  { apply (releasing_start P (fun _ a => P a && active_allocation a)); [done..| |].
    - by intros i a [? ?]%andb_true_iff.
    - intros i a -> ->. done. }
  eapply agrees_bind.
  { apply (agrees_fold _ _ (fun l acc => releasing P s l acc.1 ∧
      acc.2 + left_over l = allocated_of s reservation)).
    - intros [i a] l acc [Hrel Htot]. by apply release_one_agrees.
    - split; [done|]. cbn. lia. }
  intros [s1 q] _ [Hrel Htot]. cbn [fst snd] in *. unfold left_over in Htot. cbn in Htot.
  rewrite Z.add_0_r in Htot. subst q.
  assert (Hnone : ∀ j a, rows (allocations s1) !! j = Some a → allocation_reservation a = reservation →
    active_allocation a = false).
  { intros j a Ha HPa. apply not_true_iff_false. intros Hact.
    by apply (releasing_all _ _ _ _ Hrel j a) in Ha as ?%elem_of_nil; [| |apply Z.eqb_eq]. }
  destruct Hrel as [Hs1 _ _ _ Hoth Hrows Hres Hent Hst].
  destruct (close_reservation_run s1 reservation r ReservationCancelled Hs1) as [Eclose Hs2];
    [by rewrite Hres|done|done|done|].
  rewrite !Eclose. cbn [rbind]. branch. pure. intros s3 He _. apply agrees_ok.
  pose proof (settled_emit _ _ _ _ _ _ _ _ _ He Hs2) as Hs3. apply emit_inv in He as (t & -> & _).
  split_and!; try done.
  - eexists. split; [cbn; apply lookup_insert_eq|done].
  - apply sum_rows_zero. intros j a Ha. cbn [fst] in Ha. case_match eqn:Ec; [|done]. bool_to_prop.
    by rewrite (Hnone j a) in *.
  - intros j a Ha Hne. apply (Hoth j a Ha), Z.eqb_neq, Hne.
  - intros j. cbn [fst allocations set_outbox set_reservations]. rewrite (Hrows j).
    destruct (rows (allocations s) !! j) as [a|]; [|done]. cbn. by rewrite andb_true_r.
Qed.

Lemma cancel_reservation_locks_ok scope reservation s r :
  cancel_reservation_locks scope reservation s = Ok r → rows (reservations s) !! reservation = Some r.
Proof.
  unfold cancel_reservation_locks. intros H. apply rbind_ok in H as (r' & Hr%ok_or_ok & H).
  by apply rbind_ok in H as (_ & _ & [= <-]).
Qed.

(** ** Cancelling the commitments of an order *)

Lemma release_for_order_agrees P s0 reason rs id a l acc :
  releasing P s0 ((id, a) :: l) acc.1.1 →
  agrees (release_for_order g reason rs (id, a) acc) (release_for_order false reason rs (id, a) acc)
    (fun acc => releasing P s0 l acc.1.1).
Proof.
  destruct acc as [[s q] m]. cbn [fst]. intros Hrel. unfold release_for_order. pure.
  intros [k r] _ _. destruct (releasing_step _ _ _ _ _ _ Hrel) as (s' & E & Hrel').
  rewrite !E. cbn [rbind]. branch. pure. intros q' _ _. pure. intros q'' _ _.
  pure. intros s2 He _. apply agrees_ok. by eapply releasing_emit.
Qed.

(** [closing ids l s]: the reservations [l] among [ids] are still to be closed, and the
    allocations of [ids] are released. *)
Record closing (ids : list Z) (l : list (Z * ReservationRow)) (s : Stock) : Prop := {
  closing_settled : settled s;
  closing_distinct : NoDup l.*1;
  closing_active : ∀ id r, (id, r) ∈ l →
    rows (reservations s) !! id = Some r ∧ active_reservation r = true ∧ id ∈ ids;
  closing_released : ∀ j a, rows (allocations s) !! j = Some a → allocation_reservation a ∈ ids →
    active_allocation a = false;
}.

Lemma close_for_order_agrees ids reason m id r l s :
  closing ids ((id, r) :: l) s →
  agrees (close_for_order g reason m (id, r) s) (close_for_order false reason m (id, r) s) (closing ids l).
Proof.
  intros [Hs Hnd Hact Hrel]. apply NoDup_cons in Hnd as [Hid Hnd].
  destruct (Hact id r) as (Hr & Hr' & Hin); [by left|]. unfold close_for_order.
  destruct (close_reservation_run s id r ReservationCancelled Hs Hr Hr') as [E Hs']; [done|..].
  { intros j a Ha ->%symmetry. by apply (Hrel j). }
  rewrite !E. cbn [rbind]. branch. split; [done|]. intros s' He.
  pose proof (settled_emit _ _ _ _ _ _ _ _ _ He Hs') as Hs2. apply emit_inv in He as (t & -> & _).
  split; try done. intros j x Hx. destruct (Hact j x) as (Hj & Hj' & Hin'); [by right|].
  split_and!; [|done..]. cbn. rewrite lookup_insert_ne; [done|]. intros <-.
  apply Hid, list_elem_of_fmap. by exists (id, x).
Qed.

Lemma cancel_order_agrees scope order reason s :
  settled s →
  agrees (cancel_order_commitments_tx g scope order reason s)
    (cancel_order_commitments_tx false scope order reason s) (fun r => settled r.1).
Proof.
  intros Hs. unfold cancel_order_commitments_tx. pure. intros _ _ _.
  set (rs := ordered_rows _ (reservations s)). set (als := ordered_rows _ (allocations s)).
  set (P := fun a => bool_decide (allocation_reservation a ∈ rs.*1)).
  eapply agrees_bind.
  { apply (agrees_fold _ _ (fun l acc => releasing P s l acc.1.1)).
    - intros [i a] l acc Hrel. by apply release_for_order_agrees.
    - cbn [fst]. apply (releasing_start P (fun _ a => P a && active_allocation a)); [done| | |].
      + apply sort_by_perm.
      + by intros i a [? ?]%andb_true_iff.
      + intros i a -> ->. done. }
  intros [[s1 total] m] _ Hrel. cbn [fst] in Hrel.
  eapply agrees_bind.
  { apply (agrees_fold _ _ (closing rs.*1)).
    - intros [i r] l s2 Hcl. by apply close_for_order_agrees.
    - split.
      + apply Hrel.
      + unfold rs, ordered_rows. rewrite sort_by_perm. apply NoDup_filter_bool, NoDup_fst_map_to_list.
      + intros i r Hin. rewrite (releasing_reservations _ _ _ _ Hrel). split_and!.
        * by apply elem_of_ordered in Hin as [? _].
        * apply elem_of_ordered in Hin as [_ Hc]. by bool_to_prop.
        * apply list_elem_of_fmap. by exists (i, r).
      + intros j a Ha Hin. apply not_true_iff_false. intros Hact.
        apply (releasing_all _ _ _ _ Hrel j a) in Ha as ?%elem_of_nil; [done|done|by apply bool_decide_true]. }
  intros s2 _ Hcl. apply agrees_ok, Hcl.
Qed.

(** ** Holds *)

Lemma place_on_balance_agrees balance c s :
  settled s → rows (balances s) !! ph_balance c = Some balance → 0 < ph_qty c →
  agrees (place_on_balance g balance c s) (place_on_balance false balance c s) (fun r => settled r.1).
Proof.
  intros Hs Hb Hq. unfold place_on_balance. branch.
  rewrite (uncommitted_exact balance) by (by eapply wf_quantities; [apply Hs|]). cbn [rbind].
  branch. apply Z.ltb_ge in E0. unfold insert_hold_tx.
  eapply agrees_bind; [by eapply insert_hold_agrees|]. intros [s1 id] _ (_ & Hs1 & _).
  pure. intros s2 He _. apply agrees_ok. by eapply settled_emit.
Qed.

Lemma validate_place_ok c c' : validate_place_command c = Ok c' → 0 < ph_qty c'.
Proof.
  unfold validate_place_command. intros H. destruct (0 <? ph_balance c); [|done].
  destruct (0 <? ph_qty c) eqn:Hq; [|done]. apply rbind_ok in H as (note & _ & H).
  apply rbind_ok in H as (rt & _ & H). destruct (reference_ok _ _); [|done].
  destruct (_ && _) in H; [done|]. injection H as <-. by apply Z.ltb_lt.
Qed.

Lemma place_hold_agrees scope c s balance :
  settled s → 0 < ph_qty c → place_hold_locks scope (ph_balance c) s = Ok balance →
  agrees (place_hold_work g c balance s) (place_hold_work false c balance s) (fun r => settled r.1.1).
Proof.
  intros Hs Hq H. unfold place_hold_locks in H. apply rbind_ok in H as (b & Hb%ok_or_ok & H).
  apply rbind_ok in H as (_ & _ & H). apply rbind_ok in H as (_ & _ & [= <-]).
  unfold place_hold_work. eapply agrees_bind; [by apply place_on_balance_agrees|].
  intros [s1 id] _ Hs1. by apply agrees_ok.
Qed.

Lemma composed_hold_agrees c s :
  settled s →
  agrees (place_composed_inventory_hold_tx g c s) (place_composed_inventory_hold_tx false c s)
    (fun r => settled r.1).
Proof.
  intros Hs. unfold place_composed_inventory_hold_tx. pure. intros c' Hc%validate_place_ok _.
  pure. intros b Hb%ok_or_ok _. by apply place_on_balance_agrees.
Qed.

Lemma lift_hold_agrees hold h s :
  settled s → rows (holds s) !! hold = Some h → active_hold h = true →
  agrees (lift_hold g hold h s) (lift_hold false hold h s) settled.
Proof.
  intros Hs Hh Hact. unfold lift_hold. destruct (release_hold_run s hold h Hs Hh Hact) as (b & _ & E & Hs').
  rewrite !E. cbn [rbind]. branch. split; [done|]. intros s' He. by eapply settled_emit.
Qed.

Lemma release_hold_agrees scope hold s locked :
  settled s → release_hold_locks scope hold s = Ok locked →
  agrees (release_hold_work g hold locked s) (release_hold_work false hold locked s)
    (fun r => settled r.1.1).
Proof.
  destruct locked as [h b]. intros Hs H. unfold release_hold_locks in H.
  apply rbind_ok in H as (h' & Hh%ok_or_ok & H). apply rbind_ok in H as (_ & _ & H).
  apply rbind_ok in H as (b' & _ & H). apply rbind_ok in H as (_ & _ & [= <- <-]).
  unfold release_hold_work. branch. branch. branch.
  eapply agrees_bind; [by apply lift_hold_agrees|]. intros s1 _ Hs1. by apply agrees_ok.
Qed.

Lemma composed_release_agrees hold rt ri s :
  settled s →
  agrees (release_composed_inventory_hold_tx g hold rt ri s)
    (release_composed_inventory_hold_tx false hold rt ri s) (fun r => settled r.1).
Proof.
  intros Hs. unfold release_composed_inventory_hold_tx. pure. intros h Hh%ok_or_ok _. branch. branch.
  eapply agrees_bind; [by apply lift_hold_agrees|]. intros s1 _ Hs1. by apply agrees_ok.
Qed.
End works.

(** ** Batches and the directory *)

Lemma settled_batches s t items :
  settled s → table_ok t →
  (∀ i b, rows (batches s) !! i = Some b → ∃ b', rows t !! i = Some b' ∧
     batch_owner b' = batch_owner b ∧ batch_item b' = batch_item b ∧ batch_uom b' = batch_uom b) →
  (∀ i b, rows t !! i = Some b → only_spaces (batch_uom b) = false) →
  settled (set_batches t (set_owner_items items s)).
Proof.
  intros [[[Ht Hk Hqs Hd Hbt Hf _ _] H2 H3 H4] Hr Hb Hn] Ht' Hkeep Hu.
  split; [|done..]. split; [|carry H2|carry H3|carry H4]. split; try done.
  intros i b Hi. specialize (Hbt i b Hi). apply row_matches_batch in Hbt as (x & Hx & Ho & Hit & Huo).
  apply row_matches_batch. destruct (Hkeep _ x Hx) as (x' & Hx' & Ho' & Hit' & Hu').
  exists x'. split_and!; [done|congruence..].
Qed.

Lemma add_batch_settled owner item load trace s r :
  settled s → add_item_batch owner item load trace s = Ok r → settled r.1.
Proof.
  intros Hs H. pose proof (wf_shelf s (settled_wf s Hs)) as Hsh. unfold add_item_batch in H.
  destruct (items _ !! item) as [u|]; [|done]. destruct (bool_decide _); [|done].
  destruct (match load with Some _ => _ | None => _ end); [|done].
  destruct (only_spaces u) eqn:Hu; [done|]. injection H as <-. cbn [fst batches set_owner_items].
  apply settled_batches; [done|apply table_ok_insert, Hsh|..].
  - intros i b Hb. exists b. cbn. rewrite lookup_insert_ne; [done|]. intros <-.
    rewrite table_fresh in Hb; [done|apply Hsh].
  - intros i b [[_ ->]|Hi]%insert_row_Some; [done|]. by apply (batch_uoms s Hsh i).
Qed.

Lemma delete_batch_settled id deleted s r :
  settled s → set_item_batch_deleted id deleted s = Ok r → settled r.1.
Proof.
  intros Hs H. pose proof (wf_shelf s (settled_wf s Hs)) as Hsh. unfold set_item_batch_deleted in H.
  destruct (rows (batches s) !! id) as [b|] eqn:Hb; [|by injection H as <-].
  destruct (_ && _); [done|]. injection H as <-. cbn [fst]. set (b' := MkBatch _ _ _ _ _ _).
  change (settled (set_batches (update_row (batches s) id b') (set_owner_items (owner_items s) s))).
  apply settled_batches; [done|by eapply table_ok_update; [apply Hsh|]|..].
  - intros i x Hx. cbn. destruct (decide (i = id)) as [->|Hne].
    + exists b'. rewrite lookup_insert_eq. assert (x = b) as -> by congruence. done.
    + exists x. by rewrite lookup_insert_ne by congruence.
  - intros i x [[-> ->]|[_ Hi]]%update_row_Some; [by apply (batch_uoms s Hsh id b)|by apply (batch_uoms s Hsh i)].
Qed.

Lemma directory_settled s d : settled s → directory_evolves s d → settled (set_directory d s).
Proof.
  intros Hs (Hloc & Hline & Hpos).
  destruct Hs as [[[Ht Hk Hqs Hd Hbt Hf Hbtab Hbu] H2 [Hrt Hrr Hwr Hwl] H4] Hr Hb Hn].
  split; [|done..]. split; [|carry H2| |carry H4]; split; try done.
  - intros i b Hi. destruct (Hf i b Hi) as (l & Hl & <-). by apply Hloc.
  - intros i r Hi. destruct (Hrr i r Hi) as (? & l & Hl & Ho & Hord). split; [done|].
    destruct (Hline _ l Hl) as (l' & Hl' & Ho' & Hord' & _). exists l'. split_and!; [done|congruence..].
  - intros i l' Hl'. change (reserved_of (set_directory d s)) with (reserved_of s).
    destruct (order_items (directory s) !! i) as [l|] eqn:Hl.
    + destruct (Hline i l Hl) as (l2 & Hl2 & Ho & _ & Hq). cbn in Hl'.
      assert (l2 = l') as -> by congruence. rewrite Ho, Hq. by apply Hwl.
    + unfold reserved_of. rewrite sum_rows_zero; [apply Z.lt_le_incl, (Hpos i l' Hl')|].
      intros j r Hj. destruct (Hrr j r Hj) as (_ & x & Hx & _). case_match eqn:E; [|done].
      bool_to_prop. congruence.
Qed.
