(* ===== verification/StockTotals.v ===== *)
(** * Stock: totals

    Where the stock of a batch comes from: the journal and the balances agree at every
    position, so they agree in total, and the transactions that are neither receipts nor
    adjustments cancel. *)

From S2P Require Import Prelude.
From S2P Require Import RustStr.
From S2P Require Import StockTypes.
From S2P Require Import StockDb.
From S2P Require Import StockJournal.
From S2P Require Import StockInvariant.

(** ** The stock of a batch, and what was received of it *)

Definition stock_of_batch (s : Stock) (batch : Z) : Z :=
  sum_rows (fun _ b => if item_batch_id (position b) =? batch then effective b else 0)
    (rows (balances s)).

Definition has_type (f : InventoryTransactionType → bool) (s : Stock) (txn : Z) : bool :=
  match rows (transactions s) !! txn with
  | Some t => f (txn_type t)
  | None => false
  end.

Definition batch_delta (batch : Z) (e : EntryRow) : Z :=
  if item_batch_id (entry_position e) =? batch then quantity_delta e else 0.

Definition journalled (f : InventoryTransactionType → bool) (s : Stock) (batch : Z) : Z :=
  zsum (batch_delta batch <$> List.filter (fun e => has_type f s (entry_transaction e)) (entries s)).
Definition received : Stock → Z → Z := journalled (fun ty => bool_decide (ty = Receive)).
Definition adjusted : Stock → Z → Z := journalled (fun ty => bool_decide (ty = Adjust)).

Lemma sum_rows_values {A} (f : A → Z) (m : gmap Z A) :
  sum_rows (fun _ x => f x) m = zsum ((fun x => f x.2) <$> map_to_list m).
Proof. unfold sum_rows. f_equal. apply list_fmap_ext. by intros _ [i x] _. Qed.

(** At every position, so in total. *)
Lemma stock_in_journal s batch :
  (∀ p, variance s p = 0) → stock_of_batch s batch = zsum (batch_delta batch <$> entries s).
Proof.
  intros Hv. set (l1 := map_to_list (rows (balances s))).
  assert (Hzero : ∀ p, sum_by p (((fun x => (position x.2, effective x.2)) <$> l1)
    ++ ((fun e => (entry_position e, - quantity_delta e)) <$> entries s)) = 0).
  { intros p. rewrite sum_by_app, sum_by_opp, <-(Hv p), sum_by_map.
    unfold variance, journal_qty, projected_qty.
    rewrite (sum_rows_values (fun b => if bool_decide (position b = p) then effective b else 0)).
    fold l1. lia. }
  pose proof (sum_by_coarser item_batch_id _ Hzero batch) as H.
  rewrite fmap_app, <-!list_fmap_compose, sum_by_app in H. unfold compose in H. cbn [fst snd] in H.
  rewrite sum_by_opp, !sum_by_map in H.
  assert (Hd : ∀ A (x q : A → Z) l, zsum ((fun a => if bool_decide (x a = batch) then q a else 0) <$> l)
    = zsum ((fun a => if x a =? batch then q a else 0) <$> l)).
  { intros A x q l. f_equal. apply list_fmap_ext. intros _ a _. case_bool_decide; case_match; lia. }
  rewrite !Hd in H. unfold stock_of_batch, batch_delta.
  rewrite (sum_rows_values (fun b => if item_batch_id (position b) =? batch then effective b else 0)).
  fold l1. lia.
Qed.

(** The entries of the other transactions cancel, transaction by transaction. *)
Lemma other_entries_cancel s batch :
  journal_ok s → closed_balanced s → journal_context s = None →
  journalled (fun ty => negb (changes_stock ty)) s batch = 0.
Proof.
  intros Hj Hbal Hnone. unfold journalled. set (l := List.filter _ (entries s)).
  assert (Hzero : ∀ txn, sum_by txn ((fun e => (entry_transaction e, batch_delta batch e)) <$> l) = 0).
  { intros txn. rewrite sum_by_map.
    destruct (rows (transactions s) !! txn) as [t|] eqn:Ht.
    - destruct (changes_stock (txn_type t)) eqn:Hty.
      + apply zsum_zero. intros e He. apply elem_of_filter_bool in He as [_ He].
        case_bool_decide as E; [|done]. rewrite E in He. unfold has_type in He.
        by rewrite Ht, Hty in He.
      + destruct (Hbal txn t Ht) as [_ Hsum]; [by rewrite Hnone|]. specialize (Hsum Hty batch).
        rewrite sum_by_map in Hsum. etrans; [|exact Hsum]. unfold entries_of, l.
        rewrite !zsum_where. apply zsum_ext. intros e He.
        apply (entries_in_journal s Hj), in_journal_iff in He as (t' & Ht' & Ho).
        unfold has_type, batch_delta. rewrite Ht'.
        destruct (Z.eqb_spec (entry_transaction e) txn) as [E|E].
        * rewrite E in *. assert (t' = t) as -> by congruence.
          rewrite (bool_decide_true (txn = txn)), Hty by done.
          rewrite Ho, Z.eqb_refl. cbn [negb andb]. case_bool_decide; case_match; lia.
        * rewrite (bool_decide_false (entry_transaction e = txn)) by done. cbn [andb]. by destruct (negb _).
    - apply zsum_zero. intros e He. apply elem_of_filter_bool in He as [He _].
      case_bool_decide as E; [|done]. apply (entries_in_journal s Hj), in_journal_iff in He as (t & Ht' & _).
      congruence. }
  pose proof (sum_by_coarser (fun _ => tt) _ Hzero tt) as H.
  rewrite <-list_fmap_compose in H. unfold compose in H. cbn [fst snd] in H.
  by rewrite sum_by_map in H.
Qed.

(** Every entry is of a receipt, of an adjustment or of another transaction. *)
Lemma journalled_split s batch :
  journal_ok s →
  zsum (batch_delta batch <$> entries s) =
  received s batch + adjusted s batch + journalled (fun ty => negb (changes_stock ty)) s batch.
Proof.
  intros Hj. unfold received, adjusted, journalled. rewrite !zsum_where.
  assert (Hin : ∀ e, e ∈ entries s → ∃ t, rows (transactions s) !! entry_transaction e = Some t).
  { intros e (t & Ht & _)%(entries_in_journal s Hj)%in_journal_iff. by exists t. }
  induction (entries s) as [|e l IH]; [done|]. cbn [fmap list_fmap]. rewrite !zsum_cons, IH.
  - destruct (Hin e) as [t Ht]; [left|].
    assert (Hh : ∀ f, has_type f s (entry_transaction e) = f (txn_type t)).
    { intros f. unfold has_type. by rewrite Ht. }
    rewrite !Hh. clear Hh Ht. destruct (txn_type t); cbn [changes_stock negb];
      repeat case_bool_decide; done || lia.
  - intros e' He'. apply Hin. by right.
Qed.

Lemma stock_received s batch : settled s → stock_of_batch s batch = received s batch + adjusted s batch.
Proof.
  intros [Hwf Hr Hb Hn]. rewrite stock_in_journal, journalled_split by (done || apply Hwf).
  rewrite other_entries_cancel; [lia|apply Hwf|done|done].
Qed.
