(* ===== verification/StockGuarantees.v ===== *)
(** * Stock: what the inventory guarantees

    Every command runs the same with and without the redundant guards of the schema, and
    every step keeps the rows settled. From that: the books always agree with the shelves, and
    commitments never exceed stock or demand. *)

From S2P Require Import Prelude.
From S2P Require Import RustStr.
From S2P Require Import Orders.
From S2P Require Import Idempotency.
From S2P Require Import Outbox.
From S2P Require Import StockTypes.
From S2P Require Import StockDb.
From S2P Require Import StockJournal.
From S2P Require Import StockHandlers.
From S2P Require Import StockCommands.
From S2P Require Import StockInvariant.
From S2P Require Import StockFacts.
From S2P Require Import StockPosting.
From S2P Require Import StockMoves.
From S2P Require Import StockCommitments.
From S2P Require Import StockWorks.
From S2P Require Import StockTotals.

Section protocol.
Context (g : bool) (digest : list Z → rstr).
Context {Json : Type} (to_json : StockResult → option Json) (from_json : Json → option StockResult).
Context (encode : StockRequest → option (list Z)).

(** ** Commands under the replay protocol *)

Lemma run_command_agrees prepared work work' (db : StockDatabase (Json := Json)) :
  settled db.2 → agrees (work db.2) (work' db.2) (fun r => settled r.1.1) →
  agrees (run_command to_json from_json prepared work db)
    (run_command to_json from_json prepared work' db) (fun r => settled r.1.2).
Proof.
  intros Hs Hw. unfold run_command. pure. intros [answer|] _ _; [by apply agrees_ok|].
  eapply agrees_bind; [exact Hw|]. intros [[s r] t] _ Hs'. pure. intros [records r'] _ _.
  by apply agrees_ok.
Qed.

Lemma journal_command_agrees prepared scope work work' (db : StockDatabase (Json := Json)) :
  settled db.2 → agrees (work db.2) (work' db.2) (fun r => settled r.1.1) →
  agrees (journal_command to_json from_json prepared scope work db)
    (journal_command to_json from_json prepared scope work' db) (fun r => settled r.1.2).
Proof.
  intros Hs Hw. unfold journal_command. pure. intros [answer|] _ _; [by apply agrees_ok|].
  by apply run_command_agrees.
Qed.

Lemma locked_command_agrees {A} prepared (locks : Stock → result A ApplicationError) work work'
    (db : StockDatabase (Json := Json)) :
  settled db.2 →
  (∀ a, locks db.2 = Ok a → agrees (work a db.2) (work' a db.2) (fun r => settled r.1.1)) →
  agrees (locked_command to_json from_json prepared locks work db)
    (locked_command to_json from_json prepared locks work' db) (fun r => settled r.1.2).
Proof.
  intros Hs Hw. unfold locked_command. pure. intros a Ha _. by apply run_command_agrees, Hw.
Qed.

Lemma run_stock_agrees call (db : StockDatabase (Json := Json)) :
  settled db.2 →
  agrees (run_stock g digest to_json from_json encode call db)
    (run_stock false digest to_json from_json encode call db) (fun r => settled r.1.2).
Proof.
  intros Hs. destruct call; cbn [run_stock].
  - unfold receive_inventory. branch. apply Z.ltb_lt in E. pure. intros a _ _. pure. intros p _ _.
    by apply journal_command_agrees; [|apply receive_agrees].
  - unfold move_inventory. branch. apply Z.ltb_lt in E. branch. pure. intros a _ _. pure. intros p _ _.
    by apply journal_command_agrees; [|apply move_agrees].
  - unfold split_move_inventory. branch. apply bool_decide_eq_false in E. pure. intros total Ht _.
    pure. intros a _ _. pure. intros p _ _. by apply journal_command_agrees; [|apply split_agrees].
  - unfold change_inventory_status. pure. intros _ _ _. pure. intros c Hc _. pure. intros p _ _.
    apply locked_command_agrees; [done|]. intros a Ha. by eapply change_status_agrees.
  - unfold create_inventory_reservation. branch. apply Z.ltb_lt in E. pure. intros p _ _.
    apply locked_command_agrees; [done|]. intros a Ha. split; [done|]. intros r. by apply reserve_settled.
  - unfold allocate_inventory. branch. apply Z.ltb_lt in E. pure. intros p _ _.
    apply locked_command_agrees; [done|]. intros a Ha. by eapply allocate_agrees.
  - unfold cancel_inventory_allocation. pure. intros p _ _.
    apply locked_command_agrees; [done|]. intros a Ha. by eapply cancel_allocation_agrees.
  - unfold cancel_inventory_reservation. pure. intros p _ _.
    apply locked_command_agrees; [done|]. intros a Ha%cancel_reservation_locks_ok.
    eapply agrees_weaken; [by apply cancel_reservation_agrees|]. by intros r [? _].
  - unfold place_inventory_hold. pure. intros _ _ _. pure. intros c Hc%validate_place_ok _. pure.
    intros p _ _. apply locked_command_agrees; [done|]. intros a Ha. by eapply place_hold_agrees.
  - unfold release_inventory_hold. pure. intros _ _ _. branch. pure. intros p _ _.
    apply locked_command_agrees; [done|]. intros a Ha. by eapply release_hold_agrees.
Qed.

(** What [agrees] says of the guarded run. *)
Lemma agrees_run {A E} (x y : result A E) Q a : agrees x y Q → x = Ok a → Q a.
Proof. intros [-> H]. apply H. Qed.

(** ** Every step keeps the rows settled *)

Lemma step_settled db db' :
  stock_step g digest to_json from_json encode db db' → settled db.2 → settled db'.2.
Proof.
  intros Hstep Hs. destruct Hstep; cbn [snd]; try done.
  - by apply (agrees_run _ _ _ _ (run_stock_agrees call db Hs)) in H.
  - by apply (agrees_run _ _ _ _ (cancel_order_agrees g scope order reason db.2 Hs)) in H.
  - by apply (agrees_run _ _ _ _ (composed_hold_agrees g command db.2 Hs)) in H.
  - by apply (agrees_run _ _ _ _ (composed_release_agrees g hold reference_type reference_id db.2 Hs)) in H.
  - by apply add_batch_settled in H.
  - by apply delete_batch_settled in H.
  - by apply directory_settled.
Qed.

Lemma steps_settled db db' :
  rtc (stock_step g digest to_json from_json encode) db db' → settled db.2 → settled db'.2.
Proof. induction 1; [done|]. intros Hs. by eauto using step_settled. Qed.
End protocol.

(** The tables of a tenant before its first batch. *)
Definition new_stock (d : Directory) : Stock :=
  MkStock d ∅ empty_table empty_table empty_table [] [] empty_table empty_table empty_table
    empty_table empty_outbox None.

Lemma no_row {A} i (x : A) : rows empty_table !! i = Some x → False.
Proof. cbn. by rewrite lookup_empty. Qed.

Lemma empty_table_ok {A} : table_ok (empty_table (A := A)).
Proof. split; [done|]. by intros id x ?%no_row. Qed.

Lemma new_stock_settled d :
  (∀ id l, order_items d !! id = Some l → 0 < line_qty l) → settled (new_stock d).
Proof.
  intros Hpos. split; [|done| |done]; [|by intros ? ? ?%no_row].
  split; split; try apply empty_table_ok; try apply empty_outbox_ok; try (by intros ? ? ?%no_row);
    try (by intros ? ? ? ? ?%no_row); try (by intros ? ?%elem_of_nil).
  intros i l Hl. apply Z.lt_le_incl, (Hpos i l Hl).
Qed.

(** ** A tenant at work *)

Definition demo_directory : Directory :=
  MkDirectory {[1]} {[1]} {[(1, 1)]}
    {[1 := MkLocation 1 false true; 2 := MkLocation 1 false true]} ∅ {[7 := lit "ea"]} ∅
    {[5 := MkOrder 1 Open false]} {[9 := MkOrderLine 1 5 7 (lit "ea") 10 false]}.

Definition demo_encode (_ : StockRequest) : option (list Z) := Some [1; 2].

Definition demo_step : relation (StockDatabase (Json := StockResult)) :=
  stock_step true sample_digest Some Some demo_encode.

Definition demo_run : StockCall → StockDatabase (Json := StockResult) → _ :=
  run_stock true sample_digest Some Some demo_encode.

Definition no_memo : Memo := MkMemo None None None.

Definition demo_context (key : string) : CommandContext := MkContext 1 3 (lit "req") (Some (lit key)).

Definition demo_calls : list StockCall := [
  CallReceive 1 3 unrestricted (lit "k1") 1 1 10 None no_memo;
  CallMove 1 3 unrestricted (lit "k2") 1 1 2 4 None no_memo;
  CallReserve 1 3 unrestricted (lit "k3") 5 9 1 6;
  CallAllocate 1 3 unrestricted (lit "k4") 1 1 5;
  CallPlaceHold 1 3 unrestricted (demo_context "k5")
    (MkPlaceHold 2 1 HoldCustomerRequest None None None);
  CallChangeStatus 1 3 unrestricted (demo_context "k6")
    (MkChangeStatus 2 2 Damaged DamageConfirmed None None None)].

Fixpoint run_calls (calls : list StockCall) (db : StockDatabase (Json := StockResult)) :
    result (StockDatabase (Json := StockResult)) ApplicationError :=
  match calls with
  | [] => Ok db
  | call :: calls => let? (db, _) := demo_run call db in run_calls calls db
  end.

Definition demo_start : StockDatabase (Json := StockResult) := (∅, new_stock demo_directory).

Definition demo : StockDatabase (Json := StockResult) :=
  match (let? (s, _) := add_item_batch 1 7 None (None, None, None) (new_stock demo_directory) in
         run_calls demo_calls (∅, s)) with
  | Ok db => db
  | Err _ => demo_start
  end.

Lemma run_calls_steps calls db db' : run_calls calls db = Ok db' → rtc demo_step db db'.
Proof.
  revert db. induction calls as [|c calls IH]; intros db H; cbn in H; [by injection H as ->|].
  apply rbind_ok in H as ([db1 r] & H1 & H2). eapply rtc_l; [by eapply step_command|by apply IH].
Qed.

Lemma demo_reachable : rtc demo_step demo_start demo.
Proof.
  unfold demo. destruct (let? (s, _) := _ in _) as [db|] eqn:H; [|apply rtc_refl].
  apply rbind_ok in H as ([s b] & H1 & H2). eapply rtc_l; [|by apply (run_calls_steps demo_calls)].
  by apply (step_add_batch _ _ _ _ _ demo_start 1 7 None (None, None, None) s b).
Qed.

Lemma demo_lines id l : order_items demo_directory !! id = Some l → 0 < line_qty l.
Proof.
  intros H. cbn [demo_directory order_items] in H. by apply lookup_singleton_Some in H as [_ <-].
Qed.

(** The scenario runs to its end. *)
Lemma demo_rows :
  length (entries demo.2) = 5%nat ∧ size (rows (balances demo.2)) = 3%nat ∧
  size (rows (allocations demo.2)) = 1%nat ∧ size (rows (holds demo.2)) = 1%nat.
Proof. by vm_compute. Qed.

(** ** A demand beyond 64 bits *)

Lemma bigint_fits z : i64_min ≤ z ≤ i64_max → bigint z = Ok z.
Proof. intros H. unfold bigint. by rewrite (proj2 (checked_Some _ _ _ z)) by done. Qed.

Lemma bigint_overflows z : i64_max < z → bigint z = raise "22003".
Proof.
  intros H. unfold bigint. destruct (checked _ _ _) as [y|] eqn:E; [|done].
  apply checked_Some in E as [_ ?]. lia.
Qed.

Lemma reservation_overflows s r o l :
  stock_wf s → orders (directory s) !! reservation_order r = Some o →
  order_items (directory s) !! reservation_line r = Some l → line_owner l = order_owner o →
  reservation_owner r = order_owner o → line_order l = reservation_order r →
  reservation_item r = line_item l → reservation_uom r = line_uom l →
  order_deleted o || line_deleted l || inactive_order (order_status o) = false →
  require_active_inventory_owner_facility s (order_owner o) (reservation_facility r) = true →
  reserved_of s (order_owner o) (reservation_line r) ≤ i64_max →
  i64_max < reserved_of s (order_owner o) (reservation_line r) + reservation_qty r →
  validate_inventory_reservation s r = raise "22003".
Proof.
  intros Hwf Ho Hl Hown Hr Hord Hi Hu Hact Hassigned Hfit Hover.
  apply orb_false_iff in Hact as [[Hod Hld]%orb_false_iff Hin].
  unfold require_active_inventory_owner_facility in Hassigned.
  apply andb_true_iff in Hassigned as [[Has _]%andb_true_iff _].
  unfold validate_inventory_reservation. rewrite Hl, Ho, Hown, Hr, Hord, Hi, Hu, Hod, Hld, Hin, Has.
  rewrite !Z.eqb_refl, bool_decide_true by done. cbn [negb andb].
  pose proof (reserved_of_order s r l Hwf Hl) as Hsum. rewrite Hr in Hsum.
  rewrite Hsum by done. pose proof (reserved_of_nonneg s (order_owner o) (reservation_line r) Hwf).
  assert (i64_min < 0) by done. rewrite (bigint_fits (reserved_of _ _ _)) by lia. cbn [rbind].
  by rewrite bigint_overflows.
Qed.

Section properties.
Context (Json : Type) (guards : bool) (digest : list Z → rstr).
Context (to_json : StockResult → option Json) (from_json : Json → option StockResult).
Context (encode : StockRequest → option (list Z)) (d : Directory).
Context (records : Records (Json := Json)) (db : StockDatabase (Json := Json)).
Context (Hlines : ∀ id l, order_items d !! id = Some l → 0 < line_qty l).
Context (Hsteps : rtc (stock_step guards digest to_json from_json encode) (records, new_stock d) db).

Lemma reachable_settled : settled db.2.
Proof. eapply steps_settled; [exact Hsteps|]. by apply new_stock_settled. Qed.

(** C5. After any sequence of receipts, moves, splits, status changes, reservations,
    allocations, cancellations, holds and batch changes, the balances agree with the journal
    at every position (the view [inventory_reconciliation] is empty), and every journal
    transaction satisfies the deferred conservation constraint. *)
Theorem stock_books_reconcile :
  inventory_reconciliation db.2 = [] ∧
  (∀ id t, rows (transactions db.2) !! id = Some t →
     enforce_inventory_transaction_conservation db.2 id t = true).
Proof.
  destruct reachable_settled as [Hwf Hr Hb Hn]. split.
  - apply elem_of_nil_inv. intros p [_ E]%elem_of_filter_bool. by rewrite Hr in E.
  - intros id t Ht. apply (Hb id t Ht). by rewrite Hn.
Qed.

(** C6. After any sequence of steps the reserved and held columns of a balance are the
    sums of its active allocations and holds, together they never exceed the stock on hand,
    which fits in 64 bits, so that the unchecked subtraction of the handlers is exact; active
    allocations never exceed their reservation, nor active reservations their order line. *)
Theorem stock_commitments_covered :
  (∀ i b, rows (balances db.2) !! i = Some b →
     qty_reserved b = allocated_on db.2 i ∧ qty_held b = held_on db.2 i ∧
     0 ≤ qty_reserved b ∧ 0 ≤ qty_held b ∧
     qty_reserved b + qty_held b ≤ qty_on_hand b ≤ i64_max ∧
     available b = qty_on_hand b - qty_reserved b - qty_held b) ∧
  (∀ i r, rows (reservations db.2) !! i = Some r → allocated_of db.2 i ≤ reservation_qty r) ∧
  (∀ i l, order_items (directory db.2) !! i = Some l →
     reserved_of db.2 (line_owner l) i ≤ line_qty l).
Proof.
  destruct reachable_settled as [Hwf _ _ _]. split_and!.
  - intros i b Hb. pose proof (wf_quantities _ Hwf i b Hb) as Hq.
    pose proof (reserved_projection _ (wf_commitments _ Hwf) i b Hb).
    pose proof (held_projection _ (wf_commitments _ Hwf) i b Hb).
    rewrite (available_exact b Hq). by destruct Hq as (? & ? & ? & ?).
  - apply (within_reservation _ (wf_demand _ Hwf)).
  - apply (within_line _ (wf_demand _ Hwf)).
Qed.

(** C13. After any sequence of steps the rows refer to one another as the schema means them to:
    a balance is at a location of its facility and has the owner, item and unit of its batch,
    no two balances share owner, location, license plate, batch, unit and status, an allocation
    lies on an available balance of its reservation's owner, facility, item and unit and is
    active only while the reservation is, and a hold names the balance it was placed on. *)
Theorem stock_rows_refer :
  (∀ i b, rows (balances db.2) !! i = Some b →
     inventory_row_matches_batch db.2 (position b) = true ∧
     location_facility <$> locations (directory db.2) !! location_id (position b)
       = Some (facility_id (position b))) ∧
  (∀ i j b c, rows (balances db.2) !! i = Some b → rows (balances db.2) !! j = Some c →
     index_key (position b) = index_key (position c) → i = j) ∧
  (∀ i a, rows (allocations db.2) !! i = Some a → allocation_ok db.2 a) ∧
  (∀ i h, rows (holds db.2) !! i = Some h → hold_ok db.2 h).
Proof.
  destruct reachable_settled as [[Hsh Hc _ _] _ _ _]. split_and!.
  - intros i b Hb. split; [by apply (shelf_batch _ Hsh i)|].
    destruct (shelf_facility _ Hsh i b Hb) as (l & -> & Hl). cbn. by rewrite Hl.
  - apply (shelf_keys _ Hsh).
  - apply (allocation_rows _ Hc).
  - apply (hold_rows _ Hc).
Qed.

(** C7. On every reachable database the handlers and the schema agree: a command gives the
    same answer and the same rows whether or not the triggers and constraints that repeat
    the handlers' checks are run. *)
Theorem stock_guards_redundant call :
  run_stock true digest to_json from_json encode call db =
  run_stock false digest to_json from_json encode call db.
Proof. apply run_stock_agrees, reachable_settled. Qed.

(** C12. A cancelled reservation. When a result of the command is stored, the answer is that
    result and nothing changes. Otherwise the reservation was active and is cancelled; every
    allocation that was active for it is released and no other allocation is touched, so
    that it holds nothing any more; the answer is the sum of what was released; and no stock
    moves. *)
Theorem cancelled_reservation_freed tenant user scope key reservation db' answer :
  cancel_inventory_reservation guards digest to_json from_json encode tenant user scope key
    reservation db = Ok (db', answer) →
  ∃ p, PreparedCommand_from_parts_v1 digest tenant user None key (lit "cancel_inventory_reservation")
         (encode (CancelReservationRequest reservation)) = Ok p ∧
  match db.1 !! record_key p with
  | Some _ => replayed from_json db.1 p = Ok (Some answer) ∧ db' = db
  | None =>
      answer = CancelReservationResult reservation (allocated_of db.2 reservation) ∧
      (∃ r r', rows (reservations db.2) !! reservation = Some r ∧ active_reservation r = true ∧
         rows (reservations db'.2) !! reservation = Some r' ∧
         reservation_status r' = ReservationCancelled ∧ reservation_key r' = reservation_key r) ∧
      (∀ j, rows (allocations db'.2) !! j =
         (fun a => if (allocation_reservation a =? reservation) && active_allocation a
                   then with_allocation_status AllocationReleased a else a)
           <$> rows (allocations db.2) !! j) ∧
      allocated_of db'.2 reservation = 0 ∧
      entries db'.2 = entries db.2 ∧
      (∀ i, (fun b => (position b, qty_on_hand b)) <$> rows (balances db'.2) !! i =
         (fun b => (position b, qty_on_hand b)) <$> rows (balances db.2) !! i)
  end.
Proof.
  unfold cancel_inventory_reservation, locked_command. intros H.
  apply rbind_ok in H as (p & Hp & H). exists p. split; [done|].
  apply rbind_ok in H as (r & Hr%cancel_reservation_locks_ok & H).
  apply run_command_inv in H as [[Hrep ->]|(txn & json & _ & H & _ & _ & -> & _)].
  { destruct (db.1 !! record_key p) eqn:E; [done|].
    unfold replayed, load_stored_result in Hrep. by rewrite E in Hrep. }
  assert (Hact : active_reservation r = true).
  { unfold cancel_reservation_work in H. by destruct (active_reservation r). }
  apply (agrees_run _ _ _ _ (cancel_reservation_agrees guards scope reservation r db.2
    reachable_settled Hr)) in H as (_ & Hans & (r' & Hr' & Hst & Hkey) & H0 & _ & Hrows & Hent & Hbal).
  split_and!; try done. by exists r, r'.
Qed.

Lemma locked_line scope order line facility o l :
  lock_order_line scope order line facility db.2 = Ok (o, l) →
  orders (directory db.2) !! order = Some o ∧ order_items (directory db.2) !! line = Some l ∧
  line_owner l = order_owner o ∧ line_order l = order.
Proof.
  unfold lock_order_line. intros H.
  destruct (orders _ !! _) as [o'|]; [|done]. destruct (order_items _ !! _) as [l'|]; [|done].
  destruct (_ && _) eqn:E; [|done]. apply rbind_ok in H as (_ & _ & [= <- <-]). by bool_to_prop.
Qed.

(** C14. A reservation beyond what its order line has left is refused. While the sum fits in
    64 bits the refusal is the conflict the handler words; a quantity so large that the
    unchecked sum wraps passes the handler's comparison and is refused by the trigger's
    overflow instead, which the caller sees as an internal error. *)
Theorem excess_reservation_refused scope order line facility qty o l :
  lock_order_line scope order line facility db.2 = Ok (o, l) →
  order_deleted o || line_deleted l || inactive_order (order_status o) = false →
  0 < order_owner o → 0 < facility →
  require_active_inventory_owner_facility db.2 (order_owner o) facility = true →
  0 < qty ≤ i64_max → line_qty l ≤ i64_max →
  line_qty l < reserved_of db.2 (order_owner o) line + qty →
  reserve_work order line facility qty (o, l) db.2 =
    Err (if reserved_of db.2 (order_owner o) line + qty <=? i64_max
         then Conflict "reservation quantity exceeds remaining order line demand"
         else Internal "database error").
Proof.
  intros (Ho & Hl & Hown & Hord)%locked_line Hact Howner Hfac Hassigned Hq Hmax Hex.
  pose proof (settled_wf _ reachable_settled) as Hwf.
  pose proof (within_line _ (wf_demand _ Hwf) line l Hl) as Hle. rewrite Hown in Hle.
  pose proof (reserved_of_nonneg db.2 (order_owner o) line Hwf) as Hnn.
  assert (i64_min < 0) by done.
  unfold reserve_work. rewrite Hact. unfold owner_facility_scope, lock_active_owner_facility_tx.
  rewrite (proj2 (positive_new_ok _ _ _) (conj eq_refl Howner)).
  rewrite (proj2 (positive_new_ok _ _ _) (conj eq_refl Hfac)). cbn [rbind fst snd].
  rewrite Hassigned. cbn [rbind]. 
  rewrite (bigint_fits (reserved_of _ _ _)) by lia. cbn [rbind].
  unfold i64_add. destruct (Z.leb_spec (reserved_of db.2 (order_owner o) line + qty) i64_max).
  - rewrite wrap_i64_id by (unfold in_i64; lia). by rewrite (proj2 (Z.ltb_lt _ _)) by lia.
  - rewrite wrap_i64_over by lia. rewrite (proj2 (Z.ltb_ge _ _)) by (unfold i64_max in *; lia).
    unfold insert_reservation. cbn [reservation_owner reservation_facility]. rewrite Hassigned.
    rewrite (reservation_overflows _ _ o l) by (cbn; (done || lia)). done.
Qed.
End properties.

(** ** Witnesses *)

Lemma stock_books_reconcile_witness :
  length (entries demo.2) = 5%nat ∧ inventory_reconciliation demo.2 = [].
Proof.
  split; [apply demo_rows|].
  apply (stock_books_reconcile StockResult true sample_digest Some Some demo_encode demo_directory ∅
    demo demo_lines demo_reachable).
Defined.

Lemma stock_commitments_covered_witness :
  size (rows (allocations demo.2)) = 1%nat ∧
  ∀ i r, rows (reservations demo.2) !! i = Some r → allocated_of demo.2 i ≤ reservation_qty r.
Proof.
  split; [apply demo_rows|].
  apply (stock_commitments_covered StockResult true sample_digest Some Some demo_encode demo_directory ∅
    demo demo_lines demo_reachable).
Defined.

Lemma stock_rows_refer_witness :
  size (rows (holds demo.2)) = 1%nat ∧ ∀ i h, rows (holds demo.2) !! i = Some h → hold_ok demo.2 h.
Proof.
  split; [apply demo_rows|].
  apply (stock_rows_refer StockResult true sample_digest Some Some demo_encode demo_directory ∅
    demo demo_lines demo_reachable).
Defined.

Lemma stock_guards_redundant_witness :
  run_stock true sample_digest Some Some demo_encode
    (CallMove 1 3 unrestricted (lit "k9") 1 1 2 1 None no_memo) demo =
  run_stock false sample_digest Some Some demo_encode
    (CallMove 1 3 unrestricted (lit "k9") 1 1 2 1 None no_memo) demo.
Proof.
  apply (stock_guards_redundant StockResult true sample_digest Some Some demo_encode demo_directory ∅
    demo demo_lines demo_reachable).
Defined.

Definition demo_cancel : result (StockDatabase (Json := StockResult) * StockResult) ApplicationError :=
  cancel_inventory_reservation true sample_digest Some Some demo_encode 1 3 unrestricted (lit "k7") 1 demo.

Definition demo_cancelled : StockDatabase (Json := StockResult) :=
  match demo_cancel with Ok (db, _) => db | Err _ => demo end.

Lemma demo_cancels :
  match demo_cancel with Ok (_, CancelReservationResult 1 5) => true | _ => false end = true.
Proof. by vm_compute. Qed.

Lemma demo_cancel_ok : demo_cancel = Ok (demo_cancelled, CancelReservationResult 1 5).
Proof.
  pose proof demo_cancels as H. unfold demo_cancelled.
  destruct demo_cancel as [[db r]|]; [|done]. f_equal. f_equal.
  destruct r as [| | | |[|[]|] [|[[|[]|]|[]|]|]| | |]; try done.
Qed.

Lemma demo_cancel_fresh p :
  PreparedCommand_from_parts_v1 sample_digest 1 3 None (lit "k7") (lit "cancel_inventory_reservation")
    (demo_encode (CancelReservationRequest 1)) = Ok p → demo.1 !! record_key p = None.
Proof.
  assert (H : match PreparedCommand_from_parts_v1 sample_digest 1 3 None (lit "k7")
    (lit "cancel_inventory_reservation") (demo_encode (CancelReservationRequest 1)) with
    | Ok p => bool_decide (demo.1 !! record_key p = None) | Err _ => true end = true) by (by vm_compute).
  intros E. rewrite E in H. by apply bool_decide_eq_true_1 in H.
Qed.

Lemma demo_allocated : ∃ a, rows (allocations demo.2) !! 1 = Some a ∧
  (allocation_reservation a =? 1) && active_allocation a = true.
Proof. eexists. split; [vm_compute; reflexivity|]. by vm_compute. Qed.

Lemma cancelled_reservation_freed_witness :
  allocated_of demo_cancelled.2 1 = 0 ∧ ∃ a, rows (allocations demo_cancelled.2) !! 1 = Some a ∧
    allocation_status a = AllocationReleased.
Proof.
  destruct (cancelled_reservation_freed StockResult true sample_digest Some Some demo_encode
    demo_directory ∅ demo demo_lines demo_reachable 1 3 unrestricted (lit "k7") 1 demo_cancelled
    (CancelReservationResult 1 5) demo_cancel_ok) as (p & Hp & H).
  rewrite (demo_cancel_fresh p Hp) in H. destruct H as (_ & _ & Hrows & H0 & _). split; [exact H0|].
  destruct demo_allocated as (a & Ha & Hact). exists (with_allocation_status AllocationReleased a).
  specialize (Hrows 1). rewrite Ha in Hrows. cbn in Hrows. rewrite Hact in Hrows. exact (conj Hrows eq_refl).
Defined.

Definition demo_order : OrderRow := MkOrder 1 Open false.
Definition demo_line : OrderLineRow := MkOrderLine 1 5 7 (lit "ea") 10 false.

Lemma demo_locked_line : lock_order_line unrestricted 5 9 1 demo.2 = Ok (demo_order, demo_line).
Proof. by vm_compute. Qed.

Lemma demo_reserved :
  reserved_of demo.2 1 9 = 6 ∧ require_active_inventory_owner_facility demo.2 1 1 = true.
Proof. by vm_compute. Qed.

Lemma excess_reservation_refused_witness :
  reserve_work 5 9 1 i64_max (demo_order, demo_line) demo.2 = Err (Internal "database error").
Proof.
  pose proof (excess_reservation_refused StockResult true sample_digest Some Some demo_encode
    demo_directory ∅ demo demo_lines demo_reachable unrestricted 5 9 1 i64_max demo_order demo_line
    demo_locked_line eq_refl) as H. cbn [order_owner demo_order line_qty demo_line] in H.
  rewrite (proj1 demo_reserved) in H. 
  refine (eq_trans (H _ _ (proj2 demo_reserved) _ _ _) eq_refl); unfold i64_max; lia.
Defined.
