(* ===== verification/WorkTasks.v ===== *)
(** * Work tasks ([crates/api/src/repo/tasks.rs], [tasks/leasing.rs], [tasks/execution.rs])

    The header rows of warehouse work, whatever its kind, and the handlers that hand a task
    to a user and take it back: assignment, start, abort, cancellation and the release of
    claims whose lease ran out or whose user lost the scope. Handlers are modelled from the
    point after the replay check (see [Idempotency]); titles, instructions and the instants
    of the last change are left out. Instants are integers, in seconds. *)

From S2P Require Import Prelude.
From S2P Require Import RustStr.
From S2P Require Import Idempotency.
From S2P Require Import StockTypes.

Inductive WorkTaskType :=
| CycleCountItemLocation | CycleCountLocation | BreakMasterPack | UnpackCancelledOrder | PutawayTask
| LicensePlatePutaway | InventoryRelocation | ReplenishmentTask | CrossDock.

Inductive WorkTaskStatus := TaskOpen | TaskAssigned | TaskInProgress | TaskCompleted | TaskCancelled.

#[global] Instance WorkTaskType_eq_dec : EqDecision WorkTaskType.
Proof. solve_decision. Defined.
#[global] Instance WorkTaskStatus_eq_dec : EqDecision WorkTaskStatus.
Proof. solve_decision. Defined.

(** [work_tasks] *)
Record WorkTask := MkTaskHeader {
  wt_type : WorkTaskType;
  wt_status : WorkTaskStatus;
  wt_facility : option Z;
  wt_owner : option Z;
  wt_permission : rstr;
  wt_priority : Z;
  wt_assigned : option Z;
  wt_created_by : option Z;
  wt_completed_by : option Z;
  wt_scheduled_for : option Z;
  wt_due_at : option Z;
  wt_started_at : option Z;
  wt_lease : option Z;
  wt_timeout : Z;
  wt_release_count : Z;
  wt_completed_at : option Z;
  wt_created : Z;
  wt_deleted : bool;
}.

(** [work_task_progress]: the task, the user and the action. *)
Definition Progress : Type := Z * option Z * string.

Record TaskTables := MkTasks {
  work_tasks : Table WorkTask;
  task_progress : list Progress;
}.

Definition live (st : WorkTaskStatus) : bool :=
  match st with TaskOpen | TaskAssigned | TaskInProgress => true | _ => false end.

(** [status IN ('assigned', 'in_progress')] *)
Definition taken (st : WorkTaskStatus) : bool :=
  match st with TaskAssigned | TaskInProgress => true | _ => false end.

Definition task_permission (_ : WorkTaskType) : rstr := lit "wms".

Definition task_timeout_seconds (ty : WorkTaskType) : Z :=
  match ty with
  | CycleCountItemLocation => 30 * 60
  | CycleCountLocation => 60 * 60
  | BreakMasterPack => 45 * 60
  | UnpackCancelledOrder | PutawayTask | LicensePlatePutaway | InventoryRelocation
  | ReplenishmentTask | CrossDock => 30 * 60
  end.

(** [TaskDimensions::is_allowed_by], and the same condition as a WHERE clause. *)
Definition is_allowed_by (facility owner : option Z) (scope : ScopeBindings) : bool :=
  (all_facilities scope
   || match facility with Some id => bool_decide (id ∈ facility_ids scope) | None => false end)
  && match owner with
     | None => true
     | Some id => all_inventory_owners scope || bool_decide (id ∈ inventory_owner_ids scope)
     end.

Definition in_task_scope (scope : ScopeBindings) (t : WorkTask) : bool :=
  is_allowed_by (wt_facility t) (wt_owner t) scope.

(** ** Rows after an UPDATE *)

Definition set_assignment (st : WorkTaskStatus) (user started lease : option Z) (released : Z)
    (t : WorkTask) : WorkTask :=
  MkTaskHeader (wt_type t) st (wt_facility t) (wt_owner t) (wt_permission t) (wt_priority t) user
    (wt_created_by t) (wt_completed_by t) (wt_scheduled_for t) (wt_due_at t) started lease
    (wt_timeout t) (wt_release_count t + released) (wt_completed_at t) (wt_created t) (wt_deleted t).

Definition assigned_to (user : Z) (t : WorkTask) : WorkTask :=
  set_assignment TaskAssigned (Some user) (wt_started_at t) (wt_lease t) 0 t.

Definition claimed_by (user now : Z) (t : WorkTask) : WorkTask :=
  set_assignment TaskInProgress (Some user)
    (Some (default now (wt_started_at t))) (Some (now + wt_timeout t)) 0 t.

Definition extended (now : Z) (t : WorkTask) : WorkTask :=
  set_assignment (wt_status t) (wt_assigned t) (wt_started_at t) (Some (now + wt_timeout t)) 0 t.

Definition released (t : WorkTask) : WorkTask := set_assignment TaskOpen None None None 1 t.

Definition closed (st : WorkTaskStatus) (by_ now : Z) (t : WorkTask) : WorkTask :=
  MkTaskHeader (wt_type t) st (wt_facility t) (wt_owner t) (wt_permission t) (wt_priority t)
    (wt_assigned t) (wt_created_by t) (Some by_) (wt_scheduled_for t) (wt_due_at t)
    (wt_started_at t) None (wt_timeout t) (wt_release_count t) (Some now) (wt_created t)
    (wt_deleted t).

(** ** Statements *)

Definition record_progress (task : Z) (user : option Z) (action : string) (s : TaskTables) :
    TaskTables := MkTasks (work_tasks s) (task_progress s ++ [(task, user, action)]).

Definition put_task (task : Z) (t : WorkTask) (s : TaskTables) : TaskTables :=
  MkTasks (update_row (work_tasks s) task t) (task_progress s).

Definition lookup_task (s : TaskTables) (task : Z) : option WorkTask := rows (work_tasks s) !! task.

Definition insert_task_tx (s : TaskTables) (ty : WorkTaskType) (facility owner : option Z)
    (permission : rstr) (priority timeout : Z) (assigned created_by scheduled_for due_at : option Z)
    (now : Z) : TaskTables * Z :=
  let t := MkTaskHeader ty (if assigned is Some _ then TaskAssigned else TaskOpen) facility owner permission
             priority assigned created_by None scheduled_for due_at None None timeout 0 None now false in
  (MkTasks (insert_row (work_tasks s) t) (task_progress s), next_id (work_tasks s)).

(** [UPDATE work_tasks SET status = 'open', .. WHERE ..], a progress row for each. *)
Definition release_where (where_ : WorkTask → bool) (user : option Z) (action : string)
    (s : TaskTables) : TaskTables * list Z :=
  let ids := fst <$> List.filter (fun r => where_ r.2) (map_to_list (rows (work_tasks s))) in
  (MkTasks
     (MkTable ((fun t => if where_ t then released t else t) <$> rows (work_tasks s))
        (next_id (work_tasks s)))
     (task_progress s ++ ((fun id => (id, user, action)) <$> ids)), ids).

Definition lease_expired (scope : ScopeBindings) (user : option Z) (now : Z) (t : WorkTask) : bool :=
  negb (wt_deleted t) && taken (wt_status t)
  && match wt_lease t with Some lease => lease <=? now | None => false end
  && bool_decide (wt_completed_at t = None) && in_task_scope scope t
  && match user with Some u => bool_decide (wt_assigned t = Some u) | None => true end.

Definition release_expired_tasks_tx (user : option Z) (scope : ScopeBindings) (now : Z)
    (s : TaskTables) : TaskTables * list Z :=
  release_where (lease_expired scope user now) None "expired" s.

Definition inaccessible (scope : ScopeBindings) (user : Z) (t : WorkTask) : bool :=
  bool_decide (wt_assigned t = Some user) && negb (wt_deleted t) && taken (wt_status t)
  && bool_decide (wt_completed_at t = None) && negb (in_task_scope scope t).

Definition release_inaccessible_active_tasks_tx (user : Z) (scope : ScopeBindings)
    (s : TaskTables) : TaskTables :=
  (release_where (inaccessible scope user) (Some user) "scope_revoked" s).1.

(** What every claim does first. *)
Definition release_stale (user : Z) (scope : ScopeBindings) (now : Z) (s : TaskTables) : TaskTables :=
  release_inaccessible_active_tasks_tx user scope (release_expired_tasks_tx (Some user) scope now s).1.

(** Does another task of the user satisfy [where_]? *)
Definition has_task (s : TaskTables) (user : Z) (where_ : Z → WorkTask → bool) : bool :=
  existsb (fun '(id, t) => bool_decide (wt_assigned t = Some user) && negb (wt_deleted t)
                           && taken (wt_status t) && where_ id t) (map_to_list (rows (work_tasks s))).

Definition lock_task_in_current_scope_tx (s : TaskTables) (scope : ScopeBindings) (task : Z) :
    option WorkTask :=
  match lookup_task s task with
  | Some t => if negb (wt_deleted t) && in_task_scope scope t then Some t else None
  | None => None
  end.

Definition require_replayed_task_visible_tx (s : TaskTables) (scope : ScopeBindings) (task : Z) :
    result unit ApplicationError :=
  let? t := ok_or (lookup_task s task) (NotFound "task") in
  check in_task_scope scope t else NotFound "task" in Ok tt.

(** ** Handlers; the answer is whether a row was changed *)

Section handlers.
(** [user_can_execute_task_tx]: memberships, scopes and roles of the user. *)
Context (user_can_execute : Z → option Z → option Z → rstr → bool).

Definition assign_task (scope : ScopeBindings) (task user : Z) (s : TaskTables) :
    TaskTables * bool :=
  match lookup_task s task with
  | Some t =>
      if in_task_scope scope t && user_can_execute user (wt_facility t) (wt_owner t) (wt_permission t)
         && negb (has_task s user (fun id _ => negb (id =? task)))
         && negb (wt_deleted t) && bool_decide (wt_status t = TaskOpen)
      then (put_task task (assigned_to user t) s, true)
      else (s, false)
  | None => (s, false)
  end.
End handlers.

Definition start_task (scope : ScopeBindings) (task user now : Z) (s : TaskTables) :
    result (TaskTables * bool) ApplicationError :=
  match lock_task_in_current_scope_tx s scope task with
  | None => Err (NotFound "task")
  | Some _ =>
      let s' := release_stale user scope now s in
      if has_task s' user (fun id _ => negb (id =? task)) then Ok (s, false)
      else
        match lookup_task s' task with
        | Some t =>
            if negb (wt_deleted t)
               && match wt_status t with TaskOpen | TaskAssigned => true | _ => false end
               && (bool_decide (wt_assigned t = None) || bool_decide (wt_assigned t = Some user))
               && in_task_scope scope t
            then Ok (record_progress task (Some user) "started" (put_task task (claimed_by user now t) s'),
                     true)
            else Ok (s, false)
        | None => Ok (s, false)
        end
  end.

(** [ASC NULLS LAST] *)
Definition nulls_last (x y : option Z) : comparison :=
  match x, y with
  | Some x, Some y => x ?= y
  | Some _, None => Lt
  | None, Some _ => Gt
  | None, None => Eq
  end.

(** [ORDER BY priority DESC, due_at ASC NULLS LAST, COALESCE(scheduled_for, created), created, id] *)
Definition task_order (x y : Z * WorkTask) : comparison :=
  then_with (wt_priority y.2 ?= wt_priority x.2)
    (then_with (nulls_last (wt_due_at x.2) (wt_due_at y.2))
       (then_with (default (wt_created x.2) (wt_scheduled_for x.2)
                   ?= default (wt_created y.2) (wt_scheduled_for y.2))
          (then_with (wt_created x.2 ?= wt_created y.2) (x.1 ?= y.1)))).

Definition due (now : Z) (t : WorkTask) : bool :=
  match wt_scheduled_for t with Some at_ => at_ <=? now | None => true end.

(** [start_next_task]; [permissions] are the names the user holds, in lower case. *)
Definition start_next_task (scope : ScopeBindings) (permissions : list rstr)
    (ty : option WorkTaskType) (user now : Z) (s : TaskTables) :
    result (TaskTables * option Z) ApplicationError :=
  let is_admin := bool_decide (lit "admin" ∈ permissions) in
  if negb is_admin && bool_decide (permissions = []) then Ok (s, None)
  else
  let s := release_stale user scope now s in
  if has_task s user (fun _ _ => true)
  then Err (Conflict "user already has an active task; abort or complete it first")
  else
    let candidates := sort_by task_order (List.filter (fun '(_, t) =>
        negb (wt_deleted t) && bool_decide (wt_status t = TaskOpen) && due now t
        && (is_admin || bool_decide (to_ascii_lowercase <$> wt_permission t ∈ permissions))
        && match ty with Some ty => bool_decide (wt_type t = ty) | None => true end
        && in_task_scope scope t) (map_to_list (rows (work_tasks s)))) in
    match head candidates with
    | Some (id, t) =>
        Ok (record_progress id (Some user) "started" (put_task id (claimed_by user now t) s), Some id)
    | None => Ok (s, None)
    end.

Definition abort_task (scope : ScopeBindings) (task user : Z) (s : TaskTables) : TaskTables * bool :=
  match lock_task_in_current_scope_tx s scope task with
  | Some t =>
      if taken (wt_status t) && bool_decide (wt_assigned t = Some user)
         && bool_decide (wt_completed_at t = None)
      then (record_progress task (Some user) "aborted" (put_task task (released t) s), true)
      else (s, false)
  | None => (s, false)
  end.

Definition cancel_task (scope : ScopeBindings) (task user now : Z) (s : TaskTables) :
    TaskTables * bool :=
  match lock_task_in_current_scope_tx s scope task with
  | Some t =>
      if live (wt_status t)
      then (record_progress task (Some user) "cancelled"
              (put_task task (closed TaskCancelled user now t) s), true)
      else (s, false)
  | None => (s, false)
  end.

(** [record_task_progress] and [complete_task] lock the task and then always fail: work is
    completed by the command of its kind. *)
Definition complete_task (scope : ScopeBindings) (task : Z) (qty_completed : option Z)
    (s : TaskTables) : result bool ApplicationError :=
  if match qty_completed with Some q => q <=? 0 | None => false end
  then Err (InvalidRequest "completed quantity must be positive")
  else
    match lock_task_in_current_scope_tx s scope task with
    | None => Ok false
    | Some _ =>
        Err (Conflict "tasks require a typed command that records their inventory effect")
    end.
