(* ===== verification/Configuration.v ===== *)
(** * Decision rules ([crates/domain/src/configuration.rs])

    The versioned rules that tenants configure for the decisions of the warehouse: their
    scopes and life cycle, the validity of each kind, and the resolution of the rule that is
    in force for an owner at a facility. Instants are integers. *)

From S2P Require Import Prelude.
From S2P Require Import RustStr.

Definition MAX_CONFIGURATION_CURRENCY_LENGTH : Z := 3.
Definition MAX_CONFIGURATION_RATE_MINOR : Z := 1000000000000.
Definition MAX_WAVE_ORDERS : Z := 10000.
Definition MAX_PERCENTAGE_BASIS_POINTS : Z := 10000.

Inductive DecisionRuleKind :=
| ReceiptKind | PutawayKind | AllocationKind | ReplenishmentKind | WaveKind | PickKind | PackKind
| CountKind | DocumentKind | BillingKind.

Inductive ConfigurationScope :=
| TenantScope
| OwnerScope (inventory_owner_id : Z)
| FacilityScope (facility_id : Z)
| OwnerFacilityScope (inventory_owner_id facility_id : Z).

Inductive ConfigurationStatus := Draft | PendingApproval | Approved | ActiveConfiguration | Retired.

#[global] Instance DecisionRuleKind_eq_dec : EqDecision DecisionRuleKind.
Proof. solve_decision. Defined.
#[global] Instance ConfigurationScope_eq_dec : EqDecision ConfigurationScope.
Proof. solve_decision. Defined.
#[global] Instance ConfigurationStatus_eq_dec : EqDecision ConfigurationStatus.
Proof. solve_decision. Defined.

Inductive ConfigurationError :=
| InvalidIdentity
| InvalidEffectiveWindow
| OutsideEffectiveWindow
| InvalidTransition (actual requested : ConfigurationStatus)
| InvalidPercentage
| ConflictingAllocationPolicy
| InvalidReplenishmentLevels
| InvalidWaveSize
| InvalidCountTolerance
| EmptyDocumentPolicy
| InvalidBillingRate
| RollbackSourceNotApproved.

Definition specificity (self : ConfigurationScope) : Z :=
  match self with
  | TenantScope => 0
  | OwnerScope _ | FacilityScope _ => 1
  | OwnerFacilityScope _ _ => 2
  end.

Definition applies_to (self : ConfigurationScope) (inventory_owner_id facility_id : Z) : bool :=
  match self with
  | TenantScope => true
  | OwnerScope configured => configured =? inventory_owner_id
  | FacilityScope configured => configured =? facility_id
  | OwnerFacilityScope configured_owner configured_facility =>
      (configured_owner =? inventory_owner_id) && (configured_facility =? facility_id)
  end.

Record ConfigurationEffectiveWindow := MkWindow {
  effective_from : Z;
  effective_until : option Z;
}.

Definition ConfigurationEffectiveWindow_new (from : Z) (until : option Z) :
    result ConfigurationEffectiveWindow ConfigurationError :=
  match until with
  | Some u => if u <=? from then Err InvalidEffectiveWindow else Ok (MkWindow from until)
  | None => Ok (MkWindow from until)
  end.

Definition includes (self : ConfigurationEffectiveWindow) (timestamp : Z) : bool :=
  (effective_from self <=? timestamp)
  && match effective_until self with None => true | Some until => timestamp <? until end.

(** ** The life of a configuration *)

Definition submit (self : ConfigurationStatus) : result ConfigurationStatus ConfigurationError :=
  match self with
  | Draft => Ok PendingApproval
  | actual => Err (InvalidTransition actual PendingApproval)
  end.

Definition approve (self : ConfigurationStatus) : result ConfigurationStatus ConfigurationError :=
  match self with
  | PendingApproval => Ok Approved
  | actual => Err (InvalidTransition actual Approved)
  end.

Definition activate (self : ConfigurationStatus) (window : ConfigurationEffectiveWindow)
    (activated_at : Z) : result ConfigurationStatus ConfigurationError :=
  if negb (bool_decide (self = Approved)) then Err (InvalidTransition self ActiveConfiguration)
  else check includes window activated_at else OutsideEffectiveWindow in
  Ok ActiveConfiguration.

Definition retire (self : ConfigurationStatus) : result ConfigurationStatus ConfigurationError :=
  match self with
  | Approved | ActiveConfiguration => Ok Retired
  | actual => Err (InvalidTransition actual Retired)
  end.

(** ** The rules *)

Inductive InventoryRotation := RotationFifo | RotationFefo.

Inductive BillableEventType :=
| ReceiptLine | ReceivedUnit | PalletDay | PickLine | PickedUnit | PackedCarton | ShippedUnit
| ReturnUnit | RelabelUnit | RefurbishmentUnit | KitUnit | AssemblyUnit | Accessorial
| DetentionHour | ValueAddedServiceUnit.

Inductive BillingUnit :=
| UnitEvent | UnitEach | UnitCase | UnitPallet | UnitCarton | UnitHour | UnitDay.

Inductive DecisionRuleDefinition :=
| ReceiptRule (allow_unexpected quarantine_unmapped_items : bool)
    (over_receipt_tolerance_basis_points : Z)
| PutawayRule (require_zone_compatibility enforce_location_capacity allow_mixed_lots : bool)
| AllocationRule (rotation : InventoryRotation) (allow_partial require_complete_line : bool)
| ReplenishmentRule (minimum_percent target_percent : Z) (include_inbound_projection : bool)
| WaveRule (max_orders : Z) (require_complete_allocation : bool)
| PickRule (require_source_location_scan require_item_scan require_destination_container_scan : bool)
| PackRule (require_station_scan require_weight allow_mixed_orders : bool)
| CountRule (absolute_tolerance percentage_tolerance_basis_points approval_threshold : Z)
| DocumentRule (generate_packing_slip generate_carton_label require_tracking_barcode : bool)
| BillingRule (event_type : BillableEventType) (unit_ : BillingUnit) (currency : rstr)
    (rate_minor minimum_charge_minor : Z).

#[global] Instance InventoryRotation_eq_dec : EqDecision InventoryRotation.
Proof. solve_decision. Defined.
#[global] Instance BillableEventType_eq_dec : EqDecision BillableEventType.
Proof. solve_decision. Defined.
#[global] Instance BillingUnit_eq_dec : EqDecision BillingUnit.
Proof. solve_decision. Defined.
#[global] Instance DecisionRuleDefinition_eq_dec : EqDecision DecisionRuleDefinition.
Proof. solve_decision. Defined.

Definition kind (self : DecisionRuleDefinition) : DecisionRuleKind :=
  match self with
  | ReceiptRule _ _ _ => ReceiptKind
  | PutawayRule _ _ _ => PutawayKind
  | AllocationRule _ _ _ => AllocationKind
  | ReplenishmentRule _ _ _ => ReplenishmentKind
  | WaveRule _ _ => WaveKind
  | PickRule _ _ _ => PickKind
  | PackRule _ _ _ => PackKind
  | CountRule _ _ _ => CountKind
  | DocumentRule _ _ _ => DocumentKind
  | BillingRule _ _ _ _ _ => BillingKind
  end.

Definition valid_currency (currency : rstr) : bool :=
  (str_len currency =? MAX_CONFIGURATION_CURRENCY_LENGTH)
  && forallb is_ascii_uppercase (as_bytes currency).

Definition DecisionRuleDefinition_validate (self : DecisionRuleDefinition) :
    result unit ConfigurationError :=
  match self with
  | ReceiptRule _ _ tolerance =>
      if MAX_PERCENTAGE_BASIS_POINTS <? tolerance then Err InvalidPercentage else Ok tt
  | AllocationRule _ allow_partial require_complete_line =>
      if allow_partial && require_complete_line then Err ConflictingAllocationPolicy else Ok tt
  | ReplenishmentRule minimum_percent target_percent _ =>
      if (100 <? minimum_percent) || (100 <? target_percent) || (target_percent <=? minimum_percent)
      then Err InvalidReplenishmentLevels else Ok tt
  | WaveRule max_orders _ =>
      if (max_orders =? 0) || (MAX_WAVE_ORDERS <? max_orders) then Err InvalidWaveSize else Ok tt
  | CountRule absolute_tolerance percentage approval_threshold =>
      if (absolute_tolerance <? 0) || (MAX_PERCENTAGE_BASIS_POINTS <? percentage)
         || (approval_threshold <? absolute_tolerance)
      then Err InvalidCountTolerance else Ok tt
  | DocumentRule packing_slip carton_label _ =>
      if negb packing_slip && negb carton_label then Err EmptyDocumentPolicy else Ok tt
  | BillingRule _ _ currency rate_minor minimum_charge_minor =>
      if negb (valid_currency currency) || (rate_minor =? 0)
         || (MAX_CONFIGURATION_RATE_MINOR <? rate_minor)
         || (MAX_CONFIGURATION_RATE_MINOR <? minimum_charge_minor)
      then Err InvalidBillingRate else Ok tt
  | PutawayRule _ _ _ | PickRule _ _ _ | PackRule _ _ _ => Ok tt
  end.

Record EffectiveDecisionRule := MkRule {
  configuration_id : Z;
  rule_revision : Z;
  rule_scope : ConfigurationScope;
  rule_status : ConfigurationStatus;
  effective_window : ConfigurationEffectiveWindow;
  rule_definition : DecisionRuleDefinition;
}.

Definition EffectiveDecisionRule_validate (self : EffectiveDecisionRule) :
    result unit ConfigurationError :=
  if (configuration_id self <=? 0) || (rule_revision self <=? 0) then Err InvalidIdentity
  else DecisionRuleDefinition_validate (rule_definition self).

(** ** Resolution *)

(** [(specificity, effective_from, revision, configuration_id)], compared as a tuple. *)
Definition precedence (x y : EffectiveDecisionRule) : comparison :=
  then_with
    (then_with
       (then_with (specificity (rule_scope x) ?= specificity (rule_scope y))
          (effective_from (effective_window x) ?= effective_from (effective_window y)))
       (rule_revision x ?= rule_revision y))
    (configuration_id x ?= configuration_id y).

(** [Iterator::max_by_key]: the last of the greatest elements. *)
Definition later_max {A} (cmp : A → A → comparison) (best : option A) (x : A) : option A :=
  match best with
  | None => Some x
  | Some y => match cmp y x with Gt => Some y | _ => Some x end
  end.
Definition max_by {A} (cmp : A → A → comparison) (l : list A) : option A :=
  fold_left (later_max cmp) l None.

Definition in_force (kind_ : DecisionRuleKind) (inventory_owner_id facility_id effective_at : Z)
    (candidate : EffectiveDecisionRule) : bool :=
  bool_decide (rule_status candidate = ActiveConfiguration)
  && bool_decide (kind (rule_definition candidate) = kind_)
  && applies_to (rule_scope candidate) inventory_owner_id facility_id
  && includes (effective_window candidate) effective_at.

Definition resolve_effective_rule (candidates : list EffectiveDecisionRule)
    (kind_ : DecisionRuleKind) (inventory_owner_id facility_id effective_at : Z) :
    result (option EffectiveDecisionRule) ConfigurationError :=
  let? _ := rfold (fun candidate _ => EffectiveDecisionRule_validate candidate) candidates tt in
  Ok (max_by precedence
        (List.filter (in_force kind_ inventory_owner_id facility_id effective_at) candidates)).

Definition rollback_as_draft (source : EffectiveDecisionRule)
    (next_configuration_id next_revision : Z) (window : ConfigurationEffectiveWindow) :
    result EffectiveDecisionRule ConfigurationError :=
  let? _ := EffectiveDecisionRule_validate source in
  if negb (bool_decide (rule_status source ∈ [Approved; ActiveConfiguration; Retired]))
  then Err RollbackSourceNotApproved
  else
    let rollback := MkRule next_configuration_id next_revision (rule_scope source) Draft window
                      (rule_definition source) in
    let? _ := EffectiveDecisionRule_validate rollback in
    Ok rollback.

(** ** The rule in force *)

Section max_by_facts.
Context {A} (cmp : A → A → comparison) `{!OrdCmp cmp}.

Lemma max_by_from l best :
  match fold_left (later_max cmp) l best with
  | None => best = None ∧ l = []
  | Some m => (m ∈ l ∨ best = Some m) ∧ (∀ x, x ∈ l → cmp_le cmp x m) ∧
              (∀ b, best = Some b → cmp_le cmp b m)
  end.
Proof.
  revert best. induction l as [|x l IH]; intros best; cbn [fold_left].
  - destruct best as [b|]; [|done].
    split_and!; [by right|by intros x ?%not_elem_of_nil|intros ? [= ->]; apply (cmp_le_refl cmp)].
  - specialize (IH (later_max cmp best x)).
    destruct (fold_left _ _ _) as [m|]; cycle 1.
    { destruct IH as [E _]. destruct best as [b|]; cbn in E; [destruct (cmp b x)|]; done. }
    destruct IH as (Hin & Hall & Hbest).
    assert (Hx : cmp_le cmp x m ∧ ∀ b, best = Some b → cmp_le cmp b m).
    { destruct best as [b|]; cbn in Hbest; [|split; [by apply Hbest|done]].
      destruct (cmp b x) eqn:E; specialize (Hbest _ eq_refl).
      1,2: split; [done|intros ? [= ->]; eapply (cmp_le_trans cmp); [|exact Hbest]; congruence].
      split; [|by intros ? [= ->]]. eapply (cmp_le_trans cmp); [|exact Hbest].
      rewrite (cmp_sym cmp b x), E. done. }
    split_and!; [|intros y [->|Hy]%elem_of_cons; [exact (proj1 Hx)|by apply Hall]|exact (proj2 Hx)].
    destruct Hin as [Hin|Hin]; [left; set_solver|].
    destruct best as [b|]; cbn in Hin; [destruct (cmp b x)|]; simplify_eq; set_solver.
Qed.

Lemma max_by_spec l :
  match max_by cmp l with
  | None => l = []
  | Some m => m ∈ l ∧ ∀ x, x ∈ l → cmp_le cmp x m
  end.
Proof.
  pose proof (max_by_from l None) as H. unfold max_by.
  destruct (fold_left _ _ _); [|by destruct H]. destruct H as ([?|?] & ? & _); done.
Qed.

(** Where the order separates the elements, the greatest one does not depend on how they
    are listed. *)
Lemma max_by_unique l l' :
  (∀ x y, x ∈ l → y ∈ l → cmp x y = Eq → x = y) → (∀ x, x ∈ l ↔ x ∈ l') →
  max_by cmp l = max_by cmp l'.
Proof.
  intros Hsep Hl. pose proof (max_by_spec l) as H. pose proof (max_by_spec l') as H'.
  destruct (max_by cmp l) as [m|], (max_by cmp l') as [m'|]; [|subst; set_solver..|done].
  destruct H as [Hm Hmax], H' as [Hm' Hmax']. f_equal.
  apply Hsep; [done|by apply Hl|]. apply (cmp_le_antisym cmp); [by apply Hmax', Hl|by apply Hmax, Hl].
Qed.
End max_by_facts.

#[export] Instance precedence_ord : OrdCmp precedence.
Proof.
  exact (then_with_ord
    (fun x y => then_with (then_with (specificity (rule_scope x) ?= specificity (rule_scope y))
       (effective_from (effective_window x) ?= effective_from (effective_window y)))
       (rule_revision x ?= rule_revision y))
    (fun x y => configuration_id x ?= configuration_id y)).
Qed.

Lemma precedence_eq_id x y : precedence x y = Eq → configuration_id x = configuration_id y.
Proof.
  unfold precedence. intros E. apply Z.compare_eq_iff.
  repeat match type of E with context [then_with ?a _] => destruct a eqn:?; cbn in E; try done end.
Qed.

Lemma validate_all_ok candidates :
  is_ok (rfold (fun c _ => EffectiveDecisionRule_validate c) candidates tt) = true ↔
  Forall (fun c => EffectiveDecisionRule_validate c = Ok tt) candidates.
Proof.
  induction candidates as [|c l IH]; cbn; [done|]. rewrite Forall_cons, <-IH.
  destruct (EffectiveDecisionRule_validate c) as [[]|]; cbn; naive_solver.
Qed.

(** Resolution fails exactly on an invalid candidate. Otherwise it returns a rule in force
    that no other rule in force precedes, in particular none of a narrower scope, and
    nothing only if no rule is in force; with distinct identities the order of the
    candidates does not matter. *)
Theorem resolution_precedence candidates candidates' kind_ owner facility at_ :
  (is_ok (resolve_effective_rule candidates kind_ owner facility at_) = true ↔
     Forall (fun c => EffectiveDecisionRule_validate c = Ok tt) candidates) ∧
  (∀ best, resolve_effective_rule candidates kind_ owner facility at_ = Ok best →
     match best with
     | None => ∀ c, c ∈ candidates → in_force kind_ owner facility at_ c = false
     | Some r => r ∈ candidates ∧ in_force kind_ owner facility at_ r = true ∧
         ∀ c, c ∈ candidates → in_force kind_ owner facility at_ c = true →
           precedence c r ≠ Gt ∧ specificity (rule_scope c) ≤ specificity (rule_scope r)
     end) ∧
  (NoDup (configuration_id <$> candidates) → candidates ≡ₚ candidates' →
   Forall (fun c => EffectiveDecisionRule_validate c = Ok tt) candidates →
   resolve_effective_rule candidates kind_ owner facility at_ =
   resolve_effective_rule candidates' kind_ owner facility at_).
Proof.
  split_and!.
  - rewrite <-validate_all_ok. unfold resolve_effective_rule. by destruct (rfold _ _ _).
  - intros best H. apply rbind_ok in H as (u & _ & [= <-]).
    pose proof (max_by_spec precedence
      (List.filter (in_force kind_ owner facility at_) candidates)) as Hmax.
    destruct (max_by _ _) as [r|].
    + destruct Hmax as [Hr Hmax]. apply elem_of_filter_bool in Hr as [Hr Hin].
      split_and!; [done|done|]. intros c Hc Hcin.
      assert (Hle : precedence c r ≠ Gt) by (apply Hmax, elem_of_filter_bool; done).
      split; [done|]. apply Z.nlt_ge. intros Hlt%Z.compare_gt_iff. apply Hle.
      unfold precedence. by rewrite Hlt.
    + intros c Hc. destruct (in_force _ _ _ _ c) eqn:E; [|done].
      assert (Hf : c ∈ List.filter (in_force kind_ owner facility at_) candidates)
        by by apply elem_of_filter_bool.
      rewrite Hmax in Hf. set_solver.
  - intros Hnd Hperm Hval. unfold resolve_effective_rule.
    assert (Hval' := Hval). rewrite Hperm in Hval'.
    apply validate_all_ok in Hval, Hval'.
    destruct (rfold _ candidates tt) as [[]|]; [|done].
    destruct (rfold _ candidates' tt) as [[]|]; [|done]. cbn. f_equal.
    apply max_by_unique; [apply _| |].
    + intros x y [Hx _]%elem_of_filter_bool [Hy _]%elem_of_filter_bool E%precedence_eq_id.
      by apply (NoDup_fmap_inj_on configuration_id candidates).
    + intros x. by rewrite !elem_of_filter_bool, Hperm.
Qed.
