(* ===== verification/Replenishment.v ===== *)
(** * Replenishment rules ([crates/domain/src/replenishment.rs])

    Min/target policies of a pick face, the assessment of reserve stock as a source, the
    planning decision from a snapshot of the facts, and the selection of exact sources by
    expiry, receipt and balance. Newtypes over an integer or a text are represented by it;
    their [Deserialize] instances call the constructors below. Instants are integers. *)

From S2P Require Import Prelude.
From S2P Require Import RustStr.

Definition MAX_REPLENISHMENT_UOM_LENGTH : Z := 32.
Definition MAX_REPLENISHMENT_SCAN_VALUE_LENGTH : Z := 200.
Definition MAX_REPLENISHMENT_CANCELLATION_NOTE_LENGTH : Z := 500.

Inductive ReplenishmentWorkStatus := Pending | Claimed | Completed | Cancelled.
Inductive ReplenishmentPolicyStatus := PolicyActive | PolicyRetired.

(** Natural key on which at most one active policy may exist. *)
Record ReplenishmentPolicyScope := MkPolicyScope {
  scope_tenant : Z;
  scope_owner : Z;
  scope_facility : Z;
  scope_item : Z;
  scope_uom : rstr;
  scope_pick_face : Z;
}.

#[global] Instance ReplenishmentWorkStatus_eq_dec : EqDecision ReplenishmentWorkStatus.
Proof. solve_decision. Defined.
#[global] Instance ReplenishmentPolicyScope_eq_dec : EqDecision ReplenishmentPolicyScope.
Proof. solve_decision. Defined.

Inductive ReplenishmentError :=
| InvalidUom
| NegativeLevel (value : Z)
| InvalidMoveQuantity (value : Z)
| InvalidPolicyRevision (value : Z)
| TargetNotAboveMinimum (minimum target : Z)
| EmptyReserveSourceSet
| PickFaceIsReserveSource (location_id : Z)
| DuplicateActivePolicy (scope : ReplenishmentPolicyScope)
| WorkNotClaimable (status : ReplenishmentWorkStatus)
| WorkNotReleasable (status : ReplenishmentWorkStatus)
| WorkNotConfirmable (status : ReplenishmentWorkStatus)
| WorkNotCancellable (status : ReplenishmentWorkStatus)
| InvalidCancellationNote
| CancellationNoteRequired
| DuplicateSourceBalance (inventory_balance_id : Z)
| ReserveSnapshotMismatch (unplanned_quantity : Z)
| TooManySourceBalances
| ProjectedFreeOverflow
| InconsistentProjectedFree (expected actual : Z)
| InvalidScanValue.

(** ** Newtypes *)

Definition validate_text (value : rstr) (max_length : Z) : result unit unit :=
  if bool_decide (value = []) || negb (bool_decide (trim value = value))
     || (max_length <? chars_count value) || existsb is_control value
  then Err tt else Ok tt.

Definition ReplenishmentUom_new (value : rstr) : result rstr ReplenishmentError :=
  let? _ := map_err (fun _ => InvalidUom) (validate_text value MAX_REPLENISHMENT_UOM_LENGTH) in
  Ok value.

Definition ReplenishmentScanValue_new (value : rstr) : result rstr ReplenishmentError :=
  let? _ := map_err (fun _ => InvalidScanValue)
              (validate_text value MAX_REPLENISHMENT_SCAN_VALUE_LENGTH) in
  Ok value.

Definition ReplenishmentWorkCancellationNote_new (value : rstr) : result rstr ReplenishmentError :=
  let? _ := map_err (fun _ => InvalidCancellationNote)
              (validate_text value MAX_REPLENISHMENT_CANCELLATION_NOTE_LENGTH) in
  Ok value.

Definition ReplenishmentLevel_new (value : Z) : result Z ReplenishmentError :=
  nonnegative_new NegativeLevel value.

Definition ReplenishmentMoveQuantity_new (value : Z) : result Z ReplenishmentError :=
  positive_new InvalidMoveQuantity value.

Definition ReplenishmentPolicyRevision_new (value : Z) : result Z ReplenishmentError :=
  positive_new InvalidPolicyRevision value.

Definition ReplenishmentPolicyRevision_checked_next (self : Z) : option Z :=
  revision_checked_next self.

(** ** Policies *)

Record ReplenishmentPolicyThresholds := MkThresholds {
  minimum : Z;
  target : Z;
}.

Definition ReplenishmentPolicyThresholds_new (minimum target : Z) :
    result ReplenishmentPolicyThresholds ReplenishmentError :=
  if target <=? minimum then Err (TargetNotAboveMinimum minimum target)
  else Ok (MkThresholds minimum target).

(** [Vec::dedup]: of consecutive equal elements the first is kept. *)
Fixpoint dedup (l : list Z) : list Z :=
  match l with
  | [] => []
  | x :: l' =>
      match dedup l' with
      | y :: rest => if x =? y then y :: rest else x :: y :: rest
      | [] => [x]
      end
  end.

Definition ReplenishmentReserveSourceLocationIds_new (location_ids : list Z) :
    result (list Z) ReplenishmentError :=
  let location_ids := dedup (sort_by Z.compare location_ids) in
  if bool_decide (location_ids = []) then Err EmptyReserveSourceSet else Ok location_ids.

(** [binary_search_by_key(..).is_ok()] on a vector that the constructor sorted. *)
Definition reserve_contains (self : list Z) (location_id : Z) : bool :=
  bool_decide (location_id ∈ self).

Record ReplenishmentPolicyDefinition := MkPolicyDefinition {
  policy_scope : ReplenishmentPolicyScope;
  policy_thresholds : ReplenishmentPolicyThresholds;
  reserve_source_location_ids : list Z;
}.

Definition ReplenishmentPolicyDefinition_new (scope : ReplenishmentPolicyScope)
    (thresholds : ReplenishmentPolicyThresholds) (sources : list Z) :
    result ReplenishmentPolicyDefinition ReplenishmentError :=
  if reserve_contains sources (scope_pick_face scope)
  then Err (PickFaceIsReserveSource (scope_pick_face scope))
  else Ok (MkPolicyDefinition scope thresholds sources).

(** [validate_unique_active_replenishment_policy_scopes]; the set holds references to the
    scopes themselves. *)
Definition scope_key (s : ReplenishmentPolicyScope) : Z * Z * Z * Z * rstr * Z :=
  (scope_tenant s, scope_owner s, scope_facility s, scope_item s, scope_uom s, scope_pick_face s).

Definition validate_unique_active_replenishment_policy_scopes
    (scopes : list ReplenishmentPolicyScope) : result unit ReplenishmentError :=
  match first_repeat scope_key ∅ scopes with
  | Some scope => Err (DuplicateActivePolicy scope)
  | None => Ok tt
  end.

(** ** Work *)

Definition claim (self : ReplenishmentWorkStatus) : result ReplenishmentWorkStatus ReplenishmentError :=
  match self with Pending => Ok Claimed | status => Err (WorkNotClaimable status) end.
Definition release (self : ReplenishmentWorkStatus) : result ReplenishmentWorkStatus ReplenishmentError :=
  match self with Claimed => Ok Pending | status => Err (WorkNotReleasable status) end.
Definition confirm (self : ReplenishmentWorkStatus) : result ReplenishmentWorkStatus ReplenishmentError :=
  match self with Claimed => Ok Completed | status => Err (WorkNotConfirmable status) end.
Definition cancel (self : ReplenishmentWorkStatus) : result ReplenishmentWorkStatus ReplenishmentError :=
  match self with Pending => Ok Cancelled | status => Err (WorkNotCancellable status) end.

(** ** Sources *)

Inductive ReplenishmentInventoryStatus := Available | Hold | Damaged | Quarantine.

#[global] Instance ReplenishmentInventoryStatus_eq_dec : EqDecision ReplenishmentInventoryStatus.
Proof. solve_decision. Defined.

Record ReplenishmentSourceCandidate := MkSourceCandidate {
  tenant_id : Z;
  inventory_owner_id : Z;
  facility_id : Z;
  source_location_id : Z;
  source_inventory_balance_id : Z;
  item_batch_id : Z;
  item_id : Z;
  uom : rstr;
  lot : option rstr;
  serial : option rstr;
  expiration : option Z;
  received_at : Z;
  inventory_status : ReplenishmentInventoryStatus;
  free_quantity : Z;
}.

Inductive ReplenishmentSourceIneligibility :=
| TenantMismatch
| InventoryOwnerMismatch
| FacilityMismatch
| SourceIsDestinationPickFace
| SourceNotConfigured
| ItemMismatch
| UomMismatch
| InventoryNotAvailable
| NoFreeQuantity.

(** An [EligibleReplenishmentSource] is the candidate it wraps. *)
Inductive ReplenishmentSourceEligibility :=
| Eligible (candidate : ReplenishmentSourceCandidate)
| Ineligible (reason : ReplenishmentSourceIneligibility).

Definition assess_replenishment_source (policy : ReplenishmentPolicyDefinition)
    (candidate : ReplenishmentSourceCandidate) : ReplenishmentSourceEligibility :=
  let scope := policy_scope policy in
  if negb (tenant_id candidate =? scope_tenant scope) then Ineligible TenantMismatch
  else if negb (inventory_owner_id candidate =? scope_owner scope)
  then Ineligible InventoryOwnerMismatch
  else if negb (facility_id candidate =? scope_facility scope) then Ineligible FacilityMismatch
  else if source_location_id candidate =? scope_pick_face scope
  then Ineligible SourceIsDestinationPickFace
  else if negb (reserve_contains (reserve_source_location_ids policy) (source_location_id candidate))
  then Ineligible SourceNotConfigured
  else if negb (item_id candidate =? scope_item scope) then Ineligible ItemMismatch
  else if negb (bool_decide (uom candidate = scope_uom scope)) then Ineligible UomMismatch
  else if negb (bool_decide (inventory_status candidate = Available))
  then Ineligible InventoryNotAvailable
  else if free_quantity candidate =? 0 then Ineligible NoFreeQuantity
  else Eligible candidate.

(** ** The planning decision *)

Record ReplenishmentPlanningSnapshot := MkSnapshot {
  pick_face_free : Z;
  active_inbound : Z;
  projected_free : Z;
  unallocated_demand : Z;
  reserve_free : Z;
}.

Definition ReplenishmentPlanningSnapshot_new
    (pick_face_free active_inbound unallocated_demand reserve_free : Z) :
    result ReplenishmentPlanningSnapshot ReplenishmentError :=
  let? projected_free := ok_or (i64_checked_add pick_face_free active_inbound)
                           ProjectedFreeOverflow in
  Ok (MkSnapshot pick_face_free active_inbound projected_free unallocated_demand reserve_free).

(** [Deserialize]: the stored projection must be the one its parts give. *)
Definition ReplenishmentPlanningSnapshot_deserialize (raw : ReplenishmentPlanningSnapshot) :
    result ReplenishmentPlanningSnapshot ReplenishmentError :=
  let? snapshot := ReplenishmentPlanningSnapshot_new (pick_face_free raw) (active_inbound raw)
                     (unallocated_demand raw) (reserve_free raw) in
  if negb (projected_free snapshot =? projected_free raw)
  then Err (InconsistentProjectedFree (projected_free snapshot) (projected_free raw))
  else Ok snapshot.

Inductive ReplenishmentPlanningOutcome :=
| NotNeeded | InsufficientReserve | PartiallyPlanned | FullyPlanned.

#[global] Instance ReplenishmentPlanningOutcome_eq_dec : EqDecision ReplenishmentPlanningOutcome.
Proof. solve_decision. Defined.

Record ReplenishmentPlanDecision := MkDecision {
  snapshot : ReplenishmentPlanningSnapshot;
  required_level : Z;
  target_gap : Z;
  planned : Z;
  remaining : Z;
  outcome : ReplenishmentPlanningOutcome;
}.

(** [i64::saturating_sub] *)
Definition i64_saturating_sub (a b : Z) : Z := Z.max i64_min (Z.min i64_max (a - b)).

Definition actionable (thresholds : ReplenishmentPolicyThresholds)
    (snapshot : ReplenishmentPlanningSnapshot) : bool :=
  (projected_free snapshot <? minimum thresholds)
  || (projected_free snapshot <? unallocated_demand snapshot).

Definition plan_replenishment (thresholds : ReplenishmentPolicyThresholds)
    (snapshot : ReplenishmentPlanningSnapshot) : ReplenishmentPlanDecision :=
  let actionable := actionable thresholds snapshot in
  let required_level := Z.max (target thresholds) (unallocated_demand snapshot) in
  let target_gap := if actionable then i64_saturating_sub required_level (projected_free snapshot)
                    else 0 in
  let planned := Z.min target_gap (reserve_free snapshot) in
  let remaining := i64_sub target_gap planned in
  let outcome := if negb actionable then NotNeeded
                 else if planned =? 0 then InsufficientReserve
                 else if planned <? target_gap then PartiallyPlanned
                 else FullyPlanned in
  MkDecision snapshot required_level target_gap planned remaining outcome.

(** ** The selection of sources *)

Record PlannedReplenishmentSource := MkPlannedSource {
  sequence : Z;
  ps_balance : Z;
  ps_batch : Z;
  ps_location : Z;
  ps_lot : option rstr;
  ps_serial : option rstr;
  ps_expiration : option Z;
  ps_received_at : Z;
  ps_quantity : Z;
}.

Definition compare_eligible_sources (left right : ReplenishmentSourceCandidate) : comparison :=
  then_with
    (then_with
       match expiration left, expiration right with
       | Some l, Some r => l ?= r
       | Some _, None => Lt
       | None, Some _ => Gt
       | None, None => Eq
       end
       (received_at left ?= received_at right))
    (source_inventory_balance_id left ?= source_inventory_balance_id right).

Definition planned_source (c : ReplenishmentSourceCandidate) (seq quantity : Z) :
    PlannedReplenishmentSource :=
  MkPlannedSource seq (source_inventory_balance_id c) (item_batch_id c) (source_location_id c)
    (lot c) (serial c) (expiration c) (received_at c) quantity.

(** The consuming loop; [count] is [planned.len()]. *)
Fixpoint select_loop (remaining count : Z) (sources : list ReplenishmentSourceCandidate) :
    result (Z * list PlannedReplenishmentSource) ReplenishmentError :=
  match sources with
  | [] => Ok (remaining, [])
  | candidate :: rest =>
      if remaining =? 0 then Ok (remaining, [])
      else
        let quantity := Z.min remaining (free_quantity candidate) in
        let? seq := ok_or (checked 0 u32_max (count + 1)) TooManySourceBalances in
        let? (remaining', tail) := select_loop (i64_sub remaining quantity) (count + 1) rest in
        Ok (remaining', planned_source candidate seq quantity :: tail)
  end.

Definition select_replenishment_sources (decision : ReplenishmentPlanDecision)
    (sources : list ReplenishmentSourceCandidate) :
    result (list PlannedReplenishmentSource) ReplenishmentError :=
  if planned decision =? 0 then Ok []
  else
    match first_repeat source_inventory_balance_id ∅ sources with
    | Some source => Err (DuplicateSourceBalance (source_inventory_balance_id source))
    | None =>
        let? (remaining, work) :=
          select_loop (planned decision) 0 (sort_by compare_eligible_sources sources) in
        if negb (remaining =? 0) then Err (ReserveSnapshotMismatch remaining) else Ok work
    end.

(** ** The order of sources *)

Definition compare_expirations (l r : option Z) : comparison :=
  match l, r with
  | Some l, Some r => l ?= r
  | Some _, None => Lt
  | None, Some _ => Gt
  | None, None => Eq
  end.

#[export] Instance compare_expirations_ord : OrdCmp compare_expirations.
Proof.
  split.
  - intros [x|] [y|]; cbn; try done. apply (cmp_sym Z.compare).
  - intros [x|] [y|] [z|]; cbn; try done. apply (cmp_le_trans Z.compare).
Qed.

#[export] Instance compare_eligible_sources_ord : OrdCmp compare_eligible_sources.
Proof.
  exact (then_with_ord
    (fun x y => then_with (compare_expirations (expiration x) (expiration y))
                  (received_at x ?= received_at y))
    (fun x y => source_inventory_balance_id x ?= source_inventory_balance_id y)).
Qed.

Lemma compare_eligible_sources_eq x y :
  compare_eligible_sources x y = Eq →
  source_inventory_balance_id x = source_inventory_balance_id y.
Proof.
  unfold compare_eligible_sources. intros E. apply Z.compare_eq_iff.
  repeat match type of E with context [then_with ?a _] => destruct a eqn:?; cbn in E; try done end.
Qed.

Lemma sort_sources_invariant l l' :
  NoDup (source_inventory_balance_id <$> l) → l ≡ₚ l' →
  sort_by compare_eligible_sources l = sort_by compare_eligible_sources l'.
Proof.
  intros Hnd Hperm. apply sort_by_perm_invariant; [apply _| |done].
  intros x y Hx Hy E%compare_eligible_sources_eq.
  by apply (NoDup_fmap_inj_on source_inventory_balance_id l).
Qed.

(** ** The loop against a reference definition

    Number the sources in their order, give each the stock that comes before it, keep those
    that begin before the planned quantity is reached. *)

Definition supply (l : list ReplenishmentSourceCandidate) : Z := zsum (free_quantity <$> l).

Fixpoint running (seq before : Z) (l : list ReplenishmentSourceCandidate) :
    list (Z * Z * ReplenishmentSourceCandidate) :=
  match l with
  | [] => []
  | c :: rest => (seq, before, c) :: running (seq + 1) (before + free_quantity c) rest
  end.

Definition reference_sources (planned seq before : Z) (l : list ReplenishmentSourceCandidate) :
    list PlannedReplenishmentSource :=
  (fun '(n, b, c) => planned_source c n (Z.min (free_quantity c) (planned - b)))
    <$> List.filter (fun '(n, b, c) => b <? planned) (running seq before l).

Definition stocked_sources (l : list ReplenishmentSourceCandidate) : Prop :=
  Forall (fun c => 0 < free_quantity c) l.

Lemma supply_cons c l : supply (c :: l) = free_quantity c + supply l.
Proof. done. Qed.

Lemma reserve_supply_nonneg l : stocked_sources l → 0 ≤ supply l.
Proof. induction 1; rewrite ?supply_cons; [done|]. lia. Qed.

Lemma reference_cons p seq before c l :
  reference_sources p seq before (c :: l) =
    (if before <? p then [planned_source c seq (Z.min (free_quantity c) (p - before))] else [])
    ++ reference_sources p (seq + 1) (before + free_quantity c) l.
Proof. unfold reference_sources. cbn. by destruct (before <? p). Qed.

Lemma reference_exhausted p seq before l :
  stocked_sources l → p ≤ before → reference_sources p seq before l = [].
Proof.
  intros Hl. revert seq before. induction Hl as [|c l Hc _ IH]; intros seq before Hb; [done|].
  rewrite reference_cons. replace (before <? p) with false by (symmetry; apply Z.ltb_ge; lia).
  apply IH. lia.
Qed.

Lemma select_loop_reference p count before l :
  stocked_sources l → 0 ≤ before ≤ p → p ≤ i64_max → 0 ≤ count →
  count + Z.of_nat (length l) ≤ u32_max →
  select_loop (p - before) count l =
    Ok (Z.max 0 (p - before - supply l), reference_sources p (count + 1) before l).
Proof.
  intros Hl. revert count before.
  induction Hl as [|c l Hc Hl IH]; intros count before Hb Hp Hc0 Hlen.
  { cbn. do 2 f_equal. unfold supply. cbn. lia. }
  pose proof (reserve_supply_nonneg l Hl) as Hs. cbn [length] in Hlen. cbn [select_loop].
  rewrite reference_cons, supply_cons. destruct (Z.eqb_spec (p - before) 0) as [E|E].
  - rewrite (proj2 (Z.ltb_ge before p)), reference_exhausted by (done || lia).
    do 2 f_equal. lia.
  - rewrite (proj2 (Z.ltb_lt before p)), checked_in by (range_lia || lia). cbn [ok_or rbind].
    unfold i64_sub. rewrite wrap_i64_id by range_lia.
    destruct (Z.le_gt_cases (p - before) (free_quantity c)) as [Hle|Hgt].
    + replace (p - before - Z.min (p - before) (free_quantity c)) with (p - p) by lia.
      rewrite (IH (count + 1) p) by lia. cbn [rbind app].
      rewrite !reference_exhausted by (done || lia). do 2 f_equal; [lia|do 2 f_equal; lia].
    + replace (p - before - Z.min (p - before) (free_quantity c))
        with (p - (before + free_quantity c)) by lia.
      rewrite IH by lia. cbn [rbind app]. do 2 f_equal; [lia|do 2 f_equal; lia].
Qed.

Lemma reference_total p seq before l :
  stocked_sources l → before ≤ p →
  zsum (ps_quantity <$> reference_sources p seq before l) = Z.min (supply l) (p - before).
Proof.
  intros Hl. revert seq before. induction Hl as [|c l Hc Hl IH]; intros seq before Hb.
  { cbn. unfold supply. cbn. lia. }
  pose proof (reserve_supply_nonneg l Hl).
  rewrite reference_cons, fmap_app, zsum_app, supply_cons.
  destruct (Z.ltb_spec before p).
  - cbn [fmap list_fmap planned_source ps_quantity]. change (zsum [?x]) with (x + 0).
    destruct (Z.le_gt_cases (before + free_quantity c) p).
    + rewrite IH by lia. cbn. lia.
    + rewrite reference_exhausted by (done || lia). cbn. lia.
  - rewrite reference_exhausted by (done || lia). cbn. lia.
Qed.

Lemma reference_length p seq before l :
  (length (reference_sources p seq before l) ≤ length l)%nat.
Proof.
  revert seq before. induction l as [|c l IH]; intros seq before; [done|].
  rewrite reference_cons, length_app. specialize (IH (seq + 1) (before + free_quantity c)).
  destruct (before <? p); cbn [length]; lia.
Qed.

(** What is selected is a prefix of the order: every source but the last is emptied. *)
Lemma reference_prefix p seq before l :
  stocked_sources l → before < p →
  ∃ taken rest, l = taken ++ rest ∧
    reference_sources p seq before l = reference_sources p seq before taken ∧
    length (reference_sources p seq before taken) = length taken ∧
    (∀ pre c post, taken = pre ++ c :: post →
       reference_sources p seq before taken !! length pre =
         Some (planned_source c (seq + Z.of_nat (length pre))
                 (if bool_decide (post = []) then Z.min (free_quantity c) (p - before - supply pre)
                  else free_quantity c)) ∧ before + supply pre < p).
Proof.
  intros Hl. revert seq before. induction Hl as [|c l Hc Hl IH]; intros seq before Hb.
  { exists [], []. split_and!; [done..|]. intros pre c post E. by destruct pre. }
  destruct (Z.lt_ge_cases (before + free_quantity c) p) as [Hlt|Hge].
  - destruct (IH (seq + 1) (before + free_quantity c) Hlt) as (taken & rest & -> & E & Hlen & Hall).
    exists (c :: taken), rest. rewrite !reference_cons, (proj2 (Z.ltb_lt _ _) Hb), E.
    cbn [app length]. split_and!; [done|done|by rewrite Hlen|].
    intros pre d post Ed. destruct pre as [|d' pre]; cbn in Ed; simplify_eq.
    + cbn [length lookup list_lookup]. unfold supply; cbn -[Z.min].
      split; [|lia]. do 2 f_equal; [lia|]. case_bool_decide; lia.
    + destruct (Hall pre d post eq_refl) as [Hd Hbd]. rewrite supply_cons in *. cbn [length].
      split; [|lia]. rewrite lookup_cons, Hd. do 2 f_equal; [lia|].
      case_bool_decide; [f_equal; lia|done].
  - exists [c], l. rewrite !reference_cons, (proj2 (Z.ltb_lt _ _) Hb).
    rewrite reference_exhausted by (done || lia). split_and!; [done|done|done|].
    intros pre d post Ed. destruct pre as [|? [|]]; cbn in Ed; simplify_eq.
    cbn [length lookup list_lookup app]. unfold supply; cbn -[Z.min]. split; [|lia].
    do 2 f_equal; [lia|]. f_equal. lia.
Qed.

(** ** Decision and selection together *)

Definition thresholds_ok (t : ReplenishmentPolicyThresholds) : Prop :=
  0 ≤ minimum t < target t ∧ target t ≤ i64_max.

Definition snapshot_ok (s : ReplenishmentPlanningSnapshot) : Prop :=
  nonneg_i64 (pick_face_free s) ∧ nonneg_i64 (active_inbound s) ∧ nonneg_i64 (projected_free s) ∧
  nonneg_i64 (unallocated_demand s) ∧ nonneg_i64 (reserve_free s) ∧
  projected_free s = pick_face_free s + active_inbound s.

Lemma snapshot_new_ok a b c d s :
  nonneg_i64 a → nonneg_i64 b → nonneg_i64 c → nonneg_i64 d →
  ReplenishmentPlanningSnapshot_new a b c d = Ok s →
  s = MkSnapshot a b (a + b) c d ∧ snapshot_ok s.
Proof.
  unfold ReplenishmentPlanningSnapshot_new, i64_checked_add. intros Ha Hb Hc Hd H. run H.
  apply checked_Some in E as [-> ?]. split; [done|]. unfold snapshot_ok. cbn. range_lia.
Qed.

(** The decision in plain arithmetic. *)
Lemma plan_replenishment_spec t s :
  thresholds_ok t → snapshot_ok s →
  let d := plan_replenishment t s in
  let required := Z.max (target t) (unallocated_demand s) in
  let gap := if actionable t s then required - projected_free s else 0 in
  d = MkDecision s required gap (Z.min gap (reserve_free s)) (gap - Z.min gap (reserve_free s))
        (if actionable t s then
           if reserve_free s =? 0 then InsufficientReserve
           else if reserve_free s <? gap then PartiallyPlanned else FullyPlanned
         else NotNeeded) ∧
  (actionable t s = true → 0 < gap) ∧ 0 ≤ gap ≤ i64_max.
Proof.
  intros Ht Hs d required gap. unfold thresholds_ok, snapshot_ok in *. destruct_and!.
  assert (Hgap : actionable t s = true → 0 < gap).
  { intros Ha. unfold gap, required. rewrite Ha. unfold actionable in Ha. bool_to_prop.
    destruct Ha; bool_to_prop; lia. }
  assert (0 ≤ gap ≤ i64_max).
  { destruct (actionable t s); [specialize (Hgap eq_refl); unfold gap, required in *; range_lia|].
    unfold gap. range_lia. }
  split_and!; [|done|lia|lia]. unfold d, plan_replenishment. fold required.
  assert (Hg : (if actionable t s then i64_saturating_sub required (projected_free s) else 0) = gap).
  { unfold gap. destruct (actionable t s); [|done]. unfold i64_saturating_sub, required in *. range_lia. }
  rewrite Hg. unfold i64_sub. rewrite wrap_i64_id by range_lia. f_equal.
  destruct (actionable t s); cbn [negb]; [|done]. specialize (Hgap eq_refl).
  destruct (Z.eqb_spec (reserve_free s) 0), (Z.eqb_spec (Z.min gap (reserve_free s)) 0),
    (Z.ltb_spec (Z.min gap (reserve_free s)) gap), (Z.ltb_spec (reserve_free s) gap); try done;
    exfalso; range_lia.
Qed.

Lemma reference_sequences p seq before l :
  stocked_sources l →
  sequence <$> reference_sources p seq before l =
    seqZ seq (Z.of_nat (length (reference_sources p seq before l))).
Proof.
  intros Hl. revert seq before. induction Hl as [|c l Hc Hl IH]; intros seq before; [done|].
  rewrite reference_cons. destruct (Z.ltb_spec before p).
  - cbn [app fmap list_fmap length]. rewrite IH, (seqZ_cons seq) by lia. cbn [planned_source sequence].
    do 2 f_equal; lia.
  - rewrite reference_exhausted by (done || lia). done.
Qed.

Lemma running_elem n b c seq before l :
  stocked_sources l → (n, b, c) ∈ running seq before l → c ∈ l ∧ seq ≤ n.
Proof.
  intros Hl. revert seq before. induction Hl as [|x l Hx Hl IH]; intros seq before; cbn; [set_solver|].
  intros [[= -> -> ->]|H]%elem_of_cons; [split; [set_solver|lia]|].
  apply IH in H as [? ?]. split; [set_solver|lia].
Qed.

(** Each piece of work is a positive part of a source. *)
Lemma reference_elem p seq before l w :
  stocked_sources l → w ∈ reference_sources p seq before l →
  ∃ c, c ∈ l ∧ w = planned_source c (sequence w) (ps_quantity w) ∧
    0 < ps_quantity w ≤ free_quantity c ∧ seq ≤ sequence w.
Proof.
  intros Hl ([[n b] c] & -> & [Hin Hb]%elem_of_filter_bool)%list_elem_of_fmap. bool_to_prop.
  apply running_elem in Hin as [Hin Hn]; [|done]. exists c. cbn.
  unfold stocked_sources in Hl. rewrite Forall_forall in Hl. specialize (Hl c Hin). split_and!; try done; lia.
Qed.

Lemma reference_balances p seq before l :
  ps_balance <$> reference_sources p seq before l `sublist_of` source_inventory_balance_id <$> l.
Proof.
  revert seq before. induction l as [|c l IH]; intros seq before; [done|].
  rewrite reference_cons, fmap_app, fmap_cons. destruct (before <? p); cbn [fmap list_fmap app];
    [by constructor|by apply sublist_cons].
Qed.

(** What a successful selection of [planned] units from [sources] is. *)
Definition selected (planned : Z) (sources : list ReplenishmentSourceCandidate)
    (work : list PlannedReplenishmentSource) : Prop :=
  zsum (ps_quantity <$> work) = planned ∧
  sequence <$> work = seqZ 1 (Z.of_nat (length work)) ∧
  ∃ taken rest, sort_by compare_eligible_sources sources = taken ++ rest ∧
    length work = length taken ∧
    ∀ pre c post, taken = pre ++ c :: post →
      work !! length pre =
        Some (planned_source c (1 + Z.of_nat (length pre))
                (if bool_decide (post = []) then planned - supply pre else free_quantity c)) ∧
      supply pre < planned.

Lemma select_replenishment_sources_ok d sources :
  stocked_sources sources → NoDup (source_inventory_balance_id <$> sources) →
  0 ≤ planned d ≤ supply sources → planned d ≤ i64_max → Z.of_nat (length sources) ≤ u32_max →
  select_replenishment_sources d sources =
    Ok (reference_sources (planned d) 1 0 (sort_by compare_eligible_sources sources)).
Proof.
  intros Hst Hnd Hp Hmax Hlen. unfold select_replenishment_sources.
  assert (Hperm : sort_by compare_eligible_sources sources ≡ₚ sources) by apply sort_by_perm.
  assert (Hst' : stocked_sources (sort_by compare_eligible_sources sources))
    by (unfold stocked_sources; by rewrite Hperm).
  destruct (Z.eqb_spec (planned d) 0) as [E|E].
  { rewrite E, reference_exhausted; [done|done|lia]. }
  rewrite (proj2 (first_repeat_None _ _ _)) by set_solver.
  replace (planned d) with (planned d - 0) at 1 by lia.
  rewrite select_loop_reference; [|done|lia|lia|lia|rewrite Hperm; lia]. cbn [rbind].
  assert (supply (sort_by compare_eligible_sources sources) = supply sources) as ->
    by (apply zsum_perm; by rewrite Hperm).
  by replace (Z.max 0 (planned d - 0 - supply sources)) with 0 by lia.
Qed.

(** A loop that ends without an error did what the reference says. *)
Lemma select_loop_inv p count before l r w :
  stocked_sources l → 0 ≤ before ≤ p → p ≤ i64_max →
  select_loop (p - before) count l = Ok (r, w) →
  r = Z.max 0 (p - before - supply l) ∧ w = reference_sources p (count + 1) before l.
Proof.
  intros Hl. revert count before r w.
  induction Hl as [|c l Hc Hl IH]; intros count before r w Hb Hp H.
  { cbn in H. simplify_eq. unfold supply. cbn. split; [lia|done]. }
  pose proof (reserve_supply_nonneg l Hl). cbn [select_loop] in H. rewrite reference_cons, supply_cons.
  destruct (Z.eqb_spec (p - before) 0) as [E|E].
  - simplify_eq. rewrite (proj2 (Z.ltb_ge before p)), reference_exhausted by (done || lia).
    split; [lia|done].
  - apply rbind_ok in H as (seq & Hseq & H). apply rbind_ok in H as ([r' w'] & Hrec & H).
    destruct (checked 0 u32_max (count + 1)) as [v|] eqn:Ev; [|done].
    apply checked_Some in Ev as [-> Hv]. cbn in Hseq, H. simplify_eq.
    unfold i64_sub in Hrec. rewrite wrap_i64_id in Hrec by range_lia.
    rewrite (proj2 (Z.ltb_lt before p)) by lia. cbn [app].
    destruct (Z.le_gt_cases (p - before) (free_quantity c)) as [Hle|Hgt].
    + replace (p - before - Z.min (p - before) (free_quantity c)) with (p - p) in Hrec by lia.
      apply (IH (count + 1) p) in Hrec as [-> ->]; [|lia|lia].
      rewrite !reference_exhausted by (done || lia). split; [lia|do 2 f_equal; lia].
    + replace (p - before - Z.min (p - before) (free_quantity c))
        with (p - (before + free_quantity c)) in Hrec by lia.
      apply IH in Hrec as [-> ->]; [|lia|lia]. split; [lia|do 2 f_equal; lia].
Qed.

Lemma select_replenishment_sources_inv d sources work :
  stocked_sources sources → 0 ≤ planned d ≤ i64_max →
  select_replenishment_sources d sources = Ok work →
  planned d ≤ supply sources ∧
  work = reference_sources (planned d) 1 0 (sort_by compare_eligible_sources sources).
Proof.
  intros Hst Hp. unfold select_replenishment_sources.
  assert (Hperm : sort_by compare_eligible_sources sources ≡ₚ sources) by apply sort_by_perm.
  assert (Hst' : stocked_sources (sort_by compare_eligible_sources sources))
    by (unfold stocked_sources; by rewrite Hperm).
  assert (Hsup : supply (sort_by compare_eligible_sources sources) = supply sources)
    by (apply zsum_perm; by rewrite Hperm).
  pose proof (reserve_supply_nonneg _ Hst).
  destruct (Z.eqb_spec (planned d) 0) as [E|E].
  { intros [= <-]. rewrite E, reference_exhausted by (done || lia). split; [lia|done]. }
  destruct (first_repeat _ _ _); [done|]. intros H'. apply rbind_ok in H' as ([r w] & Hl & H').
  replace (planned d) with (planned d - 0) in Hl at 1 by lia.
  apply select_loop_inv in Hl as [-> ->]; [|done|lia|lia]. rewrite Hsup in H'.
  destruct (Z.eqb_spec (Z.max 0 (planned d - 0 - supply sources)) 0); [|done].
  cbn in H'. simplify_eq. split; [lia|done].
Qed.

Lemma reference_selected p sources :
  stocked_sources sources → 0 ≤ p ≤ supply sources →
  selected p sources (reference_sources p 1 0 (sort_by compare_eligible_sources sources)).
Proof.
  intros Hst Hp.
  assert (Hperm : sort_by compare_eligible_sources sources ≡ₚ sources) by apply sort_by_perm.
  set (l := sort_by compare_eligible_sources sources) in *.
  assert (Hst' : stocked_sources l) by (unfold stocked_sources; by rewrite Hperm).
  assert (Hsup : supply l = supply sources) by (apply zsum_perm; by rewrite Hperm).
  assert (Htot := reference_total p 1 0 l Hst' ltac:(lia)).
  split; [rewrite Htot; lia|]. split; [by apply reference_sequences|]. fold l.
  destruct (Z.eq_dec p 0) as [->|Hne].
  { rewrite reference_exhausted by (done || lia). exists [], l. split_and!; [done..|].
    intros pre c post E. by destruct pre. }
  destruct (reference_prefix p 1 0 l Hst' ltac:(lia)) as (taken & rest & El & Er & Hlen & Hall).
  exists taken, rest. split_and!; [done|by rewrite Er|].
  intros pre c post E. destruct (Hall pre c post E) as [Hc Hlt].
  rewrite Er, Hc. split; [|lia]. do 2 f_equal. case_bool_decide; [|done].
  rewrite Er in Htot. subst post taken.
  assert (Hst2 : stocked_sources (pre ++ [c])).
  { unfold stocked_sources in *. rewrite El in Hst'. by apply Forall_app in Hst' as [? _]. }
  rewrite reference_total in Htot by (done || lia).
  assert (supply (pre ++ [c]) = supply pre + free_quantity c).
  { unfold supply. rewrite fmap_app, zsum_app. cbn. lia. }
  lia.
Qed.

(** C15. A replenishment plan fills the pick face in rotation order and never above its
    level: with the facts of a snapshot whose reserve is the stock of the eligible sources,
    the selection succeeds; the work adds up to the planned quantity, is numbered from one,
    and empties the sources in order of expiry, receipt and balance, all but the last of
    them completely; the projected stock with the work stays within the required level,
    reaches it when the plan is full, and otherwise uses up the reserve; nothing is planned
    when the projected stock covers both minimum and demand; the order in which the sources
    are listed does not matter. *)
Theorem replenishment_fills_in_rotation t s sources sources' :
  thresholds_ok t → snapshot_ok s → stocked_sources sources →
  NoDup (source_inventory_balance_id <$> sources) → Z.of_nat (length sources) ≤ u32_max →
  supply sources = reserve_free s → sources ≡ₚ sources' →
  let d := plan_replenishment t s in
  ∃ work, select_replenishment_sources d sources = Ok work ∧
    select_replenishment_sources d sources' = Ok work ∧
    selected (planned d) sources work ∧
    planned d + remaining d = target_gap d ∧
    (work = [] ↔ planned d = 0) ∧
    (work ≠ [] → projected_free s + planned d ≤ required_level d) ∧
    match outcome d with
    | NotNeeded => minimum t ≤ projected_free s ∧ unallocated_demand s ≤ projected_free s ∧ planned d = 0
    | InsufficientReserve => sources = [] ∧ planned d = 0 ∧ projected_free s < required_level d
    | PartiallyPlanned => planned d = supply sources ∧ projected_free s + planned d < required_level d
    | FullyPlanned => projected_free s + planned d = required_level d
    end.
Proof.
  intros Ht Hs Hst Hnd Hlen Hsup Hperm d.
  destruct (plan_replenishment_spec t s Ht Hs) as (Ed & Hpos & Hgap). fold d in Ed.
  set (gap := if actionable t s then _ else _) in *.
  assert (Hsupp := reserve_supply_nonneg _ Hst).
  assert (Hp : planned d = Z.min gap (reserve_free s)) by by rewrite Ed.
  assert (Hp0 : 0 ≤ planned d ≤ supply sources) by (rewrite Hp; lia).
  exists (reference_sources (planned d) 1 0 (sort_by compare_eligible_sources sources)).
  split; [apply select_replenishment_sources_ok; try done; lia|].
  split.
  { rewrite (sort_sources_invariant sources sources') by done.
    assert (supply sources' = supply sources) by (apply zsum_perm; by rewrite Hperm).
    apply select_replenishment_sources_ok; [|by rewrite <-Hperm|lia|lia|by rewrite <-Hperm].
    unfold stocked_sources. by rewrite <-Hperm. }
  assert (Hsel := reference_selected _ _ Hst Hp0).
  split; [done|]. split; [rewrite Ed; cbn; lia|].
  assert (Hnil : reference_sources (planned d) 1 0 (sort_by compare_eligible_sources sources) = [] ↔
                 planned d = 0).
  { destruct Hsel as (Htot & _). split; [intros E; by rewrite E in Htot|intros E].
    rewrite E. apply reference_exhausted; [|lia]. unfold stocked_sources. by rewrite sort_by_perm. }
  split; [done|]. rewrite Hnil.
  assert (Hempty : reserve_free s = 0 → sources = []).
  { intros E. destruct Hst as [|c l Hc Hl]; [done|]. pose proof (reserve_supply_nonneg _ Hl).
    rewrite supply_cons in Hsup. lia. }
  assert (Hact : actionable t s = true → gap = required_level d - projected_free s)
    by (intros Ha; rewrite Ed; unfold gap; by rewrite Ha).
  assert (Hnot : actionable t s = false → gap = 0 ∧ minimum t ≤ projected_free s ∧
                   unallocated_demand s ≤ projected_free s).
  { intros Ha. unfold gap. rewrite Ha. unfold actionable in Ha. bool_to_prop. done. }
  assert (Ho : outcome d = if actionable t s then
           if reserve_free s =? 0 then InsufficientReserve
           else if reserve_free s <? gap then PartiallyPlanned else FullyPlanned
         else NotNeeded) by by rewrite Ed.
  rewrite Ho, Hp. destruct (actionable t s).
  - specialize (Hpos eq_refl). specialize (Hact eq_refl). split; [lia|].
    destruct (Z.eqb_spec (reserve_free s) 0) as [E|E]; [split_and!; [by apply Hempty|lia|lia]|].
    destruct (Z.ltb_spec (reserve_free s) gap); lia.
  - destruct (Hnot eq_refl) as (-> & ? & ?). split; [lia|]. lia.
Qed.

(** Three sources for a pick face with 2 units of 10 (minimum 5) and a demand of 12: the
    source that expires first is emptied, then the older of the others. *)
Lemma replenishment_fills_in_rotation_witness :
  ∃ work, select_replenishment_sources
      (plan_replenishment (MkThresholds 5 10) (MkSnapshot 2 0 2 12 20))
      [MkSourceCandidate 1 1 1 2 7 1 1 [] None None None 5 Available 9;
       MkSourceCandidate 1 1 1 3 8 1 1 [] None None (Some 40) 9 Available 4;
       MkSourceCandidate 1 1 1 4 9 1 1 [] None None None 6 Available 7] = Ok work ∧
    zsum (ps_quantity <$> work) = 10.
Proof.
  set (l := [MkSourceCandidate 1 1 1 2 7 1 1 [] None None None 5 Available 9; _; _]).
  destruct (replenishment_fills_in_rotation (MkThresholds 5 10) (MkSnapshot 2 0 2 12 20) l l)
    as (work & Hw & _ & (Hsum & _) & _); try done.
  - repeat constructor.
  - apply (bool_decide_eq_true_1 _). by vm_compute.
  - exists work. split; [done|exact Hsum].
Defined.
