(* ===== verification/ReplenishmentPolicy.v ===== *)
(** * Effective replenishment policies
      ([crates/application/src/replenishment_decision_policy.rs],
       [crates/api/src/repo/replenishment/decision_policy.rs])

    A pick face is planned with the thresholds of its operational policy, or with those
    that a configured percentage rule derives from the operational target. The derivation,
    its evidence with a hash, and the query that resolves the rule in force. The digest,
    [hex::encode] of SHA-256, is an argument. *)

From stdpp Require Import pretty.
From Stdlib Require Import Btauto.
From S2P Require Import Prelude.
From S2P Require Import RustStr.
From S2P Require Import Configuration.
From S2P Require Import Replenishment.

Inductive ReplenishmentDecisionPolicySource := ProductDefault | FromConfiguration.

#[global] Instance ReplenishmentDecisionPolicySource_eq_dec :
  EqDecision ReplenishmentDecisionPolicySource.
Proof. solve_decision. Defined.

Definition DecisionPolicySource_as_str (self : ReplenishmentDecisionPolicySource) : string :=
  match self with ProductDefault => "product_default" | FromConfiguration => "configuration" end.

Record ReplenishmentDecisionPolicyReadModel := MkDecisionPolicy {
  dp_source : ReplenishmentDecisionPolicySource;
  dp_configuration_id : option Z;
  dp_configuration_revision : option Z;
  dp_configuration_scope : option ConfigurationScope;
  dp_minimum_percent : option Z;
  dp_target_percent : option Z;
  include_inbound_projection : bool;
  operational_minimum : Z;
  operational_target : Z;
  effective_minimum : Z;
  effective_target : Z;
  policy_hash : rstr;
}.

Inductive ReplenishmentDecisionPolicyError :=
| WrongConfigurationKind
| InvalidConfigurationRevision
| InvalidConfiguration (e : ConfigurationError)
| QuantityOverflow
| InvalidEffectiveLevel (e : ReplenishmentError)
| InvalidEffectiveThresholds (e : ReplenishmentError).

(** [i64::try_from] of an [i128], then [ReplenishmentLevel::new]. Division of [i128] rounds
    towards zero. *)
Definition level_of_i128 (value : Z) : result Z ReplenishmentDecisionPolicyError :=
  let? value := ok_or (checked i64_min i64_max value) QuantityOverflow in
  map_err InvalidEffectiveLevel (ReplenishmentLevel_new value).

Definition percentage_floor (quantity percent : Z) : result Z ReplenishmentDecisionPolicyError :=
  let? product := ok_or (i128_checked_mul quantity percent) QuantityOverflow in
  level_of_i128 (Z.quot product 100).

Definition percentage_ceil (quantity percent : Z) : result Z ReplenishmentDecisionPolicyError :=
  let? numerator := ok_or (match i128_checked_mul quantity percent with
                           | Some value => i128_checked_add value 99
                           | None => None
                           end) QuantityOverflow in
  level_of_i128 (Z.quot numerator 100).

Definition scope_hash_component (scope : ConfigurationScope) : string :=
  match scope with
  | TenantScope => "tenant"
  | OwnerScope owner => "inventory_owner:" +:+ pretty owner
  | FacilityScope facility => "facility:" +:+ pretty facility
  | OwnerFacilityScope owner facility =>
      "owner_facility:" +:+ pretty owner +:+ ":" +:+ pretty facility
  end.

Section evidence.
Context (digest : list Z → rstr).

(** What is fed to the digest, chunk after chunk. *)
Definition policy_preimage (policy : ReplenishmentDecisionPolicyReadModel) : rstr :=
  lit "replenishment-decision-policy-v1|" ++ lit (DecisionPolicySource_as_str (dp_source policy))
  ++ ([dp_configuration_id policy; dp_configuration_revision policy; dp_minimum_percent policy;
       dp_target_percent policy; Some (operational_minimum policy);
       Some (operational_target policy); Some (effective_minimum policy);
       Some (effective_target policy)]
        ≫= fun value => lit "|" ++ from_option (fun v => lit (pretty v)) (lit "-") value)
  ++ lit "|" ++ lit (if include_inbound_projection policy then "true" else "false")
  ++ lit "|" ++ lit (from_option scope_hash_component "-" (dp_configuration_scope policy)).

Definition replenishment_decision_policy_hash (policy : ReplenishmentDecisionPolicyReadModel) : rstr :=
  digest (as_bytes (policy_preimage policy)).

(** [value.policy_hash = replenishment_decision_policy_hash(&value)], the field being empty
    before. *)
Definition with_hash (value : rstr → ReplenishmentDecisionPolicyReadModel) :
    ReplenishmentDecisionPolicyReadModel :=
  value (replenishment_decision_policy_hash (value [])).

Definition product_default (operational : ReplenishmentPolicyThresholds) :
    ReplenishmentDecisionPolicyReadModel :=
  with_hash (MkDecisionPolicy ProductDefault None None None None None true
    (minimum operational) (target operational) (minimum operational) (target operational)).

Definition from_configuration (configuration_id configuration_revision : Z)
    (scope : ConfigurationScope) (definition : DecisionRuleDefinition)
    (operational : ReplenishmentPolicyThresholds) :
    result ReplenishmentDecisionPolicyReadModel ReplenishmentDecisionPolicyError :=
  if configuration_revision <=? 0 then Err InvalidConfigurationRevision
  else
    match definition with
    | ReplenishmentRule minimum_percent target_percent include =>
        let? _ := map_err InvalidConfiguration (DecisionRuleDefinition_validate definition) in
        let? low := percentage_floor (target operational) minimum_percent in
        let? high := percentage_ceil (target operational) target_percent in
        let? _ := map_err InvalidEffectiveThresholds (ReplenishmentPolicyThresholds_new low high) in
        Ok (with_hash (MkDecisionPolicy FromConfiguration (Some configuration_id)
              (Some configuration_revision) (Some scope) (Some minimum_percent)
              (Some target_percent) include (minimum operational) (target operational) low high))
    | _ => Err WrongConfigurationKind
    end.

Definition effective_thresholds (self : ReplenishmentDecisionPolicyReadModel) :
    result ReplenishmentPolicyThresholds ReplenishmentError :=
  ReplenishmentPolicyThresholds_new (effective_minimum self) (effective_target self).

(** [.ok() == Some(level)] *)
Definition gives (r : result Z ReplenishmentDecisionPolicyError) (level : Z) : bool :=
  match r with Ok v => v =? level | Err _ => false end.

Definition is_consistent (self : ReplenishmentDecisionPolicyReadModel) : bool :=
  bool_decide (policy_hash self = replenishment_decision_policy_hash self)
  && is_ok (effective_thresholds self)
  && is_ok (ReplenishmentPolicyThresholds_new (operational_minimum self) (operational_target self))
  && match dp_source self with
     | ProductDefault =>
         bool_decide (dp_configuration_id self = None)
         && bool_decide (dp_configuration_revision self = None)
         && bool_decide (dp_configuration_scope self = None)
         && bool_decide (dp_minimum_percent self = None)
         && bool_decide (dp_target_percent self = None)
         && include_inbound_projection self
         && (effective_minimum self =? operational_minimum self)
         && (effective_target self =? operational_target self)
     | FromConfiguration =>
         bool_decide (is_Some (dp_configuration_id self))
         && match dp_configuration_revision self with Some r => 0 <? r | None => false end
         && bool_decide (is_Some (dp_configuration_scope self))
         && match dp_minimum_percent self, dp_target_percent self with
            | Some low, Some high =>
                (low <? high) && (high <=? 100)
                && gives (percentage_floor (operational_target self) low) (effective_minimum self)
                && gives (percentage_ceil (operational_target self) high) (effective_target self)
            | _, _ => false
            end
     end.

(** ** The rule in force *)

(** A row of [configuration_versions] of kind ['replenishment']. The scope columns are the
    scope that [configuration_scope] decodes them to, which their CHECK constraint
    determines, and the JSON of [definition] is the rule it decodes to; the identity is
    generated, hence positive. *)
Record ConfigurationRow := MkConfigurationRow {
  cfg_revision : Z;
  cfg_scope : ConfigurationScope;
  cfg_status : ConfigurationStatus;
  cfg_activated_at : option Z;
  cfg_window : ConfigurationEffectiveWindow;
  cfg_definition : DecisionRuleDefinition;
}.

Definition configuration_applies (owner facility at_ : Z) (c : ConfigurationRow) : bool :=
  bool_decide (cfg_status c = ActiveConfiguration)
  && match cfg_activated_at c with Some activated => activated <=? at_ | None => false end
  && (effective_from (cfg_window c) <=? at_)
  && match effective_until (cfg_window c) with Some until => at_ <? until | None => true end
  && match cfg_scope c with
     | TenantScope => true
     | OwnerScope o => o =? owner
     | FacilityScope f => f =? facility
     | OwnerFacilityScope o f => (o =? owner) && (f =? facility)
     end.

(** [ORDER BY CASE scope_level .. END DESC, effective_from DESC, revision DESC, id DESC] *)
Definition configuration_order (x y : Z * ConfigurationRow) : comparison :=
  then_with
    (then_with
       (then_with (specificity (cfg_scope y.2) ?= specificity (cfg_scope x.2))
          (effective_from (cfg_window y.2) ?= effective_from (cfg_window x.2)))
       (cfg_revision y.2 ?= cfg_revision x.2))
    (y.1 ?= x.1).

Definition resolved_configuration (rows : gmap Z ConfigurationRow) (owner facility at_ : Z) :
    option (Z * ConfigurationRow) :=
  head (sort_by configuration_order
          (List.filter (fun '(_, c) => configuration_applies owner facility at_ c)
             (map_to_list rows))).

Definition resolve_decision_policy_tx (rows : gmap Z ConfigurationRow)
    (policy : ReplenishmentPolicyDefinition) (effective_at : Z) :
    result ReplenishmentDecisionPolicyReadModel ReplenishmentDecisionPolicyError :=
  let scope := policy_scope policy in
  match resolved_configuration rows (scope_owner scope) (scope_facility scope) effective_at with
  | None => Ok (product_default (policy_thresholds policy))
  | Some (id, row) =>
      from_configuration id (cfg_revision row) (cfg_scope row) (cfg_definition row)
        (policy_thresholds policy)
  end.
End evidence.

(** ** Derived thresholds *)

Lemma level_of_i128_ok v : 0 ≤ v ≤ i64_max → level_of_i128 v = Ok v.
Proof.
  intros Hv. unfold level_of_i128, ReplenishmentLevel_new, nonnegative_new.
  rewrite checked_in by range_lia. cbn [ok_or rbind].
  by rewrite (proj2 (Z.leb_le 0 v)) by lia.
Qed.

Section percentages.
Context (q p : Z) (Hq : 0 ≤ q ≤ i64_max) (Hp : 0 ≤ p ≤ 100).

Lemma percentage_product : 0 ≤ q * p ≤ 100 * i64_max.
Proof. nia. Qed.

Lemma percentage_floor_ok : percentage_floor q p = Ok (q * p / 100).
Proof.
  pose proof percentage_product. unfold percentage_floor, i128_checked_mul.
  rewrite checked_in by range_lia. cbn [ok_or rbind]. rewrite Z.quot_div_nonneg by lia.
  apply level_of_i128_ok. split; [apply Z.div_pos; lia|apply Z.div_le_upper_bound; range_lia].
Qed.

Lemma percentage_ceil_ok : percentage_ceil q p = Ok ((q * p + 99) / 100).
Proof.
  pose proof percentage_product. unfold percentage_ceil, i128_checked_mul, i128_checked_add.
  rewrite checked_in by range_lia. rewrite checked_in by range_lia. cbn [ok_or rbind].
  rewrite Z.quot_div_nonneg by lia. apply level_of_i128_ok.
  split; [apply Z.div_pos; lia|]. apply Z.lt_succ_r, Z.div_lt_upper_bound; range_lia.
Qed.
End percentages.

(** A floor and a ceiling of the same quantity stay apart, below the quantity. *)
Lemma derived_levels q low high :
  0 < q → 0 ≤ low < high → high ≤ 100 →
  0 ≤ q * low / 100 < (q * high + 99) / 100 ∧ (q * high + 99) / 100 ≤ q.
Proof.
  intros Hq Hl Hh. split_and!.
  - apply Z.div_pos; nia.
  - pose proof (Z.div_mod (q * low) 100 ltac:(lia)). pose proof (Z.mod_pos_bound (q * low) 100).
    apply Z.lt_le_trans with (q * low / 100 + 1); [lia|].
    apply Z.div_le_lower_bound; [lia|]. nia.
  - apply Z.lt_succ_r, Z.div_lt_upper_bound; nia.
Qed.

Lemma thresholds_new_ok low high :
  low < high → ReplenishmentPolicyThresholds_new low high = Ok (MkThresholds low high).
Proof.
  intros. unfold ReplenishmentPolicyThresholds_new. by rewrite (proj2 (Z.leb_gt high low)) by lia.
Qed.

(** Percentages are [u8]. *)
Definition replenishment_rule (d : DecisionRuleDefinition) : Prop :=
  match d with
  | ReplenishmentRule low high _ => 0 ≤ low ∧ 0 ≤ high ∧ DecisionRuleDefinition_validate d = Ok tt
  | _ => False
  end.

Definition configuration_ok (row : ConfigurationRow) : Prop :=
  0 < cfg_revision row ∧ replenishment_rule (cfg_definition row).

(** What an effective policy promises to the planner. *)
Definition policy_sound (digest : list Z → rstr) (operational : ReplenishmentPolicyThresholds)
    (p : ReplenishmentDecisionPolicyReadModel) : Prop :=
  is_consistent digest p = true ∧
  operational_minimum p = minimum operational ∧ operational_target p = target operational ∧
  effective_thresholds p = Ok (MkThresholds (effective_minimum p) (effective_target p)) ∧
  thresholds_ok (MkThresholds (effective_minimum p) (effective_target p)) ∧
  effective_target p ≤ target operational.

Section sound.
Context (digest : list Z → rstr).

Lemma hash_ignores_hash a b c d e f g h i j k x y :
  replenishment_decision_policy_hash digest (MkDecisionPolicy a b c d e f g h i j k x) =
  replenishment_decision_policy_hash digest (MkDecisionPolicy a b c d e f g h i j k y).
Proof. done. Qed.

Lemma product_default_sound t : thresholds_ok t → policy_sound digest t (product_default digest t).
Proof.
  intros [Hm Ht]. unfold policy_sound, product_default, with_hash, effective_thresholds, is_consistent.
  cbn [policy_hash dp_source dp_configuration_id dp_configuration_revision dp_configuration_scope
    dp_minimum_percent dp_target_percent include_inbound_projection operational_minimum
    operational_target effective_minimum effective_target].
  unfold effective_thresholds. cbn [effective_minimum effective_target].
  rewrite !thresholds_new_ok by lia. cbn [is_ok].
  rewrite bool_decide_eq_true_2 by apply hash_ignores_hash. rewrite !Z.eqb_refl.
  split_and!; done.
Qed.

Lemma from_configuration_sound id rev scope definition t :
  thresholds_ok t → 0 < rev → replenishment_rule definition →
  ∃ p, from_configuration digest id rev scope definition t = Ok p ∧ policy_sound digest t p ∧
    dp_configuration_id p = Some id ∧ dp_configuration_revision p = Some rev ∧
    dp_configuration_scope p = Some scope ∧ dp_source p = FromConfiguration ∧
    ∃ low high, definition = ReplenishmentRule low high (include_inbound_projection p) ∧
      dp_minimum_percent p = Some low ∧ dp_target_percent p = Some high.
Proof.
  intros [Hm Ht] Hrev Hdef. unfold from_configuration.
  rewrite (proj2 (Z.leb_gt _ _)) by lia.
  destruct definition as [| | |low high include| | | | | |]; try done.
  destruct Hdef as (Hl0 & Hh0 & Hval). rewrite Hval. cbn [map_err rbind].
  cbn [DecisionRuleDefinition_validate] in Hval. destruct (_ || _) eqn:E in Hval; [done|].
  bool_to_prop.
  destruct (derived_levels (target t) low high ltac:(lia) ltac:(lia) ltac:(lia)) as [Hlv Hle].
  rewrite percentage_floor_ok, percentage_ceil_ok by lia. cbn [rbind].
  rewrite thresholds_new_ok by lia. cbn [map_err rbind].
  eexists. split; [done|]. split; [|cbn; split_and!; [done..|by exists low, high]].
  unfold policy_sound, with_hash, effective_thresholds, is_consistent.
  cbn [policy_hash dp_source dp_configuration_id dp_configuration_revision dp_configuration_scope
    dp_minimum_percent dp_target_percent include_inbound_projection operational_minimum
    operational_target effective_minimum effective_target].
  unfold effective_thresholds. cbn [effective_minimum effective_target].
  rewrite !thresholds_new_ok by lia. cbn [is_ok].
  rewrite bool_decide_eq_true_2 by apply hash_ignores_hash.
  rewrite percentage_floor_ok, percentage_ceil_ok by lia. unfold gives. rewrite !Z.eqb_refl.
  rewrite (proj2 (Z.ltb_lt 0 rev)), (proj2 (Z.ltb_lt low high)), (proj2 (Z.leb_le high 100)) by lia.
  split_and!; try done. unfold thresholds_ok. cbn. lia.
Qed.
End sound.

(** ** The query resolves as the domain does *)

(** The rule that a row stands for. *)
Definition rule_of (r : Z * ConfigurationRow) : EffectiveDecisionRule :=
  MkRule r.1 (cfg_revision r.2) (cfg_scope r.2) (cfg_status r.2) (cfg_window r.2)
    (cfg_definition r.2).

Definition activated_by (at_ : Z) (r : Z * ConfigurationRow) : bool :=
  match cfg_activated_at r.2 with Some activated => activated <=? at_ | None => false end.

Lemma configuration_order_flip x y : configuration_order x y = precedence (rule_of y) (rule_of x).
Proof. done. Qed.

#[export] Instance configuration_order_ord : OrdCmp configuration_order.
Proof.
  split.
  - intros x y. rewrite !configuration_order_flip. apply (cmp_sym precedence).
  - intros x y z. rewrite !configuration_order_flip. intros Hxy Hyz.
    exact (cmp_le_trans precedence _ _ _ Hyz Hxy).
Qed.

Lemma configuration_applies_in_force owner facility at_ r :
  kind (cfg_definition r.2) = ReplenishmentKind →
  configuration_applies owner facility at_ r.2 =
    activated_by at_ r && in_force ReplenishmentKind owner facility at_ (rule_of r).
Proof.
  intros Hk. unfold configuration_applies, in_force, activated_by, includes, applies_to, rule_of.
  cbn [rule_status rule_definition rule_scope effective_window]. rewrite Hk.
  rewrite (bool_decide_eq_true_2 (ReplenishmentKind = _)) by done. btauto.
Qed.

Lemma resolved_is_greatest rows owner facility at_ :
  match resolved_configuration rows owner facility at_ with
  | None => ∀ r, r ∈ map_to_list rows → configuration_applies owner facility at_ r.2 = false
  | Some m => m ∈ map_to_list rows ∧ configuration_applies owner facility at_ m.2 = true ∧
      ∀ r, r ∈ map_to_list rows → configuration_applies owner facility at_ r.2 = true →
        precedence (rule_of r) (rule_of m) ≠ Gt
  end.
Proof.
  unfold resolved_configuration. set (l := List.filter _ _).
  assert (Hl : ∀ r, r ∈ l ↔ r ∈ map_to_list rows ∧ configuration_applies owner facility at_ r.2 = true).
  { intros [k c]. unfold l. by rewrite elem_of_filter_bool. }
  assert (Hperm : sort_by configuration_order l ≡ₚ l) by apply sort_by_perm.
  pose proof (sort_by_sorted configuration_order l) as Hs.
  destruct (sort_by configuration_order l) as [|m rest] eqn:E; cbn [head].
  - intros r Hr. destruct (configuration_applies _ _ _ r.2) eqn:Ea; [|done].
    assert (Hin : r ∈ l) by by apply Hl. rewrite <-Hperm in Hin. set_solver.
  - assert (Hm : m ∈ l) by (rewrite <-Hperm; set_solver). apply Hl in Hm as [Hm Hma].
    split_and!; [done|done|]. intros r Hr Hra.
    assert (Hin : r ∈ l) by by apply Hl. rewrite <-Hperm in Hin.
    apply StronglySorted_cons in Hs as [Hall _]. rewrite Forall_forall in Hall.
    apply elem_of_cons in Hin as [->|Hin].
    + rewrite (cmp_refl precedence). done.
    + rewrite <-configuration_order_flip. by apply Hall.
Qed.

Lemma rule_of_validate r :
  0 < r.1 → configuration_ok r.2 → EffectiveDecisionRule_validate (rule_of r) = Ok tt.
Proof.
  intros Hid [Hrev Hdef]. unfold EffectiveDecisionRule_validate, rule_of.
  cbn [configuration_id rule_revision rule_definition].
  rewrite !(proj2 (Z.leb_gt _ _)) by lia. cbn [orb].
  destruct (cfg_definition r.2); cbn in Hdef; try done. by destruct Hdef as (_ & _ & ?).
Qed.

Lemma resolved_as_domain rows owner facility at_ :
  (∀ id row, rows !! id = Some row → 0 < id ∧ configuration_ok row) →
  resolve_effective_rule (rule_of <$> List.filter (activated_by at_) (map_to_list rows))
    ReplenishmentKind owner facility at_ =
  Ok (rule_of <$> resolved_configuration rows owner facility at_).
Proof.
  intros Hok. set (l := rule_of <$> _).
  assert (Hl : ∀ c, c ∈ l ↔ ∃ r, c = rule_of r ∧ r ∈ map_to_list rows ∧ activated_by at_ r = true).
  { intros c. unfold l. rewrite list_elem_of_fmap. setoid_rewrite elem_of_filter_bool. done. }
  assert (Hrow : ∀ r, r ∈ map_to_list rows → 0 < r.1 ∧ configuration_ok r.2 ∧
            kind (cfg_definition r.2) = ReplenishmentKind).
  { intros [k c] Hin%elem_of_map_to_list. apply Hok in Hin as [? Hc]. split_and!; [done|done|].
    destruct Hc as [_ Hc]. cbn [snd] in *. by destruct (cfg_definition c). }
  destruct (resolution_precedence l l ReplenishmentKind owner facility at_) as (Hval & Hres & _).
  assert (Hall : Forall (fun c => EffectiveDecisionRule_validate c = Ok tt) l).
  { apply Forall_forall. intros c (r & -> & Hin & _)%Hl. apply Hrow in Hin as (? & ? & _).
    by apply rule_of_validate. }
  apply Hval in Hall. destruct (resolve_effective_rule l _ _ _ _) as [best|]; [|done].
  specialize (Hres best eq_refl). f_equal.
  pose proof (resolved_is_greatest rows owner facility at_) as Hg.
  destruct (resolved_configuration rows owner facility at_) as [m|]; cbn [fmap option_fmap option_map].
  - destruct Hg as (Hm & Hma & Hmax). pose proof (Hrow m Hm) as (_ & _ & Hk).
    rewrite configuration_applies_in_force in Hma by done. apply andb_true_iff in Hma as [Hact Hf].
    destruct best as [b|]; cycle 1.
    { rewrite Hres in Hf; [done|]. apply Hl. eauto. }
    destruct Hres as (Hb & Hbf & Hbmax). apply Hl in Hb as (r & -> & Hr & Hract).
    pose proof (Hrow r Hr) as (_ & _ & Hkr).
    destruct (Hbmax (rule_of m)) as [Hle _]; [apply Hl; eauto|done|].
    assert (Hge : precedence (rule_of r) (rule_of m) ≠ Gt).
    { apply Hmax; [done|]. rewrite configuration_applies_in_force by done. by rewrite Hract, Hbf. }
    assert (E : precedence (rule_of m) (rule_of r) = Eq) by by apply (cmp_le_antisym precedence).
    apply precedence_eq_id in E. cbn in E. do 2 f_equal.
    destruct m as [k c], r as [k' c']. cbn in E. subst k'.
    apply elem_of_map_to_list in Hm, Hr. congruence.
  - destruct best as [b|]; [|done]. destruct Hres as (Hb & Hbf & _).
    apply Hl in Hb as (r & -> & Hr & Hract). pose proof (Hrow r Hr) as (_ & _ & Hkr).
    specialize (Hg r Hr). rewrite configuration_applies_in_force in Hg by done.
    by rewrite Hract, Hbf in Hg.
Qed.

Lemma resolve_decision_policy_sound digest rows policy at_ :
  (∀ id row, rows !! id = Some row → configuration_ok row) →
  thresholds_ok (policy_thresholds policy) →
  ∃ p, resolve_decision_policy_tx digest rows policy at_ = Ok p ∧
    policy_sound digest (policy_thresholds policy) p ∧
    match resolved_configuration rows (scope_owner (policy_scope policy))
            (scope_facility (policy_scope policy)) at_ with
    | None => p = product_default digest (policy_thresholds policy)
    | Some (id, row) =>
        dp_configuration_id p = Some id ∧ dp_configuration_revision p = Some (cfg_revision row) ∧
        dp_configuration_scope p = Some (cfg_scope row) ∧ dp_source p = FromConfiguration ∧
        ∃ low high, cfg_definition row = ReplenishmentRule low high (include_inbound_projection p) ∧
          dp_minimum_percent p = Some low ∧ dp_target_percent p = Some high
    end.
Proof.
  intros Hok Ht. unfold resolve_decision_policy_tx.
  pose proof (resolved_is_greatest rows (scope_owner (policy_scope policy))
    (scope_facility (policy_scope policy)) at_) as Hg.
  destruct (resolved_configuration _ _ _ _) as [[id row]|].
  - destruct Hg as (Hin%elem_of_map_to_list & _). apply Hok in Hin as [Hrev Hdef].
    by apply from_configuration_sound.
  - eexists. split; [done|]. split; [by apply product_default_sound|done].
Qed.

(** The effective policy of a pick face: whatever valid rules are configured, resolving
    one never fails; its thresholds are valid, the target stays within the operational
    target, and the evidence passes its own consistency check. The rule that the query of
    the repository picks is the one that the domain's resolution picks among the rules
    activated by then. *)
Theorem effective_policy_resolved digest rows policy at_ :
  (∀ id row, rows !! id = Some row → 0 < id ∧ configuration_ok row) →
  thresholds_ok (policy_thresholds policy) →
  ∃ p best, resolve_decision_policy_tx digest rows policy at_ = Ok p ∧
    policy_sound digest (policy_thresholds policy) p ∧
    resolve_effective_rule (rule_of <$> List.filter (activated_by at_) (map_to_list rows))
      ReplenishmentKind (scope_owner (policy_scope policy))
      (scope_facility (policy_scope policy)) at_ = Ok best ∧
    dp_configuration_id p = configuration_id <$> best.
Proof.
  intros Hok Ht.
  destruct (resolve_decision_policy_sound digest rows policy at_) as (p & Hp & Hs & Hm);
    [intros id row H; by apply (Hok id row H)|done|].
  exists p, (rule_of <$> resolved_configuration rows (scope_owner (policy_scope policy))
               (scope_facility (policy_scope policy)) at_).
  split_and!; [done|done|by apply resolved_as_domain|].
  destruct (resolved_configuration _ _ _ _) as [[id row]|]; [by destruct Hm|by subst].
Qed.

(** A rule of the owner takes precedence over one of the tenant. *)
Definition sample_rules : gmap Z ConfigurationRow :=
  {[1 := MkConfigurationRow 1 TenantScope ActiveConfiguration (Some 0) (MkWindow 0 None)
           (ReplenishmentRule 10 90 true);
    2 := MkConfigurationRow 3 (OwnerScope 1) ActiveConfiguration (Some 5) (MkWindow 5 (Some 50))
           (ReplenishmentRule 30 80 false)]}.

Lemma sample_rules_ok id row : sample_rules !! id = Some row → 0 < id ∧ configuration_ok row.
Proof.
  unfold sample_rules. intros [[<- <-]|[_ [<- <-]%lookup_singleton_Some]]%lookup_insert_Some;
    (split; [lia|]); unfold configuration_ok; cbn; split_and!; done.
Qed.

Definition sample_definition : ReplenishmentPolicyDefinition :=
  MkPolicyDefinition (MkPolicyScope 1 1 1 1 [] 1) (MkThresholds 5 10) [2].

Lemma effective_policy_resolved_witness :
  ∃ p, resolve_decision_policy_tx (fun _ => []) sample_rules sample_definition 20 = Ok p ∧
    policy_sound (fun _ => []) (MkThresholds 5 10) p.
Proof.
  destruct (effective_policy_resolved (fun _ => []) sample_rules sample_definition 20)
    as (p & best & Hp & Hs & _); [exact sample_rules_ok|unfold thresholds_ok; cbn; range_lia|].
  exists p. split; [done|exact Hs].
Defined.
