(* ===== verification/ReplenishmentDb.v ===== *)
(** * Replenishment: rows and planning ([crates/api/src/repo/replenishment])

    The tables of policies, plan runs, work and movement claims of one tenant beside those
    of [StockTypes], the handler [plan_policy] of [planning.rs] over them, and the triggers
    and constraints of [migrations/postgres] on what it writes. As in [StockJournal], a flag
    [guards] says whether those checks are run. Columns that are only written, such as titles
    and instants of creation, are left out; of the rows of other parts of the system the
    tables keep the columns that planning reads. *)

From stdpp Require Import pretty.
From S2P Require Import Prelude.
From S2P Require Import RustStr.
From S2P Require Import Idempotency.
From S2P Require Import Outbox.
From S2P Require Import StockTypes.
From S2P Require Import StockDb.
From S2P Require Import StockJournal.
From S2P Require Import StockHandlers.
From S2P Require Import WorkTasks.
From S2P Require Import Configuration.
From S2P Require Import Replenishment.
From S2P Require Import ReplenishmentPolicy.

(** ** Rows *)

(** Columns of [locations] that [LocationRow] lacks. *)
Record PlaceRow := MkPlace {
  place_barcode : option rstr;
  place_name : option rstr;
  place_pickable : bool;
  place_receivable : bool;
}.

(** [replenishment_policies] with the rows of [replenishment_policy_sources] in their
    sequence. The tenant is part of the scope. *)
Record PolicyRow := MkPolicyRow {
  pol_scope : ReplenishmentPolicyScope;
  pol_minimum : Z;
  pol_target : Z;
  pol_sources : list Z;
  pol_revision : Z;
  pol_supersedes : option Z;
  pol_effective_from : Z;
  pol_effective_to : option Z;
  pol_retired_by : option Z;
}.

(** [replenishment_plan_runs] *)
Record PlanRunRow := MkPlanRun {
  run_scope : ReplenishmentPolicyScope;
  run_policy : Z;
  run_policy_revision : Z;
  run_minimum : Z;
  run_target : Z;
  run_source_location_count : Z;
  run_decision_policy : ReplenishmentDecisionPolicyReadModel;
  run_pick_face_free : Z;
  run_observed_active_inbound : Z;
  run_active_inbound : Z;
  run_projected_free : Z;
  run_unallocated_demand : Z;
  run_required_level : Z;
  run_target_gap : Z;
  run_reserve_free : Z;
  run_planned : Z;
  run_work_count : Z;
  run_outcome : ReplenishmentPlanningOutcome;
  run_planned_by : Z;
  run_planned_at : Z;
}.

Record WorkTaskRow := MkWorkTask {
  work_type : WorkTaskType;
  work_status : WorkTaskStatus;
  work_facility : option Z;
  work_owner : option Z;
  work_priority : Z;
  work_timeout_seconds : Z;
  work_assigned_user : option Z;
  work_created_by : option Z;
  work_deleted : bool;
}.

(** [replenishment_tasks]; [task_closed] is that [closed_at] is set. *)
Record TaskRow := MkTask {
  task_plan_run : Z;
  task_policy : Z;
  task_policy_revision : Z;
  task_owner : Z;
  task_facility : Z;
  task_source_balance : Z;
  task_source_location : Z;
  task_destination : Z;
  task_batch : Z;
  task_item : Z;
  task_uom : rstr;
  task_source_free : Z;
  task_planned : Z;
  task_lot : option rstr;
  task_serial : option rstr;
  task_expiration : option Z;
  task_received_at : Z;
  task_travel_sequence : Z;
  task_closed : bool;
}.

Inductive ClaimKind := PutawayClaim | RelocationClaim | ReplenishmentClaim | CrossDockClaim.

#[global] Instance ClaimKind_eq_dec : EqDecision ClaimKind.
Proof. solve_decision. Defined.

(** [loose_inventory_movement_claims] *)
Record ClaimRow := MkClaim {
  claim_owner : Z;
  claim_facility : Z;
  claim_balance : Z;
  claim_task : Z;
  claim_kind : ClaimKind;
  claim_released : bool;
}.

(** ** Results and events *)

Record PlannedReplenishmentWork := MkPlannedWork {
  pw_work_id : Z;
  pw_source : PlannedReplenishmentSource;
  pw_source_location_barcode : rstr;
  pw_source_location_name : option rstr;
}.

Record PlanReplenishmentResult := MkPlanResult {
  res_plan_id : Z;
  res_policy_id : Z;
  res_policy_revision : Z;
  res_scope : ReplenishmentPolicyScope;
  res_decision_policy : ReplenishmentDecisionPolicyReadModel;
  res_observed_active_inbound : Z;
  res_decision : ReplenishmentPlanDecision;
  res_work : list PlannedReplenishmentWork;
  res_planned_by : Z;
  res_planned_at : Z;
}.

Record ConfigureReplenishmentPolicyResult := MkConfigureResult {
  con_policy_id : Z;
  con_definition : ReplenishmentPolicyDefinition;
  con_previous_revision : option Z;
  con_revision : Z;
  con_configured_by : Z;
  con_configured_at : Z;
}.

Record RetireReplenishmentPolicyResult := MkRetireResult {
  ret_policy_id : Z;
  ret_scope : ReplenishmentPolicyScope;
  ret_revision : Z;
  ret_retired_by : Z;
  ret_retired_at : Z;
}.

Inductive ReplenishmentResult :=
| PlanResult (r : PlanReplenishmentResult)
| ConfigureResult (r : ConfigureReplenishmentPolicyResult)
| RetireResult (r : RetireReplenishmentPolicyResult).

(** The tables. The events of replenishment are the part of the outbox whose ordering keys
    begin with [replenishment_policy] or [replenishment_task]; a payload is the result. *)
Record Replenishments := MkReplenishments {
  stock : Stock;
  places : gmap Z PlaceRow;
  batch_created : gmap Z Z;
  item_barcodes : list (Z * rstr);
  configurations : gmap Z ConfigurationRow;
  (** [pick_short_ship_dispositions] by owner and reservation,
      [order_backorder_split_lines] by owner, order and line *)
  short_dispositions : list (Z * Z * Z);
  backorder_lines : list (Z * Z * Z * Z);
  policies : Table PolicyRow;
  plan_runs : Table PlanRunRow;
  work_tasks : Table WorkTaskRow;
  replenishment_tasks : gmap Z TaskRow;
  movement_claims : Table ClaimRow;
  replenishment_outbox : OutboxTables ReplenishmentResult;
}.

Definition set_policies x s := MkReplenishments (stock s) (places s) (batch_created s)
  (item_barcodes s) (configurations s) (short_dispositions s) (backorder_lines s) x (plan_runs s)
  (work_tasks s) (replenishment_tasks s) (movement_claims s) (replenishment_outbox s).
Definition set_plan_runs x s := MkReplenishments (stock s) (places s) (batch_created s)
  (item_barcodes s) (configurations s) (short_dispositions s) (backorder_lines s) (policies s) x
  (work_tasks s) (replenishment_tasks s) (movement_claims s) (replenishment_outbox s).
Definition set_work_tasks x s := MkReplenishments (stock s) (places s) (batch_created s)
  (item_barcodes s) (configurations s) (short_dispositions s) (backorder_lines s) (policies s)
  (plan_runs s) x (replenishment_tasks s) (movement_claims s) (replenishment_outbox s).
Definition set_replenishment_tasks x s := MkReplenishments (stock s) (places s) (batch_created s)
  (item_barcodes s) (configurations s) (short_dispositions s) (backorder_lines s) (policies s)
  (plan_runs s) (work_tasks s) x (movement_claims s) (replenishment_outbox s).
Definition set_movement_claims x s := MkReplenishments (stock s) (places s) (batch_created s)
  (item_barcodes s) (configurations s) (short_dispositions s) (backorder_lines s) (policies s)
  (plan_runs s) (work_tasks s) (replenishment_tasks s) x (replenishment_outbox s).
Definition set_replenishment_outbox x s := MkReplenishments (stock s) (places s) (batch_created s)
  (item_barcodes s) (configurations s) (short_dispositions s) (backorder_lines s) (policies s)
  (plan_runs s) (work_tasks s) (replenishment_tasks s) (movement_claims s) x.

(** ** Shared helpers ([replenishment.rs]) *)

Definition internal {A E} (r : result A E) (why : string) : result A ApplicationError :=
  map_err (fun _ => Internal why) r.

Definition level (value : Z) : result Z ApplicationError :=
  internal (ReplenishmentLevel_new value) "replenishment level cannot be negative".

Definition scan (value : rstr) (label : string) : result rstr ApplicationError :=
  map_err (fun _ => Conflict (label +:+ " is not scannable")) (ReplenishmentScanValue_new value).

Definition require_replenishment_scope (scope : ScopeBindings) (owner facility : Z) :
    result unit ApplicationError :=
  if includes_inventory_owner scope owner && includes_facility scope facility
  then Ok tt else Err (NotFound "replenishment resource").

(** [id.get()] columns that a newtype refuses when they are not positive. *)
Definition positive_id (value : Z) : result Z ApplicationError :=
  positive_new (fun _ => Internal "ID must be positive") value.

(** What [policy_from_row] makes of a row. *)
Record Policy := MkPolicy {
  policy_id : Z;
  definition : ReplenishmentPolicyDefinition;
  policy_revision : Z;
  policy_effective_to : option Z;
}.

Definition policy_from_row (id : Z) (row : PolicyRow) : result Policy ApplicationError :=
  let scope := pol_scope row in
  let? _ := positive_id (scope_tenant scope) in
  let? _ := positive_id (scope_owner scope) in
  let? _ := positive_id (scope_facility scope) in
  let? _ := positive_id (scope_item scope) in
  let? _ := positive_id (scope_pick_face scope) in
  let? source_ids := rmapM positive_id (pol_sources row) in
  let? _ := internal (ReplenishmentUom_new (scope_uom scope)) "replenishment UOM" in
  let? low := level (pol_minimum row) in
  let? high := level (pol_target row) in
  let? thresholds := internal (ReplenishmentPolicyThresholds_new low high) "target above minimum" in
  let? sources := internal (ReplenishmentReserveSourceLocationIds_new source_ids) "source locations" in
  let? definition := internal (ReplenishmentPolicyDefinition_new scope thresholds sources)
                       "pick face is a reserve source" in
  let? _ := positive_id id in
  let? revision := internal (ReplenishmentPolicyRevision_new (pol_revision row)) "revision" in
  Ok (MkPolicy id definition revision (pol_effective_to row)).

Definition enqueue_event_tx (s : Replenishments) (aggregate : string) (id : Z)
    (type suffix : string) (body : ReplenishmentResult) : result Replenishments ApplicationError :=
  let key := lit (aggregate +:+ ":" +:+ pretty id) in
  let? t := map_err persistence_error
              (enqueue (fun _ => true) (replenishment_outbox s)
                 (MkEvent (key ++ lit ":" ++ lit suffix) (lit aggregate) (lit (pretty id)) key
                    (next_outbox_sequence (replenishment_outbox s) key) (lit type) 1 body)) in
  Ok (set_replenishment_outbox t s).

(** ** What planning reads *)

Definition scannable (barcode : option rstr) : bool :=
  match barcode with Some b => negb (only_spaces b) | None => false end.

(** An active, scannable location of the facility that work may use: to pick from
    ([pickable]) or as a reserve. *)
Definition executable (s : Replenishments) (facility : Z) (pickable : bool) (id : Z) : bool :=
  match locations (directory (stock s)) !! id, places s !! id with
  | Some l, Some p =>
      (location_facility l =? facility) && negb (location_deleted l) && location_active l
      && scannable (place_barcode p) && Bool.eqb (place_pickable p) pickable
      && negb (place_receivable p)
  | _, _ => false
  end.

Definition executable_location_count (s : Replenishments) (d : ReplenishmentPolicyDefinition) : Z :=
  let scope := policy_scope d in
  count_rows (fun id _ =>
      (id =? scope_pick_face scope) && executable s (scope_facility scope) true id
      || bool_decide (id ∈ reserve_source_location_ids d)
         && executable s (scope_facility scope) false id)
    (locations (directory (stock s))).

(** Loose available stock of the policy's owner, item and unit. *)
Definition loose_stock (scope : ReplenishmentPolicyScope) (b : BalanceRow) : bool :=
  let p := position b in
  (StockTypes.inventory_owner_id p =? scope_owner scope)
  && (StockTypes.facility_id p =? scope_facility scope)
  && (StockTypes.item_id p =? scope_item scope)
  && bool_decide (StockTypes.uom p = scope_uom scope)
  && bool_decide (license_plate_id p = None)
  && bool_decide (status p = StockTypes.Available)
  && negb (balance_deleted b).

(** [GREATEST(qty_on_hand-qty_reserved-qty_held,0)] *)
Definition free_qty (b : BalanceRow) : Z := Z.max (qty_on_hand b - qty_reserved b - qty_held b) 0.

(** Is a movement of the balance under way? *)
Definition claimed (s : Replenishments) (owner facility balance : Z) : bool :=
  existsb (fun '(_, c) => (claim_owner c =? owner) && (claim_facility c =? facility)
                          && (claim_balance c =? balance) && negb (claim_released c))
    (map_to_list (rows (movement_claims s))).

Definition batch_of (s : Replenishments) (owner batch : Z) : option BatchRow :=
  match rows (batches (stock s)) !! batch with
  | Some b => if batch_owner b =? owner then Some b else None
  | None => None
  end.

Record SourceRow := MkSource {
  src_balance_id : Z;
  src_batch_id : Z;
  src_location_id : Z;
  src_barcode : rstr;
  src_name : option rstr;
  src_lot : option rstr;
  src_serial : option rstr;
  src_expiration : option Z;
  src_received_at : Z;
  src_free : Z;
}.

(** The joins of the query with the batch and the location. *)
Definition joined (s : Replenishments) (r : Z * BalanceRow) : option SourceRow :=
  let p := position r.2 in
  match batch_of s (StockTypes.inventory_owner_id p) (StockTypes.item_batch_id p),
        batch_created s !! StockTypes.item_batch_id p, places s !! location_id p with
  | Some b, Some created, Some place =>
      match place_barcode place with
      | Some barcode =>
          if batch_deleted b then None
          else Some (MkSource r.1 (StockTypes.item_batch_id p) (location_id p) barcode
                       (place_name place) (batch_trace b).1.1 (batch_trace b).2
                       (batch_trace b).1.2 created (free_qty r.2))
      | None => None
      end
  | _, _, _ => None
  end.

Definition planning_where (s : Replenishments) (d : ReplenishmentPolicyDefinition) (id : Z)
    (b : BalanceRow) : bool :=
  let scope := policy_scope d in
  let l := location_id (position b) in
  loose_stock scope b
  && ((l =? scope_pick_face scope) && executable s (scope_facility scope) true l
      || bool_decide (l ∈ reserve_source_location_ids d)
         && executable s (scope_facility scope) false l
         && negb (claimed s (scope_owner scope) (scope_facility scope) id)).

Definition planning_rows (s : Replenishments) (d : ReplenishmentPolicyDefinition) : list SourceRow :=
  omap (joined s) (ordered_rows (planning_where s d) (balances (stock s))).

Definition source_from_row (row : SourceRow) : result SourceRow ApplicationError :=
  let? _ := positive_id (src_balance_id row) in
  let? _ := positive_id (src_batch_id row) in
  let? _ := positive_id (src_location_id row) in
  Ok row.

(** [try_fold(0, |sum, x| sum.checked_add(x))] *)
Definition checked_sum (l : list Z) (why : string) : result Z ApplicationError :=
  rfold (fun x sum => ok_or (i64_checked_add sum x) (Internal why)) l 0.

(** The check of a result ([PlanReplenishmentResult::quantities_and_sequence_are_consistent]). *)
Definition sequence_is_contiguous (work : list PlannedReplenishmentSource) : bool :=
  forallb (fun '(index, w) => (1 <=? sequence w) && (sequence w - 1 =? index))
    (imap (fun i w => (Z.of_nat i, w)) work).

Definition quantities_and_sequence_are_consistent (digest : list Z → rstr)
    (self : PlanReplenishmentResult) : bool :=
  match effective_thresholds (res_decision_policy self) with
  | Err _ => false
  | Ok thresholds =>
      let own := res_decision self in
      let inbound := active_inbound (snapshot own) in
      let include := include_inbound_projection (res_decision_policy self) in
      let decision := plan_replenishment thresholds (snapshot own) in
      let work := pw_source <$> res_work self in
      match checked_sum (ps_quantity <$> work) "" with Ok total => total =? planned own | Err _ => false end
      && is_consistent digest (res_decision_policy self)
      && (inbound <=? res_observed_active_inbound self)
      && (include || (inbound =? 0)) && (negb include || (inbound =? res_observed_active_inbound self))
      && (required_level own =? required_level decision) && (target_gap own =? target_gap decision)
      && (planned own =? planned decision) && (remaining own =? remaining decision)
      && bool_decide (outcome own = outcome decision)
      && (target_gap own =? i64_add (planned own) (remaining own))
      && sequence_is_contiguous work && Bool.eqb (planned own =? 0) (bool_decide (work = []))
  end.

(** [COALESCE(sum(..),0)::bigint] of the open work of a policy. *)
Definition active_inbound_of (s : Replenishments) (policy : Z) : result Z ApplicationError :=
  bigint (sum_rows (fun _ t => if (task_policy t =? policy) && negb (task_closed t)
                               then task_planned t else 0) (replenishment_tasks s)).

Definition demanded (scope : ReplenishmentPolicyScope) (r : ReservationRow) : bool :=
  (reservation_owner r =? scope_owner scope) && (reservation_facility r =? scope_facility scope)
  && (reservation_item r =? scope_item scope) && bool_decide (reservation_uom r = scope_uom scope)
  && active_reservation r.

(** What an active reservation still needs. *)
Definition uncovered (s : Replenishments) (r : Z * ReservationRow) : result Z ApplicationError :=
  let owner := reservation_owner r.2 in
  let? accepted := bigint (sum_by (owner, r.1) (short_dispositions s)) in
  let? backordered :=
    bigint (sum_by (owner, reservation_order r.2, reservation_line r.2) (backorder_lines s)) in
  let? allocated := bigint (allocated_of (stock s) r.1) in
  let? rest := bigint (reservation_qty r.2 - accepted) in
  let? rest := bigint (rest - backordered) in
  let? rest := bigint (rest - allocated) in
  Ok (Z.max rest 0).

Definition unallocated_demand_of (s : Replenishments) (scope : ReplenishmentPolicyScope) :
    result Z ApplicationError :=
  let? parts := rmapM (uncovered s)
    (List.filter (fun r => demanded scope r.2) (map_to_list (rows (reservations (stock s))))) in
  bigint (zsum parts).

(** The snapshot, the work under way whatever the policy makes of it, and the sources. *)
Definition lock_snapshot_tx (s : Replenishments) (policy : Policy) (include : bool) :
    result (ReplenishmentPlanningSnapshot * Z * list SourceRow) ApplicationError :=
  let d := definition policy in
  let scope := policy_scope d in
  if negb (executable_location_count s d =? Z.of_nat (length (reserve_source_location_ids d)) + 1)
  then Err (Conflict "replenishment policy locations are no longer executable")
  else
    let rows := planning_rows s d in
    let? pick_face := checked_sum
      (src_free <$> List.filter (fun r => src_location_id r =? scope_pick_face scope) rows)
      "pick-face free quantity overflow" in
    let? sources := rmapM source_from_row
      (List.filter (fun r => negb (src_location_id r =? scope_pick_face scope)
         && negb (claimed s (scope_owner scope) (scope_facility scope) (src_balance_id r))) rows) in
    let? inbound := active_inbound_of s (policy_id policy) in
    let? demand := unallocated_demand_of s scope in
    let? reserve := checked_sum (src_free <$> sources) "reserve free quantity overflow" in
    let? observed := level inbound in
    let? pick_face := level pick_face in
    let? demand := level demand in
    let? reserve := level reserve in
    let? snapshot := internal
      (ReplenishmentPlanningSnapshot_new pick_face (if include then observed else 0) demand reserve)
      "pick-face free plus active inbound exceeds the supported quantity range" in
    Ok (snapshot, observed, sources).

Definition domain_candidate (policy : Policy) (r : SourceRow) :
    result ReplenishmentSourceCandidate ApplicationError :=
  let scope := policy_scope (definition policy) in
  let? free := level (src_free r) in
  Ok (MkSourceCandidate (scope_tenant scope) (scope_owner scope) (scope_facility scope)
        (src_location_id r) (src_balance_id r) (src_batch_id r) (scope_item scope)
        (scope_uom scope) (src_lot r) (src_serial r) (src_expiration r) (src_received_at r)
        Available free).

Definition eligible_source (policy : Policy) (r : SourceRow) :
    result ReplenishmentSourceCandidate ApplicationError :=
  let? candidate := domain_candidate policy r in
  match assess_replenishment_source (definition policy) candidate with
  | Eligible candidate => Ok candidate
  | Ineligible _ => Err (Internal "locked replenishment source is ineligible")
  end.

(** ** The triggers and constraints on plan runs *)

(** [validate_replenishment_decision_policy_snapshot] *)
Definition validate_decision_policy_snapshot (digest : list Z → rstr) (s : Replenishments)
    (run : PlanRunRow) : bool :=
  let p := run_decision_policy run in
  let resolved := resolved_configuration (configurations s) (scope_owner (run_scope run))
                    (scope_facility (run_scope run)) (run_planned_at run) in
  match dp_source p with
  | ProductDefault => bool_decide (fst <$> resolved = None)
  | FromConfiguration =>
      match dp_configuration_id p ≫= (configurations s !!.) with
      | None => false
      | Some c =>
          bool_decide (fst <$> resolved = dp_configuration_id p)
          && bool_decide (cfg_status c = ActiveConfiguration)
          && match cfg_activated_at c with Some a => a <=? run_planned_at run | None => true end
          && (effective_from (cfg_window c) <=? run_planned_at run)
          && match effective_until (cfg_window c) with
             | Some until => run_planned_at run <? until
             | None => true
             end
          && bool_decide (dp_configuration_revision p = Some (cfg_revision c))
          && bool_decide (dp_configuration_scope p = Some (cfg_scope c))
          && match dp_minimum_percent p, dp_target_percent p with
             | Some low, Some high =>
                 bool_decide (cfg_definition c
                              = ReplenishmentRule low high (include_inbound_projection p))
             | _, _ => false
             end
      end
  end
  && bool_decide (policy_hash p = replenishment_decision_policy_hash digest
       (MkDecisionPolicy (dp_source p) (dp_configuration_id p) (dp_configuration_revision p)
          (dp_configuration_scope p) (dp_minimum_percent p) (dp_target_percent p)
          (include_inbound_projection p) (operational_minimum p) (operational_target p)
          (run_minimum run) (run_target run) [])).

(** The policy that [validate_replenishment_plan_run] finds in force. *)
Definition run_policy_matches (s : Replenishments) (run : PlanRunRow) : bool :=
  match rows (policies s) !! run_policy run with
  | Some p =>
      bool_decide (pol_scope p = run_scope run)
      && (pol_effective_from p <=? run_planned_at run)
      && match pol_effective_to p with Some until => run_planned_at run <? until | None => true end
      && (pol_revision p =? run_policy_revision run)
      && (pol_minimum p =? operational_minimum (run_decision_policy run))
      && (pol_target p =? operational_target (run_decision_policy run))
      && (Z.of_nat (length (pol_sources p)) =? run_source_location_count run)
  | None => false
  end.

Definition policy_sources (s : Replenishments) (policy : Z) : list Z :=
  match rows (policies s) !! policy with Some p => pol_sources p | None => [] end.

(** What the trigger computes from the rows. *)
Definition computed_pick_face_free (s : Replenishments) (scope : ReplenishmentPolicyScope) : Z :=
  sum_rows (fun _ b => if loose_stock scope b && (location_id (position b) =? scope_pick_face scope)
                       then free_qty b else 0) (rows (balances (stock s))).

Definition computed_active_inbound (s : Replenishments) (run : PlanRunRow) : Z :=
  let scope := run_scope run in
  sum_rows (fun _ t =>
    if (task_owner t =? scope_owner scope) && (task_facility t =? scope_facility scope)
       && (task_policy t =? run_policy run) && (task_destination t =? scope_pick_face scope)
       && (task_item t =? scope_item scope) && bool_decide (task_uom t = scope_uom scope)
       && negb (task_closed t)
    then task_planned t else 0) (replenishment_tasks s).

Definition computed_reserve_free (s : Replenishments) (run : PlanRunRow) : Z :=
  let scope := run_scope run in
  sum_rows (fun id b =>
    if loose_stock scope b
       && bool_decide (location_id (position b) ∈ policy_sources s (run_policy run))
       && negb (claimed s (scope_owner scope) (scope_facility scope) id)
    then free_qty b else 0) (rows (balances (stock s))).

Definition validate_replenishment_plan_run (s : Replenishments) (run : PlanRunRow) :
    result unit ApplicationError :=
  let scope := run_scope run in
  check run_policy_matches s run else db_error (Sqlstate "55000") in
  check executable s (scope_facility scope) true (scope_pick_face scope)
    else db_error (Sqlstate "55000") in
  check Z.of_nat (length (List.filter (executable s (scope_facility scope) false)
                            (policy_sources s (run_policy run))))
        =? Z.of_nat (length (policy_sources s (run_policy run)))
    else db_error (Sqlstate "55000") in
  let? pick_face := bigint (computed_pick_face_free s scope) in
  let? observed := bigint (computed_active_inbound s run) in
  let inbound := if include_inbound_projection (run_decision_policy run) then observed else 0 in
  let? projected := bigint (pick_face + inbound) in
  let? demand := unallocated_demand_of s scope in
  let? reserve := bigint (computed_reserve_free s run) in
  let required := Z.max (run_target run) demand in
  let? gap := bigint (required - projected) in
  let gap := Z.max gap 0 in
  let '(planned, outcome) :=
    if (projected <? run_minimum run) || (projected <? demand)
    then let planned := Z.min gap reserve in
         (planned, if planned =? 0 then InsufficientReserve
                   else if planned <? gap then PartiallyPlanned else FullyPlanned)
    else (0, NotNeeded) in
  if negb (run_pick_face_free run =? pick_face)
     || negb (run_observed_active_inbound run =? observed)
     || negb (run_active_inbound run =? inbound) || negb (run_projected_free run =? projected)
     || negb (run_unallocated_demand run =? demand) || negb (run_required_level run =? required)
     || negb (run_target_gap run =? gap) || negb (run_reserve_free run =? reserve)
     || negb (run_planned run =? planned) || negb (bool_decide (run_outcome run = outcome))
     || negb (Bool.eqb (run_planned run =? 0) (run_work_count run =? 0))
  then raise "55000"
  else Ok tt.

(** The CHECK constraints on quantities and outcome. Those on the evidence of the decision
    policy repeat [is_consistent], and those on the hash and the unit repeat their formats;
    they are left out. *)
Definition plan_run_checks (run : PlanRunRow) : bool :=
  let short := (run_projected_free run <? run_minimum run)
               || (run_projected_free run <? run_unallocated_demand run) in
  (0 <=? run_minimum run) && (run_minimum run <? run_target run)
  && (0 <? run_source_location_count run) && (0 <=? run_pick_face_free run)
  && (0 <=? run_observed_active_inbound run) && (0 <=? run_active_inbound run)
  && (run_active_inbound run =? if include_inbound_projection (run_decision_policy run)
                                then run_observed_active_inbound run else 0)
  && (run_projected_free run =? run_pick_face_free run + run_active_inbound run)
  && (0 <=? run_unallocated_demand run)
  && (run_required_level run =? Z.max (run_target run) (run_unallocated_demand run))
  && (run_target_gap run =? Z.max (run_required_level run - run_projected_free run) 0)
  && (0 <=? run_reserve_free run) && (0 <=? run_planned run) && (0 <=? run_work_count run)
  && (0 <? run_policy_revision run)
  && match run_outcome run with
     | NotNeeded => negb short && (run_planned run =? 0) && (run_work_count run =? 0)
     | InsufficientReserve => short && (0 <? run_target_gap run) && (run_reserve_free run =? 0)
                              && (run_planned run =? 0) && (run_work_count run =? 0)
     | PartiallyPlanned => short
         && (run_planned run =? Z.min (run_target_gap run) (run_reserve_free run))
         && (0 <? run_planned run) && (run_planned run <? run_target_gap run)
         && (0 <? run_work_count run)
     | FullyPlanned => short && (run_planned run =? run_target_gap run) && (0 <? run_planned run)
                       && (run_planned run <=? run_reserve_free run) && (0 <? run_work_count run)
     end.

(** ** The triggers and constraints on work *)

(** [validate_replenishment_task] *)
Definition validate_replenishment_task (s : Replenishments) (id : Z) (t : TaskRow) : bool :=
  match rows (work_tasks s) !! id with
  | Some w =>
      bool_decide (work_owner w = Some (task_owner t))
      && bool_decide (work_facility w = Some (task_facility t))
      && bool_decide (work_type w = ReplenishmentTask)
      && bool_decide (work_status w ∈ [TaskOpen; TaskAssigned]) && negb (work_deleted w)
  | None => false
  end
  && match rows (plan_runs s) !! task_plan_run t with
     | Some run =>
         let scope := run_scope run in
         (scope_owner scope =? task_owner t) && (scope_facility scope =? task_facility t)
         && (run_policy run =? task_policy t) && (run_policy_revision run =? task_policy_revision t)
         && (scope_pick_face scope =? task_destination t) && (scope_item scope =? task_item t)
         && bool_decide (scope_uom scope = task_uom t)
         && bool_decide (run_outcome run ∈ [PartiallyPlanned; FullyPlanned])
     | None => false
     end
  && match rows (policies s) !! task_policy t with
     | Some p =>
         let scope := pol_scope p in
         (scope_owner scope =? task_owner t) && (scope_facility scope =? task_facility t)
         && bool_decide (task_source_location t ∈ pol_sources p)
         && (pol_revision p =? task_policy_revision t) && (scope_item scope =? task_item t)
         && bool_decide (scope_uom scope = task_uom t)
         && (scope_pick_face scope =? task_destination t)
         && executable s (task_facility t) false (task_source_location t)
         && executable s (task_facility t) true (task_destination t)
     | None => false
     end
  && match rows (balances (stock s)) !! task_source_balance t with
     | Some b =>
         let p := position b in
         let free := qty_on_hand b - qty_reserved b - qty_held b in
         (StockTypes.inventory_owner_id p =? task_owner t)
         && (StockTypes.facility_id p =? task_facility t)
         && (location_id p =? task_source_location t)
         && (StockTypes.item_batch_id p =? task_batch t) && (StockTypes.item_id p =? task_item t)
         && bool_decide (StockTypes.uom p = task_uom t) && bool_decide (license_plate_id p = None)
         && bool_decide (status p = StockTypes.Available) && negb (balance_deleted b)
         && match batch_of s (task_owner t) (task_batch t), batch_created s !! task_batch t with
            | Some batch, Some created =>
                (0 <? free) && (task_source_free t =? free)
                && bool_decide (batch_trace batch = (task_lot t, task_expiration t, task_serial t))
                && (task_received_at t =? created)
            | _, _ => false
            end
         && (task_planned t <=? free)
     | None => false
     end
  && negb (claimed s (task_owner t) (task_facility t) (task_source_balance t)).

(** The CHECK constraints and unique indexes of [replenishment_tasks]. *)
Definition task_checks (t : TaskRow) : bool :=
  negb (task_source_location t =? task_destination t) && (0 <? task_policy_revision t)
  && (0 <? task_source_free t) && (0 <? task_planned t) && (task_planned t <=? task_source_free t)
  && (0 <? task_travel_sequence t).

Definition task_unique (s : Replenishments) (t : TaskRow) : bool :=
  negb (existsb (fun '(_, t') =>
      (task_owner t' =? task_owner t) && (task_facility t' =? task_facility t)
      && (task_source_balance t' =? task_source_balance t) && negb (task_closed t')
      || (task_plan_run t' =? task_plan_run t)
         && ((task_travel_sequence t' =? task_travel_sequence t)
             || (task_source_balance t' =? task_source_balance t)))
    (map_to_list (replenishment_tasks s))).

(** *** [require_replenishment_plan_consistency], deferred to the end of the transaction *)

(** Is the balance claimed by anything but work of the run? *)
Definition claimed_elsewhere (s : Replenishments) (run owner facility balance : Z) : bool :=
  existsb (fun '(_, c) =>
      (claim_owner c =? owner) && (claim_facility c =? facility) && (claim_balance c =? balance)
      && negb (claim_released c)
      && negb (bool_decide (claim_kind c = ReplenishmentClaim)
               && match replenishment_tasks s !! claim_task c with
                  | Some t => task_plan_run t =? run
                  | None => false
                  end))
    (map_to_list (rows (movement_claims s))).

(** The [eligible] rows, with the columns of [expected], in the order of the window. *)
Definition run_candidate (s : Replenishments) (tenant : Z) (r : Z * BalanceRow) :
    option ReplenishmentSourceCandidate :=
  let p := position r.2 in
  match batch_of s (StockTypes.inventory_owner_id p) (StockTypes.item_batch_id p),
        batch_created s !! StockTypes.item_batch_id p with
  | Some b, Some created =>
      Some (MkSourceCandidate tenant (StockTypes.inventory_owner_id p) (StockTypes.facility_id p)
              (location_id p) r.1 (StockTypes.item_batch_id p) (StockTypes.item_id p)
              (StockTypes.uom p) (batch_trace b).1.1 (batch_trace b).2 (batch_trace b).1.2 created
              Available (qty_on_hand r.2 - qty_reserved r.2 - qty_held r.2))
  | _, _ => None
  end.

Definition run_where (s : Replenishments) (id : Z) (run : PlanRunRow) (balance : Z)
    (b : BalanceRow) : bool :=
  let scope := run_scope run in
  loose_stock scope b
  && bool_decide (location_id (position b) ∈ policy_sources s (run_policy run))
  && (0 <? qty_on_hand b - qty_reserved b - qty_held b)
  && negb (claimed_elsewhere s id (scope_owner scope) (scope_facility scope) balance).

Definition run_eligible (s : Replenishments) (id : Z) (run : PlanRunRow) :
    list ReplenishmentSourceCandidate :=
  sort_by compare_eligible_sources
    (omap (run_candidate s (scope_tenant (run_scope run)))
       (ordered_rows (run_where s id run) (balances (stock s)))).

Definition run_tasks (s : Replenishments) (run : Z) : list TaskRow :=
  snd <$> List.filter (fun '(_, t) => task_plan_run t =? run) (map_to_list (replenishment_tasks s)).

(** The columns that the full outer join compares, with the travel sequence it joins on. *)
Definition task_facts (t : TaskRow) : PlannedReplenishmentSource * Z :=
  (MkPlannedSource (task_travel_sequence t) (task_source_balance t) (task_batch t)
     (task_source_location t) (task_lot t) (task_serial t) (task_expiration t)
     (task_received_at t) (task_planned t), task_source_free t).

Definition expected_tasks (planned : Z) (l : list ReplenishmentSourceCandidate) :
    list (PlannedReplenishmentSource * Z) :=
  (fun '(n, b, c) => (planned_source c n (Z.min (free_quantity c) (planned - b)), free_quantity c))
    <$> List.filter (fun '(n, b, c) => b <? planned) (running 1 0 l).

#[global] Instance PlannedReplenishmentSource_eq_dec : EqDecision PlannedReplenishmentSource.
Proof. solve_decision. Defined.

Definition require_replenishment_plan_consistency (s : Replenishments) (id : Z) : bool :=
  match rows (plan_runs s) !! id with
  | None => false
  | Some run =>
      let tasks := run_tasks s id in
      let actual := task_facts <$> tasks in
      let expected := expected_tasks (run_planned run) (run_eligible s id run) in
      (run_work_count run =? Z.of_nat (length tasks))
      && (run_planned run =? zsum (task_planned <$> tasks))
      && forallb (fun x => bool_decide (x ∈ expected)) actual
      && forallb (fun x => bool_decide (x ∈ actual)) expected
  end.

(** ** The handler of [planning.rs] *)

Section planning.
Context (guards : bool) (digest : list Z → rstr).

(** The row that [insert_plan_tx] writes. *)
Definition plan_run_row (policy : Policy) (decision_policy : ReplenishmentDecisionPolicyReadModel)
    (thresholds : ReplenishmentPolicyThresholds) (observed : Z)
    (decision : ReplenishmentPlanDecision) (work_count actor planned_at : Z) : PlanRunRow :=
  let snapshot := snapshot decision in
  MkPlanRun (policy_scope (definition policy)) (policy_id policy)
    (policy_revision policy) (minimum thresholds) (target thresholds)
    (Z.of_nat (length (reserve_source_location_ids (definition policy)))) decision_policy
    (pick_face_free snapshot) observed (active_inbound snapshot) (projected_free snapshot)
    (unallocated_demand snapshot) (required_level decision) (target_gap decision)
    (reserve_free snapshot) (planned decision) work_count (outcome decision) actor planned_at.

Definition insert_plan_tx (s : Replenishments) (policy : Policy)
    (decision_policy : ReplenishmentDecisionPolicyReadModel) (observed : Z)
    (decision : ReplenishmentPlanDecision) (work_count actor planned_at : Z) :
    result (Replenishments * Z) ApplicationError :=
  let? thresholds := internal (effective_thresholds decision_policy) "target above minimum" in
  let run := plan_run_row policy decision_policy thresholds observed decision work_count actor
               planned_at in
  let? _ := guard guards (validate_decision_policy_snapshot digest s run) "23514" in
  let? _ := if guards then validate_replenishment_plan_run s run else Ok tt in
  let? _ := guard guards (plan_run_checks run) "23514" in
  let? _ := positive_id (next_id (plan_runs s)) in
  Ok (set_plan_runs (insert_row (plan_runs s) run) s, next_id (plan_runs s)).

(** [insert_task_tx] of [tasks.rs] for work that nobody is assigned to. *)
Definition insert_task_tx (s : Replenishments) (facility owner priority timeout created_by : Z) :
    Replenishments * Z :=
  (set_work_tasks (insert_row (work_tasks s)
     (MkWorkTask ReplenishmentTask TaskOpen (Some facility) (Some owner) priority timeout None
        (Some created_by) false)) s,
   next_id (work_tasks s)).

(** [claim_loose_inventory_movement_source], the AFTER trigger of [replenishment_tasks]. *)
Definition claim_loose_inventory_movement_source (s : Replenishments) (id : Z) (t : TaskRow) :
    result Replenishments ApplicationError :=
  let? _ := guard guards
    match rows (work_tasks s) !! id with
    | Some w => bool_decide (work_owner w = Some (task_owner t))
                && bool_decide (work_facility w = Some (task_facility t))
                && bool_decide (work_type w = ReplenishmentTask)
    | None => false
    end "23514" in
  let? _ := guard guards
    (negb (claimed s (task_owner t) (task_facility t) (task_source_balance t))) "23505" in
  Ok (set_movement_claims (insert_row (movement_claims s)
        (MkClaim (task_owner t) (task_facility t) (task_source_balance t) id ReplenishmentClaim
           false)) s).

(** The row of the work for a selected source. *)
Definition task_of (policy : Policy) (plan : Z) (source : PlannedReplenishmentSource)
    (source_free : Z) : TaskRow :=
  let scope := policy_scope (definition policy) in
  MkTask plan (policy_id policy) (policy_revision policy) (scope_owner scope)
    (scope_facility scope) (ps_balance source) (ps_location source) (scope_pick_face scope)
    (ps_batch source) (scope_item scope) (scope_uom scope) source_free (ps_quantity source)
    (ps_lot source) (ps_serial source) (ps_expiration source) (ps_received_at source)
    (sequence source) false.

Definition insert_work_tx (s : Replenishments) (actor : Z) (policy : Policy) (plan : Z)
    (source : PlannedReplenishmentSource) (source_free : Z) (demand_driven : bool) :
    result (Replenishments * Z) ApplicationError :=
  let t := task_of policy plan source source_free in
  let '(s, id) := insert_task_tx s (task_facility t) (task_owner t)
                    (if demand_driven then 90 else 60) (30 * 60) actor in
  let? _ := guard guards (validate_replenishment_task s id t) "55000" in
  let? _ := guard guards (task_checks t) "23514" in
  let? _ := guard guards (task_unique s t) "23505" in
  let? s := claim_loose_inventory_movement_source
              (set_replenishment_tasks (<[id := t]> (replenishment_tasks s)) s) id t in
  let? _ := positive_id id in
  Ok (s, id).

(** [source_by_id.get(..)]; the balances of the sources are distinct. *)
Definition source_by_id (sources : list SourceRow) (balance : Z) : option SourceRow :=
  list_find (fun r => src_balance_id r = balance) sources ≫= fun r => Some r.2.

(** The body of the loop over the selected sources. *)
Definition plan_one (actor : Z) (policy : Policy) (plan : Z) (sources : list SourceRow)
    (demand_driven : bool) (selected : PlannedReplenishmentSource)
    (acc : Replenishments * list PlannedReplenishmentWork) :
    result (Replenishments * list PlannedReplenishmentWork) ApplicationError :=
  let '(s, work) := acc in
  let? source := ok_or (source_by_id sources (ps_balance selected))
                   (Internal "planned replenishment source disappeared") in
  let? (s, id) := insert_work_tx s actor policy plan selected (src_free source) demand_driven in
  let? barcode := scan (src_barcode source) "replenishment source location" in
  Ok (s, work ++ [MkPlannedWork id selected barcode (src_name source)]).

Definition lock_policy_tx (s : Replenishments) (scope : ScopeBindings) (id : Z) :
    result Policy ApplicationError :=
  let? row := ok_or (rows (policies s) !! id) (NotFound "replenishment policy") in
  let? _ := require_replenishment_scope scope (scope_owner (pol_scope row))
              (scope_facility (pol_scope row)) in
  policy_from_row id row.

(** Everything before the first write: the facts, the decision and the selected work. *)
Definition plan_decision (s : Replenishments) (policy : Policy) (planned_at : Z) :
    result (ReplenishmentDecisionPolicyReadModel * Z * list SourceRow * ReplenishmentPlanDecision
            * list PlannedReplenishmentSource) ApplicationError :=
  let? decision_policy :=
    internal (resolve_decision_policy_tx digest (configurations s) (definition policy) planned_at)
      "replenishment decision policy" in
  let? (snapshot, observed, sources) :=
    lock_snapshot_tx s policy (include_inbound_projection decision_policy) in
  let? thresholds := internal (effective_thresholds decision_policy) "target above minimum" in
  let decision := plan_replenishment thresholds snapshot in
  let? eligible := rmapM (eligible_source policy) sources in
  let? selected := map_err (fun _ => Conflict "replenishment source selection")
                     (select_replenishment_sources decision eligible) in
  Ok (decision_policy, observed, sources, decision, selected).

(** The writes: the run, its work and the event; the deferred check ends the transaction. *)
Definition write_plan (actor planned_at : Z) (policy : Policy)
    (decision_policy : ReplenishmentDecisionPolicyReadModel) (observed : Z)
    (sources : list SourceRow) (decision : ReplenishmentPlanDecision)
    (selected : list PlannedReplenishmentSource) (s : Replenishments) :
    result (Replenishments * ReplenishmentResult * option Z) ApplicationError :=
  let? (s, plan) := insert_plan_tx s policy decision_policy observed decision
                      (Z.of_nat (length selected)) actor planned_at in
  let demand_driven := projected_free (snapshot decision) <? unallocated_demand (snapshot decision) in
  let? (s, work) := rfold (plan_one actor policy plan sources demand_driven) selected (s, []) in
  let? actor := positive_id actor in
  let result_ := PlanResult (MkPlanResult plan (policy_id policy) (policy_revision policy)
    (policy_scope (definition policy)) decision_policy observed decision work actor planned_at) in
  let? s := enqueue_event_tx s "replenishment_policy" (policy_id policy)
              "inventory.replenishment.planned" ("plan:" +:+ pretty plan) result_ in
  let? _ := guard guards (require_replenishment_plan_consistency s plan) "23514" in
  Ok (s, result_, None).

(** [plan_policy] between the replay check and the commit; [planned_at] is [now_iso()]. *)
Definition plan_work (scope : ScopeBindings) (actor : Z) (id expected_revision planned_at : Z)
    (s : Replenishments) : result (Replenishments * ReplenishmentResult * option Z) ApplicationError :=
  let? policy := lock_policy_tx s scope id in
  if bool_decide (is_Some (policy_effective_to policy))
  then Err (Conflict "replenishment policy is retired")
  else if negb (policy_revision policy =? expected_revision)
  then Err (Conflict "replenishment policy revision does not match expected revision")
  else
    let? (decision_policy, observed, sources, decision, selected) :=
      plan_decision s policy planned_at in
    write_plan actor planned_at policy decision_policy observed sources decision selected s.
End planning.
