(* ===== verification/ReplenishmentFacts.v ===== *)
(** * Replenishment: what planning reads

    The policy that a row gives, the locations that the count of executable locations
    vouches for, and the sums of the handler against those of the trigger. *)

From S2P Require Import Prelude.
From S2P Require Import RustStr.
From S2P Require Import Idempotency.
From S2P Require Import Outbox.
From S2P Require Import StockTypes.
From S2P Require Import StockDb.
From S2P Require Import StockJournal.
From S2P Require Import StockHandlers.
From S2P Require Import WorkTasks.
From S2P Require Import Configuration.
From S2P Require Import Replenishment.
From S2P Require Import ReplenishmentPolicy.
From S2P Require Import ReplenishmentDb.

(** ** Lists and sums *)

Lemma dedup_NoDup l : NoDup l → dedup l = l.
Proof.
  induction 1 as [|x l Hx Hl IH]; cbn; [done|]. rewrite IH.
  destruct l as [|y l]; [done|]. destruct (Z.eqb_spec x y); [set_solver|done].
Qed.

Lemma checked_sum_ok l why v :
  checked_sum l why = Ok v → v = zsum l ∧ (l = [] ∨ in_i64 v).
Proof.
  unfold checked_sum. intros H.
  apply (rfold_inv _ (fun rest sum => sum + zsum rest = zsum l ∧
           (rest = l ∨ in_i64 sum)) l 0 v) in H; [| |split; [lia|by left]].
  - destruct H as [E Hr]. change (zsum []) with 0 in E. split; [lia|].
    destruct Hr as [<-|?]; [by left|by right].
  - intros x rest sum sum' Hx [E _]. unfold i64_checked_add in Hx. run Hx.
    apply checked_Some in E0 as [-> ?]. rewrite zsum_cons in E. split; [lia|right].
    unfold in_i64. lia.
Qed.

Lemma zsum_omap {A B} (j : A → option B) (P : B → bool) (g : B → Z) (l : list A) :
  zsum (g <$> List.filter P (omap j l)) =
  zsum ((fun x => match j x with Some y => if P y then g y else 0 | None => 0 end) <$> l).
Proof.
  induction l as [|x l IH]; [done|].
  change (omap j (x :: l)) with (match j x with Some y => y :: omap j l | None => omap j l end).
  rewrite fmap_cons, zsum_cons, <-IH. destruct (j x) as [y|]; [|lia]. cbn [List.filter].
  destruct (P y); [rewrite fmap_cons, zsum_cons|]; lia.
Qed.

Lemma ordered_rows_perm {A} (w : Z → A → bool) (t : Table A) :
  ordered_rows w t ≡ₚ List.filter (fun '(id, x) => w id x) (map_to_list (rows t)).
Proof. apply sort_by_perm. Qed.

Lemma elem_of_ordered_rows {A} (w : Z → A → bool) (t : Table A) id x :
  (id, x) ∈ ordered_rows w t ↔ rows t !! id = Some x ∧ w id x = true.
Proof. by rewrite ordered_rows_perm, elem_of_filter_bool, elem_of_map_to_list. Qed.

Lemma ordered_rows_NoDup {A} (w : Z → A → bool) (t : Table A) : NoDup (fst <$> ordered_rows w t).
Proof. rewrite ordered_rows_perm. apply NoDup_filter_bool, NoDup_fst_map_to_list. Qed.

Lemma ordered_rows_sum {A} (w : Z → A → bool) (h : Z * A → Z) (t : Table A) :
  zsum (h <$> ordered_rows w t) = sum_rows (fun id x => if w id x then h (id, x) else 0) (rows t).
Proof.
  unfold sum_rows. rewrite (zsum_perm _ (h <$> List.filter (fun '(id, x) => w id x) (map_to_list (rows t))))
    by (by rewrite ordered_rows_perm).
  induction (map_to_list (rows t)) as [|[id x] l IH]; [done|].
  rewrite (fmap_cons _ (id, x)), zsum_cons, <-IH. cbn [List.filter].
  destruct (w id x); [rewrite fmap_cons, zsum_cons|]; lia.
Qed.

(** Two filters that agree on the rows give the same rows, in the same order. *)
Lemma ordered_rows_ext {A} (w w' : Z → A → bool) (t : Table A) :
  (∀ id x, rows t !! id = Some x → w id x = w' id x) → ordered_rows w t = ordered_rows w' t.
Proof.
  intros H. unfold ordered_rows. f_equal. apply filter_ext_in. intros [id x] Hin.
  apply H. by apply elem_of_map_to_list, list_elem_of_In.
Qed.

(** ** The policy of a row *)

Lemma rmapM_positive l out : rmapM positive_id l = Ok out → out = l ∧ Forall (fun x => 0 < x) l.
Proof.
  intros H%rmapM_ok. induction H as [|x y l out Hx _ [-> IH]]; [by split|].
  apply positive_new_ok in Hx as [-> ?]. split; [done|by constructor].
Qed.

Lemma policy_from_row_ok id row p :
  policy_from_row id row = Ok p →
  ∃ sources, sources = dedup (sort_by Z.compare (pol_sources row)) ∧
    p = MkPolicy id (MkPolicyDefinition (pol_scope row)
          (MkThresholds (pol_minimum row) (pol_target row)) sources)
          (pol_revision row) (pol_effective_to row) ∧
    0 ≤ pol_minimum row < pol_target row ∧ sources ≠ [] ∧ 0 < pol_revision row ∧
    (scope_pick_face (pol_scope row) ∉ sources) ∧ 0 < id.
Proof.
  unfold policy_from_row. intros H.
  do 5 (apply rbind_ok in H as (? & _ & H)).
  apply rbind_ok in H as (ids & Hids & H). apply rmapM_positive in Hids as [-> _].
  apply rbind_ok in H as (? & _ & H).
  unfold level, internal, ReplenishmentLevel_new, nonnegative_new, ReplenishmentPolicyThresholds_new,
    ReplenishmentReserveSourceLocationIds_new, ReplenishmentPolicyDefinition_new,
    ReplenishmentPolicyRevision_new, positive_id, positive_new, reserve_contains in H.
  run H. eexists. split_and!; try done; try lia.
Qed.

(** ** Executable locations *)

Lemma executable_from_count s d :
  NoDup (reserve_source_location_ids d) →
  scope_pick_face (policy_scope d) ∉ reserve_source_location_ids d →
  executable_location_count s d = Z.of_nat (length (reserve_source_location_ids d)) + 1 →
  executable s (scope_facility (policy_scope d)) true (scope_pick_face (policy_scope d)) = true ∧
  ∀ l, l ∈ reserve_source_location_ids d →
    executable s (scope_facility (policy_scope d)) false l = true.
Proof.
  intros Hnd Hpf Hcount. unfold executable_location_count, count_rows in Hcount.
  set (f := fun (x : Z * LocationRow) => _) in Hcount.
  set (rowsl := List.filter f (map_to_list (locations (directory (stock s))))) in *.
  set (wanted := scope_pick_face (policy_scope d) :: reserve_source_location_ids d).
  assert (Hf : ∀ id l, (id, l) ∈ rowsl →
            id = scope_pick_face (policy_scope d) ∧
              executable s (scope_facility (policy_scope d)) true id = true ∨
            id ∈ reserve_source_location_ids d ∧
              executable s (scope_facility (policy_scope d)) false id = true).
  { intros id l [_ Hid]%elem_of_filter_bool. unfold f in Hid.
    apply orb_true_iff in Hid as [Hid|Hid]; apply andb_true_iff in Hid as [H1 H2]; bool_to_prop;
      naive_solver. }
  assert (Hsub : fst <$> rowsl ⊆+ wanted).
  { apply NoDup_submseteq; [apply NoDup_filter_bool, NoDup_fst_map_to_list|].
    intros id ([id' l] & -> & Hin)%list_elem_of_fmap. unfold wanted. cbn.
    destruct (Hf _ _ Hin) as [[-> _]|[? _]]; set_solver. }
  assert (Hperm : fst <$> rowsl ≡ₚ wanted).
  { apply submseteq_length_Permutation; [done|]. unfold wanted. cbn [length]. rewrite length_fmap. lia. }
  assert (Hin : ∀ id, id ∈ wanted → ∃ l, (id, l) ∈ rowsl).
  { intros id Hid. rewrite <-Hperm in Hid. apply list_elem_of_fmap in Hid as ([? l] & -> & ?). by exists l. }
  split.
  - destruct (Hin (scope_pick_face (policy_scope d))) as [l Hl]; [unfold wanted; set_solver|].
    destruct (Hf _ _ Hl) as [[_ ?]|[? _]]; [done|set_solver].
  - intros x Hx. destruct (Hin x) as [l Hl]; [unfold wanted; set_solver|].
    destruct (Hf _ _ Hl) as [[-> _]|[_ ?]]; [set_solver|done].
Qed.

Lemma executable_place s facility pickable id :
  executable s facility pickable id = true →
  ∃ p barcode, places s !! id = Some p ∧ place_barcode p = Some barcode.
Proof.
  unfold executable. destruct (locations _ !! id), (places s !! id) as [p|]; try done.
  intros H. bool_to_prop. destruct (place_barcode p) as [b|] eqn:E; [by exists p, b|].
  match goal with H : scannable None = true |- _ => discriminate H end.
Qed.

(** ** Consistent tables *)

(** What the constraints of the schema and the other handlers maintain between the rows that
    planning reads. The indexes below are never reused. *)
Record planning_ready (s : Replenishments) : Prop := {
  ready_configurations id row : configurations s !! id = Some row → configuration_ok row;
  ready_policies id row : rows (policies s) !! id = Some row →
    NoDup (pol_sources row) ∧ 0 ≤ pol_minimum row < pol_target row ∧ pol_target row ≤ i64_max;
  ready_balances id b : rows (balances (stock s)) !! id = Some b →
    inventory_balances_checks b = true;
  (** a batch keeps its row, and it is only deleted without stock *)
  ready_batches id b : rows (balances (stock s)) !! id = Some b →
    ∃ row created, batch_of s (StockTypes.inventory_owner_id (position b))
                     (StockTypes.item_batch_id (position b)) = Some row ∧
      batch_created s !! StockTypes.item_batch_id (position b) = Some created ∧
      (batch_deleted row = true → free_qty b = 0);
  ready_tasks id t : replenishment_tasks s !! id = Some t → 0 < task_planned t ∧
    ∃ p, rows (policies s) !! task_policy t = Some p ∧
      task_owner t = scope_owner (pol_scope p) ∧ task_facility t = scope_facility (pol_scope p) ∧
      task_destination t = scope_pick_face (pol_scope p) ∧ task_item t = scope_item (pol_scope p) ∧
      task_uom t = scope_uom (pol_scope p);
  (** open work claims its source *)
  ready_claims id t : replenishment_tasks s !! id = Some t → task_closed t = false →
    claimed s (task_owner t) (task_facility t) (task_source_balance t) = true;
  ready_runs id run : rows (plan_runs s) !! id = Some run → id < next_id (plan_runs s);
  ready_task_runs id t : replenishment_tasks s !! id = Some t →
    task_plan_run t < next_id (plan_runs s) ∧ id < next_id (work_tasks s);
  ready_claim_ids id c : rows (movement_claims s) !! id = Some c →
    id < next_id (movement_claims s) ∧ claim_task c < next_id (work_tasks s);
  ready_next : 0 < next_id (plan_runs s) ∧ 0 < next_id (work_tasks s);
}.

Lemma free_qty_checked b :
  inventory_balances_checks b = true → free_qty b = qty_on_hand b - qty_reserved b - qty_held b ∧
    0 ≤ free_qty b.
Proof. unfold inventory_balances_checks, free_qty. intros H. bool_to_prop. lia. Qed.

(** ** The sums of the handler and of the trigger *)

Section reads.
Context (s : Replenishments) (Hready : planning_ready s).
Context (id : Z) (row : PolicyRow) (Hrow : rows (policies s) !! id = Some row).
Context (policy : Policy) (Hpolicy : policy_from_row id row = Ok policy).

Let d := definition policy.
Let scope := policy_scope d.

Lemma policy_facts :
  scope = pol_scope row ∧ policy_id policy = id ∧ policy_revision policy = pol_revision row ∧
  policy_thresholds d = MkThresholds (pol_minimum row) (pol_target row) ∧
  thresholds_ok (policy_thresholds d) ∧ 0 < id ∧ 0 < pol_revision row ∧
  policy_effective_to policy = pol_effective_to row ∧
  reserve_source_location_ids d ≡ₚ pol_sources row ∧ reserve_source_location_ids d ≠ [] ∧
  NoDup (reserve_source_location_ids d) ∧ (scope_pick_face scope ∉ reserve_source_location_ids d).
Proof.
  destruct (policy_from_row_ok _ _ _ Hpolicy) as (sources & Hs & Hp & Ht & Hne & Hr & Hpf & Hid).
  destruct (ready_policies _ Hready _ _ Hrow) as (Hnd & Hm & Hmax).
  assert (Hperm : sources ≡ₚ pol_sources row).
  { rewrite Hs, dedup_NoDup; [apply sort_by_perm|]. by rewrite sort_by_perm. }
  subst policy d scope. cbn. unfold thresholds_ok. cbn. split_and!; try done; try lia.
  by rewrite Hperm.
Qed.

Section executable_locations.
Context (Hpf : executable s (scope_facility scope) true (scope_pick_face scope) = true).
Context (Hsrc : ∀ l, l ∈ reserve_source_location_ids d → executable s (scope_facility scope) false l = true).

(** A balance that a query selects joins with its batch and location, or is empty. *)
Lemma joined_free i b :
  rows (balances (stock s)) !! i = Some b →
  (location_id (position b) = scope_pick_face scope ∨
   location_id (position b) ∈ reserve_source_location_ids d) →
  match joined s (i, b) with
  | Some r => src_balance_id r = i ∧ src_location_id r = location_id (position b) ∧
      src_free r = free_qty b
  | None => free_qty b = 0
  end.
Proof.
  intros Hb Hl. destruct (ready_batches _ Hready _ _ Hb) as (batch & created & Eb & Ec & Hdel).
  assert (∃ p barcode, places s !! location_id (position b) = Some p ∧
            place_barcode p = Some barcode) as (p & barcode & Ep & Ebar).
  { destruct Hl as [->|Hl]; [by eapply executable_place|]. by eapply executable_place, Hsrc. }
  unfold joined. cbn [fst snd]. rewrite Eb, Ec, Ep, Ebar.
  destruct (batch_deleted batch); [by apply Hdel|done].
Qed.

Lemma pick_face_sum :
  zsum (src_free <$> List.filter (fun r => src_location_id r =? scope_pick_face scope)
                       (planning_rows s d)) = computed_pick_face_free s scope.
Proof.
  unfold planning_rows. rewrite zsum_omap, ordered_rows_sum. unfold computed_pick_face_free.
  apply sum_rows_ext. intros i b Hb. unfold planning_where. fold scope.
  destruct (loose_stock scope b); cbn [andb]; [|done].
  destruct (Z.eqb_spec (location_id (position b)) (scope_pick_face scope)) as [E|E].
  - rewrite E, Hpf. cbn [andb orb]. pose proof (joined_free i b Hb (or_introl E)) as Hj.
    destruct (joined s (i, b)) as [r|]; [|done]. destruct Hj as (_ & -> & ->).
    by rewrite E, Z.eqb_refl.
  - cbn [andb orb]. destruct (bool_decide (_ ∈ _)) eqn:Ein; cbn [andb]; [|done]. bool_to_prop.
    destruct (_ && _); [|done]. pose proof (joined_free i b Hb (or_intror Ein)) as Hj.
    destruct (joined s (i, b)) as [r|]; [|done]. destruct Hj as (_ & -> & _).
    by rewrite (proj2 (Z.eqb_neq _ _) E).
Qed.

Definition source_rows : list SourceRow :=
  List.filter (fun r => negb (src_location_id r =? scope_pick_face scope)
    && negb (claimed s (scope_owner scope) (scope_facility scope) (src_balance_id r)))
    (planning_rows s d).

Lemma reserve_sum run :
  run_scope run = scope → run_policy run = id →
  zsum (src_free <$> source_rows) = computed_reserve_free s run.
Proof.
  intros Es Ep. destruct policy_facts as (_ & _ & _ & _ & _ & _ & _ & _ & Hperm & _ & _ & Hnpf).
  unfold source_rows, planning_rows. rewrite zsum_omap, ordered_rows_sum.
  unfold computed_reserve_free, policy_sources. rewrite Es, Ep, Hrow.
  apply sum_rows_ext. intros i b Hb. unfold planning_where. fold scope.
  destruct (loose_stock scope b); cbn [andb]; [|done].
  assert (Emem : bool_decide (location_id (position b) ∈ pol_sources row) =
                 bool_decide (location_id (position b) ∈ reserve_source_location_ids d)).
  { apply bool_decide_ext. by rewrite Hperm. }
  rewrite Emem. clear Emem.
  destruct (Z.eqb_spec (location_id (position b)) (scope_pick_face scope)) as [E|E].
  - rewrite (bool_decide_eq_false_2 (location_id (position b) ∈ _)) by (by rewrite E).
    rewrite E, Hpf. cbn [andb orb]. pose proof (joined_free i b Hb (or_introl E)) as Hj.
    destruct (joined s (i, b)) as [r|]; [|done]. destruct Hj as (_ & -> & _).
    by rewrite E, Z.eqb_refl.
  - cbn [andb orb]. destruct (bool_decide (_ ∈ _)) eqn:Ein; cbn [andb]; [|done]. bool_to_prop.
    rewrite (Hsrc _ Ein). cbn [andb].
    pose proof (joined_free i b Hb (or_intror Ein)) as Hj.
    destruct (claimed _ _ _ i) eqn:Ec; cbn [negb]; [done|].
    destruct (joined s (i, b)) as [r|]; [|done]. destruct Hj as (-> & -> & ->).
    by rewrite (proj2 (Z.eqb_neq _ _) E), Ec.
Qed.
End executable_locations.

Lemma inbound_sum run :
  run_scope run = scope → run_policy run = id →
  computed_active_inbound s run =
  sum_rows (fun _ t => if (task_policy t =? id) && negb (task_closed t) then task_planned t else 0)
    (replenishment_tasks s).
Proof.
  intros Es Ep. destruct policy_facts as (Esc & _). unfold computed_active_inbound. rewrite Es, Ep.
  apply sum_rows_ext. intros i t Ht.
  destruct (ready_tasks _ Hready _ _ Ht) as (_ & p & Hp & Ho & Hf & Hd & Hi & Hu).
  destruct (Z.eqb_spec (task_policy t) id) as [E|E].
  - rewrite E, Hrow in Hp. injection Hp as <-. rewrite Esc, Ho, Hf, Hd, Hi, Hu, !Z.eqb_refl.
    rewrite bool_decide_eq_true_2 by done. done.
  - cbn [andb]. rewrite !andb_false_r. done.
Qed.
End reads.
