(* ===== verification/ReplenishmentPlanning.v ===== *)
(** * Replenishment: planning with and without the checks of the database

    What the handler reads and decides, what the trigger on plan runs computes from the same
    rows, and the work it writes against the triggers on work and the deferred check. *)

From S2P Require Import Prelude.
From S2P Require Import RustStr.
From S2P Require Import Idempotency.
From S2P Require Import Outbox.
From S2P Require Import StockTypes.
From S2P Require Import StockDb.
From S2P Require Import StockJournal.
From S2P Require Import StockHandlers.
From S2P Require Import WorkTasks.
From S2P Require Import Configuration.
From S2P Require Import Replenishment.
From S2P Require Import ReplenishmentPolicy.
From S2P Require Import ReplenishmentDb.
From S2P Require Import ReplenishmentFacts.

Lemma source_from_rows l out : rmapM source_from_row l = Ok out → out = l.
Proof.
  intros H%rmapM_ok. induction H as [|x y l out Hx _ ->]; [done|].
  unfold source_from_row in Hx. run Hx. done.
Qed.

Lemma bigint_spec z v : bigint z = Ok v ↔ v = z ∧ in_i64 z.
Proof.
  unfold bigint, raise. destruct (checked i64_min i64_max z) eqn:E.
  - apply checked_Some in E as [-> ?]. split; [intros [= ->]; done|intros [-> _]; done].
  - apply checked_None in E. split; [done|]. intros [_ ?]. range_lia.
Qed.

Lemma level_ok z v : level z = Ok v ↔ v = z ∧ 0 ≤ z.
Proof.
  unfold level, internal, ReplenishmentLevel_new, nonnegative_new.
  destruct (Z.leb_spec 0 z); cbn; split; intros; destruct_and?; simplify_eq; auto; lia.
Qed.

(** ** The snapshot *)

Section snapshot.
Context (s : Replenishments) (Hready : planning_ready s).
Context (id : Z) (row : PolicyRow) (Hrow : rows (policies s) !! id = Some row).
Context (policy : Policy) (Hpolicy : policy_from_row id row = Ok policy).

Let d := definition policy.
Let scope := policy_scope d.

(** The facts that a snapshot is made of. *)
Definition snapshot_facts (include : bool) (snap : ReplenishmentPlanningSnapshot) (observed : Z)
    (sources : list SourceRow) : Prop :=
  executable s (scope_facility scope) true (scope_pick_face scope) = true ∧
  (∀ l, l ∈ reserve_source_location_ids d → executable s (scope_facility scope) false l = true) ∧
  sources = source_rows s policy ∧
  pick_face_free snap = computed_pick_face_free s scope ∧
  observed = sum_rows (fun _ t => if (task_policy t =? id) && negb (task_closed t)
                                  then task_planned t else 0) (replenishment_tasks s) ∧
  nonneg_i64 observed ∧ active_inbound snap = (if include then observed else 0) ∧
  unallocated_demand_of s scope = Ok (unallocated_demand snap) ∧
  reserve_free snap = zsum (src_free <$> sources) ∧ snapshot_ok snap.

Lemma lock_snapshot_facts include snap observed sources :
  lock_snapshot_tx s policy include = Ok (snap, observed, sources) →
  snapshot_facts include snap observed sources.
Proof.
  destruct (policy_facts s Hready id row Hrow policy Hpolicy)
    as (_ & Eid & _ & _ & _ & _ & _ & _ & _ & _ & Hnd & Hpf).
  unfold lock_snapshot_tx. fold d scope. destruct (Z.eqb_spec (executable_location_count s d)
    (Z.of_nat (length (reserve_source_location_ids d)) + 1)) as [Hc|]; [cbn [negb]|done].
  destruct (executable_from_count s d Hnd Hpf Hc) as [Hex Hsrc]. intros H.
  apply rbind_ok in H as (pick & Hpick & H). apply rbind_ok in H as (srcs & Hsrcs & H).
  apply rbind_ok in H as (inbound & Hin & H). apply rbind_ok in H as (demand & Hdem & H).
  apply rbind_ok in H as (reserve & Hres & H). apply rbind_ok in H as (obs & Hobs & H).
  apply rbind_ok in H as (pick' & Hpick' & H). apply rbind_ok in H as (dem' & Hdem' & H).
  apply rbind_ok in H as (res' & Hres' & H). apply rbind_ok in H as (snap' & Hsnap & H).
  injection H as <- <- <-. apply source_from_rows in Hsrcs. fold scope in Hsrcs.
  change (srcs = source_rows s policy) in Hsrcs.
  apply checked_sum_ok in Hpick as [Ep Hp]. apply checked_sum_ok in Hres as [Er Hr].
  apply level_ok in Hobs as [-> Ho], Hpick' as [-> Hpk], Hdem' as [-> Hd0], Hres' as [-> Hr0].
  unfold active_inbound_of in Hin. apply bigint_spec in Hin as [Ei Hi]. rewrite Eid in Ei, Hi.
  assert (Hdr : in_i64 demand).
  { unfold unallocated_demand_of in Hdem. apply rbind_ok in Hdem as (? & _ & [-> ?]%bigint_spec). done. }
  assert (in_i64 pick) by (destruct Hp as [E|?]; [rewrite E in Ep; cbn in Ep; range_lia|done]).
  assert (in_i64 reserve) by (destruct Hr as [E|?]; [rewrite E in Er; cbn in Er; range_lia|done]).
  unfold internal, map_err in Hsnap. destruct (ReplenishmentPlanningSnapshot_new _ _ _ _) eqn:En; [|done].
  injection Hsnap as <-. rewrite <-Ei in Hi.
  apply snapshot_new_ok in En as [-> Hok]; [|range_lia|destruct include; range_lia|range_lia|range_lia].
  unfold snapshot_facts. cbn [pick_face_free active_inbound unallocated_demand reserve_free].
  split_and!; try done; [|range_lia].
  rewrite Ep. by apply pick_face_sum.
Qed.

(** ** The trigger on plan runs *)

(** The domain plans nothing when the projected stock lies between the minimum and the
    required level, and leaves no gap; the trigger computes the gap all the same. *)
Definition gap_overlooked (decision : ReplenishmentPlanDecision) : bool :=
  bool_decide (outcome decision = NotNeeded)
  && (projected_free (snapshot decision) <? required_level decision).

Definition decision_of (dp : ReplenishmentDecisionPolicyReadModel)
    (snap : ReplenishmentPlanningSnapshot) : ReplenishmentPlanDecision :=
  plan_replenishment (MkThresholds (effective_minimum dp) (effective_target dp)) snap.

Section run.
Context (digest : list Z → rstr) (dp : ReplenishmentDecisionPolicyReadModel).
Context (Hdp : policy_sound digest (policy_thresholds d) dp).
Context (snap : ReplenishmentPlanningSnapshot) (observed : Z) (sources : list SourceRow).
Context (Hfacts : snapshot_facts (include_inbound_projection dp) snap observed sources).
Context (work_count actor planned_at : Z) (Hwork : work_count = 0 ↔ planned (decision_of dp snap) = 0).
Context (Hfrom : pol_effective_from row ≤ planned_at) (Hto : pol_effective_to row = None).

Let thresholds := MkThresholds (effective_minimum dp) (effective_target dp).
Let decision := decision_of dp snap.
Let run := plan_run_row policy dp thresholds observed decision work_count actor planned_at.

Lemma run_policy_found : run_policy_matches s run = true.
Proof.
  destruct (policy_facts s Hready id row Hrow policy Hpolicy)
    as (Esc & Eid & Erev & Eth & _ & _ & _ & _ & Hperm & _).
  destruct Hdp as (_ & Eom & Eot & _). unfold run_policy_matches, run, plan_run_row.
  cbn [run_policy run_scope run_planned_at run_policy_revision run_decision_policy
    run_source_location_count].
  rewrite Eid, Hrow, Hto. unfold d in *. rewrite Eom, Eot, Eth, Erev. cbn [minimum target].
  rewrite (bool_decide_eq_true_2 (pol_scope row = _)) by (symmetry; exact Esc).
  rewrite (proj2 (Z.leb_le _ _) Hfrom), Hperm, !Z.eqb_refl. done.
Qed.

Lemma validate_plan_run_decides :
  validate_replenishment_plan_run s run =
    if gap_overlooked decision then Err (db_error (Sqlstate "55000")) else Ok tt.
Proof.
  pose proof run_policy_found as Hpol.
  destruct Hdp as (_ & _ & _ & _ & Hth & _). fold thresholds in Hth.
  destruct Hfacts as (Hex & Hsrc & Hsources & Hpick & Hobs & Hnn & Hact & Hdem & Hres & Hok).
  destruct (policy_facts s Hready id row Hrow policy Hpolicy)
    as (_ & Epo & _ & _ & _ & _ & _ & _ & Hperm & _ & _ & Hnpf).
  destruct (plan_replenishment_spec thresholds snap Hth Hok) as (Ed & Hpos & Hgap).
  change (plan_replenishment thresholds snap) with decision in Ed.
  assert (Esc : run_scope run = scope) by done.
  assert (Erun : run_policy run = id) by exact Epo.
  unfold validate_replenishment_plan_run. rewrite Hpol, Esc, Hex, Erun.
  assert (Hall : List.filter (executable s (scope_facility scope) false) (policy_sources s id)
                 = policy_sources s id).
  { apply forallb_filter_id, forallb_forall. intros l Hl%list_elem_of_In. apply Hsrc.
    unfold policy_sources in Hl. rewrite Hrow in Hl. unfold d. by rewrite Hperm. }
  rewrite Hall, Z.eqb_refl, <-Hpick.
  rewrite (inbound_sum s Hready id row Hrow policy Hpolicy run Esc Erun), <-Hobs.
  rewrite <-(reserve_sum s Hready id row Hrow policy Hpolicy Hex Hsrc run Esc Erun), <-Hsources, <-Hres.
  unfold snapshot_ok in Hok. destruct_and! Hok.
  rewrite (proj2 (bigint_spec (pick_face_free snap) _)) by (split; [reflexivity|range_lia]).
  cbn [rbind]. rewrite (proj2 (bigint_spec observed _)) by (split; [reflexivity|range_lia]).
  cbn [rbind].
  change (include_inbound_projection (run_decision_policy run)) with (include_inbound_projection dp).
  rewrite <-Hact.
  match goal with H : projected_free snap = _ |- _ => rewrite <-H end.
  rewrite (proj2 (bigint_spec (projected_free snap) _)) by (split; [reflexivity|range_lia]).
  cbn [rbind]. rewrite Hdem. cbn [rbind].
  rewrite (proj2 (bigint_spec (reserve_free snap) _)) by (split; [reflexivity|range_lia]).
  cbn [rbind]. destruct Hth as [Hth1 Hth2].
  change (run_target run) with (target thresholds). change (run_minimum run) with (minimum thresholds).
  rewrite (proj2 (bigint_spec (Z.max (target thresholds) (unallocated_demand snap)
    - projected_free snap) _)) by (split; [reflexivity|range_lia]).
  cbn [rbind]. unfold run, plan_run_row.
  cbn [run_pick_face_free run_observed_active_inbound run_active_inbound run_projected_free
    run_unallocated_demand run_required_level run_target_gap run_reserve_free run_planned
    run_outcome run_work_count].
  assert (Esnap : snapshot decision = snap) by done. rewrite Esnap, !Z.eqb_refl. cbn [negb orb].
  assert (Hwe : Bool.eqb (planned decision =? 0) (work_count =? 0) = true).
  { destruct (Z.eqb_spec (planned decision) 0), (Z.eqb_spec work_count 0); cbn; try done; fold decision in Hwork; tauto. }
  rewrite Hwe. rewrite Ed. unfold gap_overlooked.
  cbn [required_level target_gap planned outcome snapshot remaining].
  fold (actionable thresholds snap).
  destruct (actionable thresholds snap) eqn:Ea; cbn beta iota zeta;
    cbn [negb orb].
  - specialize (Hpos eq_refl).
    set (gap := Z.max (target thresholds) (unallocated_demand snap) - projected_free snap) in *.
    rewrite Z.max_l by lia. rewrite !Z.eqb_refl.
    assert (Eo : (if Z.min gap (reserve_free snap) =? 0 then InsufficientReserve
                  else if Z.min gap (reserve_free snap) <? gap then PartiallyPlanned else FullyPlanned)
               = (if reserve_free snap =? 0 then InsufficientReserve
                  else if reserve_free snap <? gap then PartiallyPlanned else FullyPlanned)).
    { destruct (Z.eqb_spec (reserve_free snap) 0), (Z.eqb_spec (Z.min gap (reserve_free snap)) 0),
        (Z.ltb_spec (Z.min gap (reserve_free snap)) gap), (Z.ltb_spec (reserve_free snap) gap);
        try done; exfalso; range_lia. }
    rewrite Eo, bool_decide_eq_true_2 by done. cbn [negb orb].
    destruct (reserve_free snap =? 0), (reserve_free snap <? gap); done.
  - rewrite (bool_decide_eq_true_2 (NotNeeded = _)) by done. cbn [negb orb andb].
    rewrite Z.min_l by range_lia. rewrite Z.eqb_refl. cbn [negb orb].
    destruct (Z.ltb_spec (projected_free snap)
      (Z.max (target thresholds) (unallocated_demand snap))) as [Hlt|Hge].
    + rewrite (proj2 (Z.eqb_neq 0 _)) by lia. done.
    + rewrite (proj2 (Z.eqb_eq 0 _)) by lia. done.
Qed.

Lemma plan_run_checks_decides :
  0 ≤ work_count → gap_overlooked decision = false → plan_run_checks run = true.
Proof.
  intros Hwc0 Hgo. destruct Hdp as (_ & _ & _ & _ & Hth & _). fold thresholds in Hth.
  destruct Hfacts as (_ & _ & _ & _ & _ & Hnn & Hact & _ & _ & Hok).
  destruct (policy_facts s Hready id row Hrow policy Hpolicy)
    as (_ & _ & Erev & _ & _ & _ & Hrev & _ & _ & Hne & _ & _).
  destruct (plan_replenishment_spec thresholds snap Hth Hok) as (Ed & Hpos & Hgap).
  change (plan_replenishment thresholds snap) with decision in Ed.
  unfold snapshot_ok in Hok. destruct_and! Hok. destruct Hth as [Hth1 Hth2].
  assert (Hlen : 0 < Z.of_nat (length (reserve_source_location_ids (definition policy)))).
  { destruct (reserve_source_location_ids (definition policy)); [done|cbn; lia]. }
  unfold plan_run_checks, run, plan_run_row.
  cbn [run_minimum run_target run_source_location_count run_decision_policy
    run_pick_face_free run_observed_active_inbound run_active_inbound run_projected_free
    run_unallocated_demand run_required_level run_target_gap run_reserve_free run_planned
    run_outcome run_work_count run_policy_revision].
  fold decision in Hwork. unfold gap_overlooked in Hgo. rewrite Erev. rewrite Ed in Hwork, Hgo |- *.
  cbn [required_level target_gap planned outcome snapshot remaining] in Hwork, Hgo |- *.
  fold (actionable thresholds snap). rewrite Hact.
  destruct (actionable thresholds snap) eqn:Ea.
  - specialize (Hpos eq_refl).
    set (gap := Z.max (target thresholds) (unallocated_demand snap) - projected_free snap) in *.
    destruct (Z.eqb_spec (reserve_free snap) 0), (Z.ltb_spec (reserve_free snap) gap);
      repeat (apply andb_true_intro; split); try done;
      rewrite ?Z.leb_le, ?Z.ltb_lt, ?Z.eqb_eq; destruct (include_inbound_projection dp); range_lia.
  - rewrite (bool_decide_eq_true_2 (NotNeeded = _)) in Hgo by done. cbn [andb] in Hgo.
    bool_to_prop. rewrite Z.min_l in * by range_lia.
    repeat (apply andb_true_intro; split); try done;
      rewrite ?Z.leb_le, ?Z.ltb_lt, ?Z.eqb_eq; destruct (include_inbound_projection dp); range_lia.
Qed.

Lemma decision_policy_validated :
  resolve_decision_policy_tx digest (configurations s) d planned_at = Ok dp →
  validate_decision_policy_snapshot digest s run = true.
Proof.
  intros Hres.
  destruct (policy_facts s Hready id row Hrow policy Hpolicy) as (_ & _ & _ & _ & Hth & _).
  destruct (resolve_decision_policy_sound digest (configurations s) d planned_at
    (ready_configurations _ Hready) Hth) as (p & Hp & Hsound & Hm).
  rewrite Hres in Hp. injection Hp as <-.
  pose proof (resolved_is_greatest (configurations s) (scope_owner scope) (scope_facility scope)
    planned_at) as Hg.
  unfold validate_decision_policy_snapshot, run, plan_run_row.
  cbn [run_decision_policy run_scope run_planned_at run_minimum run_target thresholds minimum target].
  apply andb_true_intro. split; cycle 1.
  { apply bool_decide_eq_true_2. destruct Hsound as (Hc & _). unfold is_consistent in Hc.
    bool_to_prop. match goal with H : policy_hash dp = _ |- _ => rewrite H at 1 end.
    destruct dp. reflexivity. }
  fold d scope in Hm |- *.
  destruct (resolved_configuration _ _ _ _) as [[cid c]|].
  - destruct Hm as (Ei & Er & Es & -> & low & high & Edef & El & Eh).
    destruct Hg as (Hin%elem_of_map_to_list & Happ & _). rewrite Ei. cbn [mbind option_bind fst fmap option_fmap option_map].
    rewrite Hin, Er, Es, El, Eh. cbn [snd] in Happ. unfold configuration_applies in Happ. bool_to_prop.
    rewrite !bool_decide_eq_true_2 by done.
    repeat match goal with H : match ?x with _ => _ end = true |- _ => destruct x end;
      try done; repeat (apply andb_true_intro; split); try done; by apply Z.leb_le || by apply Z.ltb_lt.
  - subst dp. done.
Qed.
End run.
End snapshot.
