(* ===== verification/ReplenishmentWork.v ===== *)
(** * Replenishment: the work of a plan

    The sources that planning selects and the rows it writes for them, with the triggers on
    work and the deferred check that the work is the deterministic selection. *)

From S2P Require Import Prelude.
From S2P Require Import RustStr.
From S2P Require Import Idempotency.
From S2P Require Import Outbox.
From S2P Require Import StockTypes.
From S2P Require Import StockDb.
From S2P Require Import StockJournal.
From S2P Require Import StockHandlers.
From S2P Require Import WorkTasks.
From S2P Require Import Configuration.
From S2P Require Import Replenishment.
From S2P Require Import ReplenishmentPolicy.
From S2P Require Import ReplenishmentDb.
From S2P Require Import ReplenishmentFacts.
From S2P Require Import ReplenishmentPlanning.

(** ** Claims *)

Definition active_claim (o f b : Z) (c : ClaimRow) : Prop :=
  claim_owner c = o ∧ claim_facility c = f ∧ claim_balance c = b ∧ claim_released c = false.

Lemma claimed_spec s o f b :
  claimed s o f b = true ↔ ∃ i c, rows (movement_claims s) !! i = Some c ∧ active_claim o f b c.
Proof.
  unfold claimed, active_claim. rewrite existsb_exists. setoid_rewrite <-list_elem_of_In. split.
  - intros ([i c] & Hin%elem_of_map_to_list & H). bool_to_prop. eauto 10.
  - intros (i & c & Hin%elem_of_map_to_list & <- & <- & <- & Hr). exists (i, c).
    split; [done|]. by rewrite !Z.eqb_refl, Hr.
Qed.

Lemma claimed_elsewhere_spec s run o f b :
  claimed_elsewhere s run o f b = true ↔
  ∃ i c, rows (movement_claims s) !! i = Some c ∧ active_claim o f b c ∧
    ¬ (claim_kind c = ReplenishmentClaim ∧
       ∃ t, replenishment_tasks s !! claim_task c = Some t ∧ task_plan_run t = run).
Proof.
  unfold claimed_elsewhere, active_claim. rewrite existsb_exists. setoid_rewrite <-list_elem_of_In.
  split.
  - intros ([i c] & Hin%elem_of_map_to_list & H). apply andb_true_iff in H as [H Hn].
    apply negb_true_iff, not_true_iff_false in Hn. bool_to_prop. exists i, c.
    split_and!; try done. intros (Hk & t & Ht & Hr). apply Hn.
    by rewrite bool_decide_eq_true_2, Ht, Hr, Z.eqb_refl.
  - intros (i & c & Hin%elem_of_map_to_list & (<- & <- & <- & Hr) & Hn). exists (i, c).
    split; [done|]. rewrite !Z.eqb_refl, Hr. cbn [andb negb]. apply negb_true_iff, not_true_iff_false.
    intros [Hk Ht]%andb_true_iff. apply Hn. bool_to_prop.
    destruct (replenishment_tasks s !! claim_task c) as [t|]; [|done]. bool_to_prop. eauto.
Qed.

(** ** The rows of one piece of work *)

(** The tables with a task, its header and its claim. *)
Definition written (s : Replenishments) (actor : Z) (demand_driven : bool) (t : TaskRow) :
    Replenishments :=
  let id := next_id (work_tasks s) in
  MkReplenishments (stock s) (places s) (batch_created s) (item_barcodes s) (configurations s)
    (short_dispositions s) (backorder_lines s) (policies s) (plan_runs s)
    (insert_row (work_tasks s) (MkWorkTask ReplenishmentTask TaskOpen (Some (task_facility t))
       (Some (task_owner t)) (if demand_driven then 90 else 60) (30 * 60) None (Some actor) false))
    (<[id := t]> (replenishment_tasks s))
    (insert_row (movement_claims s) (MkClaim (task_owner t) (task_facility t)
       (task_source_balance t) id ReplenishmentClaim false))
    (replenishment_outbox s).

(** What the triggers ask of a task. *)
Definition admissible (s : Replenishments) (actor : Z) (demand_driven : bool) (t : TaskRow) : bool :=
  validate_replenishment_task
    (insert_task_tx s (task_facility t) (task_owner t) (if demand_driven then 90 else 60)
       (30 * 60) actor).1 (next_id (work_tasks s)) t
  && task_checks t && task_unique s t.

Lemma insert_work_spec (guards : bool) s actor policy plan source free dd :
  (guards = true → admissible s actor dd (task_of policy plan source free) = true) →
  insert_work_tx guards s actor policy plan source free dd =
    let? _ := positive_id (next_id (work_tasks s)) in
    Ok (written s actor dd (task_of policy plan source free), next_id (work_tasks s)).
Proof.
  intros Hadm. unfold insert_work_tx, claim_loose_inventory_movement_source, guard.
  generalize dependent (task_of policy plan source free). intros t Hadm.
  destruct guards; [|reflexivity]. specialize (Hadm eq_refl). unfold admissible in Hadm.
  apply andb_true_iff in Hadm as [Hadm Hun]. apply andb_true_iff in Hadm as [Hval Hch].
  assert (Hnc : claimed s (task_owner t) (task_facility t) (task_source_balance t) = false).
  { unfold validate_replenishment_task in Hval. apply andb_true_iff in Hval as [_ Hc]. bool_to_prop. done. }
  unfold insert_task_tx in *. cbn [fst negb orb] in *. rewrite Hval, Hch. cbn [ensure rbind].
  match goal with |- context [task_unique ?s' ?t'] =>
    assert (Hu : task_unique s' t' = true) by exact Hun end.
  rewrite Hu. cbn [ensure rbind work_tasks rows set_work_tasks insert_row set_replenishment_tasks].
  rewrite lookup_insert, decide_True by done. cbn [work_owner work_facility work_type].
  rewrite !bool_decide_eq_true_2 by done. cbn [ensure rbind andb].
  match goal with |- context [claimed ?s' _ _ _] =>
    assert (Hc : claimed s' (task_owner t) (task_facility t) (task_source_balance t) = false) by exact Hnc end.
  rewrite Hc. reflexivity.
Qed.

Lemma executable_frame s s' facility pickable l :
  stock s' = stock s → places s' = places s →
  executable s' facility pickable l = executable s facility pickable l.
Proof. unfold executable. by intros -> ->. Qed.

Lemma batch_of_frame s s' owner batch :
  stock s' = stock s → batch_of s' owner batch = batch_of s owner batch.
Proof. unfold batch_of. by intros ->. Qed.

(** ** The sources *)

(** The candidate that a source is. *)
Definition candidate_of (policy : Policy) (r : SourceRow) : ReplenishmentSourceCandidate :=
  let scope := policy_scope (definition policy) in
  MkSourceCandidate (scope_tenant scope) (scope_owner scope) (scope_facility scope)
    (src_location_id r) (src_balance_id r) (src_batch_id r) (scope_item scope) (scope_uom scope)
    (src_lot r) (src_serial r) (src_expiration r) (src_received_at r) Available (src_free r).

Lemma eligible_source_ok policy r c :
  eligible_source policy r = Ok c → c = candidate_of policy r ∧ 0 < src_free r.
Proof.
  unfold eligible_source, domain_candidate, assess_replenishment_source.
  intros H. apply rbind_ok in H as (x & Hx & H). apply rbind_ok in Hx as (free & Hf & [= <-]).
  apply level_ok in Hf as [-> Hf]. run H. cbn in *. split; [done|lia].
Qed.

Lemma eligible_sources_ok policy sources out :
  rmapM (eligible_source policy) sources = Ok out →
  out = candidate_of policy <$> sources ∧ Forall (fun r => 0 < src_free r) sources.
Proof.
  intros H%rmapM_ok. induction H as [|r c l out Hr _ [-> IH]]; [by split|].
  apply eligible_source_ok in Hr as [-> ?]. split; [done|by constructor].
Qed.

(** Distinct rows join to distinct rows. *)
Lemma omap_NoDup {A B K} (j : A → option B) (k : A → K) (h : B → K) (l : list A) :
  (∀ x y, x ∈ l → j x = Some y → h y = k x) → NoDup (k <$> l) → NoDup (h <$> omap j l).
Proof.
  induction l as [|x l IH]; intros Hk Hnd; [constructor|]. rewrite fmap_cons in Hnd.
  apply NoDup_cons in Hnd as [Hx Hnd].
  change (omap j (x :: l)) with (match j x with Some y => y :: omap j l | None => omap j l end).
  assert (IH' : NoDup (h <$> omap j l)) by (apply IH; [set_solver|done]).
  destruct (j x) as [y|] eqn:E; [|done]. rewrite fmap_cons. apply NoDup_cons. split; [|done].
  intros (y' & Ey & (x' & Hx' & Ej)%list_elem_of_omap)%list_elem_of_fmap.
  apply Hx. rewrite <-(Hk x y), Ey, (Hk x' y'); [by apply list_elem_of_fmap_2|set_solver..|set_solver|done].
Qed.

Lemma joined_balance s r y : joined s r = Some y → src_balance_id y = r.1.
Proof. unfold joined. intros H. repeat case_match; simplify_eq; done. Qed.

Lemma joined_location s r y : joined s r = Some y → src_location_id y = location_id (position r.2).
Proof. unfold joined. intros H. repeat case_match; simplify_eq; done. Qed.

Section sources.
Context (s : Replenishments) (Hready : planning_ready s).
Context (id : Z) (row : PolicyRow) (Hrow : rows (policies s) !! id = Some row).
Context (policy : Policy) (Hpolicy : policy_from_row id row = Ok policy).

Let d := definition policy.
Let scope := policy_scope d.

Lemma source_rows_NoDup : NoDup (src_balance_id <$> source_rows s policy).
Proof.
  unfold source_rows. apply NoDup_filter_bool. unfold planning_rows.
  apply (omap_NoDup _ fst); [|apply ordered_rows_NoDup]. intros x y _. apply joined_balance.
Qed.

(** Where a source comes from. *)
Lemma source_rows_origin r :
  r ∈ source_rows s policy →
  ∃ b, rows (balances (stock s)) !! src_balance_id r = Some b ∧
    joined s (src_balance_id r, b) = Some r ∧ loose_stock scope b = true ∧
    location_id (position b) ∈ reserve_source_location_ids d ∧
    executable s (scope_facility scope) false (location_id (position b)) = true ∧
    claimed s (scope_owner scope) (scope_facility scope) (src_balance_id r) = false.
Proof.
  unfold source_rows. intros [Hin Hb]%elem_of_filter_bool. bool_to_prop.
  unfold planning_rows in Hin. apply list_elem_of_omap in Hin as ([i b] & Hin & Hj).
  apply elem_of_ordered_rows in Hin as [Hi Hw]. pose proof (joined_balance _ _ _ Hj) as Ei.
  cbn in Ei. subst i. exists b. unfold planning_where in Hw.
  apply andb_true_iff in Hw as [Hl Hw]. fold d scope in Hw, Hl.
  assert (El : src_location_id r = location_id (position b)) by apply (joined_location _ _ _ Hj).
  match goal with H : src_location_id r ≠ _ |- _ => rewrite El in H; fold d scope in H;
    rewrite (proj2 (Z.eqb_neq _ _) H) in Hw end.
  cbn [andb orb] in Hw. apply andb_true_iff in Hw as [Hw _]. bool_to_prop. split_and!; done.
Qed.

Lemma source_rows_spec r :
  r ∈ source_rows s policy →
  ∃ b batch, rows (balances (stock s)) !! src_balance_id r = Some b ∧
    loose_stock scope b = true ∧ src_location_id r = location_id (position b) ∧
    src_batch_id r = StockTypes.item_batch_id (position b) ∧
    src_free r = qty_on_hand b - qty_reserved b - qty_held b ∧ 0 ≤ src_free r ∧
    batch_of s (scope_owner scope) (src_batch_id r) = Some batch ∧
    batch_created s !! src_batch_id r = Some (src_received_at r) ∧
    batch_trace batch = (src_lot r, src_expiration r, src_serial r) ∧
    src_location_id r ∈ reserve_source_location_ids d ∧
    executable s (scope_facility scope) false (src_location_id r) = true ∧
    claimed s (scope_owner scope) (scope_facility scope) (src_balance_id r) = false.
Proof.
  intros (b & Hb & Hj & Hl & Hin & Hex & Hc)%source_rows_origin.
  destruct (free_qty_checked b (ready_balances _ Hready _ _ Hb)) as [Ef Hf].
  assert (Eo : StockTypes.inventory_owner_id (position b) = scope_owner scope).
  { unfold loose_stock in Hl. bool_to_prop. done. }
  unfold joined in Hj. cbn [fst snd] in Hj. rewrite Eo in Hj.
  destruct (batch_of _ _ _) as [batch|] eqn:Eb; [|done].
  destruct (batch_created s !! _) as [created|] eqn:Ec; [|done].
  destruct (places s !! _) as [place|]; [|done]. destruct (place_barcode place); [|done].
  destruct (batch_deleted batch); [done|]. injection Hj as <-. cbn in Hb |- *.
  exists b, batch. split_and!; try done. by destruct (batch_trace batch) as [[]].
Qed.

(** A source is eligible exactly if something of it is free. *)
Lemma eligible_source_decides r :
  r ∈ source_rows s policy →
  eligible_source policy r =
    if src_free r =? 0 then Err (Internal "locked replenishment source is ineligible")
    else Ok (candidate_of policy r).
Proof.
  intros Hr. destruct (source_rows_spec r Hr)
    as (b & batch & _ & _ & _ & _ & _ & Hf & _ & _ & _ & Hin & _ & _).
  destruct (policy_facts s Hready id row Hrow policy Hpolicy)
    as (_ & _ & _ & _ & _ & _ & _ & _ & _ & _ & _ & Hpf).
  assert (Hne : src_location_id r ≠ scope_pick_face scope).
  { intros E. fold d scope in Hpf. rewrite <-E in Hpf. done. }
  unfold eligible_source, domain_candidate. rewrite (proj2 (level_ok _ _) (conj eq_refl Hf)).
  cbn [rbind]. unfold assess_replenishment_source, reserve_contains.
  cbn [tenant_id inventory_owner_id facility_id source_location_id item_id uom inventory_status
    free_quantity].
  fold d scope. rewrite !Z.eqb_refl, (proj2 (Z.eqb_neq _ _) Hne), !bool_decide_eq_true_2 by done.
  cbn [negb]. by destruct (src_free r =? 0).
Qed.
End sources.

(** ** The loop over the selected sources *)

Lemma source_by_id_spec sources r :
  NoDup (src_balance_id <$> sources) → r ∈ sources → source_by_id sources (src_balance_id r) = Some r.
Proof.
  intros Hnd Hr. unfold source_by_id.
  destruct (list_find _ sources) as [[i r']|] eqn:E; cbn [mbind option_bind snd].
  - apply list_find_Some in E as (Hi & Er & _). f_equal.
    apply (NoDup_fmap_inj_on src_balance_id sources); [done| |done|done].
    by apply list_elem_of_lookup_2 in Hi.
  - apply list_find_None in E. rewrite Forall_forall in E. by destruct (E r Hr).
Qed.

Definition source_free (sources : list SourceRow) (w : PlannedReplenishmentSource) : Z :=
  match source_by_id sources (ps_balance w) with Some r => src_free r | None => 0 end.

Section work.
Context (s : Replenishments) (Hready : planning_ready s).
Context (id : Z) (row : PolicyRow) (Hrow : rows (policies s) !! id = Some row).
Context (policy : Policy) (Hpolicy : policy_from_row id row = Ok policy).

Let d := definition policy.
Let scope := policy_scope d.
Let sources := source_rows s policy.
Let plan := next_id (plan_runs s).

Context (Hex : executable s (scope_facility scope) true (scope_pick_face scope) = true).
Context (Hsrc : ∀ l, l ∈ reserve_source_location_ids d → executable s (scope_facility scope) false l = true).
Context (Hstock : Forall (fun r => 0 < src_free r) sources).
Context (run : PlanRunRow) (Hscope : run_scope run = scope) (Hrpol : run_policy run = id).
Context (Hrrev : run_policy_revision run = policy_revision policy).
Context (Hout : run_planned run ≠ 0 → run_outcome run ∈ [PartiallyPlanned; FullyPlanned]).

Let candidates := candidate_of policy <$> sources.
Let work := reference_sources (run_planned run) 1 0 (sort_by compare_eligible_sources candidates).

Definition task_for (w : PlannedReplenishmentSource) : TaskRow :=
  task_of policy plan w (source_free sources w).

Lemma candidates_stocked : stocked_sources (sort_by compare_eligible_sources candidates).
Proof.
  unfold stocked_sources. rewrite sort_by_perm. unfold candidates. apply Forall_fmap. exact Hstock.
Qed.

Lemma candidates_ids : source_inventory_balance_id <$> candidates = src_balance_id <$> sources.
Proof. unfold candidates. rewrite <-list_fmap_compose. done. Qed.

Lemma source_candidates_NoDup : NoDup (source_inventory_balance_id <$> candidates).
Proof. rewrite candidates_ids. apply source_rows_NoDup. Qed.

Lemma work_balances : NoDup (ps_balance <$> work).
Proof.
  eapply sublist_NoDup; [|apply reference_balances]. rewrite sort_by_perm. apply source_candidates_NoDup.
Qed.

Lemma work_sequences : NoDup (sequence <$> work).
Proof. unfold work. rewrite reference_sequences by apply candidates_stocked. apply NoDup_seqZ. Qed.

(** A selected source is a part of a row that was read. *)
Lemma work_source w :
  w ∈ work →
  ∃ r, r ∈ sources ∧ w = planned_source (candidate_of policy r) (sequence w) (ps_quantity w) ∧
    0 < ps_quantity w ≤ src_free r ∧ 1 ≤ sequence w ∧ source_free sources w = src_free r ∧
    source_by_id sources (ps_balance w) = Some r.
Proof.
  intros (c & Hc & Ew & Hq & Hn)%reference_elem; [|apply candidates_stocked].
  rewrite sort_by_perm in Hc. apply list_elem_of_fmap in Hc as (r & -> & Hr).
  assert (Hid : source_by_id sources (ps_balance w) = Some r).
  { rewrite Ew. apply source_by_id_spec; [apply source_rows_NoDup|done]. }
  exists r. unfold source_free. rewrite Hid. done.
Qed.

(** What the rows are after the work of [done] was written. *)
Record progress (done : list PlannedReplenishmentSource) (s1 : Replenishments) : Prop := {
  pr_stock : stock s1 = stock s;
  pr_places : places s1 = places s;
  pr_created : batch_created s1 = batch_created s;
  pr_policies : policies s1 = policies s;
  pr_run : rows (plan_runs s1) !! plan = Some run;
  pr_next : next_id (work_tasks s) ≤ next_id (work_tasks s1);
  pr_claims i c : rows (movement_claims s1) !! i = Some c → i < next_id (movement_claims s1) ∧
    (rows (movement_claims s) !! i = Some c ∨
     claim_kind c = ReplenishmentClaim ∧ claim_owner c = scope_owner scope ∧
     claim_facility c = scope_facility scope ∧ claim_balance c ∈ ps_balance <$> done ∧
     ∃ t, replenishment_tasks s1 !! claim_task c = Some t ∧ task_plan_run t = plan);
  pr_old_claims i c : rows (movement_claims s) !! i = Some c → rows (movement_claims s1) !! i = Some c;
  pr_tasks i t : replenishment_tasks s1 !! i = Some t → i < next_id (work_tasks s1) ∧
    (replenishment_tasks s !! i = Some t ∨
     next_id (work_tasks s) ≤ i ∧ ∃ w, w ∈ done ∧ t = task_for w);
  pr_run_tasks : run_tasks s1 plan ≡ₚ task_for <$> done;
}.

Lemma progress_start s0 :
  stock s0 = stock s → places s0 = places s → batch_created s0 = batch_created s →
  policies s0 = policies s → work_tasks s0 = work_tasks s →
  replenishment_tasks s0 = replenishment_tasks s → movement_claims s0 = movement_claims s →
  rows (plan_runs s0) !! plan = Some run → progress [] s0.
Proof.
  intros E1 E2 E3 E4 E5 E6 E7 E8. split; try done; rewrite ?E5, ?E6, ?E7; try done.
  - intros i c Hc. split; [by apply (ready_claim_ids _ Hready _ _ Hc)|by left].
  - intros i t Ht. split; [by apply (ready_task_runs _ Hready _ _ Ht)|by left].
  - cbn. unfold run_tasks. rewrite E6.
    destruct (List.filter _ _) as [|[i t] l] eqn:E; [done|].
    assert (Hin : (i, t) ∈ (i, t) :: l) by set_solver. rewrite <-E in Hin.
    apply elem_of_filter_bool in Hin as [Hin%elem_of_map_to_list Ht]. bool_to_prop.
    pose proof (proj1 (ready_task_runs _ Hready _ _ Hin)). unfold plan in Ht. lia.
Qed.

Lemma run_tasks_insert s1 i t :
  replenishment_tasks s1 !! i = None → task_plan_run t = plan →
  run_tasks (set_replenishment_tasks (<[i := t]> (replenishment_tasks s1)) s1) plan ≡ₚ
    t :: run_tasks s1 plan.
Proof.
  intros Hi Ht. unfold run_tasks. cbn [replenishment_tasks set_replenishment_tasks].
  rewrite map_to_list_insert by done. cbn [List.filter]. by rewrite Ht, Z.eqb_refl.
Qed.

Lemma progress_step done s1 actor dd w :
  progress done s1 → progress (done ++ [w]) (written s1 actor dd (task_for w)).
Proof.
  intros P.
  assert (Hfresh : replenishment_tasks s1 !! next_id (work_tasks s1) = None).
  { apply eq_None_not_Some. intros [t Ht]. apply (pr_tasks _ _ P) in Ht as [? _]. lia. }
  assert (Hfc : rows (movement_claims s1) !! next_id (movement_claims s1) = None).
  { apply eq_None_not_Some. intros [c Hc]. apply (pr_claims _ _ P) in Hc as [? _]. lia. }
  destruct P as [E1 E2 E3 E4 E5 E6 Hcl Hold Htk Hrt].
  split; try done; cbn [work_tasks movement_claims replenishment_tasks written insert_row rows next_id].
  - lia.
  - intros i c. rewrite lookup_insert_Some. intros [[<- <-]|[Hne Hc]].
    + split; [lia|right]. cbn. split_and!; try done; [set_solver|].
      exists (task_for w). by rewrite lookup_insert, decide_True.
    + apply Hcl in Hc as [Hlt Hc]. split; [lia|].
      destruct Hc as [Hc|(Hk & Ho & Hf & Hb & t & Ht & Hp)]; [by left|right].
      split_and!; try done; [set_solver|]. exists t. split; [|done].
      rewrite lookup_insert_ne; [done|]. intros E. by rewrite <-E, Hfresh in Ht.
  - intros i c Hc. rewrite lookup_insert_ne; [by apply Hold|]. intros <-.
    apply Hold in Hc. by rewrite Hfc in Hc.
  - intros i t. rewrite lookup_insert_Some. intros [[<- <-]|[Hne Ht]].
    + split; [lia|right]. split; [lia|]. exists w. split; [set_solver|done].
    + apply Htk in Ht as [Hlt Ht]. split; [lia|]. destruct Ht as [Ht|(Hge & w' & Hw & ->)]; [by left|].
      right. split; [done|]. exists w'. split; [set_solver|done].
  - rewrite fmap_app. change (task_for <$> [w]) with [task_for w].
    rewrite <-Hrt, <-Permutation_cons_append. by apply run_tasks_insert.
Qed.

Section next.
Context (done : list PlannedReplenishmentSource) (w : PlannedReplenishmentSource).
Context (rest : list PlannedReplenishmentSource) (Hwork : work = done ++ w :: rest).
Context (s1 : Replenishments) (P : progress done s1).

Lemma next_in_work : w ∈ work.
Proof. rewrite Hwork. apply elem_of_app. right. by left. Qed.

Lemma next_is_new {A} (f : PlannedReplenishmentSource → A) : NoDup (f <$> work) → f w ∉ f <$> done.
Proof.
  rewrite Hwork, fmap_app, fmap_cons. intros (_ & Hd & _)%NoDup_app Hin. apply (Hd _ Hin). by left.
Qed.

Lemma next_unclaimed :
  claimed s1 (scope_owner scope) (scope_facility scope) (ps_balance w) = false.
Proof.
  apply not_true_iff_false. intros (i & c & Hc & Ho & Hf & Hb & Hr)%claimed_spec.
  destruct (work_source w next_in_work) as (r & Hin & Ew & _).
  destruct (source_rows_origin s policy r Hin) as (_ & _ & _ & _ & _ & _ & Hnc).
  apply (pr_claims _ _ P) in Hc as [_ [Hc|(_ & _ & _ & Hd & _)]].
  - fold d scope in Hnc.
    assert (claimed s (scope_owner scope) (scope_facility scope) (src_balance_id r) = true);
      [|congruence].
    apply claimed_spec. exists i, c. split; [done|]. unfold active_claim.
    split_and!; try done. by rewrite Hb, Ew.
  - rewrite Hb in Hd. by apply (next_is_new ps_balance work_balances).
Qed.

Lemma next_task_checks : task_checks (task_for w) = true.
Proof.
  destruct (work_source w next_in_work) as (r & Hin & Ew & Hq & Hn & Hfree & _).
  destruct (policy_facts s Hready id row Hrow policy Hpolicy)
    as (_ & _ & Erev & _ & _ & _ & Hrev & _ & _ & _ & _ & Hpf).
  destruct (source_rows_spec s Hready policy r Hin) as (b & batch & _ & _ & _ & _ & _ & _ & _ & _ & _ & Hl & _).
  unfold task_checks, task_for, task_of.
  cbn [task_source_location task_destination task_policy_revision task_source_free task_planned
    task_travel_sequence].
  rewrite Hfree, Erev. repeat (apply andb_true_intro; split); try (apply Z.ltb_lt; lia).
  - apply negb_true_iff, Z.eqb_neq. rewrite Ew. cbn. intros E. apply Hpf. by rewrite <-E.
  - apply Z.leb_le. lia.
Qed.

Lemma next_task_unique : task_unique s1 (task_for w) = true.
Proof.
  unfold task_unique. apply negb_true_iff, not_true_iff_false. rewrite existsb_exists.
  intros ([i t] & Hin%list_elem_of_In%elem_of_map_to_list & Ht).
  unfold task_for, task_of in Ht.
  cbn [task_owner task_facility task_source_balance task_plan_run task_travel_sequence] in Ht.
  fold d scope in Ht. apply (pr_tasks _ _ P) in Hin as [_ [Hin|(_ & w' & Hw' & ->)]].
  - apply orb_true_iff in Ht as [Ht|Ht]; bool_to_prop.
    + destruct (proj1 (claimed_spec _ _ _ _) (ready_claims _ Hready _ _ Hin ltac:(done)))
        as (j & c & Hj & Ha).
      assert (Hcl : claimed s1 (scope_owner scope) (scope_facility scope) (ps_balance w) = true);
        [|by rewrite next_unclaimed in Hcl].
      apply claimed_spec. exists j, c. split; [by apply (pr_old_claims _ _ P)|].
      unfold active_claim in *. destruct_and!. split_and!; congruence.
    + pose proof (proj1 (ready_task_runs _ Hready _ _ Hin)). unfold plan in *. lia.
  - unfold task_for, task_of in Ht.
    cbn [task_owner task_facility task_source_balance task_plan_run task_travel_sequence task_closed] in Ht.
    assert (ps_balance w ≠ ps_balance w').
    { intros E. apply (next_is_new ps_balance work_balances). rewrite E. by apply list_elem_of_fmap_2. }
    assert (sequence w ≠ sequence w').
    { intros E. apply (next_is_new sequence work_sequences). rewrite E. by apply list_elem_of_fmap_2. }
    rewrite !(proj2 (Z.eqb_neq (ps_balance w') (ps_balance w))), (proj2 (Z.eqb_neq (sequence w') _)) in Ht
      by congruence. rewrite !andb_false_r in Ht. done.
Qed.

Lemma next_admissible actor dd : run_planned run ≠ 0 → admissible s1 actor dd (task_for w) = true.
Proof.
  intros Hne. unfold admissible. rewrite next_task_checks, next_task_unique, !andb_true_r.
  destruct (work_source w next_in_work) as (r & Hin & Ew & Hq & Hn & Hfree & _).
  destruct (policy_facts s Hready id row Hrow policy Hpolicy)
    as (Esc & Eid & Erev & _ & _ & _ & _ & _ & Hperm & _ & _ & Hpf).
  destruct (source_rows_spec s Hready policy r Hin)
    as (b & batch & Hb & Hl & Eloc & Ebat & Ef & Hf0 & Hbat & Hcr & Htr & Hrs & Hexe & _).
  fold d scope in Esc, Hperm, Hl, Hbat, Hrs, Hexe.
  unfold validate_replenishment_task, insert_task_tx, set_work_tasks.
  cbn [fst work_tasks plan_runs policies stock movement_claims batch_created insert_row rows].
  rewrite lookup_insert, decide_True by done.
  unfold task_for, task_of. fold d scope. rewrite Hfree.
  cbn [task_owner task_facility task_source_balance task_plan_run task_travel_sequence task_closed
    task_policy task_policy_revision task_source_location task_destination task_batch task_item
    task_uom task_source_free task_planned task_lot task_serial task_expiration task_received_at
    work_owner work_facility work_type work_status work_deleted].
  rewrite (pr_run _ _ P), (pr_policies _ _ P), (pr_stock _ _ P), Eid, Hrow.
  rewrite Ew. cbn [planned_source ps_balance ps_location ps_batch ps_lot ps_serial ps_expiration
    ps_received_at ps_quantity candidate_of source_inventory_balance_id source_location_id
    item_batch_id lot serial expiration received_at].
  rewrite Hb, Hscope, Hrpol, Hrrev, <-Esc, Erev, !Z.eqb_refl.
  unfold loose_stock in Hl. bool_to_prop.
  repeat match goal with H : StockTypes.inventory_owner_id _ = _ |- _ => rewrite H; clear H
    | H : StockTypes.facility_id _ = _ |- _ => rewrite H; clear H
    | H : StockTypes.item_id _ = _ |- _ => rewrite H; clear H
    | H : StockTypes.uom _ = _ |- _ => rewrite H; clear H
    | H : license_plate_id _ = _ |- _ => rewrite H; clear H
    | H : status _ = _ |- _ => rewrite H; clear H
    | H : balance_deleted _ = _ |- _ => rewrite H; clear H end.
  rewrite <-Eloc, <-Ebat, !Z.eqb_refl.
  rewrite (executable_frame s _ _ false), (executable_frame s _ _ true), (batch_of_frame s _)
    by (done || apply (pr_places _ _ P) || apply (pr_stock _ _ P)).
  rewrite (pr_created _ _ P), Hbat, Hcr, Hex, Hexe, Htr, <-Ef, !Z.eqb_refl.
  rewrite (bool_decide_eq_true_2 (run_outcome run ∈ _)) by (by apply Hout).
  rewrite (bool_decide_eq_true_2 (src_location_id r ∈ _)) by (by rewrite <-Hperm).
  rewrite (bool_decide_eq_true_2 (TaskOpen ∈ _)) by set_solver.
  rewrite !bool_decide_eq_true_2 by done.
  rewrite (proj2 (Z.ltb_lt 0 (src_free r))), (proj2 (Z.leb_le (ps_quantity w) _)) by lia.
  cbn [andb negb]. apply negb_true_iff.
  pose proof next_unclaimed as Hfree_w. rewrite Ew in Hfree_w. exact Hfree_w.
Qed.
End next.

Lemma work_needs_plan w : w ∈ work → run_planned run ≠ 0.
Proof.
  intros Hw E. unfold work in Hw. rewrite E, reference_exhausted in Hw;
    [set_solver|apply candidates_stocked|lia].
Qed.

Lemma plan_one_spec guards actor dd w done rest s1 ws :
  work = done ++ w :: rest → progress done s1 →
  ∃ r, source_by_id sources (ps_balance w) = Some r ∧
    plan_one guards actor policy plan sources dd w (s1, ws) =
      let? _ := positive_id (next_id (work_tasks s1)) in
      let? barcode := scan (src_barcode r) "replenishment source location" in
      Ok (written s1 actor dd (task_for w),
          ws ++ [MkPlannedWork (next_id (work_tasks s1)) w barcode (src_name r)]).
Proof.
  intros Hw P. pose proof (next_in_work done w rest Hw) as Hin.
  destruct (work_source w Hin) as (r & _ & _ & _ & _ & Hfree & Hid). exists r. split; [done|].
  unfold plan_one. rewrite Hid. cbn [ok_or rbind]. rewrite insert_work_spec.
  - unfold task_for. rewrite Hfree. destruct (positive_id _); done.
  - intros _. rewrite <-Hfree. apply (next_admissible done w rest Hw s1 P). by eapply work_needs_plan.
Qed.

(** The triggers accept all the work, and leave the rows of [progress]. *)
Lemma plan_loop_same s0 actor dd :
  progress [] s0 →
  rfold (plan_one true actor policy plan sources dd) work (s0, []) =
    rfold (plan_one false actor policy plan sources dd) work (s0, []) ∧
  ∀ s1 ws, rfold (plan_one false actor policy plan sources dd) work (s0, []) = Ok (s1, ws) →
    progress work s1.
Proof.
  intros P0.
  set (Inv := fun (todo : list PlannedReplenishmentSource)
                  (acc : Replenishments * list PlannedReplenishmentWork) =>
                ∃ done, work = done ++ todo ∧ progress done acc.1).
  assert (HI : Inv work (s0, [])) by (exists []; done).
  assert (Hstep : ∀ guards w todo acc acc', Inv (w :: todo) acc →
            plan_one guards actor policy plan sources dd w acc = Ok acc' → Inv todo acc').
  { intros guards w todo [s1 ws] acc' (done & Hw & P) H. cbn in P.
    destruct (plan_one_spec guards actor dd w done todo s1 ws Hw P) as (r & _ & E).
    rewrite E in H. apply rbind_ok in H as (? & _ & H). apply rbind_ok in H as (? & _ & [= <-]).
    exists (done ++ [w]). split; [by rewrite <-app_assoc|]. by apply progress_step. }
  split.
  - apply (rfold_same _ _ Inv); [|done]. intros w todo [s1 ws] HI'. split; [|by intros; eapply Hstep].
    destruct HI' as (done & Hw & P).
    destruct (plan_one_spec true actor dd w done todo s1 ws Hw P) as (r & Er & ->).
    destruct (plan_one_spec false actor dd w done todo s1 ws Hw P) as (r' & Er' & ->).
    by simplify_eq.
  - intros s1 ws H. apply (rfold_inv _ Inv) in H; [|by intros; eapply Hstep|done].
    destruct H as (done & Hw & P). rewrite app_nil_r in Hw. by rewrite Hw.
Qed.

(** ** The deferred check *)

Lemma progress_claimed_elsewhere s1 b :
  progress work s1 →
  claimed_elsewhere s1 plan (scope_owner scope) (scope_facility scope) b =
  claimed s (scope_owner scope) (scope_facility scope) b.
Proof.
  intros P. apply eq_true_iff_eq. rewrite claimed_elsewhere_spec, claimed_spec. split.
  - intros (i & c & Hc & Ha & Hn). exists i, c. split; [|done].
    apply (pr_claims _ _ P) in Hc as [_ [Hc|(Hk & _ & _ & _ & t & Ht & Hp)]]; [done|].
    destruct Hn. eauto.
  - intros (i & c & Hc & Ha). exists i, c. split_and!; [by apply (pr_old_claims _ _ P)|done|].
    intros (_ & t & Ht & Hp). apply (ready_claim_ids _ Hready) in Hc as [_ Hlt].
    apply (pr_tasks _ _ P) in Ht as [_ [Ht|(Hge & _)]]; [|lia].
    apply (ready_task_runs _ Hready) in Ht as [Hr _]. unfold plan in Hp. lia.
Qed.

Lemma eligible_same s1 :
  progress work s1 →
  run_eligible s1 plan run = sort_by compare_eligible_sources candidates.
Proof.
  intros P. destruct (policy_facts s Hready id row Hrow policy Hpolicy)
    as (Esc & _ & _ & _ & _ & _ & _ & _ & Hperm & _ & _ & Hpf).
  unfold run_eligible. rewrite (pr_stock _ _ P). symmetry.
  apply sort_sources_invariant; [apply source_candidates_NoDup|].
  apply NoDup_Permutation.
  - eapply NoDup_fmap_1, source_candidates_NoDup.
  - apply (NoDup_fmap_1 source_inventory_balance_id), (omap_NoDup _ fst); [|apply ordered_rows_NoDup].
    intros x y _. unfold run_candidate. intros H. repeat case_match; simplify_eq; done.
  - intros c. split.
    + intros (r & -> & Hr)%list_elem_of_fmap.
      destruct (source_rows_spec s Hready policy r Hr)
        as (b & batch & Hb & Hl & Eloc & Ebat & Ef & Hf0 & Hbat & Hcr & Htr & Hrs & _ & Hnc).
      fold d scope in Hl, Hbat, Hrs, Hnc. apply list_elem_of_omap. exists (src_balance_id r, b).
      assert (Hfr : 0 < src_free r) by (by rewrite Forall_forall in Hstock; apply Hstock).
      split.
      * apply elem_of_ordered_rows. split; [done|]. unfold run_where, policy_sources.
        rewrite Hscope, Hrpol, Hl, (pr_policies _ _ P), Hrow, (progress_claimed_elsewhere s1) by done.
        rewrite bool_decide_eq_true_2, <-Ef, (proj2 (Z.ltb_lt _ _) Hfr), Hnc; [done|].
        by rewrite <-Eloc, <-Hperm.
      * unfold run_candidate. cbn [fst snd]. rewrite (batch_of_frame s _) by apply (pr_stock _ _ P).
        rewrite (pr_created _ _ P), Hscope.
        assert (Hl' := Hl). unfold loose_stock in Hl'. bool_to_prop.
        repeat match goal with H : StockTypes.inventory_owner_id _ = _ |- _ => rewrite H; clear H end.
        rewrite <-Ebat, Hbat, Hcr, Htr, <-Ef, <-Eloc. unfold candidate_of. fold d scope.
        do 2 f_equal; congruence.
    + intros ([i b] & Hin & Hc)%list_elem_of_omap.
      apply elem_of_ordered_rows in Hin as [Hb Hw]. unfold run_where, policy_sources in Hw.
      rewrite Hscope, Hrpol, (pr_policies _ _ P), Hrow, (progress_claimed_elsewhere s1) in Hw by done.
      apply andb_true_iff in Hw as [Hw Hnc]. apply andb_true_iff in Hw as [Hw Hfree].
      apply andb_true_iff in Hw as [Hl Hloc]. bool_to_prop. rewrite <-Hperm in Hloc. fold d in Hloc.
      destruct (free_qty_checked b (ready_balances _ Hready _ _ Hb)) as [Ef _].
      pose proof (joined_free s Hready policy Hex Hsrc i b Hb (or_intror Hloc)) as Hj.
      destruct (joined s (i, b)) as [r|] eqn:Ej; [|lia]. destruct Hj as (Ei & El & Efr).
      assert (Hr : r ∈ sources).
      { unfold sources, source_rows. apply elem_of_filter_bool. split.
        - unfold planning_rows. apply list_elem_of_omap. exists (i, b). split; [|done].
          apply elem_of_ordered_rows. split; [done|]. unfold planning_where. fold d scope.
          rewrite Hl, (bool_decide_eq_true_2 _ Hloc), (Hsrc _ Hloc), Hnc. cbn. by rewrite orb_true_r.
        - fold d scope. rewrite Ei, Hnc, andb_true_r, El. apply negb_true_iff, Z.eqb_neq.
          intros E. apply Hpf. fold d scope. by rewrite <-E. }
      apply list_elem_of_fmap. exists r. split; [|done].
      destruct (source_rows_spec s Hready policy r Hr)
        as (b' & batch & Hb' & _ & _ & Ebat & Ef' & _ & Hbat & Hcr & Htr & _).
      rewrite Ei, Hb in Hb'. injection Hb' as <-. fold d scope in Hbat.
      unfold run_candidate in Hc. cbn [fst snd] in Hc.
      rewrite (batch_of_frame s _), (pr_created _ _ P) in Hc by apply (pr_stock _ _ P).
      unfold loose_stock in Hl. bool_to_prop.
      repeat match goal with H : StockTypes.inventory_owner_id _ = _ |- _ => rewrite H in Hc; clear H end.
      rewrite <-Ebat, Hbat, Hcr, Htr, Hscope in Hc. injection Hc as <-. unfold candidate_of. fold d scope.
      f_equal; congruence.
Qed.

Lemma consistency_holds s1 :
  progress work s1 → run_work_count run = Z.of_nat (length work) →
  0 ≤ run_planned run ≤ supply candidates →
  require_replenishment_plan_consistency s1 plan = true.
Proof.
  intros P Hcount Hp. unfold require_replenishment_plan_consistency.
  rewrite (pr_run _ _ P), (eligible_same s1 P).
  set (l := sort_by compare_eligible_sources candidates) in *.
  pose proof (pr_run_tasks _ _ P) as Hperm.
  assert (Hfacts : task_facts <$> (task_for <$> work) = expected_tasks (run_planned run) l).
  { unfold work, expected_tasks, reference_sources. fold l. rewrite <-!list_fmap_compose.
    apply list_fmap_ext. intros i [[n b] c] Hi. cbn -[task_facts task_for].
    assert (Hw : planned_source c n (Z.min (free_quantity c) (run_planned run - b)) ∈ work).
    { unfold work, reference_sources. apply list_elem_of_fmap. exists (n, b, c). split; [done|].
      by eapply list_elem_of_lookup_2. }
    destruct (work_source _ Hw) as (r & Hr & Ew & _ & _ & Hfree & _).
    unfold task_facts, task_for, task_of. rewrite Hfree. 
    cbn [task_travel_sequence task_source_balance task_batch task_source_location task_lot
      task_serial task_expiration task_received_at task_planned task_source_free].
    f_equal.
    assert (Hc : c ∈ candidates).
    { apply list_elem_of_lookup_2, elem_of_filter_bool in Hi as [Hi _].
      apply running_elem in Hi as [Hc _]; [|apply candidates_stocked]. unfold l in Hc.
      by rewrite sort_by_perm in Hc. }
    apply list_elem_of_fmap in Hc as (r' & -> & Hr'). cbn in Ew |- *. f_equal.
    apply (NoDup_fmap_inj_on src_balance_id sources); [apply source_rows_NoDup|done|done|].
    unfold planned_source in Ew. cbn in Ew. congruence. }
  repeat (apply andb_true_intro; split).
  - apply Z.eqb_eq. rewrite Hcount, (Permutation_length Hperm), length_fmap. done.
  - apply Z.eqb_eq. rewrite (zsum_perm _ (task_planned <$> (task_for <$> work))) by (by rewrite Hperm).
    rewrite <-list_fmap_compose. change (task_planned ∘ task_for) with ps_quantity.
    unfold work. fold l. rewrite reference_total; [|apply candidates_stocked|lia].
    assert (supply l = supply candidates) as -> by (apply zsum_perm; unfold l; by rewrite sort_by_perm).
    lia.
  - apply forallb_forall. intros x Hx%list_elem_of_In. apply bool_decide_eq_true_2.
    rewrite <-Hfacts. by rewrite Hperm in Hx.
  - apply forallb_forall. intros x Hx%list_elem_of_In. apply bool_decide_eq_true_2.
    rewrite <-Hfacts in Hx. by rewrite Hperm.
Qed.
End work.
