(* ===== verification/ReplenishmentGuarantees.v ===== *)
(** * Replenishment: guarantees of planning

    Which plans the handler accepts, what the checks of the database add to its verdict, and
    where the two disagree. *)

From S2P Require Import Prelude.
From S2P Require Import RustStr.
From S2P Require Import Idempotency.
From S2P Require Import Outbox.
From S2P Require Import StockTypes.
From S2P Require Import StockDb.
From S2P Require Import StockJournal.
From S2P Require Import StockHandlers.
From S2P Require Import WorkTasks.
From S2P Require Import Configuration.
From S2P Require Import Replenishment.
From S2P Require Import ReplenishmentPolicy.
From S2P Require Import ReplenishmentDb.
From S2P Require Import ReplenishmentFacts.
From S2P Require Import ReplenishmentPlanning.
From S2P Require Import ReplenishmentWork.

Section plan.
Context (digest : list Z → rstr) (s : Replenishments) (Hready : planning_ready s).
Context (id : Z) (row : PolicyRow) (Hrow : rows (policies s) !! id = Some row).
Context (policy : Policy) (Hpolicy : policy_from_row id row = Ok policy).
Context (planned_at : Z) (Hfrom : pol_effective_from row ≤ planned_at).
Context (Hto : pol_effective_to row = None).

(** What a decision is made of. *)
Lemma plan_decision_inv dp observed sources decision selected :
  plan_decision digest s policy planned_at = Ok (dp, observed, sources, decision, selected) →
  ∃ snap, resolve_decision_policy_tx digest (configurations s) (definition policy) planned_at = Ok dp ∧
    policy_sound digest (policy_thresholds (definition policy)) dp ∧
    snapshot_facts s id policy (include_inbound_projection dp) snap observed sources ∧
    decision = decision_of dp snap ∧
    Forall (fun r => 0 < src_free r) sources ∧
    0 ≤ planned decision ≤ supply (candidate_of policy <$> sources) ∧ planned decision ≤ i64_max ∧
    selected = reference_sources (planned decision) 1 0
                 (sort_by compare_eligible_sources (candidate_of policy <$> sources)).
Proof.
  destruct (policy_facts s Hready id row Hrow policy Hpolicy) as (_ & _ & _ & _ & Hth & _).
  destruct (resolve_decision_policy_sound digest (configurations s) (definition policy) planned_at
    (ready_configurations _ Hready) Hth) as (p & Hp & Hsound & _).
  unfold plan_decision. rewrite Hp. cbn [internal map_err rbind]. intros H.
  apply rbind_ok in H as ([[snap obs] srcs] & Hlock & H).
  apply (lock_snapshot_facts s Hready id row Hrow policy Hpolicy) in Hlock.
  assert (Het := Hsound). destruct Het as (_ & _ & _ & Et & Hthe & _). rewrite Et in H.
  cbn [internal map_err rbind] in H. fold (decision_of p snap) in H.
  apply rbind_ok in H as (eligible & Hel & H). apply eligible_sources_ok in Hel as [-> Hfree].
  apply rbind_ok in H as (sel & Hsel & [= <- <- <- <- <-]).
  assert (Hok := Hlock). destruct Hok as (_ & _ & _ & _ & _ & _ & _ & _ & _ & Hsok).
  destruct (plan_replenishment_spec _ snap Hthe Hsok) as (Ed & Hpos & Hgap).
  fold (decision_of p snap) in Ed. cbn zeta in Ed.
  assert (Hst : stocked_sources (candidate_of policy <$> srcs)) by by apply Forall_fmap.
  assert (Hp0 : 0 ≤ planned (decision_of p snap) ≤ i64_max).
  { rewrite Ed. cbn [planned]. unfold snapshot_ok in Hsok. destruct_and!. range_lia. }
  destruct (select_replenishment_sources _ _) as [w|] eqn:Es; [|done]. injection Hsel as ->.
  apply select_replenishment_sources_inv in Es as [Hle ->]; [|done|done].
  exists snap. split_and!; try done; lia.
Qed.

Lemma decision_outcome dp snap :
  policy_sound digest (policy_thresholds (definition policy)) dp → snapshot_ok snap →
  planned (decision_of dp snap) ≠ 0 →
  outcome (decision_of dp snap) ∈ [PartiallyPlanned; FullyPlanned].
Proof.
  intros (_ & _ & _ & _ & Hth & _) Hok Hne.
  destruct (plan_replenishment_spec _ snap Hth Hok) as (Ed & Hpos & Hgap).
  fold (decision_of dp snap) in Ed. cbn zeta in Ed. rewrite Ed in Hne |- *.
  cbn [planned outcome] in *. destruct (actionable _ snap); [|unfold snapshot_ok in Hok; range_lia].
  destruct (Z.eqb_spec (reserve_free snap) 0); [unfold snapshot_ok in Hok; range_lia|].
  destruct (_ <? _); set_solver.
Qed.

(** The checks of the database refuse a decision for the overlooked gap, and for nothing else. *)
Lemma write_plan_guarded actor dp observed sources decision selected :
  plan_decision digest s policy planned_at = Ok (dp, observed, sources, decision, selected) →
  write_plan true digest actor planned_at policy dp observed sources decision selected s =
    if gap_overlooked decision then Err (db_error (Sqlstate "55000"))
    else write_plan false digest actor planned_at policy dp observed sources decision selected s.
Proof.
  intros (snap & Hres & Hsound & Hfacts & -> & Hfree & Hp & Hmax & ->)%plan_decision_inv.
  destruct (policy_facts s Hready id row Hrow policy Hpolicy) as (_ & Eid & _).
  assert (Hf := Hfacts). destruct Hf as (Hex & Hsrc & -> & _ & _ & _ & _ & _ & _ & Hsok).
  assert (Hth := Hsound). destruct Hth as (_ & _ & _ & Eth & _).
  set (candidates := candidate_of policy <$> source_rows s policy) in *.
  set (decision := decision_of dp snap) in *.
  set (work := reference_sources (planned decision) 1 0 (sort_by compare_eligible_sources candidates)).
  assert (Hst : stocked_sources (sort_by compare_eligible_sources candidates)).
  { unfold stocked_sources. rewrite sort_by_perm. by apply Forall_fmap. }
  assert (Hwork : Z.of_nat (length work) = 0 ↔ planned decision = 0).
  { split.
    - intros E. assert (work = []) as E' by (destruct work; [done|cbn in E; lia]).
      assert (Ht : zsum (ps_quantity <$> work) = planned decision).
      { unfold work. rewrite reference_total; [|done|lia].
        assert (supply (sort_by compare_eligible_sources candidates) = supply candidates) as ->
          by (apply zsum_perm; by rewrite sort_by_perm). lia. }
      by rewrite E' in Ht.
    - intros E. unfold work. rewrite E, reference_exhausted; [done|done|lia]. }
  unfold write_plan, insert_plan_tx, guard. rewrite Eth. cbn [internal map_err rbind negb orb].
  set (run := plan_run_row policy dp _ observed decision (Z.of_nat (length work)) actor planned_at).
  assert (H1 : validate_decision_policy_snapshot digest s run = true)
    by exact (decision_policy_validated s Hready id row Hrow policy Hpolicy digest dp Hsound snap
      observed (source_rows s policy) Hfacts (Z.of_nat (length work)) actor planned_at Hwork Hres).
  assert (H2 : validate_replenishment_plan_run s run =
                 if gap_overlooked decision then Err (db_error (Sqlstate "55000")) else Ok tt)
    by exact (validate_plan_run_decides s Hready id row Hrow policy Hpolicy digest dp Hsound snap
      observed (source_rows s policy) Hfacts (Z.of_nat (length work)) actor planned_at Hwork Hfrom Hto).
  rewrite H1. cbn [ensure rbind]. rewrite H2.
  destruct (gap_overlooked decision) eqn:Egap; [done|]. cbn [rbind].
  assert (H3 : plan_run_checks run = true)
    by exact (plan_run_checks_decides s Hready id row Hrow policy Hpolicy digest dp Hsound snap
      observed (source_rows s policy) Hfacts (Z.of_nat (length work)) actor planned_at Hwork
      (Zle_0_nat _) Egap).
  rewrite H3. cbn [ensure rbind].
  destruct (positive_id (next_id (plan_runs s))) as [pid|]; [|done]. cbn [rbind].
  set (s0 := set_plan_runs (insert_row (plan_runs s) run) s).
  assert (Hrun : run_policy run = id) by exact Eid.
  assert (Hout : run_planned run ≠ 0 → run_outcome run ∈ [PartiallyPlanned; FullyPlanned])
    by (intros Hne; by apply decision_outcome).
  assert (P0 : progress s policy run [] s0).
  { apply (progress_start s Hready id row Hrow policy Hpolicy Hex Hsrc Hfree run eq_refl Hrun eq_refl
      Hout); try done. cbn. by rewrite lookup_insert, decide_True. }
  destruct (plan_loop_same s Hready id row Hrow policy Hpolicy Hex Hsrc Hfree run eq_refl Hrun eq_refl
    Hout s0 actor
    (projected_free (snapshot decision) <? unallocated_demand (snapshot decision)) P0) as [Hsame Hprog].
  change (run_planned run) with (planned decision) in Hsame, Hprog.
  fold candidates work in Hsame, Hprog. rewrite Hsame. clear Hsame.
  destruct (rfold _ work (s0, [])) as [[s1 ws]|] eqn:Eloop; [|done]. cbn [rbind].
  specialize (Hprog s1 ws eq_refl).
  destruct (positive_id actor); [|done]. cbn [rbind].
  destruct (enqueue_event_tx _ _ _ _ _ _) as [s2|] eqn:Een; [|done]. cbn [rbind].
  assert (Hc : require_replenishment_plan_consistency s2 (next_id (plan_runs s)) = true).
  { assert (Hc1 := consistency_holds s Hready id row Hrow policy Hpolicy Hex Hsrc Hfree run eq_refl Hrun
      s1 Hprog eq_refl Hp).
    unfold enqueue_event_tx in Een. apply rbind_ok in Een as (o & _ & [= <-]). exact Hc1. }
  by rewrite Hc.
Qed.
End plan.

(** ** The result *)

Lemma checked_sum_fits l why :
  Forall (fun z => 0 ≤ z) l → zsum l ≤ i64_max → checked_sum l why = Ok (zsum l).
Proof.
  intros Hl Hmax. unfold checked_sum.
  assert (H : ∀ l acc, Forall (fun z => 0 ≤ z) l → 0 ≤ acc → acc + zsum l ≤ i64_max →
    rfold (fun x sum => ok_or (i64_checked_add sum x) (Internal why)) l acc = Ok (acc + zsum l)).
  { clear. induction l as [|x l IH]; intros acc Hl Ha Hm; [cbn; f_equal; change (zsum []) with 0; lia|].
    inversion_clear Hl as [|?? Hx Hl']. rewrite zsum_cons in *. cbn [rfold].
    assert (0 ≤ zsum l) by (clear -Hl'; induction Hl'; rewrite ?zsum_cons; [done|lia]).
    unfold i64_checked_add. rewrite checked_in by range_lia. cbn [ok_or rbind].
    rewrite IH; [f_equal; lia|done|lia|lia]. }
  rewrite H; [done|done|lia|lia].
Qed.

Lemma contiguous_spec work :
  sequence <$> work = seqZ 1 (Z.of_nat (length work)) → sequence_is_contiguous work = true.
Proof.
  intros Hs. unfold sequence_is_contiguous. apply forallb_forall. intros [index w] Hin%list_elem_of_In.
  apply elem_of_lookup_imap in Hin as (i & x & [= -> ->] & Hi).
  assert (Hq : (sequence <$> work) !! i = Some (sequence x)) by by rewrite list_lookup_fmap, Hi.
  rewrite Hs in Hq. apply lookup_seqZ in Hq as [Hq _].
  rewrite Hq. apply andb_true_iff. rewrite Z.leb_le, Z.eqb_eq. lia.
Qed.

(** The work of the result is the work that was selected. *)
Lemma plan_loop_sources guards actor policy plan sources dd selected s s' work :
  rfold (plan_one guards actor policy plan sources dd) selected (s, []) = Ok (s', work) →
  pw_source <$> work = selected.
Proof.
  intros H. apply (rfold_inv _ (fun todo acc => (pw_source <$> acc.2) ++ todo = selected)) in H.
  - by rewrite app_nil_r in H.
  - intros x l [s1 w1] acc Hx Hacc. cbn in Hacc. unfold plan_one in Hx. run Hx. cbn.
    by rewrite fmap_app, <-app_assoc.
  - done.
Qed.

(** ** The handler *)

Section handler.
Context (digest : list Z → rstr) (s : Replenishments) (Hready : planning_ready s).

(** The decision that [plan_policy] reaches before it writes, if it gets that far. *)
Definition decision_reached (scope : ScopeBindings) (id revision planned_at : Z) :
    option ReplenishmentPlanDecision :=
  match lock_policy_tx s scope id with
  | Ok policy =>
      if bool_decide (policy_effective_to policy = None) && (policy_revision policy =? revision)
      then match plan_decision digest s policy planned_at with
           | Ok (_, _, _, decision, _) => Some decision
           | Err _ => None
           end
      else None
  | Err _ => None
  end.

Lemma lock_policy_inv scope id policy :
  lock_policy_tx s scope id = Ok policy →
  ∃ row, rows (policies s) !! id = Some row ∧ policy_from_row id row = Ok policy.
Proof.
  unfold lock_policy_tx. destruct (rows (policies s) !! id) as [row|]; [|done]. cbn [ok_or rbind].
  intros H. apply rbind_ok in H as (? & _ & H). by exists row.
Qed.

(** An active policy of the revision that the command expects is planned from its decision. *)
Lemma plan_work_active guards scope actor id policy planned_at :
  lock_policy_tx s scope id = Ok policy → policy_effective_to policy = None →
  plan_work guards digest scope actor id (policy_revision policy) planned_at s =
    let? (dp, observed, sources, decision, selected) := plan_decision digest s policy planned_at in
    write_plan guards digest actor planned_at policy dp observed sources decision selected s.
Proof.
  intros Hp Ht. unfold plan_work. rewrite Hp. cbn [rbind].
  rewrite Ht, bool_decide_eq_false_2 by (by intros []). by rewrite Z.eqb_refl.
Qed.

Lemma plan_guards scope actor id revision planned_at :
  (∀ row, rows (policies s) !! id = Some row → pol_effective_from row ≤ planned_at) →
  plan_work true digest scope actor id revision planned_at s =
    if from_option gap_overlooked false (decision_reached scope id revision planned_at)
    then Err (db_error (Sqlstate "55000"))
    else plan_work false digest scope actor id revision planned_at s.
Proof.
  intros Hfrom. unfold decision_reached, plan_work.
  destruct (lock_policy_tx s scope id) as [policy|] eqn:Ep; [|done]. cbn [rbind].
  destruct (lock_policy_inv _ _ _ Ep) as (row & Hrow & Hpol).
  destruct (policy_facts s Hready id row Hrow policy Hpol) as (_ & _ & _ & _ & _ & _ & _ & Eto & _).
  destruct (policy_effective_to policy) as [t|] eqn:Et.
  { rewrite (bool_decide_eq_true_2 (is_Some _)) by done. done. }
  rewrite (bool_decide_eq_false_2 (is_Some _)), (bool_decide_eq_true_2 (_ = None)) by (by try intros []).
  cbn [andb negb]. destruct (policy_revision policy =? revision); [|done]. cbn [negb].
  destruct (plan_decision digest s policy planned_at) as [[[[[dp o] src] dec] sel]|] eqn:Ed; [|done].
  cbn [rbind from_option].
  exact (write_plan_guarded digest s Hready id row Hrow policy Hpol planned_at (Hfrom _ Hrow)
    (eq_sym Eto) actor dp o src dec sel Ed).
Qed.

(** A reserve without free stock is ineligible, and so the command ends. *)
Lemma plan_decision_ineligible id policy planned_at row r :
  rows (policies s) !! id = Some row → policy_from_row id row = Ok policy →
  r ∈ source_rows s policy → src_free r = 0 →
  ∃ dp, resolve_decision_policy_tx digest (configurations s) (definition policy) planned_at = Ok dp ∧
    plan_decision digest s policy planned_at =
      let? _ := lock_snapshot_tx s policy (include_inbound_projection dp) in
      Err (Internal "locked replenishment source is ineligible").
Proof.
  intros Hrow Hpol Hr Hfree.
  destruct (policy_facts s Hready id row Hrow policy Hpol) as (_ & _ & _ & _ & Hth & _).
  destruct (resolve_decision_policy_sound digest (configurations s) (definition policy) planned_at
    (ready_configurations _ Hready) Hth) as (p & Hp & (_ & _ & _ & Et & _) & _).
  exists p. split; [done|]. unfold plan_decision. rewrite Hp. cbn [internal map_err rbind].
  destruct (lock_snapshot_tx s policy _) as [[[snap obs] srcs]|] eqn:El; [|done]. cbn [rbind].
  apply (lock_snapshot_facts s Hready id row Hrow policy Hpol) in El as (_ & _ & -> & _).
  rewrite Et. cbn [internal map_err rbind].
  assert (Hall : ∀ l, l ⊆ source_rows s policy → r ∈ l →
    rmapM (eligible_source policy) l = Err (Internal "locked replenishment source is ineligible")).
  { induction l as [|x l IH]; intros Hsub Hin; [set_solver|]. cbn [rmapM].
    rewrite (eligible_source_decides s Hready id row Hrow policy Hpol x) by set_solver.
    destruct (src_free x =? 0) eqn:Ex; [done|]. cbn [rbind].
    rewrite IH; [done|set_solver|]. apply elem_of_cons in Hin as [->|?]; [|done].
    rewrite Hfree in Ex. done. }
  by rewrite Hall.
Qed.
End handler.

(** C16. Where the database and the domain disagree: with all triggers and constraints on,
    planning gives the very outcome that the handler's own code computes (same rows, same
    work, same error), except that it is refused as a conflict (SQLSTATE 55000) when the
    decision is [NotNeeded] although the projected stock lies below the required level. In
    that case the minimum and the demand are covered, nothing would be planned, and the
    handler would report a gap of zero. *)
Theorem planning_checks_refuse_gap digest s scope actor id revision planned_at :
  planning_ready s →
  (∀ row, rows (policies s) !! id = Some row → pol_effective_from row ≤ planned_at) →
  let reached := decision_reached digest s scope id revision planned_at in
  plan_work true digest scope actor id revision planned_at s =
    (if from_option gap_overlooked false reached then Err (db_error (Sqlstate "55000"))
     else plan_work false digest scope actor id revision planned_at s) ∧
  (∀ d, reached = Some d → gap_overlooked d = true →
     planned d = 0 ∧ target_gap d = 0 ∧
     unallocated_demand (snapshot d) ≤ projected_free (snapshot d) < required_level d).
Proof.
  intros Hready Hfrom reached. split; [by apply plan_guards|].
  intros d. unfold reached, decision_reached.
  destruct (lock_policy_tx s scope id) as [policy|] eqn:Ep; [|done].
  destruct (lock_policy_inv _ _ _ _ Ep) as (row & Hrow & Hpol).
  destruct (_ && _); [|done].
  destruct (plan_decision digest s policy planned_at) as [[[[[dp o] src] dec] sel]|] eqn:Ed; [|done].
  intros [= <-] Hgap.
  apply (plan_decision_inv digest s Hready id row Hrow policy Hpol) in Ed
    as (snap & _ & (_ & _ & _ & _ & Hth & _) & Hfacts & -> & _).
  destruct Hfacts as (_ & _ & _ & _ & _ & _ & _ & _ & _ & Hok).
  destruct (plan_replenishment_spec _ snap Hth Hok) as (Eq & _ & _). fold (decision_of dp snap) in Eq.
  cbn zeta in Eq. unfold gap_overlooked in Hgap. bool_to_prop.
  rewrite Eq in *. cbn [planned target_gap snapshot required_level outcome] in *.
  unfold actionable in *. destruct (_ || _) eqn:Ea.
  { exfalso. repeat case_match; done. }
  apply orb_false_iff in Ea. unfold snapshot_ok in Hok. bool_to_prop. range_lia.
Qed.

(** C19. A plan that succeeds is consistent with itself, whether or not the database checks
    it: the result passes the application's own check, so its quantities are those that its
    thresholds and snapshot give, the work adds up to the planned quantity and is numbered
    from one without a gap, and the evidence of the decision policy matches its hash. *)
Theorem plan_result_consistent guards digest s scope actor id revision planned_at s' r k :
  planning_ready s →
  plan_work guards digest scope actor id revision planned_at s = Ok (s', PlanResult r, k) →
  quantities_and_sequence_are_consistent digest r = true.
Proof.
  intros Hready H. unfold plan_work in H.
  apply rbind_ok in H as (policy & Hlock & H).
  destruct (lock_policy_inv _ _ _ _ Hlock) as (row & Hrow & Hpol).
  destruct (bool_decide _); [done|]. destruct (negb _); [done|].
  apply rbind_ok in H as ([[[[dp observed] sources] decision] work] & Hd & H).
  unfold write_plan in H. apply rbind_ok in H as ([s1 plan] & _ & H).
  apply rbind_ok in H as ([s2 ws] & Hloop & H). apply plan_loop_sources in Hloop.
  apply rbind_ok in H as (? & _ & H). apply rbind_ok in H as (? & _ & H).
  apply rbind_ok in H as (? & _ & [= _ <- _]).
  apply (plan_decision_inv digest s Hready id row Hrow policy Hpol) in Hd
    as (snap & _ & Hsound & Hfacts & -> & Hfree & Hp & Hmax & ->).
  destruct Hsound as (Hcons & _ & _ & Eth & Hth & _).
  destruct Hfacts as (_ & _ & _ & _ & _ & Hnn & Hin & _ & _ & Hok).
  destruct (plan_replenishment_spec _ snap Hth Hok) as (Ed & _ & Hgap).
  fold (decision_of dp snap) in Ed, Hgap. cbn zeta in Ed.
  assert (Hst : stocked_sources (candidate_of policy <$> sources)) by by apply Forall_fmap.
  destruct (reference_selected _ _ Hst Hp) as (Hsum & Hseq & _).
  set (w := reference_sources _ _ _ _) in *.
  assert (Hpos : Forall (fun z => 0 ≤ z) (ps_quantity <$> w)).
  { apply Forall_fmap, Forall_forall. intros y Hy.
    apply reference_elem in Hy as (? & _ & _ & ? & _); [cbn; lia|].
    unfold stocked_sources. by rewrite sort_by_perm. }
  assert (Hnil : planned (decision_of dp snap) = 0 ↔ w = []).
  { split; [|intros E; by rewrite E in Hsum]. intros E. unfold w. rewrite E.
    apply reference_exhausted; [unfold stocked_sources; by rewrite sort_by_perm|lia]. }
  assert (Hsnap : snapshot (decision_of dp snap) = snap) by by rewrite Ed.
  unfold quantities_and_sequence_are_consistent.
  cbn [res_decision_policy res_decision res_work res_observed_active_inbound].
  rewrite Hloop, Eth, Hcons, Hsnap. fold (decision_of dp snap).
  rewrite checked_sum_fits, Hsum, !Z.eqb_refl, (bool_decide_eq_true_2 (outcome _ = _)),
    contiguous_spec by (done || lia).
  rewrite Hin. assert (Hw : target_gap (decision_of dp snap) =
    i64_add (planned (decision_of dp snap)) (remaining (decision_of dp snap))).
  { rewrite Ed. cbn [target_gap planned remaining]. unfold i64_add. rewrite wrap_i64_id; [lia|].
    unfold snapshot_ok, thresholds_ok in *. destruct (actionable _ _); range_lia. }
  rewrite <-Hw, Z.eqb_refl.
  assert (He : Bool.eqb (planned (decision_of dp snap) =? 0) (bool_decide (w = [])) = true).
  { apply eqb_true_iff, eq_true_iff_eq. by rewrite Z.eqb_eq, bool_decide_eq_true. }
  rewrite He. destruct (include_inbound_projection dp); cbn [negb orb andb];
    rewrite ?Z.eqb_refl, ?Z.leb_refl; [done|]. by rewrite (proj2 (Z.leb_le _ _) (proj1 Hnn)).
Qed.

(** *** The errors of the snapshot *)

Definition fails_internally {A} (r : result A ApplicationError) : Prop :=
  ∀ e, r = Err e → ∃ why, e = Internal why.

Lemma fails_internally_bind {A B} (r : result A ApplicationError) (f : A → result B ApplicationError) :
  fails_internally r → (∀ a, fails_internally (f a)) → fails_internally (rbind r f).
Proof. intros Hr Hf e. destruct r as [a|e']; cbn; [apply Hf|]. intros [= ->]. by apply Hr. Qed.

Lemma fails_internally_ok {A} (a : A) : fails_internally (Ok a).
Proof. by intros e. Qed.

Lemma fails_internally_or {A} (o : option A) why : fails_internally (ok_or o (Internal why)).
Proof. intros e. destruct o; [done|]. intros [= <-]. by exists why. Qed.

Lemma fails_internally_map {A E} (r : result A E) why : fails_internally (ReplenishmentDb.internal r why).
Proof. intros e. destruct r; [done|]. intros [= <-]. by exists why. Qed.

Lemma fails_internally_bigint z : fails_internally (bigint z).
Proof. intros e. unfold bigint. destruct (checked _ _ _); [done|]. intros [= <-]. by eexists. Qed.

Lemma fails_internally_positive z : fails_internally (positive_id z).
Proof. intros e. unfold positive_id, positive_new. destruct (0 <? z); [done|]. intros [= <-]. by eexists. Qed.

Lemma fails_internally_mapM {A B} (f : A → result B ApplicationError) l :
  (∀ a, fails_internally (f a)) → fails_internally (rmapM f l).
Proof.
  intros Hf. induction l as [|a l IH]; cbn; [apply fails_internally_ok|].
  apply fails_internally_bind; [apply Hf|]. intros b.
  apply fails_internally_bind; [apply IH|]. intros bs. apply fails_internally_ok.
Qed.

Lemma fails_internally_sum l why : fails_internally (checked_sum l why).
Proof.
  unfold checked_sum. generalize 0. induction l as [|x l IH]; intros z; cbn; [apply fails_internally_ok|].
  apply fails_internally_bind; [apply fails_internally_or|apply IH].
Qed.

Create HintDb internal_errors.
#[local] Hint Resolve fails_internally_ok fails_internally_or fails_internally_map
  fails_internally_bigint fails_internally_positive fails_internally_mapM fails_internally_sum
  : internal_errors.

Ltac internally :=
  repeat match goal with
         | |- fails_internally (rbind _ _) => apply fails_internally_bind; [|intros ?]
         end; auto with internal_errors.

Lemma source_fails_internally row : fails_internally (source_from_row row).
Proof. unfold source_from_row. internally. Qed.

Lemma uncovered_fails_internally s r : fails_internally (uncovered s r).
Proof. unfold uncovered. internally. Qed.

#[local] Hint Resolve source_fails_internally uncovered_fails_internally : internal_errors.

Lemma demand_fails_internally s scope : fails_internally (unallocated_demand_of s scope).
Proof. unfold unallocated_demand_of. internally. Qed.

#[local] Hint Resolve demand_fails_internally : internal_errors.

(** The snapshot refuses locations out of use with its conflict, anything else with an
    internal error. *)
Lemma lock_snapshot_errors s policy inbound :
  if executable_location_count s (definition policy)
     =? Z.of_nat (length (reserve_source_location_ids (definition policy))) + 1
  then fails_internally (lock_snapshot_tx s policy inbound)
  else lock_snapshot_tx s policy inbound
       = Err (Conflict "replenishment policy locations are no longer executable").
Proof.
  unfold lock_snapshot_tx. destruct (_ =? _); cbn [negb]; [|done].
  unfold level, active_inbound_of. internally.
Qed.

(** C20. One empty reserve stops a policy: as soon as a reserve location of the policy that is
    in use holds a loose, unclaimed balance of the item, of a batch that is not deleted, with
    nothing free on it (emptied, or wholly reserved or held), planning writes nothing and is
    refused, however much the pick face lacks and the other reserves hold. While all the
    policy's locations are in use the refusal is an internal error, that of the ineligible
    source unless the snapshot already failed; otherwise it is the snapshot's conflict. *)
Theorem empty_reserve_blocks_planning guards digest s scope actor id policy planned_at i b row created :
  planning_ready s →
  lock_policy_tx s scope id = Ok policy → policy_effective_to policy = None →
  rows (balances (stock s)) !! i = Some b →
  loose_stock (policy_scope (definition policy)) b = true →
  location_id (position b) ∈ reserve_source_location_ids (definition policy) →
  executable s (scope_facility (policy_scope (definition policy))) false
    (location_id (position b)) = true →
  claimed s (scope_owner (policy_scope (definition policy)))
    (scope_facility (policy_scope (definition policy))) i = false →
  batch_of s (StockTypes.inventory_owner_id (position b))
    (StockTypes.item_batch_id (position b)) = Some row → batch_deleted row = false →
  batch_created s !! StockTypes.item_batch_id (position b) = Some created →
  free_qty b = 0 →
  let answer := plan_work guards digest scope actor id (policy_revision policy) planned_at s in
  (∃ inbound, answer =
     match lock_snapshot_tx s policy inbound with
     | Ok _ => Err (Internal "locked replenishment source is ineligible")
     | Err e => Err e
     end) ∧
  if executable_location_count s (definition policy)
     =? Z.of_nat (length (reserve_source_location_ids (definition policy))) + 1
  then ∃ why, answer = Err (Internal why)
  else answer = Err (Conflict "replenishment policy locations are no longer executable").
Proof.
  intros Hready Hlock Hto Hb Hloose Hin Hex Hcl Hbatch Hdel Hcreated Hfree.
  destruct (lock_policy_inv _ _ _ _ Hlock) as (prow & Hrow & Hpol).
  destruct (policy_facts s Hready id prow Hrow policy Hpol)
    as (_ & _ & _ & _ & _ & _ & _ & _ & _ & _ & _ & Hpf).
  destruct (executable_place _ _ _ _ Hex) as (place & barcode & Eplace & Ebar).
  assert (Hne : location_id (position b) ≠ scope_pick_face (policy_scope (definition policy)))
    by (intros E; rewrite E in Hin; done).
  assert (∃ r, joined s (i, b) = Some r ∧ src_balance_id r = i ∧
            src_location_id r = location_id (position b) ∧ src_free r = 0)
    as (r & Hj & Ei & El & Ef).
  { unfold joined. cbn [fst snd]. rewrite Hbatch, Hcreated, Eplace, Ebar, Hdel. by eexists. }
  assert (Hr : r ∈ source_rows s policy).
  { unfold source_rows. apply elem_of_filter_bool. rewrite Ei, El, Hcl, (proj2 (Z.eqb_neq _ _) Hne).
    split; [|done]. unfold planning_rows. apply list_elem_of_omap. exists (i, b). split; [|done].
    apply elem_of_ordered_rows. split; [done|]. unfold planning_where.
    rewrite Hloose, Hex, Hcl, bool_decide_eq_true_2 by done. cbn. apply orb_true_r. }
  destruct (plan_decision_ineligible digest s Hready id policy planned_at prow r Hrow Hpol Hr Ef)
    as (dp & _ & Hd).
  intros answer. assert (Ea : answer = match lock_snapshot_tx s policy (include_inbound_projection dp) with
    | Ok _ => Err (Internal "locked replenishment source is ineligible") | Err e => Err e end).
  { unfold answer. rewrite (plan_work_active digest s guards scope actor id policy planned_at Hlock Hto), Hd.
    by destruct (lock_snapshot_tx s policy _) as [[[]]|]. }
  split; [by exists (include_inbound_projection dp)|]. rewrite Ea.
  pose proof (lock_snapshot_errors s policy (include_inbound_projection dp)) as He.
  destruct (_ =? _); [|by rewrite He]. destruct (lock_snapshot_tx s policy _) as [x|e]; [by eexists|].
  destruct (He e eq_refl) as [why ->]. by exists why.
Qed.

(** ** A small warehouse *)

(** A pick face (location 1) with [p] units and two reserves (locations 2 and 3) with [q] and
    [r] units of item 1, and a policy that keeps between 5 and 10 units at the pick face. *)
Definition each : rstr := lit "EA".

Definition balance_at (location qty : Z) : BalanceRow :=
  MkBalance (MkPosition 1 1 location None 1 1 each StockTypes.Available) qty 0 0 false.

Definition reserve_place : PlaceRow := MkPlace (Some (lit "R")) None false false.

Definition small_policy : PolicyRow :=
  MkPolicyRow (MkPolicyScope 1 1 1 1 each 1) 5 10 [2; 3] 1 None 0 None None.

Definition small_warehouse (p q r : Z) : Replenishments :=
  MkReplenishments
    (MkStock (MkDirectory {[1]} {[1]} {[(1, 1)]}
                {[1 := MkLocation 1 false true; 2 := MkLocation 1 false true;
                  3 := MkLocation 1 false true]} ∅ {[1 := each]} ∅ ∅ ∅)
       {[(1, 1)]} (MkTable {[1 := MkBatch 1 1 each None (None, None, None) false]} 2)
       (MkTable {[1 := balance_at 1 p; 2 := balance_at 2 q; 3 := balance_at 3 r]} 4)
       empty_table [] [] empty_table empty_table empty_table empty_table empty_outbox None)
    {[1 := MkPlace (Some (lit "P")) None true false; 2 := reserve_place; 3 := reserve_place]}
    {[1 := 0]} [] ∅ [] [] (MkTable {[1 := small_policy]} 2) empty_table empty_table ∅ empty_table
    empty_outbox.

Lemma small_policy_only p q r id row :
  rows (policies (small_warehouse p q r)) !! id = Some row → id = 1 ∧ small_policy = row.
Proof. intros H. change (({[1 := small_policy]} : gmap Z PolicyRow) !! id = Some row) in H. by apply lookup_singleton_Some in H as [<- <-]. Qed.

Lemma small_warehouse_ready p q r :
  0 ≤ p → 0 ≤ q → 0 ≤ r → planning_ready (small_warehouse p q r).
Proof.
  intros Hp Hq Hr.
  assert (Hbal : ∀ id b, rows (balances (stock (small_warehouse p q r))) !! id = Some b →
            ∃ l n, b = balance_at l n ∧ 0 ≤ n).
  { cbn. intros id b H. repeat (apply lookup_insert_Some in H as [[_ <-]|[_ H]]; [by eauto|]).
    apply lookup_singleton_Some in H as [_ <-]. eauto. }
  split; try (by intros ? ? ?%lookup_empty_Some); try done.
  - intros id row [_ <-]%small_policy_only. cbn. split_and!; try lia.
    + apply (bool_decide_eq_true_1 _). by vm_compute.
    + range_lia.
  - intros id b (l & n & -> & Hn)%Hbal. unfold inventory_balances_checks, balance_at. cbn.
    apply andb_true_iff; split; [|by vm_compute]. rewrite !andb_true_iff, !Z.leb_le. lia.
  - intros id b (l & n & -> & Hn)%Hbal. exists (MkBatch 1 1 each None (None, None, None) false), 0.
    done.
Qed.

Definition everywhere : ScopeBindings := MkScopeBindings true [] true [].

Definition small_decision (p q r : Z) : option ReplenishmentPlanDecision :=
  decision_reached (fun _ => []) (small_warehouse p q r) everywhere 1 1 100.

(** With 7 units the pick face is above its minimum: refused. With 2 units it is filled. *)
Lemma small_gap : from_option gap_overlooked false (small_decision 7 4 9) = true.
Proof. by vm_compute. Qed.

Lemma small_filled :
  from_option gap_overlooked false (small_decision 2 4 9) = false ∧
  from_option planned 0 (small_decision 2 4 9) = 8.
Proof. by vm_compute. Qed.

Lemma planning_checks_refuse_gap_witness :
  plan_work true (fun _ => []) everywhere 1 1 1 100 (small_warehouse 7 4 9) =
    Err (db_error (Sqlstate "55000")) ∧
  plan_work true (fun _ => []) everywhere 1 1 1 100 (small_warehouse 2 4 9) =
    plan_work false (fun _ => []) everywhere 1 1 1 100 (small_warehouse 2 4 9).
Proof.
  assert (Hfrom : ∀ p q r row, rows (policies (small_warehouse p q r)) !! 1 = Some row →
            pol_effective_from row ≤ 100) by (by intros p q r row [_ <-]%small_policy_only).
  split.
  - destruct (planning_checks_refuse_gap (fun _ => []) (small_warehouse 7 4 9) everywhere 1 1 1 100
      (small_warehouse_ready 7 4 9 ltac:(done) ltac:(done) ltac:(done)) (Hfrom 7 4 9)) as [E _].
    rewrite E. fold (small_decision 7 4 9). by rewrite small_gap.
  - destruct (planning_checks_refuse_gap (fun _ => []) (small_warehouse 2 4 9) everywhere 1 1 1 100
      (small_warehouse_ready 2 4 9 ltac:(done) ltac:(done) ltac:(done)) (Hfrom 2 4 9)) as [E _].
    rewrite E. fold (small_decision 2 4 9). rewrite (proj1 small_filled). reflexivity.
Defined.

(** The policy of the small warehouse, as the handler reads it. *)
Definition small_policy_read : Policy :=
  MkPolicy 1 (MkPolicyDefinition (pol_scope small_policy) (MkThresholds 5 10) [2; 3]) 1 None.

Lemma small_policy_locked p q r : lock_policy_tx (small_warehouse p q r) everywhere 1 = Ok small_policy_read.
Proof. by vm_compute. Qed.

Lemma small_snapshot inbound : ∃ x, lock_snapshot_tx (small_warehouse 2 0 9) small_policy_read inbound = Ok x.
Proof. destruct inbound; vm_compute; eauto. Qed.

(** The pick face lacks 8 units and the second reserve has 9, but the first reserve is empty. *)
Lemma empty_reserve_blocks_planning_witness :
  plan_work true (fun _ => []) everywhere 1 1 1 100 (small_warehouse 2 0 9) =
    Err (Internal "locked replenishment source is ineligible").
Proof.
  assert (Hin : 2 ∈ reserve_source_location_ids (definition small_policy_read)) by (cbn; set_solver).
  pose proof (empty_reserve_blocks_planning true (fun _ => []) (small_warehouse 2 0 9) everywhere 1 1
    small_policy_read 100 2 (balance_at 2 0) (MkBatch 1 1 each None (None, None, None) false) 0
    (small_warehouse_ready 2 0 9 ltac:(done) ltac:(done) ltac:(done)) (small_policy_locked 2 0 9)
    eq_refl eq_refl eq_refl Hin eq_refl eq_refl eq_refl eq_refl eq_refl eq_refl) as [[inbound H] _].
  refine (eq_trans H _). by destruct (small_snapshot inbound) as [x ->].
Defined.

Lemma small_plan_succeeds :
  ∃ s' r k, plan_work true (fun _ => []) everywhere 1 1 1 100 (small_warehouse 2 4 9) =
    Ok (s', PlanResult r, k).
Proof. vm_compute. eauto. Qed.

Lemma plan_result_consistent_witness :
  ∃ s' r k, plan_work true (fun _ => []) everywhere 1 1 1 100 (small_warehouse 2 4 9) =
      Ok (s', PlanResult r, k) ∧
    quantities_and_sequence_are_consistent (fun _ => []) r = true.
Proof.
  destruct small_plan_succeeds as (s' & r & k & E). exists s', r, k. split; [exact E|].
  exact (plan_result_consistent true (fun _ => []) (small_warehouse 2 4 9) everywhere 1 1 1 100 s' r k
    (small_warehouse_ready 2 4 9 ltac:(done) ltac:(done) ltac:(done)) E).
Defined.
