(* ===== verification/StockHistory.v ===== *)
(** * Stock: the journal only grows

    The handlers append to the journal: no transaction or entry is changed after its commit,
    new entries belong to new transactions, none of these is an adjustment, and a balance row
    keeps its position for good. *)

From S2P Require Import Prelude.
From S2P Require Import RustStr.
From S2P Require Import Idempotency.
From S2P Require Import Outbox.
From S2P Require Import StockTypes.
From S2P Require Import StockDb.
From S2P Require Import StockJournal.
From S2P Require Import StockHandlers.
From S2P Require Import StockCommands.
From S2P Require Import StockInvariant.
From S2P Require Import StockFacts.
From S2P Require Import StockPosting.
From S2P Require Import StockMoves.
From S2P Require Import StockTotals.

(** ** What a successful run achieves *)

Definition yields {A E} (x : result A E) (Q : A → Prop) : Prop := ∀ a, x = Ok a → Q a.

Section yields_rules.
Context {A B E : Type}.

Lemma yields_bind (x : result A E) (Q : A → Prop) (k : A → result B E) (R : B → Prop) :
  yields x Q → (∀ a, Q a → yields (k a) R) → yields (rbind x k) R.
Proof. intros Hx Hk b (a & Ha & Hb)%rbind_ok. by apply (Hk a (Hx a Ha)). Qed.

Lemma yields_any (x : result A E) : yields x (fun a => x = Ok a).
Proof. by intros a. Qed.

Lemma yields_ok a (Q : A → Prop) : Q a → yields (E := E) (Ok a) Q.
Proof. by intros HQ _ [= <-]. Qed.

Lemma yields_err (e : E) (Q : A → Prop) : yields (Err e) Q.
Proof. by intros a. Qed.

Lemma yields_weaken (x : result A E) (Q R : A → Prop) : yields x Q → (∀ a, Q a → R a) → yields x R.
Proof. intros Hx HQ a Ha. by apply HQ, Hx. Qed.
End yields_rules.

Lemma yields_fold {A B E} (f : B → A → result A E) (P : A → Prop) l a :
  (∀ x a, x ∈ l → P a → yields (f x a) P) → P a → yields (rfold f l a) P.
Proof.
  revert a. induction l as [|x l IH]; intros a Hf Ha; cbn; [by apply yields_ok|].
  eapply yields_bind; [apply Hf; [left|done]|]. intros b Hb. apply IH; [|done].
  intros y c Hy. apply Hf. by right.
Qed.

(** ** Statements that leave the journal alone *)

Record books (s s' : Stock) : Prop := {
  books_table : table_ok (balances s');
  books_entries : entries s' = entries s;
  books_transactions : transactions s' = transactions s;
  books_positions : ∀ i b, rows (balances s) !! i = Some b →
    ∃ b', rows (balances s') !! i = Some b' ∧ position b' = position b;
}.

Definition keeps (s s' : Stock) : Prop := table_ok (balances s) → books s s'.

#[global] Instance keeps_preorder : PreOrder keeps.
Proof.
  split.
  - intros s Ht. split; [done..|]. intros i b ?. by exists b.
  - intros s1 s2 s3 H1 H2 Ht. destruct (H1 Ht) as [T1 E1 X1 P1]. destruct (H2 T1) as [T2 E2 X2 P2].
    split; [done|congruence..|]. intros i b Hb. destruct (P1 i b Hb) as (b1 & Hb1 & Ep1).
    destruct (P2 i b1 Hb1) as (b2 & Hb2 & Ep2). exists b2. split; [done|congruence].
Qed.

Lemma keeps_same s s' :
  balances s' = balances s → entries s' = entries s → transactions s' = transactions s → keeps s s'.
Proof. intros Eb Ee Et Ht. split; rewrite ?Eb; [done..|]. intros i b ?. by exists b. Qed.

Section keeps.
Context (g : bool).

Lemma write_rows s id old new t s' :
  write_balance g s id old new t = Ok s' →
  balances s' = t ∧ entries s' = entries s ∧ transactions s' = transactions s.
Proof.
  unfold write_balance, capture_inventory_projection_change. intros H.
  apply rbind_ok in H as (_ & _ & H). apply rbind_ok in H as (_ & _ & H).
  destruct (mixes_lots _ _ _ _); [done|]. apply rbind_ok in H as (_ & _ & H).
  repeat case_match; simplify_eq; done.
Qed.

Lemma write_keeps s id b new t :
  rows (balances s) !! id = Some b → position new = position b →
  t = update_row (balances s) id new ∨ t = skip_id (update_row (balances s) id new) →
  yields (write_balance g s id (Some b) new t) (keeps s).
Proof.
  intros Hb Hp Ht s' (E & Ee & Ex)%write_rows Hok. split; [|done|done|]; rewrite E.
  - destruct Ht as [-> | ->]; [|apply table_ok_skip]; by eapply table_ok_update.
  - intros i c Hc. assert (Hrow : rows t = <[id := new]> (rows (balances s))) by (by destruct Ht as [-> | ->]).
    rewrite Hrow. destruct (decide (i = id)) as [->|Hne].
    + rewrite lookup_insert_eq. exists new. split; [done|]. congruence.
    + rewrite lookup_insert_ne by done. by exists c.
Qed.

Lemma decrement_keeps s where_ qty :
  yields (decrement_where g s where_ qty) (fun r => keeps s r.1).
Proof.
  unfold decrement_where. eapply yields_bind with (Q := fun s' => keeps s s'); [|intros s' H; by apply yields_ok].
  intros s' H Hok. revert H. apply (yields_fold _ (fun s' => books s s')); [|by apply (reflexivity (R := keeps))].
  intros [id b] s1 [Hin _]%elem_of_filter_bool Hs1. apply elem_of_map_to_list in Hin.
  eapply yields_bind; [apply yields_any|]. intros q _ s2 Hw.
  destruct Hs1 as [T1 E1 X1 P1]. destruct (P1 id b Hin) as (b1 & Hb1 & Ep).
  apply write_rows in Hw as (E2 & Ee2 & Ex2). split; [|congruence..|]; rewrite E2.
  - by eapply table_ok_update.
  - intros i c Hc. destruct (decide (i = id)) as [->|Hne].
    + cbn. rewrite lookup_insert_eq. eexists. split; [done|]. cbn. congruence.
    + cbn. rewrite lookup_insert_ne by done. by apply P1.
Qed.

Lemma balance_at_row s p i b : balance_at s p = Some (i, b) → rows (balances s) !! i = Some b.
Proof.
  unfold balance_at. intros H%head_Some_elem_of. apply elem_of_filter_bool in H as [H _].
  by apply elem_of_map_to_list in H.
Qed.

Lemma upsert_keeps s p qty : yields (upsert_balance g s p qty) (fun r => keeps s r.1).
Proof.
  unfold upsert_balance. destruct (require_active_inventory_owner_facility _ _ _); [|apply yields_err].
  destruct (balance_at s p) as [[i b]|] eqn:Hat.
  - apply balance_at_row in Hat. destruct (mixes_lots _ _ _ _); [apply yields_err|].
    eapply yields_bind; [apply yields_any|]. intros q _.
    eapply yields_bind; [apply (write_keeps s i b); [done|done|by right]|]. intros s' H. by apply yields_ok.
  - eapply yields_bind; [apply yields_any|]. intros q _.
    eapply yields_bind; [apply yields_any|]. intros s' (E & Ee & Ex)%write_rows.
    apply yields_ok. intros Hok. split; [|done|done|]; cbn [fst]; rewrite E.
    + by apply table_ok_insert.
    + intros j b Hb. exists b. split; [|done]. cbn. rewrite lookup_insert_ne; [done|].
      intros <-. by rewrite table_fresh in Hb.
Qed.

Lemma emit_keeps s k a i o n ty body : yields (emit s k a i o n ty body) (keeps s).
Proof. intros s' (t & -> & _)%emit_inv. by apply keeps_same. Qed.

Lemma project_keeps s0 s balance owner f :
  keeps s0 s → (∀ b new, f b = Some new → position new = position b) →
  yields (project g s balance owner f) (keeps s0).
Proof.
  intros Hk Hf. unfold project. destruct (rows (balances s) !! balance) as [b|] eqn:Hb; [|apply yields_err].
  destruct (_ =? owner); [|apply yields_err]. destruct (f b) as [new|] eqn:Hn; [|apply yields_err].
  eapply yields_weaken; [apply (write_keeps s balance b); [done|by apply Hf|by left]|].
  intros s' H. by etrans.
Qed.

Lemma project_allocation_position q b new : project_allocation b q = Some new → position new = position b.
Proof. unfold project_allocation. case_match; [|done]. by intros [= <-]. Qed.

Lemma project_hold_position q b new : project_hold b q = Some new → position new = position b.
Proof. unfold project_hold. case_match; [|done]. by intros [= <-]. Qed.

Lemma insert_reservation_keeps s r : yields (insert_reservation s r) (fun x => keeps s x.1).
Proof.
  unfold insert_reservation. destruct (require_active_inventory_owner_facility _ _ _); [|apply yields_err].
  eapply yields_bind; [apply yields_any|]. intros _ _. destruct (existsb _ _); [apply yields_err|].
  apply yields_ok. by apply keeps_same.
Qed.

Lemma close_reservation_keeps s id st : yields (close_reservation g s id st) (fun x => keeps s x.1).
Proof.
  unfold close_reservation. destruct (rows (reservations s) !! id) as [r|]; [|by apply yields_ok].
  destruct (active_reservation r); [|by apply yields_ok].
  eapply yields_bind; [apply yields_any|]. intros _ _. apply yields_ok. by apply keeps_same.
Qed.

Lemma insert_allocation_keeps s a : yields (insert_allocation g s a) (fun x => keeps s x.1).
Proof.
  unfold insert_allocation. destruct (require_active_inventory_owner_facility _ _ _); [|apply yields_err].
  do 3 (eapply yields_bind; [apply yields_any|]; intros _ _).
  eapply yields_bind; [apply (project_keeps s); [by apply keeps_same|apply project_allocation_position]|].
  intros s' H. by apply yields_ok.
Qed.

Lemma release_allocation_keeps s id : yields (release_allocation g s id) (fun x => keeps s x.1).
Proof.
  unfold release_allocation. destruct (rows (allocations s) !! id) as [a|]; [|by apply yields_ok].
  destruct (active_allocation a); [|by apply yields_ok].
  eapply yields_bind; [apply yields_any|]. intros _ _.
  eapply yields_bind; [apply (project_keeps s); [by apply keeps_same|apply project_allocation_position]|].
  intros s' H. by apply yields_ok.
Qed.

Lemma insert_hold_keeps s h : yields (insert_hold g s h) (fun x => keeps s x.1).
Proof.
  unfold insert_hold. destruct (require_active_inventory_owner_facility _ _ _); [|apply yields_err].
  eapply yields_bind; [apply yields_any|]; intros _ _.
  eapply yields_bind; [apply (project_keeps s); [by apply keeps_same|apply project_hold_position]|].
  intros s' H. by apply yields_ok.
Qed.

Lemma release_hold_keeps s id : yields (release_hold_row g s id) (fun x => keeps s x.1).
Proof.
  unfold release_hold_row. destruct (rows (holds s) !! id) as [h|]; [|by apply yields_ok].
  destruct (active_hold h); [|by apply yields_ok].
  eapply yields_bind; [apply yields_any|]. intros _ _.
  eapply yields_bind; [apply (project_keeps s); [by apply keeps_same|apply project_hold_position]|].
  intros s' H. by apply yields_ok.
Qed.
End keeps.

(** ** Runs that append to the journal *)

Record extends (s0 s : Stock) : Prop := {
  ext_balances : table_ok (balances s);
  ext_entries : ∃ es, entries s = entries s0 ++ es ∧ ∀ e, e ∈ es → opened s0 ≤ entry_transaction e;
  ext_next : opened s0 ≤ next_id (transactions s);
  ext_old : ∀ id, id < opened s0 → rows (transactions s) !! id = rows (transactions s0) !! id;
  ext_new : ∀ id t, opened s0 ≤ id → rows (transactions s) !! id = Some t → txn_type t ≠ Adjust;
  ext_positions : ∀ i b, rows (balances s0) !! i = Some b →
    ∃ b', rows (balances s) !! i = Some b' ∧ position b' = position b;
}.

Lemma extends_refl s : stock_wf s → extends s s.
Proof.
  intros Hwf. split.
  - apply Hwf.
  - exists []. rewrite app_nil_r. split; [done|]. by intros e ?%elem_of_nil.
  - done.
  - done.
  - intros id t Hid Ht. apply (transaction_table s) in Ht; [|apply Hwf]. unfold opened in Hid. lia.
  - intros i b Hb. by exists b.
Qed.

Lemma extends_keeps s0 s s' : extends s0 s → keeps s s' → extends s0 s'.
Proof.
  intros [Hb He Hn Ho Hx Hp] Hk. destruct (Hk Hb) as [Tb Ee Et Pp]. split; rewrite ?Ee, ?Et; try done.
  intros i b Hi. destruct (Hp i b Hi) as (b1 & Hb1 & Ep1). destruct (Pp i b1 Hb1) as (b2 & Hb2 & Ep2).
  exists b2. split; [done|congruence].
Qed.

Section extends.
Context (g : bool) (s0 : Stock).

Lemma lift {A E} s (x : result A E) (f : A → Stock) :
  extends s0 s → yields x (fun r => keeps s (f r)) → yields x (fun r => extends s0 (f r)).
Proof. intros Hs Hx a Ha. by eapply extends_keeps, Hx. Qed.

Lemma begin_extends s scope row :
  extends s0 s → txn_type row ≠ Adjust →
  yields (begin_transaction s scope row) (fun r => extends s0 r.1 ∧ opened s0 ≤ r.2).
Proof.
  intros [Hb He Hn Ho Hx Hp] Hty. unfold begin_transaction. case_bool_decide; [apply yields_err|].
  eapply yields_bind; [apply yields_any|]. intros _ _.
  destruct (journal_context s); [apply yields_err|].
  eapply yields_bind; [apply yields_any|]. intros s' (t & -> & _)%emit_inv. apply yields_ok.
  split; [|done]. split; try done.
  - cbn. lia.
  - intros id Hid. cbn. rewrite lookup_insert_ne by lia. by apply Ho.
  - intros id r Hid Hr. cbn in Hr. apply lookup_insert_Some in Hr as [[_ <-]|[_ Hr]]; [done|]. by apply (Hx id).
Qed.

Lemma append_extends s scope txn e :
  extends s0 s → opened s0 ≤ txn → yields (append_entry g s scope txn e) (extends s0).
Proof.
  intros [Hb (es & Ees & He) Hn Ho Hx Hp] Htxn. unfold append_entry.
  destruct (_ =? 0); [apply yields_err|]. destruct (batch_in_scope _ _ _) as [b|]; [|apply yields_err].
  destruct (batch_deleted b); [apply yields_err|].
  do 2 (eapply yields_bind; [apply yields_any|]; intros _ _). apply yields_ok. split; try done.
  cbn [entries set_entries]. rewrite Ees, <-app_assoc. eexists. split; [done|].
  intros e' [He'|He']%elem_of_app; [by apply He|]. by apply list_elem_of_singleton in He' as ->.
Qed.

Lemma commit_keeps s : yields (commit_stock g s) (keeps s).
Proof.
  unfold commit_stock. destruct (journal_context s) as [id|]; [|by apply yields_ok].
  destruct (rows (transactions s) !! id).
  - do 2 (eapply yields_bind; [apply yields_any|]; intros _ _). apply yields_ok. by apply keeps_same.
  - apply yields_ok. by apply keeps_same.
Qed.

Lemma transition_keeps s r : yields (insert_transition g s r) (fun x => keeps s x.1).
Proof.
  unfold insert_transition. eapply yields_bind; [apply yields_any|]. intros _ _. apply yields_ok.
  by apply keeps_same.
Qed.
End extends.

(** One statement of a handler. *)
Ltac history_statement :=
  first
    [ eapply begin_extends; [eassumption|done]
    | eapply append_extends; [eassumption|eassumption || lia]
    | eapply lift with (f := fst); [eassumption|];
      first [apply decrement_keeps|apply upsert_keeps|apply insert_reservation_keeps
            |apply close_reservation_keeps|apply insert_allocation_keeps|apply release_allocation_keeps
            |apply insert_hold_keeps|apply release_hold_keeps|apply transition_keeps]
    | eapply lift with (f := fun s => s); [eassumption|]; first [apply emit_keeps|apply commit_keeps]
    | eassumption
    | apply yields_any ].

Ltac history_intro :=
  let a := fresh "a" in let H := fresh "H" in intros a H;
  repeat match goal with x : prod _ _ |- _ => destruct x end; cbn [fst snd] in *; destruct_and?.

(** Walk through a handler. *)
Ltac history :=
  cbn beta iota zeta;
  lazymatch goal with
  | |- yields (rbind _ _) _ => eapply yields_bind; [history_statement|history_intro]; history
  | |- yields (Err _) _ => apply yields_err
  | |- yields (raise _) _ => apply yields_err
  | |- yields (Ok _) _ => apply yields_ok; cbn [fst snd]; assumption
  | |- yields (match ?x with _ => _ end) _ => destruct x; history
  | |- _ => history_statement
  end.

Section handlers.
Context (g : bool) (s0 : Stock).
Local Abbreviation extended x := (yields x (fun r => extends s0 r.1.1)).

Lemma receive_extends s scope actor key hash batch to qty st memo :
  extends s0 s → extended (receive_work g scope actor key hash batch to qty st memo s).
Proof. intros Hs. unfold receive_work. history. Qed.

Lemma move_extends s scope actor key hash batch from to qty st memo :
  extends s0 s → extended (move_work g scope actor key hash batch from to qty st memo s).
Proof. intros Hs. unfold move_work. history. Qed.

Lemma split_destinations_extend s owner_facility txn p ds :
  extends s0 s → opened s0 ≤ txn →
  yields (rfold (split_destination g owner_facility txn p) ds s) (extends s0).
Proof.
  intros Hs Htxn. apply yields_fold; [|done]. intros d s' _ Hs'. unfold split_destination. history.
Qed.

Lemma split_extends s scope actor key hash balance destinations total memo :
  extends s0 s → extended (split_work g scope actor key hash balance destinations total memo s).
Proof.
  intros Hs. unfold split_work. pose proof split_destinations_extend as Hfold.
  repeat (cbn beta iota zeta;
    lazymatch goal with
    | |- yields (rbind (rfold _ _ _) _) _ => eapply yields_bind; [by apply Hfold|history_intro]
    | |- yields (rbind _ _) _ => eapply yields_bind; [history_statement|history_intro]
    | |- yields (match ?x with _ => _ end) _ => destruct x
    | |- _ => history
    end).
Qed.

Lemma change_status_extends s actor request key hash command locked :
  extends s0 s → extended (change_status_work g actor request key hash command locked s).
Proof. intros Hs. unfold change_status_work. destruct locked. history. Qed.

Lemma reserve_extends s order line facility qty locked :
  extends s0 s → extended (reserve_work order line facility qty locked s).
Proof.
  intros Hs. unfold reserve_work, enqueue_reservation_event, emit_transition. destruct locked. history.
Qed.

Lemma allocate_extends s reservation balance qty locked :
  extends s0 s → extended (allocate_work g reservation balance qty locked s).
Proof.
  intros Hs. unfold allocate_work, enqueue_allocation_event, emit_transition. destruct locked. history.
Qed.

Lemma cancel_allocation_extends s allocation locked :
  extends s0 s → extended (cancel_allocation_work g allocation locked s).
Proof.
  intros Hs. unfold cancel_allocation_work, enqueue_allocation_event, emit_transition. destruct locked.
  history.
Qed.

Lemma cancel_reservation_extends s scope reservation r :
  extends s0 s → extended (cancel_reservation_work g scope reservation r s).
Proof.
  intros Hs. unfold cancel_reservation_work, enqueue_reservation_event, emit_transition.
  destruct (active_reservation r); [|apply yields_err].
  eapply yields_bind with (Q := fun x => extends s0 x.1); [|history_intro; history].
  apply yields_fold; [|done]. intros [id a] [s' total] _ Hs'. cbn in Hs'.
  unfold release_one, enqueue_allocation_event, emit_transition. history.
Qed.

Lemma cancel_order_extends s scope order reason :
  extends s0 s → yields (cancel_order_commitments_tx g scope order reason s) (fun r => extends s0 r.1).
Proof.
  intros Hs. unfold cancel_order_commitments_tx. eapply yields_bind; [apply yields_any|]. intros _ _.
  eapply yields_bind with (Q := fun x => extends s0 x.1.1).
  { apply yields_fold; [|done]. intros [id a] [[s' total] m] _ Hs'. cbn in Hs'.
    unfold release_for_order, enqueue_allocation_event, emit_transition. history. }
  history_intro. eapply yields_bind with (Q := extends s0); [|history_intro; history].
  apply yields_fold; [|done]. intros [id r] s' _ Hs'.
  unfold close_for_order, enqueue_reservation_event, emit_transition. history.
Qed.

Lemma place_extends s balance command :
  extends s0 s → yields (place_on_balance g balance command s) (fun r => extends s0 r.1).
Proof.
  intros Hs. unfold place_on_balance, insert_hold_tx, enqueue_hold_event, emit_transition. history.
Qed.

Lemma lift_extends s hold h : extends s0 s → yields (lift_hold g hold h s) (extends s0).
Proof. intros Hs. unfold lift_hold, enqueue_hold_event, emit_transition. history. Qed.

Lemma place_hold_extends s command balance :
  extends s0 s → extended (place_hold_work g command balance s).
Proof.
  intros Hs. unfold place_hold_work. eapply yields_bind; [by apply place_extends|]. history_intro. history.
Qed.

Lemma release_hold_extends s hold locked :
  extends s0 s → extended (release_hold_work g hold locked s).
Proof.
  intros Hs. unfold release_hold_work. destruct locked as [h b]. case_bool_decide; [|apply yields_err].
  destruct (workflow_managed _); [apply yields_err|]. destruct (active_hold h); [|apply yields_err].
  eapply yields_bind; [by apply lift_extends|]. history_intro. history.
Qed.
End handlers.

(** ** Steps *)

Section protocol.
Context (g : bool) (digest : list Z → rstr).
Context {Json : Type} (to_json : StockResult → option Json) (from_json : Json → option StockResult).
Context (encode : StockRequest → option (list Z)).

Lemma run_command_extends prepared work (db : StockDatabase (Json := Json)) s0 :
  extends s0 db.2 → yields (work db.2) (fun r => extends s0 r.1.1) →
  yields (run_command to_json from_json prepared work db) (fun r => extends s0 r.1.2).
Proof.
  intros Hs Hw. unfold run_command. eapply yields_bind; [apply yields_any|].
  intros [answer|] _; [by apply yields_ok|]. eapply yields_bind; [exact Hw|]. intros [[s r] t] Hs'.
  eapply yields_bind; [apply yields_any|]. intros [records r'] _. by apply yields_ok.
Qed.

Lemma journal_command_extends prepared scope work (db : StockDatabase (Json := Json)) s0 :
  extends s0 db.2 → yields (work db.2) (fun r => extends s0 r.1.1) →
  yields (journal_command to_json from_json prepared scope work db) (fun r => extends s0 r.1.2).
Proof.
  intros Hs Hw. unfold journal_command. eapply yields_bind; [apply yields_any|].
  intros [answer|] _; [by apply yields_ok|]. by apply run_command_extends.
Qed.

Lemma locked_command_extends {A} prepared (locks : Stock → result A ApplicationError) work
    (db : StockDatabase (Json := Json)) s0 :
  extends s0 db.2 → (∀ a, yields (work a db.2) (fun r => extends s0 r.1.1)) →
  yields (locked_command to_json from_json prepared locks work db) (fun r => extends s0 r.1.2).
Proof.
  intros Hs Hw. unfold locked_command. eapply yields_bind; [apply yields_any|]. intros a _.
  by apply run_command_extends.
Qed.

Ltac skip_checks :=
  cbn zeta;
  repeat lazymatch goal with
  | |- yields (if ?b then _ else _) _ => destruct b; try apply yields_err
  | |- yields (rbind _ _) _ => eapply yields_bind; [apply yields_any|]; intros ? _
  end.

Lemma run_stock_extends call (db : StockDatabase (Json := Json)) s0 :
  extends s0 db.2 →
  yields (run_stock g digest to_json from_json encode call db) (fun r => extends s0 r.1.2).
Proof.
  intros Hs. destruct call; cbn [run_stock].
  - unfold receive_inventory. skip_checks. apply journal_command_extends; [done|by apply receive_extends].
  - unfold move_inventory. skip_checks. apply journal_command_extends; [done|by apply move_extends].
  - unfold split_move_inventory. skip_checks. apply journal_command_extends; [done|by apply split_extends].
  - unfold change_inventory_status. skip_checks. apply locked_command_extends; [done|]. intros l.
    by apply change_status_extends.
  - unfold create_inventory_reservation. skip_checks. apply locked_command_extends; [done|]. intros l.
    by apply reserve_extends.
  - unfold allocate_inventory. skip_checks. apply locked_command_extends; [done|]. intros l.
    by apply allocate_extends.
  - unfold cancel_inventory_allocation. skip_checks. apply locked_command_extends; [done|]. intros l.
    by apply cancel_allocation_extends.
  - unfold cancel_inventory_reservation. skip_checks. apply locked_command_extends; [done|]. intros l.
    by apply cancel_reservation_extends.
  - unfold place_inventory_hold. skip_checks. apply locked_command_extends; [done|]. intros l.
    by apply place_hold_extends.
  - unfold release_inventory_hold. skip_checks. apply locked_command_extends; [done|]. intros l.
    by apply release_hold_extends.
Qed.

Lemma step_extends db db' :
  stock_step g digest to_json from_json encode db db' → stock_wf db.2 → extends db.2 db'.2.
Proof.
  intros Hstep Hwf. apply extends_refl in Hwf as Hs. destruct Hstep; cbn [snd]; try done.
  - by apply (run_stock_extends _ _ _ Hs) in H.
  - by apply (cancel_order_extends g _ _ _ _ _ Hs) in H.
  - revert H. unfold place_composed_inventory_hold_tx. intros H. apply rbind_ok in H as (c & _ & H).
    apply rbind_ok in H as (b & _ & H). by apply (place_extends g _ _ _ _ Hs) in H.
  - revert H. unfold release_composed_inventory_hold_tx. intros H. apply rbind_ok in H as (h & _ & H).
    destruct (active_hold h); [|done]. destruct (_ && _); [|done].
    apply rbind_ok in H as (s1 & H1 & [= <- <-]). by apply (lift_extends g _ _ _ _ Hs) in H1.
  - unfold add_item_batch in H. eapply extends_keeps; [done|]. revert H.
    cbn zeta. repeat case_match; try done; intros [= <- <-]; by apply keeps_same.
  - unfold set_item_batch_deleted in H. eapply extends_keeps; [done|]. revert H.
    destruct (rows (batches _) !! id); [|by intros [= <- <-]]. destruct (_ && _); [done|].
    intros [= <- <-]. by apply keeps_same.
  - eapply extends_keeps; [done|by apply keeps_same].
Qed.
End protocol.

(** ** Consequences *)

Section consequences.
Context (s0 s : Stock) (Hwf : stock_wf s0) (Hext : extends s0 s).

Lemma old_transaction id t : rows (transactions s0) !! id = Some t → rows (transactions s) !! id = Some t.
Proof.
  intros Ht. rewrite (ext_old _ _ Hext); [done|]. apply (transaction_table s0) in Ht; [|apply Hwf].
  unfold opened. lia.
Qed.

(** The entries of a transaction that was there are its entries for good. *)
Lemma old_entries id owner :
  is_Some (rows (transactions s0) !! id) → entries_of s id owner = entries_of s0 id owner.
Proof.
  intros [t Ht]. apply (transaction_table s0) in Ht; [|apply Hwf].
  destruct (ext_entries _ _ Hext) as (es & Ees & Hes). unfold entries_of. rewrite Ees, List.filter_app.
  rewrite <-(app_nil_r (List.filter _ (entries s0))) at 2. f_equal.
  apply elem_of_nil_inv. intros e [He E]%elem_of_filter_bool. apply Hes in He. bool_to_prop.
  unfold opened in He. lia.
Qed.

Lemma adjusted_kept batch : adjusted s batch = adjusted s0 batch.
Proof.
  destruct (ext_entries _ _ Hext) as (es & Ees & Hes). unfold adjusted, journalled.
  rewrite Ees, List.filter_app.
  assert (Hnew : List.filter (fun e => has_type (fun ty => bool_decide (ty = Adjust)) s
    (entry_transaction e)) es = []).
  { apply elem_of_nil_inv. intros e [He E]%elem_of_filter_bool. apply Hes in He. unfold has_type in E.
    destruct (rows (transactions s) !! entry_transaction e) as [t|] eqn:Ht; [|done]. bool_to_prop.
    by apply (ext_new _ _ Hext) in Ht. }
  rewrite Hnew, app_nil_r, !zsum_where. apply zsum_ext. intros e He.
  apply (entries_in_journal s0 (wf_journal s0 Hwf)), in_journal_iff in He as (t & Ht & _).
  unfold has_type. by rewrite Ht, (old_transaction _ _ Ht).
Qed.
End consequences.
