(* ===== verification/CycleCount.v ===== *)
(** * Cycle count rules ([crates/domain/src/cycle_count.rs])

    The tolerance of a count, and whether a counted variance is posted, counted again or put
    before a supervisor. Newtypes over an integer or a text are represented by it; their
    [Deserialize] instances call the constructors below. *)

From S2P Require Import Prelude.
From S2P Require Import RustStr.

Definition MAX_CYCLE_COUNT_RECOUNTS : Z := 10.
Definition MAX_CYCLE_COUNT_VARIANCE_NOTE_LENGTH : Z := 500.
Definition MAX_CYCLE_COUNT_PERCENTAGE_BASIS_POINTS : Z := 10000.

Inductive CycleCountError :=
| InvalidRevision (value : Z)
| NegativeAbsoluteTolerance (value : Z)
| PercentageToleranceOutOfRange (value : Z)
| RecountLimitOutOfRange (value : Z)
| NegativeSystemQuantity (value : Z)
| ToleranceOverflow
| VarianceMagnitudeOverflow
| NegativeApprovalThreshold (value : Z)
| RecountUsageExceedsLimit (used limit : Z)
| InvalidVarianceNote
| OtherReasonRequiresNote.

Definition CycleCountPolicyRevision_new (value : Z) : result Z CycleCountError :=
  positive_new InvalidRevision value.
Definition CycleCountVarianceRevision_new (value : Z) : result Z CycleCountError :=
  positive_new InvalidRevision value.

Record CycleCountTolerancePolicy := MkTolerance {
  absolute_tolerance_quantity : Z;
  percentage_tolerance_basis_points : Z;
  automatic_recount_limit : Z;
}.

Definition CycleCountTolerancePolicy_new (absolute percentage limit : Z) :
    result CycleCountTolerancePolicy CycleCountError :=
  if absolute <? 0 then Err (NegativeAbsoluteTolerance absolute)
  else if MAX_CYCLE_COUNT_PERCENTAGE_BASIS_POINTS <? percentage
  then Err (PercentageToleranceOutOfRange percentage)
  else if MAX_CYCLE_COUNT_RECOUNTS <? limit then Err (RecountLimitOutOfRange limit)
  else Ok (MkTolerance absolute percentage limit).

(** The division of [i128] truncates. *)
Definition allowed_variance_quantity (self : CycleCountTolerancePolicy) (system_quantity : Z) :
    result Z CycleCountError :=
  if system_quantity <? 0 then Err (NegativeSystemQuantity system_quantity)
  else
    let? numerator := ok_or (i128_checked_mul system_quantity
                               (percentage_tolerance_basis_points self)) ToleranceOverflow in
    let? sum := ok_or (i128_checked_add numerator (MAX_CYCLE_COUNT_PERCENTAGE_BASIS_POINTS - 1))
                  ToleranceOverflow in
    let? percentage := ok_or (checked i64_min i64_max
                                (Z.quot sum MAX_CYCLE_COUNT_PERCENTAGE_BASIS_POINTS))
                         ToleranceOverflow in
    Ok (Z.max (absolute_tolerance_quantity self) percentage).

Inductive CycleCountDisposition := Posted | RecountRequired | ApprovalRequired.
Inductive CycleCountVarianceStatus := AwaitingRecount | AwaitingApproval | VariancePosted.
Inductive CycleCountVarianceDecision := ApproveAdjustment | RequestRecount.
Inductive CycleCountVarianceReason :=
| VerifiedPhysicalCount | PackagingOrUomIssue | ReceivingOrShippingTiming | SuspectedMiscount
| VarianceOther.

#[global] Instance CycleCountDisposition_eq_dec : EqDecision CycleCountDisposition.
Proof. solve_decision. Defined.
#[global] Instance CycleCountVarianceStatus_eq_dec : EqDecision CycleCountVarianceStatus.
Proof. solve_decision. Defined.
#[global] Instance CycleCountVarianceDecision_eq_dec : EqDecision CycleCountVarianceDecision.
Proof. solve_decision. Defined.
#[global] Instance CycleCountVarianceReason_eq_dec : EqDecision CycleCountVarianceReason.
Proof. solve_decision. Defined.

Definition CycleCountVarianceNote_new (value : rstr) : result rstr CycleCountError :=
  if bool_decide (value = []) || negb (bool_decide (trim value = value))
     || (MAX_CYCLE_COUNT_VARIANCE_NOTE_LENGTH <? chars_count value)
  then Err InvalidVarianceNote else Ok value.

Record CycleCountVarianceDecisionDetails := MkDecisionDetails {
  cd_decision : CycleCountVarianceDecision;
  cd_reason : CycleCountVarianceReason;
  cd_note : option rstr;
}.

Definition CycleCountVarianceDecisionDetails_new (decision : CycleCountVarianceDecision)
    (reason : CycleCountVarianceReason) (note : option rstr) :
    result CycleCountVarianceDecisionDetails CycleCountError :=
  if bool_decide (reason = VarianceOther) && bool_decide (note = None)
  then Err OtherReasonRequiresNote else Ok (MkDecisionDetails decision reason note).

(** [i64::checked_abs] *)
Definition i64_checked_abs (z : Z) : option Z := checked i64_min i64_max (Z.abs z).

Definition decide_cycle_count_disposition_with_approval_threshold
    (policy : CycleCountTolerancePolicy) (system_quantity variance_quantity recounts_used : Z)
    (approval_threshold : option Z) : result CycleCountDisposition CycleCountError :=
  if automatic_recount_limit policy <? recounts_used
  then Err (RecountUsageExceedsLimit recounts_used (automatic_recount_limit policy))
  else
    let? _ := match approval_threshold with
              | Some threshold => if threshold <? 0 then Err (NegativeApprovalThreshold threshold)
                                  else Ok tt
              | None => Ok tt
              end in
    let? magnitude := ok_or (i64_checked_abs variance_quantity) VarianceMagnitudeOverflow in
    let? allowed := allowed_variance_quantity policy system_quantity in
    if magnitude <=? allowed then Ok Posted
    else if match approval_threshold with Some threshold => threshold <=? magnitude | None => false end
    then Ok ApprovalRequired
    else if recounts_used <? automatic_recount_limit policy then Ok RecountRequired
    else Ok ApprovalRequired.

Definition decide_cycle_count_disposition (policy : CycleCountTolerancePolicy)
    (system_quantity variance_quantity recounts_used : Z) :
    result CycleCountDisposition CycleCountError :=
  decide_cycle_count_disposition_with_approval_threshold policy system_quantity variance_quantity
    recounts_used None.

(** ** Facts *)

(** A policy that its constructor accepts, with fields in the ranges of their types. *)
Definition tolerance_ok (p : CycleCountTolerancePolicy) : Prop :=
  0 ≤ absolute_tolerance_quantity p ≤ i64_max ∧
  0 ≤ percentage_tolerance_basis_points p ≤ MAX_CYCLE_COUNT_PERCENTAGE_BASIS_POINTS ∧
  0 ≤ automatic_recount_limit p ≤ MAX_CYCLE_COUNT_RECOUNTS.

Lemma tolerance_new_ok absolute percentage limit p :
  CycleCountTolerancePolicy_new absolute percentage limit = Ok p ↔
  p = MkTolerance absolute percentage limit ∧ 0 ≤ absolute ∧
  percentage ≤ MAX_CYCLE_COUNT_PERCENTAGE_BASIS_POINTS ∧ limit ≤ MAX_CYCLE_COUNT_RECOUNTS.
Proof.
  unfold CycleCountTolerancePolicy_new.
  repeat case_match; bool_to_prop; split; intros; destruct_and?; simplify_eq; try lia; auto.
Qed.

(** The tolerance: the absolute one, or the percentage of the stock on the books rounded up,
    whichever is larger. The arithmetic never overflows. *)
Definition tolerance (p : CycleCountTolerancePolicy) (system : Z) : Z :=
  Z.max (absolute_tolerance_quantity p)
    ((system * percentage_tolerance_basis_points p + 9999) / 10000).

Lemma allowed_variance_exact p system :
  tolerance_ok p → 0 ≤ system ≤ i64_max →
  allowed_variance_quantity p system = Ok (tolerance p system) ∧
  absolute_tolerance_quantity p ≤ tolerance p system ≤ Z.max (absolute_tolerance_quantity p) system.
Proof.
  intros (Ha & Hp & Hl) Hs. unfold MAX_CYCLE_COUNT_PERCENTAGE_BASIS_POINTS in *.
  set (bps := percentage_tolerance_basis_points p) in *.
  assert (0 ≤ system * bps ≤ i64_max * 10000) by (unfold i64_max in *; nia).
  assert (Hq : 0 ≤ (system * bps + 9999) / 10000 ≤ system).
  { split; [apply Z.div_pos; lia|]. apply Z.lt_succ_r, Z.div_lt_upper_bound; nia. }
  unfold allowed_variance_quantity, tolerance. fold bps.
  rewrite (proj2 (Z.ltb_ge _ _)) by lia. unfold i128_checked_mul, i128_checked_add.
  rewrite checked_in by range_lia. cbn [ok_or rbind].
  unfold MAX_CYCLE_COUNT_PERCENTAGE_BASIS_POINTS. change (10000 - 1) with 9999.
  rewrite checked_in by range_lia. cbn [ok_or rbind].
  rewrite Z.quot_div_nonneg, checked_in by range_lia. cbn [ok_or rbind]. split; [done|lia].
Qed.

(** The rule always decides: a variance within the tolerance is posted, a variance below the
    approval threshold is counted again while recounts are left, any other goes to approval. *)
Lemma disposition_spec p system variance used threshold :
  tolerance_ok p → 0 ≤ system ≤ i64_max → used ≤ automatic_recount_limit p →
  (∀ t, threshold = Some t → 0 ≤ t) → Z.abs variance ≤ i64_max →
  ∃ d, decide_cycle_count_disposition_with_approval_threshold p system variance used threshold = Ok d ∧
    (d = Posted ↔ Z.abs variance ≤ tolerance p system) ∧
    (d = RecountRequired ↔ tolerance p system < Z.abs variance ∧
       (∀ t, threshold = Some t → Z.abs variance < t) ∧ used < automatic_recount_limit p).
Proof.
  intros Hp Hs Hu Ht Hv. destruct (allowed_variance_exact p system Hp Hs) as [Ha _].
  unfold decide_cycle_count_disposition_with_approval_threshold, i64_checked_abs.
  rewrite (proj2 (Z.ltb_ge _ _)) by lia. rewrite checked_in, Ha by range_lia.
  assert (Hth : match threshold with
    | Some t => if t <? 0 then Err (NegativeApprovalThreshold t) else Ok tt | None => Ok tt end
    = Ok (E := CycleCountError) tt).
  { destruct threshold as [t|]; [|done]. by rewrite (proj2 (Z.ltb_ge _ _)) by (by apply Ht). }
  rewrite Hth. cbn [ok_or rbind].
  destruct (Z.leb_spec (Z.abs variance) (tolerance p system)) as [Hle|Hgt].
  { exists Posted. split; [done|]. split; [done|]. split; [done|lia]. }
  destruct threshold as [t|].
  - destruct (Z.leb_spec t (Z.abs variance)).
    + exists ApprovalRequired. split_and!; [done|split; [done|lia]|split; [done|]].
      intros (_ & H' & _). specialize (H' t eq_refl). lia.
    + destruct (Z.ltb_spec used (automatic_recount_limit p)).
      * exists RecountRequired. split_and!; [done|split; [done|lia]|]. split; [|done].
        intros _. split_and!; [done| |done]. by intros ? [= <-].
      * exists ApprovalRequired. split_and!; [done|split; [done|lia]|split; [done|lia]].
  - destruct (Z.ltb_spec used (automatic_recount_limit p)).
    + exists RecountRequired. by split_and!; [|split; [|lia]|].
    + exists ApprovalRequired. split_and!; [done|split; [done|lia]|split; [done|lia]].
Qed.

(** What a successful decision tells of its inputs. *)
Lemma disposition_inv p system variance used threshold d :
  decide_cycle_count_disposition_with_approval_threshold p system variance used threshold = Ok d →
  used ≤ automatic_recount_limit p ∧
  ∃ allowed, allowed_variance_quantity p system = Ok allowed ∧
    (d = Posted → Z.abs variance ≤ allowed) ∧ (d ≠ Posted → allowed < Z.abs variance) ∧
    (d = RecountRequired → used < automatic_recount_limit p).
Proof.
  unfold decide_cycle_count_disposition_with_approval_threshold, i64_checked_abs. intros H.
  destruct (Z.ltb_spec (automatic_recount_limit p) used); [done|]. split; [done|].
  apply rbind_ok in H as (_ & _ & H). destruct (checked _ _ _) as [m|] eqn:Em; [|done].
  apply checked_Some in Em as [-> _]. cbn [ok_or rbind] in H.
  apply rbind_ok in H as (allowed & Ha & H). exists allowed. split; [done|].
  destruct (Z.leb_spec (Z.abs variance) allowed); [by simplify_eq|].
  destruct threshold as [t|]; [destruct (t <=? _)|];
    [|destruct (Z.ltb_spec used (automatic_recount_limit p))..]; by simplify_eq.
Qed.
