(* ===== verification/CountPolicy.v ===== *)
(** * Effective count policies
      ([crates/application/src/count_decision_policy.rs],
       [crates/api/src/repo/tasks/cycle_count_control/decision_policy.rs])

    The operational policy of a facility owns the recount limit; a configured Count rule may
    override its tolerance and send material variances straight to approval. The effective
    policy is frozen, with a hash, in the results and variance cases it decided, and a trigger
    compares it with the rule in force. The digest, [hex::encode] of SHA-256, is an
    argument. *)

From stdpp Require Import pretty.
From S2P Require Import Prelude.
From S2P Require Import RustStr.
From S2P Require Import Idempotency.
From S2P Require Import StockTypes.
From S2P Require Import Configuration.
From S2P Require Import ReplenishmentPolicy.
From S2P Require Import CycleCount.

Inductive CountDecisionPolicySource := CountProductDefault | CountConfiguration.

#[global] Instance CountDecisionPolicySource_eq_dec : EqDecision CountDecisionPolicySource.
Proof. solve_decision. Defined.

Definition CountDecisionPolicySource_as_str (self : CountDecisionPolicySource) : string :=
  match self with
  | CountProductDefault => "product_default"
  | CountConfiguration => "configuration"
  end.

Record CountDecisionPolicyReadModel := MkCountPolicy {
  cp_source : CountDecisionPolicySource;
  cp_configuration_id : option Z;
  cp_configuration_revision : option Z;
  cp_configuration_scope : option ConfigurationScope;
  cp_absolute : Z;
  cp_percentage : Z;
  cp_threshold : option Z;
  cp_hash : rstr;
}.

Inductive CountDecisionPolicyError :=
| CountWrongConfigurationKind
| CountInvalidConfigurationRevision
| CountInvalidConfiguration (e : ConfigurationError)
| CountInvalidTolerance (e : CycleCountError).

Definition internal_error {A E} (r : result A E) (why : string) : result A ApplicationError :=
  map_err (fun _ => Internal why) r.

Section evidence.
Context (digest : list Z → rstr).

(** ["-"], or the value. *)
Definition hash_field (value : option Z) : rstr := from_option (fun v => lit (pretty v)) (lit "-") value.

Definition count_decision_policy_hash (source : CountDecisionPolicySource)
    (configuration_id configuration_revision : option Z) (scope : option ConfigurationScope)
    (absolute percentage : Z) (threshold : option Z) : rstr :=
  digest (as_bytes
    (lit "count-decision-policy-v1|" ++ lit (CountDecisionPolicySource_as_str source)
     ++ lit "|" ++ hash_field configuration_id ++ lit "|" ++ hash_field configuration_revision
     ++ lit "|" ++ lit (from_option scope_hash_component "-" scope)
     ++ lit "|" ++ lit (pretty absolute) ++ lit "|" ++ lit (pretty percentage)
     ++ lit "|" ++ hash_field threshold)).

Definition CountDecisionPolicyReadModel_new (source : CountDecisionPolicySource)
    (configuration_id configuration_revision : option Z) (scope : option ConfigurationScope)
    (absolute percentage : Z) (threshold : option Z) : CountDecisionPolicyReadModel :=
  MkCountPolicy source configuration_id configuration_revision scope absolute percentage threshold
    (count_decision_policy_hash source configuration_id configuration_revision scope absolute
       percentage threshold).

Definition count_product_default (operational : CycleCountTolerancePolicy) :
    CountDecisionPolicyReadModel :=
  CountDecisionPolicyReadModel_new CountProductDefault None None None
    (absolute_tolerance_quantity operational) (percentage_tolerance_basis_points operational) None.

Definition count_from_configuration (configuration_id configuration_revision : Z)
    (scope : ConfigurationScope) (definition : DecisionRuleDefinition) :
    result CountDecisionPolicyReadModel CountDecisionPolicyError :=
  if configuration_revision <=? 0 then Err CountInvalidConfigurationRevision
  else
    match definition with
    | CountRule absolute percentage threshold =>
        let? _ := map_err CountInvalidConfiguration (DecisionRuleDefinition_validate definition) in
        Ok (CountDecisionPolicyReadModel_new CountConfiguration (Some configuration_id)
              (Some configuration_revision) (Some scope) absolute percentage (Some threshold))
    | _ => Err CountWrongConfigurationKind
    end.

Definition tolerance_policy (self : CountDecisionPolicyReadModel) (limit : Z) :
    result CycleCountTolerancePolicy CountDecisionPolicyError :=
  map_err CountInvalidTolerance
    (CycleCountTolerancePolicy_new (cp_absolute self) (cp_percentage self) limit).

Definition count_policy_is_consistent (self : CountDecisionPolicyReadModel) : bool :=
  match cp_source self with
  | CountProductDefault =>
      bool_decide (cp_configuration_id self = None)
      && bool_decide (cp_configuration_revision self = None)
      && bool_decide (cp_configuration_scope self = None) && bool_decide (cp_threshold self = None)
  | CountConfiguration =>
      bool_decide (is_Some (cp_configuration_id self))
      && match cp_configuration_revision self with Some r => 0 <? r | None => false end
      && bool_decide (is_Some (cp_configuration_scope self))
      && match cp_threshold self with Some t => cp_absolute self <=? t | None => false end
  end
  && (0 <=? cp_absolute self) && (cp_percentage self <=? 10000)
  && bool_decide (cp_hash self =
       count_decision_policy_hash (cp_source self) (cp_configuration_id self)
         (cp_configuration_revision self) (cp_configuration_scope self) (cp_absolute self)
         (cp_percentage self) (cp_threshold self)).

(** ** The repository *)

Definition configured_policy (configuration_id configuration_revision : Z)
    (scope : ConfigurationScope) (definition : DecisionRuleDefinition) :
    result CountDecisionPolicyReadModel ApplicationError :=
  let? id := positive_new (fun _ => Internal "configuration version ID must be positive")
               configuration_id in
  internal_error (count_from_configuration id configuration_revision scope definition)
    "resolved Count configuration".

(** The rows are those of [configuration_versions] of kind ['count']. *)
Definition resolve_count_decision_policy_tx (rules : gmap Z ConfigurationRow) (owner facility : Z)
    (effective_at : Z) (operational : CycleCountTolerancePolicy) :
    result CountDecisionPolicyReadModel ApplicationError :=
  match resolved_configuration rules owner facility effective_at with
  | None => Ok (count_product_default operational)
  | Some (id, row) => configured_policy id (cfg_revision row) (cfg_scope row) (cfg_definition row)
  end.

(** The policy that the [count_] columns of a row stand for. *)
Definition count_decision_policy_from_row (row : CountDecisionPolicyReadModel) :
    result CountDecisionPolicyReadModel ApplicationError :=
  let? policy :=
    match cp_source row with
    | CountProductDefault =>
        let? tolerance := internal_error
          (CycleCountTolerancePolicy_new (cp_absolute row) (cp_percentage row) 0)
          "stored Count tolerance" in
        Ok (count_product_default tolerance)
    | CountConfiguration =>
        let? id := ok_or (cp_configuration_id row) (Internal "Count policy id is missing") in
        let? revision := ok_or (cp_configuration_revision row)
                           (Internal "Count policy revision is missing") in
        let? scope := ok_or (cp_configuration_scope row) (Internal "Count policy scope is missing") in
        let? threshold := ok_or (cp_threshold row) (Internal "Count policy threshold is missing") in
        configured_policy id revision scope
          (CountRule (cp_absolute row) (cp_percentage row) threshold)
    end in
  check bool_decide (cp_hash row = cp_hash policy)
    else Internal "Count decision policy evidence is inconsistent" in
  Ok policy.

(** [validate_count_decision_snapshot], the trigger on results and cases: does the evidence
    name the rule in force at [effective_at]? *)
Definition validate_count_decision_snapshot (rules : gmap Z ConfigurationRow) (owner facility : Z)
    (effective_at : Z) (policy : option Z) (evidence : option CountDecisionPolicyReadModel) : bool :=
  match policy, evidence with
  | None, None => true
  | None, Some _ | Some _, None => false
  | Some _, Some e =>
      match cp_source e, resolved_configuration rules owner facility effective_at with
      | CountProductDefault, None =>
          bool_decide (cp_configuration_id e = None)
          && bool_decide (cp_configuration_revision e = None)
          && bool_decide (cp_configuration_scope e = None) && bool_decide (cp_threshold e = None)
      | CountConfiguration, Some (id, row) =>
          bool_decide (cp_configuration_id e = Some id)
          && bool_decide (cp_configuration_revision e = Some (cfg_revision row))
          && bool_decide (cp_configuration_scope e = Some (cfg_scope row))
          && match cfg_definition row with
             | CountRule absolute percentage threshold =>
                 (cp_absolute e =? absolute) && (cp_percentage e =? percentage)
                 && bool_decide (cp_threshold e = Some threshold)
             | _ => false
             end
      | _, _ => false
      end
      && bool_decide (cp_hash e =
           count_decision_policy_hash (cp_source e) (cp_configuration_id e)
             (cp_configuration_revision e) (cp_configuration_scope e) (cp_absolute e)
             (cp_percentage e) (cp_threshold e))
  end.
End evidence.

(** ** Facts *)

Definition count_rule_ok (row : ConfigurationRow) : Prop :=
  0 < cfg_revision row ∧
  match cfg_definition row with
  | CountRule absolute percentage threshold =>
      0 ≤ absolute ≤ i64_max ∧ 0 ≤ percentage ≤ 10000 ∧ absolute ≤ threshold
  | _ => False
  end.

Definition count_rules_ok (rules : gmap Z ConfigurationRow) : Prop :=
  ∀ id row, rules !! id = Some row → 0 < id ∧ count_rule_ok row.

(** What the rest of a confirmation relies on. *)
Definition count_policy_sound (digest : list Z → rstr) (p : CountDecisionPolicyReadModel) : Prop :=
  0 ≤ cp_absolute p ≤ i64_max ∧ 0 ≤ cp_percentage p ≤ 10000 ∧
  (∀ t, cp_threshold p = Some t → cp_absolute p ≤ t) ∧
  count_decision_policy_from_row digest p = Ok p.

Section sound.
Context (digest : list Z → rstr).

Lemma resolved_count_rule rules owner facility at_ id row :
  resolved_configuration rules owner facility at_ = Some (id, row) → rules !! id = Some row.
Proof.
  intros E. pose proof (resolved_is_greatest rules owner facility at_) as Hg. rewrite E in Hg.
  destruct Hg as [Hin _]. by apply elem_of_map_to_list in Hin.
Qed.

(** A valid rule or none at all: a sound policy results, and it is its own evidence. *)
Lemma resolve_count_sound rules owner facility at_ operational policy_id :
  count_rules_ok rules → tolerance_ok operational →
  ∃ p, resolve_count_decision_policy_tx digest rules owner facility at_ operational = Ok p ∧
    count_policy_sound digest p ∧
    validate_count_decision_snapshot digest rules owner facility at_ (Some policy_id) (Some p) = true.
Proof.
  intros Hrules (Ha & Hp & _). unfold resolve_count_decision_policy_tx, validate_count_decision_snapshot.
  destruct (resolved_configuration rules owner facility at_) as [[id row]|] eqn:E.
  - apply resolved_count_rule, Hrules in E as (Hid & Hrev & Hdef).
    destruct (cfg_definition row) as [| | | | | | |a p t| |] eqn:Ed; try done.
    destruct Hdef as (Hap & Hpp & Htp).
    assert (Hconf : configured_policy digest id (cfg_revision row) (cfg_scope row) (CountRule a p t) =
      Ok (CountDecisionPolicyReadModel_new digest CountConfiguration (Some id)
            (Some (cfg_revision row)) (Some (cfg_scope row)) a p (Some t))).
    { unfold configured_policy, count_from_configuration, positive_new, internal_error.
      rewrite (proj2 (Z.ltb_lt 0 id)), (proj2 (Z.leb_gt _ _)) by lia. cbn [rbind].
      cbn [DecisionRuleDefinition_validate]. unfold MAX_PERCENTAGE_BASIS_POINTS.
      rewrite !(proj2 (Z.ltb_ge _ _)) by lia. done. }
    rewrite Hconf. eexists. split; [done|]. split.
    + unfold count_policy_sound. cbn [cp_absolute cp_percentage cp_threshold CountDecisionPolicyReadModel_new].
      split_and!; try lia. { by intros ? [= <-]. }
      unfold count_decision_policy_from_row. cbn [cp_source CountDecisionPolicyReadModel_new
        cp_configuration_id cp_configuration_revision cp_configuration_scope cp_threshold cp_absolute
        cp_percentage ok_or rbind].
      rewrite Hconf. cbn [rbind]. by rewrite bool_decide_eq_true_2.
    + cbn [cp_source CountDecisionPolicyReadModel_new cp_configuration_id cp_configuration_revision
        cp_configuration_scope cp_threshold cp_absolute cp_percentage cp_hash].
      rewrite !bool_decide_eq_true_2, !Z.eqb_refl by done. done.
  - eexists. split; [done|]. split.
    + unfold count_policy_sound, count_product_default.
      cbn [cp_absolute cp_percentage cp_threshold CountDecisionPolicyReadModel_new].
      split_and!; try (unfold MAX_CYCLE_COUNT_PERCENTAGE_BASIS_POINTS in *; lia); [done|].
      unfold count_decision_policy_from_row. cbn [cp_source CountDecisionPolicyReadModel_new
        cp_absolute cp_percentage].
      rewrite (proj2 (tolerance_new_ok _ _ 0 (MkTolerance (absolute_tolerance_quantity operational)
        (percentage_tolerance_basis_points operational) 0))); [|split_and!; done || lia].
      cbn [internal_error map_err rbind]. by rewrite bool_decide_eq_true_2.
    + cbn. by rewrite !bool_decide_eq_true_2.
Qed.

Lemma tolerance_policy_ok p limit :
  count_policy_sound digest p → 0 ≤ limit ≤ MAX_CYCLE_COUNT_RECOUNTS →
  tolerance_policy p limit = Ok (MkTolerance (cp_absolute p) (cp_percentage p) limit) ∧
  tolerance_ok (MkTolerance (cp_absolute p) (cp_percentage p) limit).
Proof.
  intros (Ha & Hp & _) Hl. split.
  - unfold tolerance_policy. rewrite (proj2 (tolerance_new_ok _ _ limit
      (MkTolerance (cp_absolute p) (cp_percentage p) limit))); [done|].
    unfold MAX_CYCLE_COUNT_PERCENTAGE_BASIS_POINTS. split_and!; done || lia.
  - unfold tolerance_ok, MAX_CYCLE_COUNT_PERCENTAGE_BASIS_POINTS. cbn. lia.
Qed.
End sound.
