(* ===== verification/CycleCountDb.v ===== *)
(** * Cycle counts: rows and statements ([crates/api/src/repo/tasks])

    The tables of count tasks, count policies, results, variance cases and decisions of one
    tenant beside those of [StockTypes] and [WorkTasks], the statements the handlers run on
    them, and the triggers and constraints of [migrations/postgres/0001_baseline.sql] on what
    they write. [guards] is that of [StockJournal]; the triggers of the count tables are
    always run. Columns that are only written, such as notes and sources, are left out. *)

From stdpp Require Import pretty.
From S2P Require Import Prelude.
From S2P Require Import RustStr.
From S2P Require Import Idempotency.
From S2P Require Import Outbox.
From S2P Require Import StockTypes.
From S2P Require Import StockDb.
From S2P Require Import StockJournal.
From S2P Require Import StockHandlers.
From S2P Require Import WorkTasks.
From S2P Require Import Configuration.
From S2P Require Import ReplenishmentPolicy.
From S2P Require Import CycleCount.
From S2P Require Import CountPolicy.

Definition i16_max : Z := 32767.
Definition u16_max : Z := 65535.

(** [i16::try_from] of an unsigned value. *)
Definition to_i16 (value : Z) (why : string) : result Z ApplicationError :=
  check value <=? i16_max else Internal why in Ok value.

(** ** Rows *)

(** [cycle_count_item_location_tasks] *)
Record DetailRow := MkDetail {
  det_owner : Z;
  det_facility : Z;
  det_location : Z;
  det_item : Z;
  det_balance : Z;
  det_case : option Z;
  det_attempt : Z;
}.

(** [cycle_count_policies] *)
Record CountPolicyRow := MkCountPolicyRow {
  cpol_owner : Z;
  cpol_facility : Z;
  cpol_tolerance : CycleCountTolerancePolicy;
  cpol_revision : Z;
  cpol_supersedes : option Z;
  cpol_effective_from : Z;
  cpol_effective_to : option Z;
  cpol_configured_by : Z;
}.

(** What a count found: the quantities on the books, the count and its variance. *)
Record CountFacts := MkFacts {
  cf_on_hand : Z;
  cf_reserved : Z;
  cf_held : Z;
  cf_counted : Z;
  cf_variance : Z;
}.

(** The stock that was counted. *)
Record CountedStock := MkCounted {
  ct_balance : Z;
  ct_position : Position;
  ct_trace : Trace;
}.

Record CountPolicySnapshot := MkSnapshot {
  snap_id : Z;
  snap_revision : Z;
  snap_policy : CycleCountTolerancePolicy;
}.

(** [cycle_count_variance_cases] *)
Record CaseRow := MkCase {
  case_stock : CountedStock;
  case_policy : CountPolicySnapshot;
  case_evidence : CountDecisionPolicyReadModel;
  case_task : Z;
  case_attempt : Z;
  case_used : Z;
  case_facts : CountFacts;
  case_allowed : Z;
  case_state : CycleCountVarianceStatus;
  case_revision : Z;
  case_transaction : option Z;
  case_created : Z;
  case_modified : Z;
  case_resolved : option (Z * Z);
}.

(** [cycle_count_item_location_results] *)
Record ResultRow := MkResult {
  res_stock : CountedStock;
  res_facts : CountFacts;
  res_transaction : option Z;
  res_confirmed_by : Z;
  res_confirmed_at : Z;
  res_disposition : CycleCountDisposition;
  res_case : option Z;
  res_attempt : Z;
  res_policy : option CountPolicySnapshot;
  res_allowed : option Z;
  res_evidence : option CountDecisionPolicyReadModel;
}.

(** [cycle_count_variance_decisions] *)
Record DecisionRow := MkDecision {
  dec_case : Z;
  dec_expected : Z;
  dec_resulting : Z;
  dec_details : CycleCountVarianceDecisionDetails;
  dec_next_task : option Z;
  dec_transaction : option Z;
  dec_by : Z;
  dec_at : Z;
}.

(** Columns of [license_plates] that a scan reads. *)
Record PlateRow := MkPlate {
  plate_owner : Z;
  plate_facility : Z;
  plate_location : option Z;
  plate_barcode : option rstr;
  plate_deleted : bool;
}.

Inductive CountEvent :=
| CountConfirmed (task : Z) (row : ResultRow) (next_task : option Z)
| VarianceAdvanced (case : Z) (row : ResultRow) (revision : Z)
| VarianceDecided (decision : Z) (row : DecisionRow)
| CountPolicyConfigured (id : Z) (row : CountPolicyRow).

(** The tables. Of [configuration_versions] they keep the rows of kind ['count']. *)
Record Counts := MkCounts {
  stock : Stock;
  tasks : TaskTables;
  details : gmap Z DetailRow;
  count_policies : Table CountPolicyRow;
  cases : Table CaseRow;
  results : gmap Z ResultRow;
  decisions : Table DecisionRow;
  count_rules : gmap Z ConfigurationRow;
  location_barcodes : gmap Z rstr;
  barcodes : list (Z * rstr);
  plates : gmap Z PlateRow;
  count_outbox : OutboxTables CountEvent;
}.

Definition set_stock x s := MkCounts x (tasks s) (details s) (count_policies s) (cases s) (results s)
  (decisions s) (count_rules s) (location_barcodes s) (barcodes s) (plates s) (count_outbox s).
Definition set_tasks x s := MkCounts (stock s) x (details s) (count_policies s) (cases s) (results s)
  (decisions s) (count_rules s) (location_barcodes s) (barcodes s) (plates s) (count_outbox s).
Definition set_details x s := MkCounts (stock s) (tasks s) x (count_policies s) (cases s) (results s)
  (decisions s) (count_rules s) (location_barcodes s) (barcodes s) (plates s) (count_outbox s).
Definition set_count_policies x s := MkCounts (stock s) (tasks s) (details s) x (cases s) (results s)
  (decisions s) (count_rules s) (location_barcodes s) (barcodes s) (plates s) (count_outbox s).
Definition set_cases x s := MkCounts (stock s) (tasks s) (details s) (count_policies s) x (results s)
  (decisions s) (count_rules s) (location_barcodes s) (barcodes s) (plates s) (count_outbox s).
Definition set_results x s := MkCounts (stock s) (tasks s) (details s) (count_policies s) (cases s) x
  (decisions s) (count_rules s) (location_barcodes s) (barcodes s) (plates s) (count_outbox s).
Definition set_decisions x s := MkCounts (stock s) (tasks s) (details s) (count_policies s) (cases s)
  (results s) x (count_rules s) (location_barcodes s) (barcodes s) (plates s) (count_outbox s).
Definition set_count_outbox x s := MkCounts (stock s) (tasks s) (details s) (count_policies s) (cases s)
  (results s) (decisions s) (count_rules s) (location_barcodes s) (barcodes s) (plates s) x.

Definition emit_count (s : Counts) (key aggregate id ordering : rstr) (sequence : Z) (type : rstr)
    (body : CountEvent) : result Counts ApplicationError :=
  let? t := map_err persistence_error
              (enqueue (fun _ => true) (count_outbox s)
                 (MkEvent key aggregate id ordering sequence type 1 body)) in
  Ok (set_count_outbox t s).

(** ** Triggers and constraints *)

Definition open_case (c : CaseRow) : bool := negb (bool_decide (case_state c = VariancePosted)).

(** [cycle_count_variance_cases_active_balance_key] *)
Definition case_key (c : CaseRow) : Z * Z * Z :=
  let p := ct_position (case_stock c) in
  (StockTypes.inventory_owner_id p, StockTypes.facility_id p, ct_balance (case_stock c)).

(** The CHECK constraints of [cycle_count_variance_cases] on quantities and resolution. *)
Definition case_checks (c : CaseRow) : bool :=
  let f := case_facts c in
  (0 <=? cf_on_hand f) && (0 <=? cf_reserved f) && (0 <=? cf_held f) && (0 <=? cf_counted f)
  && (cf_variance f =? cf_counted f - cf_on_hand f) && (cf_reserved f + cf_held f <=? cf_counted f)
  && (0 <=? case_allowed c) && (0 <? case_attempt c) && (0 <? case_revision c)
  && (0 <=? case_used c) && (case_used c <=? 10)
  && if open_case c
     then bool_decide (case_transaction c = None) && bool_decide (case_resolved c = None)
     else eqb (cf_variance f =? 0) (bool_decide (case_transaction c = None))
          && bool_decide (is_Some (case_resolved c)).

(** The CHECK constraints of [cycle_count_item_location_results] on posting, policy and case. *)
Definition result_checks (r : ResultRow) : bool :=
  let f := res_facts r in
  (0 <=? cf_on_hand f) && (0 <=? cf_reserved f) && (0 <=? cf_held f)
  && (cf_variance f =? cf_counted f - cf_on_hand f)
  && (cf_reserved f + cf_held f <=? cf_on_hand f) && (cf_reserved f + cf_held f <=? cf_counted f)
  && (0 <? res_attempt r)
  && (if bool_decide (res_disposition r = Posted)
      then eqb (cf_variance f =? 0) (bool_decide (res_transaction r = None))
      else bool_decide (res_transaction r = None) && bool_decide (is_Some (res_case r)))
  && eqb (bool_decide (res_policy r = None)) (bool_decide (res_allowed r = None))
  && match res_allowed r with Some a => 0 <=? a | None => true end.

Definition decision_checks (d : DecisionRow) : bool :=
  (dec_resulting d =? dec_expected d + 1) && (0 <? dec_expected d)
  && negb (bool_decide (cd_reason (dec_details d) = VarianceOther)
           && bool_decide (cd_note (dec_details d) = None))
  && match cd_decision (dec_details d) with
     | ApproveAdjustment => bool_decide (is_Some (dec_transaction d)) && bool_decide (dec_next_task d = None)
     | RequestRecount => bool_decide (dec_transaction d = None) && bool_decide (is_Some (dec_next_task d))
     end.

(** What the trigger compares of a balance and its batch. *)
Definition counted_now (s : Stock) (c : CountedStock) (f : CountFacts) (on_hand : Z) : bool :=
  match rows (balances s) !! ct_balance c with
  | Some b =>
      negb (balance_deleted b) && bool_decide (position b = ct_position c)
      && (qty_on_hand b =? on_hand) && (qty_reserved b =? cf_reserved f) && (qty_held b =? cf_held f)
      && match batch_in_scope s (StockTypes.inventory_owner_id (position b))
               (StockTypes.item_batch_id (position b)) with
         | Some batch => bool_decide (batch_trace batch = ct_trace c)
         | None => false
         end
  | None => false
  end.

Definition OPERATION : rstr := lit "task.confirm_item_location_cycle_count.v1".

(** The adjustment of a posted result: one journal transaction with one entry. *)
Definition adjustment_matches (s : Stock) (task : Z) (r : ResultRow) : bool :=
  match res_transaction r with
  | None => false
  | Some txn =>
      let p := ct_position (res_stock r) in
      match rows (transactions s) !! txn with
      | Some t =>
          (txn_owner t =? StockTypes.inventory_owner_id p) && bool_decide (txn_type t = Adjust)
          && (txn_actor t =? res_confirmed_by r)
          && bool_decide (txn_reference_type t = Some (lit "cycle_count_item_location_task"))
          && bool_decide (txn_reference_id t = Some task) && bool_decide (txn_operation t = OPERATION)
      | None => false
      end
      && match entries_of s txn (StockTypes.inventory_owner_id p) with
         | [e] => bool_decide (entry_position e = p)
                  && (quantity_delta e =? cf_variance (res_facts r))
         | _ => false
         end
  end.

(** [validate_item_location_cycle_count_result], at the instant of the statement. *)
Definition validate_item_location_cycle_count_result (s : Counts) (task : Z) (r : ResultRow)
    (statement_at : Z) : bool :=
  match lookup_task (tasks s) task, details s !! task with
  | Some t, Some d =>
      let c := res_stock r in
      bool_decide (wt_type t = CycleCountItemLocation) && negb (wt_deleted t)
      && bool_decide (wt_status t = TaskInProgress)
      && bool_decide (wt_assigned t = Some (res_confirmed_by r))
      && match wt_lease t with Some lease => statement_at <? lease | None => false end
      && (det_owner d =? StockTypes.inventory_owner_id (ct_position c))
      && (det_facility d =? StockTypes.facility_id (ct_position c))
      && (det_location d =? StockTypes.location_id (ct_position c))
      && (det_item d =? StockTypes.item_id (ct_position c)) && (det_balance d =? ct_balance c)
      && bool_decide (det_case d = res_case r) && (det_attempt d =? res_attempt r)
      && counted_now (stock s) c (res_facts r)
           (if bool_decide (res_disposition r = Posted)
            then cf_counted (res_facts r) else cf_on_hand (res_facts r))
      && (negb (bool_decide (res_disposition r = Posted)) || (cf_variance (res_facts r) =? 0)
          || adjustment_matches (stock s) task r)
  | _, _ => false
  end.

Section statements.
Context (guards : bool) (digest : list Z → rstr).

(** ** Statements *)

(** [UPDATE inventory_balances SET qty_on_hand = .. WHERE id = .. AND ..] *)
Definition set_on_hand_where (s : Stock) (id : Z) (where_ : BalanceRow → bool) (qty : Z) :
    result (Stock * nat) ApplicationError :=
  match rows (balances s) !! id with
  | Some b =>
      if where_ b
      then let new := with_on_hand qty b in
           let? s := write_balance guards s id (Some b) new (update_row (balances s) id new) in
           Ok (s, 1%nat)
      else Ok (s, 0%nat)
  | None => Ok (s, 0%nat)
  end.

(** [INSERT INTO cycle_count_variance_cases ..] *)
Definition insert_case (s : Counts) (c : CaseRow) : result (Counts * Z) ApplicationError :=
  let p := ct_position (case_stock c) in
  check validate_count_decision_snapshot digest (count_rules s) (StockTypes.inventory_owner_id p)
          (StockTypes.facility_id p) (case_created c) (Some (snap_id (case_policy c)))
          (Some (case_evidence c))
    else db_error (Sqlstate "23514") in
  check case_checks c else db_error (Sqlstate "23514") in
  if existsb (fun '(_, o) => open_case o && bool_decide (case_key o = case_key c))
       (map_to_list (rows (cases s)))
  then raise "23505"
  else Ok (set_cases (insert_row (cases s) c) s, next_id (cases s)).

(** [UPDATE cycle_count_variance_cases SET .. WHERE id = .. AND revision = .. AND ..], with
    [guard_cycle_count_variance_case_mutation]. The columns that must not change are those
    that [new] takes from the row. *)
Definition update_case (s : Counts) (id revision : Z) (where_ : CaseRow → bool)
    (new : CaseRow → CaseRow) (why : string) : result Counts ApplicationError :=
  match rows (cases s) !! id with
  | Some c =>
      if (case_revision c =? revision) && where_ c then
        check (case_revision (new c) =? case_revision c + 1)
              && (case_modified c <=? case_modified (new c)) && open_case c
          else db_error (Sqlstate "55000") in
        check case_checks (new c) else db_error (Sqlstate "23514") in
        Ok (set_cases (update_row (cases s) id (new c)) s)
      else Err (Conflict why)
  | None => Err (Conflict why)
  end.

Definition with_case (case : Z) (attempt : Z) (d : DetailRow) : DetailRow :=
  MkDetail (det_owner d) (det_facility d) (det_location d) (det_item d) (det_balance d) (Some case)
    attempt.

(** [UPDATE cycle_count_item_location_tasks SET variance_case_id = ..
    WHERE task_id = .. AND variance_case_id IS NULL] *)
Definition link_detail (s : Counts) (task case : Z) (attempt : DetailRow → Z) (why : string) :
    result Counts ApplicationError :=
  match details s !! task with
  | Some d =>
      check bool_decide (det_case d = None) else Conflict why in
      Ok (set_details (<[task := with_case case (attempt d) d]> (details s)) s)
  | None => Err (Conflict why)
  end.

Definition attach_recount_task_tx (s : Counts) (task case attempt : Z) :
    result Counts ApplicationError :=
  let? attempt := to_i16 attempt "cycle count attempt is out of database range" in
  link_detail s task case (fun _ => attempt)
    "cycle count recount task could not be linked to its variance".

(** [INSERT INTO cycle_count_item_location_results ..] *)
Definition insert_result (s : Counts) (task : Z) (r : ResultRow) (statement_at : Z) :
    result Counts ApplicationError :=
  let p := ct_position (res_stock r) in
  check validate_item_location_cycle_count_result s task r statement_at
    else db_error (Sqlstate "55000") in
  check validate_count_decision_snapshot digest (count_rules s) (StockTypes.inventory_owner_id p)
          (StockTypes.facility_id p) (res_confirmed_at r) (snap_id <$> res_policy r) (res_evidence r)
    else db_error (Sqlstate "23514") in
  check result_checks r else db_error (Sqlstate "23514") in
  check bool_decide (results s !! task = None) else db_error (Sqlstate "23505") in
  Ok (set_results (<[task := r]> (results s)) s).

(** [UPDATE work_tasks SET status = 'completed', .. WHERE ..], with
    [require_item_location_cycle_count_result]. *)
Definition complete_count_task (s : Counts) (task actor confirmed_at statement_at : Z) :
    result Counts ApplicationError :=
  let why := Conflict "cycle count task claim expired during confirmation" in
  match lookup_task (tasks s) task with
  | Some t =>
      if negb (wt_deleted t) && bool_decide (wt_status t = TaskInProgress)
         && bool_decide (wt_assigned t = Some actor)
         && match wt_lease t with Some lease => statement_at <? lease | None => false end
      then
        match results s !! task with
        | Some r =>
            check (actor =? res_confirmed_by r) && (confirmed_at =? res_confirmed_at r)
              else db_error (Sqlstate "55000") in
            Ok (set_tasks (put_task task (closed TaskCompleted actor confirmed_at t) (tasks s)) s)
        | None => raise "55000"
        end
      else Err why
  | None => Err why
  end.

(** ** Count tasks *)

(** An open count task of the balance. *)
Definition counts_balance (s : Counts) (owner facility location item balance : Z)
    (r : Z * WorkTask) : bool :=
  let '(id, t) := r in
  negb (wt_deleted t) && bool_decide (wt_type t = CycleCountItemLocation) && live (wt_status t)
  && bool_decide (wt_facility t = Some facility) && bool_decide (wt_owner t = Some owner)
  && match details s !! id with
     | Some d => (det_location d =? location) && (det_item d =? item) && (det_balance d =? balance)
     | None => false
     end.

(** The foreign key of a detail to the exact balance. *)
Definition detail_refers (s : Stock) (d : DetailRow) : bool :=
  match rows (balances s) !! det_balance d with
  | Some b =>
      let p := position b in
      (StockTypes.inventory_owner_id p =? det_owner d) && (StockTypes.facility_id p =? det_facility d)
      && (StockTypes.location_id p =? det_location d) && (StockTypes.item_id p =? det_item d)
  | None => false
  end.

Definition create_item_location_cycle_count_task_tx (s : Counts) (user location item balance : Z)
    (facility owner now : Z) : result (Counts * Z) ApplicationError :=
  check bool_decide (is_Some (items (directory (stock s)) !! item))
    else InvalidRequest "item not found" in
  match head (List.filter (counts_balance s owner facility location item balance)
                (map_to_list (rows (work_tasks (tasks s))))) with
  | Some (existing, _) => Ok (s, existing)
  | None =>
      let '(t, id) := insert_task_tx (tasks s) CycleCountItemLocation (Some facility) (Some owner)
        (task_permission CycleCountItemLocation) 90 (task_timeout_seconds CycleCountItemLocation)
        None (Some user) None None now in
      let d := MkDetail owner facility location item balance None 1 in
      check detail_refers (stock s) d else db_error (Sqlstate "23503") in
      Ok (set_details (<[id := d]> (details s)) (set_tasks t s), id)
  end.
End statements.
