(* ===== verification/CycleCountWork.v ===== *)
(** * Cycle counts: confirmation and control
      ([tasks/cycle_count.rs], [tasks/cycle_count_control.rs] and its submodules)

    The handlers that confirm a count, decide a variance and configure a policy, from the
    point after the replay check; every error leaves the tables as they were. The clock
    readings of a handler are arguments: [now_iso] of the application and
    [statement_timestamp] of the database at the statements that ask for it. *)

From stdpp Require Import pretty.
From S2P Require Import Prelude.
From S2P Require Import RustStr.
From S2P Require Import Idempotency.
From S2P Require Import Outbox.
From S2P Require Import StockTypes.
From S2P Require Import StockDb.
From S2P Require Import StockJournal.
From S2P Require Import StockHandlers.
From S2P Require Import WorkTasks.
From S2P Require Import Configuration.
From S2P Require Import ReplenishmentPolicy.
From S2P Require Import CycleCount.
From S2P Require Import CountPolicy.
From S2P Require Import CycleCountDb.

Record Clock := MkClock {
  now_iso : Z;
  locked_at : Z;
  inserted_at : Z;
  completed_at : Z;
}.

(** The caller's identity and the command's key. *)
Record Caller := MkCaller {
  actor : Z;
  caller_scope : ScopeBindings;
  request_id : rstr;
  command_key : rstr;
  command_hash : rstr;
}.

Record CountScans := MkScans {
  scan_location : rstr;
  scan_item : rstr;
  scan_plate : option rstr;
}.

Record CountTarget := MkTarget {
  tgt_owner : Z;
  tgt_facility : Z;
  tgt_location : Z;
  tgt_item : Z;
  tgt_balance : Z;
  tgt_case : option Z;
  tgt_attempt : Z;
}.

Record PreparedCountControl := MkPrepared {
  pc_disposition : CycleCountDisposition;
  pc_policy : option CountPolicySnapshot;
  pc_case : option Z;
  pc_revision : option Z;
  pc_attempt : Z;
  pc_used : Z;
  pc_allowed : option Z;
  pc_evidence : option CountDecisionPolicyReadModel;
}.

(** [ItemLocationCycleCountConfirmation]: the result row with what the control added. *)
Record Confirmation := MkConfirmation {
  cn_task : Z;
  cn_row : ResultRow;
  cn_revision : option Z;
  cn_next_task : option Z;
}.

Definition validated_note (note : option rstr) : result (option rstr) ApplicationError :=
  match note with
  | None => Ok None
  | Some n =>
      if negb (bool_decide (trim n = n)) || bool_decide (n = [])
      then Err (InvalidRequest "cycle count note must be trimmed and nonempty")
      else if 1000 <? chars_count n
      then Err (InvalidRequest "cycle count note cannot exceed 1000 characters")
      else Ok (Some n)
  end.

Definition lock_task_target (s : Counts) (task : Z) (caller : Caller) (statement_at : Z) :
    result CountTarget ApplicationError :=
  match lookup_task (tasks s) task, details s !! task with
  | Some t, Some d =>
      check negb (wt_deleted t) && bool_decide (wt_type t = CycleCountItemLocation)
        else NotFound "cycle count task" in
      check is_allowed_by (Some (det_facility d)) (Some (det_owner d)) (caller_scope caller)
        else NotFound "cycle count task" in
      check bool_decide (wt_status t = TaskInProgress)
            && bool_decide (wt_assigned t = Some (actor caller))
            && match wt_lease t with Some lease => statement_at <? lease | None => false end
        else Conflict "cycle count task does not have an active claim for this operator" in
      Ok (MkTarget (det_owner d) (det_facility d) (det_location d) (det_item d) (det_balance d)
            (det_case d) (det_attempt d))
  | _, _ => Err (NotFound "cycle count task")
  end.

Definition balance_license_plate_hint (s : Stock) (balance : Z) :
    result (option Z) ApplicationError :=
  let? b := ok_or (rows (balances s) !! balance) (NotFound "inventory balance") in
  Ok (license_plate_id (position b)).

(** The locked balance, with the trace of its batch. *)
Definition lock_count_balance (s : Stock) (target : CountTarget) :
    result (BalanceRow * Trace) ApplicationError :=
  let gone := Conflict "cycle count inventory balance is no longer active" in
  let? b := ok_or (rows (balances s) !! tgt_balance target) gone in
  let p := position b in
  check negb (balance_deleted b) else gone in
  let? batch := ok_or (batch_in_scope s (StockTypes.inventory_owner_id p) (StockTypes.item_batch_id p))
                  gone in
  check negb (batch_deleted batch) else gone in
  check (StockTypes.inventory_owner_id p =? tgt_owner target)
        && (StockTypes.facility_id p =? tgt_facility target)
        && (StockTypes.location_id p =? tgt_location target)
        && (StockTypes.item_id p =? tgt_item target)
    else Conflict "cycle count inventory balance no longer matches the task target" in
  Ok (b, batch_trace batch).

Definition validate_scans_tx (s : Counts) (target : CountTarget) (b : BalanceRow)
    (scans : CountScans) : result unit ApplicationError :=
  check match locations (directory (stock s)) !! tgt_location target with
        | Some l => negb (location_deleted l) && location_active l
                    && bool_decide (location_barcodes s !! tgt_location target = Some (scan_location scans))
        | None => false
        end
    else Conflict "scanned location does not match the cycle count task" in
  check existsb (fun r => (r.1 =? tgt_item target) && bool_decide (r.2 = scan_item scans)) (barcodes s)
    else Conflict "scanned item does not match the cycle count task" in
  match license_plate_id (position b), scan_plate scans with
  | None, None => Ok tt
  | None, Some _ => Err (Conflict "cycle count stock is not on a license plate")
  | Some _, None => Err (Conflict "license plate scan is required for this cycle count")
  | Some plate, Some scanned =>
      check match plates s !! plate with
            | Some p => (plate_owner p =? tgt_owner target) && negb (plate_deleted p)
                        && bool_decide (plate_barcode p = Some scanned)
            | None => false
            end
        else Conflict "scanned license plate does not match the cycle count task" in
      Ok tt
  end.

Section handlers.
Context (guards : bool) (digest : list Z → rstr).

(** ** [cycle_count_control.rs] *)

Definition active_policy_tx (s : Counts) (owner facility : Z) :
    result (option CountPolicySnapshot) ApplicationError :=
  match head (List.filter (fun '(_, p) => (cpol_owner p =? owner) && (cpol_facility p =? facility)
                             && bool_decide (cpol_effective_to p = None))
                (map_to_list (rows (count_policies s)))) with
  | None => Ok None
  | Some (id, p) =>
      let? revision := internal_error (CycleCountPolicyRevision_new (cpol_revision p)) "policy revision" in
      let? policy := internal_error
        (CycleCountTolerancePolicy_new (absolute_tolerance_quantity (cpol_tolerance p))
           (percentage_tolerance_basis_points (cpol_tolerance p))
           (automatic_recount_limit (cpol_tolerance p))) "stored cycle count policy" in
      Ok (Some (MkSnapshot id revision policy))
  end.

Definition facts_of (b : BalanceRow) (counted variance : Z) : CountFacts :=
  MkFacts (qty_on_hand b) (qty_reserved b) (qty_held b) counted variance.

Definition prepare_existing_case_tx (s : Counts) (task : Z) (target : CountTarget)
    (b : BalanceRow) (trace : Trace) (variance case : Z) :
    result PreparedCountControl ApplicationError :=
  let? c := ok_or (rows (cases s) !! case) (NotFound "cycle count variance") in
  let p := ct_position (case_stock c) in
  check (StockTypes.inventory_owner_id p =? tgt_owner target)
        && (StockTypes.facility_id p =? tgt_facility target)
    else NotFound "cycle count variance" in
  let? attempt := to_i16 (tgt_attempt target) "cycle count attempt is out of range" in
  check bool_decide (case_state c = AwaitingRecount) && (case_task c =? task)
        && (case_attempt c =? attempt) && (ct_balance (case_stock c) =? tgt_balance target)
        && (StockTypes.location_id p =? tgt_location target) && (StockTypes.item_id p =? tgt_item target)
        && (StockTypes.item_batch_id p =? StockTypes.item_batch_id (position b))
        && bool_decide (license_plate_id p = license_plate_id (position b))
        && bool_decide (StockTypes.uom p = StockTypes.uom (position b))
        && bool_decide (ct_trace (case_stock c) = trace)
        && bool_decide (status p = status (position b))
    else Conflict "cycle count recount no longer matches its variance case" in
  let? evidence := count_decision_policy_from_row digest (case_evidence c) in
  let? policy := internal_error
    (CycleCountTolerancePolicy_new (cp_absolute evidence) (cp_percentage evidence)
       (automatic_recount_limit (snap_policy (case_policy c)))) "stored cycle count policy" in
  let? allowed := internal_error (allowed_variance_quantity policy (qty_on_hand b)) "tolerance" in
  let? disposition := internal_error
    (decide_cycle_count_disposition_with_approval_threshold policy (qty_on_hand b) variance
       (case_used c) (cp_threshold evidence)) "cycle count disposition" in
  let? revision := internal_error (CycleCountVarianceRevision_new (case_revision c)) "variance revision" in
  Ok (MkPrepared disposition
        (Some (MkSnapshot (snap_id (case_policy c)) (snap_revision (case_policy c)) policy))
        (Some case) (Some revision) (tgt_attempt target) (case_used c) (Some allowed) (Some evidence)).

Definition prepare_count_control_tx (s : Counts) (task : Z) (target : CountTarget) (b : BalanceRow)
    (trace : Trace) (counted variance occurred_at : Z) :
    result (Counts * PreparedCountControl) ApplicationError :=
  match tgt_case target with
  | Some case =>
      let? control := prepare_existing_case_tx s task target b trace variance case in
      Ok (s, control)
  | None =>
      let? active := active_policy_tx s (tgt_owner target) (tgt_facility target) in
      match active with
      | None => Ok (s, MkPrepared Posted None None None (tgt_attempt target) 0 None None)
      | Some policy =>
          let? owner := positive_new (fun _ => Internal "inventory owner ID") (tgt_owner target) in
          let? facility := positive_new (fun _ => Internal "facility ID") (tgt_facility target) in
          let? evidence := resolve_count_decision_policy_tx digest (count_rules s) owner facility
                             occurred_at (snap_policy policy) in
          let? effective := internal_error
            (tolerance_policy evidence (automatic_recount_limit (snap_policy policy)))
            "effective Count tolerance" in
          let? allowed := internal_error (allowed_variance_quantity effective (qty_on_hand b))
                            "tolerance" in
          let? disposition := internal_error
            (decide_cycle_count_disposition_with_approval_threshold effective (qty_on_hand b)
               variance 0 (cp_threshold evidence)) "cycle count disposition" in
          let prepared := fun case revision =>
            MkPrepared disposition (Some policy) case revision (tgt_attempt target) 0 (Some allowed)
              (Some evidence) in
          let new_case := fun state => MkCase
            (MkCounted (tgt_balance target) (position b) trace)
            (MkSnapshot (snap_id policy) (snap_revision policy)
               (MkTolerance (cp_absolute evidence) (cp_percentage evidence)
                  (automatic_recount_limit (snap_policy policy))))
            evidence task (tgt_attempt target) 0 (facts_of b counted variance) allowed state 1 None
            occurred_at occurred_at None in
          let open_new := fun state =>
            let? _ := to_i16 (tgt_attempt target)
                        "cycle count attempt sequence is out of database range" in
            let? (s, case) := insert_case digest s (new_case state) in
            let? s := link_detail s task case det_attempt
                        "cycle count task variance case changed during confirmation" in
            Ok (s, prepared (Some case) (Some 1)) in
          match disposition with
          | Posted => Ok (s, prepared None None)
          | RecountRequired => open_new AwaitingRecount
          | ApprovalRequired => open_new AwaitingApproval
          end
      end
  end.

(** The case after a confirmation. *)
Definition advanced (task attempt used : Z) (facts : CountFacts) (allowed : Z)
    (state : CycleCountVarianceStatus) (revision : Z) (transaction : option Z) (at_ : Z)
    (resolved : option (Z * Z)) (c : CaseRow) : CaseRow :=
  MkCase (case_stock c) (case_policy c) (case_evidence c) task attempt used facts allowed state
    revision transaction (case_created c) at_ resolved.

Definition advance_count_control_after_confirmation_tx (s : Counts) (user task : Z)
    (target : CountTarget) (b : BalanceRow) (counted variance : Z) (transaction : option Z)
    (control : PreparedCountControl) (occurred_at : Z) :
    result (Counts * option Z * option Z) ApplicationError :=
  match pc_case control with
  | None => Ok (s, None, None)
  | Some case =>
      let? current := ok_or (pc_revision control)
                        (Internal "cycle count variance revision is missing") in
      let? next_revision := ok_or (revision_checked_next current)
                              (Internal "cycle count variance revision overflow") in
      let? next_attempt := ok_or (checked 0 u16_max (pc_attempt control + 1))
                             (Internal "cycle count attempt sequence overflow") in
      let? (s, state, next_task, used, resolved) :=
        match pc_disposition control with
        | Posted => Ok (s, VariancePosted, None, pc_used control, Some (user, occurred_at))
        | ApprovalRequired => Ok (s, AwaitingApproval, None, pc_used control, None)
        | RecountRequired =>
            let? (s, next) := create_item_location_cycle_count_task_tx s user (tgt_location target)
              (tgt_item target) (tgt_balance target) (tgt_facility target) (tgt_owner target)
              occurred_at in
            let? s := attach_recount_task_tx s next case next_attempt in
            let? used := ok_or (checked 0 u16_max (pc_used control + 1))
                           (Internal "automatic recount usage overflow") in
            Ok (s, AwaitingRecount, Some next, used, None)
        end in
      let latest_task := default task next_task in
      let latest_attempt := if next_task is Some _ then next_attempt else pc_attempt control in
      let? latest_attempt := to_i16 latest_attempt
                               "cycle count attempt sequence is out of database range" in
      let? used := to_i16 used "automatic recount usage is out of database range" in
      let? allowed := ok_or (pc_allowed control)
                        (Internal "controlled cycle count is missing allowed variance") in
      let? s := update_case s case current
        (fun c => (StockTypes.inventory_owner_id (ct_position (case_stock c)) =? tgt_owner target)
                  && (StockTypes.facility_id (ct_position (case_stock c)) =? tgt_facility target)
                  && open_case c)
        (advanced latest_task latest_attempt used (facts_of b counted variance) allowed state
           next_revision transaction occurred_at resolved)
        "cycle count variance changed during confirmation" in
      Ok (s, Some next_revision, next_task)
  end.

(** ** [cycle_count.rs] *)

(** The adjustment of the stock that a posted variance makes. *)
Definition post_variance (s : Stock) (caller : Caller) (owner facility : Z) (reason reference : string)
    (reference_id : Z) (operation : rstr) (balance : Z) (p : Position) (variance counted : Z)
    (where_ : BalanceRow → bool) (why : string) : result (Stock * Z) ApplicationError :=
  let? owner_facility := owner_facility_scope owner facility in
  let? (s, txn) := begin_transaction s owner_facility
    (MkTransaction owner (actor caller) Adjust (Some (lit reason)) (Some (lit reference))
       (Some reference_id) (Some (request_id caller)) operation (Some (command_key caller))
       (command_hash caller)) in
  let? s := append_entry guards s owner_facility txn
    (MkJournalEntry (StockTypes.location_id p) (license_plate_id p) (StockTypes.item_batch_id p)
       (status p) variance) in
  let? (s, updated) := set_on_hand_where guards s balance where_ counted in
  check (updated =? 1)%nat else Conflict why in
  Ok (s, txn).

(** The rows that a confirmation reports. *)
Definition enqueue_confirmation (s : Counts) (task : Z) (row : ResultRow) (revision next : option Z) :
    result Counts ApplicationError :=
  let key := lit ("cycle-count-confirmation:" +:+ pretty task) in
  let? s := emit_count s key (lit "cycle_count_confirmation") (lit (pretty task)) key 1
              (lit "inventory.cycle_count.confirmed") (CountConfirmed task row next) in
  match res_case row, revision with
  | Some case, Some revision =>
      let? sequence := ok_or (match i64_checked_sub revision 1 with
                              | Some n => if 0 <? n then Some n else None
                              | None => None
                              end) (Internal "cycle count variance event sequence is invalid") in
      emit_count s (lit ("cycle-count-variance-confirmation:" +:+ pretty task))
        (lit "cycle_count_variance") (lit (pretty case))
        (lit ("cycle-count-variance:" +:+ pretty case)) sequence
        (lit match res_disposition row with
             | Posted => "inventory.cycle_count_variance.posted"
             | RecountRequired => "inventory.cycle_count_variance.recount_required"
             | ApprovalRequired => "inventory.cycle_count_variance.approval_required"
             end) (VarianceAdvanced case row revision)
  | _, _ => Ok s
  end.

(** Everything that precedes the control: the target, the balance and the variance. *)
Definition lock_count (s : Counts) (caller : Caller) (task counted : Z) (scans : option CountScans)
    (clock : Clock) : result (CountTarget * BalanceRow * Trace * Z) ApplicationError :=
  let? target := lock_task_target s task caller (locked_at clock) in
  let? plate := balance_license_plate_hint (stock s) (tgt_balance target) in
  let? _ := lock_license_plate (stock s) plate in
  let? (b, trace) := lock_count_balance (stock s) target in
  let? _ := match scans with Some scans => validate_scans_tx s target b scans | None => Ok tt end in
  let? committed := ok_or (i64_checked_add (qty_reserved b) (qty_held b))
                      (Internal "inventory commitments are out of range") in
  if counted <? committed
  then Err (Conflict "counted quantity cannot be lower than reserved and held quantity")
  else
    let? variance := ok_or (i64_checked_sub counted (qty_on_hand b))
                       (InvalidRequest "cycle count variance is out of range") in
    Ok (target, b, trace, variance).

Definition confirm_work (caller : Caller) (task counted : Z) (note : option rstr)
    (scans : option CountScans) (clock : Clock) (s : Counts) :
    result (Counts * Confirmation) ApplicationError :=
  check 0 <? task else InvalidRequest "task ID must be positive" in
  if counted <? 0 then Err (InvalidRequest "counted quantity cannot be negative")
  else
    let? note := validated_note note in
    let? (target, b, trace, variance) := lock_count s caller task counted scans clock in
    let? (s, control) := prepare_count_control_tx s task target b trace counted variance
                           (now_iso clock) in
    let? (st, transaction) :=
      if (variance =? 0) || negb (bool_decide (pc_disposition control = Posted))
      then Ok (stock s, None)
      else
        let? (st, txn) := post_variance (stock s) caller (tgt_owner target) (tgt_facility target)
          "cycle count confirmation" "cycle_count_item_location_task" task OPERATION
          (tgt_balance target) (position b) variance counted
          (fun r => (StockTypes.inventory_owner_id (position r) =? tgt_owner target)
                    && negb (balance_deleted r) && (qty_on_hand r =? qty_on_hand b)
                    && (qty_reserved r =? qty_reserved b) && (qty_held r =? qty_held b))
          "cycle count inventory balance changed during confirmation" in
        Ok (st, Some txn) in
    let s := set_stock st s in
    let row := MkResult (MkCounted (tgt_balance target) (position b) trace)
                 (facts_of b counted variance) transaction (actor caller) (now_iso clock)
                 (pc_disposition control) (pc_case control) (pc_attempt control) (pc_policy control)
                 (pc_allowed control) (pc_evidence control) in
    let? _ := to_i16 (pc_attempt control) "cycle count attempt is out of database range" in
    let? s := insert_result digest s task row (inserted_at clock) in
    let? s := complete_count_task s task (actor caller) (now_iso clock) (completed_at clock) in
    let? (s, revision, next) := advance_count_control_after_confirmation_tx s (actor caller) task
      target b counted variance transaction control (now_iso clock) in
    let s := set_tasks (record_progress task (Some (actor caller)) "cycle_count_confirmed" (tasks s)) s in
    let? s := enqueue_confirmation s task row revision next in
    let? st := commit_stock guards (stock s) in
    Ok (set_stock st s, MkConfirmation task row revision next).

(** ** [decision.rs] *)

Definition decide_locks (s : Counts) (caller : Caller) (supervisor : bool) (case expected : Z) :
    result (CaseRow * Z) ApplicationError :=
  check supervisor else Forbidden in
  let? c := ok_or (rows (cases s) !! case) (NotFound "cycle count variance") in
  let p := ct_position (case_stock c) in
  check includes_inventory_owner (caller_scope caller) (StockTypes.inventory_owner_id p)
        && includes_facility (caller_scope caller) (StockTypes.facility_id p)
    else NotFound "cycle count variance" in
  check bool_decide (case_state c = AwaitingApproval)
    else Conflict "cycle count variance is not awaiting approval" in
  let? previous := internal_error (CycleCountVarianceRevision_new (case_revision c)) "variance revision" in
  check previous =? expected
    else Conflict "cycle count variance revision does not match expected revision" in
  let? next := ok_or (revision_checked_next previous)
                 (Internal "cycle count variance revision overflow") in
  Ok (c, next).

(** The balance is as it was counted. *)
Definition unchanged_since (c : CaseRow) (b : BalanceRow) : bool :=
  let p := ct_position (case_stock c) in
  let f := case_facts c in
  negb (balance_deleted b) && (StockTypes.item_batch_id (position b) =? StockTypes.item_batch_id p)
  && bool_decide (license_plate_id (position b) = license_plate_id p)
  && bool_decide (status (position b) = status p) && (qty_on_hand b =? cf_on_hand f)
  && (qty_reserved b =? cf_reserved f) && (qty_held b =? cf_held f).

Definition in_case_scope (c : CaseRow) (b : BalanceRow) : bool :=
  let p := ct_position (case_stock c) in
  (StockTypes.inventory_owner_id (position b) =? StockTypes.inventory_owner_id p)
  && (StockTypes.facility_id (position b) =? StockTypes.facility_id p).

Definition DECIDE_OPERATION : rstr := lit "cycle_count.variance.decide.v1".

Definition approve_work (caller : Caller) (case : Z) (c : CaseRow) (next now : Z) (s : Counts) :
    result (Counts * Z) ApplicationError :=
  let p := ct_position (case_stock c) in
  let f := case_facts c in
  let balance := ct_balance (case_stock c) in
  let? _ := lock_license_plate (stock s) (license_plate_id p) in
  let gone := Conflict "cycle count inventory balance is no longer active" in
  let? b := ok_or (rows (balances (stock s)) !! balance) gone in
  check in_case_scope c b else gone in
  check unchanged_since c b else Conflict "cycle count inventory changed; request a new recount" in
  let? (st, txn) := post_variance (stock s) caller (StockTypes.inventory_owner_id p)
    (StockTypes.facility_id p) "approved cycle count variance" "cycle_count_variance_case" case
    DECIDE_OPERATION balance p (cf_variance f) (cf_counted f)
    (fun r => in_case_scope c r && negb (balance_deleted r) && (qty_on_hand r =? cf_on_hand f)
              && (qty_reserved r =? cf_reserved f) && (qty_held r =? cf_held f))
    "cycle count inventory changed during approval" in
  let? s := update_case (set_stock st s) case (case_revision c)
    (fun c => bool_decide (case_state c = AwaitingApproval))
    (fun c => advanced (case_task c) (case_attempt c) (case_used c) (case_facts c) (case_allowed c)
                VariancePosted next (Some txn) now (Some (actor caller, now)) c)
    "cycle count variance changed during decision" in
  Ok (s, txn).

Definition recount_work (caller : Caller) (case : Z) (c : CaseRow) (next now : Z) (s : Counts) :
    result (Counts * Z) ApplicationError :=
  let p := ct_position (case_stock c) in
  let? attempt := ok_or (checked 0 u16_max (case_attempt c + 1))
                    (Internal "cycle count attempt overflow") in
  let? (s, task) := create_item_location_cycle_count_task_tx s (actor caller)
    (StockTypes.location_id p) (StockTypes.item_id p) (ct_balance (case_stock c))
    (StockTypes.facility_id p) (StockTypes.inventory_owner_id p) now in
  let? s := attach_recount_task_tx s task case attempt in
  let? attempt := to_i16 attempt "count attempt is out of range" in
  let? s := update_case s case (case_revision c)
    (fun c => bool_decide (case_state c = AwaitingApproval))
    (fun c => advanced task attempt (case_used c) (case_facts c) (case_allowed c)
                AwaitingRecount next None now None c)
    "cycle count variance changed during decision" in
  Ok (s, task).

Definition decide_work (caller : Caller) (supervisor : bool) (case expected : Z)
    (details_ : CycleCountVarianceDecisionDetails) (now : Z) (s : Counts) :
    result (Counts * (Z * DecisionRow)) ApplicationError :=
  let? (c, next) := decide_locks s caller supervisor case expected in
  let? (s, next_task, transaction) :=
    match cd_decision details_ with
    | RequestRecount => let? (s, task) := recount_work caller case c next now s in
                        Ok (s, Some task, None)
    | ApproveAdjustment => let? (s, txn) := approve_work caller case c next now s in
                           Ok (s, None, Some txn)
    end in
  let row := MkDecision case (case_revision c) next details_ next_task transaction (actor caller) now in
  check decision_checks row else db_error (Sqlstate "23514") in
  let id := next_id (decisions s) in
  let s := set_decisions (insert_row (decisions s) row) s in
  let? sequence := ok_or (match i64_checked_sub next 1 with
                          | Some n => if 0 <? n then Some n else None
                          | None => None
                          end) (Internal "cycle count variance event sequence is invalid") in
  let? s := emit_count s (lit ("cycle-count-variance-decision:" +:+ pretty id))
    (lit "cycle_count_variance") (lit (pretty case)) (lit ("cycle-count-variance:" +:+ pretty case))
    sequence (lit match cd_decision details_ with
                  | ApproveAdjustment => "inventory.cycle_count_variance.approved"
                  | RequestRecount => "inventory.cycle_count_variance.recount_requested"
                  end) (VarianceDecided id row) in
  let? st := commit_stock guards (stock s) in
  Ok (set_stock st s, (id, row)).
End handlers.
