(* ===== verification/CycleCountTasks.v ===== *)
(** * Cycle counts: policies, planning and claims
      ([tasks/cycle_count_control/policy.rs], [tasks.rs], [tasks/references.rs],
       [tasks/cycle_count_claim.rs], [tasks/cycle_count_claim_lifecycle.rs])

    The handlers around a confirmation: a supervisor configures the policy of a facility,
    someone plans a count, an operator claims it, keeps the claim alive or gives it back.
    They are modelled from the point after the replay check; the steps of the whole system
    of stock, tasks and counts close the file. *)

From stdpp Require Import pretty.
From S2P Require Import Prelude.
From S2P Require Import RustStr.
From S2P Require Import Idempotency.
From S2P Require Import Outbox.
From S2P Require Import StockTypes.
From S2P Require Import StockDb.
From S2P Require Import StockJournal.
From S2P Require Import StockHandlers.
From S2P Require Import StockCommands.
From S2P Require Import WorkTasks.
From S2P Require Import Configuration.
From S2P Require Import ReplenishmentPolicy.
From S2P Require Import CycleCount.
From S2P Require Import CountPolicy.
From S2P Require Import CycleCountDb.
From S2P Require Import CycleCountWork.

(** ** Policies *)

Definition active_policy (owner facility : Z) (p : CountPolicyRow) : bool :=
  (cpol_owner p =? owner) && (cpol_facility p =? facility) && bool_decide (cpol_effective_to p = None).

(** The CHECK constraints of [cycle_count_policies]. *)
Definition policy_checks (p : CountPolicyRow) : bool :=
  let t := cpol_tolerance p in
  (0 <=? absolute_tolerance_quantity t)
  && (0 <=? percentage_tolerance_basis_points t) && (percentage_tolerance_basis_points t <=? 10000)
  && (0 <=? automatic_recount_limit t) && (automatic_recount_limit t <=? 10)
  && (0 <? cpol_revision p)
  && match cpol_effective_to p with Some to => cpol_effective_from p <=? to | None => true end.

Definition superseded (at_ : Z) (p : CountPolicyRow) : CountPolicyRow :=
  MkCountPolicyRow (cpol_owner p) (cpol_facility p) (cpol_tolerance p) (cpol_revision p)
    (cpol_supersedes p) (cpol_effective_from p) (Some at_) (cpol_configured_by p).

(** [UPDATE cycle_count_policies SET effective_to = .. WHERE id = .. AND effective_to IS NULL] *)
Definition close_policy (s : Counts) (id : Z) (p : CountPolicyRow) (at_ : Z) :
    result Counts ApplicationError :=
  check policy_checks (superseded at_ p) else db_error (Sqlstate "23514") in
  Ok (set_count_policies (update_row (count_policies s) id (superseded at_ p)) s).

(** [INSERT INTO cycle_count_policies ..], with its unique keys. *)
Definition insert_policy (s : Counts) (p : CountPolicyRow) : result (Counts * Z) ApplicationError :=
  check policy_checks p else db_error (Sqlstate "23514") in
  if existsb (fun '(_, o) => (cpol_owner o =? cpol_owner p) && (cpol_facility o =? cpol_facility p)
                             && ((cpol_revision o =? cpol_revision p)
                                 || bool_decide (cpol_effective_to o = None)))
       (map_to_list (rows (count_policies s)))
  then raise "23505"
  else Ok (set_count_policies (insert_row (count_policies s) p) s, next_id (count_policies s)).

Definition configure_policy_work (tenant : Z) (caller : Caller) (supervisor : bool) (owner facility : Z)
    (policy : CycleCountTolerancePolicy) (expected : option Z) (now : Z) (s : Counts) :
    result (Counts * Z) ApplicationError :=
  check supervisor else Forbidden in
  check includes_inventory_owner (caller_scope caller) owner
        && includes_facility (caller_scope caller) facility
    else NotFound "cycle count policy" in
  check require_active_inventory_owner_facility (stock s) owner facility
    else NotFound "cycle count policy scope" in
  let predecessor := head (List.filter (fun '(_, p) => active_policy owner facility p)
                             (map_to_list (rows (count_policies s)))) in
  let? _ := match expected, predecessor with
            | None, None => Ok tt
            | Some e, Some (_, p) =>
                check cpol_revision p =? e
                  else Conflict "cycle count policy revision does not match expected revision" in
                Ok tt
            | None, Some _ =>
                Err (Conflict "cycle count policy already exists; expected revision is required")
            | Some _, None =>
                Err (Conflict "cycle count policy revision does not match expected revision")
            end in
  let? s := match predecessor with Some (id, p) => close_policy s id p now | None => Ok s end in
  let? revision :=
    match predecessor with
    | None => internal_error (CycleCountPolicyRevision_new 1) "policy revision"
    | Some (_, p) =>
        let? previous := internal_error (CycleCountPolicyRevision_new (cpol_revision p))
                           "policy revision" in
        ok_or (revision_checked_next previous) (Internal "policy revision")
    end in
  let row := MkCountPolicyRow owner facility policy revision (fst <$> predecessor) now None
               (actor caller) in
  let? (s, id) := insert_policy s row in
  let? s := emit_count s (lit ("cycle-count-policy:" +:+ pretty id +:+ ":" +:+ pretty revision))
    (lit "cycle_count_policy") (lit (pretty id))
    (lit ("cycle-count-policy:" +:+ pretty tenant +:+ ":" +:+ pretty owner +:+ ":" +:+ pretty facility))
    revision (lit "inventory.cycle_count_policy.configured") (CountPolicyConfigured id row) in
  Ok (s, id).

(** ** Planning *)

Definition create_inventory_balance_cycle_count_task_in_scope (caller : Caller) (balance now : Z)
    (s : Counts) : result (Counts * Z) ApplicationError :=
  let gone := NotFound "cycle-count inventory balance" in
  let? b := ok_or (rows (balances (stock s)) !! balance) gone in
  let p := position b in
  let owner := StockTypes.inventory_owner_id p in
  let facility := StockTypes.facility_id p in
  let d := directory (stock s) in
  check bool_decide (active_location (stock s) (StockTypes.location_id p) = Some facility)
        && bool_decide (is_Some (items d !! StockTypes.item_id p))
        && match batch_in_scope (stock s) owner (StockTypes.item_batch_id p) with
           | Some batch => negb (batch_deleted batch)
           | None => false
           end
        && bool_decide (owner ∈ inventory_owners d) && bool_decide (facility ∈ facilities d)
        && negb (balance_deleted b) && (0 <? qty_on_hand b)
    else gone in
  check is_allowed_by (Some facility) (Some owner) (caller_scope caller) else gone in
  create_item_location_cycle_count_task_tx s (actor caller) (StockTypes.location_id p)
    (StockTypes.item_id p) balance facility owner now.

Definition live_balance (s : Stock) (balance : Z) : option BalanceRow :=
  match rows (balances s) !! balance with
  | Some b => if balance_deleted b then None else Some b
  | None => None
  end.

Definition live_order (s : Stock) (order : Z) : option OrderRow :=
  match orders (directory s) !! order with
  | Some o => if order_deleted o then None else Some o
  | None => None
  end.

Definition live_line (s : Stock) (line : Z) : option OrderLineRow :=
  match order_items (directory s) !! line with
  | Some l => if line_deleted l then None else Some l
  | None => None
  end.

Definition lock_item_cycle_references_tx (s : Stock) (location item : Z) (order line : option Z)
    (balance : Z) : result unit ApplicationError :=
  let? _ := ok_or (active_location s location) (InvalidRequest "location not found") in
  let? _ := ok_or (items (directory s) !! item) (InvalidRequest "item not found") in
  let? _ := match order with
            | Some order => let? _ := ok_or (live_order s order) (InvalidRequest "order not found") in Ok tt
            | None => Ok tt
            end in
  let? _ := match line with
            | Some line => let? _ := ok_or (live_line s line) (InvalidRequest "order item not found") in Ok tt
            | None => Ok tt
            end in
  let? _ := ok_or (live_balance s balance) (InvalidRequest "inventory balance not found") in
  Ok tt.

Definition merge_task_owner (owner : Z) (candidate : option Z) (reference : string) :
    result Z ApplicationError :=
  let? candidate := ok_or candidate (InvalidRequest (reference +:+ " not found")) in
  check owner =? candidate
    else InvalidRequest "task references must belong to the same inventory owner" in
  Ok candidate.

(** The facility and the owner of the task. *)
Definition item_location_cycle_count_dimensions_tx (s : Stock) (location item : Z)
    (order line : option Z) (balance : Z) : result (Z * Z) ApplicationError :=
  let? facility := ok_or (active_location s location) (InvalidRequest "location not found") in
  let? b := ok_or (live_balance s balance) (InvalidRequest "inventory balance not found") in
  let p := position b in
  check (StockTypes.facility_id p =? facility) && (StockTypes.location_id p =? location)
        && (StockTypes.item_id p =? item)
    else InvalidRequest "inventory balance does not match the task location and item" in
  let owner := StockTypes.inventory_owner_id p in
  let? owner := match order with
                | Some order => merge_task_owner owner (order_owner <$> live_order s order) "order"
                | None => Ok owner
                end in
  let? owner :=
    match line with
    | Some line =>
        let? l := ok_or (live_line s line) (InvalidRequest "order item not found") in
        check match order with Some order => order =? line_order l | None => true end
              && (line_item l =? item)
          else InvalidRequest "order item does not match the task order and item" in
        merge_task_owner owner (Some (line_owner l)) "order item"
    | None => Ok owner
    end in
  Ok (facility, owner).

Definition concealed_task_reference {A} (r : result A ApplicationError) : result A ApplicationError :=
  map_err (fun e => match e with
                    | InvalidRequest _ | NotFound _ | Forbidden => NotFound "task references"
                    | other => other
                    end) r.

(** With the scope of the user it is created for, or without one. *)
Definition create_item_location_cycle_count_task_with_scope (user : Z) (scope : option ScopeBindings)
    (location item : Z) (order line : option Z) (balance now : Z) (s : Counts) :
    result (Counts * Z) ApplicationError :=
  let conceal := fun A (r : result A ApplicationError) =>
    if scope is Some _ then concealed_task_reference r else r in
  let? _ := conceal _ (lock_item_cycle_references_tx (stock s) location item order line balance) in
  let? (facility, owner) := conceal _ (item_location_cycle_count_dimensions_tx (stock s) location item
                                         order line balance) in
  check match scope with
        | Some scope => is_allowed_by (Some facility) (Some owner) scope
        | None => true
        end else NotFound "task references" in
  create_item_location_cycle_count_task_tx s user location item balance facility owner now.

(** ** Claims *)

Record CycleCountClaim := MkClaim {
  claim_task : Z;
  claim_owner : Z;
  claim_facility : Z;
  claim_priority : Z;
  claim_due_at : option Z;
  claim_lease : option Z;
  claim_location : Z;
  claim_location_barcode : rstr;
  claim_item : Z;
  claim_item_barcodes : list rstr;
  claim_balance : Z;
  claim_plate : option Z;
  claim_plate_barcode : option rstr;
  claim_uom : rstr;
  claim_trace : Trace;
  claim_status : InventoryStatus;
}.

Definition required_barcode (value : option rstr) (label : string) : result rstr ApplicationError :=
  match value with
  | Some barcode => if bool_decide (trim barcode = [])
                    then Err (Conflict (label +:+ " must have a scannable barcode")) else Ok barcode
  | None => Err (Conflict (label +:+ " must have a scannable barcode"))
  end.

Definition nonblank (value : option rstr) : bool :=
  match value with Some text => negb (only_spaces text) | None => false end.

Definition item_barcodes (s : Counts) (item : Z) : list rstr :=
  snd <$> List.filter (fun r => (r.1 =? item) && negb (only_spaces r.2)) (barcodes s).

(** The plate of a balance, joined by owner and facility. *)
Definition joined_plate (s : Counts) (p : Position) : option PlateRow :=
  match license_plate_id p with
  | Some plate =>
      match plates s !! plate with
      | Some row => if (plate_owner row =? StockTypes.inventory_owner_id p)
                       && (plate_facility row =? StockTypes.facility_id p) then Some row else None
      | None => None
      end
  | None => None
  end.

(** The rows a claim joins: detail, location, balance and batch. *)
Definition count_rows (s : Counts) (task : Z) :
    option (DetailRow * LocationRow * BalanceRow * BatchRow) :=
  match details s !! task with
  | Some d =>
      match locations (directory (stock s)) !! det_location d, rows (balances (stock s)) !! det_balance d with
      | Some l, Some b =>
          match batch_in_scope (stock s) (StockTypes.inventory_owner_id (position b))
                  (StockTypes.item_batch_id (position b)) with
          | Some batch =>
              if (location_facility l =? det_facility d)
                 && (StockTypes.inventory_owner_id (position b) =? det_owner d)
                 && (StockTypes.facility_id (position b) =? det_facility d)
              then Some (d, l, b, batch) else None
          | None => None
          end
      | _, _ => None
      end
  | None => None
  end.

(** The WHERE clause of the queries that hand out count tasks. *)
Definition scannable (s : Counts) (r : DetailRow * LocationRow * BalanceRow * BatchRow) : bool :=
  let '(d, l, b, batch) := r in
  let p := position b in
  location_active l && negb (location_deleted l)
  && nonblank (location_barcodes s !! det_location d)
  && negb (balance_deleted b) && (StockTypes.location_id p =? det_location d)
  && (StockTypes.item_id p =? det_item d) && negb (batch_deleted batch)
  && bool_decide (is_Some (items (directory (stock s)) !! det_item d))
  && negb (bool_decide (item_barcodes s (det_item d) = []))
  && match license_plate_id p with
     | None => true
     | Some _ =>
         match joined_plate s p with
         | Some row => negb (plate_deleted row)
                       && bool_decide (plate_location row = Some (det_location d))
                       && nonblank (plate_barcode row)
         | None => false
         end
     end.

(** [access_scope] is that of the request's token. *)
Definition load_claim_tx (s : Counts) (access_scope : ScopeBindings) (task user statement_at : Z) :
    result CycleCountClaim ApplicationError :=
  let gone := Conflict "cycle count claim is no longer executable" in
  let? t := ok_or (lookup_task (tasks s) task) gone in
  let? (d, l, b, batch) := ok_or (count_rows s task) gone in
  let p := position b in
  check negb (location_deleted l) && bool_decide (is_Some (items (directory (stock s)) !! det_item d))
        && bool_decide (wt_type t = CycleCountItemLocation) && bool_decide (wt_status t = TaskInProgress)
        && bool_decide (wt_assigned t = Some user)
        && match wt_lease t with Some lease => statement_at <? lease | None => false end
        && negb (wt_deleted t)
    else gone in
  let? owner := ok_or (wt_owner t) (Internal "inventory_owner_id") in
  let? facility := ok_or (wt_facility t) (Internal "facility_id") in
  check is_allowed_by (Some facility) (Some owner) access_scope else NotFound "cycle count task" in
  check location_active l && negb (balance_deleted b) && negb (batch_deleted batch)
        && (StockTypes.location_id p =? det_location d) && (StockTypes.item_id p =? det_item d)
        && match license_plate_id p with
           | None => true
           | Some _ => match joined_plate s p with
                       | Some row => negb (plate_deleted row)
                                     && bool_decide (plate_location row = Some (det_location d))
                       | None => false
                       end
           end
    else gone in
  let labels := item_barcodes s (det_item d) in
  if bool_decide (labels = [])
  then Err (Conflict "cycle count item must have a scannable barcode")
  else
    let? plate_barcode_ :=
      match license_plate_id p with
      | Some _ => let? label := required_barcode (joined_plate s p ≫= plate_barcode)
                                  "cycle count license plate" in Ok (Some label)
      | None => Ok None
      end in
    let? owner := positive_new (fun _ => Internal "inventory owner ID must be positive") owner in
    let? location_barcode := required_barcode (location_barcodes s !! det_location d)
                               "cycle count location" in
    Ok (MkClaim task owner facility (wt_priority t) (wt_due_at t) (wt_lease t) (det_location d)
          location_barcode (det_item d) labels (det_balance d) (license_plate_id p) plate_barcode_
          (StockTypes.uom p) (batch_trace batch) (status p)).

(** [status = 'assigned' AND assigned_user_id = .. OR status = 'open' AND assigned_user_id IS NULL] *)
Definition offered (user : Z) (t : WorkTask) : bool :=
  (bool_decide (wt_status t = TaskAssigned) && bool_decide (wt_assigned t = Some user))
  || (bool_decide (wt_status t = TaskOpen) && bool_decide (wt_assigned t = None)).

(** [CASE WHEN status = 'assigned' THEN 0 ELSE 1 END] before the order of tasks. *)
Definition claim_order (x y : Z * WorkTask) : comparison :=
  let rank := fun t => if bool_decide (wt_status t = TaskAssigned) then 0 else 1 in
  then_with (rank x.2 ?= rank y.2) (task_order x y).

Definition start_claim (s : Counts) (task user now : Z) (t : WorkTask) : Counts :=
  set_tasks (record_progress task (Some user) "started"
               (put_task task (claimed_by user now t) (tasks s))) s.

Definition claim_next_cycle_count_in_scope (scope access_scope : ScopeBindings)
    (user released_at now statement_at : Z) (s : Counts) :
    result (Counts * option CycleCountClaim) ApplicationError :=
  let s := set_tasks (release_stale user scope released_at (tasks s)) s in
  if has_task (tasks s) user
       (fun _ t => negb (bool_decide (wt_status t = TaskAssigned)
                         && bool_decide (wt_type t = CycleCountItemLocation)))
  then Err (Conflict "user already has active work; resume or release it first")
  else
    let candidates := sort_by claim_order (List.filter (fun '(id, t) =>
        bool_decide (wt_type t = CycleCountItemLocation) && offered user t && negb (wt_deleted t)
        && due now t
        && (all_facilities scope || match wt_facility t with
                                    | Some f => bool_decide (f ∈ facility_ids scope)
                                    | None => false end)
        && (all_inventory_owners scope || match wt_owner t with
                                          | Some o => bool_decide (o ∈ inventory_owner_ids scope)
                                          | None => false end)
        && match count_rows s id with Some r => scannable s r | None => false end)
      (map_to_list (rows (work_tasks (tasks s))))) in
    match head candidates with
    | Some (task, t) =>
        let s := start_claim s task user now t in
        let? claim := load_claim_tx s access_scope task user statement_at in
        Ok (s, Some claim)
    | None => Ok (s, None)
    end.

Definition task_is_scannable_in_scope_tx (s : Counts) (user task : Z) (scope : ScopeBindings) :
    result WorkTask ApplicationError :=
  let gone := NotFound "cycle count task" in
  let? t := ok_or (lookup_task (tasks s) task) gone in
  let? r := ok_or (count_rows s task) gone in
  check bool_decide (wt_type t = CycleCountItemLocation) && negb (wt_deleted t)
    else gone in
  check is_allowed_by (wt_facility t) (wt_owner t) scope else gone in
  check offered user t && scannable s r
    else Conflict "cycle count task is not available for scanner execution" in
  Ok t.

Definition claim_cycle_count_by_id_in_scope (scope access_scope : ScopeBindings)
    (task user released_at now statement_at : Z) (s : Counts) :
    result (Counts * CycleCountClaim) ApplicationError :=
  check 0 <? task else InvalidRequest "cycle count task ID must be positive" in
  let s := set_tasks (release_stale user scope released_at (tasks s)) s in
  if has_task (tasks s) user (fun id _ => negb (id =? task))
  then Err (Conflict "user already has active work; resume or release it first")
  else
    let? t := task_is_scannable_in_scope_tx s user task scope in
    let s := start_claim s task user now t in
    let? claim := load_claim_tx s access_scope task user statement_at in
    Ok (s, claim).

(** [lock_active_claim_tx] *)
Definition lock_active_claim_tx (s : Counts) (task user : Z) (scope : ScopeBindings)
    (statement_at : Z) : result WorkTask ApplicationError :=
  let gone := NotFound "cycle count claim" in
  let? t := ok_or (lookup_task (tasks s) task) gone in
  check bool_decide (wt_type t = CycleCountItemLocation) && negb (wt_deleted t) else gone in
  check is_allowed_by (wt_facility t) (wt_owner t) scope else gone in
  check bool_decide (wt_status t = TaskInProgress) && bool_decide (wt_assigned t = Some user)
        && match wt_lease t with Some lease => statement_at <? lease | None => false end
        && bool_decide (is_Some (details s !! task))
    else Conflict "cycle count claim is no longer active" in
  let? owner := ok_or (wt_owner t) (Internal "cycle count task has no inventory owner") in
  let? _ := positive_new (fun _ => Internal "inventory owner ID must be positive") owner in
  let? _ := ok_or (wt_facility t) (Internal "cycle count task has no facility") in
  Ok t.

Definition lease_beyond (now : Z) (t : WorkTask) : bool :=
  match wt_lease t with Some lease => now <? lease | None => false end.

Definition heartbeat_cycle_count_claim_in_scope (scope : ScopeBindings) (task user statement_at now : Z)
    (s : Counts) : result Counts ApplicationError :=
  check 0 <? task else InvalidRequest "cycle count task ID must be positive" in
  let? t := lock_active_claim_tx s task user scope statement_at in
  check lease_beyond now t else Conflict "cycle count claim is no longer active" in
  Ok (set_tasks (record_progress task (Some user) "cycle_count_heartbeat"
                   (put_task task (extended now t) (tasks s))) s).

Inductive CycleCountClaimReleaseReason :=
| WorkInterrupted | EquipmentUnavailable | SafetyIssue | ReleaseOther.

Definition validate_release_input (reason : CycleCountClaimReleaseReason) (note : option rstr) :
    result unit ApplicationError :=
  let? _ := match note with
            | Some n =>
                if negb (bool_decide (trim n = n)) || bool_decide (n = [])
                then Err (InvalidRequest "release note must be trimmed and nonempty when provided")
                else if 500 <? chars_count n
                then Err (InvalidRequest "release note cannot exceed 500 characters")
                else Ok tt
            | None => Ok tt
            end in
  match reason, note with
  | ReleaseOther, None => Err (InvalidRequest "release note is required when reason is other")
  | _, _ => Ok tt
  end.

Definition release_cycle_count_claim_in_scope (scope : ScopeBindings) (task user : Z)
    (reason : CycleCountClaimReleaseReason) (note : option rstr) (statement_at now : Z)
    (s : Counts) : result Counts ApplicationError :=
  check 0 <? task else InvalidRequest "cycle count task ID must be positive" in
  let? _ := validate_release_input reason note in
  let? t := lock_active_claim_tx s task user scope statement_at in
  check lease_beyond now t && bool_decide (wt_completed_at t = None)
    else Conflict "cycle count claim is no longer active" in
  Ok (set_tasks (record_progress task (Some user) "cycle_count_released"
                   (put_task task (released t) (tasks s))) s).

(** ** Steps of the whole system *)

(** What the handlers of other kinds of work may do to [work_tasks]: anything that leaves the
    rows of count tasks alone. *)
Definition other_work (t t' : TaskTables) : Prop :=
  next_id (work_tasks t) ≤ next_id (work_tasks t') ∧
  (∀ id row, rows (work_tasks t') !! id = Some row → 0 < id < next_id (work_tasks t')) ∧
  ∀ id row, wt_type row = CycleCountItemLocation →
    rows (work_tasks t) !! id = Some row ↔ rows (work_tasks t') !! id = Some row.

Definition set_labels (l : gmap Z rstr) (b : list (Z * rstr)) (p : gmap Z PlateRow) (s : Counts) : Counts :=
  MkCounts (stock s) (tasks s) (details s) (count_policies s) (cases s) (results s) (decisions s)
    (count_rules s) l b p (count_outbox s).

Definition set_count_rules (r : gmap Z ConfigurationRow) (s : Counts) : Counts :=
  MkCounts (stock s) (tasks s) (details s) (count_policies s) (cases s) (results s) (decisions s)
    r (location_barcodes s) (barcodes s) (plates s) (count_outbox s).

Section steps.
Context (guards : bool) (digest : list Z → rstr) (tenant : Z).
Context {Json : Type} (to_json : StockResult → option Json) (from_json : Json → option StockResult).
Context (encode : StockRequest → option (list Z)).
Context (user_can_execute : Z → option Z → option Z → rstr → bool).

Inductive count_step (s : Counts) : Counts → Prop :=
| step_confirm caller task counted note scans clock s' r :
    counted ≤ i64_max →
    confirm_work guards digest caller task counted note scans clock s = Ok (s', r) → count_step s s'
| step_decide caller supervisor case expected details_ now s' r :
    decide_work guards caller supervisor case expected details_ now s = Ok (s', r) → count_step s s'
| step_configure caller supervisor owner facility policy expected now s' r :
    tolerance_ok policy →
    configure_policy_work tenant caller supervisor owner facility policy expected now s = Ok (s', r) →
    count_step s s'
| step_plan_balance caller balance now s' r :
    create_inventory_balance_cycle_count_task_in_scope caller balance now s = Ok (s', r) → count_step s s'
| step_plan_item user scope location item order line balance now s' r :
    create_item_location_cycle_count_task_with_scope user scope location item order line balance now s
    = Ok (s', r) → count_step s s'
| step_claim_next scope access_scope user released_at now statement_at s' r :
    claim_next_cycle_count_in_scope scope access_scope user released_at now statement_at s = Ok (s', r) →
    count_step s s'
| step_claim scope access_scope task user released_at now statement_at s' r :
    claim_cycle_count_by_id_in_scope scope access_scope task user released_at now statement_at s
    = Ok (s', r) → count_step s s'
| step_heartbeat scope task user statement_at now s' :
    heartbeat_cycle_count_claim_in_scope scope task user statement_at now s = Ok s' → count_step s s'
| step_release scope task user reason note statement_at now s' :
    release_cycle_count_claim_in_scope scope task user reason note statement_at now s = Ok s' →
    count_step s s'
| step_assign scope task user :
    count_step s (set_tasks (assign_task user_can_execute scope task user (tasks s)).1 s)
| step_start scope task user now t r :
    start_task scope task user now (tasks s) = Ok (t, r) → count_step s (set_tasks t s)
| step_start_next scope permissions ty user now t r :
    start_next_task scope permissions ty user now (tasks s) = Ok (t, r) → count_step s (set_tasks t s)
| step_abort scope task user : count_step s (set_tasks (abort_task scope task user (tasks s)).1 s)
| step_cancel scope task user now : count_step s (set_tasks (cancel_task scope task user now (tasks s)).1 s)
| step_expire user scope now :
    count_step s (set_tasks (release_expired_tasks_tx user scope now (tasks s)).1 s)
| step_other_work t : other_work (tasks s) t → count_step s (set_tasks t s)
| step_stock (records records' : Records (Json := Json)) st :
    stock_step guards digest to_json from_json encode (records, stock s) (records', st) →
    count_step s (set_stock st s)
| step_labels l b p : count_step s (set_labels l b p s)
(** a version of a Count rule is activated or retired *)
| step_rules rules : count_rules_ok rules → count_step s (set_count_rules rules s).
End steps.
