(* ===== verification/CycleCountInvariant.v ===== *)
(** * Cycle counts: the invariant

    [counts_ok] holds between any two handlers of the system of stock, tasks and counts: the
    stock is settled, tasks, details, results and cases refer to each other, at most one task
    and one variance case are open for a balance, a case uses up no more recounts than its
    policy grants, and the adjustments in the journal are those of posted counts and approved
    variances. *)

From S2P Require Import Prelude.
From S2P Require Import RustStr.
From S2P Require Import Idempotency.
From S2P Require Import Outbox.
From S2P Require Import StockTypes.
From S2P Require Import StockDb.
From S2P Require Import StockJournal.
From S2P Require Import StockInvariant.
From S2P Require Import StockTotals.
From S2P Require Import StockHistory.
From S2P Require Import WorkTasks.
From S2P Require Import Configuration.
From S2P Require Import ReplenishmentPolicy.
From S2P Require Import CycleCount.
From S2P Require Import CountPolicy.
From S2P Require Import CycleCountDb.
From S2P Require Import CycleCountWork.
From S2P Require Import CycleCountTasks.

(** ** What counts found and supervisors approved *)

(** The batch that was counted. *)
Definition counted_batch (c : CountedStock) : Z := StockTypes.item_batch_id (ct_position c).

Definition posted_variance (batch : Z) (r : ResultRow) : Z :=
  if bool_decide (res_disposition r = Posted) && (counted_batch (res_stock r) =? batch)
  then cf_variance (res_facts r) else 0.

(** The variances of counts that were posted when they were confirmed. *)
Definition counted (s : Counts) (batch : Z) : Z :=
  sum_rows (fun _ r => posted_variance batch r) (results s).

Definition approved_variance (cs : gmap Z CaseRow) (batch : Z) (d : DecisionRow) : Z :=
  match cd_decision (dec_details d), cs !! dec_case d with
  | ApproveAdjustment, Some c =>
      if counted_batch (case_stock c) =? batch then cf_variance (case_facts c) else 0
  | _, _ => 0
  end.

(** The variances that a supervisor approved. *)
Definition approved (s : Counts) (batch : Z) : Z :=
  sum_rows (fun _ d => approved_variance (rows (cases s)) batch d) (rows (decisions s)).

(** The automatic recounts of a case, from the results. *)
Definition recount_of (case : Z) (r : ResultRow) : Z :=
  if bool_decide (res_case r = Some case) && bool_decide (res_disposition r = RecountRequired)
  then 1 else 0.

Definition recounts (s : Counts) (case : Z) : Z := sum_rows (fun _ r => recount_of case r) (results s).

(** ** The invariant *)

Definition task_status (s : Counts) (task : Z) : option WorkTaskStatus :=
  wt_status <$> lookup_task (tasks s) task.

Definition live_task (s : Counts) (task : Z) : Prop :=
  ∃ t, lookup_task (tasks s) task = Some t ∧ live (wt_status t) = true.

(** The header of a count task agrees with its detail. *)
Definition heads (d : DetailRow) (t : WorkTask) : Prop :=
  wt_type t = CycleCountItemLocation ∧ wt_owner t = Some (det_owner d) ∧
  wt_facility t = Some (det_facility d) ∧ wt_deleted t = false.

(** Between handlers the tables are [Idle]. Inside one that is [Working] a journal transaction
    may be open, and the row of the case it works on is still to be brought up to date: the
    given number of its recounts are not in it yet. *)
Inductive Phase := Idle | Working (case : option (Z * Z)).

Definition exempt (phase : Phase) (case : Z) : Prop :=
  match phase with Working (Some (k, _)) => k = case | _ => False end.

Definition pending (phase : Phase) (case : Z) : Z :=
  match phase with Working (Some (k, n)) => if k =? case then n else 0 | _ => 0 end.

Record detail_ok (phase : Phase) (s : Counts) (task : Z) (d : DetailRow) : Prop := {
  detail_refers_ok : detail_refers (stock s) d = true;
  detail_headed : ∃ t, lookup_task (tasks s) task = Some t ∧ heads d t;
  detail_linked : ∀ case, det_case d = Some case →
    ∃ c, rows (cases s) !! case = Some c ∧ ct_balance (case_stock c) = det_balance d ∧
      (¬ exempt phase case → live_task s task → case_state c = AwaitingRecount ∧ case_task c = task);
}.

Definition state_ok (s : Counts) (case : Z) (c : CaseRow) : Prop :=
  match case_state c with
  | AwaitingRecount => task_status s (case_task c) ≠ Some TaskCompleted ∧
      ∃ d, details s !! case_task c = Some d ∧ det_case d = Some case ∧ det_attempt d = case_attempt c
  | AwaitingApproval => case_allowed c < Z.abs (cf_variance (case_facts c))
  | VariancePosted => True
  end.

Record case_ok (phase : Phase) (s : Counts) (case : Z) (c : CaseRow) : Prop := {
  case_checked : case_checks c = true;
  case_range : cf_counted (case_facts c) ≤ i64_max;
  case_balance : ∃ b, rows (balances (stock s)) !! ct_balance (case_stock c) = Some b ∧
    position b = ct_position (case_stock c);
  case_limit : case_used c ≤ automatic_recount_limit (snap_policy (case_policy c)) ≤ MAX_CYCLE_COUNT_RECOUNTS;
  case_recounts : case_used c + pending phase case = recounts s case;
  case_state_ok : ¬ exempt phase case → state_ok s case c;
}.

Record policies_ok (t : Table CountPolicyRow) : Prop := {
  policy_table : table_ok t;
  policy_rows : ∀ i p, rows t !! i = Some p → tolerance_ok (cpol_tolerance p) ∧ policy_checks p = true;
  policy_unique : ∀ i j p q, rows t !! i = Some p → rows t !! j = Some q →
    cpol_owner p = cpol_owner q → cpol_facility p = cpol_facility q →
    cpol_effective_to p = None → cpol_effective_to q = None → i = j;
}.

Record counts_upto (phase : Phase) (s : Counts) : Prop := {
  ok_stock : settled (set_context None (stock s));
  ok_context : phase = Idle → journal_context (stock s) = None;
  ok_tasks : table_ok (work_tasks (tasks s));
  ok_cases : table_ok (cases s);
  ok_decisions : table_ok (decisions s);
  ok_rules : count_rules_ok (count_rules s);
  ok_policies : policies_ok (count_policies s);
  ok_detail : ∀ task d, details s !! task = Some d → detail_ok phase s task d;
  ok_one_live : ∀ i j d e, details s !! i = Some d → details s !! j = Some e →
    live_task s i → live_task s j → det_balance d = det_balance e → i = j;
  ok_case : ∀ case c, rows (cases s) !! case = Some c → case_ok phase s case c;
  ok_one_case : ∀ i j c d, rows (cases s) !! i = Some c → rows (cases s) !! j = Some d →
    open_case c = true → open_case d = true →
    ct_balance (case_stock c) = ct_balance (case_stock d) → i = j;
  ok_result : ∀ task r, results s !! task = Some r →
    task_status s task = Some TaskCompleted ∧ is_Some (details s !! task) ∧
    (∀ case, res_case r = Some case → is_Some (rows (cases s) !! case));
  ok_approved : ∀ i d, rows (decisions s) !! i = Some d → cd_decision (dec_details d) = ApproveAdjustment →
    ∃ c, rows (cases s) !! dec_case d = Some c ∧ open_case c = false;
}.

Definition counts_ok : Counts → Prop := counts_upto Idle.

(** The adjustments in the journal are those of posted counts and approved variances. *)
Definition ledger_ok (s : Counts) : Prop :=
  ∀ batch, adjusted (stock s) batch = counted s batch + approved s batch.

(** Tables that the ledger does not depend on may change. *)
Definition same_ledger (s s' : Counts) : Prop :=
  stock s' = stock s ∧ results s' = results s ∧ cases s' = cases s ∧ decisions s' = decisions s.

Lemma ledger_same s s' : same_ledger s s' → ledger_ok s → ledger_ok s'.
Proof. unfold ledger_ok, counted, approved. by intros (-> & -> & -> & ->). Qed.

(** ** Changes of the headers *)

(** A count task keeps its header; one that is closed stays as it is, and none is completed. *)
Record tasks_evolve (t t' : TaskTables) : Prop := {
  evolve_table : table_ok (work_tasks t');
  evolve_next : next_id (work_tasks t) ≤ next_id (work_tasks t');
  evolve_rows : ∀ id x, lookup_task t id = Some x → wt_type x = CycleCountItemLocation →
    ∃ x', lookup_task t' id = Some x' ∧ wt_type x' = wt_type x ∧ wt_owner x' = wt_owner x ∧
      wt_facility x' = wt_facility x ∧ wt_deleted x' = wt_deleted x ∧
      (live (wt_status x) = false → wt_status x' = wt_status x) ∧
      (live (wt_status x) = true → wt_status x' ≠ TaskCompleted);
}.

Lemma live_completed st : live st = true → st ≠ TaskCompleted.
Proof. by destruct st. Qed.

Lemma tasks_evolve_refl t : table_ok (work_tasks t) → tasks_evolve t t.
Proof.
  intros Ht. split; [done..|]. intros id x Hx _. exists x. split_and!; try done. by intros ?%live_completed.
Qed.

Lemma tasks_evolve_trans t1 t2 t3 : tasks_evolve t1 t2 → tasks_evolve t2 t3 → tasks_evolve t1 t3.
Proof.
  intros [T1 N1 R1] [T2 N2 R2]. split; [done|lia|]. intros id x Hx Hty.
  destruct (R1 id x Hx Hty) as (y & Hy & Ety & Eo & Ef & Ed & Hdead & Hlive).
  destruct (R2 id y Hy) as (z & Hz & Ety' & Eo' & Ef' & Ed' & Hdead' & Hlive'); [congruence|].
  exists z. split_and!; try congruence.
  - intros H. rewrite Hdead'; [by apply Hdead|]. by rewrite Hdead.
  - intros H. specialize (Hlive H). destruct (live (wt_status y)) eqn:E; [by apply Hlive'|].
    by rewrite Hdead'.
Qed.

(** One row is changed, in a way that its status admits. *)
Lemma put_task_evolves t id x x' :
  table_ok (work_tasks t) → lookup_task t id = Some x →
  wt_type x' = wt_type x → wt_owner x' = wt_owner x → wt_facility x' = wt_facility x →
  wt_deleted x' = wt_deleted x → live (wt_status x) = true → wt_status x' ≠ TaskCompleted →
  tasks_evolve t (put_task id x' t).
Proof.
  intros Ht Hx Ety Eo Ef Ed Hlive Hst. split; [by eapply table_ok_update|done|].
  intros i y Hy _. unfold lookup_task, put_task. cbn. destruct (decide (i = id)) as [->|Hne].
  - rewrite lookup_insert_eq. unfold lookup_task in Hx, Hy. exists x'.
    assert (y = x) as -> by congruence. split_and!; try done. congruence.
  - rewrite lookup_insert_ne by done. exists y. split_and!; try done. by intros ?%live_completed.
Qed.

Lemma progress_evolves t id user action t' : tasks_evolve t' t → tasks_evolve t' (record_progress id user action t).
Proof. intros []. by split. Qed.

Lemma taken_live st : taken st = true → live st = true.
Proof. by destruct st. Qed.

Lemma release_where_evolves t where_ user action :
  table_ok (work_tasks t) → (∀ x, where_ x = true → taken (wt_status x) = true) →
  tasks_evolve t (release_where where_ user action t).1.
Proof.
  intros Ht Hw. split; [|done|].
  - destruct Ht as [Hp Hr]. split; [done|]. cbn. intros id x. rewrite lookup_fmap.
    destruct (rows (work_tasks t) !! id) eqn:E; [|done]. intros _. by apply (Hr id w).
  - intros id x Hx _. unfold lookup_task in *. cbn. rewrite lookup_fmap, Hx. cbn. eexists. split; [done|].
    destruct (where_ x) eqn:E; cbn; split_and!; try done.
    + intros Hd. apply Hw, taken_live in E. congruence.
    + by intros ?%live_completed.
Qed.

(** ** Frames *)

Lemma detail_task phase s task d :
  counts_upto phase s → details s !! task = Some d →
  ∃ t, lookup_task (tasks s) task = Some t ∧ wt_type t = CycleCountItemLocation.
Proof. intros H Hd. apply (ok_detail _ _ H) in Hd as [_ (t & Ht & Hh) _]. exists t. by destruct Hh. Qed.

Section evolve.
Context (phase : Phase) (s : Counts) (t' : TaskTables).
Context (Hs : counts_upto phase s) (He : tasks_evolve (tasks s) t').

Lemma evolve_live task d :
  details s !! task = Some d → live_task (set_tasks t' s) task → live_task s task.
Proof.
  intros Hd (x' & Hx' & Hl). destruct (detail_task _ _ _ _ Hs Hd) as (x & Hx & Hty).
  exists x. split; [done|]. destruct (evolve_rows _ _ He _ _ Hx Hty) as (y & Hy & _ & _ & _ & _ & Hdead & _).
  cbn in Hx'. assert (y = x') as -> by congruence. destruct (live (wt_status x)) eqn:E; [done|].
  by rewrite Hdead, E in Hl.
Qed.

Lemma evolve_completed task d :
  details s !! task = Some d →
  task_status (set_tasks t' s) task = Some TaskCompleted ↔ task_status s task = Some TaskCompleted.
Proof.
  intros Hd. destruct (detail_task _ _ _ _ Hs Hd) as (x & Hx & Hty).
  destruct (evolve_rows _ _ He _ _ Hx Hty) as (y & Hy & _ & _ & _ & _ & Hdead & Hlive).
  unfold task_status. cbn [tasks set_tasks]. rewrite Hx, Hy. cbn.
  destruct (live (wt_status x)) eqn:E; [|by rewrite Hdead].
  specialize (Hlive eq_refl). apply live_completed in E. naive_solver.
Qed.

Lemma counts_tasks : counts_upto phase (set_tasks t' s).
Proof.
  split; try (apply Hs || apply He).
  - intros task d Hd. destruct (ok_detail _ _ Hs task d Hd) as [Hr (x & Hx & Hty & Ho & Hf & Hdel) Hl].
    split; [done| |].
    + destruct (evolve_rows _ _ He _ _ Hx Hty) as (y & Hy & Ey & Eo & Ef & Ed & _).
      exists y. split; [done|]. split_and!; congruence.
    + intros case Hc. destruct (Hl case Hc) as (c & Hcc & Hb & Hlive). exists c. split_and!; try done.
      intros Hx' Hlt. apply Hlive; [done|]. by eapply evolve_live.
  - intros i j d e Hi Hj Hli Hlj. apply (ok_one_live _ _ Hs i j d e Hi Hj); by eapply evolve_live.
  - intros case c Hc. destruct (ok_case _ _ Hs case c Hc) as [H1 Hrg H2 H3 H4 H5]. split; try done.
    intros Hx. specialize (H5 Hx). unfold state_ok in *. destruct (case_state c); [|done..].
    destruct H5 as [Hst (d & Hd & Hdc)]. split; [|by exists d]. by rewrite (evolve_completed _ _ Hd).
  - intros task r Hr. destruct (ok_result _ _ Hs task r Hr) as (H1 & [d Hd] & H2).
    split_and!; [|by exists d|done]. by rewrite (evolve_completed _ _ Hd).
Qed.
End evolve.

(** A cancelled count stays cancelled. *)
Definition cancelled_kept (s s' : Counts) : Prop :=
  ∀ i, is_Some (details s !! i) → task_status s i = Some TaskCancelled →
    task_status s' i = Some TaskCancelled.

(** What claims, planning and policies leave alone. *)
Definition quiet (s s' : Counts) : Prop := same_ledger s s' ∧ cancelled_kept s s'.

Lemma evolve_cancelled phase s t' :
  counts_upto phase s → tasks_evolve (tasks s) t' → cancelled_kept s (set_tasks t' s).
Proof.
  intros Hs He i [d Hd] Hst. destruct (detail_task _ _ _ _ Hs Hd) as (x & Hx & Hty).
  destruct (evolve_rows _ _ He _ _ Hx Hty) as (y & Hy & _ & _ & _ & _ & Hdead & _).
  unfold task_status in *. cbn [tasks set_tasks]. rewrite Hx in Hst. rewrite Hy. cbn in *.
  injection Hst as Hst. rewrite Hdead; [by rewrite Hst|by rewrite Hst].
Qed.

Lemma counts_tasks_quiet s t' :
  counts_ok s → tasks_evolve (tasks s) t' → counts_ok (set_tasks t' s) ∧ quiet s (set_tasks t' s).
Proof. intros Hs He. split; [by apply counts_tasks|]. split; [done|by eapply evolve_cancelled]. Qed.

(** A change of the stock that appends to the journal and adjusts nothing. *)
Lemma closed_stock st : journal_context st = None → set_context None st = st.
Proof. destruct st. cbn. by intros ->. Qed.

Lemma stock_closed s : counts_ok s → settled (stock s).
Proof. intros Hs. rewrite <-closed_stock by (by apply (ok_context _ _ Hs)). apply Hs. Qed.

Lemma counts_stock_upto phase s st :
  counts_upto phase s → settled (set_context None st) → (phase = Idle → journal_context st = None) →
  (∀ i b, rows (balances (stock s)) !! i = Some b →
     ∃ b', rows (balances st) !! i = Some b' ∧ position b' = position b) →
  counts_upto phase (set_stock st s).
Proof.
  intros Hs Hst Hx Hpos. split; try (done || apply Hs).
  - intros task d Hd. destruct (ok_detail _ _ Hs task d Hd) as [Hr Hh Hl]. split; [|done|done].
    unfold detail_refers in *. cbn [stock set_stock].
    destruct (rows (balances (stock s)) !! det_balance d) as [b|] eqn:Hb; [|done].
    destruct (Hpos _ _ Hb) as (b' & -> & ->). done.
  - intros case c Hc. destruct (ok_case _ _ Hs case c Hc) as [H1 Hrg (b & Hb & Hp) H3 H4 H5].
    split; try done. destruct (Hpos _ _ Hb) as (b' & Hb' & Ep). exists b'. split; [done|congruence].
Qed.

Lemma counts_stock s st :
  counts_ok s → settled st → extends (stock s) st → counts_ok (set_stock st s).
Proof.
  intros Hs Hst He. pose proof (no_open_transaction st Hst) as Hn.
  apply counts_stock_upto; [done|by rewrite closed_stock|done|apply He].
Qed.

Lemma ledger_stock s st :
  counts_ok s → extends (stock s) st → ledger_ok s → ledger_ok (set_stock st s).
Proof.
  intros Hs He Hl batch. cbn [stock set_stock]. rewrite (adjusted_kept (stock s)); [apply Hl| |done].
  apply (settled_wf _ (stock_closed s Hs)).
Qed.
