(* ===== verification/CycleCountFacts.v ===== *)
(** * Cycle counts: handlers that keep the invariant at once

    Claims and the generic task handlers only move headers; planning adds a task; a policy
    replaces its predecessor. *)

From S2P Require Import Prelude.
From S2P Require Import RustStr.
From S2P Require Import Idempotency.
From S2P Require Import Outbox.
From S2P Require Import StockTypes.
From S2P Require Import StockDb.
From S2P Require Import StockJournal.
From S2P Require Import StockInvariant.
From S2P Require Import StockMoves.
From S2P Require Import StockHistory.
From S2P Require Import WorkTasks.
From S2P Require Import Configuration.
From S2P Require Import ReplenishmentPolicy.
From S2P Require Import CycleCount.
From S2P Require Import CountPolicy.
From S2P Require Import CycleCountDb.
From S2P Require Import CycleCountWork.
From S2P Require Import CycleCountTasks.
From S2P Require Import CycleCountInvariant.

(** ** Handlers of tasks *)

Section headers.
Context (t : TaskTables) (Ht : table_ok (work_tasks t)).

Lemma expired_evolves user scope now : tasks_evolve t (release_expired_tasks_tx user scope now t).1.
Proof. apply release_where_evolves; [done|]. intros x H. unfold lease_expired in H. bool_to_prop. done. Qed.

Lemma assign_evolves can scope task user : tasks_evolve t (assign_task can scope task user t).1.
Proof.
  unfold assign_task. destruct (lookup_task t task) as [x|] eqn:Hx; [|by apply tasks_evolve_refl].
  destruct (_ && _) eqn:E; [|by apply tasks_evolve_refl]. bool_to_prop. destruct_and?.
  eapply put_task_evolves; try done. match goal with E : wt_status x = _ |- _ => by rewrite E end.
Qed.

Lemma scope_lock scope task x :
  lock_task_in_current_scope_tx t scope task = Some x → lookup_task t task = Some x.
Proof. unfold lock_task_in_current_scope_tx. destruct (lookup_task t task); [|done]. case_match; congruence. Qed.

Lemma abort_evolves scope task user : tasks_evolve t (abort_task scope task user t).1.
Proof.
  unfold abort_task. destruct (lock_task_in_current_scope_tx _ _ _) as [x|] eqn:Hx;
    [|by apply tasks_evolve_refl].
  apply scope_lock in Hx. destruct (_ && _) eqn:E; [|by apply tasks_evolve_refl]. bool_to_prop. destruct_and?.
  apply progress_evolves. eapply put_task_evolves; try done. by apply taken_live.
Qed.

Lemma cancel_evolves scope task user now : tasks_evolve t (cancel_task scope task user now t).1.
Proof.
  unfold cancel_task. destruct (lock_task_in_current_scope_tx _ _ _) as [x|] eqn:Hx;
    [|by apply tasks_evolve_refl].
  apply scope_lock in Hx. destruct (live _) eqn:E; [|by apply tasks_evolve_refl].
  apply progress_evolves. by eapply put_task_evolves.
Qed.

Lemma stale_evolves user scope now : tasks_evolve t (release_stale user scope now t).
Proof.
  unfold release_stale. eapply tasks_evolve_trans; [apply expired_evolves|].
  apply release_where_evolves; [apply expired_evolves|]. intros x H. unfold inaccessible in H.
  bool_to_prop. by destruct_and?.
Qed.
End headers.

Lemma claimed_evolves t0 t id x user now :
  tasks_evolve t0 t → lookup_task t id = Some x → live (wt_status x) = true →
  tasks_evolve t0 (record_progress id (Some user) "started" (put_task id (claimed_by user now x) t)).
Proof.
  intros He Hx Hl. apply progress_evolves. eapply tasks_evolve_trans; [done|].
  eapply put_task_evolves; try done. apply He.
Qed.

Lemma start_evolves t scope task user now t' r :
  table_ok (work_tasks t) → start_task scope task user now t = Ok (t', r) → tasks_evolve t t'.
Proof.
  intros Ht. unfold start_task. destruct (lock_task_in_current_scope_tx _ _ _); [|done].
  set (u := release_stale user scope now t). assert (Hu : tasks_evolve t u) by (by apply stale_evolves).
  destruct (has_task _ _ _); [intros [= <- <-]; by apply tasks_evolve_refl|].
  destruct (lookup_task u task) as [x|] eqn:Hx; [|intros [= <- <-]; by apply tasks_evolve_refl].
  destruct (_ && _) eqn:E; [|intros [= <- <-]; by apply tasks_evolve_refl]. intros [= <- <-].
  apply claimed_evolves; [done|done|]. bool_to_prop. destruct_and?. by destruct (wt_status x).
Qed.

Lemma head_sorted_elem {A} (cmp : A → A → comparison) l x : head (sort_by cmp l) = Some x → x ∈ l.
Proof. intros H%head_Some_elem_of. by rewrite sort_by_perm in H. Qed.

Lemma start_next_evolves t scope permissions ty user now t' r :
  table_ok (work_tasks t) → start_next_task scope permissions ty user now t = Ok (t', r) → tasks_evolve t t'.
Proof.
  intros Ht. unfold start_next_task. destruct (_ && _); [intros [= <- <-]; by apply tasks_evolve_refl|].
  set (u := release_stale user scope now t).
  assert (Hu : tasks_evolve t u) by (by apply stale_evolves). destruct (has_task _ _ _); [done|].
  destruct (head _) as [[id x]|] eqn:Hh; [|intros [= <- <-]; done]. intros [= <- <-].
  apply head_sorted_elem, elem_of_filter_bool in Hh as [Hin E]. apply elem_of_map_to_list in Hin.
  bool_to_prop. destruct_and?. apply claimed_evolves; [done|done|].
  match goal with E : wt_status x = _ |- _ => by rewrite E end.
Qed.

(** ** Claims *)

Section claims.
Context (s : Counts) (Hs : counts_ok s).

Lemma claim_next_counts scope access user released_at now statement_at s' r :
  claim_next_cycle_count_in_scope scope access user released_at now statement_at s = Ok (s', r) →
  counts_ok s' ∧ quiet s s'.
Proof.
  unfold claim_next_cycle_count_in_scope. set (u := release_stale user scope released_at (tasks s)).
  assert (Hu : tasks_evolve (tasks s) u) by (apply stale_evolves, Hs).
  destruct (has_task _ _ _); [done|].
  destruct (head _) as [[id x]|] eqn:Hh; [|intros [= <- <-]; by apply counts_tasks_quiet].
  intros H. apply rbind_ok in H as (claim & _ & [= <- <-]).
  apply head_sorted_elem, elem_of_filter_bool in Hh as [Hin E]. apply elem_of_map_to_list in Hin.
  unfold start_claim. cbn [tasks set_tasks] in *.
  apply (counts_tasks_quiet s); [done|]. apply claimed_evolves; [done|done|].
  unfold offered in E. bool_to_prop. destruct_and?.
  match goal with H : _ ∨ _ |- _ => destruct H as [[-> _]|[-> _]]; done end.
Qed.

Lemma claim_counts scope access task user released_at now statement_at s' r :
  claim_cycle_count_by_id_in_scope scope access task user released_at now statement_at s = Ok (s', r) →
  counts_ok s' ∧ quiet s s'.
Proof.
  unfold claim_cycle_count_by_id_in_scope. set (u := release_stale user scope released_at (tasks s)).
  assert (Hu : tasks_evolve (tasks s) u) by (apply stale_evolves, Hs).
  destruct (0 <? task); [|done]. destruct (has_task _ _ _); [done|].
  intros H. apply rbind_ok in H as (x & Hx & H). apply rbind_ok in H as (claim & _ & [= <- <-]).
  unfold task_is_scannable_in_scope_tx in Hx. apply rbind_ok in Hx as (y & Hy%ok_or_ok & Hx).
  apply rbind_ok in Hx as (rs & _ & Hx). destruct (_ && _); [|done]. destruct (is_allowed_by _ _ _); [|done].
  destruct (_ && _) eqn:E; [|done]. injection Hx as <-. unfold start_claim. cbn [tasks set_tasks] in *.
  apply (counts_tasks_quiet s); [done|]. apply claimed_evolves; [done|done|].
  unfold offered in E. bool_to_prop. destruct_and?.
  match goal with H : _ ∨ _ |- _ => destruct H as [[-> _]|[-> _]]; done end.
Qed.

Lemma active_claim task user scope statement_at x :
  lock_active_claim_tx s task user scope statement_at = Ok x →
  lookup_task (tasks s) task = Some x ∧ wt_status x = TaskInProgress.
Proof.
  unfold lock_active_claim_tx. intros H. apply rbind_ok in H as (y & Hy%ok_or_ok & H).
  destruct (_ && _); [|done]. destruct (is_allowed_by _ _ _); [|done]. destruct (_ && _) eqn:E; [|done].
  apply rbind_ok in H as (o & _ & H). apply rbind_ok in H as (_ & _ & H). apply rbind_ok in H as (_ & _ & [= <-]).
  split; [done|]. bool_to_prop. by destruct_and?.
Qed.

Lemma claim_put_counts task user action x x' :
  lookup_task (tasks s) task = Some x → wt_status x = TaskInProgress →
  wt_type x' = wt_type x → wt_owner x' = wt_owner x → wt_facility x' = wt_facility x →
  wt_deleted x' = wt_deleted x → wt_status x' ≠ TaskCompleted →
  let s' := set_tasks (record_progress task user action (put_task task x' (tasks s))) s in
  counts_ok s' ∧ quiet s s'.
Proof.
  intros Hx Hst ? ? ? ? ? s'. apply counts_tasks_quiet; [done|]. apply progress_evolves.
  eapply put_task_evolves; try done; [apply Hs|]. by rewrite Hst.
Qed.

Lemma heartbeat_counts scope task user statement_at now s' :
  heartbeat_cycle_count_claim_in_scope scope task user statement_at now s = Ok s' → counts_ok s' ∧ quiet s s'.
Proof.
  unfold heartbeat_cycle_count_claim_in_scope. destruct (0 <? task); [|done]. intros H.
  apply rbind_ok in H as (x & [Hx Hst]%active_claim & H). destruct (lease_beyond now x); [|done].
  injection H as <-. eapply claim_put_counts; try done. cbn. by rewrite Hst.
Qed.

Lemma release_counts scope task user reason note statement_at now s' :
  release_cycle_count_claim_in_scope scope task user reason note statement_at now s = Ok s' → counts_ok s' ∧ quiet s s'.
Proof.
  unfold release_cycle_count_claim_in_scope. destruct (0 <? task); [|done]. intros H.
  apply rbind_ok in H as (_ & _ & H). apply rbind_ok in H as (x & [Hx Hst]%active_claim & H).
  destruct (_ && _); [|done]. injection H as <-. by eapply claim_put_counts.
Qed.

Lemma other_work_evolves t : other_work (tasks s) t → tasks_evolve (tasks s) t.
Proof.
  intros (Hn & Hr & Hrows). split; [|done|].
  - split; [|done]. pose proof (ok_tasks _ _ Hs) as [? _]. lia.
  - intros id x Hx Hty. exists x. split; [by apply Hrows|]. split_and!; try done.
    by intros ?%live_completed.
Qed.
End claims.

(** ** Planning *)

Lemma create_inv s user location item balance facility owner now s' id :
  create_item_location_cycle_count_task_tx s user location item balance facility owner now = Ok (s', id) →
  (s' = s ∧ ∃ t, lookup_task (tasks s) id = Some t ∧
     counts_balance s owner facility location item balance (id, t) = true) ∨
  (∃ t, s' = set_details (<[id := MkDetail owner facility location item balance None 1]> (details s))
               (set_tasks (MkTasks (insert_row (work_tasks (tasks s)) t) (task_progress (tasks s))) s) ∧
     id = next_id (work_tasks (tasks s)) ∧ heads (MkDetail owner facility location item balance None 1) t ∧
     wt_status t = TaskOpen ∧
     detail_refers (stock s) (MkDetail owner facility location item balance None 1) = true ∧
     ∀ i x, lookup_task (tasks s) i = Some x →
       counts_balance s owner facility location item balance (i, x) = false).
Proof.
  unfold create_item_location_cycle_count_task_tx. case_bool_decide; [|done].
  destruct (head _) as [[i x]|] eqn:Hh.
  - intros [= <- <-]. left. split; [done|]. apply head_Some_elem_of, elem_of_filter_bool in Hh as [Hin E].
    apply elem_of_map_to_list in Hin. by exists x.
  - cbn zeta beta iota delta [insert_task_tx]. destruct (detail_refers _ _) eqn:Hr; [|done].
    intros [= <- <-]. right. eexists. split_and!; try done. intros i x Hx.
    apply not_true_is_false. intros E. apply head_None in Hh.
    assert (Hin : (i, x) ∈ List.filter (counts_balance s owner facility location item balance)
      (map_to_list (rows (work_tasks (tasks s))))).
    { apply elem_of_filter_bool. split; [|done]. by apply elem_of_map_to_list. }
    rewrite Hh in Hin. by apply elem_of_nil in Hin.
Qed.

Lemma refers_same st d e :
  detail_refers st d = true → detail_refers st e = true → det_balance d = det_balance e →
  det_owner d = det_owner e ∧ det_facility d = det_facility e ∧ det_location d = det_location e ∧
  det_item d = det_item e.
Proof.
  unfold detail_refers. intros Hd He E. rewrite <-E in He.
  destruct (rows (balances st) !! det_balance d); [|done]. bool_to_prop. destruct_and?. split_and!; congruence.
Qed.

Section planning.
Context (phase : Phase) (s : Counts) (Hs : counts_upto phase s).
Context (d : DetailRow) (t : WorkTask) (Hh : heads d t) (Hst : wt_status t = TaskOpen) (Hcase : det_case d = None).
Context (Hr : detail_refers (stock s) d = true).
Context (Hno : ∀ i x, lookup_task (tasks s) i = Some x →
  counts_balance s (det_owner d) (det_facility d) (det_location d) (det_item d) (det_balance d) (i, x) = false).

Let id := next_id (work_tasks (tasks s)).
Let s' := set_details (<[id := d]> (details s))
            (set_tasks (MkTasks (insert_row (work_tasks (tasks s)) t) (task_progress (tasks s))) s).

Lemma planned_fresh : details s !! id = None.
Proof.
  destruct (details s !! id) as [e|] eqn:E; [|done]. exfalso.
  destruct (detail_task _ _ _ _ Hs E) as (x & Hx & _). unfold lookup_task, id in Hx.
  by rewrite table_fresh in Hx by apply Hs.
Qed.

Lemma planned_old task e :
  details s !! task = Some e →
  task ≠ id ∧ details s' !! task = Some e ∧ lookup_task (tasks s') task = lookup_task (tasks s) task.
Proof.
  intros He. assert (task ≠ id) by (intros ->; by rewrite planned_fresh in He). split; [done|].
  unfold lookup_task, s'. cbn. rewrite !lookup_insert_ne by done. done.
Qed.

Lemma planned_live task e : details s !! task = Some e → live_task s' task ↔ live_task s task.
Proof. intros He. unfold live_task. by destruct (planned_old task e He) as (_ & _ & ->). Qed.

Lemma planned_task : live_task s' id ∧ details s' !! id = Some d.
Proof.
  unfold live_task, lookup_task, s'. cbn. fold id. rewrite !lookup_insert_eq. split; [|done].
  exists t. split; [done|]. by rewrite Hst.
Qed.

(** No other task counts the balance. *)
Lemma planned_alone j e : details s !! j = Some e → live_task s j → det_balance e ≠ det_balance d.
Proof.
  intros He (x & Hx & Hl) Hb. destruct (ok_detail _ _ Hs j e He) as [Hre (y & Hy & Hty & Ho & Hf & Hdel) _].
  assert (y = x) as -> by congruence.
  destruct (refers_same _ _ _ Hre Hr Hb) as (Eo & Ef & El & Ei).
  specialize (Hno j x Hx). unfold counts_balance in Hno. rewrite He in Hno.
  rewrite Hdel, Hl, (bool_decide_true (wt_type x = _)), !bool_decide_true in Hno by congruence.
  cbn in Hno. rewrite El, Ei, Hb, !Z.eqb_refl in Hno. done.
Qed.

Lemma planned_counts : counts_upto phase s'.
Proof.
  split; try apply Hs.
  - apply table_ok_insert, Hs.
  - intros task e He. destruct (decide (task = id)) as [->|Hne].
    + assert (e = d) as -> by (rewrite (proj2 planned_task) in He; congruence).
      split; [done| |by rewrite Hcase]. exists t. split; [|done]. unfold lookup_task. cbn. by rewrite lookup_insert_eq.
    + unfold s' in He. cbn in He. rewrite lookup_insert_ne in He by done.
      destruct (ok_detail _ _ Hs task e He) as [H1 (x & Hx & Hhx) H3].
      destruct (planned_old task e He) as (_ & _ & Hl). split; [done|exists x; by rewrite Hl|].
      intros case Hc. destruct (H3 case Hc) as (c & Hcc & Hb & Hlive). exists c. split_and!; [done|done|].
      intros ? ?%(planned_live task e He). by apply Hlive.
  - intros i j e f He Hf Hli Hlj E. unfold s' in He, Hf. cbn in He, Hf.
    apply lookup_insert_Some in He as [[<- <-]|[Hi He]]; apply lookup_insert_Some in Hf as [[<- <-]|[Hj Hf]].
    + done.
    + exfalso. apply (planned_live j f Hf) in Hlj. by eapply planned_alone.
    + exfalso. apply (planned_live i e He) in Hli. by eapply planned_alone.
    + apply (planned_live i e He) in Hli. apply (planned_live j f Hf) in Hlj.
      by apply (ok_one_live _ _ Hs i j e f).
  - intros case c Hc. destruct (ok_case _ _ Hs case c Hc) as [H1 Hrg H2 H3 H4 H5]. split; try done.
    intros Hx. specialize (H5 Hx). unfold state_ok in *. destruct (case_state c); [|done..].
    destruct H5 as [Hst' (e & He & Hec)]. destruct (planned_old _ e He) as (_ & He' & Hl).
    split; [|by exists e]. unfold task_status. by rewrite Hl.
  - intros task r Hres. destruct (ok_result _ _ Hs task r Hres) as (H1 & [e He] & H2).
    destruct (planned_old task e He) as (_ & He' & Hl). split_and!; [|by exists e|done].
    unfold task_status. by rewrite Hl.
Qed.
End planning.

(** A task of the balance is planned, or was there. *)
Lemma create_counts phase s user location item balance facility owner now s' id :
  counts_upto phase s →
  create_item_location_cycle_count_task_tx s user location item balance facility owner now = Ok (s', id) →
  counts_upto phase s' ∧ live_task s' id ∧
  (∃ d, details s' !! id = Some d ∧ det_balance d = balance ∧
     (details s !! id = None → det_case d = None) ∧ (∀ e, details s !! id = Some e → d = e)) ∧
  (∀ task d, details s !! task = Some d →
     details s' !! task = Some d ∧ lookup_task (tasks s') task = lookup_task (tasks s) task) ∧
  (∀ task d, details s' !! task = Some d → task = id ∨ details s !! task = Some d) ∧
  s' = set_tasks (tasks s') (set_details (details s') s).
Proof.
  intros Hs [(-> & t & Ht & E)|(t & -> & -> & Hh & Hst & Hr & Hno)]%create_inv.
  - unfold counts_balance in E. destruct (details s !! id) as [d|] eqn:Hd; [|by rewrite andb_false_r in E].
    bool_to_prop. destruct_and?. split_and!; [done|by exists t| | | |by destruct s]; [|done|by right].
    exists d. split_and!; [done|done|done|]. by intros e [= <-].
  - set (d := MkDetail _ _ _ _ _ _ _) in *.
    pose proof (planned_counts phase s Hs d t Hh Hst eq_refl Hr Hno) as Hok.
    pose proof (planned_task s d t Hst) as [Hlive Hdet]. split_and!; [done|done| | | |done].
    + exists d. split_and!; [done|done|done|]. intros e He. by rewrite (planned_fresh phase s Hs) in He.
    + intros task e He. by destruct (planned_old phase s Hs d t task e He) as (_ & ? & ?).
    + intros task e He. cbn in He. apply lookup_insert_Some in He as [[<- _]|[_ He]]; [by left|by right].
Qed.

(** ... and nothing else changes. *)
Lemma create_quiet s user location item balance facility owner now s' id :
  counts_ok s →
  create_item_location_cycle_count_task_tx s user location item balance facility owner now = Ok (s', id) →
  counts_ok s' ∧ quiet s s'.
Proof.
  intros Hs H. apply (create_counts Idle) in H as (H1 & _ & _ & Hold & _ & E); [|done].
  split; [done|]. split; [by rewrite E|]. intros i [d Hd] Hst. unfold task_status in *.
  by destruct (Hold i d Hd) as [_ ->].
Qed.

Lemma plan_balance_counts s caller balance now s' r :
  counts_ok s → create_inventory_balance_cycle_count_task_in_scope caller balance now s = Ok (s', r) →
  counts_ok s' ∧ quiet s s'.
Proof.
  intros Hs. unfold create_inventory_balance_cycle_count_task_in_scope. intros H.
  apply rbind_ok in H as (b & _ & H). destruct (_ && _); [|done]. destruct (is_allowed_by _ _ _); [|done].
  by eapply create_quiet.
Qed.

Lemma plan_item_counts s user scope location item order line balance now s' r :
  counts_ok s →
  create_item_location_cycle_count_task_with_scope user scope location item order line balance now s
  = Ok (s', r) → counts_ok s' ∧ quiet s s'.
Proof.
  intros Hs. unfold create_item_location_cycle_count_task_with_scope. intros H.
  apply rbind_ok in H as (_ & _ & H). apply rbind_ok in H as ([f o] & _ & H).
  destruct scope as [sc|]; [destruct (is_allowed_by _ _ sc); [|done]|];
    (by eapply create_quiet).
Qed.

(** ** Policies and what only other parts write *)

Lemma emit_count_inv s k a i o n ty body s' :
  emit_count s k a i o n ty body = Ok s' → ∃ t, s' = set_count_outbox t s.
Proof.
  unfold emit_count, map_err. destruct (enqueue _ _ _) as [t|]; [|done]. intros [= <-]. by exists t.
Qed.

Lemma counts_frame phase s pol rules l b p o :
  counts_upto phase s → policies_ok pol → count_rules_ok rules →
  counts_upto phase (MkCounts (stock s) (tasks s) (details s) pol (cases s) (results s) (decisions s)
                      rules l b p o).
Proof.
  intros Hs Hp Hr. split; try (done || apply Hs).
  - intros task d Hd. destruct (ok_detail _ _ Hs task d Hd). by split.
  - intros case c Hc. destruct (ok_case _ _ Hs case c Hc). by split.
Qed.

Lemma counts_emit phase s k a i o n ty body s' :
  emit_count s k a i o n ty body = Ok s' → counts_upto phase s → counts_upto phase s'.
Proof. intros (t & ->)%emit_count_inv Hs. apply counts_frame; [done|apply Hs..]. Qed.

Lemma close_policy_ok s id p at_ s' :
  policies_ok (count_policies s) → rows (count_policies s) !! id = Some p →
  close_policy s id p at_ = Ok s' →
  s' = set_count_policies (count_policies s') s ∧ policies_ok (count_policies s') ∧
  ∀ i q, rows (count_policies s') !! i = Some q → i ≠ id → rows (count_policies s) !! i = Some q.
Proof.
  intros [Ht Hrows Hu] Hp. unfold close_policy. destruct (policy_checks _) eqn:Hc; [|done].
  intros [= <-]. split; [done|]. cbn. split.
  - split; [by eapply table_ok_update| |].
    + intros i q. cbn. intros [[<- <-]|[_ Hq]]%lookup_insert_Some; [|by eapply Hrows].
      split; [|done]. cbn. by eapply Hrows.
    + intros i j q r. cbn. intros [[<- <-]|[_ Hq]]%lookup_insert_Some [[<- <-]|[_ Hr]]%lookup_insert_Some;
        try done. by apply Hu.
  - intros i q Hq Hne. by rewrite lookup_insert_ne in Hq.
Qed.

Lemma insert_policy_ok s p s' id :
  policies_ok (count_policies s) → tolerance_ok (cpol_tolerance p) → insert_policy s p = Ok (s', id) →
  s' = set_count_policies (count_policies s') s ∧ policies_ok (count_policies s') ∧
  count_policies s' = insert_row (count_policies s) p ∧ id = next_id (count_policies s).
Proof.
  intros [Ht Hrows Hu] Hp. unfold insert_policy. destruct (policy_checks p) eqn:Hc; [|done].
  destruct (existsb _ _) eqn:E; [done|]. intros [= <- <-]. split; [done|]. split; [|done]. cbn.
  assert (Hno : ∀ i q, rows (count_policies s) !! i = Some q → cpol_owner q = cpol_owner p →
    cpol_facility q = cpol_facility p → cpol_effective_to q ≠ None).
  { intros i q Hq Eo Ef En. apply not_true_iff_false in E. apply E, existsb_exists. exists (i, q).
    split; [by apply list_elem_of_In, elem_of_map_to_list|]. rewrite Eo, Ef, En, !Z.eqb_refl. cbn.
    by rewrite orb_true_r. }
  split; [by apply table_ok_insert| |].
  - intros i q. cbn. intros [[_ <-]|[_ Hq]]%lookup_insert_Some; [done|]. by eapply Hrows.
  - intros i j q r. cbn. intros [[<- <-]|[_ Hq]]%lookup_insert_Some [[<- <-]|[_ Hr]]%lookup_insert_Some
      Eo Ef Eq Er; try done.
    + exfalso. by eapply (Hno j r).
    + exfalso. by eapply (Hno i q).
    + by eapply Hu.
Qed.

Lemma configure_counts s tenant caller supervisor owner facility policy expected now s' r :
  counts_ok s → tolerance_ok policy →
  configure_policy_work tenant caller supervisor owner facility policy expected now s = Ok (s', r) →
  counts_ok s' ∧ quiet s s'.
Proof.
  intros Hs Hp. unfold configure_policy_work. destruct supervisor; [|done]. destruct (_ && _); [|done].
  destruct (require_active_inventory_owner_facility _ _ _); [|done]. intros H.
  set (pre := head _) in H. apply rbind_ok in H as (_ & _ & H). apply rbind_ok in H as (s1 & H1 & H).
  apply rbind_ok in H as (rev & _ & H). apply rbind_ok in H as ([s2 id] & H2 & H).
  apply rbind_ok in H as (s3 & (o & ->)%emit_count_inv & [= <- <-]).
  assert (Hs1 : ∃ pol, s1 = set_count_policies pol s ∧ policies_ok pol).
  { destruct pre as [[i q]|] eqn:Hh.
    - apply head_Some_elem_of, elem_of_filter_bool in Hh as [Hin _]. apply elem_of_map_to_list in Hin.
      apply (close_policy_ok s i q now) in H1 as (E & ? & _); [by eexists|apply Hs|done].
    - injection H1 as <-. exists (count_policies s). split; [by destruct s|apply Hs]. }
  destruct Hs1 as (pol & -> & Hok). apply insert_policy_ok in H2 as (E & Hok2 & _); [|done|done].
  rewrite E. split; [|split; [done|by intros i]]. apply (counts_frame Idle s); [done|done|apply Hs].
Qed.
