(* ===== verification/CycleCountPosting.v ===== *)
(** * Cycle counts: posting a variance

    The adjustment of a count: one journal transaction with one entry, after which the
    balance holds the counted quantity. *)

From S2P Require Import Prelude.
From S2P Require Import RustStr.
From S2P Require Import Idempotency.
From S2P Require Import Outbox.
From S2P Require Import StockTypes.
From S2P Require Import StockDb.
From S2P Require Import StockJournal.
From S2P Require Import StockInvariant.
From S2P Require Import StockFacts.
From S2P Require Import StockPosting.
From S2P Require Import StockMoves.
From S2P Require Import StockTotals.
From S2P Require Import StockHistory.
From S2P Require Import WorkTasks.
From S2P Require Import CycleCount.
From S2P Require Import CountPolicy.
From S2P Require Import CycleCountDb.
From S2P Require Import CycleCountWork.

(** The stock after the adjustment of the balance [id], before and after the commit. *)
Record adjustment (st : Stock) (id : Z) (b : BalanceRow) (counted : Z) (row : TransactionRow)
    (st' : Stock) : Prop := {
  adjustment_balances : balances st' = update_row (balances st) id (with_on_hand counted b);
  adjustment_transactions : transactions st' = insert_row (transactions st) row;
  adjustment_entries : entries st' = entries st ++
    [MkEntry (opened st) (position b) (trace_at st (position b)) (counted - qty_on_hand b)];
  adjustment_batches : batches st' = batches st;
  adjustment_directory : directory st' = directory st;
}.

Lemma emit_rows s k a i o n ty body s' :
  emit s k a i o n ty body = Ok s' → ∃ t, s' = set_outbox t s.
Proof. intros (t & -> & _)%emit_inv. by exists t. Qed.

Section post.
Context (g : bool) (st : Stock) (Hst : settled st).
Context (caller : Caller) (reason reference : string) (reference_id : Z) (operation : rstr).
Context (id : Z) (b : BalanceRow) (variance counted : Z) (where_ : BalanceRow → bool) (why : string).
Context (Hb : rows (balances st) !! id = Some b) (Hlive : balance_deleted b = false).
Context (Hvar : variance = counted - qty_on_hand b).
Context (Hqty : qty_reserved b + qty_held b ≤ counted ≤ i64_max).

Let p := position b.
Let owner := StockTypes.inventory_owner_id p.
Let facility := StockTypes.facility_id p.

(** The journal row of the adjustment. *)
Definition adjust_row : TransactionRow :=
  MkTransaction owner (actor caller) Adjust (Some (lit reason)) (Some (lit reference))
    (Some reference_id) (Some (request_id caller)) operation (Some (command_key caller))
    (command_hash caller).

Lemma post_variance_run st' txn :
  post_variance g st caller owner facility reason reference reference_id operation id p variance
    counted where_ why = Ok (st', txn) →
  txn = opened st ∧ where_ b = true ∧ variance ≠ 0 ∧ adjustment st id b counted adjust_row st' ∧
  journal_context st' = Some txn ∧
  commit_stock g st' = Ok (set_context None st') ∧ settled (set_context None st').
Proof.
  unfold post_variance. intros H. apply rbind_ok in H as (sc & (-> & _)%owner_facility_scope_ok & H).
  apply rbind_ok in H as ([s1 txn1] & Hbeg & H). apply rbind_ok in H as (s2 & Happ & H).
  apply rbind_ok in H as ([s3 n] & Hset & H). destruct (n =? 1)%nat eqn:Hn; [|done].
  injection H as -> ->. fold adjust_row in Hbeg.
  destruct (posting_begin st (owner, facility) adjust_row s1 txn Hst eq_refl Hbeg)
    as (_ & -> & Eb1 & P1).
  assert (Hm : inventory_row_matches_batch st p = true).
  { apply (shelf_batch st (wf_shelf st (settled_wf st Hst)) id b Hb). }
  assert (Hv0 : variance ≠ 0).
  { intros E. unfold append_entry in Happ. cbn [je_quantity_delta] in Happ. by rewrite E in Happ. }
  assert (Ep : p = MkPosition (txn_owner adjust_row) facility (StockTypes.location_id p)
    (license_plate_id p) (StockTypes.item_batch_id p) (StockTypes.item_id p) (StockTypes.uom p) (status p)).
  { unfold adjust_row, facility, owner, p. cbn. clear. by case (position b). }
  set (e := MkJournalEntry _ _ _ _ variance) in Happ.
  destruct (posting_append g st adjust_row s1 _ [] [] facility e s2 p P1 Happ Hm Ep) as [P2 Eb2].
  cbn [app] in P2.
  assert (Hb2 : rows (balances s2) !! id = Some b) by (by rewrite Eb2, Eb1).
  unfold set_on_hand_where in Hset. rewrite Hb2 in Hset. destruct (where_ b); [|by injection Hset as <- <-].
  apply rbind_ok in Hset as (s3 & Hw & [= -> <-]). rewrite <-Hb2 in Hw at 1.
  assert (F : fits s2 id (with_on_hand counted b)).
  { apply (fits_row s2 id b counted); [apply P2|done|done|congruence]. }
  rewrite (write_fits g s2 id) in Hw by (done || apply P2).
  assert (Heff : effective (with_on_hand counted b) =
    from_option effective 0 (rows (balances s2) !! id) + variance).
  { rewrite Hb2. unfold effective. cbn. rewrite Hlive. lia. }
  apply (write_balance_effect s2 id _ _ st' variance) in Hw as (txn & Ht & _ & ->); try done; [|apply P2].
  rewrite (posting_open _ _ _ _ _ _ P2) in Ht. injection Ht as <-.
  assert (P3 := posting_put st adjust_row s2 _ _ [] id (with_on_hand counted b)
    (update_row (balances s2) id (with_on_hand counted b)) variance P2 F).
  cbn [app] in P3. specialize (P3 ltac:(eapply table_ok_update; [apply P2|done]) eq_refl eq_refl Heff).
  destruct (posting_commit g _ _ _ _ _ _ P3) as [Hc Hset]; try done.
  { by apply (posting_no_audit P3); [apply Hst|]. }
  split_and!; try done; [|apply P3].
  unfold begin_transaction in Hbeg. case_bool_decide; [done|]. apply rbind_ok in Hbeg as (_ & _ & Hbeg).
  destruct (journal_context st); [done|]. apply rbind_ok in Hbeg as (s0 & (t & ->)%emit_rows & [= <-]).
  apply (append_inv _ _ _ _ _ _ p) in Happ as ->; [|done|done].
  split; cbn [put balances set_changes set_balances entries transactions batches directory
    set_entries set_outbox set_context set_transactions]; try done.
  unfold e. cbn [je_quantity_delta]. by rewrite Hvar.
Qed.
End post.

(** *** What an adjustment does to the totals *)

Section totals.
Context (st st' : Stock) (id : Z) (b : BalanceRow) (counted : Z) (row : TransactionRow).
Context (Hst : settled st) (Hb : rows (balances st) !! id = Some b) (Hrow : txn_type row = Adjust).
Context (Ha : adjustment st id b counted row st').

Lemma adjustment_positions i c :
  rows (balances st) !! i = Some c → ∃ c', rows (balances st') !! i = Some c' ∧ position c' = position c.
Proof.
  intros Hc. rewrite (adjustment_balances _ _ _ _ _ _ Ha). cbn. destruct (decide (i = id)) as [->|Hne].
  - rewrite lookup_insert_eq. eexists. split; [done|]. cbn. congruence.
  - rewrite lookup_insert_ne by done. by exists c.
Qed.

(** The stock of the batch is adjusted by the variance. *)
Lemma adjusted_by batch :
  adjusted st' batch = adjusted st batch +
    (if StockTypes.item_batch_id (position b) =? batch then counted - qty_on_hand b else 0).
Proof.
  unfold adjusted, journalled. rewrite (adjustment_entries _ _ _ _ _ _ Ha), List.filter_app, fmap_app, zsum_app.
  f_equal.
  - rewrite !zsum_where. apply zsum_ext. intros e He.
    apply (entries_in_journal st (wf_journal st (settled_wf st Hst))), in_journal_iff in He as (t & Ht & _).
    unfold has_type. rewrite (adjustment_transactions _ _ _ _ _ _ Ha). cbn.
    rewrite lookup_insert_ne, Ht; [done|]. intros E. rewrite <-E in Ht.
    rewrite table_fresh in Ht; [done|]. apply (transaction_table st), Hst.
  - assert (Ht : has_type (fun ty => bool_decide (ty = Adjust)) st' (opened st) = true).
    { unfold has_type. rewrite (adjustment_transactions _ _ _ _ _ _ Ha). unfold opened. cbn.
      by rewrite lookup_insert_eq, Hrow. }
    cbn [List.filter entry_transaction]. rewrite Ht. cbn [fmap list_fmap]. rewrite zsum_cons.
    change (zsum []) with 0. unfold batch_delta. cbn [entry_position quantity_delta].
    destruct (_ =? _); lia.
Qed.
End totals.
