(* ===== verification/CycleCountCases.v ===== *)
(** * Cycle counts: the life of a variance case

    Opening a case, recording the result of a count, and bringing the row of the case up to
    date, with a further task where it is to be counted again. *)

From S2P Require Import Prelude.
From S2P Require Import RustStr.
From S2P Require Import Idempotency.
From S2P Require Import Outbox.
From S2P Require Import StockTypes.
From S2P Require Import StockDb.
From S2P Require Import StockJournal.
From S2P Require Import StockInvariant.
From S2P Require Import StockMoves.
From S2P Require Import WorkTasks.
From S2P Require Import Configuration.
From S2P Require Import ReplenishmentPolicy.
From S2P Require Import CycleCount.
From S2P Require Import CountPolicy.
From S2P Require Import CycleCountDb.
From S2P Require Import CycleCountWork.
From S2P Require Import CycleCountTasks.
From S2P Require Import CycleCountInvariant.
From S2P Require Import CycleCountFacts.

Lemma counts_weaken phase phase' s :
  counts_upto phase s → (phase' = Idle → journal_context (stock s) = None) →
  (∀ k, exempt phase k → exempt phase' k) → (∀ k, pending phase' k = pending phase k) →
  counts_upto phase' s.
Proof.
  intros Hs Hc Hx Hp. split; try (done || apply Hs).
  - intros task d Hd. destruct (ok_detail _ _ Hs task d Hd) as [H1 H2 H3]. split; [done..|].
    intros case Hcase. destruct (H3 case Hcase) as (c & ? & ? & Hl). exists c. split_and!; try done.
    intros Hne. apply Hl. intros ?. by apply Hne, Hx.
  - intros case c Hcase. destruct (ok_case _ _ Hs case c Hcase) as [H1 H2 H3 H4 H5 H6].
    split; try done; [by rewrite Hp|]. intros Hne. apply H6. intros ?. by apply Hne, Hx.
Qed.

Lemma counts_working s case : counts_ok s → counts_upto (Working (Some (case, 0))) s.
Proof.
  intros Hs. eapply counts_weaken; [done..|]. intros k. cbn. by destruct (_ =? _).
Qed.

(** The end of a handler: the journal transaction is closed. *)
Lemma counts_finished s :
  counts_upto (Working None) s → counts_ok (set_stock (set_context None (stock s)) s).
Proof.
  intros Hs. apply (counts_weaken (Working None)); [|done..].
  apply counts_stock_upto; [done|apply (ok_stock _ _ Hs)|done|]. intros i b Hb. by exists b.
Qed.

Lemma insert_row_old {A} (t : Table A) x i y :
  table_ok t → rows t !! i = Some y → i ≠ next_id t ∧ rows (insert_row t x) !! i = Some y.
Proof.
  intros Ht Hy. assert (i ≠ next_id t) by (intros ->; by rewrite table_fresh in Hy).
  split; [done|]. cbn. by rewrite lookup_insert_ne.
Qed.

(** A case that no result names yet. *)
Lemma no_recounts s case :
  (∀ task r, results s !! task = Some r → res_case r ≠ Some case) → recounts s case = 0.
Proof.
  intros H. unfold recounts, sum_rows. apply zsum_zero. intros [task r] Hin%elem_of_map_to_list. cbn.
  unfold recount_of. by rewrite bool_decide_false by (by eapply H).
Qed.

(** ** A new case *)

Section opening.
Context (s : Counts) (Hs : counts_ok s) (task : Z) (d : DetailRow) (c : CaseRow).
Context (Hd : details s !! task = Some d) (Hnone : det_case d = None).
Context (Hbal : ct_balance (case_stock c) = det_balance d).
Context (Hpos : ∃ b, rows (balances (stock s)) !! det_balance d = Some b ∧
  position b = ct_position (case_stock c)).
Context (Hchecks : case_checks c = true) (Hrange : cf_counted (case_facts c) ≤ i64_max).
Context (Hused : case_used c = 0).
Context (Hlimit : 0 ≤ automatic_recount_limit (snap_policy (case_policy c)) ≤ MAX_CYCLE_COUNT_RECOUNTS).
Context (Hfree : existsb (fun '(_, o) => open_case o && bool_decide (case_key o = case_key c))
  (map_to_list (rows (cases s))) = false).

Let case := next_id (cases s).
Let s' := set_details (<[task := with_case case (det_attempt d) d]> (details s))
            (set_cases (insert_row (cases s) c) s).

Lemma opened_lookup k o : rows (cases s) !! k = Some o → k ≠ case ∧ rows (cases s') !! k = Some o.
Proof. apply insert_row_old, Hs. Qed.

Lemma opened_detail i e : details s' !! i = Some e →
  (i = task ∧ e = with_case case (det_attempt d) d) ∨ (i ≠ task ∧ details s !! i = Some e).
Proof. unfold s'. cbn. intros [[<- <-]|[? ?]]%lookup_insert_Some; naive_solver. Qed.

Lemma opened_balance i e : details s' !! i = Some e →
  ∃ e0, details s !! i = Some e0 ∧ det_balance e = det_balance e0.
Proof.
  intros [[-> ->]|[_ He]]%opened_detail; [by exists d|by exists e].
Qed.

(** No case of the balance is open. *)
Lemma opened_alone k o :
  rows (cases s) !! k = Some o → open_case o = true → ct_balance (case_stock o) ≠ ct_balance (case_stock c).
Proof.
  intros Ho Hop Eb. apply not_true_iff_false in Hfree. apply Hfree, existsb_exists. exists (k, o).
  split; [by apply list_elem_of_In, elem_of_map_to_list|]. rewrite Hop. apply bool_decide_eq_true_2.
  destruct (case_balance _ _ _ _ (ok_case _ _ Hs k o Ho)) as (b & Hb & Ep).
  destruct Hpos as (b' & Hb' & Ep'). unfold case_key.
  assert (b' = b) as -> by congruence. rewrite <-Ep, <-Ep', Eb. done.
Qed.

Lemma opening_counts : counts_upto (Working (Some (case, 0))) s'.
Proof.
  split; try (done || apply Hs).
  - apply table_ok_insert, Hs.
  - intros i e He. apply opened_detail in He as [[-> ->]|[Hne He]].
    + destruct (ok_detail _ _ Hs task d Hd) as [H1 H2 _]. split; [done|done|].
      intros k [= <-]. exists c. unfold s'. cbn. fold case. rewrite lookup_insert_eq.
      split_and!; [done|done|]. by intros [].
    + destruct (ok_detail _ _ Hs i e He) as [H1 H2 H3]. split; [done|done|].
      intros k Hk. destruct (H3 k Hk) as (o & Ho & Eb & Hl). destruct (opened_lookup k o Ho) as [_ Ho'].
      exists o. split_and!; [done|done|]. intros _. apply Hl. by intros [].
  - intros i j e f (e0 & He & Ee)%opened_balance (f0 & Hf & Ef)%opened_balance Hli Hlj E.
    apply (ok_one_live _ _ Hs i j e0 f0); try done. congruence.
  - intros k o. unfold s' at 1. cbn. intros [[<- <-]|[Hne Ho]]%lookup_insert_Some.
    + split; [done|done| |lia| |].
      * rewrite Hbal. destruct Hpos as (b & Hb & Ep). by exists b.
      * cbn. fold case. rewrite Z.eqb_refl, Hused. symmetry. apply no_recounts. intros i r Hr E.
        destruct (ok_result _ _ Hs i r Hr) as (_ & _ & Hcase). apply Hcase in E as [o Ho].
        by destruct (opened_lookup _ _ Ho).
      * by intros [].
    + destruct (ok_case _ _ Hs k o Ho) as [H1 H2 H3 H4 H5 H6]. split; try done.
      * cbn. fold case. rewrite (proj2 (Z.eqb_neq case k)) by done. exact H5.
      * intros _. specialize (H6 (fun x => x)). unfold state_ok in *. destruct (case_state o); [|done..].
        destruct H6 as [Hst (e & He & Ec & Ea)]. split; [done|]. exists e. split_and!; try done.
        unfold s'. cbn. rewrite lookup_insert_ne; [done|]. intros E. rewrite <-E in He. congruence.
  - intros i j o q. unfold s'. cbn.
    intros [[<- <-]|[Hi Ho]]%lookup_insert_Some [[<- <-]|[Hj Hq]]%lookup_insert_Some Hoo Hoq E; try done.
    + exfalso. by apply (opened_alone j q).
    + exfalso. by apply (opened_alone i o).
    + by apply (ok_one_case _ _ Hs i j o q).
  - intros i r Hr. destruct (ok_result _ _ Hs i r Hr) as (H1 & [e He] & H2). split_and!; [done| |].
    + unfold s'. cbn. destruct (decide (i = task)) as [->|Hne]; [by rewrite lookup_insert_eq; eexists|].
      rewrite lookup_insert_ne by done. by exists e.
    + intros k Hk. apply H2 in Hk as [o Ho]. destruct (opened_lookup k o Ho) as [_ Ho']. by exists o.
  - intros i e He Happ. destruct (ok_approved _ _ Hs i e He Happ) as (o & Ho & Hop).
    destruct (opened_lookup _ _ Ho) as [_ Ho']. by exists o.
Qed.

Lemma opening_approved batch : approved s' batch = approved s batch.
Proof.
  unfold approved, sum_rows. apply zsum_ext. intros [i e] He%elem_of_map_to_list.
  unfold approved_variance. destruct (cd_decision (dec_details e)) eqn:Ed; [|done].
  destruct (ok_approved _ _ Hs i e He Ed) as (o & Ho & _). by rewrite Ho, (proj2 (opened_lookup _ _ Ho)).
Qed.
End opening.

(** ** The result of a count *)

Section recording.
Context (k : option (Z * Z)) (s : Counts) (Hs : counts_upto (Working k) s).
Context (task : Z) (d : DetailRow) (t t' : WorkTask) (row : ResultRow).
Context (Hd : details s !! task = Some d) (Ht : lookup_task (tasks s) task = Some t).
Context (Hlive : live (wt_status t) = true) (Hnew : results s !! task = None).
Context (Hh : heads d t') (Hdone : wt_status t' = TaskCompleted).
Context (Hlink : det_case d = fst <$> k) (Hrow : res_case row = fst <$> k).
Context (Hzero : ∀ case n, k = Some (case, n) → n = 0).

Let k' := (fun x => (x.1, recount_of x.1 row)) <$> k.
Let s' := set_results (<[task := row]> (results s)) (set_tasks (put_task task t' (tasks s)) s).

Lemma recorded_lookup i : i ≠ task → lookup_task (tasks s') i = lookup_task (tasks s) i.
Proof. intros Hne. unfold lookup_task, s'. cbn. by rewrite lookup_insert_ne. Qed.

Lemma recorded_task : lookup_task (tasks s') task = Some t'.
Proof. unfold lookup_task, s'. cbn. apply lookup_insert_eq. Qed.

Lemma recorded_live i : live_task s' i → i ≠ task ∧ live_task s i.
Proof.
  intros (x & Hx & Hl). destruct (decide (i = task)) as [->|Hne].
  - rewrite recorded_task in Hx. injection Hx as <-. by rewrite Hdone in Hl.
  - split; [done|]. exists x. by rewrite <-recorded_lookup.
Qed.

Lemma recorded_recounts case : recounts s' case = recounts s case + recount_of case row.
Proof. unfold recounts, s'. cbn. rewrite sum_rows_insert_new by done. lia. Qed.

Lemma recorded_counted batch : counted s' batch = counted s batch + posted_variance batch row.
Proof. unfold counted, s'. cbn. rewrite sum_rows_insert_new by done. lia. Qed.

Lemma recorded_exempt case : exempt (Working k') case ↔ exempt (Working k) case.
Proof. unfold k'. by destruct k as [[]|]. Qed.

Lemma recorded_pending case :
  pending (Working k') case = pending (Working k) case + recount_of case row.
Proof.
  unfold k'. destruct k as [[c n]|] eqn:E; cbn in *.
  - rewrite (Hzero c n eq_refl). destruct (Z.eqb_spec c case) as [->|Hne]; [lia|].
    unfold recount_of. rewrite bool_decide_false; [done|]. rewrite Hrow. congruence.
  - unfold recount_of. rewrite bool_decide_false; [done|]. by rewrite Hrow.
Qed.

Lemma recording_counts : counts_upto (Working k') s'.
Proof.
  split; try (done || apply Hs).
  - eapply table_ok_update; [apply Hs|exact Ht].
  - intros i e He. destruct (ok_detail _ _ Hs i e He) as [H1 (x & Hx & Hhx) H3]. split; [done| |].
    + destruct (decide (i = task)) as [->|Hne].
      * exists t'. split; [exact recorded_task|].
        assert (e = d) as -> by (unfold s' in He; cbn in He; congruence). done.
      * exists x. split; [|done]. by etrans; [apply recorded_lookup|].
    + intros c Hc. destruct (H3 c Hc) as (o & Ho & Eb & Hl). exists o. split_and!; [done..|].
      intros Hx' [_ Hli]%recorded_live. apply Hl; [|done]. by rewrite recorded_exempt in Hx'.
  - intros i j e f He Hf [_ Hli]%recorded_live [_ Hlj]%recorded_live. by apply (ok_one_live _ _ Hs i j e f).
  - intros c o Ho. destruct (ok_case _ _ Hs c o Ho) as [H1 H2 H3 H4 H5 H6]. split; try done.
    + rewrite recorded_pending, recorded_recounts. lia.
    + rewrite recorded_exempt. intros Hx. specialize (H6 Hx). unfold state_ok in *.
      destruct (case_state o); [|done..]. destruct H6 as [Hst (e & He & Ec & Ea)].
      split; [|by exists e]. unfold task_status. rewrite recorded_lookup; [done|]. intros E.
      apply Hx. assert (e = d) as -> by congruence. rewrite Hlink in Ec.
      destruct k as [[c' n]|]; [|done]. by injection Ec.
  - intros i r Hr. change (results s') with (<[task := row]> (results s)) in Hr.
    apply lookup_insert_Some in Hr as [[<- <-]|[Hne Hr]].
    + split_and!; [by unfold task_status; rewrite recorded_task, <-Hdone|by exists d|].
      intros c Hc. destruct (ok_detail _ _ Hs task d Hd) as [_ _ H3].
      destruct (H3 c) as (o & Ho & _); [congruence|]. by exists o.
    + destruct (ok_result _ _ Hs i r Hr) as (H1 & H2 & H3). split_and!; [|done|done].
      unfold task_status. by rewrite recorded_lookup.
Qed.
End recording.

(** ** The row of the case *)

Section resolving.
Context (phase phase' : Phase) (s : Counts) (Hs : counts_upto phase s) (case : Z) (c c' : CaseRow).
Context (Hphase : ∀ k, exempt phase k → k = case) (Hpend : ∀ k, k ≠ case → pending phase k = 0).
Context (Hfree : ∀ k, ¬ exempt phase' k) (Hnone : ∀ k, pending phase' k = 0).
Context (Hctx : phase' = Idle → journal_context (stock s) = None).
Context (Hc : rows (cases s) !! case = Some c) (Hopen : open_case c = true).
Context (Hstock : case_stock c' = case_stock c) (Hpolicy : case_policy c' = case_policy c).
Context (Hchecks : case_checks c' = true) (Hrange : cf_counted (case_facts c') ≤ i64_max).
Context (Hlimit : case_used c' ≤ automatic_recount_limit (snap_policy (case_policy c))).
Context (Hused : case_used c' = recounts s case).
Context (ds : gmap Z DetailRow).
(** a detail is as it was, or is that of the task that counts the balance again *)
Context (Hds : ∀ i e', ds !! i = Some e' →
  (details s !! i = Some e' ∧ (det_case e' = Some case → ¬ live_task s i)) ∨
  (∃ e, details s !! i = Some e ∧ det_case e = None ∧ e' = with_case case (case_attempt c') e ∧
     det_balance e = ct_balance (case_stock c) ∧ case_state c' = AwaitingRecount ∧ case_task c' = i)).
Context (Hkeep : ∀ i e, details s !! i = Some e → is_Some (ds !! i) ∧ (det_case e ≠ None → ds !! i = Some e)).
Context (Hstate : match case_state c' with
  | AwaitingRecount => live_task s (case_task c') ∧
      ∃ e, ds !! case_task c' = Some e ∧ det_case e = Some case ∧ det_attempt e = case_attempt c'
  | AwaitingApproval => case_allowed c' < Z.abs (cf_variance (case_facts c'))
  | VariancePosted => True
  end).

Let s' := set_cases (update_row (cases s) case c') (set_details ds s).

Lemma resolved_other k : k ≠ case → rows (cases s') !! k = rows (cases s) !! k.
Proof. intros Hne. unfold s'. cbn. by rewrite lookup_insert_ne. Qed.

Lemma resolved_case : rows (cases s') !! case = Some c'.
Proof. unfold s'. cbn. apply lookup_insert_eq. Qed.

Lemma resolved_old i e' : ds !! i = Some e' →
  ∃ e, details s !! i = Some e ∧ det_balance e' = det_balance e ∧
    (∀ st, detail_refers st e' = detail_refers st e) ∧ (∀ t, heads e' t ↔ heads e t).
Proof.
  intros [[He _]|(e & He & _ & -> & _)]%Hds; [by exists e'|by exists e].
Qed.

Lemma resolving_counts : counts_upto phase' s'.
Proof.
  split; try (done || apply Hs).
  - eapply table_ok_update; [apply Hs|done].
  - intros i e' He'. change (details s') with ds in He'.
    destruct (resolved_old i e' He') as (e & He & Eb & Hre & Hhe).
    destruct (ok_detail _ _ Hs i e He) as [H1 (t & Ht & Hh) H3].
    split; [by rewrite Hre|exists t; by rewrite Hhe|].
    intros k Hk. destruct (Hds i e' He') as [[He2 Hdead]|(e2 & He2 & _ & -> & Eb2 & Est & Etask)].
    + assert (e' = e) as -> by congruence. destruct (H3 k Hk) as (o & Ho & Ebo & Hl).
      destruct (decide (k = case)) as [->|Hne].
      * exists c'. rewrite resolved_case, Hstock. assert (o = c) as -> by congruence.
        split_and!; [done|done|]. intros _ Hlive. exfalso. by apply Hdead.
      * exists o. rewrite resolved_other by done. split_and!; [done|done|]. intros _ Hlive.
        apply Hl; [|done]. intros Hx. by apply Hne, Hphase.
    + cbn in Hk. injection Hk as <-. exists c'. rewrite resolved_case, Hstock. split_and!; [done|done|].
      intros _ _. done.
  - intros i j e f He Hf Hli Hlj E. change (details s') with ds in He, Hf.
    destruct (resolved_old i e He) as (e0 & He0 & Ee & _). destruct (resolved_old j f Hf) as (f0 & Hf0 & Ef & _).
    apply (ok_one_live _ _ Hs i j e0 f0); try done. congruence.
  - intros k o Ho. destruct (decide (k = case)) as [->|Hne].
    + rewrite resolved_case in Ho. injection Ho as <-.
      destruct (ok_case _ _ Hs case c Hc) as [H1 H2 H3 H4 H5 H6]. split; try done.
      * by rewrite Hstock.
      * rewrite Hpolicy. lia.
      * rewrite Hnone, Hused. apply Z.add_0_r.
      * intros _. unfold state_ok. destruct (case_state c'); [|done..].
        destruct Hstate as [(t & Ht & Hl) He]. split; [|done]. unfold task_status.
        change (tasks s') with (tasks s). rewrite Ht. intros [= E]. by rewrite E in Hl.
    + rewrite resolved_other in Ho by done. destruct (ok_case _ _ Hs k o Ho) as [H1 H2 H3 H4 H5 H6].
      split; try done.
      * rewrite Hnone. rewrite Hpend in H5 by done. exact H5.
      * intros _. specialize (H6 (fun x => Hne (Hphase k x))). unfold state_ok in *.
        destruct (case_state o); [|done..]. destruct H6 as [Hst (e & He & Ec & Ea)]. split; [done|].
        exists e. split_and!; try done. apply (Hkeep _ _ He). congruence.
  - intros i j o q Ho Hq Hoo Hoq E.
    assert (Hold : ∀ k x, rows (cases s') !! k = Some x → open_case x = true →
      ∃ y, rows (cases s) !! k = Some y ∧ open_case y = true ∧ case_stock y = case_stock x).
    { intros k x Hx Hox. destruct (decide (k = case)) as [->|Hne].
      - rewrite resolved_case in Hx. injection Hx as <-. by exists c.
      - rewrite resolved_other in Hx by done. by exists x. }
    destruct (Hold i o Ho Hoo) as (o' & Ho' & Hoo' & Eo). destruct (Hold j q Hq Hoq) as (q' & Hq' & Hoq' & Eq).
    apply (ok_one_case _ _ Hs i j o' q'); try done. congruence.
  - intros i r Hr. destruct (ok_result _ _ Hs i r Hr) as (H1 & [e He] & H2). split_and!; [done| |].
    + by apply (Hkeep i e).
    + intros k Hk. apply H2 in Hk as [o Ho]. destruct (decide (k = case)) as [->|Hne].
      * rewrite resolved_case. by eexists.
      * rewrite resolved_other by done. by exists o.
  - intros i e He Happ. destruct (ok_approved _ _ Hs i e He Happ) as (o & Ho & Hop). exists o.
    rewrite resolved_other; [done|]. intros E. rewrite E in Ho. congruence.
Qed.

Lemma resolving_approved batch : approved s' batch = approved s batch.
Proof.
  unfold approved, sum_rows. apply zsum_ext. intros [i e] He%elem_of_map_to_list.
  unfold approved_variance. destruct (cd_decision (dec_details e)) eqn:Ed; [|done].
  destruct (ok_approved _ _ Hs i e He Ed) as (o & Ho & Hop). rewrite resolved_other; [done|].
  intros E. rewrite E in Ho. congruence.
Qed.
End resolving.
