(* ===== verification/CycleCountConfirm.v ===== *)
(** * Cycle counts: a confirmation keeps the invariant

    The phases of [confirm_work]: the locks, the control that decides what happens to the
    variance, the adjustment and the result, and the row of the variance case. *)

From S2P Require Import Prelude.
From S2P Require Import RustStr.
From S2P Require Import Idempotency.
From S2P Require Import Outbox.
From S2P Require Import StockTypes.
From S2P Require Import StockDb.
From S2P Require Import StockJournal.
From S2P Require Import StockInvariant.
From S2P Require Import StockFacts.
From S2P Require Import StockMoves.
From S2P Require Import StockTotals.
From S2P Require Import WorkTasks.
From S2P Require Import Configuration.
From S2P Require Import ReplenishmentPolicy.
From S2P Require Import CycleCount.
From S2P Require Import CountPolicy.
From S2P Require Import CycleCountDb.
From S2P Require Import CycleCountWork.
From S2P Require Import CycleCountTasks.
From S2P Require Import CycleCountPosting.
From S2P Require Import CycleCountInvariant.
From S2P Require Import CycleCountFacts.
From S2P Require Import CycleCountCases.

(** The next check of a successful run passed. *)
Ltac passed H E :=
  match type of H with (if ?b then _ else _) = _ => destruct b eqn:E; [|discriminate H] end.

(** ** The locks *)

(** A claimed task, its balance and what the count says about it. *)
Record locked_count (s : Counts) (caller : Caller) (task quantity : Z) (t : WorkTask) (d : DetailRow)
    (b : BalanceRow) : Prop := {
  locked_task : lookup_task (tasks s) task = Some t;
  locked_detail : details s !! task = Some d;
  locked_status : wt_status t = TaskInProgress;
  locked_actor : wt_assigned t = Some (actor caller);
  locked_balance : rows (balances (stock s)) !! det_balance d = Some b;
  locked_live : balance_deleted b = false;
  locked_owner : StockTypes.inventory_owner_id (position b) = det_owner d;
  locked_facility : StockTypes.facility_id (position b) = det_facility d;
  locked_committed : qty_reserved b + qty_held b ≤ quantity;
}.

Definition target_of (d : DetailRow) : CountTarget :=
  MkTarget (det_owner d) (det_facility d) (det_location d) (det_item d) (det_balance d) (det_case d)
    (det_attempt d).

Lemma lock_count_inv s caller task quantity scans clock target b trace variance :
  lock_count s caller task quantity scans clock = Ok (target, b, trace, variance) →
  ∃ t d, locked_count s caller task quantity t d b ∧ target = target_of d ∧
    variance = quantity - qty_on_hand b ∧ Z.abs variance ≤ i64_max + 1.
Proof.
  unfold lock_count. intros H. apply rbind_ok in H as (tgt & Ht & H).
  apply rbind_ok in H as (plate & _ & H). apply rbind_ok in H as (_ & _ & H).
  apply rbind_ok in H as ([b1 tr] & Hb & H). apply rbind_ok in H as (_ & _ & H).
  apply rbind_ok in H as (committed & Hc%ok_or_ok & H). destruct (quantity <? committed) eqn:Hq; [done|].
  apply rbind_ok in H as (v & Hv%ok_or_ok & [= <- <- <- <-]).
  unfold lock_task_target in Ht. destruct (lookup_task (tasks s) task) as [t|] eqn:Et; [|done].
  destruct (details s !! task) as [d|] eqn:Ed; [|done]. passed Ht Hty. passed Ht Hal. passed Ht Hcl.
  injection Ht as <-.
  unfold lock_count_balance in Hb. apply rbind_ok in Hb as (b2 & Hb2%ok_or_ok & Hb).
  passed Hb Hdel. apply rbind_ok in Hb as (batch & _ & Hb). passed Hb Hbat. passed Hb Hm.
  injection Hb as <- <-.
  apply checked_Some in Hc as [-> Hcr]. apply checked_Some in Hv as [-> Hvr]. bool_to_prop. destruct_and?.
  exists t, d. split_and!; [|done|done|range_lia]. cbn in *. split; try done; lia.
Qed.

(** ** The control *)

(** The case that a confirmation works on. *)
Record controls (s : Counts) (task : Z) (d : DetailRow) (variance : Z) (control : PreparedCountControl)
    (case : Z) (c : CaseRow) : Prop := {
  ctl_case : rows (cases s) !! case = Some c;
  ctl_open : open_case c = true;
  ctl_balance : ct_balance (case_stock c) = det_balance d;
  ctl_detail : ∃ d1, details s !! task = Some d1 ∧ det_case d1 = Some case ∧ ∀ t, heads d1 t ↔ heads d t;
  ctl_used : pc_used control = case_used c;
  ctl_recount : pc_disposition control = RecountRequired →
    case_used c < automatic_recount_limit (snap_policy (case_policy c));
  ctl_allowed : ∃ allowed, pc_allowed control = Some allowed ∧
    (pc_disposition control = Posted ↔ Z.abs variance ≤ allowed);
  ctl_only : ∀ i e, details s !! i = Some e → det_case e = Some case → live_task s i → i = task;
}.

Lemma internal_error_ok {A E} (r : result A E) why a : internal_error r why = Ok a → r = Ok a.
Proof. unfold internal_error, map_err. destruct r; [|done]. by intros [= ->]. Qed.

Lemma posted_within (disp : CycleCountDisposition) (magnitude allowed : Z) :
  (disp = Posted → magnitude ≤ allowed) → (disp ≠ Posted → allowed < magnitude) →
  disp = Posted ↔ magnitude ≤ allowed.
Proof. intros Hin Hout. split; [done|]. intros. destruct (decide (disp = Posted)) as [?|Hn%Hout]; [done|lia]. Qed.

Lemma existing_case digest s task d b trace variance case control :
  counts_ok s → details s !! task = Some d → det_case d = Some case →
  prepare_existing_case_tx digest s task (target_of d) b trace variance case = Ok control →
  pc_case control = Some case ∧ ∃ c, controls s task d variance control case c.
Proof.
  intros Hs Hd Hcase. unfold prepare_existing_case_tx. intros H.
  apply rbind_ok in H as (c & Hc%ok_or_ok & H). passed H E0.
  apply rbind_ok in H as (att & _ & H). passed H E.
  apply rbind_ok in H as (ev & _ & H). apply rbind_ok in H as (pol & Hpol%internal_error_ok & H).
  apply rbind_ok in H as (allowed & Ha%internal_error_ok & H).
  apply rbind_ok in H as (disp & Hdisp%internal_error_ok & H).
  apply rbind_ok in H as (rev & _ & [= <-]). apply tolerance_new_ok in Hpol as (-> & _).
  apply disposition_inv in Hdisp as (_ & a & Ha' & Hin & Hout & Hrec).
  assert (a = allowed) as -> by congruence. split; [done|]. exists c. cbn in Hrec.
  assert (Hopen : open_case c = true).
  { unfold open_case. bool_to_prop. destruct_and?.
    match goal with Est : case_state c = _ |- _ => by rewrite Est end. }
  destruct (detail_linked _ _ _ _ (ok_detail _ _ Hs task d Hd) case Hcase) as (c0 & Hc0 & Eb & _).
  assert (c0 = c) as -> by congruence.
  split; try done; [by exists d|exists allowed; split; [done|]; by apply posted_within|]. intros i e He Hec Hl.
  destruct (detail_linked _ _ _ _ (ok_detail _ _ Hs i e He) case Hec) as (c1 & Hc1 & _ & Hlive).
  assert (c1 = c) as -> by congruence. destruct Hlive as [_ <-]; [by intros []|done|].
  bool_to_prop. by destruct_and?.
Qed.

Lemma active_policy_limit s owner facility p :
  counts_ok s → active_policy_tx s owner facility = Ok (Some p) →
  0 ≤ automatic_recount_limit (snap_policy p) ≤ MAX_CYCLE_COUNT_RECOUNTS.
Proof.
  intros Hs. unfold active_policy_tx. destruct (head _) as [[i q]|] eqn:Hh; [|done]. intros H.
  apply rbind_ok in H as (rev & _ & H). apply rbind_ok in H as (pol & Hpol%internal_error_ok & [= <-]).
  apply tolerance_new_ok in Hpol as (-> & _). cbn.
  apply head_Some_elem_of, elem_of_filter_bool in Hh as [Hin _]. apply elem_of_map_to_list in Hin.
  destruct (policy_rows _ (ok_policies _ _ Hs) i q Hin) as [(_ & _ & ?) _]. done.
Qed.

Lemma insert_case_inv digest s c s' case :
  insert_case digest s c = Ok (s', case) →
  case = next_id (cases s) ∧ s' = set_cases (insert_row (cases s) c) s ∧ case_checks c = true ∧
  existsb (fun '(_, o) => open_case o && bool_decide (case_key o = case_key c))
    (map_to_list (rows (cases s))) = false.
Proof.
  unfold insert_case. intros H. passed H E1. passed H E2. destruct (existsb _ _); [done|].
  by injection H as <- <-.
Qed.

Lemma link_detail_inv s task case attempt why s' :
  link_detail s task case attempt why = Ok s' →
  ∃ d, details s !! task = Some d ∧ det_case d = None ∧
    s' = set_details (<[task := with_case case (attempt d) d]> (details s)) s.
Proof.
  unfold link_detail. destruct (details s !! task) as [d|]; [|done]. case_bool_decide; [|done].
  intros [= <-]. by exists d.
Qed.

(** The rest of the tables after the control. *)
Definition control_frame (s s1 : Counts) : Prop :=
  stock s1 = stock s ∧ tasks s1 = tasks s ∧ results s1 = results s ∧
  (∀ k o, rows (cases s) !! k = Some o → rows (cases s1) !! k = Some o) ∧
  (∀ i, is_Some (details s !! i) → is_Some (details s1 !! i)) ∧
  ∀ batch, approved s1 batch = approved s batch.

(** A case is new, or waited for this count. *)
Definition case_origin (s : Counts) (task case : Z) : Prop :=
  rows (cases s) !! case = None ∨
  ∃ o, rows (cases s) !! case = Some o ∧ case_state o = AwaitingRecount ∧ case_task o = task.

Section control.
Context (digest : list Z → rstr) (s : Counts) (Hs : counts_ok s) (caller : Caller) (task quantity : Z).
Context (t : WorkTask) (d : DetailRow) (b : BalanceRow) (L : locked_count s caller task quantity t d b).
Context (Hq : quantity ≤ i64_max).

(** A variance out of tolerance opens a case. *)
Lemma new_case digest' (c : CaseRow) s1 case control variance :
  det_case d = None →
  (let? (s0, case) := insert_case digest' s c in
   let? s0 := link_detail s0 task case det_attempt
                "cycle count task variance case changed during confirmation" in
   Ok (s0, case)) = Ok (s1, case) →
  ct_balance (case_stock c) = det_balance d → ct_position (case_stock c) = position b →
  cf_counted (case_facts c) = quantity → case_used c = 0 → open_case c = true →
  0 ≤ automatic_recount_limit (snap_policy (case_policy c)) ≤ MAX_CYCLE_COUNT_RECOUNTS →
  pc_used control = 0 →
  (pc_disposition control = RecountRequired → 0 < automatic_recount_limit (snap_policy (case_policy c))) →
  (∃ allowed, pc_allowed control = Some allowed ∧
     (pc_disposition control = Posted ↔ Z.abs variance ≤ allowed)) →
  counts_upto (Working (Some (case, 0))) s1 ∧ controls s1 task d variance control case c ∧
  control_frame s s1 ∧ case_origin s task case.
Proof.
  intros Hnone H Hbal Hpos Hcf Hused Hopen Hlim Hpu Hrec Hall. destruct L.
  apply rbind_ok in H as ([s0 case0] & H1 & H).
  apply rbind_ok in H as (s2 & H2 & [= -> ->]).
  apply insert_case_inv in H1 as (-> & -> & Hchk & Hfree).
  apply link_detail_inv in H2 as (d' & Hd' & _ & ->). cbn in Hd'.
  assert (d' = d) as -> by congruence.
  assert (Hp : ∃ b, rows (balances (stock s)) !! det_balance d = Some b ∧
    position b = ct_position (case_stock c)) by (by exists b).
  assert (Hcf' : cf_counted (case_facts c) ≤ i64_max) by lia.
  split; [by apply (opening_counts s Hs task d c)|]. split.
  - split; try done.
    + cbn. apply lookup_insert_eq.
    + eexists. cbn. by rewrite lookup_insert_eq.
    + by rewrite Hused.
    + by rewrite Hused.
    + intros i e. cbn. intros [[<- _]|[_ He]]%lookup_insert_Some; [done|]. intros Hec _. exfalso.
      destruct (detail_linked _ _ _ _ (ok_detail _ _ Hs i e He) _ Hec) as (c0 & Hc0 & _).
      by rewrite table_fresh in Hc0 by apply Hs.
  - split; [|left; by apply table_fresh, Hs]. split_and!; try done.
    + intros k o Ho. by apply (insert_row_old (cases s) c k o); [apply Hs|].
    + intros i Hi. cbn. destruct (decide (i = task)) as [->|Hne]; [by rewrite lookup_insert_eq; eexists|].
      by rewrite lookup_insert_ne.
    + intros batch. by apply (opening_approved s Hs task d c).
Qed.

Lemma prepare_inv trace variance occurred_at s1 control :
  prepare_count_control_tx digest s task (target_of d) b trace quantity variance occurred_at
  = Ok (s1, control) →
  (det_case d = None ∧ pc_case control = None ∧ s1 = s ∧ pc_disposition control = Posted ∧
     ∀ allowed, pc_allowed control = Some allowed → Z.abs variance ≤ allowed) ∨
  (∃ case c, pc_case control = Some case ∧ counts_upto (Working (Some (case, 0))) s1 ∧
     controls s1 task d variance control case c ∧ control_frame s s1 ∧ case_origin s task case).
Proof.
  unfold prepare_count_control_tx. cbn [tgt_case target_of]. destruct (det_case d) as [case|] eqn:Hcase.
  { intros H. apply rbind_ok in H as (ctl & H & [= <- ->]). right.
    apply existing_case in H as [Hpc (c & Hctl)]; [|done|apply L|done].
    exists case, c. split_and!; [done|by apply counts_working|done|done|]. right. exists c.
    split; [apply Hctl|]. destruct (detail_linked _ _ _ _ (ok_detail _ _ Hs task d (locked_detail _ _ _ _ _ _ _ L))
      case Hcase) as (c0 & Hc0 & _ & Hlive). rewrite (ctl_case _ _ _ _ _ _ _ Hctl) in Hc0. injection Hc0 as <-.
    apply Hlive; [by intros []|]. exists t. split; [apply L|]. by rewrite (locked_status _ _ _ _ _ _ _ L). }
  intros H. apply rbind_ok in H as ([policy|] & Hpol & H); [|injection H as <- <-; by left].
  pose proof (active_policy_limit _ _ _ _ Hs Hpol) as Hlim.
  apply rbind_ok in H as (o & _ & H). apply rbind_ok in H as (f & _ & H).
  apply rbind_ok in H as (ev & _ & H). apply rbind_ok in H as (eff & Heff%internal_error_ok & H).
  apply rbind_ok in H as (allowed & Ha%internal_error_ok & H).
  apply rbind_ok in H as (disp & Hdisp%internal_error_ok & H).
  apply disposition_inv in Hdisp as (_ & a & Ha' & Hin & Hout & Hrec).
  assert (a = allowed) as -> by congruence.
  assert (El : automatic_recount_limit eff = automatic_recount_limit (snap_policy policy)).
  { unfold tolerance_policy, map_err in Heff.
    destruct (CycleCountTolerancePolicy_new _ _ _) as [x|] eqn:Ex; [|done]. injection Heff as <-.
    by apply tolerance_new_ok in Ex as (-> & _). }
  rewrite El in Hrec.
  destruct disp.
  { injection H as <- <-. left. split_and!; try done. intros a [= <-]. by apply Hin. }
  all: right; apply rbind_ok in H as (_ & _ & H); apply rbind_ok in H as ([s0 case] & H1 & H);
    apply rbind_ok in H as (s2 & H2 & [= <- <-]); eexists case, _; split; [done|];
    eapply new_case; try done; try (by rewrite H1; cbn [rbind]; rewrite H2);
    try (by exists allowed; split; [done|]; apply posted_within); done.
Qed.
End control.

(** ** The tolerance in force *)

(** The policy of an owner and a facility that has no end yet. *)
Definition policy_in_force (s : Counts) (owner facility : Z) : option CycleCountTolerancePolicy :=
  option_map (fun '(_, p) => cpol_tolerance p)
    (head (List.filter (fun '(_, p) => (cpol_owner p =? owner) && (cpol_facility p =? facility)
                                       && bool_decide (cpol_effective_to p = None))
             (map_to_list (rows (count_policies s))))).

(** The tolerance that a count is judged by, an absolute quantity and a percentage in basis
    points: a recount keeps what its case froze; any other count takes the Count rule in
    force, or else the operational policy, and has none without an operational policy. *)
Definition tolerance_in_force (s : Counts) (d : DetailRow) (at_ : Z) : option (Z * Z) :=
  match det_case d with
  | Some case =>
      option_map (fun c => (cp_absolute (case_evidence c), cp_percentage (case_evidence c)))
        (rows (cases s) !! case)
  | None =>
      match policy_in_force s (det_owner d) (det_facility d) with
      | None => None
      | Some policy =>
          match resolved_configuration (count_rules s) (det_owner d) (det_facility d) at_ with
          | Some (_, row) =>
              match cfg_definition row with
              | CountRule absolute percentage _ => Some (absolute, percentage)
              | _ => None
              end
          | None => Some (absolute_tolerance_quantity policy, percentage_tolerance_basis_points policy)
          end
      end
  end.

(** A variance is at most the absolute tolerance, or at most the percentage of the stock on
    the books, rounded up to a whole unit; without a tolerance every variance is within. *)
Definition within_tolerance (tolerance : option (Z * Z)) (on_hand variance : Z) : Prop :=
  match tolerance with
  | None => True
  | Some (absolute, percentage) =>
      Z.abs variance ≤ absolute ∨ (Z.abs variance - 1) * 10000 < on_hand * percentage
  end.

Lemma allowed_within p system allowed variance :
  allowed_variance_quantity p system = Ok allowed → 0 ≤ absolute_tolerance_quantity p →
  Z.abs variance ≤ allowed ↔
  within_tolerance (Some (absolute_tolerance_quantity p, percentage_tolerance_basis_points p))
    system variance.
Proof.
  unfold allowed_variance_quantity, within_tolerance. intros H Ha.
  destruct (Z.ltb_spec system 0); [done|].
  apply rbind_ok in H as (n & Hn%ok_or_ok & H). apply rbind_ok in H as (m & Hm%ok_or_ok & H).
  apply rbind_ok in H as (q & Hq%ok_or_ok & [= <-]).
  apply checked_Some in Hn as [-> _], Hm as [-> _], Hq as [-> _].
  unfold MAX_CYCLE_COUNT_PERCENTAGE_BASIS_POINTS in *. change (10000 - 1) with 9999.
  set (x := system * percentage_tolerance_basis_points p). generalize dependent x. intros x.
  destruct (Z.le_gt_cases 0 (x + 9999)).
  - rewrite Z.quot_div_nonneg by lia. pose proof (Z.div_mod (x + 9999) 10000 ltac:(lia)).
    pose proof (Z.mod_pos_bound (x + 9999) 10000 ltac:(lia)). lia.
  - assert (Z.quot (x + 9999) 10000 ≤ 0); [|lia].
    rewrite <-(Z.opp_involutive (x + 9999)), Z.quot_opp_l by lia.
    pose proof (Z.quot_pos (- (x + 9999)) 10000 ltac:(lia) ltac:(lia)). lia.
Qed.

Lemma decided_within p system variance used threshold disposition :
  decide_cycle_count_disposition_with_approval_threshold p system variance used threshold
    = Ok disposition → 0 ≤ absolute_tolerance_quantity p →
  disposition = Posted ↔
  within_tolerance (Some (absolute_tolerance_quantity p, percentage_tolerance_basis_points p))
    system variance.
Proof.
  intros (_ & allowed & Ha & Hin & Hout & _)%disposition_inv Hp.
  rewrite <-(allowed_within _ _ _ _ Ha Hp). by apply posted_within.
Qed.

Lemma configured_policy_inv digest id revision scope definition evidence :
  configured_policy digest id revision scope definition = Ok evidence →
  ∃ threshold, definition = CountRule (cp_absolute evidence) (cp_percentage evidence) threshold.
Proof.
  unfold configured_policy. intros H. apply rbind_ok in H as (? & _ & H%internal_error_ok).
  unfold count_from_configuration in H. destruct (revision <=? 0); [done|].
  destruct definition; try done. apply rbind_ok in H as (_ & _ & [= <-]). by eexists.
Qed.

Lemma stored_evidence_inv digest row evidence :
  count_decision_policy_from_row digest row = Ok evidence →
  cp_absolute evidence = cp_absolute row ∧ cp_percentage evidence = cp_percentage row.
Proof.
  unfold count_decision_policy_from_row. intros H. apply rbind_ok in H as (policy & Hp & H).
  case_bool_decide; [|done]. injection H as <-. destruct (cp_source row).
  - apply rbind_ok in Hp as (tol & (-> & _)%internal_error_ok%tolerance_new_ok & [= <-]). done.
  - do 4 (apply rbind_ok in Hp as (? & _ & Hp)).
    apply configured_policy_inv in Hp as (thr & E). by injection E as -> ->.
Qed.

(** The control posts a variance exactly when it is within the tolerance in force. *)
Lemma prepared_within digest s task d b trace counted variance at_ s1 control :
  prepare_count_control_tx digest s task (target_of d) b trace counted variance at_ = Ok (s1, control) →
  pc_disposition control = Posted ↔ within_tolerance (tolerance_in_force s d at_) (qty_on_hand b) variance.
Proof.
  unfold prepare_count_control_tx, tolerance_in_force. cbn [tgt_case target_of].
  destruct (det_case d) as [case|]; intros H.
  - apply rbind_ok in H as (ctl & H & [= <- ->]). unfold prepare_existing_case_tx in H.
    apply rbind_ok in H as (c & Hc%ok_or_ok & H). rewrite Hc. passed H E0.
    apply rbind_ok in H as (att & _ & H). passed H E.
    apply rbind_ok in H as (ev & Hev & H). apply rbind_ok in H as (pol & Hpol%internal_error_ok & H).
    apply rbind_ok in H as (allowed & _ & H).
    apply rbind_ok in H as (disp & Hdisp%internal_error_ok & H).
    apply rbind_ok in H as (rev & _ & [= <-]). apply tolerance_new_ok in Hpol as (-> & Ha & _).
    apply stored_evidence_inv in Hev as [E1 E2]. cbn [option_map pc_disposition].
    rewrite <-E1, <-E2. by apply decided_within in Hdisp.
  - cbn [tgt_owner tgt_facility target_of] in H.
    apply rbind_ok in H as (policy & Hpol & H). unfold active_policy_tx in Hpol. unfold policy_in_force.
    destruct (head _) as [[i p]|]; [|by injection Hpol as <-; injection H as <- <-].
    apply rbind_ok in Hpol as (rev & _ & Hpol).
    apply rbind_ok in Hpol as (tol & Ht%internal_error_ok & [= <-]).
    apply tolerance_new_ok in Ht as (-> & _). cbn [option_map snap_policy] in H |- *.
    apply rbind_ok in H as (o & Ho & H). apply rbind_ok in H as (f & Hf & H).
    assert (o = det_owner d ∧ f = det_facility d) as [-> ->].
    { unfold positive_new in Ho, Hf. destruct (0 <? _), (0 <? _); by simplify_eq. }
    apply rbind_ok in H as (ev & Hev & H). apply rbind_ok in H as (eff & Heff%internal_error_ok & H).
    apply rbind_ok in H as (allowed & _ & H).
    apply rbind_ok in H as (disp & Hdisp%internal_error_ok & H).
    assert (Hd : pc_disposition control = disp).
    { destruct disp; [by injection H as <- <-|..]; apply rbind_ok in H as (_ & _ & H);
        apply rbind_ok in H as ([s0 case] & _ & H); by apply rbind_ok in H as (s2 & _ & [= <- <-]). }
    rewrite Hd. unfold tolerance_policy, map_err in Heff.
    destruct (CycleCountTolerancePolicy_new _ _ _) as [x|] eqn:Ex; [|done]. injection Heff as <-.
    apply tolerance_new_ok in Ex as (-> & Ha & _). apply decided_within in Hdisp; [|done].
    rewrite Hdisp. cbn [absolute_tolerance_quantity percentage_tolerance_basis_points].
    unfold resolve_count_decision_policy_tx in Hev.
    destruct (resolved_configuration _ _ _ _) as [[id row]|]; [|by injection Hev as <-].
    by apply configured_policy_inv in Hev as (thr & ->).
Qed.

(** So does the confirmation. *)
Lemma confirm_within g digest s caller task quantity note scans clock s' conf :
  confirm_work g digest caller task quantity note scans clock s = Ok (s', conf) →
  ∃ d b, details s !! task = Some d ∧ rows (balances (stock s)) !! det_balance d = Some b ∧
    (res_disposition (cn_row conf) = Posted ↔
     within_tolerance (tolerance_in_force s d (now_iso clock)) (qty_on_hand b) (quantity - qty_on_hand b)).
Proof.
  unfold confirm_work. intros H. passed H E1. destruct (quantity <? 0); [done|].
  apply rbind_ok in H as (n & _ & H). apply rbind_ok in H as ([[[tgt b] trace] v] & Hl & H).
  apply lock_count_inv in Hl as (t & d & L & -> & -> & _).
  apply rbind_ok in H as ([s1 control] & Hctl & H). apply rbind_ok in H as ([st txn] & _ & H).
  set (row := MkResult _ _ _ _ _ _ _ _ _ _ _) in H.
  apply rbind_ok in H as (_ & _ & H). apply rbind_ok in H as (s2 & _ & H).
  apply rbind_ok in H as (s3 & _ & H). apply rbind_ok in H as ([[s4 rev] next] & _ & H).
  apply rbind_ok in H as (s5 & _ & H). apply rbind_ok in H as (st' & _ & [= <- <-]).
  exists d, b. split; [apply L|]. split; [apply L|]. by apply prepared_within in Hctl.
Qed.

(** ** The adjustment *)

(** The stock after the control was obeyed: adjusted by the posted variance, or as it was. *)
Record posted_stock (g : bool) (st : Stock) (id : Z) (b : BalanceRow) (quantity : Z) (posted : bool)
    (st' : Stock) (transaction : option Z) : Prop := {
  posted_commit : commit_stock g st' = Ok (set_context None st');
  posted_settled : settled (set_context None st');
  posted_balances : rows (balances st') =
    if posted then <[id := with_on_hand quantity b]> (rows (balances st)) else rows (balances st);
  posted_adjusted : ∀ batch, adjusted st' batch = adjusted st batch +
    (if posted && (StockTypes.item_batch_id (position b) =? batch) then quantity - qty_on_hand b else 0);
  posted_entries : ∃ es, entries st' = entries st ++ es ∧
    es = match transaction with
         | Some txn => [MkEntry txn (position b) (trace_at st (position b)) (quantity - qty_on_hand b)]
         | None => []
         end;
  posted_transaction : transaction = if posted && negb (quantity =? qty_on_hand b)
                                     then Some (opened st) else None;
  posted_batches : batches st' = batches st;
}.

Lemma posted_positions g st id b quantity posted st' transaction i c :
  posted_stock g st id b quantity posted st' transaction →
  rows (balances st) !! id = Some b → rows (balances st) !! i = Some c →
  ∃ c', rows (balances st') !! i = Some c' ∧ position c' = position c.
Proof.
  intros P Hb Hc. rewrite (posted_balances _ _ _ _ _ _ _ _ P). destruct posted; [|by exists c].
  destruct (decide (i = id)) as [->|Hne].
  - rewrite lookup_insert_eq. eexists. split; [done|]. cbn. congruence.
  - rewrite lookup_insert_ne by done. by exists c.
Qed.

Lemma unposted g st id b quantity posted :
  settled st → rows (balances st) !! id = Some b →
  (quantity = qty_on_hand b ∨ posted = false) → posted_stock g st id b quantity posted st None.
Proof.
  intros Hst Hb Hn. pose proof (no_open_transaction st Hst) as Hnone.
  assert (Hc : set_context None st = st) by (by destruct st; cbn in Hnone; subst). split.
  - unfold commit_stock. by rewrite Hnone, Hc.
  - by rewrite Hc.
  - destruct posted; [|done]. destruct Hn as [->|?]; [|done]. rewrite insert_id; [done|]. rewrite Hb. f_equal.
    by destruct b.
  - intros batch. destruct Hn as [->| ->]; [|cbn; lia]. case_match; lia.
  - exists []. by rewrite app_nil_r.
  - destruct Hn as [->| ->]; [|done]. by rewrite Z.eqb_refl, andb_false_r.
  - done.
Qed.

Lemma adjust_posted g st id b quantity row st' :
  settled st → rows (balances st) !! id = Some b → txn_type row = Adjust →
  adjustment st id b quantity row st' → quantity ≠ qty_on_hand b →
  commit_stock g st' = Ok (set_context None st') → settled (set_context None st') →
  posted_stock g st id b quantity true st' (Some (opened st)).
Proof.
  intros Hst Hb Hrow Ha Hne Hc Hs'. split; try done.
  - by rewrite (adjustment_balances _ _ _ _ _ _ Ha).
  - intros batch. by apply (adjusted_by st st' id b quantity row).
  - eexists. split; [apply (adjustment_entries _ _ _ _ _ _ Ha)|done].
  - by rewrite (proj2 (Z.eqb_neq _ _)).
  - apply Ha.
Qed.

(** ** The case after the confirmation *)

Lemma to_i16_ok z why y : to_i16 z why = Ok y → y = z.
Proof. unfold to_i16. destruct (_ <=? _); [|done]. by intros [= ->]. Qed.

Lemma update_case_inv s id revision where_ new why s' :
  update_case s id revision where_ new why = Ok s' →
  ∃ c, rows (cases s) !! id = Some c ∧ case_checks (new c) = true ∧
    s' = set_cases (update_row (cases s) id (new c)) s.
Proof.
  unfold update_case. destruct (rows (cases s) !! id) as [c|]; [|done].
  destruct (_ && where_ c); [|done]. intros H. passed H E1. passed H E2. injection H as <-. by exists c.
Qed.

Section advancing.
Context (s : Counts) (case : Z) (c : CaseRow) (n : Z).
Context (Hs : counts_upto (Working (Some (case, n))) s).
Context (Hc : rows (cases s) !! case = Some c) (Hopen : open_case c = true).
Context (Hdead : ∀ i e, details s !! i = Some e → det_case e = Some case → ¬ live_task s i).

Let working_only k : exempt (Working (Some (case, n))) k → k = case.
Proof. cbn. congruence. Qed.

Let working_none k : k ≠ case → pending (Working (Some (case, n))) k = 0.
Proof. intros Hne. cbn. by rewrite (proj2 (Z.eqb_neq case k)). Qed.

(** The case is posted or awaits approval. *)
Lemma settle_case task attempt facts allowed state revision transaction at_ resolved :
  case_checks (advanced task attempt (case_used c) facts allowed state revision transaction at_ resolved c)
    = true →
  cf_counted facts ≤ i64_max → n = 0 →
  (state = AwaitingApproval ∧ allowed < Z.abs (cf_variance facts)) ∨ state = VariancePosted →
  let s' := set_cases (update_row (cases s) case
    (advanced task attempt (case_used c) facts allowed state revision transaction at_ resolved c)) s in
  counts_upto (Working None) s' ∧ ∀ batch, approved s' batch = approved s batch.
Proof.
  intros Hchk Hrange Hn Hstate s'. set (c' := advanced _ _ _ _ _ _ _ _ _ _ _) in *.
  destruct (ok_case _ _ Hs case c Hc) as [H1 H2 H3 H4 H5 H6].
  cbn in H5. rewrite Z.eqb_refl, Hn in H5. split.
  - apply (resolving_counts (Working (Some (case, n))) (Working None) s Hs case c c'
      working_only working_none) with (ds := details s); try done; cbn; try lia.
    + intros i e He. left. split; [done|]. by intros ?%(Hdead i e He).
    + by destruct Hstate as [[-> ?]| ->].
  - intros batch. by apply (resolving_approved (Working (Some (case, n))) s Hs case c c').
Qed.

(** The case is to be counted again. *)
Lemma recount_case next e task attempt used facts allowed revision at_ :
  details s !! next = Some e → det_case e = None → det_balance e = ct_balance (case_stock c) →
  live_task s next → task = next →
  case_checks (advanced task attempt used facts allowed AwaitingRecount revision None at_ None c) = true →
  cf_counted facts ≤ i64_max → used = case_used c + n →
  used ≤ automatic_recount_limit (snap_policy (case_policy c)) →
  let s' := set_cases (update_row (cases s) case
    (advanced task attempt used facts allowed AwaitingRecount revision None at_ None c))
      (set_details (<[next := with_case case attempt e]> (details s)) s) in
  counts_upto (Working None) s' ∧ ∀ batch, approved s' batch = approved s batch.
Proof.
  intros He Hnone Hbal Hlive -> Hchk Hrange -> Hlim s'. set (c' := advanced _ _ _ _ _ _ _ _ _ _ _) in *.
  destruct (ok_case _ _ Hs case c Hc) as [H1 H2 H3 H4 H5 H6]. cbn in H5. rewrite Z.eqb_refl in H5. split.
  - apply (resolving_counts (Working (Some (case, n))) (Working None) s Hs case c c'
      working_only working_none) with (ds := <[next := with_case case attempt e]> (details s)); try done.
    + intros i e' [[<- <-]|[Hne He']]%lookup_insert_Some; [right; by exists e|].
      left. split; [done|]. by intros ?%(Hdead i e' He').
    + intros i e' He'. destruct (decide (i = next)) as [->|Hne].
      * rewrite lookup_insert_eq. split; [by eexists|]. intros Hn. congruence.
      * rewrite lookup_insert_ne by done. split; [by eexists|done].
    + cbn. split; [done|]. eexists. rewrite lookup_insert_eq. done.
  - intros batch. by apply (resolving_approved (Working (Some (case, n))) s Hs case c c').
Qed.
End advancing.

(** A task is planned, or found, that counts the case again. *)
Lemma recount_again s case c n user location item balance facility owner now s3 next attempt s4 :
  counts_upto (Working (Some (case, n))) s → rows (cases s) !! case = Some c → open_case c = true →
  (∀ i e, details s !! i = Some e → det_case e = Some case → ¬ live_task s i) →
  ct_balance (case_stock c) = balance →
  create_item_location_cycle_count_task_tx s user location item balance facility owner now = Ok (s3, next) →
  attach_recount_task_tx s3 next case attempt = Ok s4 →
  rows (cases s4) !! case = Some c ∧ stock s4 = stock s ∧ results s4 = results s ∧
  decisions s4 = decisions s ∧ cases s4 = cases s ∧
  (∀ i, is_Some (details s !! i) → lookup_task (tasks s4) i = lookup_task (tasks s) i) ∧
  ∀ used facts allowed revision at_,
    let c' := advanced next attempt used facts allowed AwaitingRecount revision None at_ None c in
    case_checks c' = true → cf_counted facts ≤ i64_max → used = case_used c + n →
    used ≤ automatic_recount_limit (snap_policy (case_policy c)) →
    counts_upto (Working None) (set_cases (update_row (cases s4) case c') s4) ∧
    ∀ batch, approved (set_cases (update_row (cases s4) case c') s4) batch = approved s batch.
Proof.
  intros Hs Hc Hopen Hdead Hbal Hcr Hat. unfold attach_recount_task_tx in Hat.
  apply rbind_ok in Hat as (att & ->%to_i16_ok & Hat). apply link_detail_inv in Hat as (e & He & Hen & ->).
  destruct (create_counts _ _ _ _ _ _ _ _ _ _ _ Hs Hcr)
    as (Hs3 & Hl3 & (e3 & He3 & Eb3 & _) & Hold & Hnew & Efr).
  assert (e3 = e) as -> by congruence.
  assert (Hc3 : rows (cases s3) !! case = Some c) by (by rewrite Efr).
  split_and!; [done|by rewrite Efr..|by intros i [x Hx]; apply (Hold i x)|]. intros used facts allowed revision at_ c' Hchk Hrange Hused Hlim.
  destruct (recount_case s3 case c n Hs3 Hc3 Hopen) with (next := next) (e := e) (task := next)
    (attempt := attempt) (used := used) (facts := facts) (allowed := allowed) (revision := revision)
    (at_ := at_) as [H1 H2]; try done; [|by rewrite Eb3|].
  - intros i e0 He0 Hec Hli. destruct (Hnew i e0 He0) as [->|He0']; [congruence|].
    apply (Hdead i e0 He0' Hec). destruct Hli as (x & Hx & Hl). exists x.
    destruct (Hold i e0 He0') as [_ El]. by rewrite <-El.
  - split; [exact H1|]. intros batch. rewrite Efr in H2. rewrite Efr. exact (H2 batch).
Qed.

Lemma advance_counts s user task d b quantity variance transaction control occurred_at case c row s' revision next :
  counts_upto (Working (Some (case, recount_of case row))) s →
  pc_case control = Some case → rows (cases s) !! case = Some c → open_case c = true →
  ct_balance (case_stock c) = det_balance d →
  res_case row = Some case → res_disposition row = pc_disposition control →
  (∀ i e, details s !! i = Some e → det_case e = Some case → ¬ live_task s i) →
  pc_used control = case_used c →
  (pc_disposition control = RecountRequired →
     case_used c < automatic_recount_limit (snap_policy (case_policy c))) →
  (∃ allowed, pc_allowed control = Some allowed ∧
     (pc_disposition control = Posted ↔ Z.abs variance ≤ allowed)) →
  quantity ≤ i64_max →
  (pc_disposition control ≠ Posted → transaction = None) →
  advance_count_control_after_confirmation_tx s user task (target_of d) b quantity variance
    transaction control occurred_at = Ok (s', revision, next) →
  counts_upto (Working None) s' ∧ stock s' = stock s ∧ results s' = results s ∧
  (∀ batch, approved s' batch = approved s batch) ∧
  (∀ k, k ≠ case → rows (cases s') !! k = rows (cases s) !! k) ∧
  (∀ i, is_Some (details s !! i) → lookup_task (tasks s') i = lookup_task (tasks s) i) ∧
  ∃ c', rows (cases s') !! case = Some c' ∧ case_stock c' = case_stock c ∧
    case_facts c' = facts_of b quantity variance ∧
    case_state c' = match pc_disposition control with
                    | Posted => VariancePosted
                    | RecountRequired => AwaitingRecount
                    | ApprovalRequired => AwaitingApproval
                    end.
Proof.
  intros Hs Hpc Hc Hopen Hbal Hrow Hdisp Hdead Hused Hrec (allowed & Hall & Hout) Hq Htx.
  unfold advance_count_control_after_confirmation_tx. rewrite Hpc, Hall. intros H.
  apply rbind_ok in H as (current & _ & H). apply rbind_ok in H as (nrev & _ & H).
  apply rbind_ok in H as (nattempt & _ & H).
  apply rbind_ok in H as ([[[[s1 state] next1] used] resolved] & Hb & H).
  apply rbind_ok in H as (latt & Hlatt%to_i16_ok & H). apply rbind_ok in H as (used' & ->%to_i16_ok & H).
  cbn [ok_or rbind] in H. apply rbind_ok in H as (s2 & Hup & [= <- <- <-]).
  apply update_case_inv in Hup as (c0 & Hc0 & Hchk & ->).
  assert (Hrec0 : recount_of case row = if bool_decide (pc_disposition control = RecountRequired) then 1 else 0).
  { unfold recount_of. by rewrite Hrow, Hdisp, bool_decide_true. }
  destruct (pc_disposition control) eqn:Ed.
  - injection Hb as <- <- <- <- <-. assert (c0 = c) as -> by congruence. rewrite Hused in *.
    eapply settle_case in Hchk as [H1 H2]; [|done..|cbn; lia|by rewrite Hrec0|by right].
    split_and!; [done..|by intros; apply lookup_insert_ne|done|].
    eexists. split; [apply lookup_insert_eq|done].
  - apply rbind_ok in Hb as ([s3 n] & Hcr & Hb). apply rbind_ok in Hb as (s4 & Hat & Hb).
    apply rbind_ok in Hb as (u & Hu%ok_or_ok & [= <- <- <- <- <-]).
    apply checked_Some in Hu as [-> _]. rewrite bool_decide_true in Hrec0 by done.
    destruct (recount_again s case c _ _ _ _ _ _ _ _ _ _ _ _ Hs Hc Hopen Hdead Hbal Hcr Hat)
      as (Hc4 & Est & Ers & _ & Eca & Etk & Hfin). assert (c0 = c) as -> by congruence. cbn in Hlatt. subst latt.
    rewrite Htx in Hchk |- * by done. specialize (Hrec eq_refl).
    destruct (Hfin _ _ _ _ _ Hchk) as [H1 H2]; [cbn; lia|lia|lia|].
    split_and!; [done..| |done|].
    + intros k Hk. cbn. rewrite lookup_insert_ne by done. by rewrite Eca.
    + eexists. split; [apply lookup_insert_eq|done].
  - injection Hb as <- <- <- <- <-. assert (c0 = c) as -> by congruence. rewrite Hused in *.
    eapply settle_case in Hchk as [H1 H2]; [|done..|cbn; lia|by rewrite Hrec0|].
    { split_and!; [done..|by intros; apply lookup_insert_ne|done|].
      eexists. split; [apply lookup_insert_eq|done]. }
    left. split; [done|]. cbn. apply Z.nle_gt. intros ?%Hout. done.
Qed.

(** ** The whole confirmation *)

Lemma insert_result_inv digest s task r at_ s' :
  insert_result digest s task r at_ = Ok s' →
  results s !! task = None ∧ s' = set_results (<[task := r]> (results s)) s ∧ result_checks r = true.
Proof.
  unfold insert_result. intros H. passed H E1. passed H E2. passed H E3. case_bool_decide; [|done].
  by injection H as <-.
Qed.

Lemma complete_inv s task user confirmed_at at_ s' :
  complete_count_task s task user confirmed_at at_ = Ok s' →
  ∃ t, lookup_task (tasks s) task = Some t ∧
    s' = set_tasks (put_task task (closed TaskCompleted user confirmed_at t) (tasks s)) s.
Proof.
  unfold complete_count_task. destruct (lookup_task (tasks s) task) as [t|]; [|done].
  destruct (_ && _); [|done]. destruct (results s !! task); [|done]. intros H. passed H E.
  injection H as <-. by exists t.
Qed.

Lemma closed_heads d t user at_ : heads d t → heads d (closed TaskCompleted user at_ t).
Proof. by intros (? & ? & ? & ?). Qed.

Lemma enqueue_confirmation_inv s task row revision next s' :
  enqueue_confirmation s task row revision next = Ok s' → ∃ t, s' = set_count_outbox t s.
Proof.
  unfold enqueue_confirmation. intros H. apply rbind_ok in H as (s1 & (t & ->)%emit_count_inv & H).
  destruct (res_case row) as [case|]; [|injection H as <-; by eexists].
  destruct revision as [rev|]; [|injection H as <-; by eexists].
  apply rbind_ok in H as (sequence & _ & H). apply emit_count_inv in H as (t' & ->). by exists t'.
Qed.

(** Closing the task and writing the result, under the stock that the control left. *)
Section counting.
Context (g : bool) (k : option (Z * Z)) (s : Counts) (Hs : counts_upto (Working k) s).
Context (Hctx : journal_context (stock s) = None).
Context (caller : Caller) (task quantity : Z) (t : WorkTask) (d d1 : DetailRow) (b : BalanceRow).
Context (Ht : lookup_task (tasks s) task = Some t) (Hst : wt_status t = TaskInProgress).
Context (Hd1 : details s !! task = Some d1) (Hlink : det_case d1 = fst <$> k).
Context (Hb : rows (balances (stock s)) !! det_balance d = Some b).
Context (Hzero : ∀ case n, k = Some (case, n) → n = 0).
Context (st : Stock) (row : ResultRow).
Context (P : posted_stock g (stock s) (det_balance d) b quantity
  (bool_decide (res_disposition row = Posted)) st (res_transaction row)).
Context (Hrow : res_case row = fst <$> k) (Hnew : results s !! task = None).

Lemma counting_counts user at_ :
  counts_upto (Working ((fun x => (x.1, recount_of x.1 row)) <$> k))
    (set_tasks (put_task task (closed TaskCompleted user at_ t) (tasks s))
       (set_results (<[task := row]> (results s)) (set_stock st s))).
Proof.
  assert (Hs1 : counts_upto (Working k) (set_stock st s)).
  { apply counts_stock_upto; [done|apply P|done|]. intros i c Hc. by eapply posted_positions. }
  assert (Hh : heads d1 (closed TaskCompleted user at_ t)).
  { apply closed_heads. destruct (detail_headed _ _ _ _ (ok_detail _ _ Hs task d1 Hd1)) as (t0 & Ht0 & Hh).
    congruence. }
  apply (recording_counts k (set_stock st s) Hs1 task d1 t (closed TaskCompleted user at_ t) row);
    done.
Qed.
End counting.

(** What a confirmation achieves. *)
Record confirmed (g : bool) (s : Counts) (task quantity : Z) (d : DetailRow) (b : BalanceRow)
    (s' : Counts) (row : ResultRow) : Prop := {
  confirmed_counts : counts_ok s';
  confirmed_stock : ∃ st, posted_stock g (stock s) (det_balance d) b quantity
    (bool_decide (res_disposition row = Posted)) st (res_transaction row) ∧
    stock s' = set_context None st;
  confirmed_subject : ct_balance (res_stock row) = det_balance d ∧ ct_position (res_stock row) = position b;
  confirmed_facts : res_facts row = facts_of b quantity (quantity - qty_on_hand b);
  confirmed_results : results s !! task = None ∧ results s' = <[task := row]> (results s);
  confirmed_approved : ∀ batch, approved s' batch = approved s batch;
  confirmed_within : ∀ allowed, res_allowed row = Some allowed →
    (res_disposition row = Posted ↔ Z.abs (quantity - qty_on_hand b) ≤ allowed);
  confirmed_origin : ∀ case, res_case row = Some case → case_origin s task case;
  confirmed_others : ∀ k o, rows (cases s) !! k = Some o →
    (case_state o = AwaitingRecount ∧ case_task o = task) ∨ rows (cases s') !! k = Some o;
  confirmed_tasks : ∀ i, is_Some (details s !! i) → i ≠ task →
    lookup_task (tasks s') i = lookup_task (tasks s) i;
  confirmed_case : res_disposition row ≠ Posted → ∃ case c, res_case row = Some case ∧
    rows (cases s') !! case = Some c ∧ ct_balance (case_stock c) = det_balance d ∧
    case_facts c = res_facts row ∧
    case_state c = (if bool_decide (res_disposition row = RecountRequired)
                    then AwaitingRecount else AwaitingApproval);
}.

Lemma post_control g s caller task quantity t d b control st transaction :
  settled (stock s) → locked_count s caller task quantity t d b → quantity ≤ i64_max →
  (if (quantity - qty_on_hand b =? 0) || negb (bool_decide (pc_disposition control = Posted))
   then Ok (stock s, None)
   else
     let? (st, txn) := post_variance g (stock s) caller (det_owner d) (det_facility d)
       "cycle count confirmation" "cycle_count_item_location_task" task OPERATION
       (det_balance d) (position b) (quantity - qty_on_hand b) quantity
       (fun r => (StockTypes.inventory_owner_id (position r) =? det_owner d)
                 && negb (balance_deleted r) && (qty_on_hand r =? qty_on_hand b)
                 && (qty_reserved r =? qty_reserved b) && (qty_held r =? qty_held b))
       "cycle count inventory balance changed during confirmation" in
     Ok (st, Some txn)) = Ok (st, transaction) →
  posted_stock g (stock s) (det_balance d) b quantity (bool_decide (pc_disposition control = Posted))
    st transaction.
Proof.
  intros Hst L Hq H. destruct ((_ =? 0) || _) eqn:E.
  - injection H as <- <-. apply unposted; [done|apply L|]. bool_to_prop.
    destruct E as [E|E]; [left; lia|by right; apply bool_decide_eq_false_2].
  - apply rbind_ok in H as ([st1 txn] & H & [= <- <-]). bool_to_prop. destruct_and?.
    rewrite bool_decide_true by done. rewrite <-(locked_owner _ _ _ _ _ _ _ L) in H at 1.
    rewrite <-(locked_facility _ _ _ _ _ _ _ L) in H at 1.
    apply (post_variance_run g (stock s) Hst) in H as (-> & _ & _ & Ha & _ & Hc & Hs'); try done;
      [|apply L..|split; [apply L|done]].
    eapply adjust_posted; [done|apply L| |exact Ha|lia|done|done]. done.
Qed.

(** Progress and events, and the commit. *)
Lemma wrap_up phase s task user action o :
  counts_upto phase s →
  counts_upto phase (set_count_outbox o (set_tasks (record_progress task user action (tasks s)) s)).
Proof.
  intros Hs. apply (counts_frame phase (set_tasks (record_progress task user action (tasks s)) s));
    [|apply Hs..]. apply counts_tasks; [done|]. apply progress_evolves, tasks_evolve_refl, Hs.
Qed.

Section confirmation.
Context (g : bool) (digest : list Z → rstr) (s : Counts) (Hs : counts_ok s).
Context (caller : Caller) (task quantity : Z) (Hq : quantity ≤ i64_max).
Context (t : WorkTask) (d : DetailRow) (b : BalanceRow) (L : locked_count s caller task quantity t d b).
Context (trace : Trace) (control : PreparedCountControl) (s1 : Counts) (now : Z).
Context (Hctl : prepare_count_control_tx digest s task (target_of d) b trace quantity
  (quantity - qty_on_hand b) now = Ok (s1, control)).
Context (st : Stock) (row : ResultRow).
Context (Hdisp : res_disposition row = pc_disposition control) (Hrow : res_case row = pc_case control).
Context (P : posted_stock g (stock s) (det_balance d) b quantity
  (bool_decide (res_disposition row = Posted)) st (res_transaction row)).
Context (Hnew : results s1 !! task = None).

Let s3 := set_tasks (put_task task (closed TaskCompleted (actor caller) now t) (tasks s1))
            (set_results (<[task := row]> (results s1)) (set_stock st s1)).

(** The tables once the result is written and the case is up to date. *)
Lemma conclude s4 revision next :
  advance_count_control_after_confirmation_tx s3 (actor caller) task (target_of d) b quantity
    (quantity - qty_on_hand b) (res_transaction row) control now = Ok (s4, revision, next) →
  counts_upto (Working None) s4 ∧ stock s4 = st ∧ results s4 = <[task := row]> (results s) ∧
  (∀ batch, approved s4 batch = approved s batch) ∧
  (∀ allowed, pc_allowed control = Some allowed →
     (res_disposition row = Posted ↔ Z.abs (quantity - qty_on_hand b) ≤ allowed)) ∧
  (∀ case, res_case row = Some case → case_origin s task case) ∧
  (∀ k o, rows (cases s) !! k = Some o →
     (case_state o = AwaitingRecount ∧ case_task o = task) ∨ rows (cases s4) !! k = Some o) ∧
  (∀ i, is_Some (details s !! i) → i ≠ task → lookup_task (tasks s4) i = lookup_task (tasks s) i) ∧
  (res_disposition row ≠ Posted → ∃ case c, res_case row = Some case ∧ rows (cases s4) !! case = Some c ∧
     ct_balance (case_stock c) = det_balance d ∧ case_facts c = facts_of b quantity (quantity - qty_on_hand b) ∧
     case_state c = (if bool_decide (res_disposition row = RecountRequired)
                     then AwaitingRecount else AwaitingApproval)).
Proof.
  intros Hadv. pose proof (ok_context _ _ Hs eq_refl) as Hctx.
  destruct (prepare_inv digest s Hs caller task quantity t d b L Hq _ _ _ _ _ Hctl)
    as [(Hnone & Hpc & -> & Hposted & Hwithin)|(case & c & Hpc & Hs1 & C & (Est & Etk & Ers & Ecs & Eds & Eap) & Hor)].
  - unfold advance_count_control_after_confirmation_tx in Hadv. rewrite Hpc in Hadv. injection Hadv as <- _ _.
    assert (Hw : counts_upto (Working None) s) by (by eapply (counts_weaken Idle)).
    split_and!; try done.
    + apply (counting_counts g None s Hw) with (d := d) (d1 := d) (b := b) (quantity := quantity);
        try done; try apply L. by rewrite Hrow.
    + intros allowed Ha. rewrite Hdisp, Hposted. split; [intros _; by apply Hwithin|done].
    + intros case. by rewrite Hrow, Hpc.
    + intros k o Ho. by right.
    + intros i _ Hne. by apply lookup_insert_ne.
    + by rewrite Hdisp, Hposted.
  - destruct (ctl_detail _ _ _ _ _ _ _ C) as (d1 & Hd1 & Hlink & _).
    assert (Hs3 : counts_upto (Working (Some (case, recount_of case row))) s3).
    { apply (counting_counts g (Some (case, 0)) s1 Hs1) with (d := d) (d1 := d1) (b := b) (quantity := quantity);
        try done; rewrite ?Est, ?Etk; try done; try apply L; [by intros ? ? [= <- <-]|by rewrite Hrow, Hpc]. }
    destruct (ctl_allowed _ _ _ _ _ _ _ C) as (allowed & Ha & Hiff).
    eapply (advance_counts s3 _ task d b quantity _ _ control now case c row) in Hadv
      as (H1 & H2 & H3 & H4 & Hoth & Htsk & c' & H5 & Hsame & H6 & H7); try done; try apply C.
    + split_and!; try done; [by rewrite H3, <-Ers|intros; by rewrite H4, <-Eap| | | | |].
      * intros a Ha'. assert (a = allowed) as -> by congruence. by rewrite Hdisp.
      * intros k. rewrite Hrow, Hpc. by intros [= <-].
      * intros k o Ho. destruct (decide (k = case)) as [->|Hne].
        -- left. destruct Hor as [?|(o' & Ho' & ? & ?)]; [congruence|]. by assert (o' = o) as <- by congruence.
        -- right. rewrite Hoth by done. by apply Ecs.
      * intros i Hi Hne. rewrite Htsk by (by apply Eds). unfold s3, lookup_task. cbn.
        rewrite lookup_insert_ne by done. by rewrite Etk.
      * intros Hn. exists case, c'. split_and!; [congruence|done|rewrite Hsame; apply C|done|].
        rewrite H7, Hdisp in *. by destruct (pc_disposition control).
    + congruence.
    + intros i e He Hec (x & Hx & Hl). destruct (decide (i = task)) as [->|Hne].
      * unfold s3, lookup_task in Hx. cbn in Hx. rewrite lookup_insert_eq in Hx. by injection Hx as <-.
      * apply Hne, (ctl_only _ _ _ _ _ _ _ C i e He Hec). exists x. split; [|done].
        unfold s3, lookup_task in Hx. cbn in Hx. by rewrite lookup_insert_ne in Hx.
    + intros Hn. rewrite (posted_transaction _ _ _ _ _ _ _ _ P), bool_decide_false; [done|congruence].
Qed.
End confirmation.

Lemma confirm_run g digest s caller task quantity note scans clock s' conf :
  counts_ok s → quantity ≤ i64_max →
  confirm_work g digest caller task quantity note scans clock s = Ok (s', conf) →
  ∃ t d b, locked_count s caller task quantity t d b ∧ confirmed g s task quantity d b s' (cn_row conf).
Proof.
  intros Hs Hq. unfold confirm_work. intros H. passed H E1. destruct (quantity <? 0); [done|].
  apply rbind_ok in H as (n & _ & H). apply rbind_ok in H as ([[[tgt b] trace] v] & Hl & H).
  apply lock_count_inv in Hl as (t & d & L & -> & -> & _).
  apply rbind_ok in H as ([s1 control] & Hctl & H). apply rbind_ok in H as ([st txn] & Hpost & H).
  set (row := MkResult _ _ _ _ _ _ _ _ _ _ _) in H.
  apply rbind_ok in H as (_ & _ & H). apply rbind_ok in H as (s2 & (Hnew & -> & _)%insert_result_inv & H).
  apply rbind_ok in H as (s3 & (t3 & Ht3 & ->)%complete_inv & H).
  apply rbind_ok in H as ([[s4 rev] next] & Hadv & H). apply rbind_ok in H as (s5 & (o & ->)%enqueue_confirmation_inv & H).
  apply rbind_ok in H as (st' & Hcm & [= <- <-]).
  assert (Hfr : stock s1 = stock s ∧ tasks s1 = tasks s ∧ results s1 = results s).
  { destruct (prepare_inv digest s Hs caller task quantity t d b L Hq _ _ _ _ _ Hctl)
      as [(_ & _ & -> & _)|(? & ? & _ & _ & _ & (? & ? & ? & _) & _)]; done. }
  destruct Hfr as (Est & Etk & Ers). cbn [tasks set_results set_stock] in Ht3.
  rewrite Etk, (locked_task _ _ _ _ _ _ _ L) in Ht3. injection Ht3 as <-.
  rewrite Est in Hpost. apply (post_control g s caller task quantity t) in Hpost; [|by apply stock_closed|done|done].
  cbn [cn_row] in *. exists t, d, b. split; [done|].
  destruct (conclude g digest s Hs caller task quantity Hq t d b L trace control s1 (now_iso clock) Hctl st row
    eq_refl eq_refl Hpost Hnew s4 rev next Hadv) as (H1 & H2 & H3 & H4 & H5 & H6 & H7 & H8 & H9).
  cbn [stock set_count_outbox set_tasks] in Hcm. rewrite H2, (posted_commit _ _ _ _ _ _ _ _ Hpost) in Hcm.
  injection Hcm as <-. split; try done.
  - apply (wrap_up _ _ task (Some (actor caller)) "cycle_count_confirmed" o) in H1.
    apply counts_finished in H1. cbn [stock set_count_outbox set_tasks] in H1. by rewrite H2 in H1.
  - by exists st.
  - split; [|done]. cbn [results set_stock] in Hnew. by rewrite <-Ers.
Qed.
