(* ===== verification/CycleCountDecide.v ===== *)
(** * Cycle counts: a decision keeps the invariant

    A supervisor approves the variance of a case, which adjusts the stock, or asks for a
    recount, which plans a task. *)

From stdpp Require Import pretty.
From S2P Require Import Prelude.
From S2P Require Import RustStr.
From S2P Require Import Idempotency.
From S2P Require Import Outbox.
From S2P Require Import StockTypes.
From S2P Require Import StockDb.
From S2P Require Import StockJournal.
From S2P Require Import StockInvariant.
From S2P Require Import StockMoves.
From S2P Require Import StockTotals.
From S2P Require Import WorkTasks.
From S2P Require Import CycleCount.
From S2P Require Import CountPolicy.
From S2P Require Import CycleCountDb.
From S2P Require Import CycleCountWork.
From S2P Require Import CycleCountTasks.
From S2P Require Import CycleCountPosting.
From S2P Require Import CycleCountInvariant.
From S2P Require Import CycleCountFacts.
From S2P Require Import CycleCountCases.
From S2P Require Import CycleCountConfirm.

Lemma decide_locks_inv s caller supervisor case expected c next :
  decide_locks s caller supervisor case expected = Ok (c, next) →
  rows (cases s) !! case = Some c ∧ case_state c = AwaitingApproval.
Proof.
  unfold decide_locks. intros H. destruct supervisor; [|done].
  apply rbind_ok in H as (c1 & Hc%ok_or_ok & H). passed H E1. case_bool_decide; [|done].
  apply rbind_ok in H as (prev & _ & H). passed H E2. by apply rbind_ok in H as (nx & _ & [= <- <-]).
Qed.

(** The variance of a checked case, and what is committed against its balance. *)
Lemma case_checks_facts c :
  case_checks c = true → cf_variance (case_facts c) = cf_counted (case_facts c) - cf_on_hand (case_facts c) ∧
  cf_reserved (case_facts c) + cf_held (case_facts c) ≤ cf_counted (case_facts c) ∧ 0 ≤ case_allowed c.
Proof. unfold case_checks. intros H. bool_to_prop. destruct_and?. split_and!; lia. Qed.

(** No task of a case that awaits approval is live. *)
Lemma approval_idle s case c i e :
  counts_ok s → rows (cases s) !! case = Some c → case_state c = AwaitingApproval →
  details s !! i = Some e → det_case e = Some case → ¬ live_task s i.
Proof.
  intros Hs Hc Hst He Hec Hl.
  destruct (detail_linked _ _ _ _ (ok_detail _ _ Hs i e He) case Hec) as (c0 & Hc0 & _ & Hlive).
  assert (c0 = c) as -> by congruence. destruct Hlive as [Ha _]; [by intros []|done|]. congruence.
Qed.

(** What a decision achieves. *)
Record decided (g : bool) (s : Counts) (case : Z) (c : CaseRow) (decision : CycleCountVarianceDecision)
    (s' : Counts) (transaction : option Z) : Prop := {
  decided_counts : counts_upto (Working None) s';
  decided_results : results s' = results s;
  decided_decisions : decisions s' = decisions s;
  decided_approved : ∀ batch, approved s' batch = approved s batch;
  decided_others : ∀ k, k ≠ case → rows (cases s') !! k = rows (cases s) !! k;
  decided_tasks : ∀ i, is_Some (details s !! i) → lookup_task (tasks s') i = lookup_task (tasks s) i;
  decided_effect : match decision with
    | RequestRecount => stock s' = stock s ∧ transaction = None ∧
        ∃ c', rows (cases s') !! case = Some c' ∧ case_state c' = AwaitingRecount
    | ApproveAdjustment => ∃ b, rows (balances (stock s)) !! ct_balance (case_stock c) = Some b ∧
        position b = ct_position (case_stock c) ∧ qty_on_hand b = cf_on_hand (case_facts c) ∧
        posted_stock g (stock s) (ct_balance (case_stock c)) b (cf_counted (case_facts c)) true
          (stock s') transaction ∧
        ∃ c', rows (cases s') !! case = Some c' ∧ open_case c' = false ∧
          case_stock c' = case_stock c ∧ case_facts c' = case_facts c
    end;
}.

Section decision.
Context (g : bool) (s : Counts) (Hs : counts_ok s) (case : Z) (c : CaseRow).
Context (Hc : rows (cases s) !! case = Some c) (Hst : case_state c = AwaitingApproval).

Let Hopen : open_case c = true.
Proof. unfold open_case. by rewrite Hst. Qed.

Let Hw : counts_upto (Working (Some (case, 0))) s := counts_working s case Hs.

Lemma recount_decided caller next now s' task :
  recount_work caller case c next now s = Ok (s', task) → decided g s case c RequestRecount s' None.
Proof.
  unfold recount_work. intros H. apply rbind_ok in H as (attempt & _ & H).
  apply rbind_ok in H as ([s3 t] & Hcr & H). apply rbind_ok in H as (s4 & Hat & H).
  apply rbind_ok in H as (att & ->%to_i16_ok & H). apply rbind_ok in H as (s5 & Hup & [= <- <-]).
  destruct (recount_again s case c 0 _ _ _ _ _ _ _ _ _ _ _ Hw Hc Hopen
    (fun i e => approval_idle s case c i e Hs Hc Hst) eq_refl Hcr Hat) as (Hc4 & Est & Ers & Ede & Eca & Etk & Hfin).
  apply update_case_inv in Hup as (c0 & Hc0 & Hchk & ->). assert (c0 = c) as -> by congruence.
  destruct (ok_case _ _ Hs case c Hc) as [H1 H2 H3 H4 H5 H6].
  destruct (Hfin _ _ _ _ _ Hchk) as [Hfc Hfa]; [done|lia|lia|].
  split; try done.
  - intros k Hk. cbn. rewrite lookup_insert_ne by done. by rewrite Eca.
  - split_and!; [done|done|]. eexists. split; [apply lookup_insert_eq|done].
Qed.

Lemma approve_decided caller next now s' txn :
  approve_work g caller case c next now s = Ok (s', txn) →
  decided g s case c ApproveAdjustment s' (Some txn).
Proof.
  unfold approve_work. intros H. apply rbind_ok in H as (_ & _ & H).
  apply rbind_ok in H as (b & Hb%ok_or_ok & H). passed H Esc. passed H Eun.
  apply rbind_ok in H as ([st t] & Hpost & H). apply rbind_ok in H as (s5 & Hup & [= <- <-]).
  destruct (ok_case _ _ Hs case c Hc) as [H1 H2 (b0 & Hb0 & Ep) H4 H5 H6].
  assert (b0 = b) as -> by congruence. destruct (case_checks_facts c H1) as (Hv & Hcom & _).
  unfold unchanged_since in Eun. bool_to_prop. destruct_and?.
  rewrite <-Ep in Hpost. apply (post_variance_run g (stock s) (stock_closed s Hs)) in Hpost
    as (-> & _ & Hne & Ha & _ & Hcm & Hst'); [|done|done|lia|lia].
  assert (P : posted_stock g (stock s) (ct_balance (case_stock c)) b (cf_counted (case_facts c)) true st
    (Some (StockFacts.opened (stock s)))).
  { eapply adjust_posted; [by apply stock_closed|done| |exact Ha|lia|done|done]. done. }
  assert (Hs1 : counts_upto (Working (Some (case, 0))) (set_stock st s)).
  { apply counts_stock_upto; [done|done|done|]. intros i x Hx. by eapply posted_positions. }
  apply update_case_inv in Hup as (c0 & Hc0 & Hchk & ->). cbn [cases set_stock] in Hc0.
  assert (c0 = c) as -> by congruence.
  destruct (settle_case (set_stock st s) case c 0 Hs1 Hc Hopen
    (fun i e => approval_idle s case c i e Hs Hc Hst) _ _ _ _ _ _ _ _ _ Hchk H2 eq_refl (or_intror eq_refl))
    as [Hfc Hfa].
  split; try done.
  - intros k Hk. by apply lookup_insert_ne.
  - exists b. split_and!; try done. eexists. split; [apply lookup_insert_eq|done].
Qed.

Lemma decided_commit d s1 transaction :
  decided g s case c d s1 transaction → commit_stock g (stock s1) = Ok (set_context None (stock s1)).
Proof.
  intros [_ _ _ _ _ _ Heff]. destruct d.
  - destruct Heff as (b & _ & _ & _ & P & _). apply P.
  - destruct Heff as (-> & _). unfold commit_stock. pose proof (ok_context _ _ Hs eq_refl) as Hn.
    by rewrite Hn, closed_stock.
Qed.

(** The decision is written down. *)
Lemma write_decision s1 d row transaction :
  decided g s case c d s1 transaction → cd_decision (dec_details row) = d → dec_case row = case →
  let s2 := set_decisions (insert_row (decisions s1) row) s1 in
  counts_upto (Working None) s2 ∧
  ∀ batch, approved s2 batch = approved s1 batch + approved_variance (rows (cases s1)) batch row.
Proof.
  intros [Hfc Ers Ede Eap _ _ Heff] Hd Hcase s2. split.
  - split; try (done || apply Hfc).
    + apply table_ok_insert, Hfc.
    + intros task e He. destruct (ok_detail _ _ Hfc task e He). by split.
    + intros k o Ho. destruct (ok_case _ _ Hfc k o Ho). by split.
    + intros i e. cbn. intros [[<- <-]|[_ He]]%lookup_insert_Some Happ; [|by apply (ok_approved _ _ Hfc i)].
      rewrite Hcase. rewrite Hd in Happ. subst d. rewrite Happ in Heff.
      destruct Heff as (b & _ & _ & _ & _ & c' & ? & ? & _). by exists c'.
  - intros batch. unfold approved, s2. cbn. rewrite sum_rows_insert_new; [done|].
    apply table_fresh, Hfc.
Qed.
End decision.

Lemma decide_run g s caller supervisor case expected details_ now s' id row :
  counts_ok s →
  decide_work g caller supervisor case expected details_ now s = Ok (s', (id, row)) →
  ∃ c s1, rows (cases s) !! case = Some c ∧ case_state c = AwaitingApproval ∧
    decided g s case c (cd_decision details_) s1 (dec_transaction row) ∧ counts_ok s' ∧
    results s' = results s ∧ stock s' = set_context None (stock s1) ∧ cases s' = cases s1 ∧
    tasks s' = tasks s1 ∧
    ∀ batch, approved s' batch = approved s batch + approved_variance (rows (cases s1)) batch row.
Proof.
  intros Hs. unfold decide_work. intros H. apply rbind_ok in H as ([c next] & Hl & H).
  apply decide_locks_inv in Hl as [Hc Hst]. apply rbind_ok in H as ([[s1 nt] txn] & Hw & H).
  passed H Echk. apply rbind_ok in H as (sequence & _ & H).
  apply rbind_ok in H as (s2 & (o & ->)%emit_count_inv & H). apply rbind_ok in H as (st & Hcm & [= <- <- <-]).
  assert (Hdec : decided g s case c (cd_decision details_) s1 txn).
  { destruct (cd_decision details_).
    - apply rbind_ok in Hw as ([s3 t] & Hw & [= <- <- <-]). by eapply approve_decided.
    - apply rbind_ok in Hw as ([s3 t] & Hw & [= <- <- <-]). by eapply recount_decided. }
  set (row := MkDecision _ _ _ _ _ _ _ _) in *.
  destruct (write_decision g s case c s1 _ row txn Hdec eq_refl eq_refl) as [Hfc Hap].
  cbn [stock set_count_outbox set_decisions] in Hcm.
  rewrite (decided_commit g s Hs case c _ _ _ Hdec) in Hcm. injection Hcm as <-.
  exists c, s1. split_and!; try done.
  - apply (counts_frame _ _ (count_policies s1) (count_rules s1) (location_barcodes s1) (barcodes s1)
      (plates s1) o) in Hfc; [|apply Hfc..]. by apply counts_finished in Hfc.
  - apply Hdec.
  - intros batch. rewrite <-(decided_approved _ _ _ _ _ _ _ Hdec). exact (Hap batch).
Qed.
