(* ===== verification/CycleCountGuarantees.v ===== *)
(** * Cycle counts: guarantees

    What holds in every state that the handlers of stock, tasks and counts can reach, and two
    ways in which a recount can be lost for good. *)

From stdpp Require Import pretty.
From S2P Require Import Prelude.
From S2P Require Import RustStr.
From S2P Require Import Idempotency.
From S2P Require Import Outbox.
From S2P Require Import StockTypes.
From S2P Require Import StockDb.
From S2P Require Import StockJournal.
From S2P Require Import StockHandlers.
From S2P Require Import StockCommands.
From S2P Require Import StockInvariant.
From S2P Require Import StockFacts.
From S2P Require Import StockMoves.
From S2P Require Import StockTotals.
From S2P Require Import StockGuarantees.
From S2P Require Import StockHistory.
From S2P Require Import WorkTasks.
From S2P Require Import Configuration.
From S2P Require Import ReplenishmentPolicy.
From S2P Require Import CycleCount.
From S2P Require Import CountPolicy.
From S2P Require Import CycleCountDb.
From S2P Require Import CycleCountWork.
From S2P Require Import CycleCountTasks.
From S2P Require Import CycleCountPosting.
From S2P Require Import CycleCountInvariant.
From S2P Require Import CycleCountFacts.
From S2P Require Import CycleCountCases.
From S2P Require Import CycleCountConfirm.
From S2P Require Import CycleCountDecide.

(** The tables of a tenant before its first count. *)
Definition new_counts (d : Directory) (rules : gmap Z ConfigurationRow) (l : gmap Z rstr)
    (b : list (Z * rstr)) (p : gmap Z PlateRow) : Counts :=
  MkCounts (new_stock d) (MkTasks empty_table []) ∅ empty_table empty_table ∅ empty_table rules l b p
    empty_outbox.

Lemma new_counts_ok d rules l b p :
  (∀ id line, order_items d !! id = Some line → 0 < line_qty line) → count_rules_ok rules →
  counts_ok (new_counts d rules l b p) ∧ ledger_ok (new_counts d rules l b p).
Proof.
  intros Hd Hr. split; [|done]. split; try apply empty_table_ok; try done.
  by apply (new_stock_settled d).
Qed.

Section system.
Context (g : bool) (digest : list Z → rstr) (tenant : Z).
Context {Json : Type} (to_json : StockResult → option Json) (from_json : Json → option StockResult).
Context (encode : StockRequest → option (list Z)).
Context (user_can_execute : Z → option Z → option Z → rstr → bool).

Local Abbreviation step := (count_step g digest tenant to_json from_json encode user_can_execute).

(** ** Every step keeps the invariant *)

Lemma confirm_ledger s s' task quantity d b row :
  counts_ok s → confirmed g s task quantity d b s' row → ledger_ok s → ledger_ok s'.
Proof.
  intros Hs C Hl batch. destruct (confirmed_stock _ _ _ _ _ _ _ _ C) as (st & P & ->).
  change (adjusted (set_context None st) batch) with (adjusted st batch).
  rewrite (posted_adjusted _ _ _ _ _ _ _ _ P), (Hl batch), (confirmed_approved _ _ _ _ _ _ _ _ C).
  destruct (confirmed_results _ _ _ _ _ _ _ _ C) as [Hn Er].
  unfold counted. rewrite Er, sum_rows_insert_new by done. unfold posted_variance, counted_batch.
  destruct (confirmed_subject _ _ _ _ _ _ _ _ C) as [_ ->].
  rewrite (confirmed_facts _ _ _ _ _ _ _ _ C). cbn. lia.
Qed.

Lemma decide_ledger s caller supervisor case expected details_ now s' id row :
  counts_ok s → decide_work g caller supervisor case expected details_ now s = Ok (s', (id, row)) →
  ledger_ok s → ledger_ok s'.
Proof.
  intros Hs H Hl. pose proof H as H0. apply decide_run in H as
    (c & s1 & Hc & Hst & D & _ & Er & Es & Ec & _ & Ea); [|done].
  assert (Hd : cd_decision (dec_details row) = cd_decision details_ ∧ dec_case row = case).
  { unfold decide_work in H0. apply rbind_ok in H0 as ([c0 nx] & _ & H0).
    apply rbind_ok in H0 as ([[s2 nt] txn] & _ & H0). passed H0 E. apply rbind_ok in H0 as (sq & _ & H0).
    apply rbind_ok in H0 as (s3 & _ & H0). by apply rbind_ok in H0 as (st & _ & [= <- <- <-]). }
  destruct Hd as [Hd Hcase]. intros batch. rewrite Ea, Es. unfold counted. rewrite Er.
  change (adjusted (set_context None (stock s1)) batch) with (adjusted (stock s1) batch).
  specialize (Hl batch). unfold counted in Hl. unfold approved_variance. rewrite Hd, Hcase.
  pose proof (decided_effect _ _ _ _ _ _ _ D) as Heff. destruct (cd_decision details_).
  - destruct Heff as (b & Hb & Ep & Eq & P & c' & -> & _ & -> & ->).
    rewrite (posted_adjusted _ _ _ _ _ _ _ _ P). unfold counted_batch. rewrite <-Ep. cbn [andb].
    destruct (case_checks_facts c) as (-> & _); [apply (ok_case _ _ Hs case c Hc)|].
    destruct (_ =? batch); lia.
  - destruct Heff as (-> & _). lia.
Qed.

Lemma step_counts s s' : step s s' → counts_ok s → ledger_ok s → counts_ok s' ∧ ledger_ok s'.
Proof.
  intros Hstep Hs Hl.
  assert (Htasks : ∀ t, tasks_evolve (tasks s) t → counts_ok (set_tasks t s) ∧ ledger_ok (set_tasks t s)).
  { intros t Ht. split; [by apply counts_tasks|done]. }
  assert (Hframe : ∀ s', counts_ok s' ∧ quiet s s' → counts_ok s' ∧ ledger_ok s').
  { intros s1 [H1 [H2 _]]. split; [done|]. by eapply ledger_same. }
  destruct Hstep.
  - apply confirm_run in H0 as (t & d & b & _ & C); [|done|done]. split; [apply C|by eapply confirm_ledger].
  - destruct r as [id row]. split; [|by eapply decide_ledger].
    by apply decide_run in H as (c & s1 & _ & _ & _ & ? & _).
  - by eapply Hframe, configure_counts.
  - by eapply Hframe, plan_balance_counts.
  - by eapply Hframe, plan_item_counts.
  - by eapply Hframe, claim_next_counts.
  - by eapply Hframe, claim_counts.
  - by eapply Hframe, heartbeat_counts.
  - by eapply Hframe, release_counts.
  - apply Htasks, assign_evolves, Hs.
  - eapply Htasks, start_evolves; [apply Hs|done].
  - eapply Htasks, start_next_evolves; [apply Hs|done].
  - apply Htasks, abort_evolves, Hs.
  - apply Htasks, cancel_evolves, Hs.
  - apply Htasks, expired_evolves, Hs.
  - by apply Htasks, other_work_evolves.
  - pose proof (stock_closed s Hs) as Hst. pose proof (step_settled _ _ _ _ _ _ _ H Hst) as Hst'.
    pose proof (step_extends _ _ _ _ _ _ _ H (settled_wf _ Hst)) as He. cbn [snd] in *.
    split; [by apply counts_stock|by apply ledger_stock].
  - split; [|done]. apply counts_frame; [done|apply Hs..].
  - split; [|done]. apply counts_frame; [done|apply Hs|done].
Qed.

(** The states that the handlers can reach. *)
Definition reachable (s : Counts) : Prop :=
  ∃ d rules l b p, (∀ id line, order_items d !! id = Some line → 0 < line_qty line) ∧
    count_rules_ok rules ∧ rtc step (new_counts d rules l b p) s.

Lemma steps_counts s s' : rtc step s s' → counts_ok s ∧ ledger_ok s → counts_ok s' ∧ ledger_ok s'.
Proof. induction 1 as [|s1 s2 s3 H _ IH]; [done|]. intros []. apply IH. by eapply step_counts. Qed.

Lemma reachable_counts s : reachable s → counts_ok s ∧ ledger_ok s.
Proof. intros (d & rules & l & b & p & Hd & Hr & H). eapply steps_counts; [exact H|]. by apply new_counts_ok. Qed.

(** ** Where the stock comes from *)

(** C8. In every state that the handlers of stock, tasks and counts can reach, the stock of a
    batch is what was received of it, plus the variances of the counts that were posted when
    they were confirmed, plus the variances that a supervisor approved: nothing else creates
    or destroys stock. *)
Theorem stock_received_or_counted s batch :
  reachable s →
  stock_of_batch (stock s) batch = received (stock s) batch + counted s batch + approved s batch.
Proof.
  intros [Hs Hl]%reachable_counts. rewrite stock_received by (by apply stock_closed).
  specialize (Hl batch). lia.
Qed.

(** ** What a confirmation does *)

(** C9. A confirmed count is posted exactly when its variance is within the tolerance in
    force: for a recount the one that its case froze; for any other count that of the Count
    rule in force, or else of the operational policy; without an operational policy every
    variance is posted. The variance is within a tolerance when it is at most its absolute
    quantity, or at most its percentage of the stock on the books, rounded up. A posted
    count puts the counted quantity on the books, and a variance has its one journal entry;
    a count that is not posted changes no balance and no entry, and leaves an open case
    that holds what was found. *)
Theorem confirmed_count_posted s caller task quantity note scans clock s' conf :
  reachable s → quantity ≤ i64_max →
  confirm_work g digest caller task quantity note scans clock s = Ok (s', conf) →
  let row := cn_row conf in
  let id := ct_balance (res_stock row) in
  ∃ d b, details s !! task = Some d ∧ id = det_balance d ∧
    rows (balances (stock s)) !! id = Some b ∧
    res_facts row = facts_of b quantity (quantity - qty_on_hand b) ∧
    (res_disposition row = Posted ↔
     within_tolerance (tolerance_in_force s d (now_iso clock)) (qty_on_hand b)
       (quantity - qty_on_hand b)) ∧
    (∀ allowed, res_allowed row = Some allowed →
       (res_disposition row = Posted ↔ Z.abs (quantity - qty_on_hand b) ≤ allowed)) ∧
    if bool_decide (res_disposition row = Posted)
    then rows (balances (stock s')) = <[id := with_on_hand quantity b]> (rows (balances (stock s))) ∧
      entries (stock s') = entries (stock s) ++
        (if quantity =? qty_on_hand b then []
         else [MkEntry (StockFacts.opened (stock s)) (position b) (trace_at (stock s) (position b))
                 (quantity - qty_on_hand b)])
    else rows (balances (stock s')) = rows (balances (stock s)) ∧
      entries (stock s') = entries (stock s) ∧
      ∃ case c, res_case row = Some case ∧ rows (cases s') !! case = Some c ∧
        case_facts c = res_facts row ∧
        case_state c = (if bool_decide (res_disposition row = RecountRequired)
                        then AwaitingRecount else AwaitingApproval).
Proof.
  intros [Hs _]%reachable_counts Hq H. pose proof (confirm_within _ _ _ _ _ _ _ _ _ _ _ H) as
    (d0 & b0 & Hd0 & Hb0 & Hin).
  apply confirm_run in H as (t & d & b & L & C); [|done|done].
  assert (d0 = d) as -> by (pose proof (locked_detail _ _ _ _ _ _ _ L); congruence).
  assert (b0 = b) as -> by (pose proof (locked_balance _ _ _ _ _ _ _ L); congruence).
  destruct (confirmed_subject _ _ _ _ _ _ _ _ C) as [Eb _].
  destruct (confirmed_stock _ _ _ _ _ _ _ _ C) as (st & P & Est). cbn zeta. rewrite Eb, Est.
  exists d, b. split_and!; [apply L|done|apply L|apply C|done|apply C|].
  change (balances (set_context None st)) with (balances st).
  change (entries (set_context None st)) with (entries st).
  rewrite (posted_balances _ _ _ _ _ _ _ _ P).
  destruct (posted_entries _ _ _ _ _ _ _ _ P) as (es & -> & ->).
  rewrite (posted_transaction _ _ _ _ _ _ _ _ P). case_bool_decide as Hd; cbn [andb].
  - split; [done|]. by destruct (quantity =? qty_on_hand b).
  - rewrite app_nil_r. split_and!; [done|done|].
    destruct (confirmed_case _ _ _ _ _ _ _ _ C Hd) as (case & c & ? & ? & _ & ? & ?). by exists case, c.
Qed.

(** ** What the cases are *)

(** C10. In every reachable state, an open variance case is the only one of its balance; it
    has used up as many recounts as results asked for, and no more than its policy grants; one
    that awaits approval is out of tolerance and no live task counts it; one that awaits a
    recount has the one task that counts it, which is not completed. *)
Theorem variance_cases_sound s case c :
  reachable s → rows (cases s) !! case = Some c → open_case c = true →
  (∀ k o, rows (cases s) !! k = Some o → open_case o = true →
     ct_balance (case_stock o) = ct_balance (case_stock c) → k = case) ∧
  case_used c = recounts s case ∧
  case_used c ≤ automatic_recount_limit (snap_policy (case_policy c)) ≤ MAX_CYCLE_COUNT_RECOUNTS ∧
  match case_state c with
  | AwaitingApproval => case_allowed c < Z.abs (cf_variance (case_facts c)) ∧
      ∀ task d, details s !! task = Some d → det_case d = Some case → ¬ live_task s task
  | AwaitingRecount => task_status s (case_task c) ≠ Some TaskCompleted ∧
      ∀ task d, details s !! task = Some d → det_case d = Some case → live_task s task →
        task = case_task c
  | VariancePosted => True
  end.
Proof.
  intros [Hs _]%reachable_counts Hc Hopen. destruct (ok_case _ _ Hs case c Hc) as [H1 H2 H3 H4 H5 H6].
  specialize (H6 (fun x => x)). unfold state_ok in H6. cbn in H5. split_and!; try lia.
  - intros k o Ho Hoo E. by apply (ok_one_case _ _ Hs k case o c).
  - destruct (case_state c) eqn:Est; [|split; [done|]|done].
    + split; [apply H6|]. intros task d Hd Hdc Hl.
      destruct (detail_linked _ _ _ _ (ok_detail _ _ Hs task d Hd) case Hdc) as (c0 & Hc0 & _ & Hlive).
      assert (c0 = c) as -> by congruence. destruct Hlive as [_ <-]; [by intros []|done|done].
    + intros task d Hd Hdc. by apply (approval_idle s case c task d).
Qed.

(** C11. In every reachable state no two live tasks count the same balance, and a count that
    has a result is completed. *)
Theorem counts_not_doubled s :
  reachable s →
  (∀ i j d e, details s !! i = Some d → details s !! j = Some e → live_task s i → live_task s j →
     det_balance d = det_balance e → i = j) ∧
  ∀ task r, results s !! task = Some r → task_status s task = Some TaskCompleted.
Proof.
  intros [Hs _]%reachable_counts. split; [apply (ok_one_live _ _ Hs)|].
  intros task r Hr. by apply (ok_result _ _ Hs task r Hr).
Qed.

(** ** Recounts that can be lost *)

(** A case that waits for a count whose task was cancelled. *)
Definition stranded (s : Counts) (case : Z) (c : CaseRow) : Prop :=
  rows (cases s) !! case = Some c ∧ case_state c = AwaitingRecount ∧
  task_status s (case_task c) = Some TaskCancelled.

Lemma stranded_detail s case c :
  counts_ok s → stranded s case c → is_Some (details s !! case_task c).
Proof.
  intros Hs (Hc & Hst & _). destruct (ok_case _ _ Hs case c Hc) as [_ _ _ _ _ H6].
  specialize (H6 (fun x => x)). unfold state_ok in H6. rewrite Hst in H6.
  destruct H6 as [_ (d & Hd & _)]. by exists d.
Qed.

(** The task of a confirmation is in progress, so it is not that of a stranded case. *)
Lemma stranded_other s caller task quantity t d b case c :
  stranded s case c → locked_count s caller task quantity t d b → case_task c ≠ task.
Proof.
  intros (_ & _ & Hst) L E. rewrite E in Hst. unfold task_status in Hst.
  rewrite (locked_task _ _ _ _ _ _ _ L) in Hst.
  cbn in Hst. rewrite (locked_status _ _ _ _ _ _ _ L) in Hst. done.
Qed.

Lemma stranded_step s s' case c : step s s' → counts_ok s → stranded s case c → stranded s' case c.
Proof.
  intros Hstep Hs Hstr. pose proof (stranded_detail s case c Hs Hstr) as Hdet.
  pose proof Hstr as (Hc & Hst & Hcan).
  assert (Hquiet : ∀ s', counts_ok s' ∧ quiet s s' → stranded s' case c).
  { intros s1 [_ [(_ & _ & Ec & _) Hk]]. split_and!; [by rewrite Ec|done|by apply Hk]. }
  assert (Htasks : ∀ t, tasks_evolve (tasks s) t → stranded (set_tasks t s) case c).
  { intros t Ht. by apply Hquiet, counts_tasks_quiet. }
  destruct Hstep.
  - apply confirm_run in H0 as (t & d & b & L & C); [|done|done].
    pose proof (stranded_other _ _ _ _ _ _ _ _ _ Hstr L) as Hne. split_and!; [|done|].
    + destruct (confirmed_others _ _ _ _ _ _ _ _ C case c Hc) as [[_ ?]|?]; done.
    + unfold task_status. by rewrite (confirmed_tasks _ _ _ _ _ _ _ _ C).
  - destruct r as [id row]. apply decide_run in H as (c1 & s1 & Hc1 & Hst1 & D & _ & _ & _ & Ec & Et & _);
      [|done].
    assert (case0 ≠ case) by congruence. split_and!; [|done|].
    + by rewrite Ec, (decided_others _ _ _ _ _ _ _ D).
    + unfold task_status. by rewrite Et, (decided_tasks _ _ _ _ _ _ _ D).
  - by eapply Hquiet, configure_counts.
  - by eapply Hquiet, plan_balance_counts.
  - by eapply Hquiet, plan_item_counts.
  - by eapply Hquiet, claim_next_counts.
  - by eapply Hquiet, claim_counts.
  - by eapply Hquiet, heartbeat_counts.
  - by eapply Hquiet, release_counts.
  - apply Htasks, assign_evolves, Hs.
  - eapply Htasks, start_evolves; [apply Hs|done].
  - eapply Htasks, start_next_evolves; [apply Hs|done].
  - apply Htasks, abort_evolves, Hs.
  - apply Htasks, cancel_evolves, Hs.
  - apply Htasks, expired_evolves, Hs.
  - by apply Htasks, other_work_evolves.
  - done.
  - done.
  - done.
Qed.

Lemma stranded_forever s s' case c :
  rtc step s s' → counts_ok s ∧ ledger_ok s → stranded s case c → stranded s' case c.
Proof.
  induction 1 as [|s1 s2 s3 H _ IH]; [done|]. intros [Hs Hl] Hstr.
  apply IH; [by eapply step_counts|by eapply stranded_step].
Qed.

(** C18. A recount that is cancelled strands its case: whatever the handlers do afterwards, the
    case keeps waiting, and from then on a count of its balance is only ever confirmed within
    the tolerance. *)
Theorem cancelled_recount_strands_case s s' case c :
  reachable s → rows (cases s) !! case = Some c → case_state c = AwaitingRecount →
  task_status s (case_task c) = Some TaskCancelled → rtc step s s' →
  rows (cases s') !! case = Some c ∧
  ∀ caller task quantity note scans clock s'' conf,
    quantity ≤ i64_max →
    confirm_work g digest caller task quantity note scans clock s' = Ok (s'', conf) →
    ct_balance (res_stock (cn_row conf)) = ct_balance (case_stock c) →
    res_disposition (cn_row conf) = Posted.
Proof.
  intros Hr Hc Hst Hcan Hsteps. apply reachable_counts in Hr as Hok.
  assert (Hstr : stranded s' case c) by (by eapply stranded_forever).
  destruct (steps_counts _ _ Hsteps Hok) as [Hs' _]. split; [apply Hstr|].
  intros caller task quantity note scans clock s2 conf Hq H Eb.
  apply confirm_run in H as (t & d & b & L & C); [|done|done].
  pose proof (stranded_other _ _ _ _ _ _ _ _ _ Hstr L) as Hne.
  destruct (decide (res_disposition (cn_row conf) = Posted)) as [|Hn]; [done|exfalso].
  destruct (confirmed_case _ _ _ _ _ _ _ _ C Hn) as (k & o & Hk & Ho & Ebo & _ & Eso).
  destruct Hstr as (Hc' & Hst' & _).
  destruct (confirmed_others _ _ _ _ _ _ _ _ C case c Hc') as [[_ ?]|Hc2]; [done|].
  destruct (confirmed_subject _ _ _ _ _ _ _ _ C) as [Ed _].
  assert (Hko : k = case).
  { apply (ok_one_case _ _ (confirmed_counts _ _ _ _ _ _ _ _ C) k case o c); try done; [| |congruence].
    - unfold open_case. rewrite Eso. by case_bool_decide.
    - unfold open_case. by rewrite Hst'. }
  subst k. destruct (confirmed_origin _ _ _ _ _ _ _ _ C case Hk) as [?|(o' & Ho' & _ & ?)]; [congruence|].
  assert (o' = c) by congruence. congruence.
Qed.
End system.

(** ** A rule that changes under a recount *)

(** The Count rule that resolves now is the one in the evidence of the case. *)
Definition rule_in_force (s : Counts) (c : CaseRow) (at_ : Z) : Prop :=
  let p := ct_position (case_stock c) in
  fst <$> resolved_configuration (count_rules s) (StockTypes.inventory_owner_id p)
            (StockTypes.facility_id p) at_ =
  match cp_source (case_evidence c) with
  | CountProductDefault => None
  | CountConfiguration => cp_configuration_id (case_evidence c)
  end.

Lemma evidence_source digest row p :
  count_decision_policy_from_row digest row = Ok p →
  cp_source p = cp_source row ∧
  (cp_source row = CountConfiguration → cp_configuration_id p = cp_configuration_id row).
Proof.
  unfold count_decision_policy_from_row. intros H. apply rbind_ok in H as (q & Hq & H).
  case_bool_decide; [|done]. injection H as <-. destruct (cp_source row).
  - apply rbind_ok in Hq as (t & _ & [= <-]). done.
  - apply rbind_ok in Hq as (id & Hid%ok_or_ok & Hq). apply rbind_ok in Hq as (r & _ & Hq).
    apply rbind_ok in Hq as (sc & _ & Hq). apply rbind_ok in Hq as (th & _ & Hq).
    unfold configured_policy in Hq. apply rbind_ok in Hq as (id' & Hid' & Hq%internal_error_ok).
    unfold positive_new in Hid'. destruct (0 <? id); [|done]. injection Hid' as <-.
    unfold count_from_configuration in Hq. destruct (r <=? 0); [done|].
    apply rbind_ok in Hq as (_ & _ & [= <-]). by rewrite Hid.
Qed.

(** What the trigger accepts names the rule in force. *)
Lemma validated_rule digest rules owner facility at_ policy e :
  validate_count_decision_snapshot digest rules owner facility at_ (Some policy) (Some e) = true →
  fst <$> resolved_configuration rules owner facility at_ =
  match cp_source e with CountProductDefault => None | CountConfiguration => cp_configuration_id e end.
Proof.
  unfold validate_count_decision_snapshot. intros H. apply andb_true_iff in H as [H _].
  destruct (cp_source e), (resolved_configuration _ _ _ _) as [[id row]|]; try done.
  bool_to_prop. destruct_and?. cbn. congruence.
Qed.

(** C17. A recount is refused, whatever was counted, once another Count rule resolves than the
    one its case was opened under: the confirmation judges it by the frozen evidence of the
    case, and the trigger on results compares that evidence with the rule in force. *)
Theorem configuration_change_blocks_recount g digest s caller task quantity note scans clock d case c :
  details s !! task = Some d → det_case d = Some case → rows (cases s) !! case = Some c →
  ¬ rule_in_force s c (now_iso clock) →
  ∃ e, confirm_work g digest caller task quantity note scans clock s = Err e.
Proof.
  intros Hd Hcase Hc Hrule.
  destruct (confirm_work g digest caller task quantity note scans clock s) as [[s' conf]|e] eqn:H; [|by eexists].
  exfalso. apply Hrule. unfold confirm_work in H. passed H E1. destruct (quantity <? 0); [done|].
  apply rbind_ok in H as (n & _ & H). apply rbind_ok in H as ([[[tgt b] trace] v] & Hl & H).
  apply lock_count_inv in Hl as (t & d' & L & -> & -> & _).
  assert (d' = d) as -> by (pose proof (locked_detail _ _ _ _ _ _ _ L); congruence).
  apply rbind_ok in H as ([s1 control] & Hctl & H). apply rbind_ok in H as ([st txn] & _ & H).
  apply rbind_ok in H as (_ & _ & H). apply rbind_ok in H as (s2 & Hins & _).
  unfold insert_result in Hins. passed Hins E2. passed Hins E3. clear Hins E2.
  unfold prepare_count_control_tx in Hctl. cbn [tgt_case target_of] in Hctl. rewrite Hcase in Hctl.
  apply rbind_ok in Hctl as (ctl & Hctl & [= <- ->]). unfold prepare_existing_case_tx in Hctl.
  apply rbind_ok in Hctl as (c0 & Hc0%ok_or_ok & Hctl). assert (c0 = c) as -> by congruence.
  passed Hctl E4. apply rbind_ok in Hctl as (att & _ & Hctl). passed Hctl E5.
  apply rbind_ok in Hctl as (ev & Hev & Hctl). apply rbind_ok in Hctl as (pol & _ & Hctl).
  apply rbind_ok in Hctl as (al & _ & Hctl). apply rbind_ok in Hctl as (di & _ & Hctl).
  apply rbind_ok in Hctl as (rev & _ & [= <-]).
  cbn [res_stock ct_position res_confirmed_at res_policy res_evidence pc_policy pc_evidence fmap
    option_fmap option_map count_rules set_stock] in E3.
  apply validated_rule in E3. apply evidence_source in Hev as [Esrc Eid].
  rewrite (locked_owner _ _ _ _ _ _ _ L), (locked_facility _ _ _ _ _ _ _ L), Esrc in E3.
  unfold rule_in_force. cbn in E4. bool_to_prop. destruct_and?.
  repeat match goal with E : _ = det_owner d |- _ => rewrite E; clear E
                       | E : _ = det_facility d |- _ => rewrite E; clear E end.
  rewrite E3. destruct (cp_source (case_evidence c)); [done|by apply Eid].
Qed.
