(* ===== verification/CycleCountScenario.v ===== *)
(** * Cycle counts: a scenario

    A tenant receives ten units, counts them and finds four: the witnesses of the theorems of
    [CycleCountGuarantees] apply them along the way. *)

From S2P Require Import Prelude.
From S2P Require Import RustStr.
From S2P Require Import Idempotency.
From S2P Require Import Outbox.
From S2P Require Import StockTypes.
From S2P Require Import StockDb.
From S2P Require Import StockJournal.
From S2P Require Import StockHandlers.
From S2P Require Import StockCommands.
From S2P Require Import StockInvariant.
From S2P Require Import StockTotals.
From S2P Require Import StockGuarantees.
From S2P Require Import WorkTasks.
From S2P Require Import Configuration.
From S2P Require Import ReplenishmentPolicy.
From S2P Require Import CycleCount.
From S2P Require Import CountPolicy.
From S2P Require Import CycleCountDb.
From S2P Require Import CycleCountWork.
From S2P Require Import CycleCountTasks.
From S2P Require Import CycleCountInvariant.
From S2P Require Import CycleCountConfirm.
From S2P Require Import CycleCountGuarantees.

Definition scene_step : relation Counts :=
  count_step true sample_digest 1 (Json := StockResult) Some Some demo_encode (fun _ _ _ _ => true).

Definition scene_reachable : Counts → Prop :=
  reachable true sample_digest 1 (Json := StockResult) Some Some demo_encode (fun _ _ _ _ => true).

(** The state after a handler, or before it if it was refused. *)
Definition after {A} (s : Counts) (run : Counts → result (Counts * A) ApplicationError) : Counts :=
  match run s with Ok (s', _) => s' | Err _ => s end.

Lemma after_steps {A} s0 s (run : Counts → result (Counts * A) ApplicationError) :
  rtc scene_step s0 s → (∀ s' r, run s = Ok (s', r) → scene_step s s') → rtc scene_step s0 (after s run).
Proof.
  intros Hs H. unfold after. destruct (run s) as [[s' r]|] eqn:E; [|done].
  eapply rtc_r; [exact Hs|]. by eapply H.
Qed.

Definition scene_caller (key : string) : Caller := MkCaller 3 unrestricted (lit "req") (lit key) (lit "h").
Definition scene_clock (now : Z) : Clock := MkClock now now now now.

Definition scene_labels : gmap Z rstr := {[1 := lit "L1"]}.
Definition scene_start : Counts := new_counts demo_directory ∅ scene_labels [(7, lit "I7")] ∅.

Definition scene_stocked : Counts :=
  after (after scene_start (fun s =>
    let? (st, b) := add_item_batch 1 7 None (None, None, None) (stock s) in Ok (set_stock st s, b)))
    (fun s => let? (db, r) := demo_run (CallReceive 1 3 unrestricted (lit "k1") 1 1 10 None no_memo)
                                (∅, stock s) in Ok (set_stock db.2 s, r)).

(** One unit of tolerance and two recounts. *)
Definition scene_planned : Counts :=
  after (after scene_stocked (configure_policy_work 1 (scene_caller "c1") true 1 1 (MkTolerance 1 0 2) None 100))
    (create_inventory_balance_cycle_count_task_in_scope (scene_caller "c2") 1 110).

Definition scene_claimed : Counts :=
  after scene_planned (claim_cycle_count_by_id_in_scope unrestricted unrestricted 1 3 120 120 120).

Definition scene_count (quantity : Z) : Counts → result (Counts * Confirmation) ApplicationError :=
  confirm_work true sample_digest (scene_caller "c3") 1 quantity None None (scene_clock 130).

(** Four units are found: the count is to be repeated by task 2. *)
Definition scene_disputed : Counts := after scene_claimed (scene_count 4).

Definition scene_cancelled : Counts := set_tasks (cancel_task unrestricted 2 3 140 (tasks scene_disputed)).1 scene_disputed.

Definition scene_reclaimed : Counts :=
  after scene_disputed (claim_cycle_count_by_id_in_scope unrestricted unrestricted 2 3 140 140 140).

Definition scene_recounted (s : Counts) : result (Counts * Confirmation) ApplicationError :=
  confirm_work true sample_digest (scene_caller "c4") 2 4 None None (scene_clock 150) s.

(** ** The states are reachable *)

Lemma scene_stocked_steps : rtc scene_step scene_start scene_stocked.
Proof.
  apply after_steps; [apply after_steps; [done|]|]; intros s' r H.
  - apply rbind_ok in H as ([st b] & H & [= <- <-]). eapply (step_stock _ _ _ _ _ _ _ _ ∅ ∅).
    by eapply (step_add_batch _ _ _ _ _ (∅, stock scene_start)).
  - apply rbind_ok in H as ([[records st] b] & H & [= <- <-]). eapply step_stock. by eapply step_command.
Qed.

Lemma scene_planned_steps : rtc scene_step scene_start scene_planned.
Proof.
  apply after_steps; [apply after_steps; [apply scene_stocked_steps|]|]; intros s' r H.
  - eapply step_configure; [|exact H]. unfold tolerance_ok. cbn.
    unfold MAX_CYCLE_COUNT_PERCENTAGE_BASIS_POINTS, MAX_CYCLE_COUNT_RECOUNTS. range_lia.
  - by eapply step_plan_balance.
Qed.

Lemma scene_claimed_steps : rtc scene_step scene_start scene_claimed.
Proof. apply after_steps; [apply scene_planned_steps|]. intros s' r H. by eapply step_claim. Qed.

Lemma scene_disputed_steps : rtc scene_step scene_start scene_disputed.
Proof.
  apply after_steps; [apply scene_claimed_steps|]. intros s' r H.
  by eapply (step_confirm _ _ _ _ _ _ _ _ _ _ 4).
Qed.

Lemma scene_cancelled_steps : rtc scene_step scene_start scene_cancelled.
Proof. eapply rtc_r; [apply scene_disputed_steps|]. apply step_cancel. Qed.

Lemma scene_is_reachable s : rtc scene_step scene_start s → scene_reachable s.
Proof.
  intros H. exists demo_directory, ∅, scene_labels, [(7, lit "I7")], ∅. split_and!; [|done|done].
  apply demo_lines.
Qed.

(** ** Witnesses *)

(** Nine units are found: within the tolerance. *)
Definition scene_posted : Counts := after scene_claimed (scene_count 9).

(** The balance of the stranded case is counted once more, by task 3. *)
Definition scene_replanned : Counts :=
  after scene_cancelled (create_inventory_balance_cycle_count_task_in_scope (scene_caller "c5") 1 160).

(** A tenant-wide Count rule is activated before the recount is confirmed. *)
Definition scene_rules : gmap Z ConfigurationRow :=
  {[1 := MkConfigurationRow 1 TenantScope ActiveConfiguration (Some 145) (MkWindow 145 None) (CountRule 1 0 5)]}.
Definition scene_reconfigured : Counts := set_count_rules scene_rules scene_reclaimed.

Lemma scene_posted_steps : rtc scene_step scene_start scene_posted.
Proof.
  apply after_steps; [apply scene_claimed_steps|]. intros s' r H.
  by eapply (step_confirm _ _ _ _ _ _ _ _ _ _ 9).
Qed.

Lemma scene_replanned_steps : rtc scene_step scene_cancelled scene_replanned.
Proof. apply after_steps; [done|]. intros s' r H. by eapply step_plan_balance. Qed.

Lemma row_satisfies {A} (m : gmap Z A) i (p : A → bool) :
  from_option p false (m !! i) = true → ∃ x, m !! i = Some x ∧ p x = true.
Proof. destruct (m !! i) as [x|]; [|done]. by exists x. Qed.

Lemma scene_posted_totals :
  stock_of_batch (stock scene_posted) 1 = 9 ∧ received (stock scene_posted) 1 = 10 ∧
  counted scene_posted 1 = -1.
Proof. by vm_compute. Qed.

Lemma scene_counts : ∃ s' conf, scene_count 9 scene_claimed = Ok (s', conf) ∧
  res_disposition (cn_row conf) = Posted.
Proof.
  assert (H : match scene_count 9 scene_claimed with
    | Ok (_, conf) => bool_decide (res_disposition (cn_row conf) = Posted) | Err _ => false end = true)
    by (by vm_compute).
  destruct (scene_count 9 scene_claimed) as [[s' conf]|]; [|done]. exists s', conf. split; [done|].
  by apply bool_decide_eq_true_1 in H.
Qed.

Lemma scene_nine : 9 ≤ i64_max.
Proof. done. Qed.

Lemma scene_case (s : Counts) (status : WorkTaskStatus) :
  from_option (fun c => bool_decide (case_state c = AwaitingRecount)
                        && bool_decide (task_status s (case_task c) = Some status))
    false (rows (cases s) !! 1) = true →
  ∃ c, rows (cases s) !! 1 = Some c ∧ case_state c = AwaitingRecount ∧
    task_status s (case_task c) = Some status.
Proof. intros (c & Hc & H)%row_satisfies. exists c. bool_to_prop. by destruct_and?. Qed.

Lemma scene_disputed_case : ∃ c, rows (cases scene_disputed) !! 1 = Some c ∧
  case_state c = AwaitingRecount ∧ task_status scene_disputed (case_task c) = Some TaskOpen.
Proof. apply scene_case. by vm_compute. Qed.

Lemma scene_cancelled_case : ∃ c, rows (cases scene_cancelled) !! 1 = Some c ∧
  case_state c = AwaitingRecount ∧ task_status scene_cancelled (case_task c) = Some TaskCancelled.
Proof. apply scene_case. by vm_compute. Qed.

(** The new task of the balance is live. *)
Lemma scene_replanned_task : task_status scene_replanned 3 = Some TaskOpen.
Proof. by vm_compute. Qed.

Lemma scene_recount : ∃ d c, details scene_reconfigured !! 2 = Some d ∧ det_case d = Some 1 ∧
  rows (cases scene_reconfigured) !! 1 = Some c ∧ cp_source (case_evidence c) = CountProductDefault ∧
  ct_position (case_stock c) = loose 1 1 1 1 7 (lit "ea") Available.
Proof.
  destruct (row_satisfies (details scene_reconfigured) 2 (fun d => bool_decide (det_case d = Some 1)))
    as (d & Hd & Hd'); [by vm_compute|].
  destruct (row_satisfies (rows (cases scene_reconfigured)) 1 (fun c =>
    bool_decide (cp_source (case_evidence c) = CountProductDefault)
    && bool_decide (ct_position (case_stock c) = loose 1 1 1 1 7 (lit "ea") Available)))
    as (c & Hc & Hc'); [by vm_compute|].
  exists d, c. apply bool_decide_eq_true_1 in Hd'. apply andb_true_iff in Hc' as [H1 H2].
  apply bool_decide_eq_true_1 in H1, H2. split_and!; assumption.
Qed.

(** Without the new rule the recount is confirmed. *)
Lemma scene_recount_confirmed : ∃ s' conf, scene_recounted scene_reclaimed = Ok (s', conf).
Proof.
  destruct (scene_recounted scene_reclaimed) as [[s' conf]|] eqn:E; [by exists s', conf|].
  exfalso. assert (H : (match scene_recounted scene_reclaimed with Ok _ => true | Err _ => false end) = true) by (by vm_compute).
  by rewrite E in H.
Qed.

Lemma stock_received_or_counted_witness :
  scene_reachable scene_posted ∧
  stock_of_batch (stock scene_posted) 1
    = received (stock scene_posted) 1 + counted scene_posted 1 + approved scene_posted 1.
Proof.
  pose proof (scene_is_reachable _ scene_posted_steps) as H. split; [exact H|].
  exact (stock_received_or_counted true sample_digest 1 Some Some demo_encode _ scene_posted 1 H).
Defined.

Lemma scene_tolerance d : details scene_claimed !! 1 = Some d →
  tolerance_in_force scene_claimed d 130 = Some (1, 0).
Proof.
  intros Hd. assert (H : from_option (fun d => bool_decide (tolerance_in_force scene_claimed d 130 = Some (1, 0)))
    false (details scene_claimed !! 1) = true) by (by vm_compute).
  rewrite Hd in H. by apply bool_decide_eq_true_1 in H.
Qed.

Lemma confirmed_count_posted_witness :
  ∃ s' conf b, scene_count 9 scene_claimed = Ok (s', conf) ∧
    within_tolerance (Some (1, 0)) (qty_on_hand b) (9 - qty_on_hand b) ∧
    rows (balances (stock s')) =
      <[ct_balance (res_stock (cn_row conf)) := with_on_hand 9 b]> (rows (balances (stock scene_claimed))).
Proof.
  destruct scene_counts as (s' & conf & H & Hd). exists s', conf.
  destruct (confirmed_count_posted true sample_digest 1 Some Some demo_encode _ scene_claimed
    (scene_caller "c3") 1 9 None None (scene_clock 130) s' conf (scene_is_reachable _ scene_claimed_steps)
    scene_nine H) as (d & b & Hdet & _ & _ & _ & Hin & _ & Hp).
  exists b. split; [exact H|]. rewrite Hd in Hp. split; [|exact (proj1 Hp)].
  rewrite <-(scene_tolerance d Hdet). exact (proj1 Hin Hd).
Defined.

Lemma variance_cases_sound_witness :
  ∃ c, rows (cases scene_disputed) !! 1 = Some c ∧ case_used c = recounts scene_disputed 1.
Proof.
  destruct scene_disputed_case as (c & Hc & Hst & _). exists c. split; [exact Hc|].
  assert (Hop : open_case c = true) by (unfold open_case; by rewrite Hst).
  exact (proj1 (proj2 (variance_cases_sound true sample_digest 1 Some Some demo_encode _ scene_disputed 1 c
    (scene_is_reachable _ scene_disputed_steps) Hc Hop))).
Defined.

Lemma scene_result : is_Some (results scene_disputed !! 1).
Proof. apply (bool_decide_eq_true_1 (is_Some (results scene_disputed !! 1))). by vm_compute. Qed.

Lemma counts_not_doubled_witness :
  ∃ r, results scene_disputed !! 1 = Some r ∧ task_status scene_disputed 1 = Some TaskCompleted.
Proof.
  destruct scene_result as [r Hr]. exists r. split; [exact Hr|].
  exact (proj2 (counts_not_doubled true sample_digest 1 Some Some demo_encode _ scene_disputed
    (scene_is_reachable _ scene_disputed_steps)) 1 r Hr).
Defined.

Lemma cancelled_recount_strands_case_witness :
  ∃ c, rows (cases scene_cancelled) !! 1 = Some c ∧ rows (cases scene_replanned) !! 1 = Some c ∧
    task_status scene_replanned 3 = Some TaskOpen.
Proof.
  destruct scene_cancelled_case as (c & Hc & Hst & Hcan). exists c. split; [exact Hc|].
  split; [|exact scene_replanned_task].
  exact (proj1 (cancelled_recount_strands_case true sample_digest 1 Some Some demo_encode _ scene_cancelled
    scene_replanned 1 c (scene_is_reachable _ scene_cancelled_steps) Hc Hst Hcan scene_replanned_steps)).
Defined.

Lemma configuration_change_blocks_recount_witness :
  ∃ e, scene_recounted scene_reconfigured = Err e.
Proof.
  destruct scene_recount as (d & c & Hd & Hcase & Hc & Hsrc & Hpos).
  refine (configuration_change_blocks_recount true sample_digest scene_reconfigured _ 2 4 None None
    (scene_clock 150) d 1 c Hd Hcase Hc _).
  unfold rule_in_force. rewrite Hsrc, Hpos. by vm_compute.
Defined.
